(* ===== verification/_CoqProject ===== *)
-Q . S2P
Prelude.v
Text.v
Values.v
Decimals.v
Transform.v
SourceMapping.v
Polars.v
Normalize.v
NormalizeSpec.v
Numbers.v
Engine.v
EngineSpec.v
EngineProps.v
MappingTheorems.v
Canonical.v
Provenance.v
Enrichment.v
HotMapping.v
Sink.v
SinkProps.v
SinkGroups.v
Redelivery.v
SinkTheorems.v
HotTheorems.v
Paths.v
PathTheorems.v
Validation.v
ValidationTheorems.v
Quarantine.v
Consumer.v
ConsumerProps.v
Subscriber.v
ConsumerTheorems.v
HoldTheorems.v
Pii.v
Worker.v
WorkerTheorems.v
WorkerRetries.v
UiErrors.v
Access.v
Rules.v
TemplateGate.v
GateTheorems.v
Rls.v
Templates.v
TemplateApi.v
TemplateLife.v
TemplateTheorems.v
TenantTheorems.v
TenantSample.v
Concurrent.v
Catalog.v
Csv.v
UploadStream.v
UploadForm.v
UploadLimits.v
Mirror.v
Upload.v
CsvTheorems.v
UploadTheorems.v
UploadWorker.v
UploadSample.v
MirrorTheorems.v
Console.v
ConsoleTheorems.v
ConsoleHold.v
Dashboard.v
AuditTrail.v
Stores.v
Ir.v
Suggest.v
Startup.v
Profiler.v
Codegen.v
AtlasStore.v
Atlas.v
AtlasInvariant.v
AtlasTheorems.v
AtlasRequests.v
AtlasSample.v
