(* ===== verification/Prelude.v ===== *)
(** * The data ingestion system: a verification development

    DIS takes the CSV files of retailers and turns them into canonical rows.  A
    file enters through the upload endpoint of [dis-ui-server], is recorded by
    [csv-ingest-worker] and mapped, checked and written by [streaming-consumer].
    How a file is mapped is a template, which [dis-ui-server] creates and edits.
    The parts share libraries under [libs/].  This development models them as
    executable functions, composed as the code composes them, and proves what
    they promise.

    ** How code is modelled

    A pure function is a Gallina function.  A fallible function returns
    [result E A], whose error is the exception it raises: [exn] for the libraries,
    [ui_exn] for the service.  Stateful code passes its state: [worker], [flow],
    [upload] and [action] are state and exception monads.  A write to a database,
    a store or a topic may fail before or after it took effect ([Effect]), so that
    a crash at any point is a run of the model.  Code outside the repository is a
    parameter: a class whose fields are its functions ([Polars], [Codec],
    [Pandera], [Pydantic], [Outside], [WorkerOutside], [AuthOutside], [Multipart],
    [UploadOutside], [DashboardOutside], [Collation], [SuggestOutside], [AuditOutside], [ProcessOutside],
    [AtlasOutside], [ModelOutside]) and, where a theorem relies on documented behaviour, a class
    of laws beside it ([LatestLaws], [MultipartOrder], [HexDigest], [WireLaws],
    [RulesModel], [DashboardLaws]); each class of laws has an instance to which the theorems are
    applied.  A Python dict is the list of its items in insertion order ([dict]).
    Text is ASCII or its UTF-8 bytes: upper case, lower case and stripping concern
    ASCII letters and blanks.  Times are microseconds since the epoch.  A computed
    float is a double of the Standard Library's [spec_float].

    ** Mapping ([libs/dis-mapping])

    Text, Values and Decimals hold what the code uses of Python's
    strings, values, [datetime] and [Decimal].  Transform and SourceMapping are the
    rule vocabulary and its validation ([models/]).  Polars is the frame interface;
    Normalize, Numbers and Engine are the engine ([engine/]).  NormalizeSpec,
    EngineSpec and EngineProps give a mapping its meaning cell by cell;
    MappingTheorems shows that the engine computes it when the declared time zones are
    known and raises a configuration error when one is not, that it partitions the rows
    of a mapping that renames a column (one that renames none loses them all), loses
    no value silently, that construction accepts exactly the well-formed rules and
    that [parse_decimal] accepts exactly its locale, and evaluates an example.  The laws
    of Polars are those of decimals of at most 38 digits.

    ** Consumer ([services/streaming-consumer], [libs/dis-canonical],
       [libs/dis-validation], [libs/dis-enrichment], [libs/dis-quarantine])

    Canonical and Provenance are the row models and which part of the system owns
    each column.  Enrichment and HotMapping load and route the active
    mapping and shape the rows ([pipeline/mapping.py], [pipeline/write.py]).  Sink
    is the dual write of events and hot positions ([sinks/canonical.py]), with
    SinkProps, SinkGroups and Redelivery below SinkTheorems and HotTheorems: batches are atomic, each row has its position, redelivery
    converges, the latest row of a key wins and identity comes from the envelope.
    Paths is the object path scheme ([libs/dis-storage]); PathTheorems
    shows that parsing inverts building.  Validation holds the gates,
    Quarantine the records of what is held, Consumer one event through
    [orchestrate.py] and Subscriber the envelope and the pull loop;
    ValidationTheorems, ConsumerTheorems and HoldTheorems show what passes a gate,
    that an event ends in one of a few ways, that what is written are the enriched rows of the
    whole chunk that was fetched, that an acknowledged message is never lost, which
    key is downloaded and exactly which rows are held.

    ** Ingest worker ([services/csv-ingest-worker], [libs/dis-pii])

    Pii is the column gate, Worker the pipeline and its messages.  WorkerTheorems
    describes a delivery as a sequence of writes; with WorkerRetries it
    shows that a published message refers to its bronze row, that a pass of the pull loop acknowledges
    no message that is not settled, that nothing with a
    personal column lands, that redelivery is absorbed and a lost publish
    completed, that the consumer accepts what the worker publishes, and how a
    retried upload can be lost.

    ** Service ([services/dis-ui-server], [libs/dis-rls], [libs/dis-core])

    UiErrors is the exception hierarchy and the status of a response.  Access reads
    the identity from a token and decides the scope of a request ([auth/]).  Rls is
    the tenant-scoped transaction with the row policies ([libs/dis-rls],
    [db.py]).  Rules writes and reads stored rules.  TemplateGate translates a
    create request and validates rules ([mapping_translation.py],
    [mapping_validation.py]); GateTheorems shows that what it accepts
    the consumer loads and finds complete, with the types of the model.  Templates
    is the table with its trigger and constraints and the repository; TemplateApi
    the four handlers.  TemplateLife and TemplateTheorems hold the
    lifecycle invariant of every reachable table and that the consumer selects the
    live row; TenantTheorems that requests change and read only what the token
    allows; TenantSample evaluates both.  Concurrent interleaves the statements of
    overlapping edits, with row locks taken one by one, waiting and uncommitted writes,
    and shows that each ends as it would alone or as the victim of a deadlock, which
    an example reaches.  Catalog is the field catalogue, compared with the gate.

    Csv decodes UTF-8 and is the state machine of [csv.reader], with the structural
    gate ([tier0.py]); CsvTheorems reads back every quoted table.
    UploadStream is the multipart reader; UploadForm has the order of the parser's
    callbacks, the invariant of the collector, the read loop and the
    meaning of a form, UploadLimits the bounds, the termination and the agreement
    with the form.  Upload is the handler ([handlers/csv_uploads.py]); UploadTheorems
    has the abstract upload, in which each refusal has its reason, exception and code,
    and the refinement, UploadWorker the composition with the worker down to the bytes of
    the file, UploadSample the evaluation.  A failure event that is emitted may
    still be dropped by the audit trail.

    [mirror-sync-consumer].  Mirror is a pass of the sync: the configuration, the guarded
    read of Customer Master, one transaction per tenant with its two upserts against
    the constraints of the mirror tables, and the exit status; the upload reads the same
    tables.  MirrorTheorems shows that a pass copies a prefix of the tenants,
    each whole, wherever the database fails, that its counts miss no row, and that a
    second pass changes nothing.  A pass starts with its engines built and reads rows that fit their models.

    Quarantine console.  Console is the two endpoints over the held rows and chunks
    ([handlers/quarantine.py], [repos/quarantine.py], [schemas/quarantine.py]): the crosswalk of
    stages and statuses, the two SELECTs under the row policies, the sort, the open count, the
    tagged ids and the composed context.  ConsoleTheorems has the reads as functions of the tables and
    shows that a filter keeps exactly the items whose displayed values match, and that the
    id of a listed item, and no other, opens its detail.  ConsoleHold inserts what the consumer holds
    and shows that the console of the tenant, and of no other tenant, shows it, and evaluates an example.

    Dashboard is the metrics of the last day ([handlers/dashboard.py], [repos/dashboard.py]), each statement on the
    tables committed when it starts: it shows how the panels add up, that they agree with the quarantine console,
    and that a consumed file counts twice.  Stores is the list of onboarded stores ([handlers/stores.py]), composed with the sync:
    after a pass it shows what Customer Master has.  Suggest is the matcher of columns and fields and the
    reading of the language model's answer ([suggest/], [handlers/mapping_suggestions.py]);
    it shows that whatever the model answers the suggestions stay within the
    catalogue, and that the mechanical one is the first of the best.

    Audit and start-up.  AuditTrail is an audit event from the emitters of the three services to its row
    ([libs/dis-audit]): the model with its checks, the INSERT against the live columns, both writers, the
    schema contract and its diff.  It shows that emitting never raises, that the trail grows by at most one sound
    row, exactly which events land where the columns match the contract, and that an event with a long
    message is dropped.  Startup is the environment, names and start of the processes, the provisioning of
    the broker, the probes and heartbeats, and the client of the identity service ([libs/dis-core]); it
    shows that provisioned processes come up wired to each other, and when they do not.

    Atlas ([tools/codegen], [infer/], [atlas/], [handlers/atlas.py]).  Ir is the document of a
    schema with its parser and serializer, the assembly of a draft, the check of a fresh draft and the
    publish gate, and what survives the round trip.  Profiler profiles example files and reads the
    proposals of the language model; Codegen renders the model, the
    provenance and the DDL of a table, and has the signature by which two model fields are compared: fields
    of one signature are exactly those the generator gave one annotation.  AtlasStore is the table of drafts with its unique index and
    its trigger, the durable store and the in-memory one, and the edits; Atlas the endpoints,
    and the interleaved transactions of overlapping requests.  AtlasInvariant has the
    shape every draft has, and what holds in every reachable console.  AtlasTheorems shows
    that a published schema is ratified, can be generated from, never changes and is the only one of its
    table, and exactly which drafts can be ratified; AtlasRequests that the handlers are steps of
    the console and that a client reads what it wrote; AtlasSample evaluates.

    ** Fuel and bounds

    Reading an upload takes one unit of fuel for each item of the stream; one more
    than the ceiling has bytes is enough, as [upload_reading_stops] shows.  Reading an
    example file takes one unit for each chunk, and its length and one is enough
    ([read_bounded_spec]).  The
    walk up the exception hierarchy takes three steps, and more fuel adds nothing
    ([mro_fuel]).  Every other function is structurally recursive.  Integers are
    unbounded as in Python, except where a column bounds them (the precision of a
    decimal cast, the SMALLINT of a version sequence, the integers of the audit table, the 131072 characters of a
    CSV field).

    ** Not modelled

    Logging and metrics; the SDKs, HTTP servers and middleware the processes hand over to; the
    SQL migrations beyond the constraints of the tables that are modelled; the web front end
    ([services/dis-ui]); the test support and the operational scripts; in the pipelines, the messages,
    durations and free-form data of audit events (AuditTrail has them); the prompts of the language models and the transport of their answers. *)

From stdpp Require Export base list gmap strings pretty sorting.
From Stdlib Require Export ZArith Lia.
Export List.ListNotations.

Declare Scope dis_scope.
Delimit Scope dis_scope with dis.

(** ** Results: a value, or a raised exception

    A Python function that may raise returns [result E A]; [x ← c; k] runs the
    rest of the body only when [c] did not raise. *)

Inductive result (E A : Type) : Type :=
| Ok (a : A)
| Err (e : E).
Arguments Ok {_ _} _.
Arguments Err {_ _} _.

Global Instance result_ret {E} : MRet (result E) := fun A a => Ok a.
Global Instance result_bind {E} : MBind (result E) :=
  fun A B f r => match r with Ok a => f a | Err e => Err e end.

Section ResultMonad.
Context {E : Type}.

Definition is_ok {A} (r : result E A) : bool :=
  match r with Ok _ => true | Err _ => false end.

(** [if b: raise e] *)
Definition raise_if (b : bool) (e : E) : result E unit :=
  if b then Err e else Ok tt.

(** [for x in l: body(x)], where the body may raise. *)
Fixpoint for_each {A} (body : A -> result E unit) (l : list A) : result E unit :=
  match l with
  | [] => Ok tt
  | x :: l' => body x ≫= fun _ => for_each body l'
  end.

(** [[f(x) for x in l]], where [f] may raise. *)
Fixpoint map_res {A B} (f : A -> result E B) (l : list A) : result E (list B) :=
  match l with
  | [] => Ok []
  | x :: l' => y ← f x; ys ← map_res f l'; Ok (y :: ys)
  end.

(** [for x in l: s = step(s, x)], where a step may raise. *)
Fixpoint fold_res {S A} (step : S -> A -> result E S) (s : S) (l : list A) : result E S :=
  match l with
  | [] => Ok s
  | x :: l' => s' ← step s x; fold_res step s' l'
  end.

Lemma bind_ok {A B} (r : result E A) (f : A -> result E B) b :
  r ≫= f = Ok b <-> exists a, r = Ok a /\ f a = Ok b.
Proof. destruct r; cbn; naive_solver. Qed.

Lemma raise_if_ok b (e : E) u : raise_if b e = Ok u <-> b = false.
Proof. destruct b, u; cbn; naive_solver. Qed.

Lemma for_each_ok {A} (body : A -> result E unit) l u :
  for_each body l = Ok u <-> Forall (fun x => body x = Ok tt) l.
Proof.
  destruct u. induction l as [|x l IH]; cbn.
  - split; constructor.
  - rewrite Forall_cons. destruct (body x) as [[]|]; cbn; naive_solver.
Qed.

Lemma map_res_ok {A B} (f : A -> result E B) l ys :
  map_res f l = Ok ys <-> Forall2 (fun x y => f x = Ok y) l ys.
Proof.
  revert ys; induction l as [|x l IH]; intros ys; cbn.
  - split; [intros [= <-]; constructor | by inversion 1].
  - rewrite bind_ok. setoid_rewrite bind_ok. setoid_rewrite IH. split.
    + intros (y & Hy & zs & Hzs & [= <-]). by constructor.
    + inversion 1; subst. naive_solver.
Qed.

Lemma map_res_length {A B} (f : A -> result E B) l ys :
  map_res f l = Ok ys -> length ys = length l.
Proof. rewrite map_res_ok. intros H. by rewrite (Forall2_length _ _ _ H). Qed.

(** A map whose every call succeeds. *)
Lemma map_res_total {A B} (f : A -> result E B) l :
  (forall x, x ∈ l -> exists y, f x = Ok y) -> exists ys, map_res f l = Ok ys.
Proof.
  induction l as [|x l IH]; intros Hl; [by exists []|]. destruct (Hl x) as [y Hy]; [left|].
  destruct IH as [ys Hys]; [intros z Hz; apply Hl; by right|]. exists (y :: ys). cbn. by rewrite Hy, Hys.
Qed.

Lemma fold_res_app {S A} (step : S -> A -> result E S) l1 l2 s :
  fold_res step s (l1 ++ l2) = (s' ← fold_res step s l1; fold_res step s' l2).
Proof.
  revert s; induction l1 as [|x l1 IH]; intros s; cbn; [done|].
  by destruct (step s x); cbn.
Qed.

(** The loop invariant rule: a property that every successful step preserves
    holds after the loop. *)
Lemma fold_res_inv {S A} (step : S -> A -> result E S) (P : S -> Prop) l s s' :
  (forall x s1 s2, x ∈ l -> P s1 -> step s1 x = Ok s2 -> P s2) ->
  P s -> fold_res step s l = Ok s' -> P s'.
Proof.
  revert s; induction l as [|x l IH]; intros s Hstep Hs; cbn; [by intros [= <-]|].
  rewrite bind_ok. intros (s1 & H1 & H2).
  eapply IH; [|eapply Hstep; [left|..]; eauto|done].
  intros y s2 s3 Hy. apply Hstep. by right.
Qed.
End ResultMonad.

(** Peel a successful monadic body into the facts about its steps. *)
Ltac inv_ok :=
  repeat match goal with
  | H : Ok _ = Ok _ |- _ => injection H as H; subst
  | H : Ok _ = Err _ |- _ => discriminate H
  | H : Err _ = Ok _ |- _ => discriminate H
  | H : Err _ = Err _ |- _ => injection H as H; subst
  | H : mret _ = Ok _ |- _ => injection H as H; subst
  | H : mbind _ _ = Ok _ |- _ =>
      let a := fresh "a" in let H1 := fresh "Hs" in
      apply bind_ok in H as (a & H1 & H)
  | H : raise_if _ _ = Ok _ |- _ => apply raise_if_ok in H
  end.

(** ** Lists *)

Lemma flat_map_ext_elem {A B} (f g : A -> list B) (l : list A) :
  (forall x, x ∈ l -> f x = g x) -> flat_map f l = flat_map g l.
Proof.
  intros H. induction l as [|x l IH]; cbn; [done|]. rewrite H by left. f_equal.
  apply IH. intros y Hy. apply H. by right.
Qed.

Lemma elem_of_flat_map {A B} (f : A -> list B) (l : list A) y :
  y ∈ flat_map f l <-> exists x, x ∈ l /\ y ∈ f x.
Proof. rewrite list_elem_of_In, in_flat_map. by setoid_rewrite list_elem_of_In. Qed.

(** ** Python dictionaries with string keys

    A [dict[str, A]] is the list of its items in insertion order; keys are
    distinct in every dictionary Python builds ([dict_wf]). *)

Abbreviation dict A := (list (string * A)).

Section Dict.
Context {A : Type}.
Implicit Types (d : dict A) (k : string) (v : A).

Definition dict_keys d : list string := map fst d.
Definition dict_values d : list A := map snd d.
Definition dict_wf d : Prop := NoDup (dict_keys d).

(** [d.get(k)] *)
Fixpoint dict_get d k : option A :=
  match d with
  | [] => None
  | (k', v) :: d' => if String.eqb k k' then Some v else dict_get d' k
  end.

(** [k in d] *)
Definition dict_mem d k : bool := match dict_get d k with Some _ => true | None => false end.

(** [d[k] = v]: an existing key keeps its place, a new one goes last. *)
Fixpoint dict_set d k v : dict A :=
  match d with
  | [] => [(k, v)]
  | (k', v') :: d' => if String.eqb k k' then (k', v) :: d' else (k', v') :: dict_set d' k v
  end.

(** [d.update(e)] *)
Definition dict_update d (e : dict A) : dict A :=
  fold_left (fun acc '(k, v) => dict_set acc k v) e d.

Lemma dict_get_Some_elem d k v : dict_get d k = Some v -> (k, v) ∈ d.
Proof.
  induction d as [|[k' v'] d IH]; cbn; [done|].
  destruct (String.eqb_spec k k') as [->|]; [intros [= ->]; left|]; right; auto.
Qed.

Lemma dict_get_elem d k v : dict_wf d -> (k, v) ∈ d -> dict_get d k = Some v.
Proof.
  unfold dict_wf. induction d as [|[k' v'] d IH]; cbn; [by inversion 2|].
  rewrite NoDup_cons. intros [Hk Hd]. rewrite elem_of_cons. intros [[= <- <-]|Hin].
  - by rewrite String.eqb_refl.
  - destruct (String.eqb_spec k k') as [->|]; [|auto].
    contradict Hk. apply list_elem_of_fmap. by exists (k', v).
Qed.

Lemma dict_get_None d k : dict_get d k = None <-> k ∉ dict_keys d.
Proof.
  induction d as [|[k' v'] d IH]; cbn; [split; [intros _; apply not_elem_of_nil|done]|].
  rewrite not_elem_of_cons. destruct (String.eqb_spec k k') as [->|]; naive_solver.
Qed.

Lemma dict_mem_keys d k : dict_mem d k = true <-> k ∈ dict_keys d.
Proof.
  unfold dict_mem. destruct (dict_get d k) eqn:Hg.
  - split; [intros _|done]. apply dict_get_Some_elem in Hg.
    apply list_elem_of_fmap. by exists (k, a).
  - apply dict_get_None in Hg. done.
Qed.

Lemma dict_get_set d k k' v :
  dict_get (dict_set d k v) k' = if String.eqb k' k then Some v else dict_get d k'.
Proof.
  induction d as [|[k1 v1] d IH]; cbn; [done|].
  destruct (String.eqb_spec k k1) as [->|Hne]; cbn.
  - by destruct (String.eqb_spec k' k1).
  - rewrite IH. destruct (String.eqb_spec k' k1) as [->|]; [|done].
    by destruct (String.eqb_spec k1 k).
Qed.

Lemma dict_keys_set_elem d k v k' :
  k' ∈ dict_keys (dict_set d k v) <-> k' = k \/ k' ∈ dict_keys d.
Proof.
  rewrite <- !dict_mem_keys. unfold dict_mem. rewrite dict_get_set.
  destruct (String.eqb_spec k' k); naive_solver.
Qed.

Lemma dict_wf_set d k v : dict_wf d -> dict_wf (dict_set d k v).
Proof.
  unfold dict_wf. induction d as [|[k1 v1] d IH]; cbn.
  - intros _. apply NoDup_singleton.
  - rewrite NoDup_cons. intros [H1 H2].
    destruct (String.eqb_spec k k1) as [->|]; cbn; rewrite NoDup_cons; [done|].
    split; [|auto]. rewrite dict_keys_set_elem. naive_solver.
Qed.

Lemma dict_get_update d e k :
  dict_get (dict_update d e) k = match dict_get (rev e) k with Some v => Some v | None => dict_get d k end.
Proof.
  unfold dict_update. revert d. induction e as [|[k1 v1] e IH] using rev_ind; intros d; [done|].
  rewrite fold_left_app, rev_app_distr. cbn. rewrite dict_get_set.
  destruct (String.eqb_spec k k1); [done|]. apply IH.
Qed.
End Dict.
