(* ===== verification/Text.v ===== *)
(** Text: the string operations of Python the sources use, and the regular
    expressions they hand to polars.

    Text is modelled by 8-bit strings; case mapping is that of the ASCII
    letters, so statements about upper- and lower-casing speak of ASCII text.
    A pattern literal of the sources is the syntax tree of its regular
    expression ([regex]); [re_match] decides whether a whole string matches, by
    Brzozowski derivatives, and [re_lang] is the language it denotes. *)

From S2P Require Import Prelude.
From Stdlib Require Export Ascii.

(** ** Characters and case *)

Definition ascii_between (lo hi c : ascii) : bool :=
  (N_of_ascii lo <=? N_of_ascii c)%N && (N_of_ascii c <=? N_of_ascii hi)%N.

Definition is_digit (c : ascii) : bool := ascii_between "0" "9" c.
Definition is_upper (c : ascii) : bool := ascii_between "A" "Z" c.
Definition is_lower (c : ascii) : bool := ascii_between "a" "z" c.

Definition upper_char (c : ascii) : ascii :=
  if is_lower c then ascii_of_N (N_of_ascii c - 32) else c.
Definition lower_char (c : ascii) : ascii :=
  if is_upper c then ascii_of_N (N_of_ascii c + 32) else c.

Fixpoint str_map (f : ascii -> ascii) (s : string) : string :=
  match s with
  | EmptyString => EmptyString
  | String c s' => String (f c) (str_map f s')
  end.

Fixpoint str_all (p : ascii -> bool) (s : string) : bool :=
  match s with
  | EmptyString => true
  | String c s' => p c && str_all p s'
  end.

(** [s.upper()] and [s.lower()] *)
Definition py_upper : string -> string := str_map upper_char.
Definition py_lower : string -> string := str_map lower_char.

(** [sub in s] *)
Definition str_in (sub s : string) : bool :=
  match String.index 0 sub s with Some _ => true | None => false end.

(** [s[:n]] *)
Definition str_take (n : nat) (s : string) : string := String.substring 0 n s.

(** [s.replace(c, r)] for a one-character pattern. *)
Fixpoint replace_char (c : ascii) (r s : string) : string :=
  match s with
  | EmptyString => EmptyString
  | String a s' => if Ascii.eqb a c then r +:+ replace_char c r s' else String a (replace_char c r s')
  end.

(** [sep.join(parts)] *)
Fixpoint str_join (sep : string) (parts : list string) : string :=
  match parts with
  | [] => ""
  | [p] => p
  | p :: ps => p +:+ sep +:+ str_join sep ps
  end.

(** ** [repr] of a string and of a list of strings *)

Definition hex_digit (n : N) : ascii := ascii_of_N (if (n <? 10)%N then n + 48 else n + 87)%N.

Definition repr_char (quote c : ascii) : string :=
  if Ascii.eqb c quote then String "092" (String c "")
  else if Ascii.eqb c "092" then String "092" (String "092" "")
  else if Ascii.eqb c "010" then String "092" "n"
  else if Ascii.eqb c "013" then String "092" "r"
  else if Ascii.eqb c "009" then String "092" "t"
  else if (ascii_between "032" "126" c || ascii_between "161" "255" c) && negb (Ascii.eqb c "173")
       then String c ""
       else let n := N_of_ascii c in
            String "092" (String "x" (String (hex_digit (n / 16)) (String (hex_digit (n mod 16)) ""))).

Fixpoint repr_body (quote : ascii) (s : string) : string :=
  match s with
  | EmptyString => ""
  | String c s' => repr_char quote c +:+ repr_body quote s'
  end.

Definition squote : ascii := "039".
Definition dquote : ascii := "034".

(** [repr(s)]: single quotes, unless the text has single quotes and no double ones. *)
Definition py_repr (s : string) : string :=
  let quote := if str_in (String squote "") s && negb (str_in (String dquote "") s)
               then dquote else squote in
  String quote "" +:+ repr_body quote s +:+ String quote "".

(** [str(l)] of a list of strings. *)
Definition py_repr_list (l : list string) : string :=
  "[" +:+ str_join ", " (map py_repr l) +:+ "]".

(** [sorted(l)] of a list of strings: code-point order. *)
Definition str_le (a b : string) : Prop := String.leb a b = true.
Global Instance str_le_dec : RelDecision str_le := fun a b => decide (String.leb a b = true).
Definition py_sorted (l : list string) : list string := merge_sort str_le l.

(** ** Regular expressions *)

Inductive regex : Type :=
| RNone                            (* matches nothing *)
| REps
| RChr (p : ascii -> bool)         (* a character class *)
| RSeq (r1 r2 : regex)
| RAlt (r1 r2 : regex)
| RStar (r : regex).

Definition re_char (c : ascii) : regex := RChr (Ascii.eqb c).
Definition re_digit : regex := RChr is_digit.
Definition re_opt (r : regex) : regex := RAlt r REps.
Definition re_plus (r : regex) : regex := RSeq r (RStar r).

Fixpoint nullable (r : regex) : bool :=
  match r with
  | RNone => false
  | REps => true
  | RChr _ => false
  | RSeq r1 r2 => nullable r1 && nullable r2
  | RAlt r1 r2 => nullable r1 || nullable r2
  | RStar _ => true
  end.

Fixpoint deriv (c : ascii) (r : regex) : regex :=
  match r with
  | RNone | REps => RNone
  | RChr p => if p c then REps else RNone
  | RSeq r1 r2 =>
      if nullable r1 then RAlt (RSeq (deriv c r1) r2) (deriv c r2) else RSeq (deriv c r1) r2
  | RAlt r1 r2 => RAlt (deriv c r1) (deriv c r2)
  | RStar r => RSeq (deriv c r) (RStar r)
  end.

(** Does the whole string match? *)
Fixpoint re_match (r : regex) (s : string) : bool :=
  match s with
  | EmptyString => nullable r
  | String c s' => re_match (deriv c r) s'
  end.

(** [re.sub(r + "$", "", s)] for the leftmost match that reaches the end. *)
Fixpoint strip_suffix (r : regex) (s : string) : string :=
  if re_match r s then ""
  else match s with
       | EmptyString => ""
       | String c s' => String c (strip_suffix r s')
       end.

Inductive re_lang : regex -> string -> Prop :=
| L_eps : re_lang REps ""
| L_chr p c : p c = true -> re_lang (RChr p) (String c "")
| L_seq r1 r2 s1 s2 : re_lang r1 s1 -> re_lang r2 s2 -> re_lang (RSeq r1 r2) (s1 +:+ s2)
| L_alt_l r1 r2 s : re_lang r1 s -> re_lang (RAlt r1 r2) s
| L_alt_r r1 r2 s : re_lang r2 s -> re_lang (RAlt r1 r2) s
| L_star_nil r : re_lang (RStar r) ""
| L_star_cons r s1 s2 : re_lang r s1 -> re_lang (RStar r) s2 -> re_lang (RStar r) (s1 +:+ s2).

(** ** Lemmas on text *)

Lemma str_app_assoc (a b c : string) : (a +:+ b) +:+ c = a +:+ (b +:+ c).
Proof. induction a as [|x a IH]; [done|]. exact (f_equal (String x) IH). Qed.

Lemma str_app_nil_r (a : string) : a +:+ "" = a.
Proof. induction a as [|x a IH]; [done|]. exact (f_equal (String x) IH). Qed.

Lemma str_app_nil_l (a : string) : "" +:+ a = a.
Proof. done. Qed.

Lemma str_app_cons c (a b : string) : String c a +:+ b = String c (a +:+ b).
Proof. done. Qed.

Lemma str_app_nil_inv (a b : string) : a +:+ b = "" -> a = "" /\ b = "".
Proof. by destruct a. Qed.

Create HintDb text.
#[export] Hint Rewrite str_app_assoc str_app_nil_r str_app_nil_l str_app_cons : text.

Lemma str_all_app p (a b : string) : str_all p (a +:+ b) = str_all p a && str_all p b.
Proof.
  induction a as [|x a IH]; [done|]. rewrite str_app_cons. cbn. by rewrite IH, andb_assoc.
Qed.

Lemma str_map_app f (a b : string) : str_map f (a +:+ b) = str_map f a +:+ str_map f b.
Proof. induction a as [|x a IH]; [done|]. rewrite str_app_cons. cbn. by rewrite IH. Qed.

Lemma replace_char_app c r (a b : string) :
  replace_char c r (a +:+ b) = replace_char c r a +:+ replace_char c r b.
Proof.
  induction a as [|x a IH]; [done|]. rewrite str_app_cons. cbn.
  destruct (Ascii.eqb x c); rewrite IH; autorewrite with text; done.
Qed.

(** Replacing a character that a class excludes leaves text of that class alone. *)
Lemma replace_char_id c r p (a : string) :
  p c = false -> str_all p a = true -> replace_char c r a = a.
Proof.
  intros Hc. induction a as [|x a IH]; cbn; [done|].
  rewrite andb_true_iff. intros [Hx Ha]. destruct (Ascii.eqb_spec x c); [congruence|].
  by rewrite IH.
Qed.

Lemma str_le_total (a b : string) : str_le a b \/ str_le b a.
Proof. unfold str_le. destruct (String.leb_total a b); auto. Qed.

Global Instance str_le_trans : Transitive str_le.
Proof.
  unfold str_le. intros a b c. revert b c.
  unfold String.leb. induction a as [|x a IH]; intros [|y b] [|z c]; cbn; try done.
  destruct (Ascii.compare x y) eqn:Exy, (Ascii.compare y z) eqn:Eyz, (Ascii.compare x z) eqn:Exz;
    try done; unfold Ascii.compare in *;
    rewrite ?N.compare_eq_iff, ?N.compare_lt_iff, ?N.compare_gt_iff in *; try lia; try apply IH; done.
Qed.

Global Instance str_le_total_inst : Total str_le := str_le_total.

Lemma py_sorted_perm l : py_sorted l ≡ₚ l.
Proof. apply merge_sort_Permutation. Qed.

Lemma py_sorted_sorted l : StronglySorted str_le (py_sorted l).
Proof. apply StronglySorted_merge_sort; apply _. Qed.

(** ** The matcher decides the language *)

Lemma nullable_sound r : nullable r = true -> re_lang r "".
Proof.
  induction r; cbn; try done; intros H.
  - constructor.
  - apply andb_true_iff in H as [H1 H2].
    apply (L_seq r1 r2 "" ""); auto.
  - apply orb_true_iff in H as [H|H]; [apply L_alt_l|apply L_alt_r]; auto.
  - constructor.
Qed.

Lemma nullable_complete r s : re_lang r s -> s = "" -> nullable r = true.
Proof.
  induction 1; cbn; intros Hs; try done.
  - apply str_app_nil_inv in Hs as [-> ->]. rewrite IHre_lang1, IHre_lang2; done.
  - by rewrite IHre_lang.
  - rewrite IHre_lang; [|done]. apply orb_true_r.
Qed.

Lemma deriv_sound c r s : re_lang (deriv c r) s -> re_lang r (String c s).
Proof.
  revert s; induction r as [| |p|r1 IH1 r2 IH2|r1 IH1 r2 IH2|r IH]; intros s; cbn; intros H.
  - inversion H.
  - inversion H.
  - destruct (p c) eqn:Hp; inversion H; subst. by constructor.
  - destruct (nullable r1) eqn:Hn; [inversion H as [| | |? ? ? H'|? ? ? H'| |]; subst|].
    + inversion H' as [| |? ? s1 s2 Ha Hb| | | |]; subst.
      apply (L_seq r1 r2 (String c s1)); auto.
    + apply (L_seq r1 r2 ""); auto. by apply nullable_sound.
    + inversion H as [| |? ? s1 s2 Ha Hb| | | |]; subst.
      apply (L_seq r1 r2 (String c s1)); auto.
  - inversion H; subst; [apply L_alt_l|apply L_alt_r]; auto.
  - inversion H as [| |? ? s1 s2 Ha Hb| | | |]; subst.
    apply (L_star_cons r (String c s1)); auto.
Qed.

Lemma deriv_complete c r s t : re_lang r t -> t = String c s -> re_lang (deriv c r) s.
Proof.
  intros H; revert s; induction H as [|p a Hp|r1 r2 s1 s2 H1 IH1 H2 IH2|r1 r2 s1 H IH|r1 r2 s1 H IH| |r s1 s2 H1 IH1 H2 IH2];
    intros s; cbn; intros Ht; try done.
  - injection Ht as -> <-. rewrite Hp. constructor.
  - destruct s1 as [|x s1]; cbn in Ht.
    + rewrite (nullable_complete _ _ H1 eq_refl). apply L_alt_r. auto.
    + injection Ht as -> <-. destruct (nullable r1); [apply L_alt_l|]; constructor; auto.
  - apply L_alt_l. auto.
  - apply L_alt_r. auto.
  - destruct s1 as [|x s1]; cbn in Ht; [by apply IH2|].
    injection Ht as -> <-. constructor; auto.
Qed.

Lemma re_match_lang r s : re_match r s = true <-> re_lang r s.
Proof.
  revert r; induction s as [|c s IH]; intros r; cbn.
  - split; [apply nullable_sound|intros; by eapply nullable_complete].
  - rewrite IH. split; [apply deriv_sound|intros; by eapply deriv_complete].
Qed.

(** Language equations of the derived constructs. *)
Lemma lang_seq r1 r2 s :
  re_lang (RSeq r1 r2) s <-> exists s1 s2, s = s1 +:+ s2 /\ re_lang r1 s1 /\ re_lang r2 s2.
Proof. split; [inversion 1; naive_solver|intros (s1 & s2 & -> & ? & ?); by constructor]. Qed.

Lemma lang_alt r1 r2 s : re_lang (RAlt r1 r2) s <-> re_lang r1 s \/ re_lang r2 s.
Proof. split; [inversion 1; auto|intros [?|?]; [by apply L_alt_l|by apply L_alt_r]]. Qed.

Lemma lang_eps s : re_lang REps s <-> s = "".
Proof. split; [by inversion 1|intros ->; constructor]. Qed.

Lemma lang_chr p s : re_lang (RChr p) s <-> exists c, s = String c "" /\ p c = true.
Proof. split; [inversion 1; eauto|intros (c & -> & ?); by constructor]. Qed.

Lemma lang_char c s : re_lang (re_char c) s <-> s = String c "".
Proof.
  unfold re_char. rewrite lang_chr. split.
  - intros (a & -> & ->%Ascii.eqb_eq). done.
  - intros ->. exists c. split; [done|apply Ascii.eqb_refl].
Qed.

Lemma lang_opt r s : re_lang (re_opt r) s <-> s = "" \/ re_lang r s.
Proof. unfold re_opt. rewrite lang_alt, lang_eps. tauto. Qed.

Lemma lang_star_chr p s : re_lang (RStar (RChr p)) s <-> str_all p s = true.
Proof.
  split.
  - remember (RStar (RChr p)) as r eqn:Hr. induction 1; try discriminate Hr; [done|].
    injection Hr as ->. rewrite str_all_app, IHre_lang2 by done.
    apply lang_chr in H as (c & -> & Hc). cbn. by rewrite Hc.
  - induction s as [|c s IH]; cbn; [constructor|].
    rewrite andb_true_iff. intros [Hc Hs].
    apply (L_star_cons _ (String c "")); [by constructor|auto].
Qed.

Lemma lang_plus_chr p s : re_lang (re_plus (RChr p)) s <-> s <> "" /\ str_all p s = true.
Proof.
  unfold re_plus. rewrite lang_seq. setoid_rewrite lang_star_chr. setoid_rewrite lang_chr. split.
  - intros (s1 & s2 & -> & (c & -> & Hc) & Hs). rewrite str_app_cons, str_app_nil_l. cbn. by rewrite Hc.
  - destruct s as [|c s]; [naive_solver|]. cbn. rewrite andb_true_iff. intros [_ [Hc Hs]].
    exists (String c ""), s. eauto.
Qed.
