(* ===== verification/Values.v ===== *)
(** Values: Python's dynamic values, the exceptions of dis-core, and the
    column types of polars frames.

    [value] is the universe of the sources' [Any]: JSON arguments of mapping
    rules, cells of a frame, bind parameters of a statement.  A float keeps its
    [repr]; a Decimal is its unscaled coefficient and scale; a date is its day
    number and an aware datetime its UTC instant in microseconds since the
    epoch; a UUID is its canonical text. *)

From S2P Require Import Prelude Text.

Inductive value : Type :=
| VNone
| VBool (b : bool)
| VInt (z : Z)
| VFloat (repr : string)
| VStr (s : string)
| VDecimal (coeff : Z) (scale : nat)
| VDate (days : Z)
| VDatetime (us : Z)
| VList (l : list value)
| VDict (d : list (string * value)).

Abbreviation uuid := string.

(** [isinstance(v, str)] and the other run-time type tests. *)
Definition as_str (v : value) : option string := match v with VStr s => Some s | _ => None end.
Definition is_str (v : value) : bool := match v with VStr _ => true | _ => false end.
Definition is_bool (v : value) : bool := match v with VBool _ => true | _ => false end.

(** [isinstance(v, str | int | float | bool)] *)
Definition is_scalar (v : value) : bool :=
  match v with VStr _ | VInt _ | VFloat _ | VBool _ => true | _ => false end.

(** [[v for v in l]] when every element is a string. *)
Fixpoint as_str_list (l : list value) : option (list string) :=
  match l with
  | [] => Some []
  | VStr s :: l' => cons s <$> as_str_list l'
  | _ :: _ => None
  end.

Fixpoint as_str_dict (d : list (string * value)) : option (dict string) :=
  match d with
  | [] => Some []
  | (k, VStr s) :: d' => cons (k, s) <$> as_str_dict d'
  | _ :: _ => None
  end.

(** ** Exceptions

    The classes of [dis_core.errors] the modelled code raises, with the fields
    a handler reads (the message text is left out), Python's own [KeyError]
    [TypeError] and [ZeroDivisionError]-style errors, pydantic's
    [ValidationError], and [OtherError] for what the outside world raises (a
    driver, a client library), by class name. *)

Inductive exn : Type :=
| MappingConfigError (column : option string)
| MappingInputError (column : option string)
| SuiteDefinitionError (model column : option string)
| SuiteDriftError (model column : option string)
| EnrichmentError (table : option string)
| HotPositionMissingError (miss_count : nat)
| SinkResolutionError (vertical template_type : option string)
| EventContractError (field : option string)
| EventPathMismatchError (field : option string)
| PreflightFailedError (reason : option string)
| StorageError
| QuarantineWriteError (failure_code : option string)
| RlsContextError
| PiiBackendNotConfiguredError (columns : list string)
| NaiveDatetimeError
| ValidationError
| KeyError (key : string)
| TypeError
| ValueError
| OtherError (class_name : string).

Abbreviation res A := (result exn A).

(** ** Mapping arguments *)

(** [args[key]] *)
Definition arg (args : dict value) (key : string) : res value :=
  match dict_get args key with Some v => Ok v | None => Err (KeyError key) end.

(** [args.get(key, default)] *)
Definition arg_get (args : dict value) (key : string) (default : value) : value :=
  match dict_get args key with Some v => v | None => default end.

(** [bool(v)] *)
Definition truthy (v : value) : bool :=
  match v with
  | VNone => false
  | VBool b => b
  | VInt z => negb (z =? 0)%Z
  | VFloat r => negb (String.eqb r "0.0" || String.eqb r "-0.0")
  | VStr s => negb (String.eqb s "")
  | VDecimal c _ => negb (c =? 0)%Z
  | VDate _ | VDatetime _ => true
  | VList l => match l with [] => false | _ => true end
  | VDict d => match d with [] => false | _ => true end
  end.

(** ** polars column types, series and frames

    The content of a series is what its [name], [dtype] and [to_list()] show;
    a frame is the ordered sequence of its series. *)

Inductive dtype : Type :=
| TString
| TInt64
| TDecimal (precision : option Z) (scale : Z)
| TDate
| TDatetime (time_unit : string) (time_zone : option string)
| TBoolean
| TOther (name : string).

Global Instance dtype_eq_dec : EqDecision dtype.
Proof. solve_decision. Defined.

Abbreviation cell := (option value).

Record series := Series {
  s_name : string;
  s_dtype : dtype;
  s_cells : list cell
}.

Record frame := Frame { f_cols : list series }.

Definition columns (f : frame) : list string := map s_name (f_cols f).

(** [frame.height]: a frame without columns has no rows. *)
Definition height (f : frame) : nat :=
  match f_cols f with [] => 0 | s :: _ => length (s_cells s) end.

(** The columns of a frame have distinct names and one common length. *)
Definition frame_wf (f : frame) : Prop :=
  NoDup (columns f) /\ Forall (fun s => length (s_cells s) = height f) (f_cols f).

Definition is_strcell (c : cell) : Prop :=
  match c with None => True | Some (VStr _) => True | Some _ => False end.

(** A String series holds strings and nulls. *)
Definition str_series (s : series) : Prop := s_dtype s = TString /\ Forall is_strcell (s_cells s).

(** [f.get_column(name)], as an observation of the frame. *)
Fixpoint find_series (cols : list series) (name : string) : option series :=
  match cols with
  | [] => None
  | s :: cols' => if String.eqb (s_name s) name then Some s else find_series cols' name
  end.

Lemma find_series_Some cols name s :
  find_series cols name = Some s -> s ∈ cols /\ s_name s = name.
Proof.
  induction cols as [|t cols IH]; cbn; [done|].
  destruct (String.eqb_spec (s_name t) name) as [<-|].
  - intros [= ->]. split; [left|done].
  - intros H. destruct (IH H). split; [by right|done].
Qed.

Lemma find_series_None cols name :
  find_series cols name = None <-> name ∉ map s_name cols.
Proof.
  induction cols as [|t cols IH]; cbn; [split; [intros _; apply not_elem_of_nil|done]|].
  rewrite not_elem_of_cons. destruct (String.eqb_spec (s_name t) name); naive_solver.
Qed.

Lemma find_series_elem cols s :
  NoDup (map s_name cols) -> s ∈ cols -> find_series cols (s_name s) = Some s.
Proof.
  induction cols as [|t cols IH]; cbn; [by inversion 2|].
  rewrite NoDup_cons, elem_of_cons. intros [Hn Hd] [->|Hin].
  - by rewrite String.eqb_refl.
  - destruct (String.eqb_spec (s_name t) (s_name s)) as [He|]; [|auto].
    contradict Hn. rewrite He. apply list_elem_of_fmap. by exists s.
Qed.
