(* ===== verification/Decimals.v ===== *)
(** Decimals: dates, times and decimals as Python has them.

    First the proleptic Gregorian calendar of Python's [datetime], and the
    [str] of the values the sources format.

    A date is its day number since 1970-01-01; a datetime is its instant in
    microseconds since the epoch.  [days_from_civil] and [civil_from_days] are
    the usual era-based conversions, and they are inverse to each other. *)

From S2P Require Import Prelude Text Values.

Local Open Scope Z_scope.

Record civil := Civil { c_year : Z; c_month : Z; c_day : Z }.

(** March-based day of the year, and day of a 400-year era. *)
Definition day_of_year (m d : Z) : Z := (153 * (if 2 <? m then m - 3 else m + 9) + 2) / 5 + d - 1.

Definition days_from_civil (c : civil) : Z :=
  let y := if c_month c <=? 2 then c_year c - 1 else c_year c in
  let era := y / 400 in
  let yoe := y - era * 400 in
  let doe := yoe * 365 + yoe / 4 - yoe / 100 + day_of_year (c_month c) (c_day c) in
  era * 146097 + doe - 719468.

Definition civil_from_days (z : Z) : civil :=
  let z := z + 719468 in
  let era := z / 146097 in
  let doe := z - era * 146097 in
  let yoe := (doe - doe / 1460 + doe / 36524 - doe / 146096) / 365 in
  let doy := doe - (365 * yoe + yoe / 4 - yoe / 100) in
  let mp := (5 * doy + 2) / 153 in
  let d := doy - (153 * mp + 2) / 5 + 1 in
  let m := if mp <? 10 then mp + 3 else mp - 9 in
  let y := yoe + era * 400 in
  Civil (if m <=? 2 then y + 1 else y) m d.

(** A non-negative number in decimal, padded with zeros to a width. *)
Fixpoint zeros (n : nat) : string := match n with O => "" | S n => String "0" (zeros n) end.

Definition pad (width : nat) (z : Z) : string :=
  let s := pretty z in zeros (width - String.length s) +:+ s.

Definition US_PER_DAY : Z := 86400000000.

(** [date.isoformat()] *)
Definition date_iso (days : Z) : string :=
  let c := civil_from_days days in
  pad 4 (c_year c) +:+ "-" +:+ pad 2 (c_month c) +:+ "-" +:+ pad 2 (c_day c).

Definition time_iso (us : Z) : string :=
  let t := us mod US_PER_DAY in
  let s := t / 1000000 in
  let f := t mod 1000000 in
  pad 2 (s / 3600) +:+ ":" +:+ pad 2 (s / 60 mod 60) +:+ ":" +:+ pad 2 (s mod 60)
  +:+ (if f =? 0 then "" else "." +:+ pad 6 f).

(** [datetime.isoformat()] and [str(datetime)] of a UTC datetime. *)
Definition datetime_iso (us : Z) : string := date_iso (us / US_PER_DAY) +:+ "T" +:+ time_iso us +:+ "+00:00".
Definition datetime_str (us : Z) : string := date_iso (us / US_PER_DAY) +:+ " " +:+ time_iso us +:+ "+00:00".

(** [str(Decimal)] for a scale that needs no exponent. *)
Definition decimal_str (coeff : Z) (scale : nat) : string :=
  let sign := if coeff <? 0 then "-" else "" in
  match scale with
  | O => pretty coeff
  | S _ => let p := 10 ^ Z.of_nat scale in
           sign +:+ pretty (Z.abs coeff / p) +:+ "." +:+ pad scale (Z.abs coeff mod p)
  end.

Definition bool_str (b : bool) : string := if b then "True" else "False".

(** [repr(v)] of a JSON value, the values that occur inside containers; other
    scalars are shown by their [str]. *)
Fixpoint value_repr (v : value) : string :=
  match v with
  | VNone => "None"
  | VBool b => bool_str b
  | VInt z => pretty z
  | VFloat r => r
  | VStr s => py_repr s
  | VDecimal c sc => decimal_str c sc
  | VDate d => date_iso d
  | VDatetime us => datetime_str us
  | VList l => "[" +:+ str_join ", " (map value_repr l) +:+ "]"
  | VDict d => "{" +:+ str_join ", " (map (fun '(k, x) => py_repr k +:+ ": " +:+ value_repr x) d) +:+ "}"
  end.

(** [str(v)] *)
Definition py_str (v : value) : string :=
  match v with VStr s => s | _ => value_repr v end.

(** ** Python's decimal module

    What the sources use of it: building a
    Decimal from text, and subtraction in the default context (28 digits,
    half-even).

    A Decimal is represented by a coefficient and a non-negative scale; a
    positive exponent is multiplied out.  The special values (NaN, Infinity) are
    outside this representation and are treated as not a number. *)

Local Open Scope Z_scope.

Definition digit_value (c : ascii) : Z := Z.of_N (N_of_ascii c) - 48.

Fixpoint read_digits (acc : Z) (s : string) : option Z :=
  match s with
  | EmptyString => Some acc
  | String c s' => if is_digit c then read_digits (acc * 10 + digit_value c) s' else None
  end.

Definition read_nat (s : string) : option Z := if String.eqb s "" then None else read_digits 0 s.

Definition read_int (s : string) : option Z :=
  match s with
  | String "-" s' => Z.opp <$> read_nat s'
  | String "+" s' => read_nat s'
  | _ => read_nat s
  end.

Fixpoint split_at_char (p : ascii -> bool) (s : string) : string * option string :=
  match s with
  | EmptyString => ("", None)
  | String a s' =>
      if p a then ("", Some s')
      else let '(l, r) := split_at_char p s' in (String a l, r)
  end.

Definition is_space (c : ascii) : bool := ascii_between "009" "013" c || ascii_between "028" "032" c.

Fixpoint lstrip (s : string) : string :=
  match s with String c s' => if is_space c then lstrip s' else s | EmptyString => "" end.
Fixpoint str_rev (s : string) (acc : string) : string :=
  match s with EmptyString => acc | String c s' => str_rev s' (String c acc) end.
Definition strip (s : string) : string := str_rev (lstrip (str_rev (lstrip s) "")) "".

(** An unsigned mantissa: digits with at most one point, at least one digit. *)
Definition read_mantissa (s : string) : option (Z * nat) :=
  let '(whole, frac) := split_at_char (Ascii.eqb ".") s in
  let f := default "" frac in
  z ← read_nat (whole +:+ f); Some (z, String.length f).

Definition is_e (c : ascii) : bool := Ascii.eqb c "e" || Ascii.eqb c "E".

(** [Decimal(s)]; [None] is [InvalidOperation]. *)
Definition py_decimal (s : string) : option value :=
  let s := replace_char "_" "" (strip s) in
  let '(neg, body) := match s with
                      | String "-" r => (true, r)
                      | String "+" r => (false, r)
                      | _ => (false, s)
                      end in
  let '(mantissa, exponent) := split_at_char is_e body in
  '(z, sc) ← read_mantissa mantissa;
  e ← match exponent with None => Some 0 | Some x => read_int x end;
  let z := if neg then - z else z in
  let e' := e - Z.of_nat sc in
  Some (if e' <=? 0 then VDecimal z (Z.to_nat (- e')) else VDecimal (z * 10 ^ e') 0).

Definition num_digits (z : Z) : Z := Z.of_nat (String.length (pretty (Z.abs z))).

(** Drop [k] decimal digits, rounding half to even. *)
Definition round_half_even (z : Z) (k : Z) : Z :=
  let p := 10 ^ k in
  let q := Z.abs z / p in
  let r := Z.abs z mod p in
  let q' := if (p <? 2 * r) || ((p =? 2 * r) && Z.odd q) then q + 1 else q in
  Z.sgn z * q'.

Definition CONTEXT_PRECISION : Z := 28.

(** The result of an operation in the default context. *)
Definition in_context (z : Z) (sc : nat) : value :=
  let n := num_digits z in
  if n <=? CONTEXT_PRECISION then VDecimal z sc
  else
    let k := n - CONTEXT_PRECISION in
    let q := round_half_even z k in
    let e := k - Z.of_nat sc in
    if e <=? 0 then VDecimal q (Z.to_nat (- e)) else VDecimal (q * 10 ^ e) 0.

(** [a - b] on Decimals. *)
Definition dec_sub (a b : Z * nat) : value :=
  let '(za, sa) := a in
  let '(zb, sb) := b in
  let s := Nat.max sa sb in
  in_context (za * 10 ^ Z.of_nat (s - sa) - zb * 10 ^ Z.of_nat (s - sb)) s.

Example py_decimal_plain : py_decimal "-12.50" = Some (VDecimal (-1250) 2).
Proof. by vm_compute. Qed.
Example py_decimal_exponent : py_decimal "1.5E+3" = Some (VDecimal 1500 0).
Proof. by vm_compute. Qed.
Example py_decimal_text : py_decimal "n/a" = None.
Proof. by vm_compute. Qed.
