(* ===== verification/Transform.v ===== *)
(** Transform: the declarative rule vocabulary of a source mapping and its
    construction-time checks (libs/dis-mapping, [models/transform.py]).

    A rule is a [TransformSpec] (an op name and its JSON arguments) or a
    [CastSpec]; the [validate_*] functions raise [MappingConfigError] on a
    declaration that is incomplete, unknown or ambiguous. *)

From S2P Require Import Prelude Text Values.

(** ** The bounded vocabulary *)

Definition NORMALIZE_OPS : list string :=
  ["parse_date"; "parse_datetime"; "parse_decimal"; "parse_percent"; "parse_integer";
   "parse_boolean"; "map_enum"; "null_tokens"; "normalize_whitespace"; "normalize_case"].

Definition DERIVE_GENERATOR_OPS : list string := ["copy"; "constant"; "date_from_datetime"].

Inductive CastType : Type :=
| CString | CInteger | CDecimal | CDate | CDatetime | CBoolean.

Global Instance CastType_eq_dec : EqDecision CastType.
Proof. solve_decision. Defined.

Record TransformSpec := mkTransformSpec {
  op : string;
  args : dict value
}.

Record CastSpec := mkCastSpec {
  cast_type : CastType;
  precision : option Z;
  scale : option Z
}.

(** [x in xs] for strings. *)
Definition mem (x : string) (xs : list string) : bool := existsb (String.eqb x) xs.

Lemma mem_elem x xs : mem x xs = true <-> x ∈ xs.
Proof.
  unfold mem. rewrite existsb_exists. setoid_rewrite String.eqb_eq.
  split; [intros (y & Hy & ->)|intros H; exists x]; by rewrite ?list_elem_of_In in *.
Qed.

Lemma mem_false x xs : x ∉ xs -> mem x xs = false.
Proof. intros H. apply not_true_iff_false. by rewrite mem_elem. Qed.

(** ** Argument discipline *)

Definition config_error (column : string) : exn := MappingConfigError (Some column).

(** Exactly the required keys, plus at most the optional ones. *)
Definition require_keys (column : string) (a : dict value) (required optional : list string) : res unit :=
  let missing := filter (fun k => dict_mem a k = false) required in
  raise_if (bool_decide (missing <> [])) (config_error column) ≫= fun _ =>
  let unknown := filter (fun k => mem k (required ++ optional) = false) (dict_keys a) in
  raise_if (bool_decide (unknown <> [])) (config_error column).

(** A non-empty string argument. *)
Definition require_str (column : string) (a : dict value) (key : string) : res string :=
  v ← arg a key;
  match v with
  | VStr s => if String.eqb s "" then Err (config_error column) else Ok s
  | _ => Err (config_error column)
  end.

(** A non-empty list of strings. *)
Definition require_str_list (column : string) (a : dict value) (key : string) : res (list string) :=
  v ← arg a key;
  match v with
  | VList ((_ :: _) as l) =>
      match as_str_list l with Some ss => Ok ss | None => Err (config_error column) end
  | _ => Err (config_error column)
  end.

(** A one-character string or an explicit null. *)
Definition check_thousands (column : string) (thou : value) : res unit :=
  match thou with
  | VNone => Ok tt
  | VStr s => raise_if (negb (String.length s =? 1)) (config_error column)
  | _ => Err (config_error column)
  end.

(** [thou == dec] where [dec] is a string. *)
Definition value_is (v : value) (s : string) : bool :=
  match v with VStr t => String.eqb t s | _ => false end.

(** ** Per-op validation *)

Definition validate_parse_datetime (column : string) (a : dict value) : res unit :=
  require_keys column a ["format"; "timezone"] [] ≫= fun _ =>
  fmt ← require_str column a "format";
  tz ← arg a "timezone";
  match tz with
  | VNone => raise_if (negb (str_in "%z" fmt)) (config_error column)
  | VStr z =>
      if String.eqb z "" then Err (config_error column)
      else raise_if (str_in "%z" fmt) (config_error column)
  | _ => Err (config_error column)
  end.

Definition validate_parse_number (column : string) (a : dict value) : res unit :=
  require_keys column a ["decimal_separator"; "thousands_separator"] [] ≫= fun _ =>
  dec ← require_str column a "decimal_separator";
  raise_if (negb (String.length dec =? 1)) (config_error column) ≫= fun _ =>
  thou ← arg a "thousands_separator";
  check_thousands column thou ≫= fun _ =>
  raise_if (value_is thou dec) (config_error column).

Definition validate_parse_boolean (column : string) (a : dict value) : res unit :=
  require_keys column a ["true_values"; "false_values"] [] ≫= fun _ =>
  true_values ← require_str_list column a "true_values";
  false_values ← require_str_list column a "false_values";
  let overlap := filter (fun t => mem t false_values = true) true_values in
  raise_if (bool_decide (overlap <> [])) (config_error column).

Definition validate_map_enum (column : string) (a : dict value) : res unit :=
  require_keys column a ["mapping"] ["case_insensitive"] ≫= fun _ =>
  m ← arg a "mapping";
  mapping ← match m with
            | VDict ((_ :: _) as d) =>
                match as_str_dict d with Some sd => Ok sd | None => Err (config_error column) end
            | _ => Err (config_error column)
            end;
  raise_if (negb (is_bool (arg_get a "case_insensitive" (VBool false)))) (config_error column) ≫= fun _ =>
  if truthy (arg_get a "case_insensitive" (VBool false)) then
    let folded := map py_upper (dict_keys mapping) in
    raise_if (bool_decide (~ NoDup folded)) (config_error column)
  else Ok tt.

Definition validate_normalize_args (spec : TransformSpec) (column : string) : res unit :=
  let a := args spec in
  let o := op spec in
  if String.eqb o "parse_date" then
    require_keys column a ["format"] [] ≫= fun _ =>
    require_str column a "format" ≫= fun _ => Ok tt
  else if String.eqb o "parse_datetime" then validate_parse_datetime column a
  else if mem o ["parse_decimal"; "parse_percent"] then validate_parse_number column a
  else if String.eqb o "parse_integer" then
    require_keys column a ["thousands_separator"] [] ≫= fun _ =>
    thou ← arg a "thousands_separator";
    check_thousands column thou
  else if String.eqb o "parse_boolean" then validate_parse_boolean column a
  else if String.eqb o "map_enum" then validate_map_enum column a
  else if String.eqb o "null_tokens" then
    require_keys column a ["tokens"] [] ≫= fun _ =>
    require_str_list column a "tokens" ≫= fun _ => Ok tt
  else if String.eqb o "normalize_whitespace" then
    require_keys column a [] ["trim"; "collapse"] ≫= fun _ =>
    raise_if (negb (is_bool (arg_get a "trim" (VBool true)))
              || negb (is_bool (arg_get a "collapse" (VBool true)))) (config_error column)
  else if String.eqb o "normalize_case" then
    require_keys column a ["mode"] [] ≫= fun _ =>
    mode ← arg a "mode";
    raise_if (negb (value_is mode "upper" || value_is mode "lower")) (config_error column)
  else Err (config_error column).

Definition validate_derive_generator_args (spec : TransformSpec) (column : string) : res unit :=
  let a := args spec in
  let o := op spec in
  if String.eqb o "copy" then
    require_keys column a ["source_column"] [] ≫= fun _ =>
    require_str column a "source_column" ≫= fun _ => Ok tt
  else if String.eqb o "constant" then
    require_keys column a ["value"] [] ≫= fun _ =>
    v ← arg a "value";
    raise_if (negb (is_scalar v)) (config_error column)
  else if String.eqb o "date_from_datetime" then
    require_keys column a ["source_column"] [] ≫= fun _ =>
    require_str column a "source_column" ≫= fun _ => Ok tt
  else Err (config_error column).

Definition validate_cast_spec (spec : CastSpec) (column : string) : res unit :=
  match cast_type spec with
  | CDecimal =>
      match precision spec, scale spec with
      | Some p, Some s =>
          raise_if ((p <? 1) || (s <? 0) || (p <? s))%Z (config_error column)
      | _, _ => Err (config_error column)
      end
  | _ =>
      match precision spec, scale spec with
      | None, None => Ok tt
      | _, _ => Err (config_error column)
      end
  end.

(** ** What a validated op declares

    [declares spec t] reads the JSON arguments of an op as the typed
    declaration [t]; a spec that declares something has exactly the keys the
    op takes, values of the right type, and no ambiguity. *)

Inductive typed_op : Type :=
| OpDate (fmt : string)
| OpDatetime (fmt : string) (tz : option string)
| OpDecimal (dec : ascii) (thou : option ascii)
| OpPercent (dec : ascii) (thou : option ascii)
| OpInteger (thou : option ascii)
| OpBoolean (true_values false_values : list string)
| OpEnum (mapping : dict string) (case_insensitive : bool)
| OpNullTokens (tokens : list string)
| OpWhitespace (trim collapse : bool)
| OpCase (upper : bool).

Definition keys_exact (a : dict value) (required optional : list string) : Prop :=
  (forall k, k ∈ required -> k ∈ dict_keys a) /\
  (forall k, k ∈ dict_keys a -> k ∈ required ++ optional).

(** The separator argument: an explicit null or one character. *)
Definition sep_value (thou : option ascii) : value :=
  match thou with None => VNone | Some c => VStr (String c "") end.

Inductive declares : TransformSpec -> typed_op -> Prop :=
| D_date a fmt :
    keys_exact a ["format"] [] -> dict_get a "format" = Some (VStr fmt) -> fmt <> "" ->
    declares (mkTransformSpec "parse_date" a) (OpDate fmt)
| D_datetime_offset a fmt :
    keys_exact a ["format"; "timezone"] [] -> dict_get a "format" = Some (VStr fmt) -> fmt <> "" ->
    dict_get a "timezone" = Some VNone -> str_in "%z" fmt = true ->
    declares (mkTransformSpec "parse_datetime" a) (OpDatetime fmt None)
| D_datetime_zone a fmt tz :
    keys_exact a ["format"; "timezone"] [] -> dict_get a "format" = Some (VStr fmt) -> fmt <> "" ->
    dict_get a "timezone" = Some (VStr tz) -> tz <> "" -> str_in "%z" fmt = false ->
    declares (mkTransformSpec "parse_datetime" a) (OpDatetime fmt (Some tz))
| D_decimal a dec thou :
    keys_exact a ["decimal_separator"; "thousands_separator"] [] ->
    dict_get a "decimal_separator" = Some (VStr (String dec "")) ->
    dict_get a "thousands_separator" = Some (sep_value thou) -> thou <> Some dec ->
    declares (mkTransformSpec "parse_decimal" a) (OpDecimal dec thou)
| D_percent a dec thou :
    keys_exact a ["decimal_separator"; "thousands_separator"] [] ->
    dict_get a "decimal_separator" = Some (VStr (String dec "")) ->
    dict_get a "thousands_separator" = Some (sep_value thou) -> thou <> Some dec ->
    declares (mkTransformSpec "parse_percent" a) (OpPercent dec thou)
| D_integer a thou :
    keys_exact a ["thousands_separator"] [] ->
    dict_get a "thousands_separator" = Some (sep_value thou) ->
    declares (mkTransformSpec "parse_integer" a) (OpInteger thou)
| D_boolean a tl fl tv fv :
    keys_exact a ["true_values"; "false_values"] [] ->
    dict_get a "true_values" = Some (VList tl) -> as_str_list tl = Some tv -> tv <> [] ->
    dict_get a "false_values" = Some (VList fl) -> as_str_list fl = Some fv -> fv <> [] ->
    (forall t, t ∈ tv -> t ∉ fv) ->
    declares (mkTransformSpec "parse_boolean" a) (OpBoolean tv fv)
| D_enum a d mapping ci :
    keys_exact a ["mapping"] ["case_insensitive"] ->
    dict_get a "mapping" = Some (VDict d) -> as_str_dict d = Some mapping -> mapping <> [] ->
    arg_get a "case_insensitive" (VBool false) = VBool ci ->
    (ci = true -> NoDup (map py_upper (dict_keys mapping))) ->
    declares (mkTransformSpec "map_enum" a) (OpEnum mapping ci)
| D_null_tokens a l tokens :
    keys_exact a ["tokens"] [] -> dict_get a "tokens" = Some (VList l) ->
    as_str_list l = Some tokens -> tokens <> [] ->
    declares (mkTransformSpec "null_tokens" a) (OpNullTokens tokens)
| D_whitespace a trim collapse :
    keys_exact a [] ["trim"; "collapse"] -> arg_get a "trim" (VBool true) = VBool trim ->
    arg_get a "collapse" (VBool true) = VBool collapse ->
    declares (mkTransformSpec "normalize_whitespace" a) (OpWhitespace trim collapse)
| D_case a (up : bool) :
    keys_exact a ["mode"] [] -> dict_get a "mode" = Some (VStr (if up then "upper" else "lower")) ->
    declares (mkTransformSpec "normalize_case" a) (OpCase up).

(** ** Lemmas on the argument checks *)

Lemma filter_nil_iff {A} (P : A -> Prop) `{!forall x, Decision (P x)} (l : list A) :
  filter P l = [] <-> (forall x, x ∈ l -> ~ P x).
Proof.
  split.
  - intros Hf x Hx HP. assert (x ∈ filter P l) as Hin by (by apply list_elem_of_filter).
    rewrite Hf in Hin. by apply not_elem_of_nil in Hin.
  - intros Hn. destruct (filter P l) as [|x l'] eqn:He; [done|].
    assert (x ∈ filter P l) as Hx by (rewrite He; left).
    apply list_elem_of_filter in Hx as [? ?]. naive_solver.
Qed.

(** [if bad: raise] on the list of the offenders. *)
Lemma none_of_ok {A} `{!EqDecision A} (P : A -> Prop) `{!forall x, Decision (P x)} (l : list A) :
  bool_decide (filter P l <> []) = false <-> (forall x, x ∈ l -> ~ P x).
Proof.
  rewrite bool_decide_eq_false, <- filter_nil_iff.
  split; [apply dec_stable|naive_solver].
Qed.

Lemma require_keys_ok column a required optional u :
  require_keys column a required optional = Ok u <-> keys_exact a required optional.
Proof.
  unfold require_keys, keys_exact. rewrite bind_ok. setoid_rewrite raise_if_ok. setoid_rewrite none_of_ok.
  setoid_rewrite not_false_iff_true. setoid_rewrite dict_mem_keys. setoid_rewrite mem_elem.
  split; [intros (_ & H1 & H2)|intros [H1 H2]; exists tt]; auto.
Qed.

Lemma arg_ok a key v : arg a key = Ok v <-> dict_get a key = Some v.
Proof. unfold arg. destruct (dict_get a key); naive_solver. Qed.

Lemma require_str_ok column a key s :
  require_str column a key = Ok s <-> dict_get a key = Some (VStr s) /\ s <> "".
Proof.
  unfold require_str. rewrite bind_ok. setoid_rewrite arg_ok. split.
  - intros (v & Hv & H). destruct v; try discriminate.
    destruct (String.eqb_spec s0 ""); naive_solver.
  - intros [H1 H2]. exists (VStr s). split; [done|].
    by destruct (String.eqb_spec s "").
Qed.

Lemma as_str_list_nil l ss : as_str_list l = Some ss -> l = [] <-> ss = [].
Proof. destruct l as [|[] l]; cbn; try (destruct (as_str_list l)); naive_solver. Qed.

Lemma as_str_dict_nil d ss : as_str_dict d = Some ss -> d = [] <-> ss = [].
Proof. destruct d as [|[k []] d]; cbn; try (destruct (as_str_dict d)); naive_solver. Qed.

Lemma require_str_list_ok column a key ss :
  require_str_list column a key = Ok ss <->
  exists l, dict_get a key = Some (VList l) /\ as_str_list l = Some ss /\ ss <> [].
Proof.
  unfold require_str_list. rewrite bind_ok. setoid_rewrite arg_ok. split.
  - intros (v & Hv & H). destruct v as [| | | | | | | |l|]; try discriminate.
    destruct l as [|v l]; cbn -[as_str_list] in H; [discriminate|].
    destruct (as_str_list (v :: l)) as [s|] eqn:Hs; [|discriminate]. inv_ok.
    exists (v :: l). split_and!; [done..|]. apply as_str_list_nil in Hs as Hn. naive_solver.
  - intros (l & Hv & Hs & Hn). exists (VList l). split; [done|].
    destruct l as [|v l]; [cbn in Hs; congruence|]. by rewrite Hs.
Qed.

Lemma check_thousands_ok column v u :
  check_thousands column v = Ok u <-> exists thou, v = sep_value thou.
Proof.
  split.
  - destruct v as [| | | |s| | | | |]; cbn; try discriminate; intros H.
    + by exists None.
    + apply raise_if_ok, negb_false_iff, Nat.eqb_eq in H.
      destruct s as [|c [|]]; cbn in H; try discriminate. by exists (Some c).
  - destruct u. intros [[c|] ->]; done.
Qed.

Lemma value_is_sep thou dec : value_is (sep_value thou) (String dec "") = false <-> thou <> Some dec.
Proof.
  destruct thou as [c|]; cbn; [|done].
  destruct (Ascii.eqb_spec c dec); naive_solver.
Qed.

(** ** The validators accept exactly the typed declarations *)

(** Rewrite every successful check of a validator into what it says. *)
Ltac checks :=
  repeat (rewrite ?bind_ok, ?require_keys_ok, ?arg_ok, ?require_str_ok, ?require_str_list_ok,
            ?check_thousands_ok, ?raise_if_ok, ?negb_false_iff, ?none_of_ok in *).

(** Discharge the next check of a validator from the declaration. *)
Ltac ok_step :=
  apply bind_ok; (first [exists tt | eexists]); split;
  [ first [ apply require_keys_ok; eassumption | apply require_str_ok; by eauto
          | apply require_str_list_ok; by eauto | apply arg_ok; eassumption
          | apply check_thousands_ok; by eauto | reflexivity ] | ].

Lemma validate_parse_datetime_ok column a u :
  validate_parse_datetime column a = Ok u <->
  exists fmt tz, declares (mkTransformSpec "parse_datetime" a) (OpDatetime fmt tz).
Proof.
  unfold validate_parse_datetime. split.
  - intros H. inv_ok. checks. destruct Hs0 as [Hf Hne].
    destruct a2 as [| | | |z| | | | |]; try discriminate H.
    + checks. eexists _, None. by econstructor.
    + destruct (String.eqb_spec z ""); [discriminate H|]. checks.
      eexists _, (Some z). by econstructor.
  - destruct u. intros (fmt & tz & H). inversion H; subst; do 3 ok_step; cbn.
    + by apply raise_if_ok, negb_false_iff.
    + destruct (String.eqb_spec tz0 ""); [done|]. by apply raise_if_ok.
Qed.

Lemma validate_parse_number_ok column a u :
  validate_parse_number column a = Ok u <->
  exists dec thou, keys_exact a ["decimal_separator"; "thousands_separator"] [] /\
    dict_get a "decimal_separator" = Some (VStr (String dec "")) /\
    dict_get a "thousands_separator" = Some (sep_value thou) /\ thou <> Some dec.
Proof.
  unfold validate_parse_number. split.
  - intros H. inv_ok. checks. destruct Hs0 as [Hd _]. apply Nat.eqb_eq in Hs1.
    destruct a1 as [|dec [|]]; try discriminate Hs1.
    destruct Hs3 as [thou ->]. exists dec, thou. by rewrite value_is_sep in H.
  - destruct u. intros (dec & thou & Hk & Hd & Ht & Hne).
    do 5 ok_step. by apply raise_if_ok, value_is_sep.
Qed.

Lemma validate_parse_boolean_ok column a u :
  validate_parse_boolean column a = Ok u <->
  exists tv fv, declares (mkTransformSpec "parse_boolean" a) (OpBoolean tv fv).
Proof.
  unfold validate_parse_boolean. split.
  - intros H. inv_ok. checks.
    destruct Hs0 as (tl & Ht1 & Ht2 & Ht3), Hs1 as (fl & Hf1 & Hf2 & Hf3).
    exists a1, a2. eapply D_boolean; eauto.
    intros t Ht. specialize (H t Ht). by rewrite mem_elem in H.
  - destruct u. intros (tv & fv & H). inversion H; subst.
    do 3 ok_step. rewrite raise_if_ok, none_of_ok. intros t Ht. rewrite mem_elem. auto.
Qed.

Lemma is_bool_iff v : is_bool v = true <-> exists b, v = VBool b.
Proof. destruct v; cbn; naive_solver. Qed.

Lemma validate_map_enum_ok column a u :
  validate_map_enum column a = Ok u <->
  exists mapping ci, declares (mkTransformSpec "map_enum" a) (OpEnum mapping ci).
Proof.
  unfold validate_map_enum. split.
  - intros H. inv_ok. checks. apply is_bool_iff in Hs2 as [ci Hci]. rewrite Hci in H. cbn in H.
    destruct a1 as [| | | | | | | | |d]; try discriminate Hs1.
    destruct d as [|kv d]; [discriminate Hs1|].
    destruct (as_str_dict (kv :: d)) as [m|] eqn:Hm; [|discriminate Hs1]. inv_ok.
    exists a2, ci. eapply D_enum; eauto.
    + apply as_str_dict_nil in Hm. naive_solver.
    + intros ->. checks. apply bool_decide_eq_false in H. by apply dec_stable.
  - destruct u. intros (mapping & ci & H).
    inversion H as [| | | | | | |a' d mp ci' Hk Hd Hm Hne Hci Hnd| | |]; subst.
    do 2 ok_step. apply bind_ok. exists mapping. split.
    { destruct d as [|kv d]; [cbn in Hm; congruence|]. by rewrite Hm. }
    rewrite Hci. cbn. destruct ci; [|done].
    rewrite raise_if_ok, bool_decide_eq_false. intros Hn. auto.
Qed.

Lemma validate_normalize_args_ok spec column u :
  validate_normalize_args spec column = Ok u <-> exists t, declares spec t.
Proof.
  destruct u, spec as [o a]. unfold validate_normalize_args. cbn [op args]. split.
  - destruct (String.eqb_spec o "parse_date") as [->|]; [|
    destruct (String.eqb_spec o "parse_datetime") as [->|]; [|
    destruct (mem o ["parse_decimal"; "parse_percent"]) eqn:Hnum; [|
    destruct (String.eqb_spec o "parse_integer") as [->|]; [|
    destruct (String.eqb_spec o "parse_boolean") as [->|]; [|
    destruct (String.eqb_spec o "map_enum") as [->|]; [|
    destruct (String.eqb_spec o "null_tokens") as [->|]; [|
    destruct (String.eqb_spec o "normalize_whitespace") as [->|]; [|
    destruct (String.eqb_spec o "normalize_case") as [->|]; [|discriminate]]]]]]]]]; intros H.
    + inv_ok. checks. destruct Hs0. eexists. by econstructor.
    + apply validate_parse_datetime_ok in H as (? & ? & ?). eauto.
    + apply validate_parse_number_ok in H as (dec & thou & ? & ? & ? & ?).
      rewrite mem_elem, !elem_of_cons, elem_of_nil in Hnum.
      destruct Hnum as [->|[->|[]]]; eexists; by econstructor.
    + inv_ok. checks. destruct H as [thou ->]. eexists. by econstructor.
    + apply validate_parse_boolean_ok in H as (? & ? & ?). eauto.
    + apply validate_map_enum_ok in H as (? & ? & ?). eauto.
    + inv_ok. checks. destruct Hs0 as (l & ? & ? & ?). eexists. by econstructor.
    + inv_ok. checks. apply orb_false_iff in H as [H1 H2]. checks.
      apply is_bool_iff in H1 as [b1 ?], H2 as [b2 ?]. eexists. by econstructor.
    + inv_ok. checks. apply orb_true_iff in H.
      destruct a1 as [| | | |s| | | | |]; cbn in H; try (naive_solver discriminate).
      rewrite !String.eqb_eq in H. destruct H as [->| ->];
        [exists (OpCase true)|exists (OpCase false)]; by constructor.
  - intros [t H]. inversion H; subst; cbn -[require_keys].
    all: try (apply validate_parse_datetime_ok; eauto).
    all: try (apply validate_parse_number_ok; eauto 10).
    all: try (apply validate_parse_boolean_ok; eauto).
    all: try (apply validate_map_enum_ok; eauto).
    all: ok_step.
    + by ok_step.
    + ok_step. apply check_thousands_ok. eauto.
    + by ok_step.
    + repeat match goal with H : arg_get _ _ _ = _ |- _ => rewrite H end. done.
    + ok_step. by destruct up.
Qed.
