(* ===== verification/SourceMapping.v ===== *)
(** SourceMapping: one source's mapping rules and the construction-time checks
    that make them type-sound (libs/dis-mapping, [models/source_mapping.py]).

    [validate_rules] is the pydantic model validator; [construct] is what a
    caller of [SourceMapping(...)] gets.  [mapping_wf] states the rules a
    mapping has to obey, without reference to the order of the checks, and the
    validator accepts exactly those ([validate_rules_iff]). *)

From S2P Require Import Prelude Text Values Transform.

Record SourceMapping := mkSourceMapping {
  version : Z;
  rename : dict string;
  normalize : dict (list TransformSpec);
  cast : dict CastSpec;
  derive : dict (list TransformSpec)
}.

(** The canonical columns a mapping produces, in declaration order. *)
Definition target_columns (m : SourceMapping) : list string :=
  dict_values (rename m) ++ dict_keys (derive m).

(** Is [generator.args["source_column"]] cast to a datetime? *)
Definition source_cast_is (m : SourceMapping) (source : string) (t : CastType) : bool :=
  match dict_get (cast m) source with
  | Some spec => bool_decide (cast_type spec = t)
  | None => false
  end.

Definition check_generator_source (m : SourceMapping) (column : string)
    (generator : TransformSpec) (rename_targets : list string) : res unit :=
  if mem (op generator) ["copy"; "date_from_datetime"] then
    v ← arg (args generator) "source_column";
    source ← match v with VStr s => Ok s | _ => Err TypeError end;
    raise_if (negb (mem source rename_targets)) (config_error column) ≫= fun _ =>
    if String.eqb (op generator) "date_from_datetime" then
      raise_if (negb (source_cast_is m source CDatetime)) (config_error column)
    else Ok tt
  else Ok tt.

Definition check_rest_op (column : string) (spec : TransformSpec) : res unit :=
  raise_if (negb (mem (op spec) NORMALIZE_OPS)) (config_error column) ≫= fun _ =>
  validate_normalize_args spec column.

(** Ops after the generator transform strings: the generator must yield one. *)
Definition check_composition (m : SourceMapping) (column : string)
    (generator : TransformSpec) : res unit :=
  raise_if (String.eqb (op generator) "date_from_datetime") (config_error column) ≫= fun _ =>
  (if String.eqb (op generator) "constant" then
     v ← arg (args generator) "value";
     raise_if (negb (is_str v)) (config_error column)
   else Ok tt) ≫= fun _ =>
  if String.eqb (op generator) "copy" then
    v ← arg (args generator) "source_column";
    source ← match v with VStr s => Ok s | _ => Err TypeError end;
    match dict_get (cast m) source with
    | Some spec => raise_if (bool_decide (cast_type spec <> CString)) (config_error column)
    | None => Ok tt
    end
  else Ok tt.

Definition validate_derive_list (m : SourceMapping) (column : string)
    (specs : list TransformSpec) (rename_targets : list string) : res unit :=
  match specs with
  | [] => Err (config_error column)
  | generator :: rest =>
      validate_derive_generator_args generator column ≫= fun _ =>
      check_generator_source m column generator rename_targets ≫= fun _ =>
      for_each (check_rest_op column) rest ≫= fun _ =>
      match rest with [] => Ok tt | _ :: _ => check_composition m column generator end
  end.

Definition validate_rules (m : SourceMapping) : res unit :=
  raise_if (version m <? 1)%Z (MappingConfigError None) ≫= fun _ =>
  let targets := dict_values (rename m) in
  raise_if (bool_decide (~ NoDup targets)) (MappingConfigError None) ≫= fun _ =>
  for_each (fun column => raise_if (negb (mem column targets)) (config_error column))
           (dict_keys (normalize m)) ≫= fun _ =>
  for_each (fun column => raise_if (negb (mem column targets)) (config_error column))
           (dict_keys (cast m)) ≫= fun _ =>
  for_each (fun column => raise_if (mem column targets) (config_error column))
           (dict_keys (derive m)) ≫= fun _ =>
  for_each (fun '(column, specs) => for_each (fun spec => validate_normalize_args spec column) specs)
           (normalize m) ≫= fun _ =>
  for_each (fun '(column, spec) => validate_cast_spec spec column) (cast m) ≫= fun _ =>
  for_each (fun '(column, specs) => validate_derive_list m column specs targets) (derive m).

(** [SourceMapping(...)] *)
Definition construct (m : SourceMapping) : res SourceMapping :=
  validate_rules m ≫= fun _ => Ok m.

(** ** The rules a mapping obeys *)

(** A well-declared derive generator, and whether it yields strings: [copy]
    yields the source's cast type (a string when un-cast), [constant] the type
    of its literal, [date_from_datetime] a date. *)
Inductive gen_declares (m : SourceMapping) : TransformSpec -> bool -> Prop :=
| G_copy a source :
    keys_exact a ["source_column"] [] -> dict_get a "source_column" = Some (VStr source) ->
    source <> "" -> source ∈ dict_values (rename m) ->
    gen_declares m (mkTransformSpec "copy" a)
      (match dict_get (cast m) source with
       | Some spec => bool_decide (cast_type spec = CString)
       | None => true
       end)
| G_constant a v :
    keys_exact a ["value"] [] -> dict_get a "value" = Some v -> is_scalar v = true ->
    gen_declares m (mkTransformSpec "constant" a) (is_str v)
| G_date a source :
    keys_exact a ["source_column"] [] -> dict_get a "source_column" = Some (VStr source) ->
    source <> "" -> source ∈ dict_values (rename m) -> source_cast_is m source CDatetime = true ->
    gen_declares m (mkTransformSpec "date_from_datetime" a) false.

Definition derive_ok (m : SourceMapping) (specs : list TransformSpec) : Prop :=
  exists generator rest yields_string, specs = generator :: rest /\
    gen_declares m generator yields_string /\
    Forall (fun spec => exists t, declares spec t) rest /\
    (rest <> [] -> yields_string = true).

Definition cast_ok (spec : CastSpec) : Prop :=
  match cast_type spec with
  | CDecimal => exists p s, precision spec = Some p /\ scale spec = Some s /\ (1 <= p)%Z /\ (0 <= s <= p)%Z
  | _ => precision spec = None /\ scale spec = None
  end.

Record mapping_wf (m : SourceMapping) : Prop := {
  wf_version : (1 <= version m)%Z;
  wf_targets : NoDup (dict_values (rename m));
  wf_normalize_keys : forall c, c ∈ dict_keys (normalize m) -> c ∈ dict_values (rename m);
  wf_cast_keys : forall c, c ∈ dict_keys (cast m) -> c ∈ dict_values (rename m);
  wf_derive_keys : forall c, c ∈ dict_keys (derive m) -> c ∉ dict_values (rename m);
  wf_normalize : Forall (fun '(_, specs) => Forall (fun spec => exists t, declares spec t) specs) (normalize m);
  wf_cast : Forall (fun '(_, spec) => cast_ok spec) (cast m);
  wf_derive : Forall (fun '(_, specs) => derive_ok m specs) (derive m)
}.

(** ** The validator and the rules agree *)

Lemma declares_vocabulary spec t : declares spec t -> mem (op spec) NORMALIZE_OPS = true.
Proof. by inversion 1. Qed.

Lemma for_each_mem column_ok l u :
  for_each (fun column => raise_if (negb (mem column column_ok)) (config_error column)) l = Ok u <->
  forall c, c ∈ l -> c ∈ column_ok.
Proof.
  rewrite for_each_ok, Forall_forall.
  setoid_rewrite raise_if_ok. setoid_rewrite negb_false_iff. by setoid_rewrite mem_elem.
Qed.

Lemma for_each_not_mem forbidden l u :
  for_each (fun column => raise_if (mem column forbidden) (config_error column)) l = Ok u <->
  forall c, c ∈ l -> c ∉ forbidden.
Proof.
  rewrite for_each_ok, Forall_forall.
  setoid_rewrite raise_if_ok. setoid_rewrite <- not_true_iff_false. by setoid_rewrite mem_elem.
Qed.

Lemma validate_cast_spec_ok spec column u :
  validate_cast_spec spec column = Ok u <-> cast_ok spec.
Proof.
  destruct u, spec as [ty p s]. unfold validate_cast_spec, cast_ok. cbn.
  destruct ty; try (destruct p, s; naive_solver).
  destruct p as [p|], s as [s|]; try (split; [discriminate|naive_solver]).
  rewrite raise_if_ok, !orb_false_iff, !Z.ltb_ge. naive_solver lia.
Qed.

Lemma validate_rest_ok column rest u :
  for_each (check_rest_op column) rest = Ok u <->
  Forall (fun spec => exists t, declares spec t) rest.
Proof.
  rewrite for_each_ok. apply Forall_iff. intros spec. unfold check_rest_op.
  rewrite bind_ok. setoid_rewrite raise_if_ok. setoid_rewrite negb_false_iff.
  setoid_rewrite validate_normalize_args_ok. split; [naive_solver|].
  intros [t H]. exists tt. split; [by eapply declares_vocabulary|eauto].
Qed.

Lemma generator_ok m column g u :
  (validate_derive_generator_args g column ≫= fun _ =>
   check_generator_source m column g (dict_values (rename m))) = Ok u <->
  exists b, gen_declares m g b.
Proof.
  destruct u, g as [o a]. unfold validate_derive_generator_args, check_generator_source. cbn [op args].
  split.
  - destruct (String.eqb_spec o "copy") as [->|]; [|
    destruct (String.eqb_spec o "constant") as [->|]; [|
    destruct (String.eqb_spec o "date_from_datetime") as [->|]; [|discriminate]]];
      cbn; intros H; inv_ok.
    + checks. destruct_and!. simplify_eq. eexists. econstructor; [done..|by apply mem_elem].
    + checks. eexists. by econstructor.
    + checks. destruct_and!. simplify_eq. eexists. econstructor; [done..|by apply mem_elem|done].
  - intros [b H]. inversion H as [a' source Hk Ha Hne Hin|a' v Hk Ha Hs|a' source Hk Ha Hne Hin Hc];
      subst; cbn; apply bind_ok; exists tt; split.
    1,5: by do 2 ok_step.
    + ok_step. ok_step. apply bind_ok. exists tt. by rewrite raise_if_ok, negb_false_iff, mem_elem.
    + do 2 ok_step. rewrite raise_if_ok. by rewrite Hs.
    + done.
    + ok_step. ok_step. apply bind_ok. exists tt. rewrite !raise_if_ok, !negb_false_iff, mem_elem. done.
Qed.

(** The composition check asks of a declared generator that it yields strings. *)
Lemma composition_ok m column g b u :
  gen_declares m g b -> check_composition m column g = Ok u <-> b = true.
Proof.
  destruct u. intros H. inversion H; subst; unfold check_composition; cbn.
  - unfold arg. rewrite H1. cbn. destruct (dict_get (cast m) source) as [spec|]; [|done].
    rewrite raise_if_ok, bool_decide_eq_false, bool_decide_eq_true. split; [apply dec_stable|naive_solver].
  - unfold arg. rewrite H1. cbn. rewrite bind_ok. setoid_rewrite raise_if_ok.
    destruct (is_str v); cbn; naive_solver.
  - done.
Qed.

Lemma gen_declares_fun m g b1 b2 : gen_declares m g b1 -> gen_declares m g b2 -> b1 = b2.
Proof. inversion 1; inversion 1; simplify_eq; done. Qed.

Lemma validate_derive_list_ok m column specs u :
  validate_derive_list m column specs (dict_values (rename m)) = Ok u <-> derive_ok m specs.
Proof.
  destruct u. unfold derive_ok. destruct specs as [|g rest]; cbn; [naive_solver|].
  split.
  - intros H. inv_ok. destruct a, a0, a1.
    destruct (generator_ok m column g tt) as [[b Hb] _]; [by rewrite Hs|].
    apply validate_rest_ok in Hs1. exists g, rest, b. repeat split; auto.
    intros Hr. destruct rest; [done|]. by eapply composition_ok.
  - intros (g' & rest' & b & [= <- <-] & Hg & Hr & Hb).
    destruct (generator_ok m column g tt) as [_ Hok]. specialize (Hok (ex_intro _ b Hg)).
    apply bind_ok in Hok as ([] & H1 & H2). rewrite H1; cbn. rewrite H2; cbn.
    rewrite (proj2 (validate_rest_ok column rest tt) Hr); cbn.
    destruct rest; [done|]. eapply composition_ok; eauto.
Qed.

(** The model validator accepts exactly the well-formed mappings. *)
Lemma validate_rules_ok m u : validate_rules m = Ok u <-> mapping_wf m.
Proof.
  destruct u. unfold validate_rules. split.
  - intros H. inv_ok. apply Z.ltb_ge in Hs. apply bool_decide_eq_false in Hs0.
    rewrite for_each_mem in Hs1, Hs2. rewrite for_each_not_mem in Hs3.
    apply for_each_ok in Hs4, Hs5, H. constructor; try done.
    + by apply dec_stable.
    + eapply Forall_impl; [exact Hs4|]. intros [c specs] Hf%for_each_ok.
      eapply Forall_impl; [exact Hf|]. intros spec. apply validate_normalize_args_ok.
    + eapply Forall_impl; [exact Hs5|]. intros [c spec]. apply validate_cast_spec_ok.
    + eapply Forall_impl; [exact H|]. intros [c specs]. apply validate_derive_list_ok.
  - intros []. repeat (apply bind_ok; exists tt; split).
    + by apply raise_if_ok, Z.ltb_ge.
    + apply raise_if_ok, bool_decide_eq_false. naive_solver.
    + by apply for_each_mem.
    + by apply for_each_mem.
    + by apply for_each_not_mem.
    + apply for_each_ok. eapply Forall_impl; [exact wf_normalize0|]. intros [c specs] Hf.
      apply for_each_ok. eapply Forall_impl; [exact Hf|]. intros spec. apply validate_normalize_args_ok.
    + apply for_each_ok. eapply Forall_impl; [exact wf_cast0|]. intros [c spec]. apply validate_cast_spec_ok.
    + apply for_each_ok. eapply Forall_impl; [exact wf_derive0|]. intros [c specs]. apply validate_derive_list_ok.
Qed.

(** What the executor relies on: targets are produced once each. *)
Lemma target_columns_nodup m :
  dict_wf (derive m) -> mapping_wf m -> NoDup (target_columns m).
Proof.
  intros Hd []. unfold target_columns. apply NoDup_app. split; [done|]. split; [|done].
  intros c Hr Hc. by eapply wf_derive_keys0.
Qed.
