(* ===== verification/Polars.v ===== *)
(** Polars: the interface to the polars library.

    polars is not part of the repository: its operations are the fields of the
    class [Polars], and every definition of the mapping engine takes them as an
    argument.  [Kernels] holds the scalar functions polars applies to single
    cells (date parsing, time zones, casts); [PolarsLaws] states the documented
    behaviour the engine relies on: element-wise operations work cell by cell,
    pass null through and keep the name, masks use three-valued logic, and frame
    operations address columns by name.  String operations are specified on
    String columns only, and frame operations on columns that exist.

    [ListPolars] implements the interface on lists and satisfies the laws. *)

From S2P Require Import Prelude Text Values.

(** The scalar functions behind polars' element-wise operations. *)
Class Kernels := {
  k_strptime_date : string -> string -> option Z;       (* format, text: day number *)
  k_strptime_datetime : string -> string -> option Z;   (* format, text: microseconds *)
  k_format_zone : string -> option string;              (* the zone a format's offset gives *)
  k_to_datetime : string -> option Z;                   (* inferred ISO format, UTC *)
  k_strftime_date : string -> Z -> string;
  k_strftime_datetime : string -> Z -> string;
  k_tz_known : string -> bool;
  k_localize : string -> Z -> option Z;                 (* wall time in a zone; None: ambiguous or absent *)
  k_strip : string -> string;
  k_upper : string -> string;
  k_lower : string -> string;
  k_replace_all_re : regex -> string -> string -> string;
  k_castable : dtype -> dtype -> bool;
  k_cast : dtype -> dtype -> value -> option value;     (* source type, target type *)
  k_lit_type : value -> dtype;
  k_div100_type : dtype -> dtype;
  k_div100 : value -> option value
}.

(** The operations the engine calls. *)
Class Polars := {
  polars_kernels :: Kernels;
  (* expressions on series *)
  str_strptime_date : string -> series -> series;
  str_strptime_datetime : string -> series -> series;
  str_to_date : string -> series -> series;
  str_to_datetime_utc : series -> series;
  dt_strftime : string -> series -> series;
  dt_convert_time_zone : string -> series -> series;
  dt_replace_time_zone : option string -> series -> res series;
  dt_date : series -> series;
  str_contains : regex -> series -> series;
  str_replace_all_literal : string -> string -> series -> series;
  str_replace_all : regex -> string -> series -> series;
  str_replace_end : regex -> series -> series;
  str_strip_chars : series -> series;
  str_to_uppercase : series -> series;
  str_to_lowercase : series -> series;
  s_is_null : series -> series;
  s_is_not_null : series -> series;
  s_and : series -> series -> series;
  s_or : series -> series -> series;
  s_not : series -> series;
  s_fill_null_false : series -> series;
  s_any : series -> bool;
  s_arg_true : series -> list nat;
  s_zip_with : series -> series -> series -> series;    (* values, mask, other *)
  s_is_in : list string -> series -> series;
  s_eq_str : string -> series -> series;
  s_replace_strict : dict string -> series -> series;
  s_cast : dtype -> series -> res series;
  s_div100 : series -> series;
  s_rename : string -> series -> series;
  pl_repeat : value -> nat -> series;
  when_then : list (series * value) -> dtype -> string -> series;
  (* operations on frames *)
  df_get_column : frame -> string -> res series;
  df_select : frame -> list string -> res frame;
  df_rename : dict string -> frame -> frame;
  df_with_columns : series -> frame -> frame;
  df_gather : list nat -> frame -> frame;
  df_with_literals : dict value -> frame -> frame;      (* with_columns([lit(v).alias(n), ...]) *)
  df_to_dicts : frame -> list (dict value)
}.

(** ** What the laws are stated with *)

Definition is_none (c : cell) : bool := match c with None => true | Some _ => false end.
Definition is_true (c : cell) : bool := match c with Some (VBool b) => b | _ => false end.
Definition cbool (b : bool) : cell := Some (VBool b).

(** A cell function on strings, null-propagating. *)
Definition on_str (f : string -> option value) (c : cell) : cell :=
  match c with Some (VStr t) => f t | _ => None end.
Definition on_date (f : Z -> option value) (c : cell) : cell :=
  match c with Some (VDate d) => f d | _ => None end.
Definition on_datetime (f : Z -> option value) (c : cell) : cell :=
  match c with Some (VDatetime d) => f d | _ => None end.

Definition kleene_and (a b : cell) : cell :=
  match a, b with
  | Some (VBool false), _ | _, Some (VBool false) => cbool false
  | Some (VBool true), Some (VBool true) => cbool true
  | _, _ => None
  end.
Definition kleene_or (a b : cell) : cell :=
  match a, b with
  | Some (VBool true), _ | _, Some (VBool true) => cbool true
  | Some (VBool false), Some (VBool false) => cbool false
  | _, _ => None
  end.
Definition kleene_not (a : cell) : cell :=
  match a with Some (VBool b) => cbool (negb b) | _ => None end.

Fixpoint true_indices (i : nat) (l : list cell) : list nat :=
  match l with
  | [] => []
  | c :: l' => if is_true c then i :: true_indices (S i) l' else true_indices (S i) l'
  end.

Fixpoint select3 (vs ms os : list cell) : list cell :=
  match vs, ms, os with
  | v :: vs', m :: ms', o :: os' => (if is_true m then v else o) :: select3 vs' ms' os'
  | _, _, _ => []
  end.

(** The cells of [when(c1).then(v1).when(c2).then(v2)...otherwise(null)]. *)
Definition when_cell (conds : list (series * value)) (i : nat) : cell :=
  match list_find (fun '(c, _) => is_true (default None (s_cells c !! i)) = true) conds with
  | Some (_, (_, v)) => Some v
  | None => None
  end.

Definition elementwise (ty : dtype) (f : cell -> cell) (s : series) : series :=
  Series (s_name s) ty (map f (s_cells s)).

Fixpoint set_column (cols : list series) (s : series) : list series :=
  match cols with
  | [] => [s]
  | t :: cols' => if String.eqb (s_name t) (s_name s) then s :: cols' else t :: set_column cols' s
  end.

Definition gather_series (idx : list nat) (s : series) : series :=
  Series (s_name s) (s_dtype s) (map (fun i => default None (s_cells s !! i)) idx).

Definition rename_series (d : dict string) (s : series) : series :=
  Series (match dict_get d (s_name s) with Some n => n | None => s_name s end) (s_dtype s) (s_cells s).

(** A literal column, and a row as a dictionary: null is [None]. *)
Definition lit_cell (v : value) : cell := match v with VNone => None | _ => Some v end.
Definition cell_value (c : cell) : value := default VNone c.

Definition with_literal (ty : value -> dtype) (n : nat) (cols : list series) (lit : string * value) : list series :=
  set_column cols (Series lit.1 (ty lit.2) (replicate n (lit_cell lit.2))).

Definition row_dict (cols : list series) (i : nat) : dict value :=
  map (fun s => (s_name s, cell_value (default None (s_cells s !! i)))) cols.

Definition is_bool_series (s : series) : Prop := s_dtype s = TBoolean.
Definition len (s : series) : nat := length (s_cells s).

(** The decimal types polars documents: at most 38 digits (the default), the scale among them. *)
Definition decimal_fits (p : option Z) (q : Z) : Prop := (0 <= q <= default 38 p)%Z /\ (default 38 p <= 38)%Z.

(** ** The laws *)

Class PolarsLaws `{Polars} : Prop := {
  (* a format with a numeric offset yields an aware column *)
  law_format_zone fmt : str_in "%z" fmt = true -> is_Some (k_format_zone fmt);
  law_strptime_date fmt s : str_series s ->
    str_strptime_date fmt s = elementwise TDate (on_str (fun t => VDate <$> k_strptime_date fmt t)) s;
  law_strptime_datetime fmt s : str_series s ->
    str_strptime_datetime fmt s =
    elementwise (TDatetime "us" (k_format_zone fmt)) (on_str (fun t => VDatetime <$> k_strptime_datetime fmt t)) s;
  law_to_date fmt s : str_series s ->
    str_to_date fmt s = elementwise TDate (on_str (fun t => VDate <$> k_strptime_date fmt t)) s;
  law_to_datetime s : str_series s ->
    str_to_datetime_utc s = elementwise (TDatetime "us" (Some "UTC")) (on_str (fun t => VDatetime <$> k_to_datetime t)) s;
  law_strftime_date fmt s : s_dtype s = TDate ->
    dt_strftime fmt s = elementwise TString (on_date (fun d => Some (VStr (k_strftime_date fmt d)))) s;
  law_strftime_datetime fmt s u tz : s_dtype s = TDatetime u tz ->
    dt_strftime fmt s = elementwise TString (on_datetime (fun d => Some (VStr (k_strftime_datetime fmt d)))) s;
  (* an aware datetime is its instant, which a change of zone keeps *)
  law_convert_time_zone tz s u z : s_dtype s = TDatetime u (Some z) ->
    dt_convert_time_zone tz s = elementwise (TDatetime u (Some tz)) id s;
  law_replace_time_zone tz s u : s_dtype s = TDatetime u None ->
    dt_replace_time_zone (Some tz) s =
    if k_tz_known tz
    then Ok (elementwise (TDatetime u (Some tz)) (on_datetime (fun d => VDatetime <$> k_localize tz d)) s)
    else Err (OtherError "ComputeError");
  law_dt_date s u : s_dtype s = TDatetime u (Some "UTC") ->
    dt_date s = elementwise TDate (on_datetime (fun d => Some (VDate (d / 86400000000)))) s;
  law_contains r s : str_series s ->
    str_contains r s = elementwise TBoolean (on_str (fun t => Some (VBool (re_match r t)))) s;
  law_replace_all_literal c r s : str_series s ->
    str_replace_all_literal (String c "") r s = elementwise TString (on_str (fun t => Some (VStr (replace_char c r t)))) s;
  law_replace_all r x s : str_series s ->
    str_replace_all r x s = elementwise TString (on_str (fun t => Some (VStr (k_replace_all_re r x t)))) s;
  law_replace_end r s : str_series s ->
    str_replace_end r s = elementwise TString (on_str (fun t => Some (VStr (strip_suffix r t)))) s;
  law_strip_chars s : str_series s ->
    str_strip_chars s = elementwise TString (on_str (fun t => Some (VStr (k_strip t)))) s;
  law_to_uppercase s : str_series s ->
    str_to_uppercase s = elementwise TString (on_str (fun t => Some (VStr (k_upper t)))) s;
  law_to_lowercase s : str_series s ->
    str_to_lowercase s = elementwise TString (on_str (fun t => Some (VStr (k_lower t)))) s;
  law_is_null s : s_is_null s = elementwise TBoolean (fun c => cbool (is_none c)) s;
  law_is_not_null s : s_is_not_null s = elementwise TBoolean (fun c => cbool (negb (is_none c))) s;
  law_and a b : is_bool_series a -> is_bool_series b -> len a = len b ->
    s_and a b = Series (s_name a) TBoolean (zip_with kleene_and (s_cells a) (s_cells b));
  law_or a b : is_bool_series a -> is_bool_series b -> len a = len b ->
    s_or a b = Series (s_name a) TBoolean (zip_with kleene_or (s_cells a) (s_cells b));
  law_not s : is_bool_series s -> s_not s = elementwise TBoolean kleene_not s;
  law_fill_null_false s : is_bool_series s ->
    s_fill_null_false s = elementwise TBoolean (fun c => cbool (is_true c)) s;
  law_any s : is_bool_series s -> s_any s = existsb is_true (s_cells s);
  law_arg_true s : is_bool_series s -> s_arg_true s = true_indices 0 (s_cells s);
  law_zip_with v m o : is_bool_series m -> s_dtype o = s_dtype v -> len m = len v -> len o = len v ->
    s_zip_with v m o = Series (s_name v) (s_dtype v) (select3 (s_cells v) (s_cells m) (s_cells o));
  law_is_in l s : str_series s ->
    s_is_in l s = elementwise TBoolean (on_str (fun t => Some (VBool (existsb (String.eqb t) l)))) s;
  law_eq_str x s : str_series s ->
    s_eq_str x s = elementwise TBoolean (on_str (fun t => Some (VBool (String.eqb t x)))) s;
  law_replace_strict d s : str_series s ->
    s_replace_strict d s = elementwise TString (on_str (fun t => VStr <$> dict_get d t)) s;
  law_cast ty s :
    s_cast ty s =
    if k_castable (s_dtype s) ty
    then Ok (elementwise ty (fun c => c ≫= k_cast (s_dtype s) ty) s)
    else Err (OtherError "InvalidOperationError");
  law_castable_int : k_castable TString TInt64 = true;
  law_castable_decimal p q : decimal_fits p q -> k_castable TString (TDecimal p q) = true;
  law_castable_string p q : k_castable (TDecimal p q) TString = true;
  law_div100_type p q : exists p' q', k_div100_type (TDecimal p q) = TDecimal p' q';
  law_cast_string ty c v : k_cast ty TString c = Some v -> is_str v = true;
  law_div100 s p q : s_dtype s = TDecimal p q ->
    s_div100 s = elementwise (k_div100_type (s_dtype s)) (fun c => c ≫= k_div100) s;
  law_rename n s : s_rename n s = Series n (s_dtype s) (s_cells s);
  law_repeat v n : s_cells (pl_repeat v n) = replicate n (Some v);
  law_repeat_bool b n : s_dtype (pl_repeat (VBool b) n) = TBoolean;
  law_repeat_str t n : s_dtype (pl_repeat (VStr t) n) = TString;
  law_when_then conds ty name n : conds <> [] -> Forall (fun '(c, _) => is_bool_series c /\ len c = n) conds ->
    when_then conds ty name = Series name ty (map (when_cell conds) (seq 0 n));
  law_get_column f name : frame_wf f ->
    df_get_column f name =
    match find_series (f_cols f) name with Some s => Ok s | None => Err (OtherError "ColumnNotFoundError") end;
  law_select f names : frame_wf f -> NoDup names ->
    df_select f names = (cols ← map_res (df_get_column f) names; Ok (Frame cols));
  law_df_rename d f : frame_wf f -> NoDup (columns (Frame (map (rename_series d) (f_cols f)))) ->
    df_rename d f = Frame (map (rename_series d) (f_cols f));
  law_with_columns s f : frame_wf f -> (f_cols f = [] \/ len s = height f) ->
    df_with_columns s f = Frame (set_column (f_cols f) s);
  law_gather idx f : Forall (fun i => i < height f) idx ->
    df_gather idx f = Frame (map (gather_series idx) (f_cols f));
  law_with_literals d f : frame_wf f -> f_cols f <> [] ->
    df_with_literals d f = Frame (fold_left (with_literal k_lit_type (height f)) d (f_cols f));
  law_to_dicts f : frame_wf f -> df_to_dicts f = map (row_dict (f_cols f)) (seq 0 (height f))
}.

(** ** The interface on lists *)

Section ListPolars.
Context (K : Kernels).

Definition list_when_then (conds : list (series * value)) (ty : dtype) (name : string) : series :=
  Series name ty (map (when_cell conds) (seq 0 (match conds with [] => 0 | (c, _) :: _ => len c end))).

Definition list_get_column (f : frame) (name : string) : res series :=
  match find_series (f_cols f) name with Some s => Ok s | None => Err (OtherError "ColumnNotFoundError") end.

Definition list_strftime (fmt : string) (s : series) : series :=
  match s_dtype s with
  | TDate => elementwise TString (on_date (fun d => Some (VStr (k_strftime_date fmt d)))) s
  | _ => elementwise TString (on_datetime (fun d => Some (VStr (k_strftime_datetime fmt d)))) s
  end.

Definition time_unit_of (ty : dtype) : string := match ty with TDatetime u _ => u | _ => "us" end.

Definition list_replace_time_zone (tz : option string) (s : series) : res series :=
  match tz with
  | None => Ok (elementwise (TDatetime (time_unit_of (s_dtype s)) None) id s)
  | Some z =>
      if k_tz_known z
      then Ok (elementwise (TDatetime (time_unit_of (s_dtype s)) (Some z))
                 (on_datetime (fun d => VDatetime <$> k_localize z d)) s)
      else Err (OtherError "ComputeError")
  end.

Definition value_dtype (v : value) : dtype :=
  match v with
  | VStr _ => TString | VInt _ => TInt64 | VBool _ => TBoolean | VFloat _ => TOther "Float64" | _ => TOther "Object"
  end.

Definition str_op (f : string -> string) : series -> series :=
  elementwise TString (on_str (fun t => Some (VStr (f t)))).

Definition first_char (s : string) : ascii := match s with String c _ => c | EmptyString => " " end.

Definition ListPolars : Polars := {|
  polars_kernels := K;
  str_strptime_date fmt := elementwise TDate (on_str (fun t => VDate <$> k_strptime_date fmt t));
  str_strptime_datetime fmt :=
    elementwise (TDatetime "us" (k_format_zone fmt)) (on_str (fun t => VDatetime <$> k_strptime_datetime fmt t));
  str_to_date fmt := elementwise TDate (on_str (fun t => VDate <$> k_strptime_date fmt t));
  str_to_datetime_utc :=
    elementwise (TDatetime "us" (Some "UTC")) (on_str (fun t => VDatetime <$> k_to_datetime t));
  dt_strftime := list_strftime;
  dt_convert_time_zone tz s := elementwise (TDatetime (time_unit_of (s_dtype s)) (Some tz)) id s;
  dt_replace_time_zone := list_replace_time_zone;
  dt_date := elementwise TDate (on_datetime (fun d => Some (VDate (d / 86400000000))));
  str_contains r := elementwise TBoolean (on_str (fun t => Some (VBool (re_match r t))));
  str_replace_all_literal c r := str_op (replace_char (first_char c) r);
  str_replace_all r x := str_op (k_replace_all_re r x);
  str_replace_end r := str_op (strip_suffix r);
  str_strip_chars := str_op k_strip;
  str_to_uppercase := str_op k_upper;
  str_to_lowercase := str_op k_lower;
  s_is_null := elementwise TBoolean (fun c => cbool (is_none c));
  s_is_not_null := elementwise TBoolean (fun c => cbool (negb (is_none c)));
  s_and a b := Series (s_name a) TBoolean (zip_with kleene_and (s_cells a) (s_cells b));
  s_or a b := Series (s_name a) TBoolean (zip_with kleene_or (s_cells a) (s_cells b));
  s_not := elementwise TBoolean kleene_not;
  s_fill_null_false := elementwise TBoolean (fun c => cbool (is_true c));
  s_any s := existsb is_true (s_cells s);
  s_arg_true s := true_indices 0 (s_cells s);
  s_zip_with v m o := Series (s_name v) (s_dtype v) (select3 (s_cells v) (s_cells m) (s_cells o));
  s_is_in l := elementwise TBoolean (on_str (fun t => Some (VBool (existsb (String.eqb t) l))));
  s_eq_str x := elementwise TBoolean (on_str (fun t => Some (VBool (String.eqb t x))));
  s_replace_strict d := elementwise TString (on_str (fun t => VStr <$> dict_get d t));
  s_cast ty s :=
    if k_castable (s_dtype s) ty
    then Ok (elementwise ty (fun c => c ≫= k_cast (s_dtype s) ty) s)
    else Err (OtherError "InvalidOperationError");
  s_div100 s := elementwise (k_div100_type (s_dtype s)) (fun c => c ≫= k_div100) s;
  s_rename n s := Series n (s_dtype s) (s_cells s);
  pl_repeat v n := Series "repeat" (value_dtype v) (replicate n (Some v));
  when_then := list_when_then;
  df_get_column := list_get_column;
  df_select f names := (cols ← map_res (list_get_column f) names; Ok (Frame cols));
  df_rename d f := Frame (map (rename_series d) (f_cols f));
  df_with_columns s f := Frame (set_column (f_cols f) s);
  df_gather idx f := Frame (map (gather_series idx) (f_cols f));
  df_with_literals d f := Frame (fold_left (with_literal k_lit_type (height f)) d (f_cols f));
  df_to_dicts f := map (row_dict (f_cols f)) (seq 0 (height f))
|}.

(** What is asked of the kernels for the list implementation to obey the laws. *)
Class KernelLaws : Prop := {
  klaw_format_zone fmt : str_in "%z" fmt = true -> is_Some (k_format_zone fmt);
  klaw_castable_int : k_castable TString TInt64 = true;
  klaw_castable_decimal p q : decimal_fits p q -> k_castable TString (TDecimal p q) = true;
  klaw_castable_string p q : k_castable (TDecimal p q) TString = true;
  klaw_div100_type p q : exists p' q', k_div100_type (TDecimal p q) = TDecimal p' q';
  klaw_cast_string ty c v : k_cast ty TString c = Some v -> is_str v = true
}.

Lemma list_polars_laws : KernelLaws -> @PolarsLaws ListPolars.
Proof.
  intros []. constructor; cbn; try done; intros.
  1,2: unfold list_strftime; by rewrite H.
  - by rewrite H.
  - unfold list_replace_time_zone. by rewrite H.
  - unfold list_when_then. destruct conds as [|[c v] conds]; [done|].
    apply Forall_cons in H0 as [[_ <-] _]. done.
Qed.
End ListPolars.
