(* ===== verification/Normalize.v ===== *)
(** Normalize: the normalize sub-stage of the mapping engine (libs/dis-mapping,
    [engine/normalize.py], failure records of [result.py]).

    The operations are translated over the [Polars] interface.  [cell_step] is
    what one declared op does to one cell, and [chain] runs a declared list on a
    cell; [apply_transform_list_refines] shows that the vectorised engine is
    that per-cell function on every cell of the column, and that the failures
    it appends are exactly the cells whose chain fails, each once, with the step
    at which it failed. *)

From S2P Require Import Prelude Text Values Decimals Transform Polars.

(** ** Failure records ([result.py]) *)

Inductive stage_name : Type := StNormalize | StCast | StDerive.

Record CellNormalizationFailure := mkFailure {
  row_index : nat;
  column : string;
  source_column : option string;
  fvalue : option string;
  fop : string;
  transform_index : nat;
  expected_format : string;
  stage : stage_name;
  reason : string
}.

Record OpOutcome := mkOutcome {
  values : series;
  failed : series;
  expected : string
}.

(** [args[key]] where the code takes it for a string, an optional string, a list of strings. *)
Definition arg_str (a : dict value) (key : string) : res string :=
  v ← arg a key; match v with VStr s => Ok s | _ => Err TypeError end.

Definition arg_opt_str (a : dict value) (key : string) : res (option string) :=
  v ← arg a key; match v with VStr s => Ok (Some s) | VNone => Ok None | _ => Err TypeError end.

Definition arg_str_list (a : dict value) (key : string) : res (list string) :=
  v ← arg a key;
  match v with
  | VList l => match as_str_list l with Some ss => Ok ss | None => Err TypeError end
  | _ => Err TypeError
  end.

(** [if sep:] — a separator that is neither [None] nor empty. *)
Definition present (sep : option string) : option string :=
  match sep with Some "" => None | _ => sep end.

(** ** Patterns *)

Fixpoint re_literal (s : string) : regex :=
  match s with EmptyString => REps | String c s' => RSeq (re_char c) (re_literal s') end.

Definition re_sign : regex := re_opt (RChr (fun c => Ascii.eqb c "+" || Ascii.eqb c "-")).

(** [\d{3}] and [\d{1,3}] *)
Definition re_digits3 : regex := RSeq re_digit (RSeq re_digit re_digit).
Definition re_digits1_3 : regex := RSeq re_digit (re_opt (RSeq re_digit (re_opt re_digit))).

Definition numeric_body_pattern (thousands_separator : option string) : regex :=
  match present thousands_separator with
  | Some sep => RAlt (re_plus re_digit) (RSeq re_digits1_3 (re_plus (RSeq (re_literal sep) re_digits3)))
  | None => re_plus re_digit
  end.

Definition fraction_pattern (dec : string) : regex :=
  re_opt (RSeq (re_literal dec) (re_plus re_digit)).

Section Engine.
Context `{Polars}.

(** ** The operations *)

Definition no_failures (s : series) : series := pl_repeat (VBool false) (len s).

Definition null_where (vs mask : series) : series :=
  let nulls := Series (s_name vs) (s_dtype vs) (replicate (len vs) None) in
  s_zip_with vs (s_not (s_fill_null_false mask)) nulls.

Definition parse_date (s : series) (a : dict value) : res OpOutcome :=
  fmt ← arg_str a "format";
  let parsed := str_strptime_date fmt s in
  let failed := s_and (s_is_null parsed) (s_is_not_null s) in
  Ok (mkOutcome (dt_strftime "%Y-%m-%d" parsed) failed ("date in format " +:+ py_repr fmt)).

Definition is_compute_error (e : exn) : bool :=
  match e with OtherError "ComputeError" => true | _ => false end.

(** The zone step: [convert_time_zone] for an aware column, [replace_time_zone]
    for a naive one, a [ComputeError] turned into a configuration error. *)
Definition resolve_zone (name : string) (tz : option string) (parsed : series) : res series :=
  let r := match s_dtype parsed with
           | TDatetime _ (Some _) => Ok (dt_convert_time_zone "UTC" parsed)
           | _ => aware ← dt_replace_time_zone tz parsed; Ok (dt_convert_time_zone "UTC" aware)
           end in
  match r with
  | Err e => Err (if is_compute_error e then MappingConfigError (Some name) else e)
  | Ok p => Ok p
  end.

Definition parse_datetime (s : series) (a : dict value) : res OpOutcome :=
  fmt ← arg_str a "format";
  tz ← arg_opt_str a "timezone";
  parsed ← resolve_zone (s_name s) tz (str_strptime_datetime fmt s);
  let failed := s_and (s_is_null parsed) (s_is_not_null s) in
  let expected := "datetime in format " +:+ py_repr fmt +:+
                  match present tz with Some z => " in zone " +:+ z | None => " with offset" end in
  Ok (mkOutcome (dt_strftime "%Y-%m-%dT%H:%M:%S%.6f+00:00" parsed) failed expected).

Definition strip_separators (s : series) (dec thou : option string) : series :=
  let cleaned := match present thou with
                 | Some t => str_replace_all_literal t "" s
                 | None => s
                 end in
  match present dec with
  | Some d => if String.eqb d "." then cleaned else str_replace_all_literal d "." cleaned
  | None => cleaned
  end.

(** The mask of the cells whose original text does not match the pattern. *)
Definition not_matching (s : series) (pattern : regex) : series :=
  s_and (s_is_not_null s) (s_not (s_fill_null_false (str_contains pattern s))).

Definition and_thousands (thou : option string) : string :=
  match present thou with Some t => " and thousands " +:+ py_repr t | None => "" end.

Definition decimal_pattern (dec : string) (thou : option string) : regex :=
  RSeq re_sign (RSeq (numeric_body_pattern thou) (fraction_pattern dec)).

Definition parse_decimal (s : series) (a : dict value) : res OpOutcome :=
  dec ← arg_str a "decimal_separator";
  thou ← arg_opt_str a "thousands_separator";
  let failed := not_matching s (decimal_pattern dec thou) in
  let cleaned := strip_separators s (Some dec) thou in
  Ok (mkOutcome (null_where cleaned failed) failed
        ("decimal with separator " +:+ py_repr dec +:+ and_thousands thou)).

Definition percent_pattern (dec : string) (thou : option string) : regex :=
  RSeq re_sign (RSeq (numeric_body_pattern thou) (RSeq (fraction_pattern dec) (re_opt (re_char "%")))).

Definition parse_percent (s : series) (a : dict value) : res OpOutcome :=
  dec ← arg_str a "decimal_separator";
  thou ← arg_opt_str a "thousands_separator";
  let failed := not_matching s (percent_pattern dec thou) in
  let body := str_replace_end (re_char "%") s in
  let cleaned := strip_separators body (Some dec) thou in
  number ← s_cast (TDecimal None 18) cleaned;
  text ← s_cast TString (s_div100 number);
  let divided := str_replace_end (re_char ".") (str_replace_end (re_plus (re_char "0")) text) in
  Ok (mkOutcome (null_where divided failed) failed
        ("percentage with decimal separator " +:+ py_repr dec +:+ and_thousands thou)).

Definition integer_pattern (thou : option string) : regex :=
  RSeq re_sign (numeric_body_pattern thou).

Definition parse_integer (s : series) (a : dict value) : res OpOutcome :=
  thou ← arg_opt_str a "thousands_separator";
  let failed := not_matching s (integer_pattern thou) in
  let cleaned := strip_separators s None thou in
  Ok (mkOutcome (null_where cleaned failed) failed
        ("integer" +:+ match present thou with Some t => " with thousands " +:+ py_repr t | None => "" end)).

Definition parse_boolean (s : series) (a : dict value) : res OpOutcome :=
  true_values ← arg_str_list a "true_values";
  false_values ← arg_str_list a "false_values";
  let is_t := s_is_in true_values s in
  let is_f := s_is_in false_values s in
  let vs := when_then [(s_is_in true_values s, VStr "true"); (s_is_in false_values s, VStr "false")]
                      TString (s_name s) in
  let failed := s_and (s_is_not_null s) (s_not (s_or is_t is_f)) in
  Ok (mkOutcome vs failed
        ("boolean token in " +:+ py_repr_list true_values +:+ " or " +:+ py_repr_list false_values)).

(** [{k.upper(): v for k, v in mapping.items()}] *)
Definition upper_keys (mapping : dict string) : dict string :=
  fold_left (fun acc '(k, v) => dict_set acc (py_upper k) v) mapping [].

Definition map_enum (s : series) (a : dict value) : res OpOutcome :=
  m ← arg a "mapping";
  mapping ← match m with
            | VDict d => match as_str_dict d with Some sd => Ok sd | None => Err TypeError end
            | _ => Err TypeError
            end;
  let case_insensitive := truthy (arg_get a "case_insensitive" (VBool false)) in
  let lookup := if case_insensitive then upper_keys mapping else mapping in
  let keys := if case_insensitive then str_to_uppercase s else s in
  let mapped := s_rename (s_name s) (s_replace_strict lookup keys) in
  let failed := s_and (s_is_null mapped) (s_is_not_null s) in
  Ok (mkOutcome mapped failed ("one of " +:+ py_repr_list (py_sorted (dict_keys mapping)))).

Definition null_tokens (s : series) (a : dict value) : res OpOutcome :=
  tokens ← arg_str_list a "tokens";
  Ok (mkOutcome (null_where s (s_is_in tokens s)) (no_failures s) "").

(** [\s] *)
Definition re_space : regex :=
  RChr (fun c => ascii_between "009" "013" c || Ascii.eqb c " " || Ascii.eqb c "133" || Ascii.eqb c "160").

Definition normalize_whitespace (s : series) (a : dict value) : res OpOutcome :=
  let vs := if truthy (arg_get a "trim" (VBool true)) then str_strip_chars s else s in
  let vs := if truthy (arg_get a "collapse" (VBool true)) then str_replace_all (re_plus re_space) " " vs else vs in
  Ok (mkOutcome vs (no_failures s) "").

Definition normalize_case (s : series) (a : dict value) : res OpOutcome :=
  mode ← arg a "mode";
  let vs := if value_is mode "upper" then str_to_uppercase s else str_to_lowercase s in
  Ok (mkOutcome vs (no_failures s) "").

Definition NORMALIZE_IMPLS : dict (series -> dict value -> res OpOutcome) :=
  [("parse_date", parse_date); ("parse_datetime", parse_datetime); ("parse_decimal", parse_decimal);
   ("parse_percent", parse_percent); ("parse_integer", parse_integer); ("parse_boolean", parse_boolean);
   ("map_enum", map_enum); ("null_tokens", null_tokens);
   ("normalize_whitespace", normalize_whitespace); ("normalize_case", normalize_case)].

Definition run_impl (spec : TransformSpec) (s : series) : res OpOutcome :=
  match dict_get NORMALIZE_IMPLS (op spec) with
  | Some impl => impl s (args spec)
  | None => Err (KeyError (op spec))
  end.

(** ** The ordered transform list of one column *)

(** [series[row]] and [None if raw is None else str(raw)]. *)
Definition item (s : series) (row : nat) : cell := default None (s_cells s !! row).
Definition cell_text (c : cell) : option string := py_str <$> c.

Definition transform_failure (col : string) (source : option string) (st : stage_name) (k : nat)
    (spec : TransformSpec) (exp : string) (row : nat) (raw : cell) : CellNormalizationFailure :=
  mkFailure row col source (cell_text raw) (op spec) k exp st
    ("column " +:+ py_repr col +:+ ": step " +:+ pretty k +:+ " (" +:+ op spec +:+
     ") could not normalize the value; expected " +:+ exp).

(** The loop over [enumerate(specs)]; [k] is [transform_index_offset + position]. *)
Fixpoint apply_transforms (col : string) (source : option string) (st : stage_name) (k : nat)
    (specs : list TransformSpec) (current : series) (failures : list CellNormalizationFailure)
    : res (series * list CellNormalizationFailure) :=
  match specs with
  | [] => Ok (current, failures)
  | spec :: specs' =>
      outcome ← run_impl spec current;
      let mask := s_fill_null_false (failed outcome) in
      let failures' :=
        if s_any mask
        then failures ++ map (fun row => transform_failure col source st k spec (expected outcome) row (item current row))
                             (s_arg_true mask)
        else failures in
      apply_transforms col source st (S k) specs'
        (s_rename col (null_where (values outcome) mask)) failures'
  end.

Definition apply_transform_list (s : series) (col : string) (specs : list TransformSpec)
    (source : option string) (st : stage_name) (transform_index_offset : nat)
    (failures : list CellNormalizationFailure) : res (series * list CellNormalizationFailure) :=
  apply_transforms col source st transform_index_offset specs s failures.

(** [rename_inverse.get(column)] for [{canonical: source ...}]. *)
Definition rename_inverse (rename : dict string) : dict string :=
  fold_left (fun acc '(source, canonical) => dict_set acc canonical source) rename [].

Definition normalize_column (inverse : dict string) (col : string) (specs : list TransformSpec)
    (state : frame * list CellNormalizationFailure) : res (frame * list CellNormalizationFailure) :=
  let '(f, failures) := state in
  s ← df_get_column f col;
  raise_if (bool_decide (s_dtype s <> TString)) (MappingInputError (Some col)) ≫= fun _ =>
  '(normalized, failures') ← apply_transform_list s col specs (dict_get inverse col) StNormalize 0 failures;
  Ok (df_with_columns normalized f, failures').

Definition run_normalize (f : frame) (rules : dict (list TransformSpec)) (inverse : dict string)
    (failures : list CellNormalizationFailure) : res (frame * list CellNormalizationFailure) :=
  fold_res (fun state '(col, specs) => normalize_column inverse col specs state) (f, failures) rules.
End Engine.
