(* ===== verification/NormalizeSpec.v ===== *)
(** NormalizeSpec: what a declared transform list does to one cell, and the
    proof that the vectorised engine of [Normalize] does exactly that to every
    cell of a column. *)

From S2P Require Import Prelude Text Values Decimals Transform Polars Normalize.

(** ** The per-cell meaning of a declared op *)

Inductive outcome : Type :=
| Pass (t : string)     (* the canonical text *)
| Nulled                (* a null, on purpose *)
| Fail.                 (* not in the declared format *)

(** The canonical number text: grouping removed, ["."] as the decimal mark. *)
Definition strip_sep (c : option ascii) (t : string) : string :=
  match c with Some c => replace_char c "" t | None => t end.
Definition dot_mark (dec : ascii) (t : string) : string :=
  if Ascii.eqb dec "." then t else replace_char dec "." t.
Definition clean_number (dec : ascii) (thou : option ascii) (t : string) : string :=
  dot_mark dec (strip_sep thou t).

Definition char_str (c : ascii) : string := String c "".
Definition sep_str (thou : option ascii) : option string := char_str <$> thou.

Section CellSemantics.
Context `{Kernels}.

Definition percent_text (t : string) : option string :=
  d ← k_cast TString (TDecimal None 18) (VStr t);
  q ← k_div100 d;
  v ← k_cast (k_div100_type (TDecimal None 18)) TString q;
  (fun x => strip_suffix (re_char ".") (strip_suffix (re_plus (re_char "0")) x)) <$> as_str v.

Definition of_option (o : option string) (none : outcome) : outcome :=
  match o with Some t => Pass t | None => none end.

Definition cell_step (t : typed_op) (x : string) : outcome :=
  match t with
  | OpDate fmt => of_option (k_strftime_date "%Y-%m-%d" <$> k_strptime_date fmt x) Fail
  | OpDatetime fmt tz =>
      of_option (k_strftime_datetime "%Y-%m-%dT%H:%M:%S%.6f+00:00" <$>
                 (u ← k_strptime_datetime fmt x;
                  match k_format_zone fmt with
                  | Some _ => Some u
                  | None => k_localize (default "" tz) u
                  end)) Fail
  | OpDecimal dec thou =>
      if re_match (decimal_pattern (char_str dec) (sep_str thou)) x then Pass (clean_number dec thou x) else Fail
  | OpPercent dec thou =>
      if re_match (percent_pattern (char_str dec) (sep_str thou)) x
      then of_option (percent_text (clean_number dec thou (strip_suffix (re_char "%") x))) Nulled
      else Fail
  | OpInteger thou =>
      if re_match (integer_pattern (sep_str thou)) x then Pass (strip_sep thou x) else Fail
  | OpBoolean tv fv => if mem x tv then Pass "true" else if mem x fv then Pass "false" else Fail
  | OpEnum mapping ci =>
      of_option (dict_get (if ci then upper_keys mapping else mapping) (if ci then k_upper x else x)) Fail
  | OpNullTokens tokens => if mem x tokens then Nulled else Pass x
  | OpWhitespace trim collapse =>
      let y := if trim then k_strip x else x in
      Pass (if collapse then k_replace_all_re (re_plus re_space) " " y else y)
  | OpCase up => Pass (if up then k_upper x else k_lower x)
  end.

Definition cell_result (t : typed_op) (c : cell) : cell :=
  match c with
  | Some (VStr x) => match cell_step t x with Pass y => Some (VStr y) | _ => None end
  | _ => None
  end.

Definition cell_fails (t : typed_op) (c : cell) : bool :=
  match c with
  | Some (VStr x) => match cell_step t x with Fail => true | _ => false end
  | _ => false
  end.

(** The format a failure of an op reports. *)
Definition expected_of (t : typed_op) : string :=
  match t with
  | OpDate fmt => "date in format " +:+ py_repr fmt
  | OpDatetime fmt tz =>
      "datetime in format " +:+ py_repr fmt +:+
      match tz with Some z => " in zone " +:+ z | None => " with offset" end
  | OpDecimal dec thou => "decimal with separator " +:+ py_repr (char_str dec) +:+ and_thousands (sep_str thou)
  | OpPercent dec thou =>
      "percentage with decimal separator " +:+ py_repr (char_str dec) +:+ and_thousands (sep_str thou)
  | OpInteger thou => "integer" +:+ match thou with Some c => " with thousands " +:+ py_repr (char_str c) | None => "" end
  | OpBoolean tv fv => "boolean token in " +:+ py_repr_list tv +:+ " or " +:+ py_repr_list fv
  | OpEnum mapping _ => "one of " +:+ py_repr_list (py_sorted (dict_keys mapping))
  | _ => ""
  end.

(** ** A declared list on one cell *)

Definition chain (ts : list typed_op) (c : cell) : cell := fold_left (fun c t => cell_result t c) ts c.

(** The first step that fails, with the cell that entered it. *)
Fixpoint first_failure (k : nat) (steps : list (TransformSpec * typed_op)) (c : cell)
    : option (nat * TransformSpec * typed_op * cell) :=
  match steps with
  | [] => None
  | (spec, t) :: steps' =>
      if cell_fails t c then Some (k, spec, t, c) else first_failure (S k) steps' (cell_result t c)
  end.

Definition chain_fails (ts : list typed_op) (c : cell) : bool :=
  match first_failure 0 (map (fun t => (mkTransformSpec "" [], t)) ts) c with Some _ => true | None => false end.

Definition failing_rows (t : typed_op) (cells : list cell) : list nat :=
  true_indices 0 (map (fun c => cbool (cell_fails t c)) cells).

(** The failures of a column, step by step, in row order within a step. *)
Fixpoint chain_failures (col : string) (source : option string) (st : stage_name) (k : nat)
    (steps : list (TransformSpec * typed_op)) (cells : list cell) : list CellNormalizationFailure :=
  match steps with
  | [] => []
  | (spec, t) :: steps' =>
      map (fun row => transform_failure col source st k spec (expected_of t) row (default None (cells !! row)))
          (failing_rows t cells)
      ++ chain_failures col source st (S k) steps' (map (cell_result t) cells)
  end.

(** A declared time zone polars knows: the one thing the validator cannot check. *)
Definition zone_known (t : typed_op) : Prop :=
  match t with
  | OpDatetime fmt (Some tz) => k_format_zone fmt = None -> k_tz_known tz = true
  | _ => True
  end.

Global Instance zone_known_dec t : base.Decision (zone_known t).
Proof. destruct t as [|? [?|]| | | | | | | |]; cbn; apply _. Defined.
End CellSemantics.

(** ** Masks and selections *)

Lemma select3_map {A} (f g h : A -> cell) (l : list A) :
  select3 (map f l) (map g l) (map h l) = map (fun x => if is_true (g x) then f x else h x) l.
Proof. induction l as [|x l IH]; cbn; [done|]. by rewrite IH. Qed.

Lemma zip_with_map_same {A} (op2 : cell -> cell -> cell) (f g : A -> cell) (l : list A) :
  zip_with op2 (map f l) (map g l) = map (fun x => op2 (f x) (g x)) l.
Proof. induction l as [|x l IH]; cbn; [done|]. by rewrite IH. Qed.

Lemma replicate_map {A B} (b : B) (l : list A) : replicate (length l) b = map (fun _ => b) l.
Proof. induction l as [|x l IH]; cbn; [done|]. by rewrite IH. Qed.

Lemma existsb_true_indices i (l : list cell) :
  existsb is_true l = false -> true_indices i l = [].
Proof.
  revert i; induction l as [|c l IH]; intros i; cbn; [done|].
  rewrite orb_false_iff. intros [-> Hl]. auto.
Qed.

Lemma map_seq_lookup {A B} (f : A -> B) (g : nat -> B) (l : list A) :
  (forall i x, l !! i = Some x -> g i = f x) -> map g (seq 0 (length l)) = map f l.
Proof.
  intros Hg. apply list_eq. intros i. rewrite !list_lookup_fmap.
  destruct (l !! i) as [x|] eqn:Hx; cbn.
  - rewrite lookup_seq_lt by (by eapply lookup_lt_Some). cbn. f_equal. by apply Hg.
  - rewrite lookup_seq_ge by (by apply lookup_ge_None). done.
Qed.

Section Refinement.
Context `{!Polars, !PolarsLaws}.

Lemma elementwise_str f s :
  Forall is_strcell (map f (s_cells s)) -> str_series (elementwise TString f s).
Proof. done. Qed.

Lemma on_str_strcell (f : string -> option value) c :
  (forall t v, f t = Some v -> is_str v = true) -> is_strcell (on_str f c).
Proof.
  intros Hf. destruct c as [[]|]; cbn; try done. destruct (f s) as [v|] eqn:Hv; [|done].
  specialize (Hf _ _ Hv). by destruct v.
Qed.

Lemma elementwise_on_str (f : string -> option value) s :
  (forall t v, f t = Some v -> is_str v = true) -> str_series (elementwise TString (on_str f) s).
Proof. intros Hf. apply elementwise_str, Forall_map, Forall_true. intros. by apply on_str_strcell. Qed.

(** [null_where] as a cell function. *)
Lemma null_where_map name ty nm' (f g : cell -> cell) (l : list cell) :
  null_where (Series name ty (map f l)) (Series nm' TBoolean (map g l)) =
  Series name ty (map (fun c => if is_true (g c) then None else f c) l).
Proof.
  unfold null_where. rewrite law_fill_null_false by done. rewrite law_not by done.
  unfold elementwise, len; cbn. rewrite !map_map, length_map, replicate_map.
  rewrite law_zip_with by (unfold len; cbn; rewrite ?length_map; done). cbn.
  rewrite select3_map. f_equal. apply map_ext. intros c. cbn. by destruct (is_true (g c)).
Qed.

Lemma not_matching_map s r :
  str_series s ->
  not_matching s r =
  elementwise TBoolean (fun c => cbool (match c with Some (VStr t) => negb (re_match r t) | Some _ => true | None => false end)) s.
Proof.
  intros Hs. unfold not_matching. rewrite law_contains, law_is_not_null by done.
  rewrite law_fill_null_false by done. rewrite law_not by done.
  rewrite law_and by (unfold len, elementwise; cbn; rewrite ?length_map; done).
  unfold elementwise; cbn. rewrite !map_map, zip_with_map_same. f_equal.
  apply map_ext. intros [[]|]; cbn; try done. by destruct (re_match r s0).
Qed.

(** The mask [parsed.is_null() & s.is_not_null()]. *)
Lemma newly_null_map name ty (f : cell -> cell) s :
  s_and (s_is_null (Series name ty (map f (s_cells s)))) (s_is_not_null s) =
  Series name TBoolean (map (fun c => cbool (is_none (f c) && negb (is_none c))) (s_cells s)).
Proof.
  rewrite law_is_null, law_is_not_null.
  rewrite law_and by (unfold len, elementwise; cbn; rewrite ?length_map; done).
  unfold elementwise; cbn. rewrite map_map, zip_with_map_same. f_equal.
  apply map_ext. intros c. cbn. by destruct (is_none (f c)), (is_none c).
Qed.

(** ** Every operation is its per-cell function *)

(** An outcome that is [t] on every cell of [s]: a Boolean mask of the failing
    cells and, where a cell did not fail, the value of the step. *)
Record op_meets (t : typed_op) (s : series) (o : OpOutcome) : Prop := {
  om_values : exists name f, values o = Series name TString (map f (s_cells s)) /\
    (forall c, is_strcell c -> cell_fails t c = false -> f c = cell_result t c);
  om_failed : exists name g, failed o = Series name TBoolean (map g (s_cells s)) /\
    (forall c, is_strcell c -> is_true (g c) = cell_fails t c);
  om_expected : expected o = expected_of t
}.

Lemma arg_str_ok a key s : dict_get a key = Some (VStr s) -> arg_str a key = Ok s.
Proof. intros Ha. unfold arg_str, arg. by rewrite Ha. Qed.

Lemma arg_opt_sep_ok a key thou :
  dict_get a key = Some (sep_value thou) -> arg_opt_str a key = Ok (sep_str thou).
Proof. intros Ha. unfold arg_opt_str, arg. rewrite Ha. by destruct thou. Qed.

Lemma arg_str_list_ok a key l ss :
  dict_get a key = Some (VList l) -> as_str_list l = Some ss -> arg_str_list a key = Ok ss.
Proof. intros Ha Hl. unfold arg_str_list, arg. rewrite Ha. cbn. by rewrite Hl. Qed.

Lemma present_sep thou : present (sep_str thou) = sep_str thou.
Proof. by destruct thou. Qed.

Definition clean_cell (dec : option ascii) (thou : option ascii) : cell -> cell :=
  on_str (fun t => Some (VStr (match dec with Some d => dot_mark d | None => id end (strip_sep thou t)))).

Lemma strip_separators_map s dec thou :
  str_series s ->
  strip_separators s (sep_str dec) (sep_str thou) = elementwise TString (clean_cell dec thou) s.
Proof.
  intros Hs. unfold strip_separators. rewrite !present_sep.
  set (cleaned := match sep_str thou with Some t => _ | None => _ end).
  assert (cleaned = elementwise TString (clean_cell None thou) s) as ->.
  { subst cleaned. destruct thou as [c|]; cbn.
    - unfold char_str. by rewrite law_replace_all_literal.
    - destruct s as [n ty cells], Hs as [Hty Hc]; cbn in *; subst. unfold elementwise; cbn. f_equal.
      clear -Hc. induction Hc as [|c cells Hc1 Hc IH]; cbn; [done|]. rewrite <- IH. f_equal.
      by destruct c as [[]|]. }
  destruct dec as [d|]; cbn; [|done]. unfold char_str; cbn.
  destruct (Ascii.eqb_spec d ".") as [->|Hd]; cbn.
  - unfold elementwise. done.
  - rewrite law_replace_all_literal; [|apply elementwise_on_str; intros t v [= <-]; done].
    unfold elementwise; cbn. rewrite map_map. f_equal. apply map_ext.
    intros [[]|]; cbn; try done. unfold dot_mark. destruct (Ascii.eqb_spec d "."); [done|]. by destruct thou.
Qed.

(** An outcome built from cell functions. *)
Lemma meets_intro t s nv f nf g exp :
  (forall x, is_strcell (Some (VStr x)) ->
     is_true (g (Some (VStr x))) = cell_fails t (Some (VStr x)) /\
     (cell_fails t (Some (VStr x)) = false -> f (Some (VStr x)) = cell_result t (Some (VStr x)))) ->
  f None = None -> is_true (g None) = false -> exp = expected_of t ->
  op_meets t s (mkOutcome (Series nv TString (map f (s_cells s))) (Series nf TBoolean (map g (s_cells s))) exp).
Proof.
  intros Hx Hf Hg He. split; cbn; [..|done].
  - exists nv, f. split; [done|]. intros [[]|] Hc; try done. by apply Hx.
  - exists nf, g. split; [done|]. intros [[]|] Hc; try done. by apply Hx.
Qed.

Lemma parse_date_meets a fmt s :
  dict_get a "format" = Some (VStr fmt) -> str_series s ->
  exists o, parse_date s a = Ok o /\ op_meets (OpDate fmt) s o.
Proof.
  intros Ha Hs. unfold parse_date. rewrite (arg_str_ok _ _ _ Ha). eexists. split; [reflexivity|].
  rewrite law_strptime_date by done. unfold elementwise. rewrite newly_null_map.
  rewrite law_strftime_date by done. unfold elementwise; cbn. rewrite map_map.
  apply meets_intro; try done. intros x _. cbn. by destruct (k_strptime_date fmt x).
Qed.

Definition localized (fmt : string) (tz : option string) (u : Z) : option Z :=
  match k_format_zone fmt with Some _ => Some u | None => k_localize (default "" tz) u end.

Lemma resolve_zone_map name fmt tz s :
  str_series s ->
  (str_in "%z" fmt = true \/ exists z, tz = Some z /\ (k_format_zone fmt = None -> k_tz_known z = true)) ->
  resolve_zone name tz (str_strptime_datetime fmt s) =
  Ok (elementwise (TDatetime "us" (Some "UTC"))
        (on_str (fun t => VDatetime <$> (k_strptime_datetime fmt t ≫= localized fmt tz))) s).
Proof.
  intros Hs Hz. unfold resolve_zone, localized. rewrite law_strptime_datetime by done. cbn.
  destruct (k_format_zone fmt) as [z|] eqn:Hfz; cbn.
  - erewrite law_convert_time_zone by done. unfold elementwise; cbn. rewrite map_map. do 2 f_equal.
    apply map_ext. intros [[]|]; cbn; try done. by destruct (k_strptime_datetime fmt s0).
  - destruct Hz as [Hz|(z & -> & Hz)].
    { apply law_format_zone in Hz as [? ?]. congruence. }
    erewrite law_replace_time_zone by done. rewrite Hz by done. cbn.
    erewrite law_convert_time_zone by done. unfold elementwise; cbn. rewrite !map_map. do 2 f_equal.
    apply map_ext. intros [[]|]; cbn; try done. by destruct (k_strptime_datetime fmt s0).
Qed.

Lemma parse_datetime_meets a fmt tz s :
  dict_get a "format" = Some (VStr fmt) ->
  dict_get a "timezone" = Some (match tz with Some z => VStr z | None => VNone end) -> tz <> Some "" ->
  (tz = None -> str_in "%z" fmt = true) -> zone_known (OpDatetime fmt tz) -> str_series s ->
  exists o, parse_datetime s a = Ok o /\ op_meets (OpDatetime fmt tz) s o.
Proof.
  intros Ha Hz Hne Hoff Hk Hs. unfold parse_datetime. rewrite (arg_str_ok _ _ _ Ha).
  assert (arg_opt_str a "timezone" = Ok tz) as ->.
  { unfold arg_opt_str, arg. rewrite Hz. by destruct tz. }
  cbn. rewrite resolve_zone_map; [|done|]; cbn.
  2:{ destruct tz as [z|]; [right; eauto|left; auto]. }
  eexists. split; [reflexivity|]. unfold elementwise. rewrite newly_null_map.
  erewrite law_strftime_datetime by done. unfold elementwise; cbn. rewrite map_map.
  apply meets_intro; try done.
  - intros x _. cbn. unfold localized. destruct (k_strptime_datetime fmt x) as [u|]; cbn; [|done].
    destruct (k_format_zone fmt); cbn; [done|]. by destruct (k_localize _ u).
  - by destruct tz as [[]|].
Qed.

Lemma parse_decimal_meets a dec thou s :
  dict_get a "decimal_separator" = Some (VStr (String dec "")) ->
  dict_get a "thousands_separator" = Some (sep_value thou) -> str_series s ->
  exists o, parse_decimal s a = Ok o /\ op_meets (OpDecimal dec thou) s o.
Proof.
  intros Hd Ht Hs. unfold parse_decimal. rewrite (arg_str_ok _ _ _ Hd), (arg_opt_sep_ok _ _ _ Ht).
  eexists. split; [reflexivity|]. rewrite not_matching_map by done.
  change (Some (String dec "")) with (sep_str (Some dec)). rewrite strip_separators_map by done.
  unfold elementwise. rewrite null_where_map. apply meets_intro; try done.
  intros x _. cbn. by destruct (re_match _ x).
Qed.

Lemma parse_integer_meets a thou s :
  dict_get a "thousands_separator" = Some (sep_value thou) -> str_series s ->
  exists o, parse_integer s a = Ok o /\ op_meets (OpInteger thou) s o.
Proof.
  intros Ht Hs. unfold parse_integer. rewrite (arg_opt_sep_ok _ _ _ Ht).
  eexists. split; [reflexivity|]. rewrite not_matching_map by done.
  change None with (sep_str None) at 1. rewrite strip_separators_map by done.
  unfold elementwise. rewrite null_where_map. apply meets_intro; try done.
  - intros x _. cbn. by destruct (re_match _ x).
  - by destruct thou.
Qed.

Definition percent_cell (c : cell) : cell := on_str (fun t => VStr <$> percent_text t) c.

(** The vectorised division by one hundred. *)
Lemma percent_divide_map s :
  str_series s ->
  exists number text,
    s_cast (TDecimal None 18) s = Ok number /\ s_cast TString (s_div100 number) = Ok text /\
    str_replace_end (re_char ".") (str_replace_end (re_plus (re_char "0")) text) =
    elementwise TString percent_cell s.
Proof.
  intros Hs. destruct Hs as [Hty Hc]. rewrite law_cast, Hty, law_castable_decimal by (split; cbn; lia).
  do 2 eexists. split; [reflexivity|]. erewrite law_div100 by done. rewrite law_cast. cbn.
  destruct (law_div100_type None 18) as (p & q & Hpq).
  assert (k_castable (k_div100_type (TDecimal None 18)) TString = true) as ->
    by (rewrite Hpq; apply law_castable_string).
  split; [reflexivity|].
  assert (forall (f : cell -> cell), (forall c, is_strcell (f c)) -> str_series (elementwise TString f s)) as Hstr.
  { intros f Hf. apply elementwise_str, Forall_map, Forall_true. done. }
  unfold elementwise; cbn. rewrite !map_map.
  set (g := fun x => (_ : cell)).
  assert (forall c, is_strcell (g c)) as Hg.
  { intros c. subst g. cbn. destruct (c ≫= _) as [d|]; cbn; [|done].
    destruct (k_div100 d) as [v|]; cbn; [|done].
    destruct (k_cast _ TString v) as [w|] eqn:Hw; [|done]. apply law_cast_string in Hw. by destruct w. }
  change (Series (s_name s) TString (map g (s_cells s))) with (elementwise TString g s).
  rewrite (law_replace_end (re_plus (re_char "0"))) by auto.
  rewrite law_replace_end; [|apply elementwise_on_str; intros ? ? [= <-]; done].
  unfold elementwise; cbn. rewrite !map_map. f_equal.
  apply map_ext_in. intros c Hin. rewrite Forall_forall in Hc.
  specialize (Hc c (proj2 (list_elem_of_In _ _) Hin)).
  destruct c as [[]|]; try done. unfold percent_cell, percent_text, g; cbn.
  destruct (k_cast TString _ _) as [d|]; cbn; [|done].
  destruct (k_div100 d) as [v|]; cbn; [|done].
  destruct (k_cast _ TString v) as [w|] eqn:Hw; cbn; [|done]. apply law_cast_string in Hw. by destruct w.
Qed.

Lemma parse_percent_meets a dec thou s :
  dict_get a "decimal_separator" = Some (VStr (String dec "")) ->
  dict_get a "thousands_separator" = Some (sep_value thou) -> str_series s ->
  exists o, parse_percent s a = Ok o /\ op_meets (OpPercent dec thou) s o.
Proof.
  intros Hd Ht Hs. unfold parse_percent. rewrite (arg_str_ok _ _ _ Hd), (arg_opt_sep_ok _ _ _ Ht). cbn -[strip_suffix strip_separators not_matching null_where sep_str].
  set (body := str_replace_end (re_char "%") s).
  assert (body = elementwise TString (on_str (fun t => Some (VStr (strip_suffix (re_char "%") t)))) s) as Hb.
  { subst body. by rewrite law_replace_end. }
  assert (str_series body) as Hbs by (rewrite Hb; apply elementwise_on_str; intros ? ? [= <-]; done).
  change (Some (String dec "")) with (sep_str (Some dec)). rewrite (strip_separators_map _ (Some dec)) by done.
  destruct (percent_divide_map (elementwise TString (clean_cell (Some dec) thou) body)) as (n & x & -> & Hx & Hr).
  { apply elementwise_on_str. intros ? ? [= <-]. done. }
  cbn -[strip_suffix strip_separators not_matching null_where sep_str]. rewrite Hx. cbn -[strip_suffix strip_separators not_matching null_where sep_str]. eexists. split; [reflexivity|].
  rewrite Hr, not_matching_map by done. rewrite Hb. unfold elementwise; cbn -[strip_suffix strip_separators not_matching null_where sep_str]. rewrite !map_map.
  rewrite null_where_map. apply meets_intro; try done.
  intros y _. cbn -[strip_suffix strip_separators not_matching null_where sep_str]. destruct (re_match _ y); cbn -[strip_suffix strip_separators not_matching null_where]; [|done].
  split; [by destruct (percent_text _)|]. intros _. by destruct (percent_text _).
Qed.

Lemma parse_boolean_meets a tl fl tv fv s :
  dict_get a "true_values" = Some (VList tl) -> as_str_list tl = Some tv ->
  dict_get a "false_values" = Some (VList fl) -> as_str_list fl = Some fv -> str_series s ->
  exists o, parse_boolean s a = Ok o /\ op_meets (OpBoolean tv fv) s o.
Proof.
  intros H1 H2 H3 H4 Hs. unfold parse_boolean.
  rewrite (arg_str_list_ok _ _ _ _ H1 H2), (arg_str_list_ok _ _ _ _ H3 H4).
  eexists. split; [reflexivity|]. rewrite law_is_not_null, !law_is_in by done.
  rewrite law_or by (unfold len, elementwise; cbn; rewrite ?length_map; done).
  unfold elementwise; cbn. rewrite zip_with_map_same. rewrite law_not by done.
  rewrite law_and by (unfold len, elementwise; cbn; rewrite ?length_map; done).
  unfold elementwise; cbn. rewrite map_map, zip_with_map_same.
  rewrite (law_when_then _ _ _ (len s)); [|done|by repeat constructor; unfold len; cbn; rewrite ?length_map].
  unfold len. erewrite (map_seq_lookup _ _ (s_cells s)).
  2:{ intros i c Hi. unfold when_cell. cbn. rewrite !list_lookup_fmap, Hi. cbn.
      instantiate (1 := fun c => match c with
        | Some (VStr t) => if mem t tv then Some (VStr "true") else if mem t fv then Some (VStr "false") else None
        | _ => None end).
      destruct c as [[]|]; cbn; try done. unfold mem.
      destruct (existsb _ tv); cbn; [done|]. by destruct (existsb _ fv). }
  apply meets_intro; try done. intros x _. cbn. unfold mem.
  destruct (existsb _ tv); cbn; [done|]. by destruct (existsb _ fv).
Qed.

Lemma map_enum_meets a d mapping ci s :
  dict_get a "mapping" = Some (VDict d) -> as_str_dict d = Some mapping ->
  arg_get a "case_insensitive" (VBool false) = VBool ci -> str_series s ->
  exists o, map_enum s a = Ok o /\ op_meets (OpEnum mapping ci) s o.
Proof.
  intros H1 H2 H3 Hs. unfold map_enum, arg. rewrite H1. cbn. rewrite H2, H3. cbn.
  eexists. split; [reflexivity|].
  set (lookup := if ci then upper_keys mapping else mapping).
  set (keys := if ci then str_to_uppercase s else s).
  assert (s_replace_strict lookup keys =
          Series (s_name s) TString (map (on_str (fun t => VStr <$> dict_get lookup (if ci then k_upper t else t))) (s_cells s))) as ->.
  { subst keys. destruct ci.
    - rewrite law_to_uppercase by done. rewrite law_replace_strict by (apply elementwise_on_str; intros ? ? [= <-]; done).
      unfold elementwise; cbn. rewrite map_map. f_equal. apply map_ext. by intros [[]|].
    - by rewrite law_replace_strict. }
  rewrite law_rename. cbn. rewrite newly_null_map.
  apply meets_intro; try done. intros x _. cbn. fold lookup. by destruct (dict_get lookup _).
Qed.

(** The mask of the operations that never fail. *)
Lemma no_failures_map s :
  no_failures s = Series (s_name (no_failures s)) TBoolean (map (fun _ => cbool false) (s_cells s)).
Proof.
  unfold no_failures. destruct (pl_repeat (VBool false) (len s)) as [n ty cells] eqn:He; cbn.
  pose proof (law_repeat (VBool false) (len s)) as Hc. pose proof (law_repeat_bool false (len s)) as Ht.
  rewrite He in Hc, Ht. cbn in *. subst. unfold len. by rewrite replicate_map.
Qed.

Lemma str_series_self s : str_series s -> s = Series (s_name s) TString (map (on_str (fun t => Some (VStr t))) (s_cells s)).
Proof.
  destruct s as [n ty cells]. intros [Hty Hc]; cbn in *; subst. f_equal.
  induction Hc as [|c cells Hc1 Hc IH]; cbn; [done|]. rewrite <- IH. by destruct c as [[]|].
Qed.

Lemma null_tokens_meets a l tokens s :
  dict_get a "tokens" = Some (VList l) -> as_str_list l = Some tokens -> str_series s ->
  exists o, null_tokens s a = Ok o /\ op_meets (OpNullTokens tokens) s o.
Proof.
  intros H1 H2 Hs. unfold null_tokens. rewrite (arg_str_list_ok _ _ _ _ H1 H2).
  eexists. split; [reflexivity|]. rewrite no_failures_map, law_is_in by done.
  unfold elementwise. set (mask := Series _ TBoolean (map _ (s_cells s))) at 1.
  replace (null_where s mask) with
    (null_where (Series (s_name s) TString (map (on_str (fun t => Some (VStr t))) (s_cells s))) mask)
    by (f_equal; by rewrite <- str_series_self).
  unfold mask. rewrite null_where_map. apply meets_intro; try done. intros x _. cbn. unfold mem. by destruct (existsb _ tokens).
Qed.

Lemma normalize_whitespace_meets a trim collapse s :
  arg_get a "trim" (VBool true) = VBool trim -> arg_get a "collapse" (VBool true) = VBool collapse ->
  str_series s ->
  exists o, normalize_whitespace s a = Ok o /\ op_meets (OpWhitespace trim collapse) s o.
Proof.
  intros H1 H2 Hs. unfold normalize_whitespace. rewrite H1, H2. eexists. split; [reflexivity|].
  rewrite no_failures_map.
  assert ((if truthy (VBool trim) then str_strip_chars s else s) =
          elementwise TString (on_str (fun t => Some (VStr (if trim then k_strip t else t)))) s) as ->.
  { destruct trim; cbn; [by rewrite law_strip_chars|by apply str_series_self]. }
  set (s1 := elementwise _ _ s).
  assert ((if truthy (VBool collapse) then str_replace_all (re_plus re_space) " " s1 else s1) =
          elementwise TString (on_str (fun t =>
            let y := if trim then k_strip t else t in
            Some (VStr (if collapse then k_replace_all_re (re_plus re_space) " " y else y)))) s) as ->.
  { destruct collapse; cbn; [|done].
    rewrite law_replace_all by (apply elementwise_on_str; intros ? ? [= <-]; done).
    unfold s1, elementwise; cbn. rewrite map_map. f_equal. apply map_ext. by intros [[]|]. }
  by apply meets_intro.
Qed.

Lemma normalize_case_meets a (up : bool) s :
  dict_get a "mode" = Some (VStr (if up then "upper" else "lower")) -> str_series s ->
  exists o, normalize_case s a = Ok o /\ op_meets (OpCase up) s o.
Proof.
  intros H1 Hs. unfold normalize_case, arg. rewrite H1. cbn. eexists. split; [reflexivity|].
  rewrite no_failures_map. destruct up; cbn.
  - rewrite law_to_uppercase by done. by apply meets_intro.
  - rewrite law_to_lowercase by done. by apply meets_intro.
Qed.

(** Every declared op runs, and is its per-cell function on a String column. *)
Lemma run_impl_meets spec t s :
  declares spec t -> zone_known t -> str_series s ->
  exists o, run_impl spec s = Ok o /\ op_meets t s o.
Proof.
  intros Hd Hz Hs. inversion Hd; subst; unfold run_impl; cbn [op args NORMALIZE_IMPLS]; cbn.
  - by apply parse_date_meets.
  - by apply parse_datetime_meets.
  - apply parse_datetime_meets; naive_solver.
  - by apply parse_decimal_meets.
  - by apply parse_percent_meets.
  - by apply parse_integer_meets.
  - by eapply parse_boolean_meets.
  - by eapply map_enum_meets.
  - by eapply null_tokens_meets.
  - by apply normalize_whitespace_meets.
  - by apply normalize_case_meets.
Qed.

(** A naive column in a zone polars does not know is a configuration error, whatever its cells. *)
Lemma run_impl_unknown_zone spec t s :
  declares spec t -> ~ zone_known t -> str_series s -> run_impl spec s = Err (MappingConfigError (Some (s_name s))).
Proof.
  intros Hd Hz Hs. destruct t as [|fmt tz| | | | | | | |]; try (by destruct Hz). destruct tz as [z|]; [|by destruct Hz].
  assert (k_format_zone fmt = None /\ k_tz_known z = false) as [Hf Hk].
  { cbn in Hz. destruct (k_format_zone fmt), (k_tz_known z); try done; by destruct Hz. }
  assert (dict_get (args spec) "format" = Some (VStr fmt) /\ dict_get (args spec) "timezone" = Some (VStr z) /\ op spec = "parse_datetime") as (Ha & Ht & Ho)
    by (inversion Hd; subst; done).
  unfold run_impl. rewrite Ho. cbn [NORMALIZE_IMPLS dict_get String.eqb Ascii.eqb Bool.eqb]. unfold parse_datetime.
  rewrite (arg_str_ok _ _ _ Ha). unfold arg_opt_str, arg. rewrite Ht. cbn [mbind result_bind].
  unfold resolve_zone. rewrite law_strptime_datetime by done. unfold elementwise. cbn [s_dtype]. rewrite Hf.
  erewrite law_replace_time_zone by done. by rewrite Hk.
Qed.

(** ** The transform list is the per-cell chain *)

Lemma cell_result_strcell t c : is_strcell (cell_result t c).
Proof. destruct c as [[]|]; cbn; try done. by destruct (cell_step t s). Qed.

Definition steps_ok (steps : list (TransformSpec * typed_op)) : Prop :=
  Forall (fun '(spec, t) => declares spec t /\ zone_known t) steps.

(** The mask and the nulled values of one step. *)
Lemma step_columns t s o col :
  op_meets t s o -> str_series s ->
  s_fill_null_false (failed o) = Series (s_name (failed o)) TBoolean (map (fun c => cbool (cell_fails t c)) (s_cells s)) /\
  s_rename col (null_where (values o) (s_fill_null_false (failed o))) =
  Series col TString (map (cell_result t) (s_cells s)).
Proof.
  intros [(nv & f & Hv & Hf) (nf & g & Hg & Hgf) _] [_ Hc].
  assert (s_fill_null_false (failed o) =
          Series (s_name (failed o)) TBoolean (map (fun c => cbool (cell_fails t c)) (s_cells s))) as Hm.
  { rewrite Hg, law_fill_null_false by done. unfold elementwise; cbn. rewrite map_map. f_equal.
    clear -Hc Hgf. induction Hc as [|c cells Hc1 Hc IH]; cbn; [done|]. rewrite IH. by rewrite Hgf. }
  split; [done|]. rewrite Hm, Hv, null_where_map, law_rename. cbn. f_equal.
  clear -Hc Hf. induction Hc as [|c cells Hc1 Hc IH]; cbn; [done|]. rewrite IH. f_equal.
  destruct (cell_fails t c) eqn:Hfail; [|auto].
  destruct c as [[]|]; try done. cbn in *. by destruct (cell_step t s0).
Qed.

Lemma apply_transforms_refines col source st k steps s failures :
  steps_ok steps -> str_series s -> s_name s = col ->
  apply_transforms col source st k (map fst steps) s failures =
  Ok (Series col TString (map (chain (map snd steps)) (s_cells s)),
      failures ++ chain_failures col source st k steps (s_cells s)).
Proof.
  intros Hok. revert k s failures. induction Hok as [|[spec t] steps [Hd Hz] Hok IH];
    intros k s failures Hs Hn; cbn.
  - rewrite app_nil_r. destruct s as [n ty cells], Hs as [Hty _]; cbn in *; subst. unfold chain; cbn.
    by rewrite map_id.
  - destruct (run_impl_meets spec t s Hd Hz Hs) as (o & Ho & Hm). rewrite Ho. cbn.
    destruct (step_columns t s o col Hm Hs) as [Hmask ->]. rewrite Hmask.
    rewrite law_any, law_arg_true by done. cbn.
    rewrite (om_expected _ _ _ Hm). rewrite IH; [|split; [done|]; cbn|done].
    2:{ apply Forall_map, Forall_true. intros. apply cell_result_strcell. }
    cbn. rewrite map_map. f_equal. f_equal.
    rewrite app_assoc. f_equal. unfold failing_rows, item.
    destruct (existsb is_true _) eqn:He; [done|].
    rewrite existsb_true_indices by done. cbn. by rewrite app_nil_r.
Qed.

(** A list with an unknown zone in it raises, whatever the column holds. *)
Lemma apply_transforms_unknown_zone col source st k steps s failures :
  Forall (fun '(spec, t) => declares spec t) steps -> ~ Forall (fun '(_, t) => zone_known t) steps -> str_series s -> s_name s = col ->
  apply_transforms col source st k (map fst steps) s failures = Err (MappingConfigError (Some col)).
Proof.
  intros Hd. revert k s failures. induction Hd as [|[spec t] steps Hd1 Hd IH]; intros k s failures Hz Hs Hn; [by destruct Hz|].
  cbn. destruct (decide (zone_known t)) as [Hk|Hk].
  - destruct (run_impl_meets spec t s Hd1 Hk Hs) as (o & Ho & Hm). rewrite Ho. cbn.
    destruct (step_columns t s o col Hm Hs) as [_ ->]. apply IH; [|split; [done|]; cbn|done].
    + intros Hall. apply Hz. by constructor.
    + apply Forall_map, Forall_true. intros. apply cell_result_strcell.
  - by rewrite (run_impl_unknown_zone spec t s Hd1 Hk Hs), Hn.
Qed.
End Refinement.

(** ** Each failing cell is reported once, at its first failing step *)

Section Reports.
Context `{Kernels}.

Lemma elem_true_indices i j l : j ∈ true_indices i l <-> exists k c, j = i + k /\ l !! k = Some c /\ is_true c = true.
Proof.
  revert i; induction l as [|c l IH]; intros i; cbn.
  - split; [intros H0; by apply not_elem_of_nil in H0|naive_solver].
  - assert (j ∈ true_indices (S i) l <-> exists k c', j = i + S k /\ l !! k = Some c' /\ is_true c' = true) as Hl.
    { rewrite IH. setoid_rewrite Nat.add_succ_r. done. }
    assert ((exists k c', j = i + k /\ (c :: l) !! k = Some c' /\ is_true c' = true) <->
            (j = i /\ is_true c = true) \/ (exists k c', j = i + S k /\ l !! k = Some c' /\ is_true c' = true)) as ->.
    { split.
      - intros ([|k] & c' & -> & Hk & Ht); cbn in Hk; simplify_eq; [left; split; [lia|done]|right; eauto].
      - intros [[-> Ht]|(k & c' & -> & Hk & Ht)]; [exists 0, c|exists (S k), c']; cbn; split_and!; try done; lia. }
    rewrite <- Hl. destruct (is_true c) eqn:Hc; [rewrite elem_of_cons|]; naive_solver.
Qed.

Lemma NoDup_true_indices i l : NoDup (true_indices i l).
Proof.
  revert i; induction l as [|c l IH]; intros i; cbn; [constructor|].
  destruct (is_true c); [|auto]. constructor; [|auto].
  rewrite elem_true_indices. intros (k & ? & ? & _). lia.
Qed.

Lemma elem_failing_rows t cells row :
  row ∈ failing_rows t cells <-> exists c, cells !! row = Some c /\ cell_fails t c = true.
Proof.
  unfold failing_rows. rewrite elem_true_indices. setoid_rewrite list_lookup_fmap. split.
  - intros (k & c & -> & Hk & Ht). cbn. destruct (cells !! k) as [x|] eqn:Hx; [|done].
    cbn in Hk. injection Hk as <-. eauto.
  - intros (c & Hc & Hf). exists row, (cbool (cell_fails t c)). rewrite Hc. cbn. by rewrite Hf.
Qed.

Lemma cell_fails_result t c : cell_fails t c = true -> cell_result t c = None.
Proof. destruct c as [[]|]; cbn; try done. by destruct (cell_step t s). Qed.

Lemma first_failure_null k steps : first_failure k steps None = None.
Proof. revert k; induction steps as [|[spec t] steps IH]; intros k; cbn; auto. Qed.

(** A row has a report exactly when its cell fails, and the report is the first
    failing step with the text that entered it. *)
Lemma chain_failures_elem col source st k steps cells x :
  x ∈ chain_failures col source st k steps cells <->
  exists row c j spec t entering,
    cells !! row = Some c /\ first_failure k steps c = Some (j, spec, t, entering) /\
    x = transform_failure col source st j spec (expected_of t) row entering.
Proof.
  revert k cells; induction steps as [|[spec t] steps IH]; intros k cells; cbn.
  - split; [intros H0; by apply not_elem_of_nil in H0|naive_solver].
  - rewrite elem_of_app, list_elem_of_fmap, IH. setoid_rewrite elem_failing_rows.
    setoid_rewrite list_lookup_fmap. split.
    + intros [(row & -> & c & Hc & Hf)|(row & c & j & sp & t' & e & Hc & Hff & ->)].
      * exists row, c, k, spec, t, c. rewrite Hc, Hf. done.
      * destruct (cells !! row) as [c0|] eqn:Hc0; [|done]. cbn in Hc. injection Hc as <-.
        exists row, c0, j, sp, t', e. destruct (cell_fails t c0) eqn:Hf; [|done].
        rewrite (cell_fails_result _ _ Hf), first_failure_null in Hff. done.
    + intros (row & c & j & sp & t' & e & Hc & Hff & ->). destruct (cell_fails t c) eqn:Hf.
      * injection Hff as <- <- <- <-. left. exists row. rewrite Hc. eauto.
      * right. exists row, (cell_result t c), j, sp, t', e. by rewrite Hc.
Qed.

Lemma chain_failures_rows_nodup col source st k steps cells :
  NoDup (map row_index (chain_failures col source st k steps cells)).
Proof.
  revert k cells; induction steps as [|[spec t] steps IH]; intros k cells; cbn; [constructor|].
  rewrite map_app, map_map. cbn. rewrite map_id. apply NoDup_app. split_and!; [apply NoDup_true_indices| |apply IH].
  intros row (c & Hc & Hf)%elem_failing_rows (x & -> & Hx)%list_elem_of_fmap.
  apply chain_failures_elem in Hx as (r & c' & j & sp & t' & e & Hc' & Hff & ->). cbn in Hc.
  rewrite list_lookup_fmap, Hc in Hc'. cbn in Hc'. injection Hc' as <-.
  by rewrite (cell_fails_result _ _ Hf), first_failure_null in Hff.
Qed.

(** A cell either comes out of the chain unfailed or is reported: a failing
    cell leaves the chain as null. *)
Lemma first_failure_null_result k steps c j :
  first_failure k steps c = Some j -> chain (map snd steps) c = None.
Proof.
  revert k c; induction steps as [|[spec t] steps IH]; intros k c; cbn; [done|].
  destruct (cell_fails t c) eqn:Hf; [|by apply IH].
  intros _. unfold chain; cbn. rewrite (cell_fails_result _ _ Hf). clear.
  induction steps as [|[spec' t'] steps IH]; cbn; auto.
Qed.
End Reports.
