(* ===== verification/Numbers.v ===== *)
(** Numbers: the locale discipline of [parse_decimal] and [parse_integer].

    A declared number is a sign, an integer part (plain digits, or strict
    three-digit groups) and an optional fraction after the declared mark; its
    canonical text has the grouping removed and ["."] as the mark.  The engine
    accepts exactly the declared numbers and produces exactly their canonical
    text, provided the separators are not themselves digits or signs
    ([locale_ok]); [digit_separator_rewrites_value] shows what happens
    otherwise. *)

From S2P Require Import Prelude Text Values Transform Polars Normalize NormalizeSpec.

(** ** Numbers of a locale *)

Definition is_sign (c : ascii) : bool := Ascii.eqb c "+" || Ascii.eqb c "-".
Definition numeric_char (c : ascii) : bool := is_digit c || is_sign c.

Definition digits (s : string) : Prop := s <> "" /\ str_all is_digit s = true.

Fixpoint str_concat (l : list string) : string :=
  match l with [] => "" | x :: l' => x +:+ str_concat l' end.

(** A number as its parts: the sign, the digit groups, the fraction digits. *)
Record number := Number { n_sign : string; n_groups : list string; n_fraction : option string }.

Definition grouped (g : string) (gs : list string) : Prop :=
  (digits g /\ String.length g <= 3) /\ Forall (fun h => digits h /\ String.length h = 3) gs.

Record number_ok (thou : option ascii) (n : number) : Prop := {
  nk_sign : n_sign n = "" \/ n_sign n = "+" \/ n_sign n = "-";
  nk_groups : exists g gs, n_groups n = g :: gs /\ digits g /\
    (gs <> [] -> thou <> None /\ grouped g gs);
  nk_fraction : forall f, n_fraction n = Some f -> digits f
}.

(** The text of a number in a locale, and its canonical text. *)
Definition group_text (thou : option ascii) (gs : list string) : string :=
  str_join (match thou with Some c => char_str c | None => "" end) gs.

Definition fraction_text (mark : string) (f : option string) : string :=
  match f with Some f => mark +:+ f | None => "" end.

Definition locale_text (dec : ascii) (thou : option ascii) (n : number) : string :=
  n_sign n +:+ group_text thou (n_groups n) +:+ fraction_text (char_str dec) (n_fraction n).

Definition canonical_text (n : number) : string :=
  n_sign n +:+ str_concat (n_groups n) +:+ fraction_text "." (n_fraction n).

Definition locale_ok (dec : ascii) (thou : option ascii) : Prop :=
  numeric_char dec = false /\ (forall c, thou = Some c -> numeric_char c = false /\ c <> dec).

(** ** The languages of the patterns *)

Lemma lang_star r s : re_lang (RStar r) s <-> exists ws, s = str_concat ws /\ Forall (re_lang r) ws.
Proof.
  split.
  - remember (RStar r) as q eqn:Hq. intros H; revert Hq; induction H; try discriminate.
    + intros _. exists []. by split.
    + intros [= ->]. destruct (IHre_lang2 eq_refl) as (ws & -> & Hws). exists (s1 :: ws). by split; [|constructor].
  - intros (ws & -> & Hws). induction Hws as [|w ws Hw Hws IH]; cbn; [constructor|by constructor].
Qed.

Lemma lang_literal_char c s : re_lang (re_literal (char_str c)) s <-> s = char_str c.
Proof.
  cbn. rewrite lang_seq. setoid_rewrite lang_char. setoid_rewrite lang_eps. split.
  - intros (? & ? & -> & -> & ->). done.
  - intros ->. by exists (String c ""), "".
Qed.

Lemma lang_sign s : re_lang re_sign s <-> s = "" \/ s = "+" \/ s = "-".
Proof.
  unfold re_sign. rewrite lang_opt, lang_chr. setoid_rewrite orb_true_iff. setoid_rewrite Ascii.eqb_eq.
  split; [intros [->|(c & -> & [->| ->])]|intros [->|[->| ->]]]; eauto 6.
Qed.

Lemma lang_digits s : re_lang (re_plus re_digit) s <-> digits s.
Proof. apply lang_plus_chr. Qed.

Lemma lang_digit s : re_lang re_digit s <-> exists c, s = char_str c /\ is_digit c = true.
Proof. apply lang_chr. Qed.

Lemma lang_digits3 s : re_lang re_digits3 s <-> digits s /\ String.length s = 3.
Proof.
  unfold re_digits3, digits. rewrite lang_seq. setoid_rewrite lang_seq. setoid_rewrite lang_digit. split.
  - intros (? & ? & -> & (a & -> & Ha) & ? & ? & -> & (b & -> & Hb) & (c & -> & Hc)).
    unfold char_str. autorewrite with text. cbn. by rewrite Ha, Hb, Hc.
  - destruct s as [|a [|b [|c [|]]]]; cbn; intros [[_ Hd] Hl]; try discriminate Hl.
    rewrite !andb_true_iff in Hd. destruct Hd as (? & ? & ? & _).
    exists (char_str a), (String b (char_str c)). split; [done|]. split; [eauto|].
    exists (char_str b), (char_str c). split; [done|]. split; eauto.
Qed.

Lemma lang_digits1_3 s : re_lang re_digits1_3 s <-> digits s /\ String.length s <= 3.
Proof.
  unfold re_digits1_3, digits. rewrite lang_seq. setoid_rewrite lang_opt. setoid_rewrite lang_seq.
  setoid_rewrite lang_opt. setoid_rewrite lang_digit. split.
  - intros (? & ? & -> & (a & -> & Ha) & [->|(? & ? & -> & (b & -> & Hb) & [->|(c & -> & Hc)])]);
      unfold char_str; autorewrite with text; cbn; rewrite ?Ha, ?Hb, ?Hc; split_and!; (done || lia).
  - destruct s as [|a [|b [|c [|]]]]; cbn; intros [[Hn Hd] Hl]; try done; try lia;
      rewrite !andb_true_iff in Hd.
    + exists (char_str a), "". naive_solver.
    + exists (char_str a), (char_str b). split; [done|]. split; [naive_solver|]. right.
      exists (char_str b), "". naive_solver.
    + exists (char_str a), (String b (char_str c)). split; [done|]. split; [naive_solver|]. right.
      exists (char_str b), (char_str c). naive_solver.
Qed.

Definition body_ok (thou : option ascii) (gs : list string) : Prop :=
  exists g gs', gs = g :: gs' /\ digits g /\ (gs' <> [] -> thou <> None /\ grouped g gs').

Lemma group_text_cons c g gs :
  group_text (Some c) (g :: gs) = g +:+ str_concat (map (String c) gs).
Proof.
  unfold group_text. revert g; induction gs as [|h gs IH]; intros g; cbn [str_join map str_concat].
  - by rewrite str_app_nil_r.
  - f_equal. exact (f_equal (String c) (IH h)).
Qed.

Lemma separated_words c ws :
  Forall (re_lang (RSeq (re_literal (char_str c)) re_digits3)) ws ->
  exists gs, ws = map (String c) gs /\ Forall (fun h => digits h /\ String.length h = 3) gs.
Proof.
  induction 1 as [|w ws Hw Hws (gs & -> & Hgs)]; [by exists []|].
  apply lang_seq in Hw as (s1 & s2 & -> & ->%lang_literal_char & Hs2%lang_digits3).
  exists (s2 :: gs). by split; [|constructor].
Qed.

Lemma lang_separated c gs :
  gs <> [] -> Forall (fun h => digits h /\ String.length h = 3) gs ->
  re_lang (re_plus (RSeq (re_literal (char_str c)) re_digits3)) (str_concat (map (String c) gs)).
Proof.
  intros Hne Hgs. destruct Hgs as [|h gs Hh Hgs]; [done|]. clear Hne.
  assert (forall h, digits h /\ String.length h = 3 ->
            re_lang (RSeq (re_literal (char_str c)) re_digits3) (String c h)) as Hw.
  { intros x Hx. apply lang_seq. exists (char_str c), x. split; [done|].
    by rewrite lang_literal_char, lang_digits3. }
  cbn. apply lang_seq. exists (String c h), (str_concat (map (String c) gs)). split; [done|]. split; [auto|].
  apply lang_star. exists (map (String c) gs). split; [done|]. apply Forall_map. eapply Forall_impl; eauto.
Qed.

Lemma lang_body thou s :
  re_lang (numeric_body_pattern (sep_str thou)) s <-> exists gs, s = group_text thou gs /\ body_ok thou gs.
Proof.
  unfold numeric_body_pattern, body_ok. rewrite present_sep. destruct thou as [c|]; cbn [sep_str fmap option_fmap option_map].
  - rewrite lang_alt, lang_digits. split.
    + intros [Hd|Hg]; [exists [s]; split; [done|]; exists s, []; naive_solver|].
      apply lang_seq in Hg as (g & r & -> & Hg%lang_digits1_3 & Hr).
      apply lang_seq in Hr as (w & r' & -> & Hw & (ws & -> & Hws)%lang_star).
      destruct (separated_words c (w :: ws)) as (gs & Hgs & H3); [by constructor|].
      exists (g :: gs). rewrite group_text_cons, <- Hgs. split; [done|].
      exists g, gs. destruct Hg. split_and!; try done.
    + intros (? & -> & g & gs & -> & Hd & Hg). rewrite group_text_cons.
      destruct (decide (gs = [])) as [->|Hne]; [left; cbn; by rewrite str_app_nil_r|right].
      destruct (Hg Hne) as (_ & Hg1 & Hg3). apply lang_seq.
      exists g, (str_concat (map (String c) gs)). split; [done|].
      split; [by apply lang_digits1_3|by apply lang_separated].
  - rewrite lang_digits. split.
    + intros Hd. exists [s]. split; [done|]. exists s, []. naive_solver.
    + intros (? & -> & g & gs & -> & Hd & Hg). destruct gs; [done|]. destruct Hg; done.
Qed.

Lemma lang_fraction dec s :
  re_lang (fraction_pattern (char_str dec)) s <->
  exists f, s = fraction_text (char_str dec) f /\ (forall x, f = Some x -> digits x).
Proof.
  unfold fraction_pattern. rewrite lang_opt, lang_seq. setoid_rewrite lang_digits. split.
  - intros [->|(? & d & -> & ->%lang_literal_char & Hd)]; [by exists None|]. exists (Some d). naive_solver.
  - intros ([f|] & -> & Hf); [right|by left]. exists (char_str dec), f. rewrite lang_literal_char. naive_solver.
Qed.

(** The pattern of the engine denotes the numbers of the declared locale. *)
Lemma decimal_pattern_lang dec thou x :
  re_match (decimal_pattern (char_str dec) (sep_str thou)) x = true <->
  exists n, number_ok thou n /\ x = locale_text dec thou n.
Proof.
  rewrite re_match_lang. unfold decimal_pattern. rewrite lang_seq. setoid_rewrite lang_seq.
  setoid_rewrite lang_sign. setoid_rewrite lang_body. setoid_rewrite lang_fraction. split.
  - intros (sg & ? & -> & Hs & ? & ? & -> & (gs & -> & Hb) & f & -> & Hf).
    by exists (Number sg gs f).
  - intros ([sg gs f] & [Hs Hb Hf] & ->). cbn in *.
    exists sg, (group_text thou gs +:+ fraction_text (char_str dec) f). split; [done|]. split; [done|].
    do 2 eexists. split; [done|]. split; [by exists gs|]. by exists f.
Qed.

(** ** Canonical text *)

Lemma digits_all s : digits s -> str_all is_digit s = true.
Proof. by intros []. Qed.

(** A character outside the digits is untouched in, and absent from, digits. *)
Lemma replace_digits c r s : numeric_char c = false -> digits s -> replace_char c r s = s.
Proof.
  intros Hc [_ Hd]. apply (replace_char_id c r is_digit); [|done].
  unfold numeric_char in Hc. by apply orb_false_iff in Hc as [? _].
Qed.

Lemma replace_sign c r sg :
  numeric_char c = false -> sg = "" \/ sg = "+" \/ sg = "-" -> replace_char c r sg = sg.
Proof.
  intros Hc Hs. apply (replace_char_id c r is_sign).
  - unfold numeric_char in Hc. by apply orb_false_iff in Hc as [_ ?].
  - by destruct Hs as [->|[->| ->]].
Qed.

Lemma replace_self c r : replace_char c r (char_str c) = r.
Proof. cbn. rewrite Ascii.eqb_refl. cbn. apply str_app_nil_r. Qed.

Lemma replace_other c d r : d <> c -> replace_char c r (char_str d) = char_str d.
Proof. intros Hne. cbn. by destruct (Ascii.eqb_spec d c). Qed.

Lemma body_digits thou gs : body_ok thou gs -> Forall digits gs.
Proof.
  intros (g & gs' & -> & Hg & Hgs). destruct gs' as [|h gs']; [constructor; [done|constructor]|].
  destruct Hgs as (_ & _ & H3); [done|]. constructor; [done|].
  eapply Forall_impl; [exact H3|]. by intros x [? _].
Qed.

Lemma strip_group c gs :
  numeric_char c = false -> Forall digits gs -> replace_char c "" (group_text (Some c) gs) = str_concat gs.
Proof.
  intros Hc Hgs. destruct Hgs as [|g gs Hg Hgs]; [done|].
  rewrite group_text_cons, replace_char_app, (replace_digits c "" g) by done. cbn. f_equal.
  induction Hgs as [|h gs Hh Hgs IH]; [done|]. cbn.
  rewrite str_app_cons. cbn. rewrite Ascii.eqb_refl, str_app_nil_l, replace_char_app, IH. f_equal.
  by apply replace_digits.
Qed.

Lemma replace_concat c r gs :
  numeric_char c = false -> Forall digits gs -> replace_char c r (str_concat gs) = str_concat gs.
Proof.
  intros Hc. induction 1 as [|g gs Hg Hgs IH]; cbn; [done|].
  by rewrite replace_char_app, IH, replace_digits.
Qed.

(** Cleaning the text of a declared number gives its canonical text. *)
Lemma clean_number_canonical dec thou n :
  locale_ok dec thou -> number_ok thou n -> clean_number dec thou (locale_text dec thou n) = canonical_text n.
Proof.
  intros [Hd Ht] [Hs Hb Hf]. pose proof (body_digits thou _ Hb) as Hg.
  assert (strip_sep thou (locale_text dec thou n) =
          n_sign n +:+ str_concat (n_groups n) +:+ fraction_text (char_str dec) (n_fraction n)) as Hst.
  { unfold locale_text. destruct thou as [c|]; cbn [strip_sep].
    - destruct (Ht c eq_refl) as [Hc Hne]. rewrite !replace_char_app, (replace_sign c), strip_group by done.
      do 2 f_equal. destruct (n_fraction n) as [f|]; [|done]. cbn [fraction_text].
      rewrite replace_char_app, replace_other by done. f_equal. apply replace_digits; auto.
    - do 2 f_equal. unfold group_text. clear. induction (n_groups n) as [|g gs IH]; [done|].
      destruct gs as [|h gs]; cbn in *; [by rewrite str_app_nil_r|]. by rewrite IH. }
  unfold clean_number, dot_mark, canonical_text. rewrite Hst.
  destruct (Ascii.eqb_spec dec ".") as [->|Hne]; [done|].
  rewrite !replace_char_app, (replace_sign dec), replace_concat by done. do 2 f_equal.
  destruct (n_fraction n) as [f|]; [|done]. cbn [fraction_text].
  rewrite replace_char_app, replace_self. f_equal. apply replace_digits; auto.
Qed.

Section Locale.
Context `{Kernels}.

Lemma decimal_step_iff dec thou x y :
  locale_ok dec thou ->
  cell_step (OpDecimal dec thou) x = Pass y <->
  exists n, number_ok thou n /\ x = locale_text dec thou n /\ y = canonical_text n.
Proof.
  intros Hl. cbn [cell_step].
  destruct (re_match _ x) eqn:Hm.
  - apply decimal_pattern_lang in Hm as (n & Hn & ->).
    rewrite (clean_number_canonical dec thou n Hl Hn). split.
    + intros [= <-]. eauto.
    + intros (n' & Hn' & Hx & ->). f_equal.
      by rewrite <- (clean_number_canonical dec thou n Hl Hn), Hx, clean_number_canonical.
  - split; [done|]. intros (n & Hn & -> & _).
    assert (false = true); [|done]. rewrite <- Hm. apply decimal_pattern_lang. eauto.
Qed.
End Locale.
