(* ===== verification/Engine.v ===== *)
(** Engine: the rename, cast and derive sub-stages and [apply_mapping]
    (libs/dis-mapping, [engine/rename.py], [engine/cast.py], [engine/derive.py],
    [engine/apply.py], [result.py]).

    The list [failures] that the sub-stages append to is threaded through them
    as part of the state. *)

From S2P Require Import Prelude Text Values Decimals Transform SourceMapping Polars Normalize.

Abbreviation failure_list := (list CellNormalizationFailure).

Section Engine.
Context `{Polars}.

(** ** Rename *)

Definition run_rename (f : frame) (rename : dict string) : res frame :=
  match filter (fun source => mem source (columns f) = false) (dict_keys rename) with
  | missing :: _ => Err (MappingInputError (Some missing))
  | [] => g ← df_select f (dict_keys rename); Ok (df_rename rename g)
  end.

(** ** Cast *)

Definition target_dtype (spec : CastSpec) : res dtype :=
  match cast_type spec with
  | CString => Ok TString
  | CInteger => Ok TInt64
  | CDecimal =>
      match precision spec, scale spec with
      | Some p, Some s => Ok (TDecimal (Some p) s)
      | _, _ => Err (OtherError "AssertionError")
      end
  | CDate => Ok TDate
  | CDatetime => Ok (TDatetime "us" (Some "UTC"))
  | CBoolean => Ok TBoolean
  end.

Definition cast_string_series (s : series) (spec : CastSpec) : res series :=
  match cast_type spec with
  | CString => Ok s
  | CInteger => s_cast TInt64 s
  | CDecimal => ty ← target_dtype spec; s_cast ty s
  | CDate => Ok (str_to_date "%Y-%m-%d" s)
  | CDatetime => Ok (str_to_datetime_utc s)
  | CBoolean =>
      Ok (when_then [(s_eq_str "true" s, VBool true); (s_eq_str "false" s, VBool false)] TBoolean (s_name s))
  end.

Definition opt_text (z : option Z) : string := match z with Some z => pretty z | None => "None" end.

Definition expected_cast (spec : CastSpec) : string :=
  match cast_type spec with
  | CDecimal => "decimal(" +:+ opt_text (precision spec) +:+ "," +:+ opt_text (scale spec) +:+ ")"
  | CDate => "ISO date (%Y-%m-%d)"
  | CDatetime => "ISO-8601 UTC datetime"
  | CBoolean => "'true' or 'false'"
  | CString => "string"
  | CInteger => "integer"
  end.

Definition cast_failure (col : string) (source : option string) (exp : string) (row : nat) (raw : cell)
    : CellNormalizationFailure :=
  mkFailure row col source (cell_text raw) "cast" 0 exp StCast
    ("column " +:+ py_repr col +:+ ": value could not be cast; expected " +:+ exp).

Definition cast_column (inverse : dict string) (col : string) (spec : CastSpec)
    (state : frame * failure_list) : res (frame * failure_list) :=
  let '(f, failures) := state in
  s ← df_get_column f col;
  target ← target_dtype spec;
  if decide (s_dtype s = target) then Ok (f, failures) else
  cast_values ← (if decide (s_dtype s = TString) then cast_string_series s spec else s_cast target s);
  let failed := s_and (s_is_null cast_values) (s_is_not_null s) in
  let failures' :=
    if s_any failed
    then failures ++ map (fun row => cast_failure col (dict_get inverse col) (expected_cast spec) row (item s row))
                         (s_arg_true failed)
    else failures in
  Ok (df_with_columns (s_rename col cast_values) f, failures').

Definition run_cast (f : frame) (rules : dict CastSpec) (inverse : dict string) (failures : failure_list)
    : res (frame * failure_list) :=
  fold_res (fun state '(col, spec) => cast_column inverse col spec state) (f, failures) rules.

(** ** Derive *)

Definition generate (f : frame) (col : string) (spec : TransformSpec) : res series :=
  if String.eqb (op spec) "copy" then
    source ← arg_str (args spec) "source_column";
    s ← df_get_column f source;
    Ok (s_rename col s)
  else if String.eqb (op spec) "constant" then
    v ← arg (args spec) "value";
    Ok (s_rename col (pl_repeat v (height f)))
  else
    source ← arg_str (args spec) "source_column";
    s ← df_get_column f source;
    Ok (s_rename col (dt_date s)).

(** [generator.args.get("source_column")] *)
Definition derive_source (generator : TransformSpec) : option string :=
  dict_get (args generator) "source_column" ≫= as_str.

Definition derive_column (col : string) (specs : list TransformSpec)
    (state : frame * failure_list) : res (frame * failure_list) :=
  let '(f, failures) := state in
  match specs with
  | [] => Err (OtherError "IndexError")
  | generator :: rest =>
      s ← generate f col generator;
      '(s', failures') ←
        match rest with
        | [] => Ok (s, failures)
        | _ :: _ => apply_transform_list s col rest (derive_source generator) StDerive 1 failures
        end;
      Ok (df_with_columns s' f, failures')
  end.

Definition run_derive (f : frame) (rules : dict (list TransformSpec)) (failures : failure_list)
    : res (frame * failure_list) :=
  fold_res (fun state '(col, specs) => derive_column col specs state) (f, failures) rules.

(** ** Apply *)

Record MappingResult := mkMappingResult {
  contribution : frame;
  source_row_indices : list nat;
  failures : list CellNormalizationFailure
}.

Definition failed_rows (fs : failure_list) : list nat := map row_index fs.

(** [[index for index in range(n) if index not in failed_rows]] *)
Definition keep_rows (n : nat) (fs : failure_list) : list nat :=
  filter (fun i => bool_decide (i ∈ failed_rows fs) = false) (seq 0 n).

Definition apply_mapping (mapping : SourceMapping) (chunk : frame) : res MappingResult :=
  let inverse := rename_inverse (rename mapping) in
  f1 ← run_rename chunk (rename mapping);
  '(f2, failures2) ← run_normalize f1 (normalize mapping) inverse [];
  '(f3, failures3) ← run_cast f2 (cast mapping) inverse failures2;
  '(f4, failures4) ← run_derive f3 (derive mapping) failures3;
  let keep := keep_rows (height f4) failures4 in
  selected ← df_select f4 (target_columns mapping);
  Ok (mkMappingResult (df_gather keep selected) keep failures4).

(** [sorted({f.row_index for f in failures})] *)
Definition failed_row_indices (r : MappingResult) : list nat :=
  merge_sort le (remove_dups (failed_rows (failures r))).
End Engine.
