(* ===== verification/EngineSpec.v ===== *)
(** EngineSpec: what [apply_mapping] computes, column by column and cell by
    cell, and the proof that the engine computes it for every validated mapping
    on every chunk of String columns that has the mapping's source columns. *)

From S2P Require Import Prelude Text Values Decimals Transform SourceMapping Polars.
From S2P Require Import Normalize NormalizeSpec Engine.

(** ** Reading declared specs *)

Definition as_char (v : value) : option ascii := match v with VStr (String c "") => Some c | _ => None end.
Definition as_opt_char (v : value) : option (option ascii) :=
  match v with VNone => Some None | VStr (String c "") => Some (Some c) | _ => None end.
Definition as_opt_str (v : value) : option (option string) :=
  match v with VNone => Some None | VStr s => Some (Some s) | _ => None end.
Definition as_bool (v : value) : option bool := match v with VBool b => Some b | _ => None end.
Definition as_list (v : value) : option (list string) := match v with VList l => as_str_list l | _ => None end.

(** The typed declaration of a spec. *)
Definition read_op (spec : TransformSpec) : option typed_op :=
  let a := args spec in
  let get key := dict_get a key in
  if String.eqb (op spec) "parse_date" then OpDate <$> (get "format" ≫= as_str)
  else if String.eqb (op spec) "parse_datetime" then
    fmt ← get "format" ≫= as_str; tz ← get "timezone" ≫= as_opt_str; Some (OpDatetime fmt tz)
  else if String.eqb (op spec) "parse_decimal" then
    d ← get "decimal_separator" ≫= as_char; t ← get "thousands_separator" ≫= as_opt_char; Some (OpDecimal d t)
  else if String.eqb (op spec) "parse_percent" then
    d ← get "decimal_separator" ≫= as_char; t ← get "thousands_separator" ≫= as_opt_char; Some (OpPercent d t)
  else if String.eqb (op spec) "parse_integer" then OpInteger <$> (get "thousands_separator" ≫= as_opt_char)
  else if String.eqb (op spec) "parse_boolean" then
    t ← get "true_values" ≫= as_list; f ← get "false_values" ≫= as_list; Some (OpBoolean t f)
  else if String.eqb (op spec) "map_enum" then
    m ← get "mapping" ≫= (fun v => match v with VDict d => as_str_dict d | _ => None end);
    ci ← as_bool (arg_get a "case_insensitive" (VBool false)); Some (OpEnum m ci)
  else if String.eqb (op spec) "null_tokens" then OpNullTokens <$> (get "tokens" ≫= as_list)
  else if String.eqb (op spec) "normalize_whitespace" then
    t ← as_bool (arg_get a "trim" (VBool true)); c ← as_bool (arg_get a "collapse" (VBool true)); Some (OpWhitespace t c)
  else if String.eqb (op spec) "normalize_case" then
    m ← get "mode" ≫= as_str; Some (OpCase (String.eqb m "upper"))
  else None.

Lemma declares_read spec t : declares spec t -> read_op spec = Some t.
Proof.
  intros H; inversion H; subst; unfold read_op; cbn [op args String.eqb Ascii.eqb Bool.eqb];
    repeat match goal with
           | H : dict_get _ _ = _ |- _ => rewrite H; clear H
           | H : arg_get _ _ _ = _ |- _ => rewrite H; clear H
           end; cbn;
    repeat match goal with
           | H : as_str_list _ = _ |- _ => rewrite H; clear H
           | H : as_str_dict _ = _ |- _ => rewrite H; clear H
           end; cbn; try done.
  all: try (destruct thou; done).
  by destruct up.
Qed.

Definition ops_of (specs : list TransformSpec) : list typed_op := omap read_op specs.
Definition steps_of (specs : list TransformSpec) : list (TransformSpec * typed_op) :=
  omap (fun spec => pair spec <$> read_op spec) specs.

Lemma steps_of_declared specs :
  Forall (fun spec => exists t, declares spec t) specs ->
  map fst (steps_of specs) = specs /\ map snd (steps_of specs) = ops_of specs /\
  Forall (fun '(spec, t) => declares spec t) (steps_of specs).
Proof.
  unfold steps_of, ops_of. induction 1 as [|spec specs (t & Ht) Hs (H1 & H2 & H3)]; cbn; [done|].
  rewrite (declares_read _ _ Ht). cbn. rewrite H1, H2. split_and!; try done. by constructor.
Qed.

(** ** The per-cell meaning of a mapping *)

Section Meaning.
Context `{Kernels}.

Definition cell_cast (spec : CastSpec) (c : cell) : cell :=
  match cast_type spec with
  | CString => c
  | CInteger => c ≫= k_cast TString TInt64
  | CDecimal => c ≫= k_cast TString (TDecimal (precision spec) (default 0%Z (scale spec)))
  | CDate => on_str (fun t => VDate <$> k_strptime_date "%Y-%m-%d" t) c
  | CDatetime => on_str (fun t => VDatetime <$> k_to_datetime t) c
  | CBoolean =>
      on_str (fun t => if String.eqb t "true" then Some (VBool true)
                       else if String.eqb t "false" then Some (VBool false) else None) c
  end.

Definition cast_dtype (spec : CastSpec) : dtype :=
  match cast_type spec with
  | CString => TString
  | CInteger => TInt64
  | CDecimal => TDecimal (precision spec) (default 0%Z (scale spec))
  | CDate => TDate
  | CDatetime => TDatetime "us" (Some "UTC")
  | CBoolean => TBoolean
  end.

Definition cast_fails (spec : CastSpec) (c : cell) : bool := is_none (cell_cast spec c) && negb (is_none c).

(** One column through the normalize and the cast stage. *)
Definition normalized (rules : dict (list TransformSpec)) (s : series) : series :=
  match dict_get rules (s_name s) with
  | Some specs => Series (s_name s) TString (map (chain (ops_of specs)) (s_cells s))
  | None => s
  end.

Definition casted (rules : dict CastSpec) (s : series) : series :=
  match dict_get rules (s_name s) with
  | Some spec => Series (s_name s) (cast_dtype spec) (map (cell_cast spec) (s_cells s))
  | None => s
  end.

Definition column_cells (cols : list series) (name : string) : list cell :=
  match find_series cols name with Some s => s_cells s | None => [] end.

Definition renamed (rename : dict string) (chunk : frame) : list series :=
  map (fun '(source, canonical) => Series canonical TString (column_cells (f_cols chunk) source)) rename.

Definition normalize_failures (rules : dict (list TransformSpec)) (inverse : dict string) (cols : list series)
    : failure_list :=
  flat_map (fun '(col, specs) =>
    chain_failures col (dict_get inverse col) StNormalize 0 (steps_of specs) (column_cells cols col)) rules.

Definition cast_failing_rows (spec : CastSpec) (cells : list cell) : list nat :=
  true_indices 0 (map (fun c => cbool (cast_fails spec c)) cells).

Definition cast_failures (rules : dict CastSpec) (inverse : dict string) (cols : list series) : failure_list :=
  flat_map (fun '(col, spec) =>
    map (fun row => cast_failure col (dict_get inverse col) (expected_cast spec) row
                      (default None (column_cells cols col !! row)))
        (cast_failing_rows spec (column_cells cols col))) rules.

(** The cells a generator yields over the typed columns. *)
Definition generated_cells (cols : list series) (n : nat) (g : TransformSpec) : list cell :=
  if String.eqb (op g) "copy" then column_cells cols (default "" (derive_source g))
  else if String.eqb (op g) "constant" then replicate n (dict_get (args g) "value")
  else map (on_datetime (fun d => Some (VDate (d / 86400000000)))) (column_cells cols (default "" (derive_source g))).

Definition derived_cells (cols : list series) (n : nat) (specs : list TransformSpec) : list cell :=
  match specs with
  | [] => []
  | g :: rest => map (chain (ops_of rest)) (generated_cells cols n g)
  end.

Definition derive_failures (rules : dict (list TransformSpec)) (cols : list series) (n : nat) : failure_list :=
  flat_map (fun '(col, specs) =>
    match specs with
    | [] => []
    | g :: rest => chain_failures col (derive_source g) StDerive 1 (steps_of rest) (generated_cells cols n g)
    end) rules.

(** The typed columns a mapping produces from a chunk, before rows are dropped. *)
Definition source_columns (m : SourceMapping) (chunk : frame) : list series :=
  map (casted (cast m)) (map (normalized (normalize m)) (renamed (rename m) chunk)).

(** The rows that reach the contribution; a mapping without renames has none. *)
Definition rows (m : SourceMapping) (chunk : frame) : nat :=
  match rename m with [] => 0 | _ => height chunk end.

Definition all_failures (m : SourceMapping) (chunk : frame) : failure_list :=
  let inverse := rename_inverse (rename m) in
  let cols1 := renamed (rename m) chunk in
  let cols2 := map (normalized (normalize m)) cols1 in
  normalize_failures (normalize m) inverse cols1 ++ cast_failures (cast m) inverse cols2
  ++ derive_failures (derive m) (source_columns m chunk) (rows m chunk).

(** The cells of every target column, over all rows of the chunk. *)
Definition target_cells (m : SourceMapping) (chunk : frame) : list (string * list cell) :=
  map (fun s => (s_name s, s_cells s)) (source_columns m chunk)
  ++ map (fun '(col, specs) => (col, derived_cells (source_columns m chunk) (rows m chunk) specs)) (derive m).
End Meaning.

(** The first element that breaks a decidable property. *)
Lemma not_Forall_first {A} (P : A -> Prop) `{!forall x, base.Decision (P x)} (l : list A) :
  ~ Forall P l -> exists pre x post, l = pre ++ x :: post /\ Forall P pre /\ ~ P x.
Proof.
  induction l as [|x l IH]; intros Hn; [by destruct Hn|]. destruct (decide (P x)) as [Hx|Hx]; [|by exists [], x, l].
  destruct IH as (pre & y & post & -> & Hpre & Hy); [intros Hl; apply Hn; by constructor|].
  exists (x :: pre), y, post. split_and!; [done|by constructor|done].
Qed.

(** ** Frames *)

Lemma find_set_column cols s n :
  find_series (set_column cols s) n = if String.eqb (s_name s) n then Some s else find_series cols n.
Proof.
  induction cols as [|t cols IH]; cbn; [done|].
  destruct (String.eqb_spec (s_name t) (s_name s)) as [He|Hne]; cbn.
  - rewrite He. by destruct (String.eqb_spec (s_name s) n).
  - rewrite IH. destruct (String.eqb_spec (s_name t) n) as [<-|]; [|done].
    by destruct (String.eqb_spec (s_name s) (s_name t)).
Qed.

(** Replacing an existing column changes that column only. *)
Lemma set_column_existing cols s :
  NoDup (map s_name cols) -> s_name s ∈ map s_name cols ->
  set_column cols s = map (fun t => if String.eqb (s_name t) (s_name s) then s else t) cols.
Proof.
  induction cols as [|t cols IH]; cbn; [intros _ H; by apply not_elem_of_nil in H|].
  rewrite NoDup_cons, elem_of_cons. intros [Hn Hd] Hin.
  destruct (String.eqb_spec (s_name t) (s_name s)) as [He|Hne].
  - f_equal. rewrite <- He. clear -Hn. induction cols as [|u cols IH]; cbn in *; [done|].
    rewrite not_elem_of_cons in Hn. destruct Hn as [Hn Hc].
    destruct (String.eqb_spec (s_name u) (s_name t)); [congruence|]. f_equal. auto.
  - f_equal. apply IH; naive_solver.
Qed.

(** A new column goes last. *)
Lemma set_column_new cols s : s_name s ∉ map s_name cols -> set_column cols s = cols ++ [s].
Proof.
  induction cols as [|t cols IH]; cbn; [done|]. rewrite not_elem_of_cons. intros [Hne Hn].
  destruct (String.eqb_spec (s_name t) (s_name s)); [congruence|]. by rewrite IH.
Qed.

Lemma find_series_map cols (f : series -> series) n :
  (forall s, s_name (f s) = s_name s) -> find_series (map f cols) n = f <$> find_series cols n.
Proof.
  intros Hf. induction cols as [|t cols IH]; cbn; [done|]. rewrite Hf.
  by destruct (String.eqb (s_name t) n).
Qed.

(** A frame of [n] rows: distinct names, every column of length [n]. *)
Definition frame_of (n : nat) (cols : list series) : Prop :=
  NoDup (map s_name cols) /\ Forall (fun s => len s = n) cols.

Lemma frame_of_wf n cols : frame_of n cols -> frame_wf (Frame cols).
Proof.
  intros [Hd Hl]. split; [done|]. unfold height; cbn. destruct Hl as [|s cols Hs Hl]; [constructor|].
  constructor; [done|]. eapply Forall_impl; [exact Hl|]. unfold len in *. cbn. intros x <-. done.
Qed.

Lemma frame_of_height n cols : frame_of n cols -> cols <> [] -> height (Frame cols) = n.
Proof. intros [_ Hl] Hne. unfold height; cbn. by destruct Hl. Qed.

Lemma frame_of_map n cols (f : series -> series) :
  (forall s, s_name (f s) = s_name s) -> (forall s, len (f s) = len s) -> frame_of n cols -> frame_of n (map f cols).
Proof.
  intros Hn Hl [H1 H2]. split.
  - rewrite map_map. by erewrite map_ext; [|exact Hn].
  - apply Forall_map. eapply Forall_impl; [exact H2|]. intros s Hs. by rewrite Hl.
Qed.

Lemma map_name_map cols (f : series -> series) :
  (forall s, s_name (f s) = s_name s) -> map s_name (map f cols) = map s_name cols.
Proof. intros Hn. rewrite map_map. by apply map_ext. Qed.

Lemma normalized_name `{Kernels} rules s : s_name (normalized rules s) = s_name s.
Proof. unfold normalized. by destruct (dict_get _ _). Qed.
Lemma normalized_len `{Kernels} rules s : len (normalized rules s) = len s.
Proof. unfold normalized, len. destruct (dict_get _ _); cbn; by rewrite ?length_map. Qed.
Lemma casted_name `{Kernels} rules s : s_name (casted rules s) = s_name s.
Proof. unfold casted. by destruct (dict_get _ _). Qed.
Lemma casted_len `{Kernels} rules s : len (casted rules s) = len s.
Proof. unfold casted, len. destruct (dict_get _ _); cbn; by rewrite ?length_map. Qed.

Section Stages.
Context `{!Polars, !PolarsLaws}.

(** ** Rename *)

Lemma get_column_all cols :
  frame_wf (Frame cols) -> map_res (df_get_column (Frame cols)) (map s_name cols) = Ok cols.
Proof.
  intros Hwf. apply map_res_ok. destruct Hwf as [Hd Hl].
  assert (forall s, s ∈ cols -> df_get_column (Frame cols) (s_name s) = Ok s) as Hg.
  { intros s Hs. rewrite law_get_column by done. cbn. by rewrite find_series_elem. }
  clear Hd Hl. revert Hg. generalize (Frame cols) as f. intros f Hg.
  induction cols as [|s cols IH]; cbn; constructor; [apply Hg; left|]. apply IH. intros. apply Hg. by right.
Qed.

Definition string_chunk (f : frame) : Prop := frame_wf f /\ Forall str_series (f_cols f).

Lemma select_sources chunk (rn : dict string) :
  string_chunk chunk -> NoDup (dict_keys rn) -> (forall c, c ∈ dict_keys rn -> c ∈ columns chunk) ->
  df_select chunk (dict_keys rn) =
  Ok (Frame (map (fun source => Series source TString (column_cells (f_cols chunk) source)) (dict_keys rn))).
Proof.
  intros [Hwf Hstr] Hd Hin. rewrite law_select by done.
  assert (map_res (df_get_column chunk) (dict_keys rn) =
          Ok (map (fun source => Series source TString (column_cells (f_cols chunk) source)) (dict_keys rn))) as ->; [|done].
  apply map_res_ok. clear Hd. induction (dict_keys rn) as [|c l IH]; cbn; constructor.
  - rewrite law_get_column by done. unfold column_cells.
    destruct (find_series (f_cols chunk) c) as [s|] eqn:Hf.
    + apply find_series_Some in Hf as [Hs Hn]. rewrite Forall_forall in Hstr. destruct (Hstr s Hs) as [Ht _].
      destruct s; cbn in *; by subst.
    + apply find_series_None in Hf. contradict Hf. apply Hin. left.
  - apply IH. intros d Hdl. apply Hin. by right.
Qed.

Lemma rename_selected (rn : dict string) (chunk : frame) :
  dict_wf rn ->
  map (rename_series rn)
    (map (fun source => Series source TString (column_cells (f_cols chunk) source)) (dict_keys rn)) =
  renamed rn chunk.
Proof.
  intros Hwf. unfold renamed. rewrite map_map. unfold dict_keys. rewrite map_map.
  apply map_ext_in. intros [source canonical] Hin. cbn. unfold rename_series; cbn.
  erewrite dict_get_elem; [done..|]. by apply list_elem_of_In.
Qed.

Lemma renamed_frame rn chunk :
  string_chunk chunk -> NoDup (dict_values rn) -> (forall c, c ∈ dict_keys rn -> c ∈ columns chunk) ->
  frame_of (height chunk) (renamed rn chunk) /\ Forall str_series (renamed rn chunk).
Proof.
  intros [[Hd Hl] Hs] Hv Hin. unfold renamed.
  assert (forall source canonical, (source, canonical) ∈ rn ->
     exists s, s ∈ f_cols chunk /\ column_cells (f_cols chunk) source = s_cells s) as Hc.
  { intros source canonical He. unfold column_cells.
    destruct (find_series (f_cols chunk) source) as [s|] eqn:Hf.
    - apply find_series_Some in Hf as [? _]. eauto.
    - apply find_series_None in Hf. contradict Hf. apply Hin, list_elem_of_fmap. by exists (source, canonical). }
  rewrite Forall_forall in Hl, Hs. split; [split|].
  - rewrite map_map. unfold dict_values in Hv. erewrite map_ext; [exact Hv|]. by intros [].
  - apply Forall_map, Forall_forall. intros [source canonical] He. unfold len; cbn.
    destruct (Hc _ _ He) as (s & Hsin & ->). auto.
  - apply Forall_map, Forall_forall. intros [source canonical] He. split; [done|]. cbn.
    destruct (Hc _ _ He) as (s & Hsin & ->). by apply Hs.
Qed.

Lemma run_rename_spec chunk rn :
  string_chunk chunk -> dict_wf rn -> NoDup (dict_values rn) ->
  (forall c, c ∈ dict_keys rn -> c ∈ columns chunk) ->
  run_rename chunk rn = Ok (Frame (renamed rn chunk)).
Proof.
  intros Hch Hwf Hv Hin. unfold run_rename.
  rewrite (proj2 (filter_nil_iff _ _)).
  2:{ intros c Hc. rewrite not_false_iff_true, mem_elem. auto. }
  rewrite select_sources by done. cbn. f_equal.
  rewrite law_df_rename; cbn.
  - by rewrite rename_selected.
  - apply (frame_of_wf (height chunk)). split.
    + rewrite map_map. cbn. rewrite map_id. done.
    + apply Forall_map, Forall_forall. intros c Hc. unfold len, column_cells; cbn.
      destruct Hch as [[Hd Hl] _]. rewrite Forall_forall in Hl.
      destruct (find_series (f_cols chunk) c) as [s|] eqn:Hf.
      * apply find_series_Some in Hf as [? _]. auto.
      * apply find_series_None in Hf. contradict Hf. auto.
  - unfold columns; cbn. rewrite rename_selected by done.
    destruct (renamed_frame rn chunk) as [[? _] _]; done.
Qed.

(** ** One column replaced in a frame *)

Lemma with_existing n cols s :
  frame_of n cols -> s_name s ∈ map s_name cols -> len s = n ->
  df_with_columns s (Frame cols) =
  Frame (map (fun t => if String.eqb (s_name t) (s_name s) then s else t) cols).
Proof.
  intros Hf Hin Hl. rewrite law_with_columns.
  - cbn. f_equal. apply set_column_existing; [by destruct Hf|done].
  - by eapply frame_of_wf.
  - right. rewrite (frame_of_height n); [done..|]. intros ->. by apply not_elem_of_nil in Hin.
Qed.

Lemma get_existing n cols c :
  frame_of n cols -> c ∈ map s_name cols ->
  exists s, df_get_column (Frame cols) c = Ok s /\ s ∈ cols /\ s_name s = c /\ column_cells cols c = s_cells s /\ len s = n.
Proof.
  intros Hf Hin. rewrite law_get_column by (by eapply frame_of_wf). unfold column_cells. cbn.
  destruct (find_series cols c) as [s|] eqn:He.
  - exists s. apply find_series_Some in He as [Hs Hn]. split_and!; try done.
    destruct Hf as [_ Hl]. rewrite Forall_forall in Hl. auto.
  - apply find_series_None in He. done.
Qed.

(** Columns a function leaves alone keep their cells. *)
Lemma column_cells_other cols c (f : series -> series) :
  (forall t, s_name (f t) = s_name t) -> (forall t, s_name t = c -> f t = t) ->
  column_cells (map f cols) c = column_cells cols c.
Proof.
  intros Hn Hf. unfold column_cells. rewrite find_series_map by done.
  destruct (find_series cols c) as [t|] eqn:He; cbn; [|done].
  apply find_series_Some in He as [_ He]. by rewrite Hf.
Qed.

(** Replacing the column [s] by [f s] is a map, when [f] only touches its name. *)
Lemma replace_is_map n cols s (f : series -> series) :
  frame_of n cols -> s ∈ cols -> (forall t, s_name t <> s_name s -> f t = t) ->
  map (fun t => if String.eqb (s_name t) (s_name s) then f s else t) cols = map f cols.
Proof.
  intros [Hd _] Hs Hf. apply map_ext_in. intros t Ht%list_elem_of_In.
  destruct (String.eqb_spec (s_name t) (s_name s)) as [He|Hne]; [|by rewrite Hf].
  assert (Some t = Some s) as [= ->]; [|done].
  rewrite <- (find_series_elem cols t), <- (find_series_elem cols s) by done. by rewrite He.
Qed.

(** ** Normalize *)

Definition zones_known (specs : list TransformSpec) : Prop := Forall zone_known (ops_of specs).

Definition rule_declared (specs : list TransformSpec) : Prop :=
  Forall (fun spec => exists t, declares spec t) specs /\ zones_known specs.

Lemma apply_list_spec s col specs source st k fs :
  rule_declared specs -> str_series s -> s_name s = col ->
  apply_transform_list s col specs source st k fs =
  Ok (Series col TString (map (chain (ops_of specs)) (s_cells s)),
      fs ++ chain_failures col source st k (steps_of specs) (s_cells s)).
Proof.
  intros [Hd Hz] Hs Hn. destruct (steps_of_declared specs Hd) as (H1 & H2 & H3).
  unfold apply_transform_list. rewrite <- H1 at 1. rewrite apply_transforms_refines; [by rewrite H2| |done..].
  unfold zones_known in Hz. rewrite <- H2 in Hz. unfold steps_ok. clear -H3 Hz.
  induction H3 as [|[spec t] steps Hsp H3 IH]; [constructor|].
  inversion Hz; subst. constructor; auto.
Qed.

Global Instance zones_known_dec specs : base.Decision (zones_known specs).
Proof. unfold zones_known. apply _. Defined.

Lemma apply_list_unknown_zone s col specs source st k fs :
  Forall (fun spec => exists t, declares spec t) specs -> ~ zones_known specs -> str_series s -> s_name s = col ->
  apply_transform_list s col specs source st k fs = Err (MappingConfigError (Some col)).
Proof.
  intros Hd Hz Hs Hn. destruct (steps_of_declared specs Hd) as (H1 & H2 & H3).
  unfold apply_transform_list. rewrite <- H1. apply apply_transforms_unknown_zone; try done.
  intros Hall. apply Hz. unfold zones_known. rewrite <- H2. apply Forall_map. eapply Forall_impl; [exact Hall|]. by intros [].
Qed.

Lemma normalized_str rules s : str_series s -> str_series (normalized rules s).
Proof.
  intros Hs. unfold normalized. destruct (dict_get rules (s_name s)) as [specs|]; [|done].
  split; [done|]. cbn. destruct Hs as [_ Hs]. apply Forall_map. eapply Forall_impl; [exact Hs|].
  intros c Hc. unfold chain. cbn. revert c Hc. induction (ops_of specs) as [|t ts IH]; cbn; [done|].
  intros c _. apply IH, cell_result_strcell.
Qed.

Lemma normalized_cons col specs rules s :
  col ∉ dict_keys rules -> normalized rules (normalized [(col, specs)] s) = normalized ((col, specs) :: rules) s.
Proof.
  intros Hn%dict_get_None. unfold normalized. cbn.
  destruct (String.eqb_spec (s_name s) col) as [->|]; cbn; [by rewrite Hn|done].
Qed.

Lemma normalized_other col specs s : s_name s <> col -> normalized [(col, specs)] s = s.
Proof. intros Hne. unfold normalized; cbn. by destruct (String.eqb_spec (s_name s) col). Qed.

Lemma normalize_column_spec n cols inverse col specs fs :
  frame_of n cols -> Forall str_series cols -> col ∈ map s_name cols -> rule_declared specs ->
  normalize_column inverse col specs (Frame cols, fs) =
  Ok (Frame (map (normalized [(col, specs)]) cols),
      fs ++ chain_failures col (dict_get inverse col) StNormalize 0 (steps_of specs) (column_cells cols col)).
Proof.
  intros Hf Hs Hin Hr. unfold normalize_column.
  destruct (get_existing n cols col Hf Hin) as (s & -> & Hsin & Hn & Hc & Hl).
  rewrite Forall_forall in Hs. pose proof (Hs s Hsin) as Hss. cbn.
  rewrite bool_decide_false by (destruct Hss; naive_solver). cbn.
  rewrite apply_list_spec by done. cbn. rewrite Hc.
  assert (Series col TString (map (chain (ops_of specs)) (s_cells s)) = normalized [(col, specs)] s) as He.
  { unfold normalized. cbn. rewrite Hn, String.eqb_refl. done. }
  rewrite He. do 2 f_equal. rewrite (with_existing n); try done.
  - rewrite normalized_name. f_equal. apply (replace_is_map n); try done.
    rewrite Hn. intros t. apply normalized_other.
  - by rewrite normalized_name, Hn.
  - by rewrite normalized_len.
Qed.

Lemma run_normalize_spec n cols rules inverse fs :
  frame_of n cols -> Forall str_series cols -> dict_wf rules ->
  (forall c, c ∈ dict_keys rules -> c ∈ map s_name cols) -> Forall (fun '(_, specs) => rule_declared specs) rules ->
  run_normalize (Frame cols) rules inverse fs =
  Ok (Frame (map (normalized rules) cols), fs ++ normalize_failures rules inverse cols).
Proof.
  unfold run_normalize. revert cols fs.
  induction rules as [|[col specs] rules IH]; intros cols fs Hf Hs Hwf Hin Hr.
  { cbn. rewrite app_nil_r. do 3 f_equal. symmetry. erewrite map_ext; [apply map_id|]. done. }
  apply NoDup_cons in Hwf as [Hnin Hwf]. apply Forall_cons in Hr as [Hr1 Hr]. cbn [fold_res].
  rewrite (normalize_column_spec n) by (try done; apply Hin; left). cbn [mbind result_bind].
  rewrite IH; try done.
  - rewrite map_map. f_equal. f_equal.
    + f_equal. apply map_ext. intros s. by apply normalized_cons.
    + rewrite <- app_assoc. f_equal. unfold normalize_failures; cbn [flat_map]. apply (f_equal (app _)).
      apply flat_map_ext_elem. intros [c sp] Hc. f_equal.
      apply column_cells_other; [apply normalized_name|]. intros t Ht. apply normalized_other.
      intros He. apply Hnin. rewrite <- He, Ht. apply list_elem_of_fmap. by exists (c, sp).
  - apply frame_of_map; [apply normalized_name|apply normalized_len|done].
  - apply Forall_map. eapply Forall_impl; [exact Hs|]. intros s. apply normalized_str.
  - intros c Hc. rewrite map_name_map by apply normalized_name. apply Hin. by right.
Qed.

(** The first rule with an unknown zone raises. *)
Lemma run_normalize_unknown_zone n cols rules inverse fs :
  frame_of n cols -> Forall str_series cols -> dict_wf rules ->
  (forall c, c ∈ dict_keys rules -> c ∈ map s_name cols) ->
  Forall (fun '(_, specs) => Forall (fun spec => exists t, declares spec t) specs) rules ->
  ~ Forall (fun r => zones_known r.2) rules ->
  exists c, run_normalize (Frame cols) rules inverse fs = Err (MappingConfigError (Some c)).
Proof.
  intros Hf Hs Hwf Hin Hd Hz. destruct (not_Forall_first _ _ Hz) as (pre & [col specs] & post & -> & Hpre & Hbad). exists col.
  assert (dict_wf pre) as Hwp. { unfold dict_wf, dict_keys in *. rewrite map_app in Hwf. by apply NoDup_app in Hwf as [? _]. }
  apply Forall_app in Hd as [Hdp [Hd1 _]%Forall_cons].
  unfold run_normalize. rewrite fold_res_app. fold (run_normalize (Frame cols) pre inverse fs).
  rewrite (run_normalize_spec n); try done; cbn [mbind result_bind fold_res].
  - unfold normalize_column.
    assert (frame_of n (map (normalized pre) cols)) as Hf' by (apply frame_of_map; [apply normalized_name|apply normalized_len|done]).
    destruct (get_existing n (map (normalized pre) cols) col Hf') as (s & -> & Hsin & Hn & _).
    { rewrite map_name_map by apply normalized_name. apply Hin. unfold dict_keys. rewrite map_app. apply elem_of_app. right. left. }
    assert (str_series s) as Hss. { apply list_elem_of_fmap in Hsin as (s0 & -> & Hs0). apply normalized_str. rewrite Forall_forall in Hs. auto. }
    cbn [mbind result_bind]. rewrite bool_decide_false by (destruct Hss; naive_solver). cbn [raise_if mbind result_bind].
    by rewrite apply_list_unknown_zone.
  - intros c Hc. apply Hin. unfold dict_keys in *. rewrite map_app. apply elem_of_app. by left.
  - rewrite Forall_forall in *. intros [c sp] Hc. split; [by apply (Hdp (c, sp))|by apply (Hpre (c, sp))].
Qed.

(** ** Cast *)

(** The decimal type of a cast is one polars has. *)
Definition castable (spec : CastSpec) : Prop := cast_type spec = CDecimal -> k_castable TString (cast_dtype spec) = true.

Global Instance castable_dec spec : base.Decision (castable spec).
Proof. unfold castable. destruct (cast_type spec); try (left; done). destruct (k_castable TString (cast_dtype spec)); [by left|right; naive_solver]. Defined.

Lemma fits_castable spec : cast_ok spec -> (forall p, precision spec = Some p -> (p <= 38)%Z) -> castable spec.
Proof.
  unfold cast_ok, castable, cast_dtype. intros Hok Hp He. rewrite He in *. destruct Hok as (p & q & Hpp & -> & ? & ?).
  specialize (Hp p Hpp). rewrite Hpp. apply law_castable_decimal. split; cbn; lia.
Qed.

Lemma target_dtype_ok spec : cast_ok spec -> target_dtype spec = Ok (cast_dtype spec).
Proof.
  unfold cast_ok, target_dtype, cast_dtype. destruct (cast_type spec); try done.
  by intros (p & q & -> & -> & _).
Qed.

(** A String column to its target type, cell by cell. *)
Lemma cast_string_spec s spec :
  cast_ok spec -> castable spec -> str_series s ->
  cast_string_series s spec = Ok (Series (s_name s) (cast_dtype spec) (map (cell_cast spec) (s_cells s))).
Proof.
  intros Hok Hca Hs. unfold castable in Hca. unfold cast_string_series, cast_dtype, cell_cast in *. pose proof (target_dtype_ok spec Hok) as Ht.
  unfold cast_dtype in Ht. pose proof Hs as [Hty Hc]. destruct (cast_type spec) eqn:He.
  - rewrite map_id. destruct s; cbn in *; by subst.
  - rewrite law_cast, Hty, law_castable_int. done.
  - rewrite Ht. cbn. by rewrite law_cast, Hty, Hca.
  - by rewrite law_to_date.
  - by rewrite law_to_datetime.
  - rewrite (law_when_then _ _ _ (len s)); [|done|].
    2:{ repeat constructor; rewrite law_eq_str by done; unfold len; cbn; by rewrite ?length_map. }
    do 2 f_equal. unfold len. apply map_seq_lookup. intros i c Hi. rewrite !law_eq_str by done.
    unfold when_cell. cbn. rewrite !list_lookup_fmap, Hi. cbn.
    destruct c as [[]|]; cbn; try done.
    destruct (String.eqb s0 "true"); cbn; [done|]. by destruct (String.eqb s0 "false").
Qed.

Lemma casted_cons col spec rules s :
  col ∉ dict_keys rules -> casted rules (casted [(col, spec)] s) = casted ((col, spec) :: rules) s.
Proof.
  intros Hn%dict_get_None. unfold casted. cbn.
  destruct (String.eqb_spec (s_name s) col) as [->|]; cbn; [by rewrite Hn|done].
Qed.

Lemma casted_other col spec s : s_name s <> col -> casted [(col, spec)] s = s.
Proof. intros Hne. unfold casted; cbn. by destruct (String.eqb_spec (s_name s) col). Qed.

Lemma cast_fails_string spec c : cast_type spec = CString -> cast_fails spec c = false.
Proof. unfold cast_fails, cell_cast. intros ->. by destruct c. Qed.

Lemma true_indices_none {A} (p : A -> bool) i (l : list A) :
  (forall x, p x = false) -> true_indices i (map (fun x => cbool (p x)) l) = [].
Proof. intros Hp. revert i. induction l as [|x l IH]; intros i; cbn; [done|]. by rewrite Hp. Qed.

Lemma cast_column_spec n cols inverse col spec fs :
  frame_of n cols -> cast_ok spec -> castable spec ->
  (exists s, s ∈ cols /\ s_name s = col /\ str_series s) ->
  cast_column inverse col spec (Frame cols, fs) =
  Ok (Frame (map (casted [(col, spec)]) cols),
      fs ++ map (fun row => cast_failure col (dict_get inverse col) (expected_cast spec) row
                              (default None (column_cells cols col !! row)))
                (cast_failing_rows spec (column_cells cols col))).
Proof.
  intros Hf Hok Hca (s0 & Hs0 & Hn0 & Hss0). unfold cast_column.
  destruct (get_existing n cols col Hf) as (s & -> & Hsin & Hn & Hc & Hl).
  { apply list_elem_of_fmap. by exists s0. }
  assert (s = s0) as <-.
  { destruct Hf as [Hd _]. assert (Some s = Some s0) as [= ->]; [|done].
    rewrite <- (find_series_elem cols s), <- (find_series_elem cols s0) by done. by rewrite Hn, Hn0. }
  pose proof Hss0 as [Hty _]. cbn. rewrite (target_dtype_ok spec Hok). cbn. rewrite Hc.
  assert (casted [(col, spec)] s = Series (s_name s) (cast_dtype spec) (map (cell_cast spec) (s_cells s))) as He.
  { unfold casted; cbn. by rewrite Hn, String.eqb_refl. }
  assert (map (casted [(col, spec)]) cols =
          map (fun t => if String.eqb (s_name t) (s_name s) then casted [(col, spec)] s else t) cols) as Hmap.
  { symmetry. apply (replace_is_map n); try done. rewrite Hn. intros t. apply casted_other. }
  destruct (decide (s_dtype s = cast_dtype spec)) as [Heq|Hne].
  - assert (cast_type spec = CString) as Hcs.
    { rewrite Hty in Heq. unfold cast_dtype in Heq. by destruct (cast_type spec). }
    unfold cast_failing_rows. rewrite true_indices_none by (intros; by apply cast_fails_string).
    cbn. rewrite app_nil_r. do 3 f_equal. rewrite Hmap. symmetry. erewrite map_ext_in; [apply map_id|].
    intros t Ht%list_elem_of_In. cbn. destruct (String.eqb_spec (s_name t) (s_name s)) as [Hts|]; [|done].
    rewrite He. unfold cell_cast. rewrite Hcs, map_id, <- Heq.
    destruct Hf as [Hd _]. assert (Some t = Some s) as [= ->]; [|by destruct s].
    rewrite <- (find_series_elem cols t), <- (find_series_elem cols s) by done. by rewrite Hts.
  - rewrite decide_True by done. rewrite cast_string_spec by done. cbn. rewrite newly_null_map.
    rewrite law_rename, law_any, law_arg_true by done. cbn.
    rewrite <- Hn. rewrite <- He, Hn. rewrite (with_existing n); try done.
    2:{ rewrite casted_name, Hn. apply list_elem_of_fmap. by exists s. }
    2:{ by rewrite casted_len. }
    rewrite casted_name, <- Hmap. do 2 f_equal. unfold cast_failing_rows, item.
    destruct (existsb is_true _) eqn:Hex; [done|].
    rewrite existsb_true_indices by done. cbn. by rewrite app_nil_r.
Qed.

Lemma run_cast_spec n cols rules inverse fs :
  frame_of n cols -> dict_wf rules -> Forall (fun '(_, spec) => cast_ok spec) rules -> Forall (fun r => castable r.2) rules ->
  (forall c, c ∈ dict_keys rules -> exists s, s ∈ cols /\ s_name s = c /\ str_series s) ->
  run_cast (Frame cols) rules inverse fs =
  Ok (Frame (map (casted rules) cols), fs ++ cast_failures rules inverse cols).
Proof.
  unfold run_cast. revert cols fs.
  induction rules as [|[col spec] rules IH]; intros cols fs Hf Hwf Hr Hca Hin.
  { cbn. rewrite app_nil_r. do 3 f_equal. symmetry. erewrite map_ext; [apply map_id|]. done. }
  apply NoDup_cons in Hwf as [Hnin Hwf]. apply Forall_cons in Hr as [Hr1 Hr]. apply Forall_cons in Hca as [Hca1 Hca]. cbn [fold_res].
  rewrite (cast_column_spec n) by (try done; apply Hin; left). cbn [mbind result_bind].
  rewrite IH; try done.
  - rewrite map_map. f_equal. f_equal.
    + f_equal. apply map_ext. intros s. by apply casted_cons.
    + rewrite <- app_assoc. f_equal. unfold cast_failures; cbn [flat_map]. apply (f_equal (app _)).
      apply flat_map_ext_elem. intros [c sp] Hc.
      assert (column_cells (map (casted [(col, spec)]) cols) c = column_cells cols c) as ->; [|done].
      apply column_cells_other; [apply casted_name|]. intros t Ht. apply casted_other.
      intros He. apply Hnin. rewrite <- He, Ht. apply list_elem_of_fmap. by exists (c, sp).
  - apply frame_of_map; [apply casted_name|apply casted_len|done].
  - intros c Hc. destruct (Hin c) as (s & Hs & Hn & Hss); [by right|]. exists s. split_and!; try done.
    apply list_elem_of_fmap. exists s. split; [|done]. symmetry. apply casted_other.
    intros He. apply Hnin. by rewrite <- He, Hn.
Qed.

(** The first decimal type polars refuses raises. *)
Lemma run_cast_refused n cols rules inverse fs :
  frame_of n cols -> dict_wf rules -> Forall (fun '(_, spec) => cast_ok spec) rules -> ~ Forall (fun r => castable r.2) rules ->
  (forall c, c ∈ dict_keys rules -> exists s, s ∈ cols /\ s_name s = c /\ str_series s) ->
  exists e, run_cast (Frame cols) rules inverse fs = Err e.
Proof.
  intros Hf Hwf Hok Hn Hin. destruct (not_Forall_first _ _ Hn) as (pre & [col spec] & post & -> & Hpre & Hbad).
  assert (dict_wf pre /\ col ∉ dict_keys pre) as [Hwp Hcol].
  { unfold dict_wf, dict_keys in *. rewrite map_app in Hwf. apply NoDup_app in Hwf as (? & Hdis & _). split; [done|].
    intros Hc. apply (Hdis col Hc). left. }
  apply Forall_app in Hok as [Hokp [Hok1 _]%Forall_cons].
  unfold run_cast. rewrite fold_res_app. fold (run_cast (Frame cols) pre inverse fs).
  rewrite (run_cast_spec n); try done; cbn [mbind result_bind fold_res].
  2:{ intros c Hc. apply Hin. unfold dict_keys in *. rewrite map_app. apply elem_of_app. by left. }
  destruct (Hin col) as (s & Hs & Hsn & Hss). { unfold dict_keys. rewrite map_app. apply elem_of_app. right. left. }
  assert (casted pre s = s) as Hcs. { unfold casted. rewrite Hsn. apply dict_get_None in Hcol. by rewrite Hcol. }
  assert (frame_of n (map (casted pre) cols)) as Hf' by (apply frame_of_map; [apply casted_name|apply casted_len|done]).
  assert (df_get_column (Frame (map (casted pre) cols)) col = Ok s) as Hget.
  { rewrite law_get_column by (by eapply frame_of_wf). cbn. rewrite <- Hsn, (find_series_elem (map (casted pre) cols) s); [done|apply Hf'|].
    apply list_elem_of_fmap. by exists s. }
  unfold cast_column. rewrite Hget. cbn [mbind result_bind]. rewrite (target_dtype_ok spec Hok1). cbn [mbind result_bind].
  assert (cast_type spec = CDecimal /\ k_castable TString (cast_dtype spec) = false) as [Hty Hk].
  { unfold castable in Hbad. cbn in Hbad. destruct (cast_type spec); try (by destruct Hbad). split; [done|]. apply not_true_iff_false. naive_solver. }
  destruct Hss as [Hst _]. rewrite decide_False by (rewrite Hst; unfold cast_dtype; by rewrite Hty).
  rewrite decide_True by done. unfold cast_string_series. rewrite Hty, (target_dtype_ok spec Hok1). cbn [mbind result_bind].
  rewrite law_cast, Hst, Hk. by eexists.
Qed.

(** ** Derive *)

(** The typed columns the derive stage reads. *)
Definition typed_columns (m : SourceMapping) (cols : list series) : Prop :=
  map s_name cols = dict_values (rename m) /\
  Forall (fun s => match dict_get (cast m) (s_name s) with
                   | Some spec => s_dtype s = cast_dtype spec /\ (cast_type spec = CString -> str_series s)
                   | None => str_series s
                   end) cols.

Lemma find_series_app cols1 cols2 c :
  c ∈ map s_name cols1 -> find_series (cols1 ++ cols2) c = find_series cols1 c.
Proof.
  induction cols1 as [|t cols1 IH]; cbn; [intros H1; by apply not_elem_of_nil in H1|].
  rewrite elem_of_cons. destruct (String.eqb_spec (s_name t) c); [done|]. naive_solver.
Qed.

Lemma column_cells_app cols1 cols2 c :
  c ∈ map s_name cols1 -> column_cells (cols1 ++ cols2) c = column_cells cols1 c.
Proof. intros Hc. unfold column_cells. by rewrite find_series_app. Qed.

(** A frame with its height, also when it has no columns. *)
Definition sized (n : nat) (cols : list series) : Prop := frame_of n cols /\ height (Frame cols) = n.

Lemma sized_app n cols s : sized n cols -> s_name s ∉ map s_name cols -> len s = n -> sized n (cols ++ [s]).
Proof.
  intros [[Hd Hl] Hh] Hn Hs. split; [split|].
  - rewrite map_app. apply NoDup_app. split_and!; [done| |apply NoDup_singleton].
    intros c Hc ->%list_elem_of_singleton. done.
  - apply Forall_app. split; [done|]. by constructor.
  - unfold height in *; cbn in *. by destruct cols.
Qed.

Lemma copy_source m cols extra n source :
  typed_columns m cols -> frame_of n (cols ++ extra) -> source ∈ dict_values (rename m) ->
  exists s, df_get_column (Frame (cols ++ extra)) source = Ok s /\ s ∈ cols /\ s_name s = source /\
    s_cells s = column_cells cols source /\ len s = n.
Proof.
  intros [Hn _] Hf Hs. rewrite <- Hn in Hs.
  destruct (get_existing n (cols ++ extra) source Hf) as (s & Hg & _ & Hsn & Hc & Hl).
  { rewrite map_app, elem_of_app. by left. }
  exists s. rewrite column_cells_app in Hc by done.
  rewrite law_get_column in Hg by (by eapply frame_of_wf). cbn in Hg. rewrite find_series_app in Hg by done.
  destruct (find_series cols source) as [t|] eqn:Ht; [|done]. injection Hg as ->.
  split; [|split_and!; try done; by eapply find_series_Some].
  rewrite law_get_column by (by eapply frame_of_wf). cbn. by rewrite find_series_app, Ht.
Qed.

Lemma generate_spec m cols extra n col g b :
  typed_columns m cols -> sized n (cols ++ extra) -> gen_declares m g b ->
  exists ty, generate (Frame (cols ++ extra)) col g = Ok (Series col ty (generated_cells cols n g)) /\
    length (generated_cells cols n g) = n /\
    (b = true -> str_series (Series col ty (generated_cells cols n g))).
Proof.
  intros Hty [Hf Hh] Hg. inversion Hg as [a source Hk Ha Hne Hin|a v Hk Ha Hs|a source Hk Ha Hne Hin Hc]; subst;
    unfold generate, generated_cells, derive_source; cbn [op args String.eqb Ascii.eqb Bool.eqb]; cbn -[Z.div].
  - rewrite (arg_str_ok _ _ _ Ha). cbn. rewrite Ha. cbn.
    destruct (copy_source m cols extra _ source Hty Hf Hin) as (s & -> & Hsin & Hsn & Hsc & Hsl). cbn.
    exists (s_dtype s). rewrite law_rename, <- Hsc. split_and!; try done.
    destruct Hty as [_ Hty]. rewrite Forall_forall in Hty. specialize (Hty s Hsin). rewrite Hsn in Hty.
    destruct (dict_get (cast m) source) as [spec|].
    + rewrite bool_decide_eq_true. intros Hcs. destruct Hty as [_ Hty]. destruct (Hty Hcs). by split.
    + intros _. destruct Hty. by split.
  - unfold arg. rewrite Ha. cbn. exists (s_dtype (pl_repeat v (height (Frame (cols ++ extra))))).
    rewrite law_rename, law_repeat, length_replicate. split_and!; try done.
    intros Hv. destruct v as [| | | |t| | | | |]; try done. split; [apply law_repeat_str|]. cbn.
    by apply Forall_replicate.
  - rewrite (arg_str_ok _ _ _ Ha). cbn -[Z.div]. rewrite Ha. cbn -[Z.div].
    destruct (copy_source m cols extra _ source Hty Hf Hin) as (s & -> & Hsin & Hsn & Hsc & Hsl). cbn -[Z.div].
    destruct Hty as [_ Hty]. rewrite Forall_forall in Hty. specialize (Hty s Hsin). rewrite Hsn in Hty.
    unfold source_cast_is in Hc. destruct (dict_get (cast m) source) as [spec|]; [|done].
    apply bool_decide_eq_true in Hc. destruct Hty as [Hty _].
    exists TDate. rewrite law_rename. unfold cast_dtype in Hty. rewrite Hc in Hty.
    erewrite law_dt_date by done. unfold elementwise; cbn -[Z.div]. rewrite <- Hsc, length_map. done.
Qed.

Lemma derive_column_spec m cols extra n col specs fs :
  typed_columns m cols -> sized n (cols ++ extra) -> derive_ok m specs ->
  zones_known (tail specs) -> col ∉ map s_name (cols ++ extra) ->
  exists ty,
    derive_column col specs (Frame (cols ++ extra), fs) =
    Ok (Frame ((cols ++ extra) ++ [Series col ty (derived_cells cols n specs)]),
        fs ++ derive_failures [(col, specs)] cols n) /\
    length (derived_cells cols n specs) = n.
Proof.
  intros Hty Hsz (g & rest & b & -> & Hg & Hrest & Hb) Hz Hnin. unfold derive_column.
  destruct (generate_spec m cols extra n col g b Hty Hsz Hg) as (ty & -> & Hlen & Hstr).
  assert (forall cells ty', length cells = n ->
    df_with_columns (Series col ty' cells) (Frame (cols ++ extra)) =
    Frame ((cols ++ extra) ++ [Series col ty' cells])) as Hwith.
  { intros cells ty' Hc. destruct Hsz as [Hf Hh]. rewrite law_with_columns.
    - cbn. f_equal. by apply set_column_new.
    - by eapply frame_of_wf.
    - right. unfold len; cbn. congruence. }
  cbn -[generated_cells steps_of chain ops_of chain_failures]. destruct rest as [|r rest].
  - exists ty. cbn -[generated_cells steps_of chain ops_of chain_failures]. rewrite app_nil_r.
    assert (map (chain (ops_of [])) (generated_cells cols n g) = generated_cells cols n g) as ->.
    { erewrite map_ext; [apply map_id|]. done. }
    split; [|done]. by rewrite Hwith.
  - exists TString. rewrite apply_list_spec; [|by split|by apply Hstr, Hb|done].
    cbn -[generated_cells steps_of chain ops_of chain_failures]. rewrite app_nil_r, length_map. split; [|done].
    by rewrite Hwith by (by rewrite length_map).
Qed.

Lemma run_derive_spec m cols n rules : forall extra fs,
  typed_columns m cols -> sized n (cols ++ extra) -> dict_wf rules ->
  Forall (fun '(_, specs) => derive_ok m specs /\ zones_known (tail specs)) rules ->
  (forall c, c ∈ dict_keys rules -> c ∉ map s_name (cols ++ extra)) ->
  exists new,
    run_derive (Frame (cols ++ extra)) rules fs =
    Ok (Frame ((cols ++ extra) ++ new), fs ++ derive_failures rules cols n) /\
    map (fun s => (s_name s, s_cells s)) new = map (fun '(col, specs) => (col, derived_cells cols n specs)) rules /\
    sized n ((cols ++ extra) ++ new).
Proof.
  unfold run_derive. induction rules as [|[col specs] rules IH]; intros extra fs Hty Hsz Hwf Hr Hnin.
  { exists []. cbn. by rewrite !app_nil_r. }
  apply NoDup_cons in Hwf as [Hn Hwf]. apply Forall_cons in Hr as [[Hr1 Hz1] Hr]. cbn [fold_res].
  assert (col ∉ map s_name (cols ++ extra)) as Hcol by (apply Hnin; left).
  destruct (derive_column_spec m cols extra n col specs fs Hty Hsz Hr1 Hz1 Hcol) as (ty & -> & Hlen).
  cbn [mbind result_bind]. set (s := Series col ty (derived_cells cols n specs)).
  assert (sized n (cols ++ (extra ++ [s]))) as Hsz' by (rewrite app_assoc; by apply sized_app).
  destruct (IH (extra ++ [s]) (fs ++ derive_failures [(col, specs)] cols n) Hty Hsz' Hwf Hr)
    as (new & Hrun & Hnew & Hsn).
  { intros c Hc. rewrite app_assoc, map_app, elem_of_app. cbn. intros [Hin|Hin%list_elem_of_singleton].
    - eapply Hnin; [|exact Hin]. by right.
    - by subst. }
  exists (s :: new). rewrite !app_assoc in Hrun, Hsn. cbn [map].
  replace ((cols ++ extra) ++ s :: new) with (((cols ++ extra) ++ [s]) ++ new) by (by rewrite <- app_assoc).
  rewrite Hrun, Hnew. split_and!; try done.
  do 2 f_equal. rewrite <- app_assoc. f_equal. unfold derive_failures; cbn [flat_map]. by rewrite app_nil_r.
Qed.

(** The first derivation with an unknown zone raises. *)
Lemma run_derive_unknown_zone m cols n rules fs :
  typed_columns m cols -> sized n cols -> dict_wf rules -> Forall (fun '(_, specs) => derive_ok m specs) rules ->
  (forall c, c ∈ dict_keys rules -> c ∉ map s_name cols) ->
  ~ Forall (fun r => zones_known (tail r.2)) rules ->
  exists c, run_derive (Frame cols) rules fs = Err (MappingConfigError (Some c)).
Proof.
  intros Hty Hsz Hwf Hd Hnin Hz. destruct (not_Forall_first _ _ Hz) as (pre & [col specs] & post & -> & Hpre & Hbad). exists col.
  assert (dict_wf pre) as Hwp. { unfold dict_wf, dict_keys in *. rewrite map_app in Hwf. by apply NoDup_app in Hwf as [? _]. }
  apply Forall_app in Hd as [Hdp [Hd1 _]%Forall_cons].
  unfold run_derive. rewrite fold_res_app. fold (run_derive (Frame cols) pre fs).
  destruct (run_derive_spec m cols n pre [] fs) as (new & Hrun & _ & Hsn); rewrite ?app_nil_r; try done.
  { rewrite Forall_forall in *. intros [c sp] Hc. split; [by apply (Hdp (c, sp))|by apply (Hpre (c, sp))]. }
  { intros c Hc. apply Hnin. unfold dict_keys in *. rewrite map_app. apply elem_of_app. by left. }
  rewrite app_nil_r in Hrun, Hsn. rewrite Hrun. cbn [mbind result_bind fold_res]. unfold derive_column.
  destruct Hd1 as (g & rest & b & -> & Hg & Hrest & Hb).
  destruct (generate_spec m cols new n col g b Hty Hsn Hg) as (ty & -> & _ & Hstr). cbn [mbind result_bind].
  destruct rest as [|r rest]; [by destruct Hbad; constructor|].
  rewrite apply_list_unknown_zone; [done|done|exact Hbad|by apply Hstr, Hb|done].
Qed.
End Stages.
