(* ===== verification/EngineProps.v ===== *)
(** EngineProps: the correctness of [apply_mapping] — it computes the per-cell
    meaning of the mapping, loses no row and no cell silently, and reports each
    failing cell once. *)

From S2P Require Import Prelude Text Values Decimals Transform SourceMapping Polars.
From S2P Require Import Normalize NormalizeSpec Numbers Engine EngineSpec.

Section Apply.
Context `{!Polars, !PolarsLaws}.

(** What the engine is called with: rules read from Python dictionaries, and a chunk
    of String columns that has the sources. *)
Record runnable (m : SourceMapping) (chunk : frame) : Prop := {
  run_rename_keys : dict_wf (rename m);
  run_normalize_keys : dict_wf (normalize m);
  run_cast_keys : dict_wf (cast m);
  run_derive_keys : dict_wf (derive m);
  run_chunk : string_chunk chunk;
  run_sources : forall c, c ∈ dict_keys (rename m) -> c ∈ columns chunk
}.

(** What construction does not check: that polars knows the declared time zones, and that it has the declared decimal
    types. *)
Definition zones_accepted (m : SourceMapping) : Prop :=
  Forall (fun r => zones_known r.2) (normalize m) /\ Forall (fun r => zones_known (tail r.2)) (derive m).

Definition types_accepted (m : SourceMapping) : Prop := Forall (fun r => castable r.2) (cast m).

(** Of at most 38 digits. *)
Definition decimals_supported (m : SourceMapping) : Prop :=
  forall c spec p, (c, spec) ∈ cast m -> precision spec = Some p -> (p <= 38)%Z.

Lemma supported_accepted m : mapping_wf m -> decimals_supported m -> types_accepted m.
Proof.
  intros Hwf Hd. apply Forall_forall. intros [c spec] Hin. pose proof (wf_cast _ Hwf) as Hok. rewrite Forall_forall in Hok.
  apply fits_castable; [exact (Hok _ Hin)|]. intros p. by eapply Hd.
Qed.

Lemma renamed_names rn chunk : map s_name (renamed rn chunk) = dict_values rn.
Proof. unfold renamed, dict_values. rewrite map_map. apply map_ext. by intros []. Qed.

Lemma source_columns_names m chunk : map s_name (source_columns m chunk) = dict_values (rename m).
Proof.
  unfold source_columns. rewrite !map_name_map by (apply casted_name || apply normalized_name).
  apply renamed_names.
Qed.

Lemma source_columns_typed m chunk :
  Forall str_series (renamed (rename m) chunk) -> typed_columns m (source_columns m chunk).
Proof.
  intros Hs. split; [apply source_columns_names|]. unfold source_columns.
  apply Forall_map, Forall_map. eapply Forall_impl; [exact Hs|]. intros s Hss. cbn.
  rewrite casted_name. unfold casted. pose proof (normalized_str (normalize m) s Hss) as Hn.
  destruct (dict_get (cast m) (s_name (normalized (normalize m) s))) as [spec|] eqn:He; [|done].
  split; [done|]. intros Hc. destruct Hn as [_ Hn]. unfold cell_cast, cast_dtype. rewrite Hc, map_id. done.
Qed.

Lemma source_columns_sized m chunk :
  runnable m chunk -> NoDup (dict_values (rename m)) -> sized (rows m chunk) (source_columns m chunk).
Proof.
  intros [] Hv. destruct (renamed_frame (rename m) chunk run_chunk0 Hv run_sources0) as [Hf _].
  assert (frame_of (height chunk) (source_columns m chunk)) as Hs.
  { apply frame_of_map; [apply casted_name|apply casted_len|].
    apply frame_of_map; [apply normalized_name|apply normalized_len|done]. }
  unfold rows. destruct (rename m) as [|[source canonical] rn] eqn:Hr.
  - assert (source_columns m chunk = []) as ->; [|split; [split; constructor|done]].
    apply (fmap_nil_inv s_name). rewrite source_columns_names. by rewrite Hr.
  - split; [done|]. apply frame_of_height; [done|]. intros He.
    apply (f_equal (map s_name)) in He. rewrite source_columns_names, Hr in He. done.
Qed.

Lemma gather_all n cols keep :
  sized n cols -> Forall (fun i => i < n) keep ->
  df_gather keep (Frame cols) = Frame (map (gather_series keep) cols).
Proof. intros [_ Hh] Hk. rewrite law_gather; [done|]. by rewrite Hh. Qed.

Lemma keep_rows_elem n fs i : i ∈ keep_rows n fs <-> i < n /\ i ∉ failed_rows fs.
Proof.
  unfold keep_rows. rewrite list_elem_of_filter, elem_of_seq, bool_decide_eq_false. split; intros []; split; (done || lia).
Qed.

(** [rows] gathered from the cells of a column. *)
Definition gather_cells (keep : list nat) (cells : list cell) : list cell :=
  map (fun i => default None (cells !! i)) keep.

(** The columns the cast stage reads. *)
Lemma normalized_sources m chunk c :
  runnable m chunk -> mapping_wf m -> c ∈ dict_keys (cast m) ->
  exists s, s ∈ map (normalized (normalize m)) (renamed (rename m) chunk) /\ s_name s = c /\ str_series s.
Proof.
  intros [] [] Hc%wf_cast_keys. destruct (renamed_frame (rename m) chunk run_chunk0 wf_targets run_sources0) as [_ Hs1].
  rewrite <- (renamed_names _ chunk) in Hc. apply list_elem_of_fmap in Hc as (s & -> & Hs). exists (normalized (normalize m) s).
  split_and!; [by apply list_elem_of_fmap; eauto|apply normalized_name|]. apply normalized_str. rewrite Forall_forall in Hs1. auto.
Qed.

(** The stages up to the first one that polars refuses. *)
Section Refused.
Context (m : SourceMapping) (chunk : frame) (Hrun : runnable m chunk) (Hwf : mapping_wf m).
Notation cols1 := (renamed (rename m) chunk).
Notation cols2 := (map (normalized (normalize m)) cols1).
Notation inverse := (rename_inverse (rename m)).

Lemma normalize_runs : Forall (fun r => zones_known r.2) (normalize m) ->
  run_normalize (Frame cols1) (normalize m) inverse [] = Ok (Frame cols2, normalize_failures (normalize m) inverse cols1).
Proof.
  intros Hz. destruct Hrun, Hwf. destruct (renamed_frame (rename m) chunk run_chunk0 wf_targets run_sources0) as [Hf1 Hs1].
  rewrite (run_normalize_spec (height chunk)); try done; [by rewrite renamed_names|].
  rewrite Forall_forall in *. intros [c specs] Hin. split; [by apply (wf_normalize (c, specs))|by apply (Hz (c, specs))].
Qed.

Lemma normalized_frame : frame_of (height chunk) cols2.
Proof.
  destruct Hrun, Hwf. apply frame_of_map; [apply normalized_name|apply normalized_len|].
  by destruct (renamed_frame (rename m) chunk run_chunk0 wf_targets run_sources0).
Qed.

Lemma casts_run fs : types_accepted m ->
  run_cast (Frame cols2) (cast m) inverse fs = Ok (Frame (source_columns m chunk), fs ++ cast_failures (cast m) inverse cols2).
Proof.
  intros Hca. rewrite (run_cast_spec (height chunk)); try done; [apply normalized_frame|apply Hrun|apply Hwf|].
  intros c. by apply normalized_sources.
Qed.

Lemma columns_typed : typed_columns m (source_columns m chunk).
Proof.
  destruct Hrun, Hwf. apply source_columns_typed. by destruct (renamed_frame (rename m) chunk run_chunk0 wf_targets run_sources0).
Qed.

Lemma derived_new c : c ∈ dict_keys (derive m) -> c ∉ map s_name (source_columns m chunk).
Proof. intros Hc. rewrite source_columns_names. by apply Hwf. Qed.

Lemma unknown_zone_raises : types_accepted m -> ~ zones_accepted m -> exists c, apply_mapping m chunk = Err (MappingConfigError (Some c)).
Proof.
  intros Hca Hz. unfold apply_mapping. destruct Hrun, Hwf. rewrite run_rename_spec by done. cbn [mbind result_bind].
  destruct (renamed_frame (rename m) chunk run_chunk0 wf_targets run_sources0) as [Hf1 Hs1].
  destruct (decide (Forall (fun r => zones_known r.2) (normalize m))) as [Hn|Hn].
  - rewrite normalize_runs by done. cbn [mbind result_bind]. rewrite casts_run by done. cbn [mbind result_bind].
    destruct (run_derive_unknown_zone m (source_columns m chunk) (rows m chunk) (derive m)
      (normalize_failures (normalize m) inverse cols1 ++ cast_failures (cast m) inverse cols2)) as [c Hd]; try done.
    + apply columns_typed.
    + by apply source_columns_sized.
    + apply derived_new.
    + intros Hd. by apply Hz.
    + exists c. by rewrite Hd.
  - destruct (run_normalize_unknown_zone (height chunk) cols1 (normalize m) inverse []) as [c Hr]; try done; [by rewrite renamed_names|].
    exists c. by rewrite Hr.
Qed.

(** A mapping that ran is one polars accepts. *)
Lemma apply_mapping_accepts r : apply_mapping m chunk = Ok r -> zones_accepted m /\ types_accepted m.
Proof.
  intros Hr. destruct (decide (types_accepted m)) as [Hca|Hca].
  - split; [|done]. unfold zones_accepted. destruct (decide (zones_accepted m)) as [Hz|Hz]; [done|].
    destruct (unknown_zone_raises Hca Hz) as [c Hc]. congruence.
  - exfalso. unfold apply_mapping in Hr. destruct Hrun, Hwf. rewrite run_rename_spec in Hr by done. cbn [mbind result_bind] in Hr.
    destruct (renamed_frame (rename m) chunk run_chunk0 wf_targets run_sources0) as [Hf1 Hs1].
    destruct (decide (Forall (fun r => zones_known r.2) (normalize m))) as [Hn|Hn].
    + rewrite normalize_runs in Hr by done. cbn [mbind result_bind] in Hr.
      destruct (run_cast_refused (height chunk) cols2 (cast m) inverse (normalize_failures (normalize m) inverse cols1)) as [e He]; try done;
        [apply normalized_frame|intros c; by apply normalized_sources|]. by rewrite He in Hr.
    + destruct (run_normalize_unknown_zone (height chunk) cols1 (normalize m) inverse []) as [c Hc]; try done; [by rewrite renamed_names|].
      by rewrite Hc in Hr.
Qed.

Lemma apply_mapping_spec :
  zones_accepted m -> types_accepted m ->
  exists r, apply_mapping m chunk = Ok r /\
    failures r = all_failures m chunk /\
    source_row_indices r = keep_rows (rows m chunk) (all_failures m chunk) /\
    map (fun s => (s_name s, s_cells s)) (f_cols (contribution r)) =
    map (fun '(c, cells) => (c, gather_cells (source_row_indices r) cells)) (target_cells m chunk).
Proof.
  intros [Hzn Hzd] Hca. unfold apply_mapping. rewrite run_rename_spec by (apply Hrun || apply Hwf). cbn [mbind result_bind].
  rewrite normalize_runs by done. cbn [mbind result_bind]. rewrite casts_run by done. cbn [mbind result_bind].
  destruct (run_derive_spec m (source_columns m chunk) (rows m chunk) (derive m) []
             (normalize_failures (normalize m) inverse cols1 ++ cast_failures (cast m) inverse cols2))
    as (new & Hd & Hnew & Hsz).
  { apply columns_typed. }
  { rewrite app_nil_r. apply source_columns_sized; [done|apply Hwf]. }
  { apply Hrun. }
  { pose proof (wf_derive _ Hwf) as Hwd. rewrite Forall_forall in *. intros [c specs] Hin. split; [by apply (Hwd (c, specs))|by apply (Hzd (c, specs))]. }
  { intros c Hc. rewrite app_nil_r. by apply derived_new. }
  rewrite app_nil_r in Hd, Hsz. rewrite Hd. cbn [mbind result_bind].
  assert (columns (Frame (source_columns m chunk ++ new)) = target_columns m) as Hcols.
  { unfold columns, target_columns; cbn [f_cols]. rewrite map_app, source_columns_names. f_equal.
    apply (f_equal (map fst)) in Hnew. rewrite !map_map in Hnew. etrans; [exact Hnew|].
    unfold dict_keys. apply map_ext. by intros []. }
  destruct Hsz as [Hfo Hh]. rewrite law_select; [|by eapply frame_of_wf|rewrite <- Hcols; by apply Hfo].
  rewrite <- Hcols. unfold columns; cbn [f_cols]. rewrite get_column_all by (by eapply frame_of_wf). cbn [mbind result_bind].
  rewrite Hh. rewrite (gather_all (rows m chunk)).
  2:{ by split. }
  2:{ apply Forall_forall. intros i Hi%keep_rows_elem. by destruct Hi. }
  rewrite <- app_assoc. fold (all_failures m chunk).
  eexists. split; [reflexivity|]. cbn [failures source_row_indices contribution f_cols]. split_and!; [done..|].
  unfold target_cells. rewrite !map_map, !map_app, map_map. f_equal. rewrite <- Hnew, map_map. done.
Qed.

(** What a mapping that ran computed. *)
Lemma apply_mapping_computed r : apply_mapping m chunk = Ok r ->
  failures r = all_failures m chunk /\
  source_row_indices r = keep_rows (rows m chunk) (all_failures m chunk) /\
  map (fun s => (s_name s, s_cells s)) (f_cols (contribution r)) =
  map (fun '(c, cells) => (c, gather_cells (source_row_indices r) cells)) (target_cells m chunk).
Proof.
  intros Hr. destruct (apply_mapping_accepts r Hr) as [Hz Hc]. destruct (apply_mapping_spec Hz Hc) as (r' & Hr' & Hspec). rewrite Hr in Hr'.
  by injection Hr' as <-.
Qed.
End Refused.

(** ** Reports: one per failing cell *)

Definition cell_of (x : CellNormalizationFailure) : nat * string := (row_index x, column x).

(** Reports collected rule by rule, each rule reporting on its own column. *)
Lemma rule_reports_nodup {A} (rules : dict A) (reports : string * A -> failure_list) :
  dict_wf rules ->
  (forall r x, r ∈ rules -> x ∈ reports r -> column x = r.1) ->
  (forall r, r ∈ rules -> NoDup (map row_index (reports r))) ->
  NoDup (map cell_of (flat_map reports rules)).
Proof.
  unfold dict_wf, dict_keys. induction rules as [|r rules IH]; cbn; [constructor|].
  rewrite NoDup_cons. intros [Hn Hd] Hcol Hrow. rewrite map_app. apply NoDup_app. split_and!.
  - assert (map row_index (reports r) = map fst (map cell_of (reports r))) as Hm by (rewrite map_map; done).
    specialize (Hrow r (list_elem_of_here _ _)). rewrite Hm in Hrow. by apply NoDup_fmap_1 in Hrow.
  - intros [i c] (x & [= -> ->] & Hx)%list_elem_of_fmap (y & [= Hr Hc] & Hy)%list_elem_of_fmap.
    apply elem_of_flat_map in Hy as (r' & Hr' & Hy). apply Hn.
    rewrite <- (Hcol r x), Hc, (Hcol r' y); [|by right|done|left|done].
    apply list_elem_of_fmap. by exists r'.
  - apply IH; [done|intros r' x ?; apply Hcol; by right|intros r' ?; apply Hrow; by right].
Qed.

Lemma chain_failures_column col source st k steps cells x :
  x ∈ chain_failures col source st k steps cells -> column x = col.
Proof. by intros (? & ? & ? & ? & ? & ? & _ & _ & ->)%chain_failures_elem. Qed.

Lemma normalize_failures_elem rules inverse cols x :
  x ∈ normalize_failures rules inverse cols ->
  exists specs c j, (column x, specs) ∈ rules /\ column_cells cols (column x) !! row_index x = Some c /\
    first_failure 0 (steps_of specs) c = Some j.
Proof.
  intros ([col specs] & Hin & Hx)%elem_of_flat_map.
  apply chain_failures_elem in Hx as (row & c & j & sp & t & e & Hc & Hff & ->). cbn. eauto 10.
Qed.

Lemma elem_cast_failing_rows spec cells row :
  row ∈ cast_failing_rows spec cells <-> exists c, cells !! row = Some c /\ cast_fails spec c = true.
Proof.
  unfold cast_failing_rows. rewrite elem_true_indices. setoid_rewrite list_lookup_fmap. split.
  - intros (k & c & -> & Hk & Ht). cbn. destruct (cells !! k) as [x|] eqn:Hx; [|done].
    cbn in Hk. injection Hk as <-. eauto.
  - intros (c & Hc & Hf). exists row, (cbool (cast_fails spec c)). rewrite Hc. cbn. by rewrite Hf.
Qed.

Lemma cast_failures_elem rules inverse cols x :
  x ∈ cast_failures rules inverse cols ->
  exists spec c, (column x, spec) ∈ rules /\ column_cells cols (column x) !! row_index x = Some c /\
    cast_fails spec c = true.
Proof.
  intros ([col spec] & Hin & Hx)%elem_of_flat_map.
  apply list_elem_of_fmap in Hx as (row & -> & (c & Hc & Hf)%elem_cast_failing_rows). cbn. eauto.
Qed.

Lemma derive_failures_elem rules cols n x :
  x ∈ derive_failures rules cols n ->
  exists g rest c j, (column x, g :: rest) ∈ rules /\ generated_cells cols n g !! row_index x = Some c /\
    first_failure 1 (steps_of rest) c = Some j.
Proof.
  intros ([col [|g rest]] & Hin & Hx)%elem_of_flat_map; [by apply not_elem_of_nil in Hx|].
  apply chain_failures_elem in Hx as (row & c & j & sp & t & e & Hc & Hff & ->). cbn. eauto 10.
Qed.

(** The cells a column has after its transform list. *)
Lemma normalized_cells rules cols c specs :
  dict_wf rules -> (c, specs) ∈ rules ->
  column_cells (map (normalized rules) cols) c = map (chain (ops_of specs)) (column_cells cols c).
Proof.
  intros Hwf Hin. unfold column_cells. rewrite find_series_map by apply normalized_name.
  destruct (find_series cols c) as [s|] eqn:Hf; cbn; [|done].
  apply find_series_Some in Hf as [_ Hn]. unfold normalized. rewrite Hn.
  by rewrite (dict_get_elem _ _ _ Hwf Hin).
Qed.

Lemma all_failures_nodup m chunk :
  runnable m chunk -> mapping_wf m -> NoDup (map cell_of (all_failures m chunk)).
Proof.
  intros [] []. unfold all_failures. rewrite !map_app.
  assert (forall x y, x ∈ normalize_failures (normalize m) (rename_inverse (rename m)) (renamed (rename m) chunk) ->
    y ∈ cast_failures (cast m) (rename_inverse (rename m)) (map (normalized (normalize m)) (renamed (rename m) chunk)) ->
    cell_of x <> cell_of y) as Hnc.
  { intros x y (specs & c & j & Hr & Hc & Hff)%normalize_failures_elem (spec & c' & Hr' & Hc' & Hcf)%cast_failures_elem.
    intros [= Hrow Hcol]. rewrite <- Hrow, <- Hcol in Hc'. rewrite (normalized_cells _ _ _ _ run_normalize_keys0 Hr) in Hc'.
    rewrite list_lookup_fmap, Hc in Hc'. cbn in Hc'. injection Hc' as <-.
    rewrite Forall_forall in wf_normalize. pose proof (wf_normalize _ Hr) as Hd. cbn in Hd.
    destruct (steps_of_declared specs Hd) as (_ & H2 & _).
    apply first_failure_null_result in Hff. rewrite H2 in Hff. rewrite Hff in Hcf.
    unfold cast_fails in Hcf. by rewrite andb_false_r in Hcf. }
  assert (forall x y, (x ∈ normalize_failures (normalize m) (rename_inverse (rename m)) (renamed (rename m) chunk) \/
     x ∈ cast_failures (cast m) (rename_inverse (rename m)) (map (normalized (normalize m)) (renamed (rename m) chunk))) ->
    y ∈ derive_failures (derive m) (source_columns m chunk) (rows m chunk) -> cell_of x <> cell_of y) as Hd.
  { intros x y Hx (g & rest & c & j & Hr & _)%derive_failures_elem [= _ Hcol].
    apply (wf_derive_keys (column y)); [apply list_elem_of_fmap; by exists (column y, g :: rest)|]. rewrite <- Hcol.
    destruct Hx as [(specs & ? & ? & Hr' & _)%normalize_failures_elem|(spec & ? & Hr' & _)%cast_failures_elem].
    - apply wf_normalize_keys, list_elem_of_fmap. by exists (column x, specs).
    - apply wf_cast_keys, list_elem_of_fmap. by exists (column x, spec). }
  rewrite !NoDup_app. setoid_rewrite elem_of_app. setoid_rewrite list_elem_of_fmap. split_and!.
  - apply rule_reports_nodup; [done|..].
    + intros [c specs] x _ Hx. by apply chain_failures_column in Hx.
    + intros [c specs] _. apply chain_failures_rows_nodup.
  - intros [i c] (x & -> & Hx) [(y & He & Hy)|(y & He & Hy)]; [by eapply Hnc|eapply Hd; eauto].
  - apply rule_reports_nodup; [done|..].
    + intros [c spec] x _ (row & -> & _)%list_elem_of_fmap. done.
    + intros [c spec] _. rewrite map_map. cbn. rewrite map_id. apply NoDup_true_indices.
  - intros [i c] (x & -> & Hx) (y & He & Hy). eapply Hd; eauto.
  - apply rule_reports_nodup; [done|..].
    + intros [c [|g rest]] x _ Hx; [by apply not_elem_of_nil in Hx|]. by apply chain_failures_column in Hx.
    + intros [c [|g rest]] _; [constructor|]. apply chain_failures_rows_nodup.
Qed.

(** ** Rows: every one is contributed or reported *)

Lemma column_cells_len n cols c i x : Forall (fun s => len s = n) cols -> column_cells cols c !! i = Some x -> i < n.
Proof.
  intros Hl. unfold column_cells. destruct (find_series cols c) as [s|] eqn:Hf; [|done].
  apply find_series_Some in Hf as [Hs _]. rewrite Forall_forall in Hl. rewrite <- (Hl s Hs). apply lookup_lt_Some.
Qed.

Lemma renamed_len m chunk :
  runnable m chunk -> NoDup (dict_values (rename m)) ->
  Forall (fun s => len s = rows m chunk) (renamed (rename m) chunk).
Proof.
  intros [] Hv. destruct (renamed_frame (rename m) chunk run_chunk0 Hv run_sources0) as [[_ Hl] _].
  unfold rows. by destruct (rename m).
Qed.

Lemma all_failures_rows m chunk x :
  runnable m chunk -> mapping_wf m -> x ∈ all_failures m chunk -> row_index x < rows m chunk.
Proof.
  intros Hrun Hwf. pose proof (renamed_len m chunk Hrun (wf_targets _ Hwf)) as Hl.
  unfold all_failures. rewrite !elem_of_app. intros [Hx|[Hx|Hx]].
  - apply normalize_failures_elem in Hx as (? & ? & ? & _ & Hc & _). by eapply column_cells_len.
  - apply cast_failures_elem in Hx as (? & ? & _ & Hc & _). eapply column_cells_len; [|exact Hc].
    apply Forall_map. eapply Forall_impl; [exact Hl|]. intros s Hs. by rewrite normalized_len.
  - apply derive_failures_elem in Hx as (g & rest & c & j & Hr & Hc & _).
    pose proof (wf_derive _ Hwf) as Hd. rewrite Forall_forall in Hd. specialize (Hd _ Hr) as (g' & rest' & b & [= <- <-] & Hg & _).
    destruct (renamed_frame (rename m) chunk (run_chunk _ _ Hrun) (wf_targets _ Hwf) (run_sources _ _ Hrun)) as [_ Hs].
    destruct (generate_spec m (source_columns m chunk) [] (rows m chunk) "" g b) as (_ & _ & Hlen & _).
    + by apply source_columns_typed.
    + rewrite app_nil_r. apply source_columns_sized; [done|by apply wf_targets].
    + done.
    + rewrite <- Hlen. by eapply lookup_lt_Some.
Qed.

Lemma keep_and_failed n fs :
  (forall x, x ∈ fs -> row_index x < n) ->
  keep_rows n fs ++ merge_sort le (remove_dups (failed_rows fs)) ≡ₚ seq 0 n.
Proof.
  intros Hlt. rewrite merge_sort_Permutation.
  apply NoDup_Permutation.
  - apply NoDup_app. split_and!; [apply NoDup_filter, NoDup_seq| |apply NoDup_remove_dups].
    intros i [_ Hi]%keep_rows_elem. by rewrite elem_of_remove_dups.
  - apply NoDup_seq.
  - intros i. rewrite elem_of_app, keep_rows_elem, elem_of_remove_dups, elem_of_seq. split.
    + intros [[? _]|(x & -> & Hx)%list_elem_of_fmap]; [lia|]. specialize (Hlt x Hx). lia.
    + intros [_ Hi]. destruct (decide (i ∈ failed_rows fs)); [by right|left; split; [lia|done]].
Qed.

(** ** Cells: none is lost without a report *)

(** The ops that turn a value into a null without failing. *)
Definition may_null (t : typed_op) : bool :=
  match t with OpNullTokens _ | OpPercent _ _ => true | _ => false end.

Lemma step_keeps t c :
  may_null t = false -> is_strcell c -> c <> None -> cell_fails t c = false -> cell_result t c <> None.
Proof.
  intros Hm Hs Hn Hf. destruct c as [[| | | |x| | | | |]|]; try done. cbn in *.
  destruct (cell_step t x) eqn:He; try done. exfalso. revert He. clear -Hm.
  destruct t; cbn in Hm |- *; try done; unfold of_option;
    repeat match goal with |- context [if ?b then _ else _] => destruct b end; try done;
    match goal with |- match ?o with Some _ => _ | None => _ end = _ -> _ => by destruct o end.
Qed.

Lemma chain_keeps k steps c :
  Forall (fun t => may_null t = false) (map snd steps) -> is_strcell c -> c <> None ->
  first_failure k steps c = None -> chain (map snd steps) c <> None.
Proof.
  revert k c. induction steps as [|[spec t] steps IH]; intros k c Hm Hs Hn; [done|]. cbn in *.
  apply Forall_cons in Hm as [Hm1 Hm]. destruct (cell_fails t c) eqn:Hf; [done|].
  intros Hff. unfold chain; cbn. eapply IH; [done| | |exact Hff]; [apply cell_result_strcell|by apply step_keeps].
Qed.

(** Does the mapping declare a nulling op for a column? *)
Definition nulls_declared (m : SourceMapping) (col : string) : Prop :=
  exists specs t, dict_get (normalize m) col = Some specs /\ t ∈ ops_of specs /\ may_null t = true.

(** A cell that fails its transform list, or its cast, is reported. *)
Lemma normalize_report m chunk col specs i c :
  (col, specs) ∈ normalize m -> column_cells (renamed (rename m) chunk) col !! i = Some c ->
  first_failure 0 (steps_of specs) c <> None -> i ∈ failed_rows (all_failures m chunk).
Proof.
  intros Hr Hc Hff. destruct (first_failure 0 (steps_of specs) c) as [[[[j sp] t] e]|] eqn:He; [|done].
  apply list_elem_of_fmap.
  exists (transform_failure col (dict_get (rename_inverse (rename m)) col) StNormalize j sp (expected_of t) i e).
  split; [done|]. unfold all_failures. rewrite !elem_of_app. left. apply elem_of_flat_map.
  exists (col, specs). split; [done|]. apply chain_failures_elem. eauto 10.
Qed.

Lemma cast_report m chunk col spec i c :
  (col, spec) ∈ cast m ->
  column_cells (map (normalized (normalize m)) (renamed (rename m) chunk)) col !! i = Some c ->
  cast_fails spec c = true -> i ∈ failed_rows (all_failures m chunk).
Proof.
  intros Hr Hc Hf. apply list_elem_of_fmap.
  exists (cast_failure col (dict_get (rename_inverse (rename m)) col) (expected_cast spec) i c).
  split; [done|]. unfold all_failures. rewrite !elem_of_app. right. left. apply elem_of_flat_map.
  exists (col, spec). split; [done|]. apply list_elem_of_fmap. exists i. rewrite Hc. split; [done|].
  apply elem_cast_failing_rows. eauto.
Qed.

(** A renamed column is its source column, through every stage. *)
Lemma renamed_cells rn chunk source canonical :
  NoDup (dict_values rn) -> (source, canonical) ∈ rn ->
  column_cells (renamed rn chunk) canonical = column_cells (f_cols chunk) source.
Proof.
  intros Hv Hin. unfold column_cells at 1.
  rewrite (find_series_elem _ (Series canonical TString (column_cells (f_cols chunk) source))); [done| |].
  - by rewrite renamed_names.
  - apply list_elem_of_fmap. by exists (source, canonical).
Qed.

Lemma normalized_cells_get rules cols c :
  column_cells (map (normalized rules) cols) c =
  match dict_get rules c with
  | Some specs => map (chain (ops_of specs)) (column_cells cols c)
  | None => column_cells cols c
  end.
Proof.
  unfold column_cells. rewrite find_series_map by apply normalized_name.
  destruct (find_series cols c) as [s|] eqn:Hf; cbn; [|by destruct (dict_get rules c)].
  apply find_series_Some in Hf as [_ <-]. unfold normalized. by destruct (dict_get rules (s_name s)).
Qed.

Lemma casted_cells_get rules cols c :
  column_cells (map (casted rules) cols) c =
  match dict_get rules c with
  | Some spec => map (cell_cast spec) (column_cells cols c)
  | None => column_cells cols c
  end.
Proof.
  unfold column_cells. rewrite find_series_map by apply casted_name.
  destruct (find_series cols c) as [s|] eqn:Hf; cbn; [|by destruct (dict_get rules c)].
  apply find_series_Some in Hf as [_ <-]. unfold casted. by destruct (dict_get rules (s_name s)).
Qed.

(** A non-null cell of an unreported row keeps its value through the cast ... *)
Lemma cast_not_lost m chunk canonical i :
  i ∉ failed_rows (all_failures m chunk) ->
  column_cells (source_columns m chunk) canonical !! i = Some None ->
  column_cells (map (normalized (normalize m)) (renamed (rename m) chunk)) canonical !! i = Some None.
Proof.
  intros Hi. unfold source_columns. rewrite casted_cells_get.
  destruct (dict_get (cast m) canonical) as [spec|] eqn:Hcast; [|done]. rewrite list_lookup_fmap.
  destruct (column_cells (map _ _) canonical !! i) as [[v|]|] eqn:Hc; try done. cbn. intros [= Hn].
  contradict Hi. eapply cast_report; [by apply dict_get_Some_elem|exact Hc|].
  unfold cast_fails. by rewrite Hn.
Qed.

(** ... and through its transform list, unless an op nulls values by declaration. *)
Lemma cell_not_lost m chunk source canonical i :
  runnable m chunk -> mapping_wf m -> (source, canonical) ∈ rename m ->
  i ∉ failed_rows (all_failures m chunk) ->
  column_cells (source_columns m chunk) canonical !! i = Some None ->
  column_cells (f_cols chunk) source !! i = Some None \/ nulls_declared m canonical.
Proof.
  intros Hrun Hwf Hin Hi Hnone. apply cast_not_lost in Hnone; [|done].
  pose proof (renamed_cells _ chunk _ _ (wf_targets _ Hwf) Hin) as Hsrc.
  rewrite normalized_cells_get in Hnone.
  destruct (dict_get (normalize m) canonical) as [specs|] eqn:Hnorm; [|left; by rewrite <- Hsrc].
  rewrite list_lookup_fmap in Hnone.
  destruct (column_cells (renamed _ _) canonical !! i) as [c|] eqn:Hc; [|done]. cbn in Hnone. injection Hnone as Hnone.
  destruct c as [v|]; [right|left; by rewrite <- Hsrc].
  apply dict_get_Some_elem in Hnorm as Hrule. pose proof (wf_normalize _ Hwf) as Hn. rewrite Forall_forall in Hn.
  destruct (steps_of_declared specs (Hn _ Hrule)) as (_ & H2 & _).
  destruct (decide (Forall (fun t => may_null t = false) (ops_of specs))) as [Hm|Hm].
  - exfalso. rewrite <- H2 in Hnone, Hm.
    eapply (chain_keeps 0 (steps_of specs) (Some v)); [done| |done| |done].
    + destruct (run_chunk _ _ Hrun) as [_ Hstr]. rewrite Hsrc in Hc. unfold column_cells in Hc.
      destruct (find_series (f_cols chunk) source) as [s|] eqn:Hf; [|done].
      apply find_series_Some in Hf as [Hs _]. rewrite Forall_forall in Hstr. destruct (Hstr s Hs) as [_ Hcells].
      rewrite Forall_forall in Hcells. by eapply Hcells, list_elem_of_lookup_2.
    + destruct (first_failure 0 (steps_of specs) (Some v)) eqn:Hff; [|done].
      contradict Hi. eapply normalize_report; eauto. by rewrite Hff.
  - apply not_Forall_Exists, Exists_exists in Hm as (t & Ht & Hm); [|apply _].
    exists specs, t. split_and!; [done..|]. by apply not_false_iff_true.
Qed.

(** ** The cells of the contribution *)

Lemma column_cells_pairs cols c :
  column_cells cols c = default [] (dict_get (map (fun s => (s_name s, s_cells s)) cols) c).
Proof.
  unfold column_cells. induction cols as [|s cols IH]; cbn; [done|].
  rewrite (String.eqb_sym c). by destruct (String.eqb (s_name s) c).
Qed.

Lemma dict_get_map {A B} (f : A -> B) (d : dict A) c :
  dict_get (map (fun '(k, v) => (k, f v)) d) c = f <$> dict_get d c.
Proof. induction d as [|[k v] d IH]; cbn; [done|]. by destruct (String.eqb c k). Qed.

Lemma dict_get_app_l {A} (d e : dict A) c : c ∈ dict_keys d -> dict_get (d ++ e) c = dict_get d c.
Proof.
  induction d as [|[k v] d IH]; cbn; [intros Hc; by apply not_elem_of_nil in Hc|].
  rewrite elem_of_cons. destruct (String.eqb_spec c k); naive_solver.
Qed.

Lemma contribution_cells m chunk cols canonical keep :
  map (fun s => (s_name s, s_cells s)) cols =
  map (fun '(c, cells) => (c, gather_cells keep cells)) (target_cells m chunk) ->
  canonical ∈ dict_values (rename m) ->
  column_cells cols canonical = gather_cells keep (column_cells (source_columns m chunk) canonical).
Proof.
  intros Hc Hin. rewrite column_cells_pairs, Hc, dict_get_map. unfold target_cells.
  rewrite dict_get_app_l.
  2:{ unfold dict_keys. rewrite map_map. cbn. rewrite <- (source_columns_names m chunk) in Hin. done. }
  rewrite column_cells_pairs. destruct (dict_get _ canonical) as [l|] eqn:Hg; [done|].
  apply dict_get_None in Hg. contradict Hg. unfold dict_keys. rewrite map_map.
  rewrite <- (source_columns_names m chunk) in Hin. done.
Qed.

Lemma source_cell_null m chunk canonical i :
  runnable m chunk -> mapping_wf m -> canonical ∈ dict_values (rename m) -> i < rows m chunk ->
  default None (column_cells (source_columns m chunk) canonical !! i) = None ->
  column_cells (source_columns m chunk) canonical !! i = Some None.
Proof.
  intros Hrun Hwf Hin Hi. destruct (source_columns_sized m chunk Hrun (wf_targets _ Hwf)) as [[_ Hl] _].
  rewrite <- (source_columns_names m chunk) in Hin. unfold column_cells.
  destruct (find_series (source_columns m chunk) canonical) as [s|] eqn:Hf.
  - apply find_series_Some in Hf as [Hs _]. rewrite Forall_forall in Hl. specialize (Hl s Hs).
    destruct (lookup_lt_is_Some_2 (s_cells s) i) as [c Hc]; [unfold len in Hl; lia|].
    rewrite Hc. cbn. by intros ->.
  - by apply find_series_None in Hf.
Qed.
End Apply.
