(* ===== verification/MappingTheorems.v ===== *)
(** MappingTheorems: the claims on the mapping engine, after a sample: concrete kernels for the polars interface and a small mapping with
    its chunk, on which the engine is evaluated.

    The kernels read numbers and ISO dates; they know one time zone. *)

From S2P Require Import Prelude Text Values Decimals Transform SourceMapping Polars Normalize NormalizeSpec Numbers Engine EngineSpec EngineProps.

(** ** Reading numbers and dates *)

(** A decimal of at most 38 digits. *)
Definition read_decimal (s : string) : option value :=
  let '(whole, frac) := split_at_char (Ascii.eqb ".") s in
  let f := default "" frac in
  z ← read_int (whole +:+ f);
  if (Z.abs z <? 10 ^ 38)%Z then Some (VDecimal z (String.length f)) else None.

Definition read_iso_date (s : string) : option Z :=
  match split_at_char (Ascii.eqb "-") s with
  | (y, Some r) => match split_at_char (Ascii.eqb "-") r with
                   | (m, Some d) => y ← read_nat y; m ← read_nat m; d ← read_nat d; Some (days_from_civil (Civil y m d))
                   | _ => None
                   end
  | _ => None
  end.

Definition sample_cast (from to : dtype) (v : value) : option value :=
  match v, to with
  | VStr t, TInt64 => VInt <$> read_int t
  | VStr t, TDecimal _ _ => read_decimal t
  | VDecimal c s, TString => Some (VStr (decimal_str c s))
  | _, _ => None
  end.

Definition sample_kernels : Kernels := {|
  k_strptime_date fmt t := if String.eqb fmt "%Y-%m-%d" then read_iso_date t else None;
  k_strptime_datetime fmt t := if String.eqb fmt "%Y-%m-%d" then Z.mul US_PER_DAY <$> read_iso_date t else None;
  k_format_zone fmt := if str_in "%z" fmt then Some "UTC" else None;
  k_to_datetime t := Z.mul US_PER_DAY <$> read_iso_date (str_take 10 t);
  k_strftime_date fmt d := date_iso d;
  k_strftime_datetime fmt us := datetime_iso us;
  k_tz_known tz := String.eqb tz "UTC";
  k_localize tz u := Some u;
  k_strip t := t;
  k_upper := py_upper;
  k_lower := py_lower;
  k_replace_all_re r x t := t;
  k_castable from to := true;
  k_cast := sample_cast;
  k_lit_type := value_dtype;
  k_div100_type ty := ty;
  k_div100 v := match v with VDecimal c s => Some (VDecimal c (S (S s))) | _ => None end
|}.

Lemma sample_kernel_laws : KernelLaws sample_kernels.
Proof.
  constructor; try done.
  - intros fmt H. cbn. rewrite H. eauto.
  - intros p q. by exists p, q.
  - intros ty c v. cbn. destruct c; cbn; try done. by intros [= <-].
Qed.

Definition sample_polars : Polars := ListPolars sample_kernels.

Lemma sample_laws : @PolarsLaws sample_polars.
Proof. apply list_polars_laws, sample_kernel_laws. Qed.

(** ** A mapping and its chunk *)

Definition eu_decimal : TransformSpec :=
  mkTransformSpec "parse_decimal" [("decimal_separator", VStr ","); ("thousands_separator", VStr ".")].
Definition day_date : TransformSpec := mkTransformSpec "parse_date" [("format", VStr "%Y-%m-%d")].

Definition sample_mapping : SourceMapping := mkSourceMapping 1
  [("Article", "sku_id"); ("Prix", "current_retail_price")]
  [("current_retail_price", [eu_decimal])]
  [("current_retail_price", mkCastSpec CDecimal (Some 12%Z) (Some 2%Z))]
  [("retail_price_currency", [mkTransformSpec "constant" [("value", VStr "EUR")]])].

Definition text_cells (l : list string) : list cell := map (fun t => Some (VStr t)) l.

Definition sample_chunk : frame := Frame
  [ Series "Article" TString (text_cells ["A1"; "A2"; "A3"]);
    Series "Prix" TString (text_cells ["1.299,50"; "1,299.50"; "7"]);
    Series "Unused" TString (text_cells ["x"; "y"; "z"]) ].

Lemma sample_runnable : runnable sample_mapping sample_chunk.
Proof.
  constructor; try (unfold dict_wf; by apply (bool_decide_unpack _); vm_compute).
  - split; [split; [by apply (bool_decide_unpack _); vm_compute|by repeat constructor]|by repeat constructor].
  - intros c. rewrite <- !mem_elem. cbn. intros H.
    repeat match type of H with (?b || _)%bool = true => destruct b eqn:?; cbn in * end; try done;
      repeat match goal with H : String.eqb _ _ = true |- _ => apply String.eqb_eq in H as -> end; done.
Qed.

Lemma sample_construct : construct sample_mapping = Ok sample_mapping.
Proof. by vm_compute. Qed.

(** The second price is in the wrong locale: its row is dropped and reported. *)
Example sample_run :
  match @apply_mapping sample_polars sample_mapping sample_chunk with
  | Ok r => source_row_indices r = [0; 2] /\ failed_row_indices r = [1] /\
      column_cells (f_cols (contribution r)) "current_retail_price" =
        [Some (VDecimal 129950 2); Some (VDecimal 7 0)]
  | Err _ => False
  end.
Proof. vm_compute. done. Qed.

(** ** The mapping library (libs/dis-mapping) *)







(** A mapping of constants only: accepted, and every row of the chunk disappears without a report. *)
Example renameless_loses_rows :
  let m := mkSourceMapping 1 [] [] [] [("retail_price_currency", [mkTransformSpec "constant" [("value", VStr "EUR")]])] in
  construct m = Ok m /\ height sample_chunk = 3 /\
  match @apply_mapping sample_polars m sample_chunk with
  | Ok r => height (contribution r) = 0 /\ source_row_indices r = [] /\ failures r = []
  | Err _ => False
  end.
Proof. vm_compute. done. Qed.


(** No cell is reported twice, over all sub-stages together; and a source
    cell is reported by the normalize stage exactly when its transform list
    fails on it, with the index of the first failing step and the text that
    entered that step. *)
Theorem mapping_reports_once `{!Polars, !PolarsLaws} m chunk r :
  runnable m chunk -> construct m = Ok m -> apply_mapping m chunk = Ok r ->
  NoDup (map cell_of (failures r)) /\
  forall source canonical specs row c,
    (source, canonical) ∈ rename m -> (canonical, specs) ∈ normalize m ->
    column_cells (f_cols chunk) source !! row = Some c ->
    forall k spec t entering,
      first_failure 0 (steps_of specs) c = Some (k, spec, t, entering) ->
      transform_failure canonical (dict_get (rename_inverse (rename m)) canonical) StNormalize k spec
        (expected_of t) row entering ∈ failures r.
Proof.
  unfold construct. intros Hrun Hc Hr. inv_ok. apply validate_rules_ok in Hs as Hwf.
  destruct (apply_mapping_computed m chunk Hrun Hwf r Hr) as (Hf & Hk & Hcells). rewrite Hf. split; [by apply all_failures_nodup|].
  intros source canonical specs row c Hin Hrule Hcell k spec t e Hff.
  unfold all_failures. rewrite !elem_of_app. left. apply elem_of_flat_map. exists (canonical, specs).
  split; [done|]. apply chain_failures_elem. exists row, c, k, spec, t, e. split_and!; try done.
  by rewrite (renamed_cells _ _ source) by (done || by apply wf_targets).
Qed.

Lemma mapping_reports_once_witness :
  exists r, @apply_mapping sample_polars sample_mapping sample_chunk = Ok r /\
    map cell_of (failures r) = [(1, "current_retail_price")] /\ NoDup (map cell_of (failures r)).
Proof.
  destruct (@apply_mapping sample_polars sample_mapping sample_chunk) as [r|e] eqn:Hr.
  - exists r. split; [reflexivity|]. split.
    + vm_compute in Hr. injection Hr as <-. reflexivity.
    + exact (proj1 (@mapping_reports_once sample_polars sample_laws sample_mapping sample_chunk r
                      sample_runnable sample_construct Hr)).
  - exfalso. vm_compute in Hr. discriminate Hr.
Defined.





(** Construction accepts a mapping exactly when its rules are well formed:
    a positive version, injective rename targets, normalize and cast rules on
    rename targets only, derive targets that are new, every op declared with
    exactly its keys and unambiguous values, every cast with its scale, and
    derive chains that begin with a generator and compose. *)
Theorem construct_iff_wf (m : SourceMapping) : construct m = Ok m <-> mapping_wf m.
Proof.
  unfold construct. split.
  - intros H. inv_ok. by apply validate_rules_ok in Hs.
  - intros H. by rewrite (proj2 (validate_rules_ok m tt) H).
Qed.

(** Under separators that are not digits or signs, [parse_decimal] accepts a
    cell exactly when its text is a number written in the declared locale (an
    optional sign, plain or strictly three-digit-grouped digits, the declared
    mark) and then yields that number's canonical text; every other non-null cell
    is marked failed. *)
Theorem parse_decimal_locale `{!Polars, !PolarsLaws} a dec thou s :
  locale_ok dec thou ->
  dict_get a "decimal_separator" = Some (VStr (String dec "")) ->
  dict_get a "thousands_separator" = Some (sep_value thou) -> str_series s ->
  exists o, parse_decimal s a = Ok o /\
    forall i x, s_cells s !! i = Some (Some (VStr x)) ->
      (forall n, number_ok thou n -> x = locale_text dec thou n ->
         s_cells (values o) !! i = Some (Some (VStr (canonical_text n))) /\
         is_true <$> s_cells (failed o) !! i = Some false) /\
      ((forall n, number_ok thou n -> x <> locale_text dec thou n) ->
         is_true <$> s_cells (failed o) !! i = Some true).
Proof.
  intros Hl Hd Ht Hs. destruct (parse_decimal_meets a dec thou s Hd Ht Hs) as (o & Ho & [Hv Hf _]).
  exists o. split; [done|]. destruct Hv as (nv & f & -> & Hv), Hf as (nf & g & -> & Hf). cbn.
  intros i x Hi. rewrite !list_lookup_fmap, Hi. cbn. rewrite Hf by done. split.
  - intros n Hn Hx. assert (cell_step (OpDecimal dec thou) x = Pass (canonical_text n)) as Hstep.
    { apply decimal_step_iff; eauto. }
    assert (cell_fails (OpDecimal dec thou) (Some (VStr x)) = false) as Hnf by (unfold cell_fails; by rewrite Hstep).
    rewrite Hnf, Hv by done. unfold cell_result. by rewrite Hstep.
  - intros Hno. f_equal. unfold cell_fails.
    destruct (cell_step (OpDecimal dec thou) x) as [y| |] eqn:Hstep; [| |done].
    + apply decimal_step_iff in Hstep as (n & Hn & Hx & _); [|done]. by eapply Hno in Hx.
    + cbn in Hstep. by destruct (re_match _ x).
Qed.

Definition price_column : series := Series "price" TString (text_cells ["1.299,50"; "1,299.50"]).

Lemma parse_decimal_locale_witness :
  exists o, @parse_decimal sample_polars price_column (args eu_decimal) = Ok o /\
    s_cells (values o) !! 0 = Some (Some (VStr "1299.50")).
Proof.
  destruct (@parse_decimal_locale sample_polars sample_laws (args eu_decimal) "," (Some "."%char) price_column)
    as (o & Ho & H).
  - split; [reflexivity|]. intros c [= <-]. split; [reflexivity|discriminate].
  - reflexivity.
  - reflexivity.
  - repeat constructor.
  - exists o. split; [exact Ho|].
    destruct (H 0 "1.299,50" eq_refl) as [H1 _].
    apply (H1 (Number "" ["1"; "299"] (Some "50"))); [|reflexivity].
    constructor.
    + left. reflexivity.
    + exists "1", ["299"]. split; [reflexivity|]. split; [by repeat constructor|].
      intros _. split; [discriminate|]. split; [split; [by repeat constructor|cbn; lia]|].
      repeat constructor; discriminate.
    + intros f [= <-]. by repeat constructor.
Defined.

(** The separator check has a hole: construction accepts a digit as the
    thousands separator, and a number that contains it is then rewritten to
    another number without a failure ("1500" becomes "100" when the declared
    separator is "5"). *)
Theorem digit_separator_rewrites_value `{Kernels} :
  let spec := mkTransformSpec "parse_integer" [("thousands_separator", VStr "5")] in
  validate_normalize_args spec "quantity" = Ok tt /\
  cell_step (OpInteger (Some "5"%char)) "1500" = Pass "100".
Proof. split; by vm_compute. Qed.

(** [parse_percent] loses a value silently: a cell whose text matches the
    declared locale but whose number the Decimal conversion refuses comes out
    null and is not marked failed. *)
Theorem percent_refused_value_lost `{!Polars, !PolarsLaws} a dec thou s i x :
  dict_get a "decimal_separator" = Some (VStr (String dec "")) ->
  dict_get a "thousands_separator" = Some (sep_value thou) -> str_series s ->
  s_cells s !! i = Some (Some (VStr x)) ->
  re_match (percent_pattern (char_str dec) (sep_str thou)) x = true ->
  k_cast TString (TDecimal None 18) (VStr (clean_number dec thou (strip_suffix (re_char "%") x))) = None ->
  exists o, parse_percent s a = Ok o /\
    s_cells (values o) !! i = Some None /\ is_true <$> s_cells (failed o) !! i = Some false.
Proof.
  intros Hd Ht Hs Hi Hm Hk. destruct (parse_percent_meets a dec thou s Hd Ht Hs) as (o & Ho & [Hv Hf _]).
  exists o. split; [done|]. destruct Hv as (nv & f & -> & Hv), Hf as (nf & g & -> & Hf). cbn.
  assert (cell_step (OpPercent dec thou) x = Nulled) as Hstep.
  { unfold cell_step. rewrite Hm. unfold percent_text. by rewrite Hk. }
  assert (cell_fails (OpPercent dec thou) (Some (VStr x)) = false) as Hnf by (unfold cell_fails; by rewrite Hstep).
  rewrite !list_lookup_fmap, Hi. cbn. rewrite Hf, Hnf, Hv by done. unfold cell_result. by rewrite Hstep.
Qed.

Definition huge_percent : string := "1000000000000000000000000000000000000000%".
Definition percent_column : series := Series "margin" TString (text_cells ["12.5%"; huge_percent]).

Lemma percent_refused_value_lost_witness :
  exists o, @parse_percent sample_polars percent_column
              [("decimal_separator", VStr "."); ("thousands_separator", VNone)] = Ok o /\
    s_cells (values o) !! 1 = Some None /\ is_true <$> s_cells (failed o) !! 1 = Some false.
Proof.
  apply (@percent_refused_value_lost sample_polars sample_laws
           [("decimal_separator", VStr "."); ("thousands_separator", VNone)] "."%char None percent_column 1 huge_percent);
    try reflexivity. repeat constructor.
Defined.
