(* ===== verification/Canonical.v ===== *)
(** Canonical: the row models of the canonical tables (libs/dis-canonical).

    A model is its table of fields in declaration order: the name, the declared
    scalar type and whether the field is required (no default).  Every field
    with a default is [T | None = None], so it is nullable exactly when it is not
    required. *)

From S2P Require Import Prelude Text Values.

Inductive field_type : Type :=
| FUuid
| FStr (max_length : nat)             (* varchar(n) *)
| FCurrency                           (* char(3) *)
| FNumeric (max_digits decimal_places : nat)
| FInt
| FBigInt                             (* mapping_version_id *)
| FDate
| FDatetime
| FBool
| FVocab (members : list string)      (* enum or Literal *)
| FJsonObject
| FAny.

Record field := mkField { f_name : string; f_type : field_type; f_required : bool }.

Definition req (n : string) (t : field_type) : field := mkField n t true.
Definition opt (n : string) (t : field_type) : field := mkField n t false.

Definition TaxTreatment : list string := ["INCLUSIVE"; "EXCLUSIVE"].
Definition ExpirySource : list string := ["PRINTED"; "SCANNED"; "ESTIMATED"; "CV_DETECTED"].
Definition EventCategory : list string :=
  ["INVENTORY"; "PRICE"; "COST"; "REGULATORY"; "STATUS"; "CATALOGUE"; "OTHER"].
Definition SaleEventSubtype : list string := ["SALE"; "RETURN"; "VOID"].

Inductive model : Type :=
| StoreSkuCurrentPosition
| StoreSkuSaleEvent
| StoreSkuChangeEvent
| StoreSkuSignalHistory.

Global Instance model_eq_dec : EqDecision model.
Proof. solve_decision. Defined.

Definition current_position_fields : list field :=
  [ opt "id" FUuid; req "tenant_id" FUuid; req "store_id" FUuid;
    req "sku_id" (FStr 128); opt "sku_variant" (FStr 128); opt "sku_lot_batch" (FStr 128);
    opt "barcode" (FStr 128); req "product_name" (FStr 128); opt "product_description" (FStr 128);
    opt "product_category" (FStr 128); opt "product_sub_category" (FStr 128);
    opt "product_department" (FStr 128); opt "supplier_id" (FStr 128); opt "packaging_type" (FStr 128);
    opt "sku_size" (FNumeric 8 3); opt "unit_of_measure" (FStr 64);
    req "current_retail_price" (FNumeric 12 4); opt "unit_cost" (FNumeric 12 4);
    opt "promo_price" (FNumeric 12 4); opt "promo_identifier" (FStr 128);
    opt "yesterday_retail_price" (FNumeric 12 4); req "tax_treatment" (FVocab TaxTreatment);
    opt "stock_qty" (FNumeric 14 3); opt "lead_time_days" FInt; opt "expiry_date" FDate;
    opt "receipt_date" FDate; opt "expiry_source" (FVocab ExpirySource);
    opt "expiry_confidence" (FNumeric 3 2); opt "regulatory_flag" FBool; opt "regulatory_type" (FStr 128);
    req "currency" FCurrency; opt "reorder_point" (FNumeric 14 3); opt "sku_status" (FStr 32);
    opt "velocity_7day" (FNumeric 10 4); opt "stock_age_days" FInt;
    opt "unit_cost_trend_30day" (FNumeric 12 4); opt "attribute_staleness_map" FJsonObject;
    opt "last_source_event_at" FDatetime;
    req "mapping_version_id" FBigInt; req "trace_id" FUuid; req "dis_channel" (FStr 32);
    opt "last_updated_at" FDatetime; opt "ingest_metadata" FJsonObject ].

Definition sale_event_fields : list field :=
  [ opt "id" FUuid; req "event_date" FDate; req "tenant_id" FUuid; req "store_id" FUuid;
    req "sku_id" (FStr 128); opt "sku_variant" (FStr 128); opt "sku_lot_batch" (FStr 128);
    req "event_subtype" (FVocab SaleEventSubtype); req "source_sale_timestamp" FDatetime;
    opt "transaction_id" (FStr 128); opt "line_item_seq" FInt;
    req "quantity" (FNumeric 14 3); req "unit_retail_price" (FNumeric 12 4);
    req "unit_sale_price" (FNumeric 12 4); opt "discount_amount" (FNumeric 12 4);
    opt "discount_pct" (FNumeric 5 2); opt "unit_cost" (FNumeric 12 4); opt "promo_identifier" (FStr 128);
    opt "tax_amount" (FNumeric 12 4); req "tax_treatment" (FVocab TaxTreatment); req "currency" FCurrency;
    opt "payment_method" (FStr 64); opt "customer_token" (FStr 128); opt "sale_channel" (FStr 32);
    opt "store_sku_current_position_id" FUuid; opt "related_sale_event_id" FUuid;
    req "source_id" (FStr 128); req "source_event_id" (FStr 256);
    req "mapping_version_id" FBigInt; req "trace_id" FUuid; req "dis_channel" (FStr 32);
    opt "last_updated_at" FDatetime; opt "ingest_metadata" FJsonObject ].

Definition change_event_fields : list field :=
  [ opt "id" FUuid; req "event_date" FDate; req "tenant_id" FUuid; req "store_id" FUuid;
    req "sku_id" (FStr 128); opt "sku_variant" (FStr 128); opt "sku_lot_batch" (FStr 128);
    opt "store_sku_current_position_id" FUuid;
    req "event_category" (FVocab EventCategory); req "event_subtype" (FStr 64);
    req "source_event_timestamp" FDatetime; opt "effective_from" FDatetime; opt "effective_until" FDatetime;
    opt "attribute_name" (FStr 64); opt "value_before" FAny; opt "value_after" FAny;
    opt "numeric_value_before" (FNumeric 14 4); opt "numeric_value_after" (FNumeric 14 4);
    opt "numeric_change" (FNumeric 14 4); opt "reason_code" (FStr 64); opt "reason_note" (FStr 256);
    opt "change_context" FJsonObject;
    req "source_id" (FStr 128); req "source_event_id" (FStr 256);
    req "mapping_version_id" FBigInt; req "trace_id" FUuid; req "dis_channel" (FStr 32);
    opt "last_updated_at" FDatetime; opt "ingest_metadata" FJsonObject ].

Definition signal_history_fields : list field :=
  [ opt "id" FUuid; req "as_of_date" FDate; req "tenant_id" FUuid; req "store_id" FUuid;
    req "sku_id" (FStr 128); opt "sku_variant" (FStr 128); opt "sku_lot_batch" (FStr 128);
    opt "store_sku_current_position_id" FUuid;
    opt "velocity_7day" (FNumeric 10 4); opt "stock_age_days" FInt; opt "unit_cost_trend_30day" (FNumeric 12 4);
    req "trace_id" FUuid; opt "created_at" FDatetime; opt "compute_metadata" FJsonObject ].

Definition model_fields (m : model) : list field :=
  match m with
  | StoreSkuCurrentPosition => current_position_fields
  | StoreSkuSaleEvent => sale_event_fields
  | StoreSkuChangeEvent => change_event_fields
  | StoreSkuSignalHistory => signal_history_fields
  end.

Definition field_names (m : model) : list string := map f_name (model_fields m).
Definition required_names (m : model) : list string := map f_name (filter (fun f => f_required f = true) (model_fields m)).

Definition model_name (m : model) : string :=
  match m with
  | StoreSkuCurrentPosition => "StoreSkuCurrentPosition"
  | StoreSkuSaleEvent => "StoreSkuSaleEvent"
  | StoreSkuChangeEvent => "StoreSkuChangeEvent"
  | StoreSkuSignalHistory => "StoreSkuSignalHistory"
  end.

Definition find_field (m : model) (name : string) : option field :=
  match list_find (fun f => f_name f = name) (model_fields m) with Some (_, f) => Some f | None => None end.

Lemma field_names_nodup m : NoDup (field_names m).
Proof. apply (bool_decide_unpack _). by destruct m; vm_compute. Qed.
