(* ===== verification/Provenance.v ===== *)
(** Provenance: who writes which canonical column (libs/dis-validation,
    [provenance.py] and [template_types.py]).

    Each mapping-fed model has an explicit five-way partition of its columns;
    [assert_no_drift] checks it against the model in both directions.  A
    [frozenset] is a list used for membership only. *)

From S2P Require Import Prelude Text Values Transform Canonical.

Record ColumnProvenance := mkProvenance {
  consumer_injected : list string;
  db_generated : list string;
  compute_owned : list string;
  mapping_produced : list string;
  enrichment_produced : list string
}.

Definition COMMON_CONSUMER_INJECTED : list string :=
  ["tenant_id"; "store_id"; "mapping_version_id"; "trace_id"; "dis_channel"; "ingest_metadata"].
Definition COMMON_DB_GENERATED : list string := ["id"; "last_updated_at"].

Definition current_position_provenance : ColumnProvenance := mkProvenance
  (COMMON_CONSUMER_INJECTED ++ ["last_source_event_at"])
  COMMON_DB_GENERATED
  ["velocity_7day"; "stock_age_days"; "unit_cost_trend_30day"; "attribute_staleness_map"; "yesterday_retail_price"]
  ["sku_id"; "sku_variant"; "sku_lot_batch"; "barcode"; "product_name"; "product_description";
   "product_category"; "product_sub_category"; "product_department"; "supplier_id"; "packaging_type";
   "sku_size"; "unit_of_measure"; "current_retail_price"; "unit_cost"; "promo_price"; "promo_identifier";
   "stock_qty"; "lead_time_days"; "expiry_date"; "receipt_date"; "expiry_source"; "expiry_confidence";
   "regulatory_flag"; "regulatory_type"; "currency"; "reorder_point"; "sku_status"]
  ["tax_treatment"].

Definition sale_event_provenance : ColumnProvenance := mkProvenance
  (COMMON_CONSUMER_INJECTED ++
   ["source_id"; "source_event_id"; "store_sku_current_position_id"; "related_sale_event_id"; "tax_treatment"])
  COMMON_DB_GENERATED
  []
  ["event_date"; "sku_id"; "sku_variant"; "sku_lot_batch"; "event_subtype"; "source_sale_timestamp";
   "transaction_id"; "line_item_seq"; "quantity"; "unit_retail_price"; "unit_sale_price"; "discount_amount";
   "discount_pct"; "unit_cost"; "promo_identifier"; "tax_amount"; "currency"; "payment_method";
   "customer_token"; "sale_channel"]
  [].

Definition change_event_provenance : ColumnProvenance := mkProvenance
  (COMMON_CONSUMER_INJECTED ++
   ["source_id"; "source_event_id"; "store_sku_current_position_id"; "numeric_value_before";
    "numeric_value_after"; "numeric_change"])
  COMMON_DB_GENERATED
  []
  ["event_date"; "sku_id"; "sku_variant"; "sku_lot_batch"; "event_category"; "event_subtype";
   "source_event_timestamp"; "effective_from"; "effective_until"; "attribute_name"; "value_before";
   "value_after"; "reason_code"; "reason_note"; "change_context"]
  [].

Definition PROVENANCE (m : model) : option ColumnProvenance :=
  match m with
  | StoreSkuCurrentPosition => Some current_position_provenance
  | StoreSkuSaleEvent => Some sale_event_provenance
  | StoreSkuChangeEvent => Some change_event_provenance
  | StoreSkuSignalHistory => None
  end.

Definition NOT_MAPPING_PRODUCED : list model := [StoreSkuSignalHistory].

(** ** Set operations *)

Definition set_and (a b : list string) : list string := filter (fun c => mem c b = true) a.
Definition set_minus (a b : list string) : list string := filter (fun c => mem c b = false) a.

(** [if bad: raise SuiteDriftError(..., column=sorted(bad)[0])] *)
Definition raise_drift (m : string) (bad : list string) : res unit :=
  match py_sorted bad with
  | [] => Ok tt
  | c :: _ => Err (SuiteDriftError (Some m) (Some c))
  end.

(** [for i, first in enumerate(names): for second in names[i + 1:]: ...] *)
Fixpoint check_disjoint (m : string) (sets : list (list string)) : res unit :=
  match sets with
  | [] => Ok tt
  | first :: rest => for_each (fun second => raise_drift m (set_and first second)) rest ≫= fun _ => check_disjoint m rest
  end.

Definition partition_sets (p : ColumnProvenance) : list (list string) :=
  [consumer_injected p; db_generated p; compute_owned p; mapping_produced p; enrichment_produced p].

(** Over the fields of a model, so that generated partitions can be checked too. *)
Definition assert_partition_consistent (name : string) (fields : list string) (p : ColumnProvenance) : res unit :=
  check_disjoint name (partition_sets p) ≫= fun _ =>
  let classified := concat (partition_sets p) in
  raise_drift name (set_minus fields classified) ≫= fun _ =>
  raise_drift name (set_minus classified fields).

Definition assert_no_drift (m : model) : res unit :=
  raise_if (bool_decide (m ∈ NOT_MAPPING_PRODUCED)) (SuiteDriftError (Some (model_name m)) None) ≫= fun _ =>
  match PROVENANCE m with
  | None => Err (SuiteDriftError (Some (model_name m)) None)
  | Some p => assert_partition_consistent (model_name m) (field_names m) p
  end.

(** [PROVENANCE[model]] *)
Definition provenance_of (m : model) : res ColumnProvenance :=
  match PROVENANCE m with Some p => Ok p | None => Err (KeyError (model_name m)) end.

Definition mapping_produced_columns (m : model) : res (list string) :=
  assert_no_drift m ≫= fun _ => p ← provenance_of m; Ok (mapping_produced p).

Definition enrichment_produced_columns (m : model) : res (list string) :=
  assert_no_drift m ≫= fun _ => p ← provenance_of m; Ok (enrichment_produced p).

Definition mandatory_mapping_produced (m : model) (enrichment_guaranteed : list string) : res (list string) :=
  produced ← mapping_produced_columns m;
  Ok (set_minus (set_and (required_names m) produced) enrichment_guaranteed).

(** ** Template types *)

Definition SNAPSHOT : string := "snapshot".
Definition SALES : string := "sales".
Definition INVENTORY_CHANGE : string := "inventory_change".
Definition TEMPLATE_TYPES : list string := [SNAPSHOT; SALES; INVENTORY_CHANGE].

Definition MODEL_BY_TYPE : dict model :=
  [(SNAPSHOT, StoreSkuCurrentPosition); (SALES, StoreSkuSaleEvent); (INVENTORY_CHANGE, StoreSkuChangeEvent)].

Definition is_template_type (v : string) : bool := dict_mem MODEL_BY_TYPE v.

Definition model_for_template_type (t : string) : res model :=
  match dict_get MODEL_BY_TYPE t with Some m => Ok m | None => Err (KeyError t) end.

(** ** What the guard guarantees *)

Lemma set_and_elem a b c : c ∈ set_and a b <-> c ∈ a /\ c ∈ b.
Proof. unfold set_and. rewrite list_elem_of_filter, mem_elem. tauto. Qed.

Lemma set_minus_elem a b c : c ∈ set_minus a b <-> c ∈ a /\ c ∉ b.
Proof. unfold set_minus. rewrite list_elem_of_filter, <- not_true_iff_false, mem_elem. tauto. Qed.

Lemma raise_drift_ok m bad u : raise_drift m bad = Ok u <-> bad = [].
Proof.
  destruct u. unfold raise_drift. pose proof (py_sorted_perm bad) as Hp. destruct (py_sorted bad) as [|c l].
  - apply Permutation_nil_l in Hp. naive_solver.
  - split; [done|]. intros ->. by apply Permutation_nil_r in Hp.
Qed.

Lemma empty_iff (l : list string) : l = [] <-> (forall c, c ∉ l).
Proof.
  split; [intros ->; intros c; apply not_elem_of_nil|]. destruct l as [|c l]; [done|].
  intros H. exfalso. apply (H c). left.
Qed.

(** Two different sets of the partition share no column. *)
Fixpoint disjoint_sets (sets : list (list string)) : Prop :=
  match sets with
  | [] => True
  | s :: rest => (forall c, c ∈ s -> Forall (fun t => c ∉ t) rest) /\ disjoint_sets rest
  end.

Lemma no_overlap_ok m s t u : raise_drift m (set_and s t) = Ok u <-> (forall c, c ∈ s -> c ∉ t).
Proof. rewrite raise_drift_ok, empty_iff. setoid_rewrite set_and_elem. naive_solver. Qed.

Lemma check_disjoint_ok m sets u : check_disjoint m sets = Ok u <-> disjoint_sets sets.
Proof.
  destruct u. induction sets as [|s rest IH]; cbn; [done|]. rewrite bind_ok, <- IH.
  split.
  - intros (u & H1 & H2). split; [|done]. intros c Hc. apply for_each_ok in H1.
    eapply Forall_impl; [exact H1|]. intros t Ht. by apply (no_overlap_ok m s t tt).
  - intros [H1 H2]. exists tt. split; [|done]. apply for_each_ok, Forall_forall. intros t Ht.
    apply no_overlap_ok. intros c Hc. specialize (H1 c Hc). rewrite Forall_forall in H1. auto.
Qed.

Lemma partition_consistent_ok name fields p u :
  assert_partition_consistent name fields p = Ok u <->
  disjoint_sets (partition_sets p) /\ (forall c, c ∈ fields <-> c ∈ concat (partition_sets p)).
Proof.
  unfold assert_partition_consistent. set (classified := concat (partition_sets p)). split.
  - intros H. inv_ok. apply check_disjoint_ok in Hs. apply raise_drift_ok in Hs0, H.
    rewrite empty_iff in Hs0, H. split; [done|]. intros c. split; intros Hc.
    + destruct (decide (c ∈ classified)); [done|]. exfalso. apply (Hs0 c). by apply set_minus_elem.
    + destruct (decide (c ∈ fields)); [done|]. exfalso. apply (H c). by apply set_minus_elem.
  - intros [Hd H]. rewrite (proj2 (check_disjoint_ok name _ tt) Hd). cbn.
    assert (forall a b, (forall c, c ∈ a -> c ∈ b) -> raise_drift name (set_minus a b) = Ok tt) as Hr.
    { intros a b Hab. apply raise_drift_ok, empty_iff. intros c [? Hn]%set_minus_elem. auto. }
    destruct u. rewrite Hr; [|apply H]. cbn. apply Hr, H.
Qed.
