(* ===== verification/Enrichment.v ===== *)
(** Enrichment: the lookup-enrichment step (libs/dis-enrichment, [registry.py],
    [result.py], [engine/apply.py]): registered fields of a table are
    overwritten by values handed in from an internal source. *)

From S2P Require Import Prelude Text Values Transform Polars EngineSpec.

Definition CURRENT_POSITION : string := "store_sku_current_position".

Record EnrichmentField := mkEnrichmentField {
  canonical_field : string;
  source : string;
  source_field : string;
  tables : list string
}.

Definition ENRICHMENT_REGISTRY : list EnrichmentField :=
  [ mkEnrichmentField "currency" "identity_mirror.stores" "currency" [CURRENT_POSITION];
    mkEnrichmentField "tax_treatment" "identity_mirror.stores" "tax_treatment" [CURRENT_POSITION] ].

Definition enrichment_fields (table : string) : list string :=
  map canonical_field (filter (fun f => mem table (tables f) = true) ENRICHMENT_REGISTRY).

Record EnrichmentResult := mkEnrichmentResult {
  enriched_contribution : frame;
  enriched_columns : list string
}.

Section Enrich.
Context `{Polars}.

(** [facts[name]] after the missing-field check. *)
Definition fact (facts : dict value) (name : string) : string * value :=
  (name, default VNone (dict_get facts name)).

Definition apply_enrichment (contribution : frame) (facts : dict value) (table : string) : res EnrichmentResult :=
  let fields := enrichment_fields table in
  let missing := filter (fun name => dict_mem facts name = false) fields in
  raise_if (bool_decide (missing <> [])) (EnrichmentError (Some table)) ≫= fun _ =>
  match fields with
  | [] => Ok (mkEnrichmentResult contribution [])
  | _ :: _ => Ok (mkEnrichmentResult (df_with_literals (map (fact facts) fields) contribution) fields)
  end.
End Enrich.

(** ** Columns after literals *)

Lemma column_cells_set cols s c :
  column_cells (set_column cols s) c = if String.eqb (s_name s) c then s_cells s else column_cells cols c.
Proof. unfold column_cells. rewrite find_set_column. by destruct (String.eqb (s_name s) c). Qed.

Lemma literals_cells ty n (lits : dict value) : forall cols c, dict_wf lits ->
  column_cells (fold_left (with_literal ty n) lits cols) c =
  match dict_get lits c with
  | Some v => replicate n (lit_cell v)
  | None => column_cells cols c
  end.
Proof.
  induction lits as [|[k v] lits IH]; intros cols c Hwf; cbn; [done|].
  apply NoDup_cons in Hwf as [Hn Hwf]. rewrite IH by done. cbn in Hn.
  unfold with_literal. rewrite column_cells_set. cbn. rewrite (String.eqb_sym k c).
  destruct (String.eqb_spec c k) as [->|]; [|done].
  by rewrite (proj2 (dict_get_None lits k) Hn).
Qed.

Lemma literals_frame ty n (lits : dict value) : forall cols,
  frame_of n cols -> frame_of n (fold_left (with_literal ty n) lits cols).
Proof.
  induction lits as [|[k v] lits IH]; intros cols Hf; cbn; [done|]. apply IH.
  unfold with_literal; cbn. set (s := Series k (ty v) (replicate n (lit_cell v))).
  assert (len s = n) as Hl by (unfold len; cbn; by rewrite length_replicate).
  destruct Hf as [Hd Hlen]. destruct (decide (s_name s ∈ map s_name cols)) as [Hin|Hnin].
  - rewrite set_column_existing by done. split.
    + rewrite map_map. erewrite map_ext; [exact Hd|]. intros t.
      destruct (String.eqb_spec (s_name t) (s_name s)); cbn in *; congruence.
    + apply Forall_map. eapply Forall_impl; [exact Hlen|]. intros t Ht. by destruct (String.eqb _ _).
  - rewrite set_column_new by done. split.
    + rewrite map_app. apply NoDup_app. split_and!; [done| |apply NoDup_singleton].
      intros c Hc ->%list_elem_of_singleton. done.
    + apply Forall_app. split; [done|]. by constructor.
Qed.
