(* ===== verification/HotMapping.v ===== *)
(** HotMapping: loading, routing and completeness of the active mapping
    (streaming-consumer, [pipeline/mapping.py]; envelope of [envelope.py]).

    The hot row of a SKU may be created only from a COMPLETE mapping;
    completeness is decided once per mapping from the columns its projection
    guarantees. *)

From S2P Require Import Prelude Text Values Decimals Transform SourceMapping Polars Engine Canonical Provenance Enrichment.

(** ** The [ingress.ready] envelope *)

Record IngressReadyEvent := mkIngressReady {
  ev_trace_id : uuid;
  ev_tenant_id : uuid;
  ev_store_id : uuid;
  ev_source_id : string;
  ev_template_id : uuid;
  ev_bronze_ref : uuid;
  ev_gcs_uri : string;
  ev_received_ts : Z;              (* UTC instant, microseconds *)
  ev_delimiter : ascii;
  ev_replay : bool;
  ev_parent_trace_id : option uuid
}.

(** ** Hot-projection registries *)

Definition EVENT_MODELS : list model := [StoreSkuSaleEvent; StoreSkuChangeEvent].

Definition SALE_HOT_PROJECTION : dict string :=
  [("unit_retail_price", "current_retail_price"); ("unit_cost", "unit_cost");
   ("promo_identifier", "promo_identifier"); ("currency", "currency")].

Definition CHANGE_HOT_PROJECTION : list ((string * string) * string) :=
  [(("PRICE", "current_retail_price"), "current_retail_price"); (("COST", "unit_cost"), "unit_cost");
   (("INVENTORY", "stock_qty"), "stock_qty"); (("CATALOGUE", "product_name"), "product_name");
   (("STATUS", "sku_status"), "sku_status")].

(** [CHANGE_HOT_PROJECTION.get((category, attribute))] *)
Definition change_hot_column (category attribute : string) : option string :=
  match list_find (fun '((c, a), _) => c = category /\ a = attribute) CHANGE_HOT_PROJECTION with
  | Some (_, (_, hot)) => Some hot
  | None => None
  end.

Definition HOT_REQUIRED_FROM_PROJECTION : res (list string) :=
  mandatory_mapping_produced StoreSkuCurrentPosition (enrichment_fields CURRENT_POSITION).

Definition HOT_CHECK_IMPLICATIONS : list (list string * list string) :=
  [ (["promo_identifier"], ["promo_price"]);
    (["expiry_date"; "expiry_source"; "expiry_confidence"], ["expiry_date"; "expiry_source"; "expiry_confidence"]) ].

Definition subset (a b : list string) : bool := forallb (fun c => mem c b) a.

(** The pinned value when a column is derived as a string constant. *)
Definition constant_derive (m : SourceMapping) (col : string) : option string :=
  match dict_get (derive m) col with
  | Some (g :: _) => if String.eqb (op g) "constant" then dict_get (args g) "value" ≫= as_str else None
  | _ => None
  end.

Definition guaranteed_hot_columns (m : SourceMapping) (target_model : model) : res (list string) :=
  let targets := target_columns m in
  match target_model with
  | StoreSkuCurrentPosition =>
      produced ← mapping_produced_columns StoreSkuCurrentPosition;
      Ok (set_and targets produced ++ enrichment_fields CURRENT_POSITION)
  | StoreSkuSaleEvent => Ok (omap (dict_get SALE_HOT_PROJECTION) targets)
  | _ =>
      match constant_derive m "event_category", constant_derive m "attribute_name" with
      | Some category, Some attribute =>
          match change_hot_column category attribute with Some hot => Ok [hot] | None => Ok [] end
      | _, _ => Ok []
      end
  end.

Definition event_contendable_hot_columns : list string :=
  dict_values SALE_HOT_PROJECTION ++ map snd CHANGE_HOT_PROJECTION.

Definition catalogue_staleness_columns : res (list string) :=
  produced ← mapping_produced_columns StoreSkuCurrentPosition;
  Ok (set_and produced event_contendable_hot_columns).

Definition classify_hot_completeness (m : SourceMapping) (target_model : model) : res bool :=
  guaranteed ← guaranteed_hot_columns m target_model;
  required ← HOT_REQUIRED_FROM_PROJECTION;
  if negb (subset required guaranteed) then Ok false
  else Ok (forallb (fun '(trigger, companion) =>
             match set_and trigger guaranteed with
             | [] => true
             | _ :: _ => subset companion guaranteed
             end) HOT_CHECK_IMPLICATIONS).

Record LoadedMapping := mkLoadedMapping {
  mapping_version_id : Z;
  lm_source : SourceMapping;
  target_model : model;
  hot_complete : bool
}.

(** [[m for m in EVENT_MODELS if targets <= mapping_produced_columns(m)]] *)
Definition matching_models (targets : list string) : res (list model) :=
  flags ← map_res (fun m => produced ← mapping_produced_columns m; Ok (m, subset targets produced)) EVENT_MODELS;
  Ok (map fst (filter (fun '(_, b) => b = true) flags)).

Definition route_target_model (m : SourceMapping) : res model :=
  matches ← matching_models (target_columns m);
  match matches with
  | [x] => Ok x
  | _ => Err (MappingConfigError None)
  end.

(** ** The active mapping *)

Record mapping_row := mkMappingRow {
  row_version_id : Z;
  row_rules : value;
  row_template_type : string;
  row_pre_suite : option string;
  row_post_suite : option string
}.

Section Load.
(** The keyed lookup in [config.source_mappings] (tenant, source, template), and
    pydantic's [SourceMapping.model_validate] on the stored JSON rules. *)
Context (select_active : uuid -> string -> uuid -> res (option mapping_row)).
Context (model_validate : value -> res SourceMapping).

Definition parse_rules (rules : value) : res SourceMapping :=
  match model_validate rules with
  | Err ValidationError => Err (MappingConfigError None)
  | r => r
  end.

Definition load_active_mapping (event : IngressReadyEvent) : res LoadedMapping :=
  found ← select_active (ev_tenant_id event) (ev_source_id event) (ev_template_id event);
  match found with
  | None => Err (MappingConfigError None)
  | Some row =>
      raise_if (match row_pre_suite row, row_post_suite row with None, None => false | _, _ => true end)
               (SuiteDefinitionError None None) ≫= fun _ =>
      m ← parse_rules (row_rules row);
      raise_if (match rename m with [] => true | _ => false end) (MappingConfigError None) ≫= fun _ =>
      target ← (if String.eqb (row_template_type row) SNAPSHOT then Ok StoreSkuCurrentPosition
                else route_target_model m);
      complete ← classify_hot_completeness m target;
      Ok (mkLoadedMapping (row_version_id row) m target complete)
  end.
End Load.

Section Wrap.
Context `{Polars}.

Definition apply_loaded_mapping (loaded : LoadedMapping) (f : frame) : res MappingResult :=
  apply_mapping (lm_source loaded) f.

Definition apply_loaded_enrichment (facts : dict value) (r : MappingResult) : res MappingResult :=
  e ← apply_enrichment (contribution r) facts CURRENT_POSITION;
  Ok (mkMappingResult (enriched_contribution e) (source_row_indices r) (failures r)).
End Wrap.

(** ** Sets of columns *)

Lemma subset_elem a b : subset a b = true <-> (forall c, c ∈ a -> c ∈ b).
Proof.
  unfold subset. rewrite forallb_forall. setoid_rewrite mem_elem.
  split; intros H c Hc; apply H; by apply list_elem_of_In.
Qed.

(** The sets the consumer computes at import, evaluated. *)
Lemma hot_required_value : HOT_REQUIRED_FROM_PROJECTION = Ok ["sku_id"; "product_name"; "current_retail_price"].
Proof. by vm_compute. Qed.

Lemma produced_current_position :
  mapping_produced_columns StoreSkuCurrentPosition = Ok (mapping_produced current_position_provenance).
Proof. by vm_compute. Qed.
Lemma produced_sale : mapping_produced_columns StoreSkuSaleEvent = Ok (mapping_produced sale_event_provenance).
Proof. by vm_compute. Qed.
Lemma produced_change : mapping_produced_columns StoreSkuChangeEvent = Ok (mapping_produced change_event_provenance).
Proof. by vm_compute. Qed.

(** A sale projection reaches the price family only. *)
Lemma sale_projection_image (targets : list string) c :
  c ∈ omap (dict_get SALE_HOT_PROJECTION) targets -> c ∈ dict_values SALE_HOT_PROJECTION.
Proof.
  intros (t & _ & Ht)%list_elem_of_omap. apply dict_get_Some_elem in Ht.
  apply list_elem_of_fmap. by exists (t, c).
Qed.

(** No event mapping can create a hot row: the projections never carry the key. *)
Lemma event_never_complete m tm :
  tm ∈ EVENT_MODELS -> classify_hot_completeness m tm = Ok false.
Proof.
  intros Htm. unfold classify_hot_completeness. rewrite hot_required_value.
  assert (exists g, guaranteed_hot_columns m tm = Ok g /\ "sku_id" ∉ g) as (g & -> & Hg).
  { unfold EVENT_MODELS in Htm. rewrite !elem_of_cons, elem_of_nil in Htm.
    destruct Htm as [->|[->|[]]]; cbn.
    - eexists. split; [done|]. intros Hin%sale_projection_image.
      revert Hin. apply (bool_decide_unpack _). by vm_compute.
    - destruct (constant_derive m "event_category") as [cat|], (constant_derive m "attribute_name") as [attr|];
        try (eexists; split; [done|apply not_elem_of_nil]).
      unfold change_hot_column. destruct (list_find _ CHANGE_HOT_PROJECTION) as [[i [key hot]]|] eqn:Hf;
        eexists; (split; [done|]); [|apply not_elem_of_nil].
      apply list_find_Some in Hf as (Hi & _ & _). apply list_elem_of_lookup_2 in Hi.
      intros <-%list_elem_of_singleton.
      assert ("sku_id" ∈ map snd CHANGE_HOT_PROJECTION) as Hs by (apply list_elem_of_fmap; by exists (key, "sku_id")).
      revert Hs. apply (bool_decide_unpack _). by vm_compute. }
  cbn. assert (mem "sku_id" g = false) as ->; [|done]. apply not_true_iff_false. by rewrite mem_elem.
Qed.

Definition snapshot_complete (targets : list string) : Prop :=
  (forall c, c ∈ ["sku_id"; "product_name"; "current_retail_price"] -> c ∈ targets) /\
  ("promo_identifier" ∈ targets -> "promo_price" ∈ targets) /\
  ("expiry_date" ∈ targets \/ "expiry_source" ∈ targets \/ "expiry_confidence" ∈ targets ->
   "expiry_date" ∈ targets /\ "expiry_source" ∈ targets /\ "expiry_confidence" ∈ targets).

Lemma guaranteed_snapshot m g c :
  guaranteed_hot_columns m StoreSkuCurrentPosition = Ok g ->
  c ∈ mapping_produced current_position_provenance -> c ∉ enrichment_fields CURRENT_POSITION ->
  c ∈ g <-> c ∈ target_columns m.
Proof.
  unfold guaranteed_hot_columns. rewrite produced_current_position. intros [= <-] Hc Hn.
  rewrite elem_of_app, set_and_elem. naive_solver.
Qed.

Lemma nonempty_and a b : set_and a b = [] <-> (forall c, c ∈ a -> c ∉ b).
Proof. rewrite empty_iff. setoid_rewrite set_and_elem. naive_solver. Qed.

Lemma implication_ok trigger companion g :
  match set_and trigger g with [] => true | _ :: _ => subset companion g end = true <->
  ((exists c, c ∈ trigger /\ c ∈ g) -> forall c, c ∈ companion -> c ∈ g).
Proof.
  rewrite <- subset_elem. destruct (set_and trigger g) as [|x l] eqn:Hs.
  - rewrite nonempty_and in Hs. naive_solver.
  - split; [auto|]. intros H. apply H. exists x. apply set_and_elem. rewrite Hs. left.
Qed.

Lemma snapshot_completeness m b :
  classify_hot_completeness m StoreSkuCurrentPosition = Ok b ->
  b = true <-> snapshot_complete (target_columns m).
Proof.
  unfold classify_hot_completeness.
  destruct (guaranteed_hot_columns m StoreSkuCurrentPosition) as [g|e] eqn:Hg; [|done]. cbn [mbind result_bind].
  rewrite hot_required_value. cbn [mbind result_bind].
  assert (forall c, c ∈ ["sku_id"; "product_name"; "current_retail_price"; "promo_identifier"; "promo_price";
                         "expiry_date"; "expiry_source"; "expiry_confidence"] -> c ∈ g <-> c ∈ target_columns m) as He.
  { intros c Hc. apply (guaranteed_snapshot m g c Hg); revert c Hc; apply Forall_forall;
      apply (bool_decide_unpack _); by vm_compute. }
  assert (subset ["sku_id"; "product_name"; "current_retail_price"] g = true <->
          forall c, c ∈ ["sku_id"; "product_name"; "current_retail_price"] -> c ∈ target_columns m) as Hreq.
  { rewrite subset_elem. split; intros H c Hc; apply (He c); try (by apply H); set_solver. }
  unfold snapshot_complete. rewrite <- Hreq. destruct (subset _ g); cbn [negb]; [|intros [= <-]; naive_solver].
  unfold HOT_CHECK_IMPLICATIONS. cbn [forallb]. intros Hb.
  apply (f_equal (fun r => match r with Ok x => x | Err _ => false end)) in Hb. cbn beta iota in Hb.
  rewrite <- Hb. clear Hb. rewrite !andb_true_iff, !implication_ok.
  assert (forall c, c ∈ ["promo_identifier"; "promo_price"; "expiry_date"; "expiry_source"; "expiry_confidence"] ->
            c ∈ g <-> c ∈ target_columns m) as Hg5 by (intros c Hc; apply He; set_solver).
  clear He Hreq Hg. split.
  - intros (Hp & Hx & _). split; [done|]. split.
    + intros Hin. apply Hg5, Hp; [set_solver| |set_solver]. exists "promo_identifier". rewrite Hg5; set_solver.
    + intros Hany. assert (forall c, c ∈ ["expiry_date"; "expiry_source"; "expiry_confidence"] -> c ∈ target_columns m) as Hall.
      { intros c Hc. apply Hg5; [set_solver|]. apply Hx; [|done].
        destruct Hany as [Hin|[Hin|Hin]]; eexists; (rewrite Hg5; [split; [|exact Hin]|]); set_solver. }
      split_and!; apply Hall; set_solver.
  - intros (_ & Hp & Hx). split_and!; [| |done].
    + intros (c & ->%list_elem_of_singleton & Hc) d ->%list_elem_of_singleton.
      apply Hg5, Hp, Hg5; set_solver.
    + intros (c & Hc & Hcg) d Hd. apply Hg5; [set_solver|]. apply Hg5 in Hcg; [|set_solver].
      destruct Hx as (? & ? & ?); [set_solver|]. set_solver.
Qed.

(** Routing picks the one event model that has every target. *)
Lemma route_iff m tm :
  route_target_model m = Ok tm <->
  (tm = StoreSkuSaleEvent /\ subset (target_columns m) (mapping_produced sale_event_provenance) = true /\
   subset (target_columns m) (mapping_produced change_event_provenance) = false) \/
  (tm = StoreSkuChangeEvent /\ subset (target_columns m) (mapping_produced change_event_provenance) = true /\
   subset (target_columns m) (mapping_produced sale_event_provenance) = false).
Proof.
  unfold route_target_model, matching_models, EVENT_MODELS. cbn [map_res].
  rewrite produced_sale, produced_change. cbn [mbind result_bind].
  destruct (subset (target_columns m) (mapping_produced sale_event_provenance)) eqn:H1,
           (subset (target_columns m) (mapping_produced change_event_provenance)) eqn:H2;
    cbn; naive_solver.
Qed.

(** ** Write-shape normalization

    Streaming-consumer [pipeline/normalize.py], with the bronze metadata of [pipeline/fetch.py]):
    contribution rows become event rows with the columns the consumer injects
    and the hot columns each row asserts. *)

(** Serialization and hashing (orjson and hashlib).  The supply of fresh row ids
    is an argument of the functions that use it: [fresh n] is the n-th id drawn. *)
Class Codec := {
  orjson_dumps : value -> string;       (* OPT_SORT_KEYS, default=str *)
  sha256_hex : string -> string
}.

(** [f"{value}"] *)
Definition fmt_value (v : value) : string := py_str v.

(** [payload.get(k)] *)
Definition pget (payload : dict value) (k : string) : value := arg_get payload k VNone.

Definition is_None (v : value) : bool := match v with VNone => true | _ => false end.

Abbreviation NaturalKey := (string * value * value)%type.

Record BronzeMeta := mkBronzeMeta {
  bronze_id : uuid;
  bronze_source_id : string;
  dis_channel : string;
  bronze_gcs_uri : string;
  received_at : Z;
  bronze_row_count : option Z
}.

Record EventRow := mkEventRow {
  params : dict value;
  source_event_id : string;
  event_ts : Z;
  natural_key : NaturalKey;
  hot_contributions : dict value;
  payload : dict value;
  row_hash : string;
  chunk_row_index : nat
}.

Definition NUMERIC_CATEGORIES : list string := ["INVENTORY"; "PRICE"; "COST"].

Definition derive_source_event_id (pl : dict value) (target : model) (bronze_ref : uuid) (index : nat) : string :=
  let fallback := bronze_ref +:+ ":" +:+ pretty index in
  if decide (target = StoreSkuSaleEvent) then
    let transaction_id := pget pl "transaction_id" in
    let line_item_seq := pget pl "line_item_seq" in
    if negb (is_None transaction_id) && negb (is_None line_item_seq)
    then fmt_value transaction_id +:+ ":" +:+ fmt_value line_item_seq
    else fallback
  else fallback.

Definition as_decimal (v : value) : value :=
  match v with
  | VNone => VNone
  | VDecimal _ _ => v
  | _ => default VNone (py_decimal (py_str v))
  end.

(** [category in _NUMERIC_CATEGORIES] for a category of any type. *)
Definition numeric_category (category : value) : bool :=
  match category with VStr c => mem c NUMERIC_CATEGORIES | _ => false end.

Definition numeric_change (category before after : value) : value :=
  match category, after, before with
  | VStr "INVENTORY", VDecimal a sa, VDecimal b sb => dec_sub (a, sa) (b, sb)
  | _, _, _ => VNone
  end.

Definition build_hot_contributions (pl : dict value) (is_sale : bool) : dict value :=
  if is_sale then
    omap (fun '(evt, hot) => if is_None (pget pl evt) then None else Some (hot, pget pl evt)) SALE_HOT_PROJECTION
  else
    match pget pl "event_category", pget pl "attribute_name" with
    | VStr category, VStr attribute =>
        match change_hot_column category attribute with
        | None => []
        | Some hot_column =>
            let v := pget pl "value_after" in
            let v := if mem category NUMERIC_CATEGORIES then as_decimal v else v in
            if is_None v then [] else [(hot_column, v)]
        end
    | _, _ => []
    end.

Section Build.
Context `{Polars, Codec}.

Definition canonical_row_hash (pl : dict value) : string := sha256_hex (orjson_dumps (VDict pl)).

Definition jsonb_param (v : value) : value :=
  match v with VNone => VNone | _ => VStr (orjson_dumps v) end.

(** [for c in (...): if c in params: params[c] = jsonb_param(params[c])] *)
Definition serialize_jsonb (ps : dict value) (cols : list string) : dict value :=
  fold_left (fun ps c => match dict_get ps c with Some v => dict_set ps c (jsonb_param v) | None => ps end) cols ps.

Definition populate_change_shortcuts (ps pl : dict value) : dict value :=
  let category := pget pl "event_category" in
  let numeric := numeric_category category in
  let before := if numeric then as_decimal (pget pl "value_before") else VNone in
  let after := if numeric then as_decimal (pget pl "value_after") else VNone in
  let ps := dict_set ps "numeric_value_before" before in
  let ps := dict_set ps "numeric_value_after" after in
  let ps := dict_set ps "numeric_change" (numeric_change category before after) in
  serialize_jsonb ps ["value_before"; "value_after"; "change_context"].

(** The columns the consumer injects into every event row. *)
Definition injected_params (event : IngressReadyEvent) (bronze : BronzeMeta) (loaded : LoadedMapping)
    (sid : string) (index : nat) (fresh : uuid) : dict value :=
  [ ("id", VStr fresh); ("tenant_id", VStr (ev_tenant_id event)); ("store_id", VStr (ev_store_id event));
    ("source_id", VStr (ev_source_id event)); ("source_event_id", VStr sid);
    ("mapping_version_id", VInt (mapping_version_id loaded)); ("trace_id", VStr (ev_trace_id event));
    ("dis_channel", VStr (dis_channel bronze));
    ("ingest_metadata",
     jsonb_param (VDict [("dis_received_timestamp", VStr (datetime_iso (ev_received_ts event)));
                         ("csv_row_num", VInt (Z.of_nat index))])) ].

Definition build_event_row (event : IngressReadyEvent) (bronze : BronzeMeta) (loaded : LoadedMapping)
    (tax_treatment : option string) (fresh : uuid) (pl : dict value) (index : nat) : res EventRow :=
  let is_sale := bool_decide (target_model loaded = StoreSkuSaleEvent) in
  let event_ts_column := if is_sale then "source_sale_timestamp" else "source_event_timestamp" in
  ts ← arg pl event_ts_column;
  match ts with
  | VDatetime us =>
      sku ← arg pl "sku_id";
      let sid := derive_source_event_id pl (target_model loaded) (ev_bronze_ref event) index in
      let ps := dict_update pl (injected_params event bronze loaded sid index fresh) in
      let ps := if is_sale
                then dict_set ps "tax_treatment" (match tax_treatment with Some t => VStr t | None => VNone end)
                else populate_change_shortcuts ps pl in
      Ok (mkEventRow ps sid us (py_str sku, pget pl "sku_variant", pget pl "sku_lot_batch")
            (build_hot_contributions pl is_sale) pl (canonical_row_hash pl) index)
  | _ => Err TypeError
  end.

(** [zip(rows, result.source_row_indices, strict=True)] *)
Fixpoint build_rows (event : IngressReadyEvent) (bronze : BronzeMeta) (loaded : LoadedMapping)
    (tax_treatment : option string) (fresh : nat -> uuid) (n : nat) (rows : list (dict value)) (indices : list nat) : res (list EventRow) :=
  match rows, indices with
  | [], [] => Ok []
  | row :: rows', i :: indices' =>
      r ← build_event_row event bronze loaded tax_treatment (fresh n) row i;
      rs ← build_rows event bronze loaded tax_treatment fresh (S n) rows' indices';
      Ok (r :: rs)
  | _, _ => Err ValueError
  end.

Definition build_event_rows (event : IngressReadyEvent) (bronze : BronzeMeta) (loaded : LoadedMapping)
    (result : MappingResult) (tax_treatment : option string) (fresh : nat -> uuid) : res (list EventRow) :=
  build_rows event bronze loaded tax_treatment fresh 0 (df_to_dicts (contribution result)) (source_row_indices result).
End Build.

(** ** Properties of the dedup key and of the projections *)
