(* ===== verification/Sink.v ===== *)
(** Sink: the canonical dual-write (streaming-consumer, [sinks/canonical.py]).

    The database state is the hot table and the event tables.  Each SQL statement
    of the source is the function on tables it denotes; a batch runs in one
    transaction ([txn]): its writes are all kept or all rolled back.  What the
    database itself decides is a parameter: which rows its constraints accept,
    and which prior event rows the duplicate query returns. *)

From S2P Require Import Prelude Text Values Decimals Transform SourceMapping Polars Engine.
From S2P Require Import Canonical Provenance Enrichment HotMapping.

(** ** Sink resolution *)

Definition NAMESPACE_BY_VERTICAL : dict string := [("retail", "canonical")].

Definition TABLE_BY_TEMPLATE_TYPE : dict string :=
  [(SNAPSHOT, "store_sku_current_position"); (SALES, "store_sku_sale_events");
   (INVENTORY_CHANGE, "store_sku_change_events")].

Definition find_model (inverse : list (model * string)) (m : model) : option string :=
  match list_find (fun '(x, _) => x = m) inverse with Some (_, (_, t)) => Some t | None => None end.

(** Inversion of a type-to-model table, refusing a model that appears twice. *)
Definition invert_model_by_type (table : dict model) : res (list (model * string)) :=
  inverse ← fold_res (fun inverse '(template_type, m) =>
              match find_model inverse m with
              | Some _ => Err (SinkResolutionError None (Some template_type))
              | None => Ok (inverse ++ [(m, template_type)])
              end) [] table;
  raise_if (negb (length inverse =? length table)) (SinkResolutionError None None) ≫= fun _ => Ok inverse.

Definition TEMPLATE_TYPE_BY_MODEL : res (list (model * string)) := invert_model_by_type MODEL_BY_TYPE.

Definition EVENT_TS_COLUMN (m : model) : option string :=
  match m with
  | StoreSkuSaleEvent => Some "source_sale_timestamp"
  | StoreSkuChangeEvent => Some "source_event_timestamp"
  | _ => None
  end.

Definition resolve_sink (namespaces : dict string) (vertical template_type : string) : res string :=
  match dict_get namespaces vertical with
  | None => Err (SinkResolutionError (Some vertical) None)
  | Some namespace =>
      match dict_get TABLE_BY_TEMPLATE_TYPE template_type with
      | None => Err (SinkResolutionError None (Some template_type))
      | Some basename => Ok (namespace +:+ "." +:+ basename)
      end
  end.

Definition vertical_for_tenant (tenant_id : uuid) : string := "retail".

(** [_TEMPLATE_TYPE_BY_MODEL[model]] *)
Definition template_type_of (m : model) : res string :=
  inverse ← TEMPLATE_TYPE_BY_MODEL;
  match find_model inverse m with Some t => Ok t | None => Err (KeyError (model_name m)) end.

(** ** Batches and hot groups *)

Definition HOT_NATURAL_KEY_COLS : list string := ["sku_id"; "sku_variant"; "sku_lot_batch"].

Definition event_insert_columns (m : model) : list string :=
  filter (fun name => name <> "last_updated_at") (field_names m).

(** [[rows[i : i + size] for i in range(0, len(rows), size)]]; a step of zero raises. *)
Fixpoint chunks {A} (fuel size : nat) (rows : list A) : list (list A) :=
  match fuel, rows with
  | S fuel', _ :: _ => take size rows :: chunks fuel' size (drop size rows)
  | _, _ => []
  end.

Definition batches_of {A} (rows : list A) (size : nat) : res (list (list A)) :=
  match size with O => Err ValueError | S _ => Ok (chunks (length rows) size rows) end.

Inductive DuplicateKind : Type := DUPLICATE_NOOP | DUPLICATE_OVERWRITTEN.

Record DuplicateHit := mkHit {
  hit_source_event_id : string;
  prior_trace_id : string;
  kind : DuplicateKind;
  hit_row_hash : string;
  hit_row_index : nat
}.

Record WriteReport := mkReport {
  event_rows_written : nat;
  hot_rows_upserted : nat;
  batches : nat;
  duplicates : list DuplicateHit;
  written_to_table : string;
  hot_noops : nat
}.

Record HotGroup := mkGroup {
  g_key : NaturalKey;
  projected : dict value;
  g_last : Z;                     (* last_source_event_at *)
  g_source_event_id : string;
  g_row_index : nat
}.

(** Equality of Python values, as dictionary keys compare. *)
Definition key_value_eqb (a b : value) : bool :=
  match a, b with
  | VNone, VNone => true
  | VStr s, VStr t => String.eqb s t
  | _, _ => false
  end.

Definition natural_key_eqb (a b : NaturalKey) : bool :=
  let '(s, v, l) := a in
  let '(s', v', l') := b in
  String.eqb s s' && key_value_eqb v v' && key_value_eqb l l'.

(** [for column, value in ...: if newer or column not in projected: projected[column] = value] *)
Definition merge_columns (newer : bool) (contrib proj : dict value) : dict value :=
  fold_left (fun proj '(col, v) => if newer || negb (dict_mem proj col) then dict_set proj col v else proj)
    contrib proj.

Definition merge_row (g : HotGroup) (row : EventRow) : HotGroup :=
  let newer := (g_last g <=? event_ts row)%Z in
  let proj := merge_columns newer (hot_contributions row) (projected g) in
  if newer then mkGroup (g_key g) proj (event_ts row) (source_event_id row) (chunk_row_index row)
  else mkGroup (g_key g) proj (g_last g) (g_source_event_id g) (g_row_index g).

Definition new_group (row : EventRow) : HotGroup :=
  mkGroup (natural_key row) (hot_contributions row) (event_ts row) (source_event_id row) (chunk_row_index row).

(** One step of the loop over the batch: the group of the row's key is updated in
    place, or a new one goes last. *)
Fixpoint add_to_groups (groups : list HotGroup) (row : EventRow) : list HotGroup :=
  match groups with
  | [] => [new_group row]
  | g :: gs => if natural_key_eqb (g_key g) (natural_key row) then merge_row g row :: gs
               else g :: add_to_groups gs row
  end.

Definition group_hot (batch : list EventRow) : list HotGroup := fold_left add_to_groups batch [].

(** [v or ""] *)
Definition or_empty (v : value) : string := match v with VStr s => s | _ => "" end.

Definition hot_sort_key (g : HotGroup) : string * string * string :=
  let '(sku_id, sku_variant, sku_lot_batch) := g_key g in (sku_id, or_empty sku_variant, or_empty sku_lot_batch).

(** Tuples of strings compare lexicographically. *)
Definition key_leb (a b : string * string * string) : bool :=
  let '(a1, a2, a3) := a in
  let '(b1, b2, b3) := b in
  if String.eqb a1 b1 then if String.eqb a2 b2 then String.leb a3 b3 else String.leb a2 b2 else String.leb a1 b1.

Definition group_le (g h : HotGroup) : Prop := key_leb (hot_sort_key g) (hot_sort_key h) = true.
Global Instance group_le_dec : RelDecision group_le := fun g h => decide (key_leb (hot_sort_key g) (hot_sort_key h) = true).

(** [sorted(groups, key=hot_sort_key)] *)
Definition sort_groups (groups : list HotGroup) : list HotGroup := merge_sort group_le groups.

(** ** Database state *)

Record db := mkDb {
  hot : list (dict value);
  events : list (string * dict value)       (* table, row *)
}.

(** [COALESCE(v, '')] *)
Definition coalesce (v : value) : string := match v with VStr s => s | _ => "" end.

(** SQL [a = b]: false when either side is NULL. *)
Definition sql_eq (a b : value) : bool := match a, b with VStr s, VStr t => String.eqb s t | _, _ => false end.

(** [_HOT_KEY_MATCH] *)
Definition hot_key_match (ps row : dict value) : bool :=
  sql_eq (pget row "tenant_id") (pget ps "tenant_id") &&
  sql_eq (pget row "store_id") (pget ps "store_id") &&
  sql_eq (pget row "sku_id") (pget ps "sku_id") &&
  String.eqb (coalesce (pget row "sku_variant")) (coalesce (pget ps "sku_variant")) &&
  String.eqb (coalesce (pget row "sku_lot_batch")) (coalesce (pget ps "sku_lot_batch")).

(** [last_source_event_at IS NULL OR :incoming >= last_source_event_at] *)
Definition event_time_wins (ps row : dict value) : bool :=
  match pget row "last_source_event_at", pget ps "last_source_event_at" with
  | VNone, _ => true
  | VDatetime t, VDatetime t' => (t <=? t')%Z
  | _, _ => false
  end.

Definition set_columns (ps : dict value) (cols : list string) (row : dict value) : dict value :=
  fold_left (fun r c => dict_set r c (pget ps c)) cols row.

Definition STAMP_COLUMNS : list string :=
  ["last_source_event_at"; "mapping_version_id"; "trace_id"; "dis_channel"; "ingest_metadata"].

Inductive HotMergeOutcome : Type := written | noop_older | missing.

(** The conditional UPDATE: the rows of the key that lose on time stay. *)
Definition conditional_update (ps : dict value) (cols : list string) (rows : list (dict value)) : list (dict value) :=
  map (fun row => if hot_key_match ps row && event_time_wins ps row then set_columns ps cols row else row) rows.

Definition rowcount (ps : dict value) (rows : list (dict value)) : nat :=
  length (filter (fun row => hot_key_match ps row && event_time_wins ps row = true) rows).

Definition key_exists (ps : dict value) (rows : list (dict value)) : bool := existsb (hot_key_match ps) rows.

(** A transaction: committed on success, rolled back on an exception. *)
Definition txn {A} (body : db -> res (A * db)) (d : db) : res A * db :=
  match body d with
  | Ok (a, d') => (Ok a, d')
  | Err e => (Err e, d)
  end.

Section Writes.
Context `{Polars, Codec}.
(** The constraints of a table (NOT NULL, CHECK, FK, partition exists). *)
Context (accepts : string -> dict value -> bool).
(** The duplicate query over the events of a table, for tenant, store, source and
    keys, with the payload columns: at most one row per key. *)
Context (select_priors : db -> string -> uuid -> uuid -> string -> list string -> list (dict value)).

(** The ids drawn for hot rows. *)
Context (fresh_ids : nat -> uuid).

Definition integrity_error : exn := OtherError "IntegrityError".

(** ** Duplicates *)

(** [prior_by_key]: the last row of each key. *)
Definition prior_by_key (priors : list (dict value)) : dict (dict value) :=
  fold_left (fun acc prior => dict_set acc (py_str (pget prior "source_event_id")) prior) priors [].

Definition last_prior_trace (priors : list (dict value)) : string :=
  match last priors with Some prior => py_str (pget prior "trace_id") | None => "" end.

Definition detect_row (priors : list (dict value)) (payload_columns : list string) (row : EventRow) : option DuplicateHit :=
  match dict_get (prior_by_key priors) (source_event_id row) with
  | None => None
  | Some prior_row =>
      let prior_payload := map (fun c => (c, pget prior_row c)) payload_columns in
      let k := if String.eqb (canonical_row_hash prior_payload) (row_hash row)
               then DUPLICATE_NOOP else DUPLICATE_OVERWRITTEN in
      Some (mkHit (source_event_id row) (last_prior_trace priors) k (row_hash row) (chunk_row_index row))
  end.

Definition detect_duplicates (d : db) (event : IngressReadyEvent) (loaded : LoadedMapping)
    (batch : list EventRow) (table : string) : list DuplicateHit :=
  let priors := select_priors d table (ev_tenant_id event) (ev_store_id event) (ev_source_id event)
                  (map source_event_id batch) in
  omap (detect_row priors (target_columns (lm_source loaded))) batch.

(** ** Hot merge *)

Definition hot_metadata (event : IngressReadyEvent) (g : HotGroup) : value :=
  jsonb_param (VDict
    [ ("source_id", VStr (ev_source_id event)); ("source_event_id", VStr (g_source_event_id g));
      ("source_event_timestamp", VStr (datetime_iso (g_last g)));
      ("dis_received_timestamp", VStr (datetime_iso (ev_received_ts event)));
      ("csv_row_num", VInt (Z.of_nat (g_row_index g))) ]).

Definition hot_params (event : IngressReadyEvent) (loaded : LoadedMapping) (g : HotGroup)
    (channel : string) (tax_treatment : option string) (fresh : uuid) : dict value :=
  let '(sku_id, sku_variant, sku_lot_batch) := g_key g in
  dict_update
    [ ("id", VStr fresh); ("tenant_id", VStr (ev_tenant_id event)); ("store_id", VStr (ev_store_id event));
      ("sku_id", VStr sku_id); ("sku_variant", sku_variant); ("sku_lot_batch", sku_lot_batch);
      ("tax_treatment", match tax_treatment with Some t => VStr t | None => VNone end);
      ("last_source_event_at", VDatetime (g_last g)); ("mapping_version_id", VInt (mapping_version_id loaded));
      ("trace_id", VStr (ev_trace_id event)); ("dis_channel", VStr channel);
      ("ingest_metadata", hot_metadata event g) ]
    (projected g).

Definition update_hot_incomplete_path (ps proj : dict value) (hot_table : string) (d : db)
    : res (HotMergeOutcome * db) :=
  let cols := dict_keys proj ++ STAMP_COLUMNS in
  let hot' := conditional_update ps cols (hot d) in
  raise_if (negb (forallb (accepts hot_table) hot')) integrity_error ≫= fun _ =>
  if 0 <? rowcount ps (hot d) then Ok (written, mkDb hot' (events d))
  else if key_exists ps (hot d) then Ok (noop_older, d) else Ok (missing, d).

Definition insert_columns (proj : dict value) : list string :=
  ["id"; "tenant_id"; "store_id"; "sku_id"; "sku_variant"; "sku_lot_batch"] ++ dict_keys proj ++
  (if dict_mem proj "tax_treatment" then [] else ["tax_treatment"]) ++ STAMP_COLUMNS.

(** The row an INSERT of these columns stores. *)
Definition candidate (ps : dict value) (cols : list string) : dict value := map (fun c => (c, pget ps c)) cols.

(** [INSERT ... ON CONFLICT (key) DO UPDATE ... WHERE]; the constraints are
    checked on the candidate before arbitration. *)
Definition insert_on_conflict_hot_complete_path (ps proj : dict value) (hot_table : string) (d : db)
    : res (HotMergeOutcome * db) :=
  let row := candidate ps (insert_columns proj) in
  raise_if (negb (accepts hot_table row)) integrity_error ≫= fun _ =>
  if key_exists ps (hot d) then
    let hot' := conditional_update ps (dict_keys proj ++ STAMP_COLUMNS) (hot d) in
    raise_if (negb (forallb (accepts hot_table) hot')) integrity_error ≫= fun _ =>
    Ok (written, mkDb hot' (events d))
  else Ok (written, mkDb (hot d ++ [row]) (events d)).

Definition upsert_hot (event : IngressReadyEvent) (loaded : LoadedMapping) (g : HotGroup)
    (channel : string) (tax_treatment : option string) (fresh : uuid) (d : db) : res (HotMergeOutcome * db) :=
  let ps := hot_params event loaded g channel tax_treatment fresh in
  hot_table ← resolve_sink NAMESPACE_BY_VERTICAL (vertical_for_tenant (ev_tenant_id event)) SNAPSHOT;
  if hot_complete loaded
  then insert_on_conflict_hot_complete_path ps (projected g) hot_table d
  else update_hot_incomplete_path ps (projected g) hot_table d.

(** ** Event insert *)

Definition insert_events (table : string) (cols : list string) (batch : list EventRow) (d : db) : res db :=
  let rows := map (fun r => candidate (params r) cols) batch in
  raise_if (negb (forallb (accepts table) rows)) integrity_error ≫= fun _ =>
  Ok (mkDb (hot d) (events d ++ map (pair table) rows)).

(** ** The dual-write *)

Record tally := mkTally { t_duplicates : list DuplicateHit; t_written : nat; t_noops : nat; t_fresh : nat }.

Definition count_outcome (o : HotMergeOutcome) (t : tally) : tally :=
  match o with
  | written => mkTally (t_duplicates t) (S (t_written t)) (t_noops t) (t_fresh t)
  | noop_older => mkTally (t_duplicates t) (t_written t) (S (t_noops t)) (t_fresh t)
  | missing => t
  end.

Definition next_fresh (t : tally) : tally := mkTally (t_duplicates t) (t_written t) (t_noops t) (S (t_fresh t)).
Definition add_duplicates (hits : list DuplicateHit) (t : tally) : tally :=
  mkTally (t_duplicates t ++ hits) (t_written t) (t_noops t) (t_fresh t).

(** The loop over the sorted groups of a batch; collects the misses. *)
Fixpoint merge_groups (event : IngressReadyEvent) (loaded : LoadedMapping) (channel : string)
    (tax_treatment : option string) (groups : list HotGroup) (t : tally) (misses : list HotGroup) (d : db)
    : res (tally * list HotGroup * db) :=
  match groups with
  | [] => Ok (t, misses, d)
  | g :: gs =>
      '(o, d') ← upsert_hot event loaded g channel tax_treatment (fresh_ids (t_fresh t)) d;
      let misses' := match o with missing => misses ++ [g] | _ => misses end in
      merge_groups event loaded channel tax_treatment gs (count_outcome o (next_fresh t)) misses' d'
  end.

Definition batch_body (event : IngressReadyEvent) (loaded : LoadedMapping) (table channel : string)
    (tax_treatment : option string) (cols : list string) (batch : list EventRow) (t : tally) (d : db)
    : res ((tally * list HotGroup) * db) :=
  let groups := sort_groups (group_hot batch) in
  let hits := detect_duplicates d event loaded batch table in
  d1 ← insert_events table cols batch d;
  '(t', misses, d2) ← merge_groups event loaded channel tax_treatment groups (add_duplicates hits t) [] d1;
  Ok ((t', misses), d2).

(** Batch after batch; the state of the committed batches survives an exception. *)
Fixpoint write_batches (event : IngressReadyEvent) (loaded : LoadedMapping) (table channel : string)
    (tax_treatment : option string) (cols : list string) (bs : list (list EventRow)) (t : tally) (d : db)
    : res tally * db :=
  match bs with
  | [] => (Ok t, d)
  | b :: bs' =>
      match txn (batch_body event loaded table channel tax_treatment cols b t) d with
      | (Err e, d') => (Err e, d')
      | (Ok (t', misses), d') =>
          match misses with
          | [] => write_batches event loaded table channel tax_treatment cols bs' t' d'
          | _ :: _ => (Err (HotPositionMissingError (length misses)), d')
          end
      end
  end.

(** The table and columns a chunk is written to. *)
Definition write_target (event : IngressReadyEvent) (loaded : LoadedMapping) : res (string * list string) :=
  tt_ ← template_type_of (target_model loaded);
  table ← resolve_sink NAMESPACE_BY_VERTICAL (vertical_for_tenant (ev_tenant_id event)) tt_;
  match EVENT_TS_COLUMN (target_model loaded) with
  | None => Err (KeyError (model_name (target_model loaded)))
  | Some _ => Ok (table, event_insert_columns (target_model loaded))
  end.

Definition write_chunk (event : IngressReadyEvent) (loaded : LoadedMapping) (rows : list EventRow)
    (channel : string) (tax_treatment : option string) (batch_size : nat) (d : db) : res WriteReport * db :=
  match write_target event loaded, batches_of rows batch_size with
  | Ok (table, cols), Ok bs =>
      match write_batches event loaded table channel tax_treatment cols bs (mkTally [] 0 0 0) d with
      | (Ok t, d') => (Ok (mkReport (length rows) (t_written t) (length bs) (t_duplicates t) table (t_noops t)), d')
      | (Err e, d') => (Err e, d')
      end
  | Err e, _ | _, Err e => (Err e, d)
  end.

(** ** The catalogue write *)

Definition catalogue_group (event : IngressReadyEvent) (produced staleness : list string)
    (pl : dict value) (index : nat) : res HotGroup :=
  let proj := filter (fun '(name, _) => mem name produced && negb (mem name HOT_NATURAL_KEY_COLS) = true) pl in
  let stamp := py_sorted (set_and (dict_keys proj) staleness) in
  let proj' := match stamp with
               | [] => proj
               | _ :: _ => dict_set proj "attribute_staleness_map"
                             (jsonb_param (VDict (map (fun c => (c, VStr (datetime_iso (ev_received_ts event)))) stamp)))
               end in
  sku ← arg pl "sku_id";
  Ok (mkGroup (py_str sku, pget pl "sku_variant", pget pl "sku_lot_batch") proj' (ev_received_ts event)
        (ev_bronze_ref event +:+ ":" +:+ pretty index) index).

Fixpoint catalogue_rows (event : IngressReadyEvent) (produced staleness : list string)
    (rows : list (dict value)) (indices : list nat) : res (list HotGroup) :=
  match rows, indices with
  | [], [] => Ok []
  | row :: rows', i :: indices' =>
      g ← catalogue_group event produced staleness row i;
      gs ← catalogue_rows event produced staleness rows' indices';
      Ok (g :: gs)
  | _, _ => Err ValueError
  end.

Definition catalogue_groups (event : IngressReadyEvent) (result : MappingResult) : res (list HotGroup) :=
  produced ← mapping_produced_columns StoreSkuCurrentPosition;
  staleness ← catalogue_staleness_columns;
  catalogue_rows event (produced ++ enrichment_fields CURRENT_POSITION) staleness
    (df_to_dicts (contribution result)) (source_row_indices result).

Fixpoint catalogue_merge (event : IngressReadyEvent) (loaded : LoadedMapping) (channel hot_table : string)
    (groups : list HotGroup) (n : nat) (d : db) : res (nat * db) :=
  match groups with
  | [] => Ok (n, d)
  | g :: gs =>
      let ps := hot_params event loaded g channel None (fresh_ids n) in
      '(_, d') ← insert_on_conflict_hot_complete_path ps (projected g) hot_table d;
      catalogue_merge event loaded channel hot_table gs (S n) d'
  end.

Fixpoint write_catalogue_batches (event : IngressReadyEvent) (loaded : LoadedMapping) (channel hot_table : string)
    (bs : list (list HotGroup)) (n : nat) (d : db) : res nat * db :=
  match bs with
  | [] => (Ok n, d)
  | b :: bs' =>
      match txn (catalogue_merge event loaded channel hot_table (sort_groups b) n) d with
      | (Ok n', d') => write_catalogue_batches event loaded channel hot_table bs' n' d'
      | (Err e, d') => (Err e, d')
      end
  end.

Definition write_catalogue_chunk (event : IngressReadyEvent) (loaded : LoadedMapping) (result : MappingResult)
    (channel : string) (batch_size : nat) (d : db) : res WriteReport * db :=
  match resolve_sink NAMESPACE_BY_VERTICAL (vertical_for_tenant (ev_tenant_id event)) SNAPSHOT,
        catalogue_groups event result with
  | Ok hot_table, Ok groups =>
      match batches_of groups batch_size with
      | Ok bs =>
          match write_catalogue_batches event loaded channel hot_table bs 0 d with
          | (Ok n, d') => (Ok (mkReport 0 n (length bs) [] hot_table 0), d')
          | (Err e, d') => (Err e, d')
          end
      | Err e => (Err e, d)
      end
  | Err e, _ | _, Err e => (Err e, d)
  end.
End Writes.
