(* ===== verification/SinkProps.v ===== *)
(** SinkProps: lemmas on the canonical dual-write — batches, keys and times of
    the hot table, and how a sequence of writes changes the tables. *)

From S2P Require Import Prelude Text Values Decimals Transform SourceMapping Polars Engine.
From S2P Require Import Canonical Provenance Enrichment HotMapping Sink.

(** ** Batches *)

Lemma chunks_concat {A} size fuel (rows : list A) :
  0 < size -> length rows <= fuel -> concat (chunks fuel size rows) = rows.
Proof.
  intros Hs. revert rows. induction fuel as [|fuel IH]; intros rows Hl; cbn.
  - by destruct rows; cbn in *; [|lia].
  - destruct rows as [|x rows]; [done|]. cbn [concat]. rewrite IH.
    + apply take_drop.
    + rewrite length_drop. cbn in *. lia.
Qed.

Lemma chunks_sizes {A} size fuel (rows : list A) :
  0 < size -> Forall (fun b => 0 < length b <= size) (chunks fuel size rows).
Proof.
  intros Hs. revert rows. induction fuel as [|fuel IH]; intros rows; cbn; [constructor|].
  destruct rows as [|x rows]; [constructor|]. constructor; [|apply IH].
  rewrite length_take. cbn. lia.
Qed.

Lemma batches_of_ok {A} (rows : list A) size bs :
  batches_of rows size = Ok bs ->
  concat bs = rows /\ Forall (fun b => 0 < length b <= size) bs.
Proof.
  destruct size as [|size]; [done|]. intros [= <-]. split; [apply chunks_concat; lia|apply chunks_sizes; lia].
Qed.

(** ** Rows of the hot table *)

Definition KEY_COLUMNS : list string := ["tenant_id"; "store_id"; "sku_id"; "sku_variant"; "sku_lot_batch"].

(** Statements write outside the key. *)
Definition off_key (cols : list string) : Prop := forall c, c ∈ KEY_COLUMNS -> c ∉ cols.

Lemma pget_set (d : dict value) k v c : pget (dict_set d k v) c = if String.eqb c k then v else pget d c.
Proof. unfold pget, arg_get. rewrite dict_get_set. by destruct (String.eqb c k). Qed.

Lemma pget_set_columns ps cols row c :
  pget (set_columns ps cols row) c = if mem c cols then pget ps c else pget row c.
Proof.
  unfold set_columns. revert row. induction cols as [|k cols IH]; intros row; cbn; [done|].
  rewrite IH, pget_set. unfold mem; cbn. destruct (String.eqb_spec c k) as [->|]; cbn; [|done].
  by destruct (existsb _ cols).
Qed.

Lemma pget_set_columns_off ps cols row c : c ∉ cols -> pget (set_columns ps cols row) c = pget row c.
Proof. intros Hc. rewrite pget_set_columns. by rewrite mem_false. Qed.

Lemma pget_set_columns_on ps cols row c : c ∈ cols -> pget (set_columns ps cols row) c = pget ps c.
Proof. intros Hc. rewrite pget_set_columns. by rewrite (proj2 (mem_elem c cols)). Qed.

Lemma key_match_ext ps row row' :
  (forall c, c ∈ KEY_COLUMNS -> pget row' c = pget row c) -> hot_key_match ps row' = hot_key_match ps row.
Proof. intros H. unfold hot_key_match. by rewrite !H by (unfold KEY_COLUMNS; set_solver). Qed.

Lemma key_match_set ps ps' cols row : off_key cols -> hot_key_match ps (set_columns ps' cols row) = hot_key_match ps row.
Proof. intros Ho. apply key_match_ext. intros c Hc. apply pget_set_columns_off. auto. Qed.

(** ** The order of event times *)

(** A time stamp moves forward: NULL, or an earlier or equal instant. *)
Definition last_le (v v' : value) : Prop :=
  match v with
  | VDatetime t => exists t', v' = VDatetime t' /\ (t <= t')%Z
  | _ => True
  end.

Global Instance last_le_refl : Reflexive last_le.
Proof. intros []; cbn; try done. eexists; split; [done|lia]. Qed.
Global Instance last_le_trans : Transitive last_le.
Proof.
  intros a b c. destruct a; cbn; try done. intros (t & -> & H1) (t' & -> & H2). eexists; split; [done|lia].
Qed.

(** A hot row keeps its key and never goes back in time. *)
Definition row_evolves (row row' : dict value) : Prop :=
  (forall c, c ∈ KEY_COLUMNS -> pget row' c = pget row c) /\
  last_le (pget row "last_source_event_at") (pget row' "last_source_event_at").

Global Instance row_evolves_preorder : PreOrder row_evolves.
Proof.
  split.
  - intros row. split; [done|reflexivity].
  - intros a b c [H1 H2] [H3 H4]. split; [|by etrans]. intros k Hk. by rewrite H3, H1.
Qed.

(** Existing rows evolve in place; new rows go last. *)
Definition hot_evolves (h h' : list (dict value)) : Prop := exists new rest, h' = rest ++ new /\ Forall2 row_evolves h rest.

Global Instance hot_evolves_preorder : PreOrder hot_evolves.
Proof.
  split.
  - intros h. exists [], h. rewrite app_nil_r. split; [done|]. apply Forall_Forall2_diag, Forall_true. reflexivity.
  - intros a b c (n1 & r1 & -> & H1) (n2 & r2 & -> & H2).
    apply Forall2_app_inv_l in H2 as (s1 & s2 & Hs1 & Hs2 & ->).
    exists (s2 ++ n2), s1. rewrite app_assoc. split; [done|].
    etrans; [exact H1|exact Hs1].
Qed.

Lemma hot_evolves_same h h' : Forall2 row_evolves h h' -> hot_evolves h h'.
Proof. intros H. exists [], h'. by rewrite app_nil_r. Qed.

Lemma set_columns_evolves ps cols row t :
  off_key cols -> "last_source_event_at" ∈ cols -> pget ps "last_source_event_at" = VDatetime t ->
  event_time_wins ps row = true -> row_evolves row (set_columns ps cols row).
Proof.
  intros Ho Hc Ht Hw. split.
  - intros c Hk. apply pget_set_columns_off. auto.
  - rewrite pget_set_columns_on, Ht by done. unfold event_time_wins in Hw. rewrite Ht in Hw.
    destruct (pget row "last_source_event_at"); cbn; try done. exists t. split; [done|]. by apply Z.leb_le.
Qed.

Lemma conditional_update_evolves ps cols rows t :
  off_key cols -> "last_source_event_at" ∈ cols -> pget ps "last_source_event_at" = VDatetime t ->
  Forall2 row_evolves rows (conditional_update ps cols rows).
Proof.
  intros Ho Hc Ht. unfold conditional_update. induction rows as [|row rows IH]; cbn; constructor; [|done].
  destruct (hot_key_match ps row); cbn; [|reflexivity].
  destruct (event_time_wins ps row) eqn:Hw; [|reflexivity]. by eapply set_columns_evolves.
Qed.

(** ** The natural key is unique *)

Definition same_key (row row' : dict value) : bool := hot_key_match row row'.

(** No two rows of the hot table match each other's key. *)
Fixpoint hot_unique (rows : list (dict value)) : Prop :=
  match rows with
  | [] => True
  | row :: rest => Forall (fun row' => same_key row row' = false) rest /\ hot_unique rest
  end.

Lemma sql_eq_sym a b : sql_eq a b = sql_eq b a.
Proof. destruct a, b; cbn; try done. apply String.eqb_sym. Qed.

Lemma key_match_sym a b : hot_key_match a b = hot_key_match b a.
Proof.
  unfold hot_key_match.
  rewrite (sql_eq_sym (pget b "tenant_id")), (sql_eq_sym (pget b "store_id")), (sql_eq_sym (pget b "sku_id")).
  by rewrite (String.eqb_sym (coalesce (pget b "sku_variant"))), (String.eqb_sym (coalesce (pget b "sku_lot_batch"))).
Qed.

Lemma key_match_ext_l a a' b :
  (forall c, c ∈ KEY_COLUMNS -> pget a' c = pget a c) -> hot_key_match a' b = hot_key_match a b.
Proof. intros H. rewrite (key_match_sym a'), (key_match_sym a). by apply key_match_ext. Qed.

Lemma hot_unique_evolves rows rows' : Forall2 row_evolves rows rows' -> hot_unique rows -> hot_unique rows'.
Proof.
  induction 1 as [|row row' rows rows' [Hr _] Hrs IH]; cbn; [done|]. intros [Hf Hu]. split; [|auto].
  clear IH Hu. induction Hrs as [|x x' l l' [Hx _] Hl IH]; [constructor|].
  apply Forall_cons in Hf as [Hf1 Hf]. constructor; [|auto].
  unfold same_key in *. rewrite <- Hf1. rewrite (key_match_ext_l row row') by done. by apply key_match_ext.
Qed.

Lemma hot_unique_snoc rows row :
  hot_unique rows -> existsb (hot_key_match row) rows = false -> hot_unique (rows ++ [row]).
Proof.
  induction rows as [|r rows IH]; cbn; [intros; by split; [constructor|]|].
  intros [Hf Hu] He. apply orb_false_iff in He as [He1 He]. split; [|by apply IH].
  apply Forall_app. split; [done|]. constructor; [|constructor]. unfold same_key. by rewrite key_match_sym.
Qed.

(** ** Projections leave the key and the time to the consumer *)

Definition clean_projection (proj : dict value) : Prop :=
  forall c, c ∈ "last_source_event_at" :: "id" :: KEY_COLUMNS -> c ∉ dict_keys proj.

Lemma clean_columns proj : clean_projection proj -> off_key (dict_keys proj ++ STAMP_COLUMNS).
Proof.
  intros Hc c Hk. rewrite not_elem_of_app. split; [apply Hc; by do 2 right|].
  revert c Hk. apply Forall_forall, (bool_decide_unpack _). by vm_compute.
Qed.

Lemma stamp_last (proj : dict value) : "last_source_event_at" ∈ dict_keys proj ++ STAMP_COLUMNS.
Proof. apply elem_of_app. right. left. Qed.

Lemma contribution_columns pl is_sale c :
  c ∈ dict_keys (build_hot_contributions pl is_sale) -> c ∈ event_contendable_hot_columns.
Proof.
  unfold event_contendable_hot_columns. rewrite elem_of_app. unfold build_hot_contributions. destruct is_sale.
  - intros ([k v] & -> & Hin)%list_elem_of_fmap. apply list_elem_of_omap in Hin as ([evt hot] & Hin & He).
    left. destruct (is_None _); [done|]. injection He as <- _. apply list_elem_of_fmap. by exists (evt, hot).
  - destruct (pget pl "event_category"); try (intros H; by apply not_elem_of_nil in H).
    destruct (pget pl "attribute_name"); try (intros H; by apply not_elem_of_nil in H).
    unfold change_hot_column. destruct (list_find _ _) as [[i [key hot]]|] eqn:Hf; [|intros H; by apply not_elem_of_nil in H].
    apply list_find_Some in Hf as (Hi & _ & _). apply list_elem_of_lookup_2 in Hi.
    destruct (is_None _); [intros H; by apply not_elem_of_nil in H|]. cbn. intros ->%list_elem_of_singleton.
    right. exact (list_elem_of_fmap_2 snd CHANGE_HOT_PROJECTION (key, hot) Hi).
Qed.

Lemma contribution_clean pl is_sale : clean_projection (build_hot_contributions pl is_sale).
Proof.
  intros c Hc Hin%contribution_columns.
  assert (Forall (fun c => c ∉ event_contendable_hot_columns) ("last_source_event_at" :: "id" :: KEY_COLUMNS)) as Hf
    by (apply (bool_decide_unpack _); by vm_compute).
  rewrite Forall_forall in Hf. by eapply Hf.
Qed.

Lemma pget_update_off (d e : dict value) c : c ∉ dict_keys e -> pget (dict_update d e) c = pget d c.
Proof.
  intros Hc. unfold pget, arg_get. rewrite dict_get_update.
  assert (dict_get (rev e) c = None) as ->; [|done]. apply dict_get_None. unfold dict_keys.
  rewrite map_rev, list_elem_of_In, <- in_rev, <- list_elem_of_In. done.
Qed.

Lemma pget_candidate ps cols c : c ∈ cols -> pget (candidate ps cols) c = pget ps c.
Proof.
  intros Hc. unfold pget at 1, arg_get, candidate. induction cols as [|k cols IH]; [by apply not_elem_of_nil in Hc|].
  cbn. destruct (String.eqb_spec c k) as [->|]; [done|]. apply IH. apply elem_of_cons in Hc. naive_solver.
Qed.

Lemma key_match_candidate ps proj row :
  hot_key_match (candidate ps (insert_columns proj)) row = hot_key_match ps row.
Proof.
  apply key_match_ext_l. intros c Hc. apply pget_candidate. unfold insert_columns.
  rewrite elem_of_app. left. revert c Hc. apply Forall_forall, (bool_decide_unpack _). by vm_compute.
Qed.

Lemma key_exists_candidate ps proj rows :
  existsb (hot_key_match (candidate ps (insert_columns proj))) rows = key_exists ps rows.
Proof.
  unfold key_exists. induction rows as [|row rows IH]; [done|]. cbn [existsb]. by rewrite key_match_candidate, IH.
Qed.

Section Steps.
Context `{Polars, Codec} (accepts : string -> dict value -> bool) (fresh_ids : nat -> uuid).

Section Params.
Context (event : IngressReadyEvent) (loaded : LoadedMapping) (g : HotGroup) (channel : string)
        (tax : option string) (fresh : uuid).
Abbreviation ps := (hot_params event loaded g channel tax fresh).

Lemma hot_params_last : clean_projection (projected g) -> pget ps "last_source_event_at" = VDatetime (g_last g).
Proof.
  intros Hc. unfold hot_params. destruct (g_key g) as [[s v] l].
  rewrite pget_update_off; [done|]. apply Hc. left.
Qed.

(** The key of the statement is the group's key in the event's tenant and store. *)
Lemma hot_params_key c :
  clean_projection (projected g) -> c ∈ KEY_COLUMNS ->
  pget ps c = pget [("tenant_id", VStr (ev_tenant_id event)); ("store_id", VStr (ev_store_id event));
                    ("sku_id", VStr (g_key g).1.1); ("sku_variant", (g_key g).1.2); ("sku_lot_batch", (g_key g).2)] c.
Proof.
  intros Hc Hk. unfold hot_params. destruct (g_key g) as [[s v] l].
  rewrite pget_update_off; [|apply Hc; by do 2 right]. unfold KEY_COLUMNS in Hk.
  rewrite !elem_of_cons, elem_of_nil in Hk. by destruct Hk as [->|[->|[->|[->|[->|[]]]]]].
Qed.
End Params.

(** What one hot merge does to the state, whatever its outcome. *)
Record merge_ok (d d' : db) : Prop := {
  mo_events : events d' = events d;
  mo_hot : hot_evolves (hot d) (hot d');
  mo_unique : hot_unique (hot d) -> hot_unique (hot d')
}.

Global Instance merge_ok_preorder : PreOrder merge_ok.
Proof.
  split.
  - intros d. split; [done|reflexivity|done].
  - intros a b c [] []. split; [congruence|by etrans|auto].
Qed.

Lemma update_merge_ok ps cols d t :
  off_key cols -> "last_source_event_at" ∈ cols -> pget ps "last_source_event_at" = VDatetime t ->
  merge_ok d (mkDb (conditional_update ps cols (hot d)) (events d)).
Proof.
  intros Ho Hl Ht. pose proof (conditional_update_evolves ps cols (hot d) t Ho Hl Ht) as He. split; cbn.
  - done.
  - by apply hot_evolves_same.
  - by apply hot_unique_evolves.
Qed.

Lemma incomplete_merge_ok ps proj table d o d' t :
  clean_projection proj -> pget ps "last_source_event_at" = VDatetime t ->
  update_hot_incomplete_path accepts ps proj table d = Ok (o, d') ->
  merge_ok d d' /\ length (hot d') = length (hot d) /\
  (d' = d \/ hot d' = conditional_update ps (dict_keys proj ++ STAMP_COLUMNS) (hot d)).
Proof.
  intros Hc Ht. unfold update_hot_incomplete_path. intros Hu. inv_ok.
  destruct (0 <? rowcount ps (hot d)).
  - injection Hu as <- <-. cbn. split; [|split; [|by right]].
    + eapply update_merge_ok; [by apply clean_columns|apply stamp_last|exact Ht].
    + unfold conditional_update. by rewrite length_map.
  - destruct (key_exists ps (hot d)); injection Hu as <- <-; (split; [reflexivity|split; [done|by left]]).
Qed.

Lemma complete_merge_ok ps proj table d o d' t :
  clean_projection proj -> pget ps "last_source_event_at" = VDatetime t ->
  insert_on_conflict_hot_complete_path accepts ps proj table d = Ok (o, d') -> merge_ok d d'.
Proof.
  intros Hc Ht. unfold insert_on_conflict_hot_complete_path. intros Hu. inv_ok.
  destruct (key_exists ps (hot d)) eqn:Hk.
  - inv_ok. eapply update_merge_ok; [by apply clean_columns|apply stamp_last|exact Ht].
  - inv_ok. split; cbn; [done| |].
    + exists [candidate ps (insert_columns proj)], (hot d). split; [done|].
      apply Forall_Forall2_diag, Forall_true. reflexivity.
    + intros Hun. apply hot_unique_snoc; [done|]. 
      etrans; [exact (key_exists_candidate ps proj (hot d))|exact Hk].
Qed.

Lemma upsert_merge_ok event loaded g channel tax fresh d o d' :
  clean_projection (projected g) ->
  upsert_hot accepts event loaded g channel tax fresh d = Ok (o, d') ->
  merge_ok d d' /\ (hot_complete loaded = false -> length (hot d') = length (hot d)).
Proof.
  intros Hc. unfold upsert_hot. intros Hu. inv_ok.
  pose proof (hot_params_last event loaded g channel tax fresh Hc) as Ht.
  destruct (hot_complete loaded).
  - split; [|done]. by eapply complete_merge_ok.
  - eapply incomplete_merge_ok in Hu as (? & ? & _); eauto.
Qed.

Lemma merge_groups_ok event loaded channel tax groups : forall t misses d t' misses' d',
  Forall (fun g => clean_projection (projected g)) groups ->
  merge_groups accepts fresh_ids event loaded channel tax groups t misses d = Ok (t', misses', d') ->
  merge_ok d d' /\ (hot_complete loaded = false -> length (hot d') = length (hot d)).
Proof.
  induction groups as [|g groups IH]; intros t misses d t' misses' d' Hc Hm; cbn in Hm; inv_ok.
  - split; [reflexivity|done].
  - destruct a as [o d1]. apply Forall_cons in Hc as [Hg Hc].
    apply upsert_merge_ok in Hs as [H1 L1]; [|done]. apply IH in Hm as [H2 L2]; [|done].
    split; [by etrans|]. intros Hn. rewrite L2, L1; done.
Qed.
End Steps.

(** ** Groups of a batch *)

Lemma fold_set_keys (newer : bool) (contrib proj : dict value) c :
  c ∈ dict_keys (merge_columns newer contrib proj) ->
  c ∈ dict_keys proj \/ c ∈ dict_keys contrib.
Proof.
  unfold merge_columns. revert proj. induction contrib as [|[k v] contrib IH]; intros proj; cbn; [by left|].
  intros Hc%IH. rewrite elem_of_cons. destruct Hc as [Hc|Hc]; [|naive_solver].
  destruct (newer || _); [apply dict_keys_set_elem in Hc|]; naive_solver.
Qed.

Lemma merge_row_clean g row :
  clean_projection (projected g) -> clean_projection (hot_contributions row) -> clean_projection (projected (merge_row g row)).
Proof.
  intros Hg Hr c Hc Hin.
  assert (c ∈ dict_keys (projected g) \/ c ∈ dict_keys (hot_contributions row)) as [?|?].
  { unfold merge_row in Hin. destruct (g_last g <=? event_ts row)%Z; cbn [projected] in Hin; by apply fold_set_keys in Hin. }
  - by eapply Hg.
  - by eapply Hr.
Qed.

Lemma group_hot_clean batch :
  Forall (fun r => clean_projection (hot_contributions r)) batch ->
  Forall (fun g => clean_projection (projected g)) (group_hot batch).
Proof.
  intros Hb. unfold group_hot. assert (forall gs, Forall (fun g => clean_projection (projected g)) gs ->
    Forall (fun g => clean_projection (projected g)) (fold_left add_to_groups batch gs)) as Hgen; [|by apply Hgen].
  induction Hb as [|r batch Hr Hb IH]; intros gs Hgs; cbn; [done|]. apply IH. clear -Hgs Hr.
  induction Hgs as [|g gs Hg Hgs IH]; cbn; [by repeat constructor|].
  destruct (natural_key_eqb (g_key g) (natural_key r)); constructor; auto using merge_row_clean.
Qed.

Lemma sort_groups_perm gs : sort_groups gs ≡ₚ gs.
Proof. apply merge_sort_Permutation. Qed.

Lemma sorted_groups_clean batch :
  Forall (fun r => clean_projection (hot_contributions r)) batch ->
  Forall (fun g => clean_projection (projected g)) (sort_groups (group_hot batch)).
Proof. intros Hb. rewrite sort_groups_perm. by apply group_hot_clean. Qed.

(** ** A chunk, batch by batch *)

Section Chunk.
Context `{Polars, Codec} (accepts : string -> dict value -> bool) (fresh_ids : nat -> uuid).
Context (select_priors : db -> string -> uuid -> uuid -> string -> list string -> list (dict value)).

Definition rows_clean (rows : list EventRow) : Prop := Forall (fun r => clean_projection (hot_contributions r)) rows.

(** The event rows a batch appends. *)
Definition appended (table : string) (cols : list string) (rows : list EventRow) : list (string * dict value) :=
  map (fun r => (table, candidate (params r) cols)) rows.

Lemma insert_events_ok table cols batch d d' :
  insert_events accepts table cols batch d = Ok d' ->
  hot d' = hot d /\ events d' = events d ++ appended table cols batch.
Proof. unfold insert_events. intros Hi. inv_ok. cbn. split; [done|]. unfold appended. by rewrite map_map. Qed.

Lemma batch_body_ok event loaded table channel tax cols batch t d t' misses d' :
  rows_clean batch ->
  batch_body accepts select_priors fresh_ids event loaded table channel tax cols batch t d = Ok ((t', misses), d') ->
  events d' = events d ++ appended table cols batch /\ hot_evolves (hot d) (hot d') /\
  (hot_unique (hot d) -> hot_unique (hot d')) /\
  (hot_complete loaded = false -> length (hot d') = length (hot d)).
Proof.
  intros Hc. unfold batch_body. intros Hb. inv_ok. destruct a0 as [[t1 m1] d2]. inv_ok.
  apply insert_events_ok in Hs as [Hh He]. apply merge_groups_ok in Hs0 as [[E1 E2 E3] L]; [|by apply sorted_groups_clean].
  rewrite E1, He. rewrite Hh in E2, E3, L. done.
Qed.

(** How far a chunk got: [k] whole batches committed, none of the others. *)
Record chunk_progress (table : string) (cols : list string) (bs : list (list EventRow)) (complete : bool)
    (r : res tally) (d d' : db) : Prop := {
  cp_committed : exists k, k <= length bs /\ events d' = events d ++ appended table cols (concat (take k bs)) /\
    (forall t, r = Ok t -> k = length bs) /\ (forall n, r = Err (HotPositionMissingError n) -> 0 < n /\ 0 < k);
  cp_hot : hot_evolves (hot d) (hot d');
  cp_unique : hot_unique (hot d) -> hot_unique (hot d');
  cp_no_insert : complete = false -> length (hot d') = length (hot d)
}.

Lemma merge_groups_no_miss_error event loaded channel tax groups : forall t misses d n,
  merge_groups accepts fresh_ids event loaded channel tax groups t misses d <> Err (HotPositionMissingError n).
Proof.
  induction groups as [|g groups IH]; intros t misses d n; cbn [merge_groups]; [done|].
  destruct (upsert_hot accepts event loaded g channel tax (fresh_ids (t_fresh t)) d) as [[o d1]|e] eqn:Hu;
    cbn [mbind result_bind]; [apply IH|].
  revert Hu. unfold upsert_hot, update_hot_incomplete_path, insert_on_conflict_hot_complete_path.
  destruct (resolve_sink _ _ _) as [table|e'] eqn:Hr; cbn.
  - destruct (hot_complete loaded); unfold raise_if, integrity_error;
      repeat match goal with |- context [if ?b then _ else _] => destruct b; cbn end; congruence.
  - revert Hr. unfold resolve_sink. repeat case_match; congruence.
Qed.

Lemma write_batches_progress event loaded table channel tax cols bs : forall t d r d',
  Forall rows_clean bs ->
  write_batches accepts select_priors fresh_ids event loaded table channel tax cols bs t d = (r, d') ->
  chunk_progress table cols bs (hot_complete loaded) r d d'.
Proof.
  induction bs as [|b bs IH]; intros t d r d' Hc Hw; cbn in Hw.
  - injection Hw as <- <-. split; [|reflexivity|done|done]. exists 0. cbn. rewrite app_nil_r. naive_solver.
  - apply Forall_cons in Hc as [Hb Hc]. unfold txn in Hw.
    destruct (batch_body accepts select_priors fresh_ids event loaded table channel tax cols b t d) as [[[t1 misses] d1]|e] eqn:Hbody.
    + apply batch_body_ok in Hbody as (He & Hh & Hu & Hn); [|done].
      destruct misses as [|g misses].
      * apply IH in Hw as [(k & Hk & Hev & Hok & Hmiss) Hh' Hu' Hn']; [|done]. split.
        -- exists (S k). cbn. split; [lia|]. rewrite Hev, He. unfold appended. rewrite map_app, app_assoc. naive_solver lia.
        -- by etrans.
        -- auto.
        -- intros Hf. rewrite Hn', Hn; done.
      * injection Hw as <- <-. split; [|done|done|done]. exists 1. cbn. rewrite app_nil_r. split; [lia|]. split; [done|].
        split; [done|]. intros n [= <-]. lia.
    + injection Hw as <- <-. split; [|reflexivity|done|done]. exists 0. cbn. rewrite app_nil_r.
      split; [lia|]. split; [done|]. split; [done|]. intros n [= ->].
      exfalso. revert Hbody. unfold batch_body, insert_events, raise_if, integrity_error.
      destruct (negb _); cbn; [congruence|].
      destruct (merge_groups _ _ _ _ _ _ _ _ _ _) as [[[t2 m2] d2]|e] eqn:Hm; cbn; [congruence|].
      intros [= ->]. by eapply merge_groups_no_miss_error.
Qed.
End Chunk.
