(* ===== verification/SinkGroups.v ===== *)
(** SinkGroups: the natural-key groups of a batch.  Every row has a group; a group
    carries the identity, the time and all the columns of its latest row (the
    later row on a tie), and no column that no row of the key asserted.  The
    groups of any batch are merged in one global key order. *)

From S2P Require Import Prelude Text Values Decimals Transform SourceMapping Polars Engine.
From S2P Require Import Canonical Provenance Enrichment HotMapping Sink SinkProps.

(** ** Keys *)

Lemma key_value_eqb_eq a b : key_value_eqb a b = true -> a = b.
Proof. destruct a, b; cbn; try done. by intros ->%String.eqb_eq. Qed.

Lemma natural_key_eqb_eq a b : natural_key_eqb a b = true -> a = b.
Proof.
  destruct a as [[s v] l], b as [[s' v'] l']. cbn. rewrite !andb_true_iff.
  intros [[->%String.eqb_eq ->%key_value_eqb_eq] ->%key_value_eqb_eq]. done.
Qed.

(** ** Columns *)

Lemma merge_columns_newer contrib proj : merge_columns true contrib proj = dict_update proj contrib.
Proof. done. Qed.

Lemma dict_get_rev {A} (d : dict A) c : dict_wf d -> dict_get (rev d) c = dict_get d c.
Proof.
  intros Hd. assert (dict_wf (rev d)) as Hr.
  { unfold dict_wf, dict_keys. rewrite map_rev. eapply NoDup_Permutation_proper; [|exact Hd]. apply Permutation_sym, Permutation_rev. }
  destruct (dict_get d c) as [v|] eqn:Hg.
  - apply dict_get_elem; [done|]. apply dict_get_Some_elem in Hg.
    rewrite list_elem_of_In, <- in_rev, <- list_elem_of_In. done.
  - apply dict_get_None. apply dict_get_None in Hg. unfold dict_keys in *.
    rewrite map_rev, list_elem_of_In, <- in_rev, <- list_elem_of_In. done.
Qed.

Lemma merge_columns_get newer contrib proj c : dict_wf contrib ->
  dict_get (merge_columns newer contrib proj) c =
    match dict_get contrib c, dict_get proj c with
    | Some v, Some w => Some (if newer then v else w)
    | Some v, None => Some v
    | None, w => w
    end.
Proof.
  intros Hc. destruct newer.
  - rewrite merge_columns_newer, dict_get_update, dict_get_rev by done. by destruct (dict_get contrib c), (dict_get proj c).
  - unfold merge_columns. revert proj. induction contrib as [|[k v] contrib IH]; intros proj; cbn -[dict_set dict_mem].
    { by destruct (dict_get proj c). }
    apply NoDup_cons in Hc as [Hk Hc]. rewrite IH by done. unfold dict_mem.
    destruct (String.eqb_spec c k) as [->|Hne].
    + replace (dict_get contrib k) with (@None value) by (symmetry; by apply dict_get_None).
      destruct (dict_get proj k) eqn:Hp; cbn; [done|]. rewrite dict_get_set, String.eqb_refl. done.
    + destruct (dict_get proj k) eqn:Hp; cbn; [done|]. rewrite dict_get_set.
      by destruct (String.eqb_spec c k).
Qed.

(** ** What a group knows of its batch *)

Definition has_key (g : HotGroup) (r : EventRow) : bool := natural_key_eqb (g_key g) (natural_key r).

(** [r], at its place in the batch, is the latest row of the group's key. *)
Record group_of (b : list EventRow) (g : HotGroup) : Prop := {
  go_winner : exists pre r post, b = pre ++ r :: post /\
    natural_key r = g_key g /\ event_ts r = g_last g /\
    source_event_id r = g_source_event_id g /\ chunk_row_index r = g_row_index g /\
    (forall c v, dict_get (hot_contributions r) c = Some v -> dict_get (projected g) c = Some v) /\
    (forall r', r' ∈ pre -> has_key g r' = true -> (event_ts r' <= g_last g)%Z) /\
    (forall r', r' ∈ post -> has_key g r' = true -> (event_ts r' < g_last g)%Z);
  go_columns : forall c v, dict_get (projected g) c = Some v ->
    exists r, r ∈ b /\ natural_key r = g_key g /\ dict_get (hot_contributions r) c = Some v;
  go_covered : forall r c, r ∈ b -> has_key g r = true -> c ∈ dict_keys (hot_contributions r) -> c ∈ dict_keys (projected g)
}.

Lemma new_group_of b r : (forall r', r' ∈ b -> has_key (new_group r) r' = false) -> group_of (b ++ [r]) (new_group r).
Proof.
  intros Hb. split.
  - exists b, r, []. cbn. repeat split; try done.
    + intros r' Hin. by rewrite Hb.
    + intros r' Hin. by apply not_elem_of_nil in Hin.
  - intros c v Hg. exists r. split; [apply elem_of_app; right; left|done].
  - intros r' c [Hin| ->%list_elem_of_singleton]%elem_of_app Hk Hc; [by rewrite Hb in Hk|done].
Qed.

Lemma skip_group_of b r g : has_key g r = false -> group_of b g -> group_of (b ++ [r]) g.
Proof.
  intros Hr [(pre & w & post & -> & Hw & Ht & Hs & Hi & Hp & Hpre & Hpost) Hcols Hcov]. split.
  - exists pre, w, (post ++ [r]). rewrite <- app_assoc. cbn. repeat split; try done.
    intros r' [Hin| ->%list_elem_of_singleton]%elem_of_app Hk; [auto|congruence].
  - intros c v (x & Hx & Hxr)%Hcols. exists x. split; [apply elem_of_app; by left|done].
  - intros r' c [Hin| ->%list_elem_of_singleton]%elem_of_app Hk Hc; [eauto|congruence].
Qed.

Lemma merge_row_key g r : g_key (merge_row g r) = g_key g.
Proof. unfold merge_row. by destruct (_ <=? _)%Z. Qed.

Lemma merge_group_of b r g :
  dict_wf (hot_contributions r) -> has_key g r = true -> group_of b g -> group_of (b ++ [r]) (merge_row g r).
Proof.
  intros Hwf Hr [(pre & w & post & -> & Hw & Ht & Hs & Hi & Hp & Hpre & Hpost) Hcols Hcov].
  pose proof (natural_key_eqb_eq _ _ Hr) as Hkey.
  assert (forall newer c v, dict_get (merge_columns newer (hot_contributions r) (projected g)) c = Some v ->
    exists x, x ∈ (pre ++ w :: post) ++ [r] /\ natural_key x = g_key g /\ dict_get (hot_contributions x) c = Some v) as Hcols'.
  { intros newer c v. rewrite merge_columns_get by done.
    destruct (dict_get (hot_contributions r) c) as [u|] eqn:Hu, (dict_get (projected g) c) as [p|] eqn:Hpc; intros [= <-].
    1: destruct newer.
    1,3: exists r; split; [apply elem_of_app; right; left|by rewrite Hu].
    all: destruct (Hcols _ _ Hpc) as (x & Hx & Hxr); exists x; split; [apply elem_of_app; by left|done]. }
  assert (forall newer r' c, r' ∈ (pre ++ w :: post) ++ [r] -> has_key g r' = true -> c ∈ dict_keys (hot_contributions r') ->
    c ∈ dict_keys (merge_columns newer (hot_contributions r) (projected g))) as Hcov'.
  { intros newer r' c Hin Hk Hc. rewrite <- dict_mem_keys. unfold dict_mem. rewrite merge_columns_get by done.
    apply elem_of_app in Hin as [Hin| ->%list_elem_of_singleton].
    - pose proof (Hcov _ _ Hin Hk Hc) as Hpk. apply dict_mem_keys in Hpk. unfold dict_mem in Hpk.
      by destruct (dict_get (projected g) c), (dict_get (hot_contributions r) c).
    - apply dict_mem_keys in Hc. unfold dict_mem in Hc.
      by destruct (dict_get (projected g) c), (dict_get (hot_contributions r) c). }
  unfold merge_row. destruct (Z.leb_spec (g_last g) (event_ts r)) as [Hle|Hlt]; split; cbn [projected g_key g_last g_source_event_id g_row_index]; eauto.
  - exists (pre ++ w :: post), r, []. repeat split; try done.
    + intros c v Hc. rewrite merge_columns_get, Hc by done. by destruct (dict_get (projected g) c).
    + intros r' [Hin|[->|Hin]%elem_of_cons]%elem_of_app Hk; [specialize (Hpre _ Hin Hk); lia|lia|specialize (Hpost _ Hin Hk); lia].
    + intros r' Hin. by apply not_elem_of_nil in Hin.
  - exists pre, w, (post ++ [r]). rewrite <- app_assoc. repeat split; try done.
    + intros c v Hc. rewrite merge_columns_get, (Hp _ _ Hc) by done. by destruct (dict_get (hot_contributions r) c).
    + intros r' [Hin| ->%list_elem_of_singleton]%elem_of_app Hk; [auto|lia].
Qed.

(** ** The groups of a batch *)

Definition groups_distinct (gs : list HotGroup) : Prop :=
  forall i j g h, gs !! i = Some g -> gs !! j = Some h -> natural_key_eqb (g_key g) (g_key h) = true -> i = j.

Record grouped (b : list EventRow) (gs : list HotGroup) : Prop := {
  gr_of : Forall (group_of b) gs;
  gr_rows : forall r, r ∈ b -> exists g, g ∈ gs /\ g_key g = natural_key r
}.

Lemma add_group_of b r gs :
  dict_wf (hot_contributions r) ->
  (forall x, x ∈ b -> has_key (new_group r) x = true -> exists g, g ∈ gs /\ has_key g r = true) ->
  Forall (group_of b) gs -> groups_distinct gs -> Forall (group_of (b ++ [r])) (add_to_groups gs r).
Proof.
  intros Hwf Hnew Hgs. revert Hnew. induction Hgs as [|g gs Hg Hgs IH]; intros Hnew Hd; cbn.
  - constructor; [|constructor]. apply new_group_of. intros x Hx.
    destruct (has_key (new_group r) x) eqn:Hk; [|done]. destruct (Hnew x Hx Hk) as (g & Hin & _). by apply not_elem_of_nil in Hin.
  - destruct (natural_key_eqb (g_key g) (natural_key r)) eqn:Hk; constructor.
    + by apply merge_group_of.
    + apply Forall_forall. intros h Hh. apply skip_group_of; [|rewrite Forall_forall in Hgs; auto].
      destruct (has_key h r) eqn:Hkh; [|done]. apply list_elem_of_lookup in Hh as [j Hj].
      pose proof (natural_key_eqb_eq _ _ Hkh) as Ekh. rewrite <- Ekh in Hk.
      by specialize (Hd 0 (S j) g h eq_refl Hj Hk).
    + by apply skip_group_of.
    + apply IH.
      * intros x Hx Hkx. destruct (Hnew x Hx Hkx) as (h & [->|Hin]%elem_of_cons & Hh); [unfold has_key in Hh; congruence|eauto].
      * intros i j u v Hu Hv Huv. specialize (Hd (S i) (S j) u v Hu Hv Huv). lia.
Qed.

Lemma add_keys gs r :
  (exists g, g ∈ add_to_groups gs r /\ g_key g = natural_key r) /\
  (forall g, g ∈ gs -> exists h, h ∈ add_to_groups gs r /\ g_key h = g_key g).
Proof.
  induction gs as [|g gs [IH1 IH2]]; cbn.
  - split; [exists (new_group r); split; [left|done]|]. intros g Hin. by apply not_elem_of_nil in Hin.
  - destruct (natural_key_eqb (g_key g) (natural_key r)) eqn:Hk.
    + split.
      * exists (merge_row g r). split; [left|]. rewrite merge_row_key. by apply natural_key_eqb_eq.
      * intros h [->|Hin]%elem_of_cons; [exists (merge_row g r); split; [left|apply merge_row_key]|].
        exists h. split; [by right|done].
    + split.
      * destruct IH1 as (h & Hh & Hk'). exists h. split; [by right|done].
      * intros h [->|Hin]%elem_of_cons; [exists g; split; [left|done]|].
        destruct (IH2 h Hin) as (x & Hx & Hk'). exists x. split; [by right|done].
Qed.

(** The keys after a step: the same, or one new key that matched none. *)
Lemma add_keys_list gs r :
  map g_key (add_to_groups gs r) = map g_key gs \/
  (map g_key (add_to_groups gs r) = map g_key gs ++ [natural_key r] /\
   Forall (fun g => natural_key_eqb (g_key g) (natural_key r) = false) gs).
Proof.
  induction gs as [|g gs IH]; cbn; [by right|].
  destruct (natural_key_eqb (g_key g) (natural_key r)) eqn:Hk.
  - left. cbn. by rewrite merge_row_key.
  - destruct IH as [IH|[IH Hf]]; cbn; rewrite IH; [by left|right]. split; [done|by constructor].
Qed.

Lemma add_distinct gs r : groups_distinct gs -> groups_distinct (add_to_groups gs r).
Proof.
  intros Hd i j g h Hi Hj Hk.
  assert (map g_key (add_to_groups gs r) !! i = Some (g_key g)) as Ki by (rewrite list_lookup_fmap, Hi; done).
  assert (map g_key (add_to_groups gs r) !! j = Some (g_key h)) as Kj by (rewrite list_lookup_fmap, Hj; done).
  destruct (add_keys_list gs r) as [Hs|[Hs Hf]]; rewrite Hs in Ki, Kj.
  - rewrite list_lookup_fmap in Ki, Kj.
    destruct (gs !! i) as [g'|] eqn:Gi; [|done]. destruct (gs !! j) as [h'|] eqn:Gj; [|done].
    injection Ki as Ki. injection Kj as Kj. rewrite <- Ki, <- Kj in Hk. eauto.
  - rewrite lookup_app, list_lookup_fmap, length_map in Ki, Kj.
    assert (forall k x, gs !! k = Some x -> natural_key_eqb (g_key x) (natural_key r) = false) as Hf'.
    { intros k x Hx. rewrite Forall_forall in Hf. apply Hf. by eapply list_elem_of_lookup_2. }
    pose proof (natural_key_eqb_eq _ _ Hk) as Hkeq.
    destruct (gs !! i) as [g'|] eqn:Gi, (gs !! j) as [h'|] eqn:Gj; cbn in Ki, Kj.
    + injection Ki as Ki. injection Kj as Kj. rewrite <- Ki, <- Kj in Hk. eauto.
    + apply list_lookup_singleton_Some in Kj as [Hj' Kj]. injection Ki as Ki. exfalso.
      specialize (Hf' _ _ Gi). rewrite Ki in Hf'. congruence.
    + apply list_lookup_singleton_Some in Ki as [Hi' Ki]. injection Kj as Kj. exfalso.
      specialize (Hf' _ _ Gj). rewrite Kj in Hf'. congruence.
    + apply list_lookup_singleton_Some in Kj as [Hj' _]. apply list_lookup_singleton_Some in Ki as [Hi' _].
      apply lookup_ge_None in Gi. apply lookup_ge_None in Gj. lia.
Qed.

Lemma group_hot_ok b : Forall (fun r => dict_wf (hot_contributions r)) b -> grouped b (group_hot b) /\ groups_distinct (group_hot b).
Proof.
  unfold group_hot. induction b as [|r b IH] using rev_ind; intros Hwf.
  - split; [|intros i j g h Hi; by destruct i]. split; [constructor|].
    intros r Hin. by apply not_elem_of_nil in Hin.
  - apply Forall_app in Hwf as [Hwf [Hr _]%Forall_cons]. destruct (IH Hwf) as [[Hof Hrows] Hd].
    rewrite fold_left_app. cbn [fold_left]. set (gs := fold_left add_to_groups b []) in *. split; [|by apply add_distinct].
    split.
    + apply add_group_of; [done| |done|done]. intros x Hx Hk. destruct (Hrows x Hx) as (g & Hg & Hkg).
      exists g. split; [done|]. unfold has_key in *. cbn in Hk. pose proof (natural_key_eqb_eq _ _ Hk) as E.
      rewrite Hkg, <- E. rewrite <- E in Hk. done.
    + intros x [Hx| ->%list_elem_of_singleton]%elem_of_app; [|apply add_keys].
      destruct (Hrows x Hx) as (g & Hg & Hkg). destruct (proj2 (add_keys gs r) g Hg) as (h & Hh & Hkh).
      exists h. split; [done|congruence].
Qed.

(** ** The order of the merges *)

Lemma str_leb_trans a b c : String.leb a b = true -> String.leb b c = true -> String.leb a c = true.
Proof. apply str_le_trans. Qed.

Global Instance group_le_trans : Transitive group_le.
Proof.
  intros g h k. unfold group_le.
  destruct (hot_sort_key g) as [[a1 a2] a3], (hot_sort_key h) as [[b1 b2] b3], (hot_sort_key k) as [[c1 c2] c3]. cbn.
  repeat match goal with |- context [String.eqb ?x ?y] => destruct (String.eqb_spec x y); subst end;
    try done; intros Hx Hy; try (eapply str_leb_trans; eassumption);
    match goal with n : ?x <> ?y |- _ => exfalso; apply n; apply String.leb_antisym; assumption end.
Qed.

Global Instance group_le_total : Total group_le.
Proof.
  intros g h. unfold group_le. destruct (hot_sort_key g) as [[a1 a2] a3], (hot_sort_key h) as [[b1 b2] b3]. cbn.
  rewrite (String.eqb_sym b1), (String.eqb_sym b2).
  destruct (String.eqb a1 b1); [|apply str_le_total]. destruct (String.eqb a2 b2); apply str_le_total.
Qed.

Lemma group_le_antisym g h : group_le g h -> group_le h g -> hot_sort_key g = hot_sort_key h.
Proof.
  unfold group_le. destruct (hot_sort_key g) as [[a1 a2] a3], (hot_sort_key h) as [[b1 b2] b3]. cbn.
  rewrite (String.eqb_sym b1), (String.eqb_sym b2).
  destruct (String.eqb_spec a1 b1) as [->|]; [destruct (String.eqb_spec a2 b2) as [->|]|];
    intros Hx Hy; pose proof (String.leb_antisym _ _ Hx Hy); congruence.
Qed.

Lemma sort_groups_sorted gs : StronglySorted group_le (sort_groups gs).
Proof. apply StronglySorted_merge_sort; apply _. Qed.

Lemma sorted_lookup {A} (R : A -> A -> Prop) l i j x y :
  StronglySorted R l -> l !! i = Some x -> l !! j = Some y -> i < j -> R x y.
Proof.
  intros Hs. revert i j. induction Hs as [|z l Hs IH Hf]; intros i j Hi Hj Hlt; [by rewrite lookup_nil in Hi|].
  destruct j as [|j]; [lia|]. cbn in Hj. destruct i as [|i].
  - injection Hi as <-. rewrite Forall_forall in Hf. apply Hf. by eapply list_elem_of_lookup_2.
  - apply (IH i j); [done|done|lia].
Qed.

(** Two transactions never merge two keys in opposite orders. *)
Lemma merge_order_compatible gs gs' i j i' j' a b a' b' :
  sort_groups gs !! i = Some a -> sort_groups gs !! j = Some b -> i < j ->
  sort_groups gs' !! i' = Some b' -> sort_groups gs' !! j' = Some a' -> i' < j' ->
  hot_sort_key a = hot_sort_key a' -> hot_sort_key b = hot_sort_key b' -> hot_sort_key a = hot_sort_key b.
Proof.
  intros Hi Hj Hlt Hi' Hj' Hlt' Ha Hb.
  pose proof (sorted_lookup _ _ _ _ _ _ (sort_groups_sorted gs) Hi Hj Hlt) as H1.
  pose proof (sorted_lookup _ _ _ _ _ _ (sort_groups_sorted gs') Hi' Hj' Hlt') as H2.
  apply group_le_antisym; [done|]. unfold group_le in *. by rewrite Hb, Ha.
Qed.
