(* ===== verification/Redelivery.v ===== *)
(** Redelivery: applying the hot updates of a chunk again changes nothing, and a
    chunk that was written has a hot row for every key it carries. *)

From S2P Require Import Prelude Text Values Decimals Transform SourceMapping Polars Engine.
From S2P Require Import Canonical Provenance Enrichment HotMapping Sink SinkProps SinkGroups.

(** ** One row under a sequence of conditional updates *)

(** A conditional update: its parameters and the columns it sets. *)
Definition update : Type := dict value * list string.

Definition upd (u : update) (row : dict value) : dict value :=
  if hot_key_match u.1 row && event_time_wins u.1 row then set_columns u.1 u.2 row else row.

Definition run (us : list update) (row : dict value) : dict value := fold_left (fun r u => upd u r) us row.

(** The value shown by every column. *)
Definition row_equiv (a b : dict value) : Prop := forall c, pget a c = pget b c.

Global Instance row_equiv_equivalence : Equivalence row_equiv.
Proof. split; [intros a c; done|intros a b H c; by rewrite H|intros a b c H1 H2 k; by rewrite H1, H2]. Qed.

Definition time_of (u : update) : value := pget u.1 "last_source_event_at".

(** An update of the sink: off the key, stamping its own event time. *)
Record update_ok (u : update) : Prop := {
  uo_key : off_key u.2;
  uo_last : "last_source_event_at" ∈ u.2;
  uo_time : exists t, time_of u = VDatetime t
}.

(** Unconditional application. *)
Definition force (us : list update) (row : dict value) : dict value :=
  fold_left (fun r u => set_columns u.1 u.2 r) us row.

(** The value the last update that sets a column gives it. *)
Fixpoint last_set (us : list update) (c : string) : option value :=
  match us with
  | [] => None
  | u :: us' => match last_set us' c with
                | Some v => Some v
                | None => if mem c u.2 then Some (pget u.1 c) else None
                end
  end.

Lemma pget_force us row c : pget (force us row) c = match last_set us c with Some v => v | None => pget row c end.
Proof.
  unfold force. revert row. induction us as [|u us IH]; intros row; cbn; [done|]. rewrite IH, pget_set_columns.
  by destruct (last_set us c), (mem c u.2).
Qed.

Lemma force_idem us row : row_equiv (force us (force us row)) (force us row).
Proof. intros c. rewrite !pget_force. by destruct (last_set us c). Qed.

(** Rows are only ever inspected through their columns. *)
Lemma upd_equiv u a b : row_equiv a b -> row_equiv (upd u a) (upd u b).
Proof.
  intros He. unfold upd. rewrite (key_match_ext u.1 b a) by (intros; apply He).
  assert (event_time_wins u.1 a = event_time_wins u.1 b) as -> by (unfold event_time_wins; by rewrite He).
  destruct (_ && _); [|done]. intros c. rewrite !pget_set_columns. by rewrite He.
Qed.

Lemma run_equiv us a b : row_equiv a b -> row_equiv (run us a) (run us b).
Proof.
  unfold run. revert a b. induction us as [|u us IH]; intros a b He; cbn; [done|]. by apply IH, upd_equiv.
Qed.

(** The updates of the key at the latest time [L]. *)
Definition at_time (L : Z) (row : dict value) (u : update) : bool :=
  hot_key_match u.1 row && match time_of u with VDatetime t => (t =? L)%Z | _ => false end.

Definition no_later (L : Z) (row : dict value) (u : update) : Prop :=
  hot_key_match u.1 row = true -> forall t, time_of u = VDatetime t -> (t <= L)%Z.

Lemma at_time_set u L row ps cols : off_key cols -> at_time L (set_columns ps cols row) u = at_time L row u.
Proof. intros Ho. unfold at_time. by rewrite key_match_set. Qed.

Lemma no_later_set u L row ps cols : off_key cols -> no_later L (set_columns ps cols row) u <-> no_later L row u.
Proof. intros Ho. unfold no_later. by rewrite key_match_set. Qed.

(** The updates of time [L], in order. *)
Definition latest (L : Z) (row : dict value) (us : list update) : list update :=
  List.filter (at_time L row) us.

Lemma latest_set L row ps cols us : off_key cols -> latest L (set_columns ps cols row) us = latest L row us.
Proof. intros Ho. apply filter_ext. intros u. by apply at_time_set. Qed.

Lemma at_time_eq L row u t : time_of u = VDatetime t -> at_time L row u = hot_key_match u.1 row && (t =? L)%Z.
Proof. intros Ht. unfold at_time. by rewrite Ht. Qed.

Lemma latest_cons L row u us :
  latest L row (u :: us) = if at_time L row u then u :: latest L row us else latest L row us.
Proof. done. Qed.

(** A row already at [L] takes exactly the updates of time [L]. *)
Lemma run_at_time us row L :
  Forall update_ok us -> Forall (no_later L row) us -> pget row "last_source_event_at" = VDatetime L ->
  run us row = force (latest L row us) row.
Proof.
  intros Hok. revert row. induction Hok as [|u us Hu Hok IH]; intros row Hn Hl; [done|].
  apply Forall_cons in Hn as [Hn1 Hn]. destruct Hu as [Hk Hls (t & Ht)].
  change (run (u :: us) row) with (run us (upd u row)). rewrite latest_cons, (at_time_eq L row u t Ht).
  unfold upd, event_time_wins. rewrite Hl. unfold time_of in Ht. rewrite Ht.
  destruct (hot_key_match u.1 row) eqn:Hm; cbn [andb]; [|by apply IH].
  pose proof (Hn1 Hm t Ht) as Hle. destruct (Z.eqb_spec t L) as [->|Hne].
  - rewrite Z.leb_refl, IH.
    + rewrite latest_set by done. done.
    + eapply Forall_impl; [exact Hn|]. intros v. by rewrite no_later_set.
    + by rewrite pget_set_columns_on.
  - rewrite (proj2 (Z.leb_gt _ _)) by lia. by apply IH.
Qed.

(** Whether an update of its key wins is a comparison of times. *)
Lemma wins_cases u row t L :
  time_of u = VDatetime t ->
  match pget row "last_source_event_at" with VNone => True | VDatetime t0 => (t0 <= L)%Z | _ => False end ->
  event_time_wins u.1 row = true \/ event_time_wins u.1 row = false /\ (t < L)%Z.
Proof.
  intros Ht Hl. unfold event_time_wins. unfold time_of in Ht. rewrite Ht.
  destruct (pget row "last_source_event_at") as [| | | | | | |t0| |]; try done; [by left|].
  destruct (Z.leb_spec t0 t); [by left|right]. split; [done|lia].
Qed.

(** A row not past [L] ends as the updates of time [L] make it. *)
Lemma run_to_time us row L :
  Forall update_ok us -> Forall (no_later L row) us ->
  match pget row "last_source_event_at" with VNone => True | VDatetime t => (t <= L)%Z | _ => False end ->
  latest L row us <> [] -> exists x, run us row = force (latest L row us) x.
Proof.
  intros Hok. revert row. induction Hok as [|u us Hu Hok IH]; intros row Hn Hl Hne; [done|].
  apply Forall_cons in Hn as [Hn1 Hn]. pose proof Hu as [Hk Hls (t & Ht)].
  change (run (u :: us) row) with (run us (upd u row)). revert Hne. rewrite latest_cons, (at_time_eq L row u t Ht).
  pose proof (wins_cases u row t L Ht Hl) as Hw. unfold upd.
  destruct (hot_key_match u.1 row) eqn:Hm; cbn [andb]; [|by apply IH].
  pose proof (Hn1 Hm t Ht) as Hle.
  assert (Forall (no_later L (set_columns u.1 u.2 row)) us) as Hn'.
  { eapply Forall_impl; [exact Hn|]. intros v. by rewrite no_later_set. }
  destruct (Z.eqb_spec t L) as [->|Hne'].
  - intros _. destruct Hw as [->|[_ Hlt]]; [|lia]. exists row.
    rewrite (run_at_time us _ L) by (try done; by rewrite pget_set_columns_on). by rewrite latest_set.
  - intros Hne. destruct Hw as [->|[-> _]]; [|by apply IH].
    rewrite <- (latest_set L row u.1 u.2 us Hk) in *. apply IH; try done.
    rewrite pget_set_columns_on by done. unfold time_of in Ht. by rewrite Ht.
Qed.

(** Updates that never win leave the row alone. *)
Lemma run_losing us row :
  Forall (fun u => hot_key_match u.1 row && event_time_wins u.1 row = false) us -> run us row = row.
Proof.
  unfold run. intros Hf. induction Hf as [|u us Hu Hf IH]; cbn; [done|]. unfold upd at 2. by rewrite Hu.
Qed.

Lemma zmax (l : list Z) : l <> [] -> exists L, L ∈ l /\ forall x, x ∈ l -> (x <= L)%Z.
Proof.
  induction l as [|x l IH]; [done|]. intros _. destruct l as [|y l].
  - exists x. split; [left|]. intros z ->%list_elem_of_singleton. lia.
  - destruct IH as (L & HL & Hmax); [done|]. exists (Z.max x L). split.
    + destruct (Z.max_spec x L) as [[_ ->]|[_ ->]]; [by right|left].
    + intros z. rewrite elem_of_cons. intros [->|Hz]; [lia|]. specialize (Hmax z Hz). lia.
Qed.

Definition instant (v : value) : Z := match v with VDatetime t => t | _ => 0%Z end.

Lemma latest_elem L row us u : u ∈ latest L row us <-> u ∈ us /\ at_time L row u = true.
Proof. unfold latest. by rewrite !list_elem_of_In, filter_In. Qed.

(** The latest time among the updates of the row's key. *)
Lemma max_time (row : dict value) us u0 :
  Forall update_ok us -> u0 ∈ us -> hot_key_match u0.1 row = true ->
  exists L, Forall (no_later L row) us /\ latest L row us <> [].
Proof.
  intros Hok Hin Hm.
  destruct (zmax (map (fun u => instant (time_of u)) (List.filter (fun u : update => hot_key_match u.1 row) us))) as (L & HL & Hmax).
  { intros Hnil%map_eq_nil. assert (u0 ∈ @nil update) as Hx; [|by apply not_elem_of_nil in Hx].
    rewrite <- Hnil. apply list_elem_of_In, filter_In. by rewrite <- list_elem_of_In. }
  rewrite Forall_forall in Hok. exists L. split.
  - apply Forall_forall. intros u Hu Hmu t Ht. apply Hmax, list_elem_of_fmap. exists u. rewrite Ht. split; [done|].
    apply list_elem_of_In, filter_In. by rewrite <- list_elem_of_In.
  - apply list_elem_of_fmap in HL as (u & -> & Hu). apply list_elem_of_In, filter_In in Hu as [Hu Hmu].
    apply list_elem_of_In in Hu. destruct (Hok u Hu) as [_ _ (t & Ht)]. intros Hnil.
    assert (u ∈ @nil update) as Hx; [|by apply not_elem_of_nil in Hx]. rewrite <- Hnil. apply latest_elem.
    split; [done|]. rewrite (at_time_eq _ _ _ t Ht), Hmu, Ht. apply Z.eqb_refl.
Qed.

Lemma run_key_match us row ps : Forall update_ok us -> hot_key_match ps (run us row) = hot_key_match ps row.
Proof.
  intros Hok. revert row. induction Hok as [|u us [Hk _ _] Hok IH]; intros row; [done|].
  change (run (u :: us) row) with (run us (upd u row)). rewrite IH. unfold upd.
  destruct (_ && _); [by apply key_match_set|done].
Qed.

Lemma force_last us row L :
  Forall update_ok us -> us <> [] -> Forall (fun u => time_of u = VDatetime L) us ->
  pget (force us row) "last_source_event_at" = VDatetime L.
Proof.
  intros Hok Hne Hf. rewrite pget_force.
  assert (last_set us "last_source_event_at" = Some (VDatetime L)) as ->; [|done].
  induction Hok as [|u us [_ Hl _] Hok IH]; [done|]. apply Forall_cons in Hf as [Ht Hf]. cbn.
  rewrite (proj2 (mem_elem _ _) Hl). destruct us as [|u' us]; [cbn; by rewrite <- Ht|].
  by rewrite IH.
Qed.

(** Running the updates again shows the same values in every column. *)
Lemma run_idem us row : Forall update_ok us -> row_equiv (run us (run us row)) (run us row).
Proof.
  intros Hok.
  destruct (decide (Forall (fun u => hot_key_match u.1 row && event_time_wins u.1 row = false) us)) as [Hlose|Hwin].
  { by rewrite !(run_losing us row Hlose). }
  apply not_Forall_Exists, Exists_exists in Hwin as (u0 & Hin & Hm0); [|apply _].
  apply not_false_iff_true, andb_true_iff in Hm0 as [Hm0 Hw0].
  destruct (max_time row us u0 Hok Hin Hm0) as (L & Hn & Hne).
  rewrite Forall_forall in Hok. destruct (Hok u0 Hin) as [_ _ (t0 & Ht0)]. rewrite <- Forall_forall in Hok.
  rewrite Forall_forall in Hn. pose proof (Hn u0 Hin Hm0 t0 Ht0) as Hle. rewrite <- Forall_forall in Hn.
  destruct (run_to_time us row L Hok Hn) as [x Hx]; [|done|].
  { unfold event_time_wins in Hw0. unfold time_of in Ht0. rewrite Ht0 in Hw0.
    destruct (pget row "last_source_event_at"); try done. apply Z.leb_le in Hw0. lia. }
  assert (Forall (no_later L (run us row)) us) as Hn'.
  { eapply Forall_impl; [exact Hn|]. unfold no_later. intros u. by rewrite run_key_match. }
  assert (latest L (run us row) us = latest L row us) as Hlat.
  { apply filter_ext. intros u. unfold at_time. by rewrite run_key_match. }
  rewrite (run_at_time us (run us row) L Hok Hn').
  - rewrite Hlat, Hx. apply force_idem.
  - rewrite Hx. apply force_last; [|done|].
    + rewrite Forall_forall in *. intros u [Hu _]%latest_elem. auto.
    + apply Forall_forall. intros u [Hu Hat]%latest_elem. unfold at_time in Hat.
      apply andb_true_iff in Hat as [_ Hat]. destruct (time_of u) eqn:Htu; try done. by apply Z.eqb_eq in Hat as ->.
Qed.

(** ** The updates of a chunk *)

Section ChunkUpdates.
Context `{Polars, Codec} (accepts : string -> dict value -> bool).
Context (select_priors : db -> string -> uuid -> uuid -> string -> list string -> list (dict value)).
Context (event : IngressReadyEvent) (loaded : LoadedMapping) (channel : string) (tax : option string).

Definition group_update (fresh : uuid) (g : HotGroup) : update :=
  (hot_params event loaded g channel tax fresh, dict_keys (projected g) ++ STAMP_COLUMNS).

Lemma group_update_ok fresh g : clean_projection (projected g) -> update_ok (group_update fresh g).
Proof.
  intros Hc. split; cbn [fst snd group_update].
  - by apply clean_columns.
  - apply stamp_last.
  - exists (g_last g). unfold time_of. cbn [fst]. by apply hot_params_last.
Qed.

(** The id drawn for a statement is not among the columns an update sets. *)
Lemma hot_params_fresh g f1 f2 c :
  c <> "id" -> pget (hot_params event loaded g channel tax f1) c = pget (hot_params event loaded g channel tax f2) c.
Proof.
  intros Hc. unfold hot_params. destruct (g_key g) as [[s v] l]. unfold pget, arg_get. rewrite !dict_get_update.
  destruct (dict_get (rev (projected g)) c); [done|]. cbn [dict_get].
  by destruct (String.eqb_spec c "id").
Qed.

Lemma set_columns_ext ps ps' cols row :
  (forall c, c ∈ cols -> pget ps c = pget ps' c) -> set_columns ps cols row = set_columns ps' cols row.
Proof.
  unfold set_columns. revert row. induction cols as [|c cols IH]; intros row Hc; [done|]. cbn.
  rewrite Hc by left. apply IH. intros k Hk. apply Hc. by right.
Qed.

Lemma upd_fresh f1 f2 g row :
  clean_projection (projected g) -> upd (group_update f1 g) row = upd (group_update f2 g) row.
Proof.
  intros Hc. unfold upd, group_update. cbn [fst snd].
  rewrite (key_match_ext_l (hot_params event loaded g channel tax f2) (hot_params event loaded g channel tax f1)).
  2:{ intros c Hk. apply hot_params_fresh. intros ->. revert Hk. apply (bool_decide_unpack _). by vm_compute. }
  unfold event_time_wins. rewrite (hot_params_fresh g f1 f2) by done.
  destruct (_ && _); [|done]. apply set_columns_ext. intros c Hin. apply hot_params_fresh. intros ->.
  apply elem_of_app in Hin as [Hin|Hin].
  - revert Hin. apply Hc. right. left.
  - revert Hin. apply (bool_decide_unpack _). by vm_compute.
Qed.

Lemma conditional_update_upd ps cols rows : conditional_update ps cols rows = map (upd (ps, cols)) rows.
Proof. done. Qed.

Lemma conditional_update_none ps cols rows : rowcount ps rows = 0 -> conditional_update ps cols rows = rows.
Proof.
  unfold rowcount, conditional_update. intros Hr%length_zero_iff_nil. rewrite filter_nil_iff in Hr.
  erewrite map_ext_in; [apply map_id|]. intros row Hin%list_elem_of_In. specialize (Hr row Hin).
  by apply not_true_is_false in Hr as ->.
Qed.

(** On the incomplete path a merge is its conditional update, whatever the outcome. *)
Lemma incomplete_is_update ps proj table d o d' :
  update_hot_incomplete_path accepts ps proj table d = Ok (o, d') ->
  hot d' = map (upd (ps, dict_keys proj ++ STAMP_COLUMNS)) (hot d) /\
  (o <> missing -> key_exists ps (hot d) = true).
Proof.
  unfold update_hot_incomplete_path. intros Hu. inv_ok. rewrite <- conditional_update_upd.
  destruct (Nat.ltb_spec 0 (rowcount ps (hot d))) as [Hlt|Hge].
  - injection Hu as <- <-. split; [done|]. intros _. unfold rowcount in Hlt.
    destruct (filter _ (hot d)) as [|row l] eqn:Hf; [cbn in Hlt; lia|].
    assert (row ∈ row :: l) as Hin by left. rewrite <- Hf in Hin. apply list_elem_of_filter in Hin as [Hm Hin].
    apply andb_true_iff in Hm as [Hm _]. apply existsb_exists. exists row. by rewrite <- list_elem_of_In.
  - rewrite conditional_update_none by lia.
    destruct (key_exists ps (hot d)); injection Hu as <- <-; done.
Qed.

Lemma key_match_refl ps :
  is_Some (as_str (pget ps "tenant_id")) -> is_Some (as_str (pget ps "store_id")) ->
  is_Some (as_str (pget ps "sku_id")) -> hot_key_match ps ps = true.
Proof.
  unfold hot_key_match. intros [t Ht] [s Hs] [k Hk]. rewrite !String.eqb_refl.
  destruct (pget ps "tenant_id"), (pget ps "store_id"), (pget ps "sku_id"); try discriminate. cbn.
  by rewrite !String.eqb_refl.
Qed.

Lemma complete_has_key ps proj table d o d' :
  insert_on_conflict_hot_complete_path accepts ps proj table d = Ok (o, d') ->
  off_key (dict_keys proj ++ STAMP_COLUMNS) -> hot_key_match ps ps = true ->
  key_exists ps (hot d') = true.
Proof.
  unfold insert_on_conflict_hot_complete_path. intros Hu Ho Hself. inv_ok.
  destruct (key_exists ps (hot d)) eqn:Hk; inv_ok; cbn [hot].
  - unfold key_exists in *. apply existsb_exists in Hk as (row & Hin & Hm). apply existsb_exists.
    eexists. split; [unfold conditional_update; apply in_map, Hin|]. cbn.
    destruct (_ && _); [by rewrite key_match_set|done].
  - assert (hot_key_match ps (candidate ps (insert_columns proj)) = true) as Hm
      by (rewrite key_match_sym, key_match_candidate; done).
    unfold key_exists. rewrite existsb_app. apply orb_true_iff. right. apply existsb_exists.
    eexists. split; [by left|]. done.
Qed.

Lemma merge_groups_run fresh_ids groups : forall t misses d t' misses' d',
  hot_complete loaded = false -> Forall (fun g => clean_projection (projected g)) groups ->
  merge_groups accepts fresh_ids event loaded channel tax groups t misses d = Ok (t', misses', d') ->
  hot d' = map (run (map (group_update "") groups)) (hot d).
Proof.
  induction groups as [|g groups IH]; intros t misses d t' misses' d' Hi Hc Hm; cbn [merge_groups] in Hm; inv_ok.
  - symmetry. erewrite map_ext; [apply map_id|]. done.
  - destruct a as [o d1]. apply Forall_cons in Hc as [Hg Hc]. apply IH in Hm; [|done..].
    unfold upsert_hot in Hs. inv_ok. rewrite Hi in Hs. apply incomplete_is_update in Hs as [Hh _].
    rewrite Hm, Hh, map_map. apply map_ext. intros row.
    change (run (map (group_update "") (g :: groups)) row) with
      (run (map (group_update "") groups) (upd (group_update "" g) row)).
    f_equal. by apply (upd_fresh (fresh_ids (t_fresh t)) "" g row).
Qed.

(** The updates of a chunk, batch by batch in their sorted order. *)
Definition chunk_updates (bs : list (list EventRow)) : list update :=
  flat_map (fun b => map (group_update "") (sort_groups (group_hot b))) bs.

Lemma run_app us vs row : run (us ++ vs) row = run vs (run us row).
Proof. unfold run. by rewrite fold_left_app. Qed.

Lemma write_batches_run fresh_ids table cols bs : forall t d t' d',
  hot_complete loaded = false -> Forall rows_clean bs ->
  write_batches accepts select_priors fresh_ids event loaded table channel tax cols bs t d = (Ok t', d') ->
  hot d' = map (run (chunk_updates bs)) (hot d).
Proof.
  induction bs as [|b bs IH]; intros t d t' d' Hi Hc Hw; cbn [write_batches] in Hw.
  - injection Hw as <- <-. symmetry. erewrite map_ext; [apply map_id|]. done.
  - apply Forall_cons in Hc as [Hb Hc]. unfold txn in Hw.
    destruct (batch_body accepts select_priors fresh_ids event loaded table channel tax cols b t d) as [[[t1 [|g misses]] d1]|e] eqn:Hbody; [|done..].
    apply IH in Hw; [|done..]. unfold batch_body in Hbody. inv_ok. destruct a0 as [[t2 m2] d2]. inv_ok.
    apply insert_events_ok in Hs as [Hh _]. apply merge_groups_run in Hs0; [|done|by apply sorted_groups_clean].
    rewrite Hw, Hs0, Hh, map_map. apply map_ext. intros row. cbn [chunk_updates flat_map]. by rewrite run_app.
Qed.

Lemma chunk_updates_ok bs : Forall rows_clean bs -> Forall update_ok (chunk_updates bs).
Proof.
  intros Hc. apply Forall_forall. intros u (b & Hb & Hu)%elem_of_flat_map.
  rewrite Forall_forall in Hc. pose proof (sorted_groups_clean b (Hc b Hb)) as Hg. rewrite Forall_forall in Hg.
  apply list_elem_of_fmap in Hu as (g & -> & Hin). apply group_update_ok. auto.
Qed.
End ChunkUpdates.

(** ** The hot rows of a chunk's keys *)

(** The key of a group or a row, in the event's tenant and store. *)
Definition key_params (event : IngressReadyEvent) (k : NaturalKey) : dict value :=
  [("tenant_id", VStr (ev_tenant_id event)); ("store_id", VStr (ev_store_id event));
   ("sku_id", VStr k.1.1); ("sku_variant", k.1.2); ("sku_lot_batch", k.2)].

(** The hot table holds a row of this key. *)
Definition position_exists (event : IngressReadyEvent) (k : NaturalKey) (h : list (dict value)) : bool :=
  key_exists (key_params event k) h.

Lemma existsb_ext {A} (f g : A -> bool) l : (forall x, f x = g x) -> existsb f l = existsb g l.
Proof. intros Hf. induction l as [|x l IH]; [done|]. cbn. by rewrite Hf, IH. Qed.

Lemma key_exists_evolves ps h h' : hot_evolves h h' -> key_exists ps h = true -> key_exists ps h' = true.
Proof.
  intros (new & rest & -> & Hf) Hk. unfold key_exists. rewrite existsb_app. apply orb_true_iff. left.
  revert Hk. unfold key_exists. induction Hf as [|row row' h rest [Hr _] Hf IH]; [done|].
  cbn. rewrite (key_match_ext ps row row') by done. rewrite !orb_true_iff. intros [?|?]; auto.
Qed.

Lemma key_exists_same ps h h' : hot_evolves h h' -> length h' = length h -> key_exists ps h' = key_exists ps h.
Proof.
  intros (new & rest & -> & Hf) Hl. rewrite length_app in Hl. pose proof (Forall2_length _ _ _ Hf) as Hl'.
  destruct new as [|n new]; [|cbn in Hl; lia]. rewrite app_nil_r. clear Hl Hl'. unfold key_exists.
  induction Hf as [|row row' h rest [Hr _] Hf IH]; [done|]. cbn. by rewrite (key_match_ext ps row row'), IH.
Qed.

Section Positions.
Context `{Polars, Codec} (accepts : string -> dict value -> bool) (fresh_ids : nat -> uuid).
Context (select_priors : db -> string -> uuid -> uuid -> string -> list string -> list (dict value)).
Context (event : IngressReadyEvent) (loaded : LoadedMapping) (channel : string) (tax : option string).

Lemma params_position fresh g h :
  clean_projection (projected g) ->
  key_exists (hot_params event loaded g channel tax fresh) h = position_exists event (g_key g) h.
Proof.
  intros Hc. apply existsb_ext. intros row. apply key_match_ext_l. intros c Hk. by apply hot_params_key.
Qed.

Lemma params_self fresh g :
  clean_projection (projected g) ->
  hot_key_match (hot_params event loaded g channel tax fresh) (hot_params event loaded g channel tax fresh) = true.
Proof.
  intros Hc. apply key_match_refl; rewrite hot_params_key; try done; try (eexists; done);
    unfold KEY_COLUMNS; set_solver.
Qed.

Lemma upsert_position fresh g d o d' :
  clean_projection (projected g) ->
  upsert_hot accepts event loaded g channel tax fresh d = Ok (o, d') ->
  (o = missing -> hot_complete loaded = false /\ position_exists event (g_key g) (hot d) = false) /\
  (o <> missing -> position_exists event (g_key g) (hot d') = true).
Proof.
  intros Hc Hu. pose proof (upsert_merge_ok _ _ _ _ _ _ _ _ _ _ Hc Hu) as [[_ He _] _].
  rewrite <- !(params_position fresh g _ Hc). unfold upsert_hot in Hu. inv_ok. destruct (hot_complete loaded).
  - split.
    + intros ->. exfalso. unfold insert_on_conflict_hot_complete_path in Hu. inv_ok.
      destruct (key_exists _ _); inv_ok; congruence.
    + intros _. eapply complete_has_key; [exact Hu|by apply clean_columns|by apply params_self].
  - pose proof Hu as Hu'. apply incomplete_is_update in Hu' as [_ Hk]. split.
    + intros ->. split; [done|]. unfold update_hot_incomplete_path in Hu. inv_ok.
      destruct (Nat.ltb _ _); [done|]. by destruct (key_exists _ _).
    + intros Ho. eapply key_exists_evolves; eauto.
Qed.

(** A batch without a miss leaves a row for each of its groups. *)
Lemma merge_groups_positions groups : forall t misses d t' misses' d',
  Forall (fun g => clean_projection (projected g)) groups ->
  merge_groups accepts fresh_ids event loaded channel tax groups t misses d = Ok (t', misses', d') ->
  length misses <= length misses' /\
  (length misses' = length misses -> Forall (fun g => position_exists event (g_key g) (hot d') = true) groups).
Proof.
  induction groups as [|g groups IH]; intros t misses d t' misses' d' Hc Hm; cbn [merge_groups] in Hm; inv_ok.
  - split; [done|constructor].
  - destruct a as [o d1]. apply Forall_cons in Hc as [Hg Hc].
    pose proof (merge_groups_ok _ _ _ _ _ _ _ _ _ _ _ _ _ Hc Hm) as [[_ He _] _].
    pose proof (IH _ _ _ _ _ _ Hc Hm) as [Hle Hall]. apply upsert_position in Hs as [_ Hk]; [|done].
    destruct o; cbn in Hle, Hall; rewrite ?length_app in Hle, Hall; cbn in Hle, Hall; (split; [lia|]); intros Hl; try lia;
      (constructor; [eapply key_exists_evolves; [exact He|]; by apply Hk|apply Hall; lia]).
Qed.

(** On the incomplete path the misses are the groups with no row to update. *)
Lemma merge_groups_misses groups : forall t misses d t' misses' d',
  hot_complete loaded = false -> Forall (fun g => clean_projection (projected g)) groups ->
  merge_groups accepts fresh_ids event loaded channel tax groups t misses d = Ok (t', misses', d') ->
  misses' = misses ++ filter (fun g => position_exists event (g_key g) (hot d) = false) groups.
Proof.
  induction groups as [|g groups IH]; intros t misses d t' misses' d' Hi Hc Hm; cbn [merge_groups] in Hm; inv_ok.
  - by rewrite filter_nil, app_nil_r.
  - destruct a as [o d1]. apply Forall_cons in Hc as [Hg Hc]. apply IH in Hm as ->; [|done..].
    pose proof (upsert_merge_ok _ _ _ _ _ _ _ _ _ _ Hg Hs) as [[_ He _] Hl]. specialize (Hl Hi).
    apply upsert_position in Hs as [Hmiss Hk]; [|done].
    rewrite filter_cons. unfold position_exists in *. rewrite (key_exists_same _ _ _ He Hl) in Hk.
    assert (forall l, filter (fun g => key_exists (key_params event (g_key g)) (hot d1) = false) l =
                 filter (fun g => key_exists (key_params event (g_key g)) (hot d) = false) l) as ->.
    { intros l. apply list_filter_iff. intros x. by rewrite (key_exists_same _ _ _ He Hl). }
    destruct o.
    3:{ rewrite decide_True by (by apply Hmiss). by rewrite <- app_assoc. }
    all: rewrite decide_False by (rewrite Hk; done); done.
Qed.

(** A written chunk has a hot row for every row's key. *)
Lemma write_batches_positions table cols bs : forall t d t' d',
  Forall rows_clean bs -> Forall (Forall (fun r => dict_wf (hot_contributions r))) bs ->
  write_batches accepts select_priors fresh_ids event loaded table channel tax cols bs t d = (Ok t', d') ->
  forall r, r ∈ concat bs -> position_exists event (natural_key r) (hot d') = true.
Proof.
  induction bs as [|b bs IH]; intros t d t' d' Hc Hwf Hw r Hr; [by apply not_elem_of_nil in Hr|].
  apply Forall_cons in Hc as [Hb Hc]. apply Forall_cons in Hwf as [Hwb Hwf]. cbn [write_batches] in Hw. unfold txn in Hw.
  destruct (batch_body accepts select_priors fresh_ids event loaded table channel tax cols b t d)
    as [[[t1 [|g misses]] d1]|e] eqn:Hbody; [|done..].
  cbn in Hr. apply elem_of_app in Hr as [Hr|Hr]; [|by eapply IH].
  apply write_batches_progress in Hw as [_ He _ _]; [|done]. eapply key_exists_evolves; [exact He|].
  unfold batch_body in Hbody. inv_ok. destruct a0 as [[t2 m2] d2]. inv_ok.
  apply merge_groups_positions in Hs0 as [_ Hall]; [|by apply sorted_groups_clean]. specialize (Hall eq_refl).
  rewrite sort_groups_perm, Forall_forall in Hall.
  destruct (gr_rows _ _ (proj1 (group_hot_ok b Hwb)) r Hr) as (g & Hg & <-). by apply Hall.
Qed.
End Positions.
