(* ===== verification/SinkTheorems.v ===== *)
(** SinkTheorems: what the consumer promises of the rows it builds and of the
    canonical dual-write. *)

From S2P Require Import Prelude Text Values Decimals Transform SourceMapping Polars Engine EngineProps MappingTheorems.
From S2P Require Import Canonical Provenance Enrichment HotMapping Sink SinkProps SinkGroups Redelivery.

(** ** Rows of a chunk *)

Lemma contribution_wf pl is_sale : dict_wf (build_hot_contributions pl is_sale).
Proof.
  unfold build_hot_contributions. destruct is_sale.
  - unfold SALE_HOT_PROJECTION. cbn [omap list_omap].
    repeat match goal with |- context [is_None ?v] => destruct (is_None v) end;
      unfold dict_wf; apply (bool_decide_unpack _); by vm_compute.
  - destruct (pget pl "event_category"); try apply NoDup_nil_2. destruct (pget pl "attribute_name"); try apply NoDup_nil_2.
    destruct (change_hot_column _ _); [|apply NoDup_nil_2].
    destruct (is_None _); [apply NoDup_nil_2|apply NoDup_singleton].
Qed.

Section Rows.
Context `{Polars, Codec}.

Lemma build_rows_forall (P : EventRow -> Prop) event bronze loaded tax fresh : forall n rows indices built,
  (forall k pl i r, build_event_row event bronze loaded tax (fresh k) pl i = Ok r -> P r) ->
  build_rows event bronze loaded tax fresh n rows indices = Ok built -> Forall P built.
Proof.
  intros n rows. revert n. induction rows as [|row rows IH]; intros n [|i indices] built HP Hb; cbn in Hb; inv_ok.
  - constructor.
  - constructor; [by eapply HP|]. by eapply IH.
Qed.

Lemma build_rows_length event bronze loaded tax fresh : forall n rows indices built,
  build_rows event bronze loaded tax fresh n rows indices = Ok built ->
  length built = length rows /\ map chunk_row_index built = indices.
Proof.
  intros n rows. revert n. induction rows as [|row rows IH]; intros n [|i indices] built Hb; cbn in Hb; inv_ok; [done|].
  destruct (IH _ _ _ Hs0) as [Hl Hi]. cbn. rewrite Hl, Hi. split; [done|]. f_equal.
  unfold build_event_row in Hs. inv_ok. destruct a1; try done. inv_ok. done.
Qed.

Lemma built_row_ok event bronze loaded tax fresh pl i r :
  build_event_row event bronze loaded tax fresh pl i = Ok r ->
  clean_projection (hot_contributions r) /\ dict_wf (hot_contributions r).
Proof.
  unfold build_event_row. intros Hb. inv_ok. destruct a; try done. inv_ok. cbn.
  split; [apply contribution_clean|apply contribution_wf].
Qed.

Lemma built_rows_ok event bronze loaded result tax fresh rows :
  build_event_rows event bronze loaded result tax fresh = Ok rows ->
  rows_clean rows /\ Forall (fun r => dict_wf (hot_contributions r)) rows.
Proof.
  intros Hb. split; eapply build_rows_forall; try exact Hb; intros k pl i r Hr; by apply built_row_ok in Hr as [? ?].
Qed.

Lemma batches_forall {A} (P : A -> Prop) rows n bs :
  batches_of rows n = Ok bs -> Forall P rows -> Forall (Forall P) bs.
Proof.
  intros Hb HP. apply batches_of_ok in Hb as [<- _]. apply Forall_forall. intros b Hin. apply Forall_forall. intros x Hx.
  rewrite Forall_forall in HP. apply HP. apply list_elem_of_In, in_concat. exists b. by rewrite <- !list_elem_of_In.
Qed.

Lemma write_chunk_inv accepts select_priors fresh_ids event loaded rows channel tax size d r d' :
  write_chunk accepts select_priors fresh_ids event loaded rows channel tax size d = (r, d') ->
  (exists e, r = Err e /\ d' = d /\ (write_target event loaded = Err e \/ batches_of rows size = Err e)) \/
  (exists table cols bs rt, write_target event loaded = Ok (table, cols) /\ batches_of rows size = Ok bs /\
     write_batches accepts select_priors fresh_ids event loaded table channel tax cols bs (mkTally [] 0 0 0) d = (rt, d') /\
     r = match rt with
         | Ok t => Ok (mkReport (length rows) (t_written t) (length bs) (t_duplicates t) table (t_noops t))
         | Err e => Err e
         end).
Proof.
  unfold write_chunk. destruct (write_target event loaded) as [[table cols]|e]; [|intros [= <- <-]; left; naive_solver].
  destruct (batches_of rows size) as [bs|e]; [|intros [= <- <-]; left; naive_solver].
  destruct (write_batches _ _ _ _ _ _ _ _ _ _ _ _) as [[t|e] d1] eqn:Hw; intros [= <- <-]; right;
    eexists table, cols, bs, _; naive_solver.
Qed.
End Rows.

(** ** A concrete chunk *)

(** Stand-ins for serialization and hashing, good enough to evaluate. *)
Definition sample_codec : Codec := {| orjson_dumps := py_str; sha256_hex := fun t => t |}.

Definition sample_event : IngressReadyEvent := mkIngressReady
  "0192b3c0-0000-7000-8000-000000000001" "11111111-1111-1111-1111-111111111111" "22222222-2222-2222-2222-222222222222"
  "pos" "33333333-3333-3333-3333-333333333333" "44444444-4444-4444-4444-444444444444" "bronze://chunk.csv"
  1000 "," false None.

Definition sample_bronze : BronzeMeta :=
  mkBronzeMeta (ev_bronze_ref sample_event) "pos" "csv_upload" "bronze://chunk.csv" 1000 (Some 3%Z).

Definition sample_loaded (m : model) (complete : bool) : LoadedMapping := mkLoadedMapping 7 sample_mapping m complete.

(** Change events of one SKU: stock at 10, then two prices at 5 and 7. *)
Definition sample_changes : MappingResult := mkMappingResult
  (Frame [ Series "sku_id" TString (text_cells ["A1"; "A1"; "A1"]);
           Series "event_category" TString (text_cells ["INVENTORY"; "PRICE"; "PRICE"]);
           Series "attribute_name" TString (text_cells ["stock_qty"; "current_retail_price"; "current_retail_price"]);
           Series "value_after" TString (text_cells ["4"; "1"; "2"]);
           Series "source_event_timestamp" (TDatetime "us" (Some "UTC")) [Some (VDatetime 10); Some (VDatetime 5); Some (VDatetime 7)] ])
  [0; 1; 2] [].

Definition sample_rows (fresh : nat -> uuid) : res (list EventRow) :=
  @build_event_rows sample_polars sample_codec sample_event sample_bronze (sample_loaded StoreSkuChangeEvent false)
    sample_changes (Some "INCLUSIVE") fresh.

Definition sample_built (fresh : nat -> uuid) : list EventRow :=
  match sample_rows fresh with Ok rows => rows | Err _ => [] end.

Definition sample_accepts (table : string) (row : dict value) : bool := true.
Definition no_priors (d : db) (table : string) (tenant store : uuid) (source : string) (keys : list string)
    : list (dict value) := [].

(** The position of the SKU before the chunk. *)
Definition sample_db : db := mkDb
  [[("tenant_id", VStr (ev_tenant_id sample_event)); ("store_id", VStr (ev_store_id sample_event)); ("sku_id", VStr "A1");
    ("sku_variant", VNone); ("sku_lot_batch", VNone); ("stock_qty", VDecimal 9 0); ("last_source_event_at", VDatetime 3)]] [].

Definition sample_write (ids : nat -> uuid) (rows : list EventRow) (d : db) : res WriteReport * db :=
  @write_chunk sample_codec sample_accepts no_priors ids sample_event (sample_loaded StoreSkuChangeEvent false) rows
    "csv_upload" (Some "INCLUSIVE") 2 d.

(** ** The dual-write *)

Section DualWrite.
Context `{Polars, Codec} (accepts : string -> dict value -> bool).
Context (select_priors : db -> string -> uuid -> uuid -> string -> list string -> list (dict value)).

(** C3. A chunk is written batch by batch and never partly within a batch.
    Whatever the outcome, the event tables have grown by exactly the rows of a
    prefix of [k] whole batches, in order; every hot row that was there keeps its
    key and its event time never moves back; a hot table with unique keys keeps
    them; and an incomplete mapping inserts no hot row.  On success the prefix is
    the whole chunk, and a miss is raised only after the event rows of the
    missing batch have been committed. *)
Theorem chunk_written_by_batches event bronze loaded result tax fresh rows fresh_ids channel size d r d'
    (Hbuild : build_event_rows event bronze loaded result tax fresh = Ok rows)
    (Hwrite : write_chunk accepts select_priors fresh_ids event loaded rows channel tax size d = (r, d')) :
  (exists e, r = Err e /\ d' = d) \/
  exists table cols bs k,
    write_target event loaded = Ok (table, cols) /\ batches_of rows size = Ok bs /\ concat bs = rows /\
    k <= length bs /\ events d' = events d ++ appended table cols (concat (take k bs)) /\
    hot_evolves (hot d) (hot d') /\ (hot_unique (hot d) -> hot_unique (hot d')) /\
    (hot_complete loaded = false -> length (hot d') = length (hot d)) /\
    (forall report, r = Ok report -> k = length bs /\ event_rows_written report = length rows) /\
    (forall n, r = Err (HotPositionMissingError n) -> 0 < n /\ 0 < k).
Proof.
  apply built_rows_ok in Hbuild as [Hc _].
  apply write_chunk_inv in Hwrite as [(e & -> & -> & _)|(table & cols & bs & rt & Ht & Hb & Hw & ->)]; [left; eauto|].
  right. pose proof (batches_of_ok _ _ _ Hb) as [Hcat _].
  apply write_batches_progress in Hw as [(k & Hk & He & Hok & Hmiss) Hh Hu Hn]; [|by eapply batches_forall].
  exists table, cols, bs, k. repeat (split; [done|]). split.
  - intros report Hr. destruct rt as [t|e]; [|done]. injection Hr as <-. split; [by eapply Hok|done].
  - intros n Hr. destruct rt as [t|e]; [done|]. injection Hr as ->. by apply Hmiss.
Qed.

(** C13. After a chunk was written there is a hot row for the key of every one of
    its rows: a success never hides a position that does not exist. *)
Theorem written_chunk_has_positions event bronze loaded result tax fresh rows fresh_ids channel size d report d'
    (Hbuild : build_event_rows event bronze loaded result tax fresh = Ok rows)
    (Hwrite : write_chunk accepts select_priors fresh_ids event loaded rows channel tax size d = (Ok report, d')) :
  Forall (fun row => position_exists event (natural_key row) (hot d') = true) rows.
Proof.
  apply built_rows_ok in Hbuild as [Hc Hwf].
  apply write_chunk_inv in Hwrite as [(e & Hr & _)|(table & cols & bs & rt & Ht & Hb & Hw & Hr)]; [done|].
  destruct rt as [t|e]; [|done]. pose proof (batches_of_ok _ _ _ Hb) as [Hcat _].
  apply Forall_forall. intros row Hrow. rewrite <- Hcat in Hrow.
  eapply write_batches_positions; [by eapply batches_forall|by eapply batches_forall|exact Hw|done].
Qed.
End DualWrite.

(** ** Redelivery *)

(** Two event rows that differ at most in their bound parameters. *)
Record same_row (a b : EventRow) : Prop := {
  sr_id : source_event_id a = source_event_id b;
  sr_ts : event_ts a = event_ts b;
  sr_key : natural_key a = natural_key b;
  sr_hot : hot_contributions a = hot_contributions b;
  sr_index : chunk_row_index a = chunk_row_index b;
  sr_hash : row_hash a = row_hash b
}.

Lemma group_hot_same a b : Forall2 same_row a b -> group_hot a = group_hot b.
Proof.
  unfold group_hot. generalize (@nil HotGroup). intros gs Hf. revert gs.
  induction Hf as [|x y a b [Hid Hts Hk Hh Hi _] Hf IH]; intros gs; [done|]. cbn. rewrite IH. f_equal.
  assert (forall g, merge_row g x = merge_row g y) as Hm by (intros g; unfold merge_row; by rewrite Hid, Hts, Hh, Hi).
  induction gs as [|g gs IHg]; cbn; [unfold new_group; congruence|]. by rewrite Hk, Hm, IHg.
Qed.

Lemma chunks_same n size : forall a b, Forall2 same_row a b -> Forall2 (Forall2 same_row) (chunks n size a) (chunks n size b).
Proof.
  induction n as [|n IH]; intros a b Hf; cbn; [constructor|]. destruct Hf as [|x y a b Hx Hf]; constructor.
  - by apply Forall2_take; constructor.
  - apply IH. by apply Forall2_drop; constructor.
Qed.

Section Redelivered.
Context `{Polars, Codec} (accepts : string -> dict value -> bool).
Context (select_priors : db -> string -> uuid -> uuid -> string -> list string -> list (dict value)).

Lemma build_rows_same event bronze loaded tax f1 f2 : forall n m rows indices a b,
  build_rows event bronze loaded tax f1 n rows indices = Ok a ->
  build_rows event bronze loaded tax f2 m rows indices = Ok b -> Forall2 same_row a b.
Proof.
  intros n m rows. revert n m. induction rows as [|row rows IH]; intros n m [|i indices] a b Ha Hb; cbn in Ha, Hb; inv_ok.
  - constructor.
  - constructor; [|by eapply IH]. unfold build_event_row in *. inv_ok.
    match goal with H1 : arg row ?k = Ok ?x, H2 : arg row ?k = Ok ?y |- _ => rewrite H1 in H2; injection H2 as <- end.
    repeat match goal with H1 : match ?x with _ => _ end = Ok _ |- _ => destruct x; try done end. inv_ok.
    repeat match goal with H1 : arg row ?k = Ok ?x, H2 : arg row ?k = Ok ?y |- _ => rewrite H1 in H2; injection H2 as <- end.
    done.
Qed.

Lemma chunk_updates_same event loaded channel tax bs bs' :
  Forall2 (Forall2 same_row) bs bs' ->
  chunk_updates event loaded channel tax bs = chunk_updates event loaded channel tax bs'.
Proof.
  unfold chunk_updates. induction 1 as [|b b' bs bs' Hb Hbs IH]; [done|]. cbn. by rewrite (group_hot_same _ _ Hb), IH.
Qed.

(** C7. Redelivery converges.  When the same chunk of an event mapping is
    processed and written a second time, with other fresh ids, every hot row shows
    the values it showed after the first write in every column. *)
Theorem redelivery_converges event bronze loaded result tax fresh1 fresh2 rows1 rows2 ids1 ids2 channel size d d1 d2 report1 report2
    (Hincomplete : hot_complete loaded = false)
    (Hbuild1 : build_event_rows event bronze loaded result tax fresh1 = Ok rows1)
    (Hbuild2 : build_event_rows event bronze loaded result tax fresh2 = Ok rows2)
    (Hwrite1 : write_chunk accepts select_priors ids1 event loaded rows1 channel tax size d = (Ok report1, d1))
    (Hwrite2 : write_chunk accepts select_priors ids2 event loaded rows2 channel tax size d1 = (Ok report2, d2)) :
  Forall2 row_equiv (hot d1) (hot d2).
Proof.
  pose proof (build_rows_same _ _ _ _ _ _ _ _ _ _ _ _ Hbuild1 Hbuild2) as Hsame.
  pose proof (built_rows_ok _ _ _ _ _ _ _ Hbuild1) as [Hc1 _]. pose proof (built_rows_ok _ _ _ _ _ _ _ Hbuild2) as [Hc2 _].
  apply write_chunk_inv in Hwrite1 as [(e & Hr & _)|(table & cols & bs1 & rt1 & Ht1 & Hb1 & Hw1 & Hr1)]; [done|].
  apply write_chunk_inv in Hwrite2 as [(e & Hr & _)|(table2 & cols2 & bs2 & rt2 & Ht2 & Hb2 & Hw2 & Hr2)]; [done|].
  destruct rt1 as [t1|]; [|done]. destruct rt2 as [t2|]; [|done].
  pose proof (batches_forall _ _ _ _ Hb1 Hc1) as Hcb. pose proof (batches_forall _ _ _ _ Hb2 Hc2) as Hcb2.
  apply write_batches_run in Hw1; [|done..]. apply write_batches_run in Hw2; [|done..].
  assert (Forall2 (Forall2 same_row) bs1 bs2) as Hbs.
  { unfold batches_of in *. destruct size; [done|]. injection Hb1 as <-. injection Hb2 as <-.
    rewrite (Forall2_length _ _ _ Hsame). by apply chunks_same. }
  rewrite (chunk_updates_same _ _ _ _ _ _ Hbs) in Hw1. rewrite Hw2, Hw1, map_map.
  apply Forall2_fmap, Forall_Forall2_diag, Forall_forall. intros row _. symmetry.
  by apply run_idem, chunk_updates_ok.
Qed.
End Redelivered.

(** A chunk on a hot table with its position, written twice. *)
Lemma sample_built_ok fresh : sample_rows fresh = Ok (sample_built fresh).
Proof. reflexivity. Qed.

Definition sample_ids (n : nat) : uuid := pretty n.
Definition sample_after : db := (sample_write sample_ids (sample_built sample_ids) sample_db).2.

Lemma chunk_written_by_batches_witness :
  (sample_write sample_ids (sample_built sample_ids) sample_db).1 <> Err TypeError /\ exists d' r,
  (exists e, r = Err e /\ d' = sample_db) \/
  exists table cols bs k,
    write_target sample_event (sample_loaded StoreSkuChangeEvent false) = Ok (table, cols) /\
    batches_of (sample_built sample_ids) 2 = Ok bs /\ concat bs = sample_built sample_ids /\
    k <= length bs /\ events d' = events sample_db ++ appended table cols (concat (take k bs)) /\
    hot_evolves (hot sample_db) (hot d') /\ (hot_unique (hot sample_db) -> hot_unique (hot d')) /\
    (hot_complete (sample_loaded StoreSkuChangeEvent false) = false -> length (hot d') = length (hot sample_db)) /\
    (forall report, r = Ok report -> k = length bs /\ event_rows_written report = length (sample_built sample_ids)) /\
    (forall n, r = Err (HotPositionMissingError n) -> 0 < n /\ 0 < k).
Proof.
  split; [by vm_compute|].
  exists (sample_write sample_ids (sample_built sample_ids) sample_db).2, (sample_write sample_ids (sample_built sample_ids) sample_db).1.
  apply (@chunk_written_by_batches sample_polars sample_codec sample_accepts no_priors sample_event sample_bronze
    (sample_loaded StoreSkuChangeEvent false) sample_changes (Some "INCLUSIVE") sample_ids (sample_built sample_ids)
    sample_ids "csv_upload" 2 sample_db); [apply sample_built_ok|apply surjective_pairing].
Defined.

Lemma written_chunk_has_positions_witness :
  Forall (fun row => position_exists sample_event (natural_key row) (hot sample_after) = true) (sample_built sample_ids).
Proof.
  eapply (@written_chunk_has_positions sample_polars sample_codec sample_accepts no_priors sample_event sample_bronze
    (sample_loaded StoreSkuChangeEvent false) sample_changes (Some "INCLUSIVE") sample_ids (sample_built sample_ids)
    sample_ids "csv_upload" 2 sample_db); [apply sample_built_ok|by vm_compute].
Defined.

Lemma redelivery_converges_witness :
  exists d2, Forall2 row_equiv (hot sample_after) (hot d2) /\ length (hot d2) = 1.
Proof.
  exists (sample_write (fun n => "again" +:+ pretty n) (sample_built (fun n => "again" +:+ pretty n)) sample_after).2.
  split; [|by vm_compute].
  eapply (@redelivery_converges sample_polars sample_codec sample_accepts no_priors sample_event sample_bronze
    (sample_loaded StoreSkuChangeEvent false) sample_changes (Some "INCLUSIVE") sample_ids (fun n => "again" +:+ pretty n)
    (sample_built sample_ids) (sample_built (fun n => "again" +:+ pretty n))
    sample_ids (fun n => "again" +:+ pretty n) "csv_upload" 2 sample_db sample_after);
    [done|apply sample_built_ok|apply sample_built_ok|by vm_compute|by vm_compute].
Defined.
