(* ===== verification/HotTheorems.v ===== *)
(** HotTheorems: the claims on grouping, merge order, the loaded mapping, the
    injected columns, the column partition and enrichment. *)

From S2P Require Import Prelude Text Values Decimals Transform SourceMapping Polars Engine EngineSpec EngineProps MappingTheorems Canonical Provenance Enrichment.
From S2P Require Import HotMapping Sink SinkProps SinkGroups Redelivery SinkTheorems.

(** ** Groups and their order *)

(** The rows of any batch of a built chunk. *)
Definition batch_of (rows batch : list EventRow) : Prop := Forall (fun r => r ∈ rows) batch.

(** Grouping a batch loses no key and invents no value: every row has a
    group of its key and the keys are distinct; a group carries the time, the
    event id, the row number and all the columns of the latest row of its key (of
    rows at the same time, the later in the chunk), and each other column it
    carries was asserted by some row of the key. *)
Theorem hot_groups_take_latest `{Polars, Codec} event bronze loaded result tax fresh rows batch
    (Hbuild : build_event_rows event bronze loaded result tax fresh = Ok rows) (Hbatch : batch_of rows batch) :
  Forall (group_of batch) (group_hot batch) /\
  (forall r, r ∈ batch -> exists g, g ∈ group_hot batch /\ g_key g = natural_key r) /\
  groups_distinct (group_hot batch).
Proof.
  apply built_rows_ok in Hbuild as [_ Hwf].
  destruct (group_hot_ok batch) as [[Hof Hrows] Hd]; [|done].
  rewrite Forall_forall in Hwf. eapply Forall_impl; [exact Hbatch|]. intros r Hr. auto.
Qed.

Lemma hot_groups_take_latest_witness :
  Forall (group_of (sample_built sample_ids)) (group_hot (sample_built sample_ids)) /\
  (forall r, r ∈ sample_built sample_ids -> exists g, g ∈ group_hot (sample_built sample_ids) /\ g_key g = natural_key r) /\
  groups_distinct (group_hot (sample_built sample_ids)).
Proof.
  apply (@hot_groups_take_latest sample_polars sample_codec sample_event sample_bronze
    (sample_loaded StoreSkuChangeEvent false) sample_changes (Some "INCLUSIVE") sample_ids (sample_built sample_ids)).
  - apply sample_built_ok.
  - apply Forall_forall. done.
Defined.

(** Two groups name the same hot row exactly when they sort alike. *)
Definition same_position (event : IngressReadyEvent) (a b : HotGroup) : bool :=
  hot_key_match (key_params event (g_key a)) (key_params event (g_key b)).

Lemma same_position_key event a b : same_position event a b = true <-> hot_sort_key a = hot_sort_key b.
Proof.
  unfold same_position, hot_key_match, hot_sort_key. destruct (g_key a) as [[s v] l], (g_key b) as [[s' v'] l'].
  cbn -[coalesce or_empty]. rewrite !String.eqb_refl. cbn -[coalesce or_empty].
  rewrite !andb_true_iff, !String.eqb_eq. change coalesce with or_empty. split; [intros [[-> ->] ->]; done|intros [= -> -> ->]; done].
Qed.

(** Hot rows are merged in one global key order: when a transaction merges
    position A before position B, no other transaction merges B before A unless
    they are the same row.  The order that prevents deadlock between concurrent
    batches of a store is the order of the database key (NULL and empty equal). *)
Theorem merges_in_global_order event gs gs' i j i' j' a b a' b'
    (Ha : sort_groups gs !! i = Some a) (Hb : sort_groups gs !! j = Some b) (Hij : i < j)
    (Hb' : sort_groups gs' !! i' = Some b') (Ha' : sort_groups gs' !! j' = Some a') (Hij' : i' < j')
    (Hsa : same_position event a a' = true) (Hsb : same_position event b b' = true) :
  same_position event a b = true.
Proof.
  apply same_position_key. apply same_position_key in Hsa, Hsb. by eapply (merge_order_compatible gs gs' i j i' j' a b a' b').
Qed.

Definition lone_group (v : value) : HotGroup := mkGroup ("A1", v, VNone) [] 0 "e" 0.

Lemma merges_in_global_order_witness :
  same_position sample_event (lone_group VNone) (lone_group (VStr "")) = true.
Proof.
  apply (merges_in_global_order sample_event [lone_group VNone; lone_group (VStr "")] [lone_group (VStr ""); lone_group VNone]
    0 1 0 1 (lone_group VNone) (lone_group (VStr "")) (lone_group VNone) (lone_group (VStr ""))); try reflexivity; try lia.
Defined.

(** ** The loaded mapping *)

(** The event model a mapping's targets select. *)
Definition routed (targets : list string) (m : model) : Prop :=
  let fits x := subset targets (match PROVENANCE x with Some p => mapping_produced p | None => [] end) = true in
  m ∈ EVENT_MODELS /\ fits m /\ forall other, other ∈ EVENT_MODELS -> fits other -> other = m.

Lemma routed_iff m tm : route_target_model m = Ok tm <-> routed (target_columns m) tm.
Proof.
  rewrite route_iff. unfold routed, EVENT_MODELS.
  assert (forall x, x ∈ [StoreSkuSaleEvent; StoreSkuChangeEvent] <-> x = StoreSkuSaleEvent \/ x = StoreSkuChangeEvent) as He by set_solver.
  setoid_rewrite He. split.
  - intros [(-> & H1 & H2)|(-> & H1 & H2)]; (split; [auto|]); (split; [done|]); intros x [->| ->] Hx; try done;
      exfalso; apply Bool.diff_true_false; (etrans; [symmetry; exact Hx|exact H2]).
  - intros ([->| ->] & H1 & H2).
    + left. split; [done|]. split; [done|]. apply not_true_is_false. intros Hx. by specialize (H2 StoreSkuChangeEvent (or_intror eq_refl) Hx).
    + right. split; [done|]. split; [done|]. apply not_true_is_false. intros Hx. by specialize (H2 StoreSkuSaleEvent (or_introl eq_refl) Hx).
Qed.

Lemma classify_total m tm : tm ∈ StoreSkuCurrentPosition :: EVENT_MODELS ->
  exists b, classify_hot_completeness m tm = Ok b /\
    (b = true <-> tm = StoreSkuCurrentPosition /\ snapshot_complete (target_columns m)).
Proof.
  intros [->|Hin]%elem_of_cons.
  - assert (exists b, classify_hot_completeness m StoreSkuCurrentPosition = Ok b) as [b Hb].
    { unfold classify_hot_completeness, guaranteed_hot_columns. rewrite produced_current_position, hot_required_value.
      cbn [mbind result_bind]. destruct (negb _); eauto. }
    exists b. split; [done|]. rewrite (snapshot_completeness m b Hb). naive_solver.
  - exists false. split; [by apply event_never_complete|]. split; [done|]. intros [-> _].
    exfalso. revert Hin. apply (bool_decide_unpack _). by vm_compute.
Qed.

Section Loading.
Context (select_active : uuid -> string -> uuid -> res (option mapping_row)) (model_validate : value -> res SourceMapping).

(** Loading the active mapping succeeds exactly when there is an active row
    without validation suites whose rules parse and rename something, and, unless
    its template is a snapshot, whose targets fit exactly one event table.  The
    mapping may create hot rows exactly when it is a snapshot that produces the
    SKU, its name and its price, a promo price with any promo id, and all of the
    expiry columns or none: an event mapping never creates one. *)
Theorem active_mapping_loads event lm :
  load_active_mapping select_active model_validate event = Ok lm <->
  exists row m target,
    select_active (ev_tenant_id event) (ev_source_id event) (ev_template_id event) = Ok (Some row) /\
    row_pre_suite row = None /\ row_post_suite row = None /\
    model_validate (row_rules row) = Ok m /\ rename m <> [] /\
    (row_template_type row = SNAPSHOT /\ target = StoreSkuCurrentPosition \/
     row_template_type row <> SNAPSHOT /\ routed (target_columns m) target) /\
    mapping_version_id lm = row_version_id row /\ lm_source lm = m /\ target_model lm = target /\
    (hot_complete lm = true <-> target = StoreSkuCurrentPosition /\ snapshot_complete (target_columns m)).
Proof.
  unfold load_active_mapping. destruct (select_active _ _ _) as [[row|]|]; cbn [mbind result_bind]; [|split; [done|naive_solver]..].
  split.
  - intros Hl. inv_ok.
    assert (row_pre_suite row = None /\ row_post_suite row = None) as [H1 H2] by (by destruct (row_pre_suite row), (row_post_suite row)).
    unfold parse_rules in Hs0. destruct (model_validate (row_rules row)) as [m|[]] eqn:Hv; try done. injection Hs0 as <-.
    assert (a2 ∈ StoreSkuCurrentPosition :: EVENT_MODELS /\
            (row_template_type row = SNAPSHOT /\ a2 = StoreSkuCurrentPosition \/ row_template_type row <> SNAPSHOT /\ routed (target_columns m) a2)) as [Hin Ht].
    { destruct (String.eqb_spec (row_template_type row) SNAPSHOT) as [Hsnap|Hsnap].
      - injection Hs2 as <-. split; [left|by left].
      - apply routed_iff in Hs2. split; [right; apply Hs2|by right]. }
    destruct (classify_total m a2 Hin) as (b & Hb & Hiff). rewrite Hb in Hs3. injection Hs3 as <-.
    exists row, m, a2. repeat (split; [done|]). split; [by destruct (rename m)|]. done.
  - intros (row' & m & target & [= <-] & H1 & H2 & Hv & Hr & Ht & Hvid & Hm & Htm & Hc). rewrite H1, H2. cbn [raise_if mbind result_bind].
    unfold parse_rules. rewrite Hv. cbn [mbind result_bind]. destruct (rename m) eqn:Hren; [done|]. cbn [raise_if mbind result_bind].
    assert ((if String.eqb (row_template_type row) SNAPSHOT then Ok StoreSkuCurrentPosition else route_target_model m) = Ok target
            /\ target ∈ StoreSkuCurrentPosition :: EVENT_MODELS) as [-> Hin].
    { destruct Ht as [[Hs ->]|[Hs Hrt]].
      - rewrite Hs, String.eqb_refl. split; [done|left].
      - apply String.eqb_neq in Hs. rewrite Hs. split; [by apply routed_iff|right; apply Hrt]. }
    cbn [mbind result_bind]. destruct (classify_total m target Hin) as (b & -> & Hiff). cbn [mbind result_bind].
    destruct lm as [v m' t' c]. cbn in *. subst. f_equal. f_equal. rewrite <- Hiff in Hc. destruct b, c; naive_solver.
Qed.
End Loading.

(** ** Event rows *)

(** What the consumer stamps on every event row, from the envelope and the
    loaded mapping alone. *)
Definition injected_values (event : IngressReadyEvent) (bronze : BronzeMeta) (loaded : LoadedMapping) (row : EventRow)
    : dict value :=
  [ ("tenant_id", VStr (ev_tenant_id event)); ("store_id", VStr (ev_store_id event));
    ("source_id", VStr (ev_source_id event)); ("source_event_id", VStr (source_event_id row));
    ("mapping_version_id", VInt (mapping_version_id loaded)); ("trace_id", VStr (ev_trace_id event));
    ("dis_channel", VStr (dis_channel bronze)) ].

Definition INJECTED : list string :=
  ["id"; "tenant_id"; "store_id"; "source_id"; "source_event_id"; "mapping_version_id"; "trace_id"; "dis_channel";
   "ingest_metadata"].

(** The columns a row of each table rewrites after the injection. *)
Definition REWRITTEN (m : model) : list string :=
  match m with
  | StoreSkuSaleEvent => ["tax_treatment"]
  | _ => ["numeric_value_before"; "numeric_value_after"; "numeric_change"; "value_before"; "value_after"; "change_context"]
  end.

Section RowColumns.
Context `{Polars, Codec}.

Lemma pget_serialize cols c : forall ps, c ∉ cols -> pget (serialize_jsonb ps cols) c = pget ps c.
Proof.
  unfold serialize_jsonb. induction cols as [|k cols IH]; intros ps Hc; [done|]. cbn.
  apply not_elem_of_cons in Hc as [Hne Hc]. rewrite IH by done. destruct (dict_get ps k); [|done].
  rewrite pget_set. by apply String.eqb_neq in Hne as ->.
Qed.

Lemma pget_shortcuts ps pl c : c ∉ REWRITTEN StoreSkuChangeEvent -> pget (populate_change_shortcuts ps pl) c = pget ps c.
Proof.
  intros Hc. unfold populate_change_shortcuts.
  assert (forall k, k ∈ REWRITTEN StoreSkuChangeEvent -> String.eqb c k = false) as Hn.
  { intros k Hk. apply String.eqb_neq. by intros ->. }
  rewrite pget_serialize by (intros Hin; apply Hc; cbn; do 3 right; exact Hin).
  rewrite !pget_set, !Hn by (cbn; rewrite !elem_of_cons; auto). done.
Qed.

Lemma row_params event bronze loaded tax fresh pl i r c :
  build_event_row event bronze loaded tax fresh pl i = Ok r -> c ∉ REWRITTEN (target_model loaded) ->
  payload r = pl /\ pget (params r) c =
    match dict_get (injected_params event bronze loaded (source_event_id r) i fresh) c with
    | Some v => v
    | None => pget pl c
    end.
Proof.
  unfold build_event_row. intros Hb Hc. inv_ok. destruct a; try done. inv_ok. cbn [params payload source_event_id].
  split; [done|].
  assert (dict_wf (injected_params event bronze loaded
    (derive_source_event_id pl (target_model loaded) (ev_bronze_ref event) i) i fresh)) as Hwf
    by (unfold dict_wf; apply (bool_decide_unpack _); by vm_compute).
  assert (forall ps, pget (if bool_decide (target_model loaded = StoreSkuSaleEvent)
      then dict_set ps "tax_treatment" (match tax with Some t => VStr t | None => VNone end)
      else populate_change_shortcuts ps pl) c = pget ps c) as ->.
  { intros ps. destruct (bool_decide_reflect (target_model loaded = StoreSkuSaleEvent)) as [Hm|Hm].
    - rewrite Hm in Hc. rewrite pget_set. destruct (String.eqb_spec c "tax_treatment") as [->|]; [|done].
      exfalso. apply Hc. left.
    - apply pget_shortcuts. by destruct (target_model loaded). }
  set (inj := injected_params event bronze loaded (derive_source_event_id pl (target_model loaded) (ev_bronze_ref event) i) i fresh) in *.
  change (pget (dict_update pl inj) c = match dict_get inj c with Some v => v | None => pget pl c end).
  unfold pget at 1, arg_get. rewrite dict_get_update, dict_get_rev by done. by destruct (dict_get inj c).
Qed.

(** Identity columns of an event row come from the envelope, never from the
    file: whatever the mapping produced, tenant, store, source, trace, channel,
    mapping version and event id of the stored row are the envelope's and the
    consumer's; every column that is neither injected nor rewritten keeps the
    mapped value. *)
Theorem identity_from_envelope event bronze loaded result tax fresh rows
    (Hbuild : build_event_rows event bronze loaded result tax fresh = Ok rows) :
  Forall (fun r =>
    (forall c v, dict_get (injected_values event bronze loaded r) c = Some v -> pget (params r) c = v) /\
    (forall c, c ∉ INJECTED -> c ∉ REWRITTEN (target_model loaded) -> pget (params r) c = pget (payload r) c)) rows.
Proof.
  eapply build_rows_forall; [|exact Hbuild]. intros k pl i r Hr. split.
  - intros c v Hv.
    assert (c ∉ REWRITTEN (target_model loaded)) as Hc.
    { apply dict_get_Some_elem in Hv. intros Hin.
      assert (c ∈ dict_keys (injected_values event bronze loaded r)) as Hk by (apply list_elem_of_fmap; by exists (c, v)).
      assert (Forall (fun c => c ∉ REWRITTEN (target_model loaded)) (dict_keys (injected_values event bronze loaded r))) as Hf
        by (destruct (target_model loaded); apply (bool_decide_unpack _); by vm_compute).
      rewrite Forall_forall in Hf. by apply (Hf c). }
    rewrite (proj2 (row_params _ _ _ _ _ _ _ _ c Hr Hc)). cbn in Hv |- *.
    destruct (String.eqb_spec c "id") as [->|]; [by cbn in Hv|].
    repeat match goal with |- context [String.eqb c ?k] => destruct (String.eqb c k); [by injection Hv|] end. done.
  - intros c Hi Hc. destruct (row_params _ _ _ _ _ _ _ _ c Hr Hc) as [-> ->].
    assert (dict_get (injected_params event bronze loaded (source_event_id r) i (fresh k)) c = None) as ->; [|done].
    by apply dict_get_None.
Qed.

Lemma pretty_index_inj b (i j : nat) : b +:+ ":" +:+ pretty i = b +:+ ":" +:+ pretty j -> i = j.
Proof. intros He. apply String.app_inj in He. apply String.app_inj in He. by apply (inj pretty). Qed.
End RowColumns.

Section EventIds.
Context `{Polars, Codec}.

Lemma built_ids event bronze loaded tax fresh : forall n rows indices built,
  target_model loaded <> StoreSkuSaleEvent ->
  build_rows event bronze loaded tax fresh n rows indices = Ok built ->
  map source_event_id built = map (fun i => ev_bronze_ref event +:+ ":" +:+ pretty i) indices.
Proof.
  intros n rows. revert n. induction rows as [|row rows IH]; intros n [|i indices] built Hm Hb; cbn in Hb; inv_ok; [done|].
  cbn. f_equal; [|by eapply IH]. unfold build_event_row in Hs. inv_ok. destruct a1; try done. inv_ok. cbn.
  unfold derive_source_event_id. by rewrite decide_False.
Qed.

(** The dedup key of a row is stable and, for change events, unique.  A
    redelivered chunk gets the same event ids and row hashes, whatever ids are
    drawn, so that the duplicate query recognizes it; and two rows of a chunk of
    change events never share an event id. *)
Theorem event_ids_stable_and_unique event bronze loaded result tax fresh1 fresh2 rows1 rows2
    (Hbuild1 : build_event_rows event bronze loaded result tax fresh1 = Ok rows1)
    (Hbuild2 : build_event_rows event bronze loaded result tax fresh2 = Ok rows2)
    (Hindices : NoDup (source_row_indices result)) :
  map source_event_id rows1 = map source_event_id rows2 /\ map row_hash rows1 = map row_hash rows2 /\
  (target_model loaded = StoreSkuChangeEvent -> NoDup (map source_event_id rows1)).
Proof.
  pose proof (build_rows_same _ _ _ _ _ _ _ _ _ _ _ _ Hbuild1 Hbuild2) as Hsame. split; [|split].
  - clear -Hsame. induction Hsame as [|a b l k [] Hl IH]; [done|]. cbn. congruence.
  - clear -Hsame. induction Hsame as [|a b l k [] Hl IH]; [done|]. cbn. congruence.
  - intros Hm. rewrite (built_ids _ _ _ _ _ _ _ _ _ (ltac:(by rewrite Hm)) Hbuild1).
    apply NoDup_fmap_2; [|done]. intros i j. apply pretty_index_inj.
Qed.
End EventIds.

Lemma identity_from_envelope_witness :
  Forall (fun r =>
    (forall c v, dict_get (injected_values sample_event sample_bronze (sample_loaded StoreSkuChangeEvent false) r) c = Some v ->
       pget (params r) c = v) /\
    (forall c, c ∉ INJECTED -> c ∉ REWRITTEN StoreSkuChangeEvent -> pget (params r) c = pget (payload r) c)) (sample_built sample_ids).
Proof.
  apply (@identity_from_envelope sample_polars sample_codec sample_event sample_bronze
    (sample_loaded StoreSkuChangeEvent false) sample_changes (Some "INCLUSIVE") sample_ids). apply sample_built_ok.
Defined.

Lemma event_ids_stable_and_unique_witness :
  let again := fun n => "again" +:+ pretty n in
  map source_event_id (sample_built sample_ids) = map source_event_id (sample_built again) /\
  map row_hash (sample_built sample_ids) = map row_hash (sample_built again) /\
  (target_model (sample_loaded StoreSkuChangeEvent false) = StoreSkuChangeEvent -> NoDup (map source_event_id (sample_built sample_ids))).
Proof.
  intros again.
  apply (@event_ids_stable_and_unique sample_polars sample_codec sample_event sample_bronze
    (sample_loaded StoreSkuChangeEvent false) sample_changes (Some "INCLUSIVE") sample_ids again);
    [apply sample_built_ok|apply sample_built_ok|].
  apply (bool_decide_unpack _). by vm_compute.
Defined.

(** ** The column partition *)

(** The drift guard accepts a column classification exactly when its five
    sets are pairwise disjoint and together are the fields of the model; and it
    accepts the classification of exactly the three models that a template type
    selects (signal history is refused: no mapping produces it). *)
Theorem drift_guard_exact :
  (forall name fields p, assert_partition_consistent name fields p = Ok tt <->
     disjoint_sets (partition_sets p) /\ (forall c, c ∈ fields <-> c ∈ concat (partition_sets p))) /\
  (forall m, assert_no_drift m = Ok tt <-> m ∈ dict_values MODEL_BY_TYPE).
Proof.
  split; [intros; apply partition_consistent_ok|].
  intros []; split; try (intros _; apply (bool_decide_unpack _); by vm_compute); try (intros _; by vm_compute).
  - intros Hd. by vm_compute in Hd.
  - intros Hin. exfalso. revert Hin. apply (bool_decide_unpack _). by vm_compute.
Qed.

(** ** Enrichment *)

Section EnrichedResult.
Context `{PolarsLaws}.

Lemma enrichment_fields_value : enrichment_fields CURRENT_POSITION = ["currency"; "tax_treatment"].
Proof. by vm_compute. Qed.

Lemma enrichment_total facts r :
  is_ok (apply_loaded_enrichment facts r) = dict_mem facts "currency" && dict_mem facts "tax_treatment".
Proof.
  unfold apply_loaded_enrichment, apply_enrichment. rewrite enrichment_fields_value. cbn [filter list_filter].
  by destruct (dict_mem facts "currency"), (dict_mem facts "tax_treatment").
Qed.

(** Enrichment of a snapshot succeeds exactly when the store facts carry
    both the currency and the tax treatment (a null counts as carried); it then
    overwrites these two columns with the facts in every row, whatever the file
    said, and touches nothing else: other columns, the row indices and the failure
    report stay, so that rows and indices remain aligned. *)
Theorem enrichment_overwrites_facts facts r (Hwf : frame_wf (contribution r)) (Hne : f_cols (contribution r) <> []) :
  is_ok (apply_loaded_enrichment facts r) = dict_mem facts "currency" && dict_mem facts "tax_treatment" /\
  forall r', apply_loaded_enrichment facts r = Ok r' ->
    source_row_indices r' = source_row_indices r /\ failures r' = failures r /\
    forall c, column_cells (f_cols (contribution r')) c =
      if mem c ["currency"; "tax_treatment"]
      then replicate (height (contribution r)) (lit_cell (pget facts c))
      else column_cells (f_cols (contribution r)) c.
Proof.
  split; [apply enrichment_total|]. intros r' Hr.
  unfold apply_loaded_enrichment, apply_enrichment in Hr. rewrite enrichment_fields_value in Hr. inv_ok.
  cbn [contribution source_row_indices failures enriched_contribution]. repeat (split; [done|]).
  intros c. rewrite law_with_literals by done. cbn [f_cols]. rewrite literals_cells.
  2:{ unfold dict_wf. apply (bool_decide_unpack _). by vm_compute. }
  cbn. destruct (String.eqb c "currency") eqn:H1; cbn.
  - apply String.eqb_eq in H1 as ->. done.
  - destruct (String.eqb c "tax_treatment") eqn:H2; [|done]. by apply String.eqb_eq in H2 as ->.
Qed.
End EnrichedResult.

Definition sample_snapshot : MappingResult := mkMappingResult
  (Frame [Series "sku_id" TString (text_cells ["A1"; "A2"]); Series "currency" TString (text_cells ["USD"; "GBP"])]) [0; 1] [].

Lemma enrichment_overwrites_facts_witness :
  let facts := [("currency", VStr "EUR"); ("tax_treatment", VStr "INCLUSIVE")] in
  exists r', @apply_loaded_enrichment sample_polars facts sample_snapshot = Ok r' /\
    column_cells (f_cols (contribution r')) "currency" = text_cells ["EUR"; "EUR"].
Proof.
  intros facts.
  destruct (@enrichment_overwrites_facts sample_polars sample_laws facts sample_snapshot) as [Hok Hr].
  - split; [by apply (bool_decide_unpack _); vm_compute|by repeat constructor].
  - done.
  - destruct (@apply_loaded_enrichment sample_polars facts sample_snapshot) as [r'|e]; [|done].
    exists r'. split; [done|]. by rewrite (proj2 (proj2 (Hr r' eq_refl)) "currency").
Defined.

(** The snapshot write, and two places where the sink departs
    from what its documentation says. *)

(** ** The groups of a snapshot *)

Lemma filter_keys {A} (P : string * A -> Prop) `{!forall x, Decision (P x)} (d : dict A) c :
  c ∈ dict_keys (filter P d) -> exists v, (c, v) ∈ d /\ P (c, v).
Proof. intros ([k v] & -> & [HP Hin]%list_elem_of_filter)%list_elem_of_fmap. eauto. Qed.

Section Catalogue.
Context `{Polars, Codec} (accepts : string -> dict value -> bool) (fresh_ids : nat -> uuid).

Lemma catalogue_group_clean event staleness pl i g :
  catalogue_group event (mapping_produced current_position_provenance ++ enrichment_fields CURRENT_POSITION) staleness pl i = Ok g ->
  clean_projection (projected g).
Proof.
  unfold catalogue_group. intros Hg. inv_ok. cbn [projected]. intros c Hc Hin.
  assert (c ∈ mapping_produced current_position_provenance ++ enrichment_fields CURRENT_POSITION /\ c ∉ HOT_NATURAL_KEY_COLS
          \/ c = "attribute_staleness_map") as Hwhich.
  { assert (forall k, k ∈ dict_keys (filter (fun '(name, _) => mem name (mapping_produced current_position_provenance ++ enrichment_fields CURRENT_POSITION)
              && negb (mem name HOT_NATURAL_KEY_COLS) = true) pl) ->
            k ∈ mapping_produced current_position_provenance ++ enrichment_fields CURRENT_POSITION /\ k ∉ HOT_NATURAL_KEY_COLS) as Hf.
    { intros k (v & _ & Hk)%filter_keys. apply andb_true_iff in Hk as [H1 H2]. rewrite mem_elem in H1. split; [done|].
      rewrite <- mem_elem. by destruct (mem k HOT_NATURAL_KEY_COLS). }
    destruct (py_sorted _); [left; auto|]. apply dict_keys_set_elem in Hin as [->|Hin]; [by right|left; auto]. }
  assert (Forall (fun k => (k ∉ mapping_produced current_position_provenance ++ enrichment_fields CURRENT_POSITION \/ k ∈ HOT_NATURAL_KEY_COLS)
            /\ k <> "attribute_staleness_map") ("last_source_event_at" :: "id" :: KEY_COLUMNS)) as Hall
    by (apply (bool_decide_unpack _); by vm_compute).
  rewrite Forall_forall in Hall. destruct (Hall c Hc) as [H1 H2]. naive_solver.
Qed.

Lemma catalogue_rows_clean event staleness : forall rows indices gs,
  catalogue_rows event (mapping_produced current_position_provenance ++ enrichment_fields CURRENT_POSITION) staleness rows indices = Ok gs ->
  Forall (fun g => clean_projection (projected g)) gs /\ length gs = length rows.
Proof.
  induction rows as [|row rows IH]; intros [|i indices] gs Hg; cbn in Hg; inv_ok; [done|].
  destruct (IH _ _ Hs0) as [Hc Hl]. cbn. rewrite Hl. split; [|done]. constructor; [by eapply catalogue_group_clean|done].
Qed.

Lemma catalogue_groups_clean event result gs :
  catalogue_groups event result = Ok gs ->
  Forall (fun g => clean_projection (projected g)) gs /\ length gs = length (df_to_dicts (contribution result)).
Proof.
  unfold catalogue_groups. rewrite produced_current_position. cbn [mbind result_bind]. intros Hg. inv_ok.
  by eapply catalogue_rows_clean.
Qed.

Definition all_positions (event : IngressReadyEvent) (gs : list HotGroup) (h : list (dict value)) : Prop :=
  Forall (fun g => position_exists event (g_key g) h = true) gs.

Lemma all_positions_evolve event gs h h' : hot_evolves h h' -> all_positions event gs h -> all_positions event gs h'.
Proof. intros He Ha. eapply Forall_impl; [exact Ha|]. intros g. by apply key_exists_evolves. Qed.

Lemma catalogue_merge_ok event loaded channel table gs : forall n d n' d',
  Forall (fun g => clean_projection (projected g)) gs ->
  catalogue_merge accepts fresh_ids event loaded channel table gs n d = Ok (n', d') ->
  merge_ok d d' /\ n' = n + length gs /\ all_positions event gs (hot d').
Proof.
  induction gs as [|g gs IH]; intros n d n' d' Hc Hm; cbn [catalogue_merge] in Hm; inv_ok.
  - split; [reflexivity|]. split; [cbn; lia|constructor].
  - destruct a as [o d1]. apply Forall_cons in Hc as [Hg Hc]. apply IH in Hm as (Hok & -> & Hpos); [|done].
    pose proof (complete_merge_ok _ _ _ _ _ _ _ _ Hg (hot_params_last _ _ _ _ _ _ Hg) Hs) as Hok1.
    split; [by etrans|]. split; [cbn; lia|]. constructor; [|done].
    rewrite <- (params_position event loaded channel None (fresh_ids n) g _ Hg).
    destruct Hok as [_ He _]. eapply key_exists_evolves; [exact He|].
    eapply complete_has_key; [exact Hs|by apply clean_columns|by apply params_self].
Qed.

Lemma write_catalogue_ok event loaded channel table bs : forall n d r d',
  Forall (Forall (fun g => clean_projection (projected g))) bs ->
  write_catalogue_batches accepts fresh_ids event loaded channel table bs n d = (r, d') ->
  merge_ok d d' /\ (forall n', r = Ok n' -> n' = n + length (concat bs) /\ all_positions event (concat bs) (hot d')).
Proof.
  induction bs as [|b bs IH]; intros n d r d' Hc Hw; cbn [write_catalogue_batches] in Hw.
  - injection Hw as <- <-. split; [reflexivity|]. intros n' [= <-]. split; [cbn; lia|constructor].
  - apply Forall_cons in Hc as [Hb Hc]. unfold txn in Hw.
    destruct (catalogue_merge _ _ _ _ _ _ _ _ _) as [[n1 d1]|e] eqn:Hm.
    + apply catalogue_merge_ok in Hm as (Hok & -> & Hpos); [|by rewrite sort_groups_perm].
      apply IH in Hw as [Hok' Hall]; [|done]. split; [by etrans|]. intros n' Hn.
      destruct (Hall n' Hn) as [-> Hpos']. cbn [concat]. split.
      * rewrite length_app, (Permutation_length (sort_groups_perm b)). lia.
      * apply Forall_app. split; [|done]. eapply all_positions_evolve; [apply Hok'|].
        unfold all_positions in Hpos. by rewrite sort_groups_perm in Hpos.
    + injection Hw as <- <-. split; [reflexivity|done].
Qed.

(** A snapshot writes the current positions and nothing else: no event row
    is added, no position is lost, its key never changes and its event time never
    moves back, keys stay unique; and on success every row of the file has a
    position, and the report counts every row. *)
Theorem catalogue_creates_positions event loaded result channel size d r d'
    (Hwrite : write_catalogue_chunk accepts fresh_ids event loaded result channel size d = (r, d')) :
  events d' = events d /\ hot_evolves (hot d) (hot d') /\ (hot_unique (hot d) -> hot_unique (hot d')) /\
  forall report, r = Ok report ->
    exists gs, catalogue_groups event result = Ok gs /\
      all_positions event gs (hot d') /\ event_rows_written report = 0 /\
      hot_rows_upserted report = length (df_to_dicts (contribution result)).
Proof.
  unfold write_catalogue_chunk in Hwrite.
  destruct (resolve_sink _ _ _) as [table|e]; [|injection Hwrite as <- <-; repeat (split; [reflexivity|]); split; done].
  destruct (catalogue_groups event result) as [gs|e] eqn:Hg; [|injection Hwrite as <- <-; repeat (split; [reflexivity|]); split; done].
  destruct (batches_of gs size) as [bs|e] eqn:Hb; [|injection Hwrite as <- <-; repeat (split; [reflexivity|]); split; done].
  apply catalogue_groups_clean in Hg as [Hc Hl]. pose proof (batches_forall _ _ _ _ Hb Hc) as Hcb.
  pose proof (batches_of_ok _ _ _ Hb) as [Hcat _].
  destruct (write_catalogue_batches _ _ _ _ _ _ _ _ _) as [[n|e] d1] eqn:Hw; injection Hwrite as <- <-;
    apply write_catalogue_ok in Hw as [[E1 E2 E3] Hall]; try done; repeat (split; [done|]).
  intros report [= <-]. destruct (Hall n eq_refl) as [-> Hpos]. rewrite Hcat in Hpos |- *.
  exists gs. split; [done|]. split; [done|]. split; [done|]. cbn. by rewrite Hl.
Qed.
End Catalogue.

Definition sample_catalogue : MappingResult := mkMappingResult
  (Frame [ Series "sku_id" TString (text_cells ["A2"; "A1"]); Series "product_name" TString (text_cells ["tea"; "jam"]);
           Series "current_retail_price" (TDecimal (Some 12%Z) 2) [Some (VDecimal 250 2); Some (VDecimal 300 2)];
           Series "currency" TString (text_cells ["EUR"; "EUR"]); Series "tax_treatment" TString (text_cells ["INCLUSIVE"; "INCLUSIVE"]) ])
  [0; 1] [].

Lemma catalogue_creates_positions_witness :
  exists d' r, @write_catalogue_chunk sample_polars sample_codec sample_accepts sample_ids sample_event
      (sample_loaded StoreSkuCurrentPosition true) sample_catalogue "csv_upload" 10 sample_db = (r, d') /\
    is_ok r = true /\ length (hot d') = 2 /\ events d' = events sample_db.
Proof.
  eexists _, _. split; [apply surjective_pairing|]. split; [by vm_compute|]. split; [by vm_compute|].
  eapply (@catalogue_creates_positions sample_polars sample_codec sample_accepts sample_ids sample_event
      (sample_loaded StoreSkuCurrentPosition true) sample_catalogue "csv_upload" 10 sample_db).
  apply surjective_pairing.
Defined.

(** ** Departures from the documentation *)

(** Within a batch the latest event time does not always win per column.
    Three change events of one SKU arrive in one batch: its stock at time 10, then
    its price 1 at time 5 and its price 2 at time 7.  The hot row is stamped with
    time 10 and keeps the price of time 5: a row that is not newer than the group
    only fills columns that are still absent, and the group does not remember at
    which time a column was filled. *)
Theorem older_price_survives_in_batch :
  map (fun r => (event_ts r, hot_contributions r)) (sample_built sample_ids) =
    [(10%Z, [("stock_qty", VDecimal 4 0)]); (5%Z, [("current_retail_price", VDecimal 1 0)]);
     (7%Z, [("current_retail_price", VDecimal 2 0)])] /\
  map (fun g => (g_last g, projected g)) (group_hot (sample_built sample_ids)) =
    [(10%Z, [("stock_qty", VDecimal 4 0); ("current_retail_price", VDecimal 1 0)])].
Proof. split; by vm_compute. Qed.

(** Two prior events of the keys a batch carries, of different traces. *)
Definition two_priors (d : db) (table : string) (tenant store : uuid) (source : string) (keys : list string)
    : list (dict value) :=
  [ [("source_event_id", VStr "44444444-4444-4444-4444-444444444444:0"); ("trace_id", VStr "0192b3c0-0000-7000-8000-00000000000a")];
    [("source_event_id", VStr "44444444-4444-4444-4444-444444444444:1"); ("trace_id", VStr "0192b3c0-0000-7000-8000-00000000000b")] ].

(** A duplicate hit does not report the trace of its own prior event.  When
    two rows of a batch were seen before under different traces, both hits carry
    the trace of the last prior row the query returned, because the loop variable
    of the preceding loop is read instead of the matched row. *)
Theorem duplicate_reports_wrong_trace :
  map (fun h => (hit_source_event_id h, prior_trace_id h))
    (@detect_duplicates sample_codec two_priors sample_db sample_event (sample_loaded StoreSkuChangeEvent false)
      (sample_built sample_ids) "canonical.store_sku_change_events") =
  [ ("44444444-4444-4444-4444-444444444444:0", "0192b3c0-0000-7000-8000-00000000000b");
    ("44444444-4444-4444-4444-444444444444:1", "0192b3c0-0000-7000-8000-00000000000b") ].
Proof. by vm_compute. Qed.
