(* ===== verification/Paths.v ===== *)
(** Paths: the canonical object-path scheme of the bronze bucket (libs/dis-storage,
    [paths.py]), with what it uses of Python's [uuid.UUID].

    [tenant/{uuid}/source/{source_id}/yyyy=Y/mm=M/dd=D/{trace_id}.{ext}].  The
    groups of the path pattern exclude the slash, so that a key matches the
    pattern exactly when its segments between slashes match theirs. *)

From S2P Require Import Prelude Text Values Decimals.
Local Open Scope Z_scope.

(** ** Characters, splitting and stripping *)

Definition has_char (c : ascii) (s : string) : bool := negb (str_all (fun a => negb (Ascii.eqb a c)) s).

(** [s.split(c)] *)
Fixpoint split_on (c : ascii) (s : string) : list string :=
  match s with
  | EmptyString => [""]
  | String a s' =>
      if Ascii.eqb a c then "" :: split_on c s'
      else match split_on c s' with
           | [] => [String a ""]
           | p :: ps => String a p :: ps
           end
  end.

Fixpoint lstrip_chars (p : ascii -> bool) (s : string) : string :=
  match s with String c s' => if p c then lstrip_chars p s' else s | EmptyString => "" end.
Definition strip_chars (p : ascii -> bool) (s : string) : string :=
  str_rev (lstrip_chars p (str_rev (lstrip_chars p s) "")) "".

(** [s.replace(sub, "")]: every occurrence from the left, without overlap. *)
Fixpoint remove_sub (skip : nat) (sub s : string) : string :=
  match s with
  | EmptyString => ""
  | String c s' =>
      match skip with
      | S k => remove_sub k sub s'
      | O => if String.prefix sub s then remove_sub (String.length sub - 1) sub s' else String c (remove_sub 0 sub s')
      end
  end.

(** ** [uuid.UUID] *)

Definition is_hex_lower (c : ascii) : bool := is_digit c || ascii_between "a" "f" c.

Definition hex_value (c : ascii) : option Z :=
  if is_digit c then Some (digit_value c)
  else if ascii_between "a" "f" c then Some (Z.of_N (N_of_ascii c) - 87)
  else if ascii_between "A" "F" c then Some (Z.of_N (N_of_ascii c) - 55)
  else None.

(** Digits of [int(s, 16)]: single underscores may separate digits. *)
Fixpoint read_hex (acc : Z) (after_digit : bool) (s : string) : option Z :=
  match s with
  | EmptyString => if after_digit then Some acc else None
  | String c s' =>
      match hex_value c with
      | Some v => read_hex (acc * 16 + v) true s'
      | None => if after_digit && Ascii.eqb c "_" then read_hex acc false s' else None
      end
  end.

Definition read_hex_prefixed (s : string) : option Z :=
  match s with
  | String "0" (String x s') =>
      if Ascii.eqb x "x" || Ascii.eqb x "X" then
        match s' with String "_" s'' => read_hex 0 false s'' | _ => read_hex 0 false s' end
      else read_hex 0 false s
  | _ => read_hex 0 false s
  end.

(** [int(s, 16)] *)
Definition py_int16 (s : string) : option Z :=
  match strip s with
  | String "-" s' => Z.opp <$> read_hex_prefixed s'
  | String "+" s' => read_hex_prefixed s'
  | s' => read_hex_prefixed s'
  end.

Fixpoint hex_fixed (k : nat) (n : Z) : list ascii :=
  match k with
  | O => []
  | S k' => hex_fixed k' (n / 16) ++ [hex_digit (Z.to_N (n mod 16))]
  end.

Definition group (i n : nat) (l : list ascii) : string := String.string_of_list_ascii (take n (drop i l)).

(** [str(UUID)] *)
Definition uuid_text (n : Z) : string :=
  let h := hex_fixed 32 n in
  str_join "-" [group 0 8 h; group 8 4 h; group 12 4 h; group 16 4 h; group 20 12 h].

Definition is_brace (c : ascii) : bool := Ascii.eqb c "{" || Ascii.eqb c "}".

(** [str(UUID(raw))]; [None] is [ValueError]. *)
Definition py_uuid (raw : string) : option string :=
  let h := replace_char "-" "" (strip_chars is_brace (remove_sub 0 "uuid:" (remove_sub 0 "urn:" raw))) in
  if (String.length h =? 32)%nat
  then n ← py_int16 h; if (0 <=? n) && (n <? 2 ^ 128) then Some (uuid_text n) else None
  else None.

(** ** Building and parsing *)

Record ParsedObjectPath := mkParsedPath {
  po_tenant_id : uuid;
  po_source_id : string;
  po_year : Z;
  po_month : Z;
  po_day : Z;
  po_trace_id : string;
  po_ext : string
}.

Definition coerce_tenant_uuid (raw : string) : res string :=
  match py_uuid raw with Some t => Ok t | None => Err StorageError end.

Definition date_of (us : Z) : civil := civil_from_days (us / US_PER_DAY).

Definition build_object_path (tenant_id source_id trace_id : string) (event_ts : Z) (ext : string) : res string :=
  let tid_raw := strip tenant_id in
  let sid := strip source_id in
  let trace := strip trace_id in
  let extension := lstrip_chars (Ascii.eqb ".") (strip ext) in
  raise_if (existsb (String.eqb "") [tid_raw; sid; trace; extension]) StorageError ≫= fun _ =>
  tid ← coerce_tenant_uuid tid_raw;
  let ts := date_of event_ts in
  Ok (str_join "/" ["tenant"; tid; "source"; sid; "yyyy=" +:+ pad 4 (c_year ts); "mm=" +:+ pad 2 (c_month ts);
                    "dd=" +:+ pad 2 (c_day ts); trace +:+ "." +:+ extension]).

(** [[0-9a-f]{8}-[0-9a-f]{4}-[0-9a-f]{4}-[0-9a-f]{4}-[0-9a-f]{12}] *)
Definition hex_group (n : nat) (s : string) : bool := (String.length s =? n)%nat && str_all is_hex_lower s.
Definition is_uuid_text (s : string) : bool :=
  match split_on "-" s with
  | [a; b; c; d; e] => hex_group 8 a && hex_group 4 b && hex_group 4 c && hex_group 4 d && hex_group 12 e
  | _ => false
  end.

(** A labelled number of exactly [n] digits: [yyyy=([0-9]{4})]. *)
Definition labelled (label : string) (n : nat) (s : string) : option Z :=
  if String.prefix label s then
    let digits := String.substring (String.length label) (String.length s - String.length label) s in
    if (String.length digits =? n)%nat then read_nat digits else None
  else None.

(** [s.rpartition(c)]: the text before and after the last [c]. *)
Fixpoint rpartition (c : ascii) (s : string) : option (string * string) :=
  match s with
  | EmptyString => None
  | String a s' =>
      match rpartition c s' with
      | Some (l, r) => Some (String a l, r)
      | None => if Ascii.eqb a c then Some ("", s') else None
      end
  end.

(** The named groups of the path pattern. *)
Definition match_path (s : string) : option (string * string * Z * Z * Z * string) :=
  match split_on "/" s with
  | [t; tenant; so; source; yyyy; mm; dd; filename] =>
      if String.eqb t "tenant" && is_uuid_text tenant && String.eqb so "source" && negb (String.eqb source "")
         && negb (String.eqb filename "")
      then y ← labelled "yyyy=" 4 yyyy; m ← labelled "mm=" 2 mm; d ← labelled "dd=" 2 dd;
           Some (tenant, source, y, m, d, filename)
      else None
  | _ => None
  end.

Definition parse_object_path (path : string) : res ParsedObjectPath :=
  let candidate := strip path in
  raise_if (String.prefix "gs://" candidate) StorageError ≫= fun _ =>
  match match_path candidate with
  | None => Err StorageError
  | Some (tenant, source, y, m, d, filename) =>
      match rpartition "." filename with
      | Some (trace, extension) =>
          raise_if (String.eqb trace "" || String.eqb extension "") StorageError ≫= fun _ =>
          match py_uuid tenant with
          | Some t => Ok (mkParsedPath t source y m d trace extension)
          | None => Err ValueError
          end
      | None => Err StorageError
      end
  end.

Definition is_bucket_char (c : ascii) : bool := is_digit c || is_lower c || Ascii.eqb c "-".

(** [^gs://([a-z0-9-]+)/(.+)$], on stripped text: the bucket excludes the slash, and
    a dot does not match a newline. *)
Definition split_object_uri (uri : string) : res (string * string) :=
  let candidate := strip uri in
  if String.prefix "gs://" candidate then
    let rest := String.substring 5 (String.length candidate - 5) candidate in
    match split_at_char (Ascii.eqb "/") rest with
    | (bucket, Some key) =>
        if negb (String.eqb bucket "") && str_all is_bucket_char bucket
           && negb (String.eqb key "") && negb (has_char "010" key)
        then Ok (bucket, key) else Err StorageError
    | _ => Err StorageError
    end
  else Err StorageError.
