(* ===== verification/PathTheorems.v ===== *)
(** PathTheorems: splitting and joining, the canonical text of a UUID, and the
    inverse laws of object paths. *)

From S2P Require Import Prelude Text Values Decimals Paths.

Local Open Scope Z_scope.

(** ** Splitting and joining *)

Definition sep (c : ascii) : string := String c "".

Lemma has_char_cons c a s : has_char c (String a s) = Ascii.eqb a c || has_char c s.
Proof. unfold has_char. cbn. by destruct (Ascii.eqb a c). Qed.

Lemma has_char_app c s t : has_char c (s +:+ t) = has_char c s || has_char c t.
Proof. induction s as [|a s IH]; [done|]. change (String a s +:+ t) with (String a (s +:+ t)). rewrite !has_char_cons, IH. by destruct (Ascii.eqb a c). Qed.

Lemma split_on_plain c s : has_char c s = false -> split_on c s = [s].
Proof.
  induction s as [|a s IH]; [done|]. rewrite has_char_cons. intros [Ha Hs]%orb_false_iff. cbn. by rewrite Ha, IH.
Qed.

Lemma split_on_app c p s : has_char c p = false -> split_on c (p +:+ String c s) = p :: split_on c s.
Proof.
  assert (forall a t, split_on c (String a t) = if Ascii.eqb a c then "" :: split_on c t
      else match split_on c t with [] => [String a ""] | p :: ps => String a p :: ps end) as Hs by done.
  induction p as [|a p IH].
  - intros _. change ("" +:+ String c s) with (String c s). by rewrite Hs, Ascii.eqb_refl.
  - rewrite has_char_cons. intros [Ha Hp]%orb_false_iff. change (String a p +:+ String c s) with (String a (p +:+ String c s)).
    by rewrite Hs, Ha, IH.
Qed.

Lemma split_on_join c parts : parts <> [] -> Forall (fun p => has_char c p = false) parts ->
  split_on c (str_join (sep c) parts) = parts.
Proof.
  intros Hne Hf. induction Hf as [|p parts Hp Hf IH]; [done|]. destruct parts as [|q parts].
  - by apply split_on_plain.
  - change (str_join (sep c) (p :: q :: parts)) with (p +:+ String c (str_join (sep c) (q :: parts))).
    rewrite split_on_app by done. by rewrite IH.
Qed.

Lemma split_on_nonempty c s : split_on c s <> [].
Proof. destruct s as [|a s]; [done|]. cbn. destruct (Ascii.eqb a c); [done|]. by destruct (split_on c s). Qed.

Lemma join_cons (s p : string) ps : str_join s (p :: ps) = match ps with [] => p | _ => p +:+ s +:+ str_join s ps end.
Proof. by destruct ps. Qed.

Lemma join_split c s : str_join (sep c) (split_on c s) = s.
Proof.
  induction s as [|a s IH]; [done|]. cbn -[str_join Ascii.eqb]. pose proof (split_on_nonempty c s) as Hne.
  destruct (Ascii.eqb_spec a c) as [->|].
  - rewrite join_cons. destruct (split_on c s) as [|p ps]; [done|]. by rewrite IH.
  - destruct (split_on c s) as [|p ps]; [done|]. rewrite join_cons in IH |- *. destruct ps as [|q ps]; [by rewrite IH|].
    change (String a (p +:+ sep c +:+ str_join (sep c) (q :: ps)) = String a s). by rewrite IH.
Qed.

Lemma split_parts_plain c s : Forall (fun p => has_char c p = false) (split_on c s).
Proof.
  induction s as [|a s IH]; cbn -[Ascii.eqb]; [by repeat constructor|].
  destruct (Ascii.eqb a c) eqn:Ha; [by constructor|].
  destruct (split_on c s) as [|p ps]; apply Forall_cons in IH || clear IH.
  - constructor; [|constructor]. by rewrite has_char_cons, Ha.
  - destruct IH as [Hp Hps]. constructor; [|done]. by rewrite has_char_cons, Ha, Hp.
Qed.

(** ** Stripping *)

Lemma str_all_cons p a s : str_all p (String a s) = p a && str_all p s.
Proof. done. Qed.

Lemma str_all_impl (p q : ascii -> bool) s : (forall c, p c = true -> q c = true) -> str_all p s = true -> str_all q s = true.
Proof. intros Hpq. induction s as [|a s IH]; [done|]. cbn. rewrite !andb_true_iff. naive_solver. Qed.

Lemma str_rev_cons a s acc : str_rev (String a s) acc = str_rev s (String a acc).
Proof. done. Qed.

Lemma str_rev_app s acc : str_rev s acc = str_rev s "" +:+ acc.
Proof.
  revert acc. induction s as [|a s IH]; intros acc; [done|]. rewrite !str_rev_cons, IH, (IH (String a "")), str_app_assoc. done.
Qed.

Lemma str_rev_rev s : str_rev (str_rev s "") "" = s.
Proof.
  assert (forall s acc, str_rev (str_rev s acc) "" = str_rev acc "" +:+ s) as H.
  { induction s0 as [|a s0 IH]; intros acc; [by rewrite str_app_nil_r|].
    rewrite str_rev_cons, IH, str_rev_cons, (str_rev_app acc (String a "")), str_app_assoc. done. }
  by rewrite H.
Qed.

(** Text that neither begins nor ends with a stripped character. *)
Definition starts_clean (p : ascii -> bool) (s : string) : Prop :=
  match s with EmptyString => True | String c _ => p c = false end.

Lemma lstrip_clean p s : starts_clean p s -> lstrip_chars p s = s.
Proof. destruct s as [|c s]; [done|]. cbn. by intros ->. Qed.

Lemma lstrip_is s : lstrip s = lstrip_chars is_space s.
Proof. induction s as [|c s IH]; [done|]. cbn. by rewrite IH. Qed.

Lemma strip_is s : strip s = strip_chars is_space s.
Proof. unfold strip, strip_chars. by rewrite !lstrip_is. Qed.

Lemma strip_chars_clean p s : starts_clean p s -> starts_clean p (str_rev s "") -> strip_chars p s = s.
Proof. intros H1 H2. unfold strip_chars. rewrite (lstrip_clean p s H1), (lstrip_clean p _ H2). apply str_rev_rev. Qed.

Lemma str_all_rev p s acc : str_all p (str_rev s acc) = str_all p s && str_all p acc.
Proof.
  revert acc. induction s as [|a s IH]; intros acc; [done|]. rewrite str_rev_cons, IH, !str_all_cons.
  by destruct (p a), (str_all p s), (str_all p acc).
Qed.

Lemma starts_clean_all p q s : (forall c, q c = true -> p c = false) -> str_all q s = true -> starts_clean p s.
Proof. intros Hpq. destruct s as [|c s]; [done|]. cbn. rewrite andb_true_iff. naive_solver. Qed.

(** Stripping leaves text of a class without stripped characters alone. *)
Lemma strip_chars_class p q s : (forall c, q c = true -> p c = false) -> str_all q s = true -> strip_chars p s = s.
Proof.
  intros Hpq Hs. apply strip_chars_clean; eapply starts_clean_all; try exact Hpq; [done|].
  rewrite str_all_rev. by rewrite Hs.
Qed.

Lemma lstrip_starts p s : starts_clean p (lstrip_chars p s).
Proof. induction s as [|c s IH]; [done|]. cbn. by destruct (p c) eqn:Hc; [|cbn]. Qed.

(** A stripped suffix: text with a clean end keeps a clean end after more text. *)
Lemma rev_starts_app p s t : t <> "" -> starts_clean p (str_rev t "") -> starts_clean p (str_rev (s +:+ t) "").
Proof.
  intros Hne Ht. assert (str_rev (s +:+ t) "" = str_rev t "" +:+ str_rev s "") as ->.
  { clear. induction s as [|a s IH]; [by rewrite str_app_nil_r|].
    rewrite str_app_cons, !str_rev_cons, (str_rev_app (s +:+ t)), IH, (str_rev_app s (String a "")).
    by rewrite str_app_assoc. }
  destruct (str_rev t "") as [|c r] eqn:Hr; [|done].
  assert (str_rev (str_rev t "") "" = t) as Hrr by apply str_rev_rev. rewrite Hr in Hrr. cbn in Hrr. congruence.
Qed.

Lemma strip_rev_starts p s : starts_clean p (str_rev (strip_chars p s) "").
Proof. unfold strip_chars. rewrite str_rev_rev. apply lstrip_starts. Qed.

(** ** Hexadecimal digits *)

Definition hex_val (c : ascii) : Z := default 0 (hex_value c).

Lemma hex_value_lower c : is_hex_lower c = true -> hex_value c = Some (hex_val c) /\ 0 <= hex_val c < 16 /\
  hex_digit (Z.to_N (hex_val c)) = c.
Proof. destruct c as [[] [] [] [] [] [] [] []]; cbn; done. Qed.

Definition hex_num (l : list ascii) : Z := fold_left (fun acc c => acc * 16 + hex_val c) l 0.

Lemma hex_num_snoc l c : hex_num (l ++ [c]) = hex_num l * 16 + hex_val c.
Proof. unfold hex_num. by rewrite fold_left_app. Qed.

Lemma hex_fixed_num l : Forall (fun c => is_hex_lower c = true) l -> hex_fixed (length l) (hex_num l) = l.
Proof.
  induction l as [|c l IH] using rev_ind; intros Hf; [done|]. apply Forall_app in Hf as [Hl [Hc _]%Forall_cons].
  destruct (hex_value_lower c Hc) as (_ & Hb & Hd). rewrite length_app, Nat.add_comm, hex_num_snoc. cbn [length Nat.add hex_fixed].
  rewrite Z.div_add_l, (Z.div_small (hex_val c)), Z.add_0_r by lia. rewrite (IH Hl). f_equal. f_equal.
  rewrite Z.add_comm, Z.mod_add, Z.mod_small by lia. done.
Qed.

Lemma hex_num_bound l : Forall (fun c => is_hex_lower c = true) l -> 0 <= hex_num l < 16 ^ Z.of_nat (length l).
Proof.
  induction l as [|c l IH] using rev_ind; intros Hf; [cbn; lia|]. apply Forall_app in Hf as [Hl [Hc _]%Forall_cons].
  destruct (hex_value_lower c Hc) as (_ & Hb & _). specialize (IH Hl). rewrite hex_num_snoc, length_app. cbn [length].
  rewrite Nat2Z.inj_add, Z.pow_add_r by lia. change (16 ^ Z.of_nat 1) with 16. nia.
Qed.

Lemma hex_digit_lower n : (n < 16)%N -> is_hex_lower (hex_digit n) = true.
Proof.
  intros Hn. assert (Forall (fun n => is_hex_lower (hex_digit n) = true) (map N.of_nat (seq 0 16))) as Hf
    by (repeat constructor).
  rewrite Forall_forall in Hf. apply Hf. apply list_elem_of_fmap. exists (N.to_nat n). rewrite N2Nat.id. split; [done|].
  apply elem_of_seq. lia.
Qed.

Lemma hex_fixed_lower k n : Forall (fun c => is_hex_lower c = true) (hex_fixed k n) /\ length (hex_fixed k n) = k.
Proof.
  revert n. induction k as [|k IH]; intros n; [by split; [constructor|]|]. cbn [hex_fixed]. destruct (IH (n / 16)) as [Hf Hl].
  split; [|rewrite length_app, Hl; cbn; lia]. apply Forall_app. split; [done|]. constructor; [|constructor].
  apply hex_digit_lower. pose proof (Z.mod_pos_bound n 16 ltac:(lia)). lia.
Qed.

(** ** The canonical text of a UUID *)

Abbreviation chars := String.list_ascii_of_string.

Lemma chars_app s t : chars (s +:+ t) = chars s ++ chars t.
Proof. induction s as [|a s IH]; [done|]. rewrite str_app_cons. cbn. by rewrite IH. Qed.

Lemma chars_all p s : str_all p s = true <-> Forall (fun c => p c = true) (chars s).
Proof. induction s as [|a s IH]; cbn; [done|]. rewrite andb_true_iff, Forall_cons, IH. done. Qed.

Lemma chars_length s : length (chars s) = String.length s.
Proof. induction s as [|a s IH]; cbn; [done|]. by rewrite IH. Qed.

Lemma read_hex_lower s : forall acc b, str_all is_hex_lower s = true -> s <> "" \/ b = true ->
  read_hex acc b s = Some (fold_left (fun acc c => acc * 16 + hex_val c) (chars s) acc).
Proof.
  induction s as [|c s IH]; intros acc b Hs Hb; [destruct Hb as [?| ->]; done|].
  cbn in Hs. apply andb_true_iff in Hs as [Hc Hs]. destruct (hex_value_lower c Hc) as (Hv & _ & _).
  cbn -[hex_value]. rewrite Hv. apply IH; [done|by right].
Qed.

Lemma not_sign_lower c : is_hex_lower c = true -> c <> "-"%char /\ c <> "+"%char /\ c <> "x"%char /\ c <> "X"%char /\
  is_space c = false /\ is_brace c = false /\ c <> "u"%char.
Proof. destruct c as [[] [] [] [] [] [] [] []]; cbn; done. Qed.

Lemma prefixed_lower s : str_all is_hex_lower s = true -> s <> "" -> read_hex_prefixed s = Some (hex_num (chars s)).
Proof.
  intros Hs Hne. destruct s as [|c s]; [done|]. pose proof Hs as Hs'. cbn in Hs'. apply andb_true_iff in Hs' as [Hc Hs'].
  assert (read_hex_prefixed (String c s) = read_hex 0 false (String c s)) as ->; [|apply read_hex_lower; auto].
  unfold read_hex_prefixed. destruct s as [|x s]; [by destruct c as [[] [] [] [] [] [] [] []]|].
  cbn in Hs'. apply andb_true_iff in Hs' as [Hx _]. destruct (not_sign_lower x Hx) as (_ & _ & H1 & H2 & _).
  apply Ascii.eqb_neq in H1. apply Ascii.eqb_neq in H2. rewrite H1, H2.
  by destruct c as [[] [] [] [] [] [] [] []].
Qed.

Lemma int16_lower s : str_all is_hex_lower s = true -> s <> "" -> py_int16 s = Some (hex_num (chars s)).
Proof.
  intros Hs Hne. unfold py_int16. rewrite strip_is, (strip_chars_class is_space is_hex_lower s); [|apply not_sign_lower|done].
  destruct s as [|c s]; [done|]. pose proof Hs as Hs'. cbn in Hs'. apply andb_true_iff in Hs' as [Hc _].
  rewrite <- (prefixed_lower (String c s)) by done. by destruct c as [[] [] [] [] [] [] [] []].
Qed.

Lemma remove_sub_plain u sub p s :
  (forall c, p c = true -> c <> u) -> str_all p s = true -> remove_sub 0 (String u sub) s = s.
Proof.
  intros Hp. induction s as [|c s IH]; [done|]. rewrite str_all_cons. intros [Hc Hs]%andb_true_iff.
  assert (String.prefix (String u sub) (String c s) = false) as Hpre.
  { cbn. destruct (ascii_dec u c) as [->|]; [|done]. exfalso. by apply (Hp c). }
  cbn -[String.prefix]. rewrite Hpre. by rewrite IH.
Qed.

Definition is_uuid_char (c : ascii) : bool := is_hex_lower c || Ascii.eqb c "-".

Lemma uuid_char_plain c : is_uuid_char c = true -> c <> "u"%char /\ is_brace c = false.
Proof. destruct c as [[] [] [] [] [] [] [] []]; cbn; done. Qed.

Lemma replace_dash_app s t : replace_char "-" "" (s +:+ t) = replace_char "-" "" s +:+ replace_char "-" "" t.
Proof.
  induction s as [|a s IH]; [done|]. rewrite str_app_cons. cbn -[Ascii.eqb].
  destruct (Ascii.eqb a "-"); cbn -[Ascii.eqb]; rewrite IH; done.
Qed.

Lemma replace_dash_hex s : str_all is_hex_lower s = true -> replace_char "-" "" s = s.
Proof. intros Hs. by apply (replace_char_id "-" "" is_hex_lower). Qed.

Lemma is_uuid_parts t : is_uuid_text t = true ->
  exists a b c d e, t = str_join "-" [a; b; c; d; e] /\
    hex_group 8 a = true /\ hex_group 4 b = true /\ hex_group 4 c = true /\ hex_group 4 d = true /\ hex_group 12 e = true.
Proof.
  unfold is_uuid_text. pose proof (join_split "-" t) as Hj. unfold sep in Hj.
  destruct (split_on "-" t) as [|a [|b [|c [|d [|e [|]]]]]]; try done. rewrite !andb_true_iff. intros [[[[Ha Hb] Hc] Hd] He].
  exists a, b, c, d, e. done.
Qed.

Lemma hex_group_spec n s : hex_group n s = true -> length (chars s) = n /\ str_all is_hex_lower s = true.
Proof. unfold hex_group. rewrite andb_true_iff, Nat.eqb_eq, chars_length. done. Qed.

Lemma group_here i n (pre x post : list ascii) s :
  length pre = i -> length x = n -> x = chars s -> group i n (pre ++ x ++ post) = s.
Proof.
  intros <- <- ->. unfold group. rewrite drop_app_length, take_app_length. apply String.string_of_list_ascii_of_string.
Qed.

Lemma py_uuid_canonical t : is_uuid_text t = true -> py_uuid t = Some t.
Proof.
  intros (a & b & c & d & e & -> & Ha & Hb & Hc & Hd & He)%is_uuid_parts.
  apply hex_group_spec in Ha as [La Ha], Hb as [Lb Hb], Hc as [Lc Hc], Hd as [Ld Hd], He as [Le He].
  set (t := str_join "-" [a; b; c; d; e]).
  assert (forall s, str_all is_hex_lower s = true -> str_all is_uuid_char s = true) as Hhex.
  { intros s. apply str_all_impl. intros x Hx. unfold is_uuid_char. by rewrite Hx. }
  assert (str_all is_uuid_char t = true) as Ht.
  { unfold t. cbn [str_join]. rewrite !str_all_app, (Hhex a), (Hhex b), (Hhex c), (Hhex d), (Hhex e) by done. done. }
  unfold py_uuid.
  rewrite (remove_sub_plain "u" "rn:" is_uuid_char t); [|intros x Hx; by apply uuid_char_plain|done].
  rewrite (remove_sub_plain "u" "uid:" is_uuid_char t); [|intros x Hx; by apply uuid_char_plain|done].
  rewrite (strip_chars_class is_brace is_uuid_char t); [|apply uuid_char_plain|done].
  assert (replace_char "-" "" t = a +:+ b +:+ c +:+ d +:+ e) as ->.
  { unfold t. cbn [str_join]. rewrite !replace_dash_app.
    by rewrite (replace_dash_hex a), (replace_dash_hex b), (replace_dash_hex c), (replace_dash_hex d), (replace_dash_hex e). }
  set (h := a +:+ b +:+ c +:+ d +:+ e).
  assert (chars h = chars a ++ chars b ++ chars c ++ chars d ++ chars e) as Hch by (unfold h; by rewrite !chars_app).
  assert (str_all is_hex_lower h = true) as Hh by (unfold h; rewrite !str_all_app, Ha, Hb, Hc, Hd, He; done).
  assert (String.length h = 32%nat) as Hl.
  { rewrite <- chars_length, Hch, !length_app, La, Lb, Lc, Ld, Le. done. }
  rewrite Hl. cbn [Nat.eqb]. rewrite int16_lower; [|done|by intros He0; rewrite He0 in Hl].
  cbn [mbind option_bind]. pose proof Hh as Hf. apply chars_all in Hf.
  pose proof (hex_num_bound _ Hf) as Hb'. rewrite chars_length, Hl in Hb'.
  assert ((0 <=? hex_num (chars h)) && (hex_num (chars h) <? 2 ^ 128) = true) as ->.
  { apply andb_true_iff. split; [apply Z.leb_le; lia|apply Z.ltb_lt]. change (2 ^ 128) with (16 ^ Z.of_nat 32). lia. }
  f_equal. unfold uuid_text. pose proof (hex_fixed_num _ Hf) as Hfix. rewrite chars_length, Hl in Hfix. rewrite Hfix, Hch.
  unfold t. f_equal. repeat f_equal.
  - by apply (group_here 0 8 [] (chars a)).
  - by apply (group_here 8 4 (chars a) (chars b)).
  - rewrite (app_assoc (chars a)). apply (group_here 12 4 (chars a ++ chars b) (chars c)); [rewrite length_app; lia|done..].
  - rewrite (app_assoc (chars a)), (app_assoc (chars a ++ chars b)).
    apply (group_here 16 4 ((chars a ++ chars b) ++ chars c) (chars d)); [rewrite !length_app; lia|done..].
  - rewrite (app_assoc (chars a)), (app_assoc (chars a ++ chars b)), (app_assoc ((chars a ++ chars b) ++ chars c)).
    rewrite <- (app_nil_r (chars e)).
    apply (group_here 20 12 (((chars a ++ chars b) ++ chars c) ++ chars d) (chars e)); [rewrite !length_app; lia|done..].
Qed.

Lemma string_chars l : chars (String.string_of_list_ascii l) = l.
Proof. apply String.list_ascii_of_string_of_list_ascii. Qed.

Lemma group_hex i n l : Forall (fun c => is_hex_lower c = true) l -> (i + n <= length l)%nat -> hex_group n (group i n l) = true.
Proof.
  intros Hf Hl. unfold hex_group, group. apply andb_true_iff. split.
  - apply Nat.eqb_eq. rewrite <- chars_length, string_chars, length_take, length_drop. lia.
  - apply chars_all. rewrite string_chars. by apply Forall_take, Forall_drop.
Qed.

Lemma hex_no_dash n s : hex_group n s = true -> has_char "-" s = false.
Proof.
  intros [_ Hs]%hex_group_spec. unfold has_char. apply negb_false_iff. eapply str_all_impl; [|exact Hs].
  intros c Hc. apply negb_true_iff, Ascii.eqb_neq. by apply not_sign_lower.
Qed.

Lemma uuid_text_canonical n : is_uuid_text (uuid_text n) = true.
Proof.
  destruct (hex_fixed_lower 32 n) as [Hf Hl]. unfold uuid_text, is_uuid_text.
  revert Hf Hl. generalize (hex_fixed 32 n). intros h Hf Hl.
  assert (hex_group 8 (group 0 8 h) = true /\ hex_group 4 (group 8 4 h) = true /\ hex_group 4 (group 12 4 h) = true /\
          hex_group 4 (group 16 4 h) = true /\ hex_group 12 (group 20 12 h) = true) as (H1 & H2 & H3 & H4 & H5)
    by (split_and!; (apply group_hex; [exact Hf|rewrite Hl; lia])).
  change "-" with (sep "-"). rewrite split_on_join; [by rewrite H1, H2, H3, H4, H5|done|].
  repeat constructor; by eapply hex_no_dash.
Qed.

Lemma py_uuid_sound raw t : py_uuid raw = Some t -> is_uuid_text t = true.
Proof.
  unfold py_uuid. destruct (Nat.eqb _ _); [|done]. destruct (py_int16 _) as [n|]; cbn [mbind option_bind]; [|done].
  destruct (_ && _); [|done]. intros Ht. apply (inj Some) in Ht as <-. apply uuid_text_canonical.
Qed.

(** ** Dates in paths *)

Lemma day_of_era_bound doe : 0 <= doe < 146097 ->
  let yoe := (doe - doe / 1460 + doe / 36524 - doe / 146096) / 365 in
  0 <= doe - (365 * yoe + yoe / 4 - yoe / 100) <= 365.
Proof. intros Hd yoe. subst yoe. Z.to_euclidean_division_equations; lia. Qed.

Lemma month_day_bound doy : 0 <= doy <= 365 ->
  let mp := (5 * doy + 2) / 153 in 0 <= mp <= 11 /\ 1 <= doy - (153 * mp + 2) / 5 + 1 <= 31.
Proof. intros Hd mp. subst mp. Z.to_euclidean_division_equations; lia. Qed.

Lemma civil_bounds z : 1 <= c_month (civil_from_days z) <= 12 /\ 1 <= c_day (civil_from_days z) <= 31.
Proof.
  unfold civil_from_days. cbn [c_month c_day].
  assert (0 <= z + 719468 - (z + 719468) / 146097 * 146097 < 146097) as Hd by (Z.to_euclidean_division_equations; lia).
  revert Hd. generalize (z + 719468 - (z + 719468) / 146097 * 146097). intros doe Hd.
  destruct (month_day_bound _ (day_of_era_bound doe Hd)) as [Hm Hday]. split; [|exact Hday].
  destruct (Z.ltb_spec ((5 * (doe - (365 * ((doe - doe / 1460 + doe / 36524 - doe / 146096) / 365) +
    (doe - doe / 1460 + doe / 36524 - doe / 146096) / 365 / 4 - (doe - doe / 1460 + doe / 36524 - doe / 146096) / 365 / 100)) + 2) / 153) 10); lia.
Qed.

(** ** Decimal numerals read back *)

Lemma read_char n s acc : (n < 10)%N -> read_digits acc (String (pretty_N_char n) s) = read_digits (acc * 10 + Z.of_N n) s.
Proof.
  intros Hn. assert (n ∈ map N.of_nat (seq 0 10)) as Hc.
  { apply list_elem_of_fmap. exists (N.to_nat n). rewrite N2Nat.id. split; [done|]. apply elem_of_seq. lia. }
  cbn in Hc. rewrite !elem_of_cons, elem_of_nil in Hc. by destruct_or! Hc; subst.
Qed.

Lemma digit_char n : is_digit (pretty_N_char n) = true.
Proof. unfold pretty_N_char. by repeat case_match. Qed.

Lemma read_pretty_go x : forall s, read_digits 0 (pretty_N_go x s) = read_digits (Z.of_N x) s.
Proof.
  induction (N.lt_wf_0 x) as [x _ IH]. intros s. destruct (decide (0 < x)%N) as [Hx|Hx].
  - rewrite pretty_N_go_step, IH, read_char by (try apply N.mod_lt; try apply N.div_lt; lia).
    f_equal. pose proof (N.div_mod x 10 ltac:(lia)). lia.
  - assert (x = 0%N) as -> by lia. by rewrite pretty_N_go_0.
Qed.

Lemma pretty_go_length k : forall x s, (x < 10 ^ N.of_nat k)%N -> (String.length (pretty_N_go x s) <= k + String.length s)%nat.
Proof.
  induction k as [|k IH]; intros x s Hx.
  - assert (x = 0%N) as -> by (cbn in Hx; lia). by rewrite pretty_N_go_0.
  - destruct (decide (0 < x)%N) as [Hp|Hp]; [|assert (x = 0%N) as -> by lia; rewrite pretty_N_go_0; lia].
    rewrite pretty_N_go_step by done. rewrite Nat2N.inj_succ, N.pow_succ_r' in Hx.
    etrans; [apply IH; apply N.Div0.div_lt_upper_bound; lia|]. cbn. lia.
Qed.

Lemma pretty_go_digits x : forall s, str_all is_digit s = true -> str_all is_digit (pretty_N_go x s) = true.
Proof.
  induction (N.lt_wf_0 x) as [x _ IH]. intros s Hs. destruct (decide (0 < x)%N) as [Hx|Hx].
  - rewrite pretty_N_go_step by done. apply IH; [apply N.div_lt; lia|]. rewrite str_all_cons, digit_char. done.
  - assert (x = 0%N) as -> by lia. by rewrite pretty_N_go_0.
Qed.

Lemma pretty_numeral z w : (0 < w)%nat -> 0 <= z < 10 ^ Z.of_nat w ->
  read_digits 0 (pretty z) = Some z /\ (String.length (pretty z) <= w)%nat /\ str_all is_digit (pretty z) = true.
Proof.
  intros Hw Hz. destruct z as [|p|p]; [cbn; split_and!; [done|lia|done]| |lia].
  change (pretty (Z.pos p)) with (pretty_N_go (N.pos p) ""). rewrite read_pretty_go. split_and!; [done| |by apply pretty_go_digits].
  etrans; [apply (pretty_go_length w)|cbn; lia]. apply N2Z.inj_lt. rewrite N2Z.inj_pow, nat_N_Z. apply Hz.
Qed.

Lemma zeros_spec n s : read_digits 0 (zeros n +:+ s) = read_digits 0 s /\
  String.length (zeros n +:+ s) = (n + String.length s)%nat /\ str_all is_digit (zeros n +:+ s) = str_all is_digit s.
Proof.
  induction n as [|n (IH1 & IH2 & IH3)]; [done|]. cbn [zeros]. rewrite !str_app_cons. split_and!.
  - exact IH1.
  - cbn [String.length]. lia.
  - rewrite str_all_cons. exact IH3.
Qed.

Lemma pad_numeral z w : (0 < w)%nat -> 0 <= z < 10 ^ Z.of_nat w ->
  read_nat (pad w z) = Some z /\ String.length (pad w z) = w /\ str_all is_digit (pad w z) = true.
Proof.
  intros Hw Hz. destruct (pretty_numeral z w Hw Hz) as (Hr & Hl & Hd). unfold pad.
  destruct (zeros_spec (w - String.length (pretty z)) (pretty z)) as (Hz1 & Hz2 & Hz3).
  rewrite Hz2, Hz3. split_and!; [|lia|done]. unfold read_nat. rewrite Hz1, Hr.
  destruct (String.eqb_spec (zeros (w - String.length (pretty z)) +:+ pretty z) "") as [He|]; [|done].
  rewrite He in Hz2. cbn in Hz2. lia.
Qed.

Lemma prefix_app (a b : string) : String.prefix a (a +:+ b) = true.
Proof. induction a as [|c a IH]; [by destruct b|]. rewrite str_app_cons. cbn. by destruct (ascii_dec c c). Qed.

Lemma str_length_app (a b : string) : String.length (a +:+ b) = (String.length a + String.length b)%nat.
Proof. induction a as [|c a IH]; [done|]. rewrite str_app_cons. cbn. by rewrite IH. Qed.

Lemma substring_full (b : string) : String.substring 0 (String.length b) b = b.
Proof. induction b as [|c b IH]; [done|]. cbn. by rewrite IH. Qed.

Lemma substring_app (a b : string) : String.substring (String.length a) (String.length b) (a +:+ b) = b.
Proof. induction a as [|c a IH]; [apply substring_full|]. rewrite str_app_cons. cbn. apply IH. Qed.

Lemma labelled_pad label w z : (0 < w)%nat -> 0 <= z < 10 ^ Z.of_nat w -> labelled label w (label +:+ pad w z) = Some z.
Proof.
  intros Hw Hz. destruct (pad_numeral z w Hw Hz) as (Hr & Hl & _). unfold labelled. rewrite prefix_app, str_length_app.
  replace (String.length label + String.length (pad w z) - String.length label)%nat with (String.length (pad w z)) by lia.
  rewrite substring_app, Hl, Nat.eqb_refl. done.
Qed.

Lemma digits_no_char c s : is_digit c = false -> str_all is_digit s = true -> has_char c s = false.
Proof.
  intros Hc Hs. unfold has_char. apply negb_false_iff. eapply str_all_impl; [|exact Hs]. intros x Hx.
  apply negb_true_iff, Ascii.eqb_neq. congruence.
Qed.

(** ** The inverse laws *)

Lemma rpartition_none c s : has_char c s = false -> rpartition c s = None.
Proof.
  induction s as [|a s IH]; [done|]. rewrite has_char_cons. intros [Ha Hs]%orb_false_iff. cbn -[Ascii.eqb]. by rewrite IH, Ha.
Qed.

Lemma rpartition_app c l r : has_char c r = false -> rpartition c (l +:+ String c r) = Some (l, r).
Proof.
  intros Hr. induction l as [|a l IH].
  - change ("" +:+ String c r) with (String c r). cbn -[Ascii.eqb]. by rewrite rpartition_none, Ascii.eqb_refl.
  - rewrite str_app_cons. cbn -[Ascii.eqb]. by rewrite IH.
Qed.

Lemma lstrip_suffix p s : exists pre, s = pre +:+ lstrip_chars p s.
Proof.
  induction s as [|c s [pre IH]]; [by exists ""|]. cbn [lstrip_chars]. destruct (p c); [|by exists ""].
  exists (String c pre). by rewrite str_app_cons, <- IH.
Qed.

Lemma rev_app (a b : string) : str_rev (a +:+ b) "" = str_rev b "" +:+ str_rev a "".
Proof.
  induction a as [|c a IH]; [by rewrite str_app_nil_r|].
  by rewrite str_app_cons, !str_rev_cons, (str_rev_app (a +:+ b)), IH, (str_rev_app a (String c "")), str_app_assoc.
Qed.

Lemma suffix_end_clean p (pre s : string) : s <> "" -> starts_clean p (str_rev (pre +:+ s) "") -> starts_clean p (str_rev s "").
Proof.
  intros Hne. rewrite rev_app. destruct (str_rev s "") as [|c r] eqn:Hr; [|done].
  pose proof (str_rev_rev s) as Hrr. rewrite Hr in Hrr. cbn in Hrr. congruence.
Qed.

Lemma uuid_no_slash t : is_uuid_text t = true -> has_char "/" t = false.
Proof.
  intros (a & b & c & d & e & -> & Ha & Hb & Hc & Hd & He)%is_uuid_parts. cbn [str_join]. rewrite !has_char_app.
  assert (forall n s, hex_group n s = true -> has_char "/" s = false) as Hg.
  { intros n s [_ Hs]%hex_group_spec. unfold has_char. apply negb_false_iff. eapply str_all_impl; [|exact Hs].
    intros x Hx. apply negb_true_iff, Ascii.eqb_neq. intros ->. done. }
  by rewrite (Hg _ _ Ha), (Hg _ _ Hb), (Hg _ _ Hc), (Hg _ _ Hd), (Hg _ _ He).
Qed.

Lemma not_empty_eqb s : String.eqb "" s = false -> String.eqb s "" = false /\ s <> "".
Proof. by destruct s. Qed.

Lemma built_parts tenant source trace ts ext path :
  build_object_path tenant source trace ts ext = Ok path ->
  exists t, py_uuid (strip tenant) = Some t /\
    let extension := lstrip_chars (Ascii.eqb ".") (strip ext) in
    strip source <> "" /\ strip trace <> "" /\ extension <> "" /\
    path = str_join "/" ["tenant"; t; "source"; strip source; "yyyy=" +:+ pad 4 (c_year (date_of ts));
      "mm=" +:+ pad 2 (c_month (date_of ts)); "dd=" +:+ pad 2 (c_day (date_of ts)); strip trace +:+ "." +:+ extension].
Proof.
  unfold build_object_path, coerce_tenant_uuid. intros Hb. inv_ok.
  destruct (py_uuid (strip tenant)) as [t|]; [|done]. injection Hs0 as ->. exists a0. split; [done|].
  cbn [existsb] in Hs. rewrite !orb_false_iff in Hs. destruct Hs as (_ & H1 & H2 & H3 & _).
  apply not_empty_eqb in H1 as [_ H1], H2 as [_ H2], H3 as [_ H3]. done.
Qed.

Lemma parse_build tenant source trace ts ext path :
  build_object_path tenant source trace ts ext = Ok path ->
  let extension := lstrip_chars (Ascii.eqb ".") (strip ext) in
  0 <= c_year (date_of ts) <= 9999 ->
  has_char "/" (strip source) = false -> has_char "/" (strip trace) = false ->
  has_char "/" extension = false -> has_char "." extension = false ->
  exists t, py_uuid (strip tenant) = Some t /\
    parse_object_path path = Ok (mkParsedPath t (strip source) (c_year (date_of ts)) (c_month (date_of ts)) (c_day (date_of ts))
                                   (strip trace) extension).
Proof.
  intros (t & Ht & Hs & Htr & Hx & ->)%built_parts extension Hy Hns Hnt Hne Hnd. exists t. split; [done|].
  pose proof (py_uuid_sound _ _ Ht) as Hu. pose proof (civil_bounds (ts / US_PER_DAY)) as [Hm Hd].
  fold (date_of ts) in Hm, Hd. fold extension in Hx |- *.
  set (parts := ["tenant"; t; "source"; strip source; "yyyy=" +:+ pad 4 (c_year (date_of ts));
    "mm=" +:+ pad 2 (c_month (date_of ts)); "dd=" +:+ pad 2 (c_day (date_of ts)); strip trace +:+ "." +:+ extension]).
  assert (strip (str_join "/" parts) = str_join "/" parts) as Hstrip.
  { rewrite strip_is. apply strip_chars_clean; [done|].
    assert (exists pre, str_join "/" parts = pre +:+ extension) as (pre & ->).
    { unfold parts. cbn [str_join]. eexists. rewrite <- !str_app_assoc. done. }
    apply rev_starts_app; [done|]. destruct (lstrip_suffix (Ascii.eqb ".") (strip ext)) as [pre' Hp].
    apply (suffix_end_clean is_space pre'); [done|]. unfold extension. rewrite <- Hp, strip_is. apply strip_rev_starts. }
  unfold parse_object_path. rewrite Hstrip.
  assert (String.prefix "gs://" (str_join "/" parts) = false) as -> by done. cbn [raise_if mbind result_bind].
  unfold match_path. change "/" with (sep "/"). rewrite split_on_join; [|done|].
  2:{ destruct (pad_numeral (c_year (date_of ts)) 4) as (_ & _ & D1); [lia|lia|].
      destruct (pad_numeral (c_month (date_of ts)) 2) as (_ & _ & D2); [lia|lia|].
      destruct (pad_numeral (c_day (date_of ts)) 2) as (_ & _ & D3); [lia|lia|].
      repeat constructor; rewrite ?has_char_app, ?Hns, ?Hnt, ?Hne, ?(digits_no_char "/" _ eq_refl D1),
        ?(digits_no_char "/" _ eq_refl D2), ?(digits_no_char "/" _ eq_refl D3); try done. by apply uuid_no_slash. }
  unfold parts. rewrite String.eqb_refl, Hu. cbn [andb]. rewrite String.eqb_refl.
  assert (String.eqb (strip source) "" = false) as -> by (by apply String.eqb_neq).
  assert (String.eqb (strip trace +:+ "." +:+ extension) "" = false) as -> by (apply String.eqb_neq; by destruct (strip trace)).
  cbn [negb andb]. rewrite !labelled_pad by lia. cbn [mbind option_bind].
  change ("." +:+ extension) with (String "." extension). rewrite rpartition_app by done.
  assert (String.eqb (strip trace) "" = false) as -> by (by apply String.eqb_neq).
  assert (String.eqb extension "" = false) as -> by (by apply String.eqb_neq). cbn [orb raise_if mbind result_bind].
  by rewrite (py_uuid_canonical t Hu).
Qed.

(** A parsed key lies under the prefix of the tenant and source it names. *)
Lemma parsed_under_prefix key p : parse_object_path key = Ok p ->
  String.prefix ("tenant/" +:+ po_tenant_id p +:+ "/source/" +:+ po_source_id p +:+ "/") (strip key) = true.
Proof.
  unfold parse_object_path. intros Hp. inv_ok. unfold match_path in Hp.
  pose proof (join_split "/" (strip key)) as Hj.
  destruct (split_on "/" (strip key)) as [|t0 [|tenant [|so [|source [|yy [|mm [|dd [|fn [|]]]]]]]]]; try done.
  destruct (String.eqb t0 "tenant" && is_uuid_text tenant && String.eqb so "source" && negb (String.eqb source "")
      && negb (String.eqb fn "")) eqn:Hc; [|done].
  rewrite !andb_true_iff in Hc. destruct Hc as [[[[H1 H2] H3] _] _]. apply String.eqb_eq in H1 as ->, H3 as ->.
  destruct (labelled "yyyy=" 4 yy); [|done]. destruct (labelled "mm=" 2 mm); [|done]. destruct (labelled "dd=" 2 dd); [|done].
  cbn [mbind option_bind] in Hp. destruct (rpartition "." fn) as [[tr ex]|]; [|done]. inv_ok.
  rewrite (py_uuid_canonical tenant H2) in Hp. injection Hp as <-. cbn [po_tenant_id po_source_id].
  rewrite <- Hj. unfold sep. cbn [str_join].
  replace ("tenant" +:+ "/" +:+ tenant +:+ "/" +:+ "source" +:+ "/" +:+ source +:+ "/" +:+ yy +:+ "/" +:+ mm +:+ "/" +:+ dd +:+ "/" +:+ fn)
    with (("tenant/" +:+ tenant +:+ "/source/" +:+ source +:+ "/") +:+ (yy +:+ "/" +:+ mm +:+ "/" +:+ dd +:+ "/" +:+ fn)); [apply prefix_app|].
  rewrite !str_app_assoc. done.
Qed.

(** ** The object paths of the bronze bucket *)

Local Open Scope Z_scope.

(** Parsing inverts building: the path built for a tenant, source, trace, time
    and extension parses back to the canonical tenant id, the stripped source and
    trace, the calendar day of the time and the extension without its leading dots,
    for every year of four digits, as long as no part holds a slash and the
    extension holds no further dot. *)
Theorem path_round_trip tenant source trace ts ext path
    (Hbuild : build_object_path tenant source trace ts ext = Ok path)
    (Hyear : 0 <= c_year (date_of ts) <= 9999)
    (Hsource : has_char "/" (strip source) = false) (Htrace : has_char "/" (strip trace) = false)
    (Hslash : has_char "/" (lstrip_chars (Ascii.eqb ".") (strip ext)) = false)
    (Hdot : has_char "." (lstrip_chars (Ascii.eqb ".") (strip ext)) = false) :
  exists t, py_uuid (strip tenant) = Some t /\
    parse_object_path path = Ok (mkParsedPath t (strip source) (c_year (date_of ts)) (c_month (date_of ts)) (c_day (date_of ts))
                                   (strip trace) (lstrip_chars (Ascii.eqb ".") (strip ext))) /\
    String.prefix ("tenant/" +:+ t +:+ "/source/" +:+ strip source +:+ "/") (strip path) = true.
Proof.
  destruct (parse_build _ _ _ _ _ _ Hbuild Hyear Hsource Htrace Hslash Hdot) as (t & Ht & Hp). exists t. split; [done|].
  split; [exact Hp|]. exact (parsed_under_prefix _ _ Hp).
Qed.

Lemma path_round_trip_witness :
  exists path, build_object_path "11111111-1111-1111-1111-111111111111" " pos" "T1" (20456 * US_PER_DAY) ".csv" = Ok path /\
    parse_object_path path = Ok (mkParsedPath "11111111-1111-1111-1111-111111111111" "pos" 2026 1 3 "T1" "csv").
Proof.
  eexists. split; [vm_compute; reflexivity|].
  assert (0 <= c_year (date_of (20456 * US_PER_DAY)) <= 9999) as Hy by (vm_compute; split; discriminate).
  destruct (path_round_trip "11111111-1111-1111-1111-111111111111" " pos" "T1" (20456 * US_PER_DAY) ".csv" _
              eq_refl Hy eq_refl eq_refl eq_refl eq_refl) as (t & Ht & Hp & _).
  vm_compute in Ht. injection Ht as <-. exact Hp.
Defined.
