(* ===== verification/Validation.v ===== *)
(** Validation: the source-shape and canonical-shape gates (libs/dis-validation,
    [source_shape.py], [canonical_shape.py], [runner.py], [failure_formatter.py];
    streaming-consumer, [pipeline/validate_pre.py] and [validate_post.py]).

    A suite definition is turned into a schema; pandera judges a frame against
    it.  Pandera is an interface ([Pandera]); [PanderaLaws] states what the gates
    rely on: it passes exactly the frames that conform, and it crashes on a
    Decimal column that holds other data, which the runner works around. *)

From S2P Require Import Prelude Text Values Transform SourceMapping Polars Engine Canonical Provenance Enrichment HotMapping.
From Stdlib Require Export QArith.
Local Open Scope nat_scope.

(** ** Schemas *)

(** A float bound: its [repr], and its value. *)
Record fraction := mkFraction { frac_repr : string; frac_value : Q }.

Inductive check : Type :=
| CIsin (vocab : list string)
| CStrLength (max_value : nat)
| CStrMatches (pattern : string)
| CMaxNull (bound : fraction)
| CRowCount (min_rows : Z) (max_rows : option Z)
| CAuthored (name : string).

Record pcolumn := mkPcolumn {
  pc_dtype : option dtype;
  pc_checks : list check;
  pc_nullable : bool;
  pc_required : bool
}.

Record schema := mkSchema {
  sc_columns : dict pcolumn;
  sc_checks : list check;
  sc_strict : bool;
  sc_name : string
}.

(** A row of pandera's [failure_cases] frame. *)
Record failure_case := mkCase {
  fc_value : option string;            (* failure_case *)
  fc_context : string;                 (* schema_context *)
  fc_column : option string;
  fc_check : string;
  fc_index : option Z
}.

(** [validate] returns [None] when the frame passes, the failure cases of a
    [SchemaErrors], and raises otherwise. *)
Class Pandera := {
  validate : schema -> frame -> res (option (list failure_case));
  str_matches : string -> string -> bool;
  authored_ok : string -> frame -> bool;
  dtype_str : dtype -> string
}.

(** ** Source-shape suites *)

Record ColumnExpectation := mkExpectation {
  ce_name : string;
  pattern : option string;
  max_null_fraction : option fraction
}.

Definition within_unit (f : fraction) : bool := Qle_bool 0 (frac_value f) && Qle_bool (frac_value f) 1.

Definition validate_expectation (c : ColumnExpectation) : res ColumnExpectation :=
  raise_if (String.eqb (ce_name c) "") (SuiteDefinitionError None None) ≫= fun _ =>
  raise_if (match max_null_fraction c with Some f => negb (within_unit f) | None => false end)
           (SuiteDefinitionError None (Some (ce_name c))) ≫= fun _ => Ok c.

Record SourceShapeSuiteDef := mkSourceSuite {
  expected_columns : list ColumnExpectation;
  min_rows : Z;
  max_rows : option Z;
  allow_extra_columns : bool
}.

Definition duplicates_in (names : list string) : list string := filter (fun n => 2 <= length (filter (eq n) names)) names.

Definition validate_source_suite (s : SourceShapeSuiteDef) : res SourceShapeSuiteDef :=
  raise_if (match expected_columns s with [] => true | _ => false end) (SuiteDefinitionError None None) ≫= fun _ =>
  raise_if (match duplicates_in (map ce_name (expected_columns s)) with [] => false | _ => true end)
           (SuiteDefinitionError None None) ≫= fun _ =>
  raise_if ((min_rows s <? 0)%Z || match max_rows s with Some m => (m <? min_rows s)%Z | None => false end)
           (SuiteDefinitionError None None) ≫= fun _ => Ok s.

Definition from_rename (rename : dict string) (min_rows : Z) (max_rows : option Z) (allow_extra : bool)
    (overrides : dict ColumnExpectation) : res SourceShapeSuiteDef :=
  match filter (fun n => dict_mem rename n = false) (dict_keys overrides) with
  | c :: _ => Err (SuiteDefinitionError None (Some c))
  | [] =>
      cols ← map_res (fun src => match dict_get overrides src with
                                 | Some c => Ok c
                                 | None => validate_expectation (mkExpectation src None None)
                                 end) (dict_keys rename);
      validate_source_suite (mkSourceSuite cols min_rows max_rows allow_extra)
  end.

Definition expectation_column (c : ColumnExpectation) : pcolumn :=
  mkPcolumn None
    (match pattern c with Some p => [CStrMatches p] | None => [] end ++
     match max_null_fraction c with Some f => [CMaxNull f] | None => [] end) true true.

Definition materialize_source_shape (s : SourceShapeSuiteDef) : schema :=
  mkSchema (fold_left (fun d c => dict_set d (ce_name c) (expectation_column c)) (expected_columns s) [])
    [CRowCount (min_rows s) (max_rows s)] (negb (allow_extra_columns s)) "source_shape".

(** ** Canonical-shape suites *)

Record CanonicalShapeSuiteDef := mkCanonicalSuite {
  cs_target_model : model;
  owned_columns : list string;
  column_checks : dict (list check);
  frame_checks : list check
}.

(** [_column_from_field]: the dtype and the checks of a declared type. *)
Definition column_from_field (m : model) (f : field) (authored : list check) : res pcolumn :=
  let column ty checks := Ok (mkPcolumn ty (authored ++ checks) (negb (f_required f)) true) in
  match f_type f with
  | FVocab members => column (Some TString) [CIsin members]
  | FStr n => column (Some TString) [CStrLength n]
  | FCurrency => column (Some TString) [CStrLength 3]
  | FNumeric p s => column (Some (TDecimal (Some (Z.of_nat p)) (Z.of_nat s))) []
  | FInt | FBigInt => column (Some TInt64) []
  | FBool => column (Some TBoolean) []
  | FDatetime => column (Some (TDatetime "us" (Some "UTC"))) []
  | FDate => column (Some TDate) []
  | FJsonObject | FAny => column None []
  | FUuid => Err (SuiteDefinitionError (Some (model_name m)) (Some (f_name f)))
  end.

(** [tuple(dict.fromkeys(l))] *)
Definition fromkeys (l : list string) : list string :=
  fold_left (fun acc c => if mem c acc then acc else acc ++ [c]) l [].

Definition materialize_canonical_shape (def : CanonicalShapeSuiteDef) : res schema :=
  let m := cs_target_model def in
  mapped ← mapping_produced_columns m;
  enriched ← enrichment_produced_columns m;
  let produced := mapped ++ enriched in
  let owned := fromkeys (owned_columns def) in
  raise_if (match owned with [] => true | _ => false end) (SuiteDefinitionError (Some (model_name m)) None) ≫= fun _ =>
  match set_minus owned produced with
  | c :: _ => Err (SuiteDriftError (Some (model_name m)) (Some c))
  | [] =>
      match set_minus (dict_keys (column_checks def)) owned with
      | c :: _ => Err (SuiteDefinitionError (Some (model_name m)) (Some c))
      | [] =>
          cols ← map_res (fun name =>
                   match find_field m name with
                   | None => Err (KeyError name)
                   | Some f => col ← column_from_field m f (default [] (dict_get (column_checks def) name)); Ok (name, col)
                   end) owned;
          Ok (mkSchema cols (frame_checks def) true ("canonical_shape:" +:+ model_name m))
      end
  end.

(** ** Failures *)

(** The failure types of the two gates have the same fields. *)
Record ShapeFailure := mkShapeFailure {
  sf_column : option string;
  sf_check : string;
  sf_row_index : option Z;
  sf_value : option string;
  sf_reason : string
}.

(** [repr(x)] of an optional string. *)
Definition repr_opt (x : option string) : string := match x with Some s => py_repr s | None => "None" end.

Definition at_row (open close : string) (index : option Z) : string :=
  match index with Some i => open +:+ pretty i +:+ close | None => "" end.

(** A frame-level check reports the schema in the column slot. *)
Definition case_column (c : failure_case) : option string :=
  if String.eqb (fc_context c) "DataFrameSchema" then None else fc_column c.

(** [s.removeprefix(p)] for a string that starts with [p]. *)
Definition drop_prefix (p s : string) : string := String.substring (String.length p) (String.length s - String.length p) s.

Definition format_source_case (unexpected : list string) (c : failure_case) : ShapeFailure :=
  let check := fc_check c in
  if String.eqb check "column_in_dataframe" then
    let got := match unexpected with [] => "no candidate column" | _ => str_join ", " (map py_repr unexpected) end in
    mkShapeFailure (fc_value c) check None None ("expected column " +:+ repr_opt (fc_value c) +:+ ", got " +:+ got)
  else if String.eqb check "column_in_schema" then
    mkShapeFailure (fc_value c) check None None
      ("unexpected column " +:+ repr_opt (fc_value c) +:+ " is not in this source's declared vocabulary")
  else if String.prefix "row_count" check then
    mkShapeFailure None check None None ("chunk row count is implausible: expected " +:+ drop_prefix "row_count" check)
  else if String.prefix "max_null_fraction" check then
    mkShapeFailure (case_column c) check None None
      ("column " +:+ repr_opt (case_column c) +:+ " has more nulls than the declared bound (" +:+ check +:+ ")")
  else
    mkShapeFailure (case_column c) check (fc_index c) (fc_value c)
      ("column " +:+ repr_opt (case_column c) +:+ ": value failed " +:+ check +:+ at_row " (row " ")" (fc_index c)).

Definition format_source_shape_failures (cases : list failure_case) (observed expected : list string) : list ShapeFailure :=
  let unexpected := filter (fun n => mem n expected = false) observed in
  map (format_source_case unexpected) cases.

Definition format_canonical_case (c : failure_case) : ShapeFailure :=
  let check := fc_check c in
  let column := case_column c in
  if String.eqb check "column_in_dataframe" then
    mkShapeFailure (fc_value c) check None None ("contribution is missing owned column " +:+ repr_opt (fc_value c))
  else if String.eqb check "column_in_schema" then
    mkShapeFailure (fc_value c) check None None
      ("contribution carries column " +:+ repr_opt (fc_value c) +:+ " outside the source-owned, mapping-produced set")
  else match column with
  | None =>
      mkShapeFailure None check (fc_index c) (fc_value c)
        ("cross-field invariant " +:+ py_repr check +:+ " failed" +:+ at_row " at row " "" (fc_index c))
  | Some col =>
      if String.eqb check "not_nullable" then
        mkShapeFailure column check (fc_index c) None
          ("column " +:+ py_repr col +:+ " is required but arrived empty" +:+ at_row " (row " ")" (fc_index c))
      else
        mkShapeFailure column check (fc_index c) (fc_value c)
          ("column " +:+ py_repr col +:+ " failed " +:+ py_repr check +:+ at_row " at row " "" (fc_index c))
  end.

Definition format_canonical_shape_failures (cases : list failure_case) : list ShapeFailure :=
  map format_canonical_case cases.

(** ** The runner *)

Record ShapeResult := mkShapeResult { passed : bool; shape_failures : list ShapeFailure }.

Section Run.
Context `{Pandera}.

Definition run_source_shape (def : SourceShapeSuiteDef) (chunk : frame) : res ShapeResult :=
  verdict ← validate (materialize_source_shape def) chunk;
  match verdict with
  | Some cases => Ok (mkShapeResult false
      (format_source_shape_failures cases (columns chunk) (map ce_name (expected_columns def))))
  | None => Ok (mkShapeResult true [])
  end.

Definition is_decimal (ty : dtype) : bool := match ty with TDecimal _ _ => true | _ => false end.

(** A Decimal column of the schema that meets other data in the frame. *)
Definition decimal_clash (f : frame) (entry : string * pcolumn) : option dtype :=
  match pc_dtype entry.2, find_series (f_cols f) entry.1 with
  | Some expected, Some s => if is_decimal expected && negb (is_decimal (s_dtype s)) then Some (s_dtype s) else None
  | _, _ => None
  end.

Definition synthesized_case (entry : string * pcolumn) (actual : dtype) : failure_case :=
  mkCase (Some (dtype_str actual)) "Column" (Some entry.1)
    ("dtype('" +:+ match pc_dtype entry.2 with Some ty => dtype_str ty | None => "None" end +:+ "')") None.

Definition neutral_column : pcolumn := mkPcolumn None [] true true.

Definition decimal_dtype_precheck (s : schema) (f : frame) : schema * list failure_case :=
  let synthesized := omap (fun entry => synthesized_case entry <$> decimal_clash f entry) (sc_columns s) in
  match synthesized with
  | [] => (s, [])
  | _ :: _ =>
      (mkSchema (map (fun entry => match decimal_clash f entry with
                                   | Some _ => (entry.1, neutral_column)
                                   | None => entry
                                   end) (sc_columns s)) (sc_checks s) true (sc_name s), synthesized)
  end.

Definition run_canonical_shape (def : CanonicalShapeSuiteDef) (contribution : frame) : res ShapeResult :=
  s ← materialize_canonical_shape def;
  let '(s', synthesized) := decimal_dtype_precheck s contribution in
  match validate s' contribution with
  | Ok (Some cases) => Ok (mkShapeResult false (format_canonical_shape_failures (synthesized ++ cases)))
  | Ok None =>
      match synthesized with
      | [] => Ok (mkShapeResult true [])
      | _ :: _ => Ok (mkShapeResult false (format_canonical_shape_failures synthesized))
      end
  | Err e =>
      match e with
      | OtherError c =>
          if String.eqb c "SchemaError" then Err (SuiteDefinitionError (Some (model_name (cs_target_model def))) None)
          else Err e
      | _ => Err e
      end
  end.

(** ** The gates of the consumer *)

Definition run_pre_validation (loaded : LoadedMapping) (f : frame) : res ShapeResult :=
  suite ← from_rename (rename (lm_source loaded)) 1 None true [];
  run_source_shape suite f.

Definition post_suite (loaded : LoadedMapping) : CanonicalShapeSuiteDef :=
  let owned := target_columns (lm_source loaded) in
  let owned := if decide (target_model loaded = StoreSkuCurrentPosition)
               then fromkeys (owned ++ enrichment_fields CURRENT_POSITION) else owned in
  mkCanonicalSuite (target_model loaded) owned [] [].

Definition run_post_validation (loaded : LoadedMapping) (contribution : frame) : res ShapeResult :=
  assert_no_drift (target_model loaded) ≫= fun _ => run_canonical_shape (post_suite loaded) contribution.
End Run.
