(* ===== verification/ValidationTheorems.v ===== *)
(** ValidationTheorems: what it means for a frame to conform to a schema, the laws
    of pandera the gates rely on, and what a passed gate guarantees. *)

From S2P Require Import Prelude Text Values Transform SourceMapping Polars Engine EngineProps MappingTheorems Canonical Provenance Enrichment HotMapping Validation.
Local Open Scope nat_scope.

(** ** Conformance *)

Section Conform.
Context `{Pandera}.

Definition cell_ok (c : check) (v : value) : bool :=
  match c, v with
  | CIsin vocab, VStr s => mem s vocab
  | CStrLength n, VStr s => String.length s <=? n
  | CStrMatches p, VStr s => str_matches p s
  | (CIsin _ | CStrLength _ | CStrMatches _), _ => false
  | _, _ => true
  end.

Definition null_count (s : series) : nat := length (filter (fun c => c = None) (s_cells s)).

Definition column_check_ok (s : series) (c : check) : bool :=
  match c with
  | CMaxNull f => Qle_bool (inject_Z (Z.of_nat (null_count s))) (inject_Z (Z.of_nat (length (s_cells s))) * frac_value f)
  | _ => forallb (fun cell => match cell with Some v => cell_ok c v | None => true end) (s_cells s)
  end.

Definition column_ok (col : pcolumn) (s : series) : bool :=
  match pc_dtype col with Some ty => bool_decide (s_dtype s = ty) | None => true end &&
  (pc_nullable col || forallb (fun c => match c with Some _ => true | None => false end) (s_cells s)) &&
  forallb (column_check_ok s) (pc_checks col).

Definition frame_check_ok (f : frame) (c : check) : bool :=
  match c with
  | CRowCount lo hi => (lo <=? Z.of_nat (height f))%Z && match hi with Some h => (Z.of_nat (height f) <=? h)%Z | None => true end
  | CAuthored name => authored_ok name f
  | _ => true
  end.

Definition entry_ok (f : frame) (entry : string * pcolumn) : bool :=
  match find_series (f_cols f) entry.1 with
  | Some s => column_ok entry.2 s
  | None => negb (pc_required entry.2)
  end.

(** Required columns are there, no other column under [strict], every column
    has its dtype, its nullability and its checks, and the frame its own. *)
Definition conforms (s : schema) (f : frame) : bool :=
  forallb (entry_ok f) (sc_columns s) &&
  (negb (sc_strict s) || forallb (dict_mem (sc_columns s)) (columns f)) &&
  forallb (frame_check_ok f) (sc_checks s).

(** No Decimal column of the schema meets other data. *)
Definition decimals_meet (s : schema) (f : frame) : bool :=
  forallb (fun entry => match decimal_clash f entry with None => true | Some _ => false end) (sc_columns s).

Class PanderaLaws : Prop := {
  law_passes s f : decimals_meet s f = true -> conforms s f = true -> validate s f = Ok None;
  law_reports s f : decimals_meet s f = true -> conforms s f = false -> exists c cases, validate s f = Ok (Some (c :: cases));
  law_crashes s f : decimals_meet s f = false -> validate s f = Err (OtherError "AssertionError")
}.
End Conform.

(** A reference implementation of the interface. *)
Definition list_pandera (matches : string -> string -> bool) (authored : string -> frame -> bool) (show : dtype -> string) : Pandera :=
  let base := {| validate := fun _ _ => Ok None; str_matches := matches; authored_ok := authored; dtype_str := show |} in
  {| validate := fun s f =>
       if @decimals_meet s f
       then if @conforms base s f then Ok None else Ok (Some [mkCase None "DataFrameSchema" None "conforms" None])
       else Err (OtherError "AssertionError");
     str_matches := matches; authored_ok := authored; dtype_str := show |}.

Lemma list_pandera_laws matches authored show : @PanderaLaws (list_pandera matches authored show).
Proof.
  split; intros s f Hd; cbn [validate list_pandera]; rewrite Hd; [| |done].
  - intros Hc. case_match eqn:Hv; [done|]. exfalso. apply Bool.diff_true_false. etrans; [symmetry; exact Hc|exact Hv].
  - intros Hc. case_match eqn:Hv; [|eauto]. exfalso. apply Bool.diff_true_false. etrans; [symmetry; exact Hv|exact Hc].
Qed.

(** ** The Decimal workaround *)

Section Gates.
Context `{PanderaLaws}.

Lemma clash_column f entry ty : decimal_clash f entry = Some ty -> entry_ok f entry = false.
Proof.
  unfold decimal_clash, entry_ok. destruct (pc_dtype entry.2) as [expected|] eqn:Ht; [|done].
  destruct (find_series (f_cols f) entry.1) as [s|]; [|done]. destruct (is_decimal expected) eqn:He; [|done].
  destruct (is_decimal (s_dtype s)) eqn:Hd; [done|]. intros _. unfold column_ok. rewrite Ht.
  rewrite bool_decide_false; [done|]. intros <-. congruence.
Qed.

Lemma precheck_none s f : (decimal_dtype_precheck s f).2 = [] ->
  decimal_dtype_precheck s f = (s, []) /\ decimals_meet s f = true.
Proof.
  unfold decimal_dtype_precheck. destruct (omap _ (sc_columns s)) as [|c l] eqn:Ho; [|done]. intros _. split; [done|].
  unfold decimals_meet. apply forallb_forall. intros entry Hin%list_elem_of_In.
  destruct (decimal_clash f entry) as [ty|] eqn:Hc; [|done]. exfalso.
  assert (synthesized_case entry ty ∈ @nil failure_case) as Hn; [|by apply not_elem_of_nil in Hn].
  rewrite <- Ho. apply list_elem_of_omap. exists entry. by rewrite Hc.
Qed.

Lemma precheck_some s f : (decimal_dtype_precheck s f).2 <> [] ->
  decimals_meet (decimal_dtype_precheck s f).1 f = true /\ conforms s f = false.
Proof.
  unfold decimal_dtype_precheck. destruct (omap _ (sc_columns s)) as [|c l] eqn:Ho; [done|]. intros _. cbn [fst snd]. split.
  - unfold decimals_meet. cbn [sc_columns]. apply forallb_forall. intros entry (e & <- & Hin)%in_map_iff.
    by destruct (decimal_clash f e) eqn:Hc; [|rewrite Hc].
  - assert (c ∈ c :: l) as Hin by left. rewrite <- Ho in Hin. apply list_elem_of_omap in Hin as (entry & Hin & Hs).
    destruct (decimal_clash f entry) as [ty|] eqn:Hc; [|done]. unfold conforms.
    assert (forallb (entry_ok f) (sc_columns s) = false) as ->; [|done].
    apply not_true_is_false. rewrite forallb_forall. intros Hall. apply list_elem_of_In, Hall in Hin.
    apply clash_column in Hc. congruence.
Qed.

Lemma format_length cases : length (format_canonical_shape_failures cases) = length cases.
Proof. apply length_map. Qed.

(** The gate never crashes once its suite is materialized, and passes exactly the
    conforming contributions. *)
Lemma canonical_gate def s f :
  materialize_canonical_shape def = Ok s ->
  exists fs, run_canonical_shape def f = Ok (mkShapeResult (conforms s f) fs) /\ (conforms s f = true <-> fs = []).
Proof.
  intros Hm. unfold run_canonical_shape. rewrite Hm. cbn [mbind result_bind].
  destruct (decimal_dtype_precheck s f) as [s' syn] eqn:Hp.
  destruct syn as [|c l].
  - destruct (precheck_none s f) as [Heq Hd]; [by rewrite Hp|]. rewrite Hp in Heq. injection Heq as ->.
    destruct (conforms s f) eqn:Hc.
    + rewrite (law_passes s f Hd Hc). by exists [].
    + destruct (law_reports s f Hd Hc) as (c & cases & ->). eexists. split; [done|]. done.
  - destruct (precheck_some s f) as [Hd Hc]; [by rewrite Hp|]. rewrite Hp in Hd. cbn [fst] in Hd. rewrite Hc.
    destruct (conforms s' f) eqn:Hc'.
    + rewrite (law_passes s' f Hd Hc'). eexists. split; [done|]. done.
    + destruct (law_reports s' f Hd Hc') as (c' & cases & ->). eexists. split; [done|]. done.
Qed.
End Gates.

(** ** What a declared type admits *)

Definition field_dtype (t : field_type) : option dtype :=
  match t with
  | FVocab _ | FStr _ | FCurrency => Some TString
  | FNumeric p s => Some (TDecimal (Some (Z.of_nat p)) (Z.of_nat s))
  | FInt | FBigInt => Some TInt64
  | FBool => Some TBoolean
  | FDatetime => Some (TDatetime "us" (Some "UTC"))
  | FDate => Some TDate
  | FJsonObject | FAny | FUuid => None
  end.

Definition field_value_ok (t : field_type) (v : value) : Prop :=
  match t with
  | FVocab members => exists s, v = VStr s /\ s ∈ members
  | FStr n => exists s, v = VStr s /\ String.length s <= n
  | FCurrency => exists s, v = VStr s /\ String.length s <= 3
  | _ => True
  end.

(** A series fit for a column of the model. *)
Record admits (fd : field) (s : series) : Prop := {
  ad_dtype : forall ty, field_dtype (f_type fd) = Some ty -> s_dtype s = ty;
  ad_required : f_required fd = true -> Forall (fun c => c <> None) (s_cells s);
  ad_values : forall v, Some v ∈ s_cells s -> field_value_ok (f_type fd) v
}.

Section PostGate.
Context `{PanderaLaws}.

Lemma fromkeys_elem l c : c ∈ fromkeys l <-> c ∈ l.
Proof.
  unfold fromkeys. assert (forall acc, c ∈ fold_left (fun acc c => if mem c acc then acc else acc ++ [c]) l acc <-> c ∈ acc \/ c ∈ l) as Hg.
  { induction l as [|x l IH]; intros acc; cbn; [set_solver|]. rewrite IH. destruct (mem x acc) eqn:Hm; [|set_solver].
    apply mem_elem in Hm. set_solver. }
  rewrite Hg. set_solver.
Qed.

Lemma not_null_forall s : forallb (fun c : cell => match c with Some _ => true | None => false end) (s_cells s) = true ->
  Forall (fun c => c <> None) (s_cells s).
Proof. rewrite forallb_forall, Forall_forall. intros Hf c Hc%list_elem_of_In%Hf. by destruct c. Qed.

Lemma check_cells s c v : column_check_ok s c = true -> (forall f, c <> CMaxNull f) -> Some v ∈ s_cells s -> cell_ok c v = true.
Proof.
  intros Hc Hn Hv. unfold column_check_ok in Hc. destruct c; try (by exfalso; eapply Hn);
    rewrite forallb_forall in Hc; by apply list_elem_of_In, Hc in Hv.
Qed.

Lemma column_admits m fd col s : column_from_field m fd [] = Ok col -> column_ok col s = true -> admits fd s.
Proof.
  unfold column_from_field, column_ok. intros Hc Ho.
  assert (pc_nullable col = negb (f_required fd) /\ pc_dtype col = field_dtype (f_type fd)) as [Hn Hd]
    by (destruct (f_type fd); try done; injection Hc as <-; done).
  rewrite Hn, Hd in Ho. rewrite !andb_true_iff in Ho. destruct Ho as [[H1 H2] H3]. split.
  - intros ty Ht. rewrite Ht in H1. by apply bool_decide_eq_true in H1.
  - intros Hr. rewrite Hr in H2. by apply not_null_forall.
  - intros v Hv. assert (forall c, c ∈ pc_checks col -> column_check_ok s c = true) as Hall.
    { rewrite forallb_forall in H3. intros c Hin. by apply H3, list_elem_of_In. }
    destruct (f_type fd); try done; injection Hc as <-; cbn [pc_checks app] in Hall;
      pose proof (check_cells s _ v (Hall _ (list_elem_of_here _ _)) ltac:(done) Hv) as Hok; cbn in Hok;
      destruct v; try done; eexists; (split; [done|]); first [by apply Nat.leb_le|by apply mem_elem].
Qed.

Lemma post_suite_owned loaded c : c ∈ owned_columns (post_suite loaded) <->
  c ∈ target_columns (lm_source loaded) \/ (target_model loaded = StoreSkuCurrentPosition /\ c ∈ enrichment_fields CURRENT_POSITION).
Proof.
  unfold post_suite. cbn [owned_columns]. destruct (decide _) as [He|He]; [|naive_solver].
  rewrite fromkeys_elem, elem_of_app. naive_solver.
Qed.

(** The schema of a suite: one column per owned name, from its field. *)
Lemma materialized def s : materialize_canonical_shape def = Ok s ->
  sc_strict s = true /\ (forall c, c ∈ dict_keys (sc_columns s) <-> c ∈ owned_columns def) /\
  (forall c col, (c, col) ∈ sc_columns s -> exists fd, find_field (cs_target_model def) c = Some fd /\
     column_from_field (cs_target_model def) fd (default [] (dict_get (column_checks def) c)) = Ok col /\ pc_required col = true).
Proof.
  unfold materialize_canonical_shape. intros Hm. inv_ok.
  destruct (set_minus (fromkeys (owned_columns def)) (a ++ a0)); [|done].
  destruct (set_minus (dict_keys (column_checks def)) (fromkeys (owned_columns def))); [|done]. inv_ok. cbn [sc_strict sc_columns].
  split; [done|]. apply map_res_ok in Hs2.
  assert (dict_keys a2 = fromkeys (owned_columns def)) as Hk.
  { clear -Hs2. induction Hs2 as [|x y l k Hxy Hl IH]; [done|]. unfold dict_keys in *. rewrite map_cons, IH.
    destruct (find_field (cs_target_model def) x); [|done]. inv_ok. done. }
  split; [intros c; rewrite Hk; apply fromkeys_elem|]. intros c col Hin.
  apply list_elem_of_lookup in Hin as [i Hi]. destruct (Forall2_lookup_r _ _ _ _ _ Hs2 Hi) as (x & Hx & Hf).
  destruct (find_field (cs_target_model def) x) as [fd|] eqn:Hfd; [|done]. inv_ok. exists fd. split; [done|]. split; [done|].
  clear -Hs3. unfold column_from_field in Hs3. by destruct (f_type fd); inv_ok.
Qed.

Lemma conforms_columns s f : conforms s f = true -> sc_strict s = true ->
  (forall c col, (c, col) ∈ sc_columns s -> pc_required col = true ->
     exists ser, find_series (f_cols f) c = Some ser /\ column_ok col ser = true) /\
  (forall c, c ∈ columns f -> c ∈ dict_keys (sc_columns s)).
Proof.
  unfold conforms. intros Hc Hs. rewrite Hs in Hc. rewrite !andb_true_iff in Hc. destruct Hc as [[H1 H2] _]. cbn in H2. split.
  - intros c col Hin Hr. rewrite forallb_forall in H1. apply list_elem_of_In, H1 in Hin. unfold entry_ok in Hin. cbn in Hin.
    destruct (find_series (f_cols f) c) as [ser|]; [eauto|]. by rewrite Hr in Hin.
  - intros c Hin. rewrite forallb_forall in H2. apply list_elem_of_In, H2 in Hin. by apply dict_mem_keys.
Qed.

(** C33. A contribution that passes the post-mapping gate has exactly the columns
    the mapping and the enrichment own, each with the dtype of its field, without
    a null where the model requires a value, within the declared length and
    vocabulary; and the gate fails a contribution (with at least one reason) in
    every other case instead of raising, a Decimal column holding other data
    included. *)
Theorem post_gate_guarantees loaded f
    (Hsuite : is_ok (materialize_canonical_shape (post_suite loaded)) = true)
    (Hdrift : assert_no_drift (target_model loaded) = Ok tt) :
  exists r, run_post_validation loaded f = Ok r /\ (passed r = true <-> shape_failures r = []) /\
  (passed r = true ->
    (forall c, c ∈ columns f <-> c ∈ owned_columns (post_suite loaded)) /\
    forall c, c ∈ owned_columns (post_suite loaded) ->
      exists fd s, find_field (target_model loaded) c = Some fd /\ find_series (f_cols f) c = Some s /\ admits fd s).
Proof.
  destruct (materialize_canonical_shape (post_suite loaded)) as [s|e] eqn:Hm; [|done].
  destruct (canonical_gate _ _ f Hm) as (fs & Hr & Hfs). exists (mkShapeResult (conforms s f) fs).
  unfold run_post_validation. rewrite Hdrift. cbn [mbind result_bind passed shape_failures]. split; [done|]. split; [done|].
  intros Hc. destruct (materialized _ _ Hm) as (Hst & Hkeys & Hcols). destruct (conforms_columns s f Hc Hst) as [Hin Hout].
  assert (forall c, c ∈ owned_columns (post_suite loaded) ->
      exists fd ser, find_field (target_model loaded) c = Some fd /\ find_series (f_cols f) c = Some ser /\ admits fd ser) as Hall.
  { intros c Hown. apply Hkeys in Hown. apply list_elem_of_fmap in Hown as ([c' col] & -> & Hin'). cbn [fst].
    destruct (Hcols _ _ Hin') as (fd & Hfd & Hcol & Hreq). destruct (Hin _ _ Hin' Hreq) as (ser & Hser & Hok).
    exists fd, ser. split; [done|]. split; [done|]. by eapply column_admits. }
  split; [|done]. intros c. rewrite <- Hkeys. split; [apply Hout|]. intros Hk. apply Hkeys, Hall in Hk as (fd & ser & _ & Hser & _).
  destruct (decide (c ∈ columns f)) as [?|Hn]; [done|]. apply find_series_None in Hn. congruence.
Qed.
End PostGate.

(** ** The pre-mapping gate *)

Section PreGate.
Context `{PanderaLaws}.

Lemma default_expectations names : Forall (fun n => n <> "") names ->
  map_res (fun src => match dict_get [] src with
                      | Some c => Ok c
                      | None => validate_expectation (mkExpectation src None None)
                      end) names = Ok (map (fun n => mkExpectation n None None) names).
Proof.
  induction 1 as [|n names Hn Hf IH]; [done|].
  assert (validate_expectation (mkExpectation n None None) = Ok (mkExpectation n None None)) as Hv.
  { unfold validate_expectation. cbn [ce_name max_null_fraction]. apply String.eqb_neq in Hn. by rewrite Hn. }
  cbn [map_res dict_get] in IH |- *. rewrite Hv. cbn [mbind result_bind]. by rewrite IH.
Qed.

Lemma no_duplicates names : NoDup names -> duplicates_in names = [].
Proof.
  intros Hd. unfold duplicates_in. apply filter_nil_iff. intros n _ Hlen.
  assert (length (filter (eq n) names) <= 1); [|lia].
  assert (NoDup (filter (eq n) names)) as Hf by (by apply NoDup_filter).
  destruct (filter (eq n) names) as [|a [|b l]] eqn:Hfl; cbn; [lia|lia|]. exfalso.
  assert (a ∈ filter (eq n) names) as Ha by (rewrite Hfl; left).
  assert (b ∈ filter (eq n) names) as Hb by (rewrite Hfl; right; left).
  apply list_elem_of_filter in Ha as [<- _], Hb as [<- _]. apply NoDup_cons in Hf as [Hn _]. apply Hn. left.
Qed.

Lemma rename_suite (rn : dict string) :
  rn <> [] -> dict_wf rn -> Forall (fun n => n <> "") (dict_keys rn) ->
  from_rename rn 1 None true [] = Ok (mkSourceSuite (map (fun n => mkExpectation n None None) (dict_keys rn)) 1 None true).
Proof.
  intros Hne Hd Hn. unfold from_rename. change (filter (fun n => dict_mem rn n = false) (dict_keys [])) with (@nil string). cbn iota.
  rewrite default_expectations by done. cbn [mbind result_bind]. unfold validate_source_suite. cbn [expected_columns min_rows max_rows].
  assert (map ce_name (map (fun n => mkExpectation n None None) (dict_keys rn)) = dict_keys rn) as -> by (rewrite map_map; apply map_id).
  rewrite no_duplicates by done. by destruct rn.
Qed.

Lemma source_columns_entries names :
  NoDup names -> sc_columns (materialize_source_shape (mkSourceSuite (map (fun n => mkExpectation n None None) names) 1 None true)) =
  map (fun n => (n, neutral_column)) names.
Proof.
  intros Hd. unfold materialize_source_shape. cbn [sc_columns expected_columns].
  assert (forall acc, (forall n, n ∈ names -> n ∉ dict_keys acc) ->
    fold_left (fun d c => dict_set d (ce_name c) (expectation_column c)) (map (fun n => mkExpectation n None None) names) acc =
    acc ++ map (fun n => (n, neutral_column)) names) as Hg; [|by apply Hg; intros n _; apply not_elem_of_nil].
  induction names as [|n names IH]; intros acc Hacc; [by rewrite app_nil_r|]. apply NoDup_cons in Hd as [Hn Hd].
  cbn [map fold_left ce_name]. assert (dict_set acc n (expectation_column (mkExpectation n None None)) = acc ++ [(n, neutral_column)]) as ->.
  { assert (n ∉ dict_keys acc) as Hna by (apply Hacc; left). clear -Hna. induction acc as [|[k v] acc IHa]; [done|].
    cbn in *. apply not_elem_of_cons in Hna as [Hne Hna]. apply String.eqb_neq in Hne. rewrite Hne. by rewrite IHa. }
  rewrite IH; [by rewrite <- app_assoc|done|]. intros x Hx. unfold dict_keys. rewrite map_app. cbn. rewrite not_elem_of_app. split.
  - apply Hacc. by right.
  - rewrite list_elem_of_singleton. by intros ->.
Qed.

(** The pre-mapping gate of a loaded mapping passes a chunk exactly when every
    source column of the mapping is in the chunk and the chunk has a row; other
    columns are tolerated; a failing chunk gets at least one reason. *)
Theorem pre_gate_exact loaded f
    (Hne : rename (lm_source loaded) <> []) (Hwf : dict_wf (rename (lm_source loaded)))
    (Hnames : Forall (fun n => n <> "") (dict_keys (rename (lm_source loaded)))) :
  exists r, run_pre_validation loaded f = Ok r /\
    (passed r = true <-> (forall c, c ∈ dict_keys (rename (lm_source loaded)) -> c ∈ columns f) /\ 1 <= height f) /\
    (passed r = true <-> shape_failures r = []).
Proof.
  unfold run_pre_validation. rewrite rename_suite by done. cbn [mbind result_bind]. unfold run_source_shape.
  set (suite := mkSourceSuite (map (fun n => mkExpectation n None None) (dict_keys (rename (lm_source loaded)))) 1 None true).
  pose proof (source_columns_entries (dict_keys (rename (lm_source loaded))) Hwf) as Hcols. fold suite in Hcols.
  assert (decimals_meet (materialize_source_shape suite) f = true) as Hd.
  { unfold decimals_meet. rewrite Hcols. apply forallb_forall. intros e (n & <- & _)%in_map_iff. done. }
  assert (conforms (materialize_source_shape suite) f = true <->
          (forall c, c ∈ dict_keys (rename (lm_source loaded)) -> c ∈ columns f) /\ 1 <= height f) as Hc.
  { unfold conforms. rewrite Hcols. rewrite !andb_true_iff. cbn [sc_strict sc_checks materialize_source_shape suite allow_extra_columns negb orb
      forallb frame_check_ok min_rows max_rows]. rewrite !andb_true_r, Z.leb_le. rewrite forallb_forall.
    split.
    - intros [[Hall _] Hh]. split; [|lia]. intros c Hin.
      specialize (Hall (c, neutral_column)). destruct (decide (c ∈ columns f)) as [?|Hn]; [done|]. apply find_series_None in Hn.
      assert (entry_ok f (c, neutral_column) = true) as Hok; [|unfold entry_ok in Hok; cbn in Hok; by rewrite Hn in Hok].
      apply Hall, in_map_iff. exists c. by rewrite <- list_elem_of_In.
    - intros [Hall Hh]. split; [|lia]. split; [|done]. intros e (n & <- & Hin%list_elem_of_In)%in_map_iff. unfold entry_ok. cbn.
      destruct (find_series (f_cols f) n) as [s|] eqn:Hs; [done|]. apply find_series_None in Hs. exfalso. apply Hs, Hall, Hin. }
  destruct (conforms (materialize_source_shape suite) f) eqn:Hcf.
  - rewrite (law_passes _ _ Hd Hcf). cbn [mbind result_bind]. eexists. split; [done|]. split; done.
  - destruct (law_reports _ _ Hd Hcf) as (c & cases & ->). cbn [mbind result_bind]. eexists. split; [done|]. split; [by rewrite <- Hc|done].
Qed.
End PreGate.

(** ** Concrete frames *)

Definition sample_pandera : Pandera := list_pandera (fun _ _ => true) (fun _ _ => true) (fun _ => "dtype").

Definition snapshot_mapping : SourceMapping := mkSourceMapping 1
  [("Article", "sku_id"); ("Nom", "product_name"); ("Prix", "current_retail_price")]
  [] [("current_retail_price", mkCastSpec CDecimal (Some 12%Z) (Some 4%Z))] [].

Definition snapshot_loaded : LoadedMapping := mkLoadedMapping 7 snapshot_mapping StoreSkuCurrentPosition true.

Definition snapshot_frame (price : dtype) : frame := Frame
  [ Series "sku_id" TString (text_cells ["A1"]); Series "product_name" TString (text_cells ["tea"]);
    Series "current_retail_price" price [Some (VDecimal 250 2)];
    Series "currency" TString (text_cells ["EUR"]); Series "tax_treatment" TString (text_cells ["INCLUSIVE"]) ].

Lemma post_gate_guarantees_witness :
  (exists r, @run_post_validation sample_pandera snapshot_loaded (snapshot_frame (TDecimal (Some 12%Z) 4)) = Ok r /\ passed r = true) /\
  (exists r, @run_post_validation sample_pandera snapshot_loaded (snapshot_frame TString) = Ok r /\ passed r = false /\ shape_failures r <> []).
Proof.
  pose proof (@post_gate_guarantees sample_pandera (list_pandera_laws _ _ _) snapshot_loaded) as Hg. split.
  - destruct (Hg (snapshot_frame (TDecimal (Some 12%Z) 4)) ltac:(by vm_compute) ltac:(by vm_compute)) as (r & Hr & _).
    exists r. split; [done|]. revert Hr. vm_compute. by intros [= <-].
  - destruct (Hg (snapshot_frame TString) ltac:(by vm_compute) ltac:(by vm_compute)) as (r & Hr & Hp & _).
    exists r. split; [done|]. assert (passed r = false) as Hf by (revert Hr; vm_compute; by intros [= <-]).
    split; [done|]. intros He. apply Hp in He. congruence.
Defined.

Lemma pre_gate_exact_witness :
  exists r, @run_pre_validation sample_pandera snapshot_loaded sample_chunk = Ok r /\ passed r = false.
Proof.
  destruct (@pre_gate_exact sample_pandera (list_pandera_laws _ _ _) snapshot_loaded sample_chunk) as (r & Hr & Hp & _).
  - done.
  - unfold dict_wf. apply (bool_decide_unpack _). by vm_compute.
  - by repeat constructor.
  - exists r. split; [done|]. destruct (passed r); [|done]. exfalso. destruct (proj1 Hp eq_refl) as [Hc _].
    specialize (Hc "Nom" ltac:(right; left)). revert Hc. apply (bool_decide_unpack _). by vm_compute.
Defined.
