(* ===== verification/Quarantine.v ===== *)
(** Quarantine: the audit vocabulary and failure codes (libs/dis-audit, [stages.py],
    [failure_codes.py]), the held records and their writer (libs/dis-quarantine,
    [failure_stages.py], [records.py], [postgres_writer.py]) and the consumer's
    quarantine sink (streaming-consumer, [sinks/quarantine.py]).

    A record that does not satisfy the checks of its model raises before any
    write.  Whether the insert itself succeeds is the database's decision. *)

From S2P Require Import Prelude Text Values Transform HotMapping.

(** ** Vocabulary *)

Inductive Stage : Type :=
| RECEIVED | PII_TOKENIZED | BRONZE_WRITTEN | INGRESS_PUBLISHED | MAPPING_LOOKED_UP | IDENTITY_VALIDATED
| PRE_MAPPING_VALIDATED | MAPPING_EXECUTED | POST_MAPPING_VALIDATED | CANONICAL_WRITTEN | QUARANTINED | SIGNAL_COMPUTED.

Inductive Outcome : Type := SUCCESS | FAILURE | SKIPPED | RETRIED | OUT_DUPLICATE_NOOP | OUT_DUPLICATE_OVERWRITTEN.
Inductive EventScope : Type := INGRESS_EVENT | ROW.

Inductive FailureCode : Type :=
| UPLOAD_REQUEST_MALFORMED | UPLOAD_TOO_LARGE | UPLOAD_EMPTY_FILE | UPLOAD_NOT_UTF8 | UPLOAD_NOT_CSV | UPLOAD_BELOW_MIN_ROWS
| TEMPLATE_NOT_FOUND | TEMPLATE_NOT_ACTIVE | STORE_NOT_FOUND | STORE_NOT_ACTIVE | GCS_WRITE_FAILED | PUBLISH_FAILED
| PATH_MISMATCH | PREFLIGHT_NOT_CSV | PREFLIGHT_NO_COLUMNS | PREFLIGHT_NO_HEADER | PREFLIGHT_NO_DATA_ROWS
| PII_BACKEND_NOT_CONFIGURED
| CONTRACT_VIOLATION | MAPPING_CONFIG_INVALID | SUITE_REF_UNSUPPORTED | PRE_VALIDATION_FAILED | MAPPING_EXECUTION_FAILED
| POST_VALIDATION_FAILED | VALIDATION_ROW_FAILED | HOT_POSITION_MISSING
| INFRA_FAILURE.

Global Instance Stage_eq_dec : EqDecision Stage.
Proof. solve_decision. Defined.
Global Instance FailureCode_eq_dec : EqDecision FailureCode.
Proof. solve_decision. Defined.

(** [failure_code_for]: the first registered class of the exception. *)
Definition failure_code_for (e : exn) : FailureCode :=
  match e with
  | EventPathMismatchError _ => PATH_MISMATCH
  | EventContractError _ => CONTRACT_VIOLATION
  | MappingConfigError _ => MAPPING_CONFIG_INVALID
  | SuiteDefinitionError _ _ => SUITE_REF_UNSUPPORTED
  | HotPositionMissingError _ => HOT_POSITION_MISSING
  | PiiBackendNotConfiguredError _ => PII_BACKEND_NOT_CONFIGURED
  | _ => INFRA_FAILURE
  end.

Inductive QuarantineFailureStage : Type :=
| PRE_INGEST_PII | BRONZE_WRITE | MAPPING_LOOKUP | IDENTITY_VALIDATION | PRE_MAPPING_VALIDATION | MAPPING_EXECUTION
| POST_MAPPING_VALIDATION | CANONICAL_WRITE | OTHER.

Global Instance QuarantineFailureStage_eq_dec : EqDecision QuarantineFailureStage.
Proof. solve_decision. Defined.

Definition ROW_FAILURE_STAGES : list QuarantineFailureStage :=
  [PRE_MAPPING_VALIDATION; MAPPING_EXECUTION; POST_MAPPING_VALIDATION; IDENTITY_VALIDATION; CANONICAL_WRITE; OTHER].

Definition failure_stage_for (s : Stage) : QuarantineFailureStage :=
  match s with
  | PII_TOKENIZED => PRE_INGEST_PII
  | BRONZE_WRITTEN => BRONZE_WRITE
  | MAPPING_LOOKED_UP => MAPPING_LOOKUP
  | IDENTITY_VALIDATED => IDENTITY_VALIDATION
  | PRE_MAPPING_VALIDATED => PRE_MAPPING_VALIDATION
  | MAPPING_EXECUTED => MAPPING_EXECUTION
  | POST_MAPPING_VALIDATED => POST_MAPPING_VALIDATION
  | CANONICAL_WRITTEN => CANONICAL_WRITE
  | RECEIVED | INGRESS_PUBLISHED | QUARANTINED | SIGNAL_COMPUTED => OTHER
  end.

(** The text of a failure code, as stored. *)
Definition code_text (c : FailureCode) : string :=
  match c with
  | UPLOAD_REQUEST_MALFORMED => "UPLOAD_REQUEST_MALFORMED" | UPLOAD_TOO_LARGE => "UPLOAD_TOO_LARGE"
  | UPLOAD_EMPTY_FILE => "UPLOAD_EMPTY_FILE" | UPLOAD_NOT_UTF8 => "UPLOAD_NOT_UTF8" | UPLOAD_NOT_CSV => "UPLOAD_NOT_CSV"
  | UPLOAD_BELOW_MIN_ROWS => "UPLOAD_BELOW_MIN_ROWS" | TEMPLATE_NOT_FOUND => "TEMPLATE_NOT_FOUND"
  | TEMPLATE_NOT_ACTIVE => "TEMPLATE_NOT_ACTIVE" | STORE_NOT_FOUND => "STORE_NOT_FOUND" | STORE_NOT_ACTIVE => "STORE_NOT_ACTIVE"
  | GCS_WRITE_FAILED => "GCS_WRITE_FAILED" | PUBLISH_FAILED => "PUBLISH_FAILED" | PATH_MISMATCH => "PATH_MISMATCH"
  | PREFLIGHT_NOT_CSV => "PREFLIGHT_NOT_CSV" | PREFLIGHT_NO_COLUMNS => "PREFLIGHT_NO_COLUMNS"
  | PREFLIGHT_NO_HEADER => "PREFLIGHT_NO_HEADER" | PREFLIGHT_NO_DATA_ROWS => "PREFLIGHT_NO_DATA_ROWS"
  | PII_BACKEND_NOT_CONFIGURED => "PII_BACKEND_NOT_CONFIGURED" | CONTRACT_VIOLATION => "CONTRACT_VIOLATION"
  | MAPPING_CONFIG_INVALID => "MAPPING_CONFIG_INVALID" | SUITE_REF_UNSUPPORTED => "SUITE_REF_UNSUPPORTED"
  | PRE_VALIDATION_FAILED => "PRE_VALIDATION_FAILED" | MAPPING_EXECUTION_FAILED => "MAPPING_EXECUTION_FAILED"
  | POST_VALIDATION_FAILED => "POST_VALIDATION_FAILED" | VALIDATION_ROW_FAILED => "VALIDATION_ROW_FAILED"
  | HOT_POSITION_MISSING => "HOT_POSITION_MISSING" | INFRA_FAILURE => "INFRA_FAILURE"
  end.

(** ** Held records *)

Definition DIS_CHANNELS : list string := ["csv_upload"; "api"; "csv_erp"; "reverse_api"].

(** One gate failure: column, row index, check, reason. *)
Abbreviation GateFailure := (option string * option Z * string * string)%type.

Record QuarantineBase := mkQuarantineBase {
  q_tenant_id : uuid;
  q_store_id : option uuid;
  q_data_ingress_event_id : uuid;
  q_trace_id : uuid;
  q_source_id : string;
  q_dis_channel : string;
  q_gcs_uri : string;
  q_failure_stage : QuarantineFailureStage;
  q_failure_reason : string;
  q_failures : list GateFailure            (* the failures of failure_context *)
}.

Record QuarantinedChunk := mkQuarantinedChunk {
  qc_base : QuarantineBase;
  qc_mapping_version_id : option Z;
  row_count_in_chunk : option Z
}.

Record QuarantinedRow := mkQuarantinedRow {
  qr_base : QuarantineBase;
  row_offset : Z;
  qr_mapping_version_id : Z
}.

Definition length_between (lo hi : nat) (s : string) : bool := (lo <=? String.length s) && (String.length s <=? hi).

(** The field checks of the record models. *)
Definition base_ok (b : QuarantineBase) : bool :=
  length_between 1 128 (q_source_id b) && length_between 0 32 (q_dis_channel b) && length_between 1 1024 (q_gcs_uri b) &&
  length_between 1 256 (q_failure_reason b) && mem (q_dis_channel b) DIS_CHANNELS.

Definition make_chunk (c : QuarantinedChunk) : res QuarantinedChunk :=
  raise_if (negb (base_ok (qc_base c)) || match row_count_in_chunk c with Some n => (n <? 0)%Z | None => false end)
    ValidationError ≫= fun _ => Ok c.

Definition make_row (r : QuarantinedRow) : res QuarantinedRow :=
  raise_if (negb (base_ok (qr_base r)) || (row_offset r <? 0)%Z ||
            negb (bool_decide (q_failure_stage (qr_base r) ∈ ROW_FAILURE_STAGES))) ValidationError ≫= fun _ => Ok r.

(** ** The writer *)

Record held := mkHeld { held_chunks : list QuarantinedChunk; held_rows : list QuarantinedRow }.

Section Writer.
(** The database's answer to an insert: refused, or done. *)
Context (chunk_insert_fails : QuarantinedChunk -> bool) (rows_insert_fails : list QuarantinedRow -> bool).

Definition write_error (b : QuarantineBase) : exn := QuarantineWriteError (Some (q_failure_reason b)).

Definition hold_chunk (c : QuarantinedChunk) (h : held) : res held :=
  if chunk_insert_fails c then Err (write_error (qc_base c)) else Ok (mkHeld (held_chunks h ++ [c]) (held_rows h)).

Definition hold_rows (records : list QuarantinedRow) (h : held) : res held :=
  match records with
  | [] => Err (QuarantineWriteError None)
  | first :: _ =>
      raise_if (negb (forallb (fun r => String.eqb (q_tenant_id (qr_base r)) (q_tenant_id (qr_base first))) records))
        (QuarantineWriteError None) ≫= fun _ =>
      if rows_insert_fails records then Err (write_error (qr_base first))
      else Ok (mkHeld (held_chunks h) (held_rows h ++ records))
  end.

(** ** The consumer's sink *)

(** What the flow knows of a partly processed event. *)
Record FlowContext := mkFlowContext {
  ctx_bronze_id : option uuid;
  ctx_mapping_version_id : option Z;
  ctx_dis_channel : option string;
  ctx_row_count : option Z
}.

Definition quarantine_base (event : IngressReadyEvent) (ctx : FlowContext) (channel : string) (stage : Stage)
    (reason : FailureCode) (failures : list GateFailure) : QuarantineBase :=
  mkQuarantineBase (ev_tenant_id event) (Some (ev_store_id event)) (default (ev_bronze_ref event) (ctx_bronze_id ctx))
    (ev_trace_id event) (ev_source_id event) channel (ev_gcs_uri event) (failure_stage_for stage) (code_text reason)
    (map (fun '(c, i, k, r) => (c, i, str_take 256 k, str_take 512 r)) failures).

Definition hold_chunk_failure (event : IngressReadyEvent) (ctx : FlowContext) (stage : Stage) (code : FailureCode)
    (failures : list GateFailure) (h : held) : res held :=
  match ctx_dis_channel ctx with
  | None => Err (QuarantineWriteError (Some (code_text code)))
  | Some channel =>
      record ← make_chunk (mkQuarantinedChunk (quarantine_base event ctx channel stage code failures)
                             (ctx_mapping_version_id ctx) (ctx_row_count ctx));
      hold_chunk record h
  end.

(** [by_row.setdefault(row_index, []).append(failure)] *)
Fixpoint add_failure (by_row : list (Z * list GateFailure)) (i : Z) (f : GateFailure) : list (Z * list GateFailure) :=
  match by_row with
  | [] => [(i, [f])]
  | (j, fs) :: rest => if (i =? j)%Z then (j, fs ++ [f]) :: rest else (j, fs) :: add_failure rest i f
  end.

Definition group_failure (by_row : list (Z * list GateFailure)) (f : GateFailure) : res (list (Z * list GateFailure)) :=
  match f with
  | (_, Some i, _, _) => Ok (add_failure by_row i f)
  | (_, None, _, _) => Err (QuarantineWriteError (Some (code_text VALIDATION_ROW_FAILED)))
  end.

Definition group_failures (failures : list GateFailure) : res (list (Z * list GateFailure)) :=
  fold_res group_failure [] failures.

Definition row_le (a b : Z * list GateFailure) : Prop := (a.1 <= b.1)%Z.
Global Instance row_le_dec : RelDecision row_le := fun a b => Z_le_dec a.1 b.1.

(** [sorted(by_row.items())] on distinct row numbers. *)
Definition sort_rows (by_row : list (Z * list GateFailure)) : list (Z * list GateFailure) := merge_sort row_le by_row.

Definition hold_row_failures (event : IngressReadyEvent) (ctx : FlowContext) (stage : Stage)
    (failures : list GateFailure) (h : held) : res (nat * held) :=
  match ctx_dis_channel ctx, ctx_mapping_version_id ctx with
  | Some channel, Some version =>
      by_row ← group_failures failures;
      records ← map_res (fun '(i, fs) =>
        make_row (mkQuarantinedRow (quarantine_base event ctx channel stage VALIDATION_ROW_FAILED fs) i version))
        (sort_rows by_row);
      h' ← hold_rows records h;
      Ok (length records, h')
  | _, _ => Err (QuarantineWriteError (Some (code_text VALIDATION_ROW_FAILED)))
  end.
End Writer.
