(* ===== verification/Consumer.v ===== *)
(** Consumer: one event through the streaming consumer (streaming-consumer,
    [pipeline/fetch.py], [orchestrate.py], [sinks/audit.py]).

    The state of the flow is the context the catch-all reads and the world: the
    canonical tables, the quarantine tables and the audit log.  A computation
    ([flow]) keeps the state it reached when it raises, and an exception carries
    the stage it was tagged with.  What is outside the program is the class
    [Outside]; an audit event may be lost, an audit emission never raises. *)

From S2P Require Import Prelude Text Values Decimals Transform SourceMapping Polars Normalize Engine.
From S2P Require Import Canonical Provenance Enrichment HotMapping Sink Validation Paths Quarantine.
Local Open Scope nat_scope.

(** ** State, exceptions and effects *)

Record AuditEvent := mkAudit {
  au_stage : Stage;
  au_outcome : Outcome;
  au_scope : EventScope;
  au_tenant_id : uuid;
  au_trace_id : uuid;
  au_bronze_id : option uuid;
  au_prior_trace_id : option uuid;
  au_mapping_version_id : option Z;
  au_row_count : option Z;
  au_rows_succeeded : option Z;
  au_rows_failed : option Z;
  au_row_offset : option Z;
  au_failure_code : option FailureCode
}.

Record world := mkWorld { w_db : db; w_held : held; w_audit : list AuditEvent }.
Record flow_state := mkFlow { fl_ctx : FlowContext; fl_world : world }.

(** An exception and its [_dis_stage] attribute. *)
Record raised := mkRaised { r_exn : exn; r_stage : option Stage }.

Definition flow (A : Type) : Type := flow_state -> result raised A * flow_state.

Global Instance flow_ret : MRet flow := fun A a s => (Ok a, s).
Global Instance flow_bind : MBind flow := fun A B k c s =>
  match c s with (Ok a, s') => k a s' | (Err e, s') => (Err e, s') end.

Definition lift {A} (r : res A) : flow A := fun s =>
  (match r with Ok a => Ok a | Err e => Err (mkRaised e None) end, s).

Definition get_state : flow flow_state := fun s => (Ok s, s).

Definition set_ctx (f : FlowContext -> FlowContext) : flow unit := fun s => (Ok tt, mkFlow (f (fl_ctx s)) (fl_world s)).

(** [_staged]: an exception that passes gets this stage. *)
Definition staged {A} (stage : Stage) (c : flow A) : flow A := fun s =>
  match c s with
  | (Err e, s') => (Err (mkRaised (r_exn e) (Some stage)), s')
  | ok => ok
  end.

(** [try: return c except Exception as e: handler(e)] *)
Definition try_with {A} (c : flow A) (handler : raised -> flow A) : flow A := fun s =>
  match c s with (Err e, s') => handler e s' | ok => ok end.

Definition reraise {A} (e : raised) : flow A := fun s => (Err e, s).

(** A write to the canonical tables: what was committed stays on an exception. *)
Definition write_db {A} (w : db -> res A * db) : flow A := fun s =>
  let '(r, d') := w (w_db (fl_world s)) in
  (match r with Ok a => Ok a | Err e => Err (mkRaised e None) end,
   mkFlow (fl_ctx s) (mkWorld d' (w_held (fl_world s)) (w_audit (fl_world s)))).

(** A hold in the quarantine tables: one transaction. *)
Definition write_held {A} (w : held -> res (A * held)) : flow A := fun s =>
  match w (w_held (fl_world s)) with
  | Ok (a, h') => (Ok a, mkFlow (fl_ctx s) (mkWorld (w_db (fl_world s)) h' (w_audit (fl_world s))))
  | Err e => (Err (mkRaised e None), s)
  end.

Record StoreFacts := mkStoreFacts { sf_tax_treatment : string; sf_currency : string }.

(** The outside of one delivery. *)
Class Outside := {
  (* SELECT of the bronze row under the tenant: id, trace *)
  bronze_row : uuid -> uuid -> uuid -> res (option BronzeMeta);
  download_bytes : string -> res string;
  read_csv : ascii -> string -> res frame;
  store_row : uuid -> uuid -> res (option StoreFacts);
  select_active : uuid -> string -> uuid -> res (option mapping_row);
  model_validate : value -> res SourceMapping;
  accepts : string -> dict value -> bool;
  select_priors : db -> string -> uuid -> uuid -> string -> list string -> list (dict value);
  fresh_row_ids : nat -> uuid;
  fresh_hot_ids : nat -> uuid;
  (* SELECT of a prior RECEIVED row of this trace in the audit log *)
  audit_readback : list AuditEvent -> uuid -> res bool;
  audit_lands : AuditEvent -> bool;
  chunk_insert_fails : QuarantinedChunk -> bool;
  rows_insert_fails : list QuarantinedRow -> bool
}.

Section Pipeline.
Context `{Polars, Codec, Pandera, Outside}.
Context (bronze_bucket : string) (batch_size : nat).

(** [ConsumerAudit.emit] *)
Definition emit (ev : AuditEvent) : flow unit := fun s =>
  (Ok tt, if audit_lands ev
          then mkFlow (fl_ctx s) (mkWorld (w_db (fl_world s)) (w_held (fl_world s)) (w_audit (fl_world s) ++ [ev]))
          else s).

(** ** Fetch *)

Definition cross_check_path (event : IngressReadyEvent) : res string :=
  '(bucket, object_key) ← split_object_uri (ev_gcs_uri event);
  raise_if (negb (String.eqb bucket bronze_bucket)) (EventPathMismatchError None) ≫= fun _ =>
  parsed ← parse_object_path object_key;
  raise_if (negb (String.eqb (po_tenant_id parsed) (ev_tenant_id event)) || negb (String.eqb (po_source_id parsed) (ev_source_id event)))
           (EventPathMismatchError None) ≫= fun _ =>
  Ok object_key.

Definition read_bronze_row (event : IngressReadyEvent) : res BronzeMeta :=
  found ← bronze_row (ev_tenant_id event) (ev_bronze_ref event) (ev_trace_id event);
  match found with
  | None => Err (EventContractError (Some "bronze_ref"))
  | Some row =>
      raise_if (negb (String.eqb (bronze_source_id row) (ev_source_id event)) || negb (String.eqb (bronze_gcs_uri row) (ev_gcs_uri event)))
               (EventContractError (Some "bronze_ref")) ≫= fun _ => Ok row
  end.

Definition parse_chunk (data : string) (separator : ascii) : res frame :=
  match read_csv separator data with
  | Err _ => Err (EventContractError None)
  | Ok f => raise_if (height f =? 0) (EventContractError None) ≫= fun _ => Ok f
  end.

Definition note_bronze (bronze : BronzeMeta) : flow unit := set_ctx (fun c =>
  mkFlowContext (Some (bronze_id bronze)) (ctx_mapping_version_id c) (Some (dis_channel bronze)) (ctx_row_count c)).

Definition fetch_chunk (event : IngressReadyEvent) : flow (frame * BronzeMeta) :=
  object_key ← lift (cross_check_path event);
  bronze ← lift (read_bronze_row event);
  note_bronze bronze ≫= fun _ =>
  data ← lift (download_bytes object_key);
  f ← lift (parse_chunk data (ev_delimiter event));
  mret (f, bronze).

Definition read_store_facts (event : IngressReadyEvent) : res StoreFacts :=
  found ← store_row (ev_tenant_id event) (ev_store_id event);
  match found with
  | None => Err (EventContractError (Some "store_id"))
  | Some facts => Ok facts
  end.

(** ** Dispositions *)

Inductive Disposition : Type :=
| disp_written | disp_quarantined | failed_pre_validation | failed_mapping | failed_post_validation.

Record ConsumeOutcome := mkConsume { disposition : Disposition; report : option WriteReport }.

Definition GATE_FAILURE_CODES (s : Stage) : FailureCode :=
  match s with
  | PRE_MAPPING_VALIDATED => PRE_VALIDATION_FAILED
  | MAPPING_EXECUTED => MAPPING_EXECUTION_FAILED
  | _ => POST_VALIDATION_FAILED
  end.

Definition CHUNK_QUARANTINE_CODES : list FailureCode := [MAPPING_CONFIG_INVALID; SUITE_REF_UNSUPPORTED; CONTRACT_VIOLATION].

(** [getattr(exc, "field", None)] *)
Definition exn_field (e : exn) : option string :=
  match e with EventContractError f | EventPathMismatchError f => f | _ => None end.

Definition quarantinable (e : exn) (code : FailureCode) (ctx : FlowContext) : bool :=
  if negb (bool_decide (code ∈ CHUNK_QUARANTINE_CODES)) then false
  else match ctx_dis_channel ctx with
       | None => false
       | Some _ => negb (bool_decide (code = CONTRACT_VIOLATION) && bool_decide (exn_field e = Some "store_id"))
       end.

(** ** Audit events *)

Definition stage_event (event : IngressReadyEvent) (stage : Stage) (outcome : Outcome) (bronze : option uuid)
    (version row_count succeeded failed : option Z) (code : option FailureCode) : AuditEvent :=
  mkAudit stage outcome INGRESS_EVENT (ev_tenant_id event) (ev_trace_id event) bronze None version row_count succeeded failed None code.

Definition rows_of (f : frame) : Z := Z.of_nat (height f).

(** One ROW event of a gate failure. *)
Definition row_failure_event (event : IngressReadyEvent) (stage : Stage) (bronze : BronzeMeta) (loaded : LoadedMapping)
    (f : GateFailure) : AuditEvent :=
  let '(_, row_index, _, _) := f in
  mkAudit stage FAILURE ROW (ev_tenant_id event) (ev_trace_id event) (Some (bronze_id bronze)) None
    (Some (mapping_version_id loaded)) None None None row_index (Some VALIDATION_ROW_FAILED).

Fixpoint emit_all (evs : list AuditEvent) : flow unit :=
  match evs with
  | [] => mret tt
  | ev :: evs' => emit ev ≫= fun _ => emit_all evs'
  end.

Definition emit_gate_failure (stage : Stage) (event : IngressReadyEvent) (f : frame) (bronze : BronzeMeta)
    (loaded : LoadedMapping) (failures : list GateFailure) : flow unit :=
  emit (stage_event event stage FAILURE (Some (bronze_id bronze)) (Some (mapping_version_id loaded)) (Some (rows_of f)) None
          (Some (Z.of_nat (length failures))) (Some (GATE_FAILURE_CODES stage))) ≫= fun _ =>
  emit_all (map (row_failure_event event stage bronze loaded) failures).

Definition emit_quarantined (event : IngressReadyEvent) (code : FailureCode) (rows_table : bool) (held : nat) : flow unit :=
  s ← get_state;
  let ctx := fl_ctx s in
  emit (stage_event event QUARANTINED SUCCESS (ctx_bronze_id ctx) (ctx_mapping_version_id ctx) (ctx_row_count ctx) None
          (if rows_table then Some (Z.of_nat held) else None) (Some code)).

(** [_quarantine_gate_failure] *)
Definition row_known (f : GateFailure) : bool := match f with (_, Some _, _, _) => true | _ => false end.

Definition hold_gate (stage : Stage) (event : IngressReadyEvent) (failures : list GateFailure)
    : flow (nat * bool * FailureCode) :=
  s ← get_state;
  if forallb row_known failures then
    n ← write_held (fun h => hold_row_failures rows_insert_fails event (fl_ctx s) stage failures h);
    mret (n, true, VALIDATION_ROW_FAILED)
  else
    write_held (fun h => h' ← hold_chunk_failure chunk_insert_fails event (fl_ctx s) stage (GATE_FAILURE_CODES stage) failures h;
                         Ok (tt, h')) ≫= fun _ =>
    mret (1, false, GATE_FAILURE_CODES stage).

Definition quarantine_gate_failure (stage : Stage) (event : IngressReadyEvent) (failures : list GateFailure)
    (fallback : Disposition) : flow ConsumeOutcome :=
  held ← try_with (x ← hold_gate stage event failures; mret (Some x)) (fun _ => mret None);
  match held with
  | None => mret (mkConsume fallback None)
  | Some (n, rows_table, code) =>
      emit_quarantined event code rows_table n ≫= fun _ => mret (mkConsume disp_quarantined None)
  end.

(** ** The stages *)

Definition seen_before (event : IngressReadyEvent) : flow bool :=
  s ← get_state;
  mret (match audit_readback (w_audit (fl_world s)) (ev_trace_id event) with Ok b => b | Err _ => false end).

Definition gate_failures (r : ShapeResult) : list GateFailure :=
  map (fun f => (sf_column f, sf_row_index f, sf_check f, sf_reason f)) (shape_failures r).

Definition stage_text (s : stage_name) : string :=
  match s with StNormalize => "normalize" | StCast => "cast" | StDerive => "derive" end.

Definition mapping_gate_failures (r : MappingResult) : list GateFailure :=
  map (fun f => (Some (column f), Some (Z.of_nat (row_index f)), stage_text (stage f) +:+ ":" +:+ fop f, reason f)) (failures r).

Definition duplicate_outcome (k : DuplicateKind) : Outcome :=
  match k with DUPLICATE_NOOP => OUT_DUPLICATE_NOOP | DUPLICATE_OVERWRITTEN => OUT_DUPLICATE_OVERWRITTEN end.

(** [emit_duplicate] *)
Definition duplicate_event (event : IngressReadyEvent) (bronze : BronzeMeta) (loaded : LoadedMapping) (hit : DuplicateHit) : AuditEvent :=
  mkAudit CANONICAL_WRITTEN (duplicate_outcome (kind hit)) ROW (ev_tenant_id event) (ev_trace_id event)
    (Some (bronze_id bronze)) (Some (prior_trace_id hit)) (Some (mapping_version_id loaded)) None None None
    (Some (Z.of_nat (hit_row_index hit))) None.
(** What a failed gate does: the FAILURE events, then the hold. *)
Definition fail_gate (stage : Stage) (event : IngressReadyEvent) (f : frame) (bronze : BronzeMeta) (loaded : LoadedMapping)
    (gf : list GateFailure) (fallback : Disposition) : flow ConsumeOutcome :=
  emit_gate_failure stage event f bronze loaded gf ≫= fun _ => quarantine_gate_failure stage event gf fallback.

(** Step 3: the store row, for the targets that need it. *)
Definition store_facts_for (event : IngressReadyEvent) (loaded : LoadedMapping) : flow (option StoreFacts) :=
  if bool_decide (target_model loaded ∈ [StoreSkuSaleEvent; StoreSkuCurrentPosition])
  then facts ← staged MAPPING_LOOKED_UP (lift (read_store_facts event)); mret (Some facts)
  else mret None.

(** Step 5b: enrichment of a current-position contribution. *)
Definition enrich_for (loaded : LoadedMapping) (facts : option StoreFacts) (result : MappingResult) : flow MappingResult :=
  if bool_decide (target_model loaded = StoreSkuCurrentPosition) then
    match facts with
    | None => lift (Err (OtherError "AssertionError"))
    | Some sf => lift (apply_loaded_enrichment
                         [("currency", VStr (sf_currency sf)); ("tax_treatment", VStr (sf_tax_treatment sf))] result)
    end
  else mret result.

(** Step 7: the write of the target's path. *)
Definition write_result (event : IngressReadyEvent) (bronze : BronzeMeta) (loaded : LoadedMapping) (result : MappingResult)
    (tax_treatment : option string) : flow WriteReport :=
  if bool_decide (target_model loaded = StoreSkuCurrentPosition) then
    staged CANONICAL_WRITTEN
      (write_db (write_catalogue_chunk accepts fresh_hot_ids event loaded result (dis_channel bronze) batch_size))
  else
    rows ← lift (build_event_rows event bronze loaded result tax_treatment fresh_row_ids);
    staged CANONICAL_WRITTEN
      (write_db (write_chunk accepts select_priors fresh_hot_ids event loaded rows (dis_channel bronze) tax_treatment batch_size)).

(** Steps 4 to 8. *)
Definition process_loaded (event : IngressReadyEvent) (f : frame) (bronze : BronzeMeta) (loaded : LoadedMapping)
    (facts : option StoreFacts) : flow ConsumeOutcome :=
  let ev st succeeded failed n := stage_event event st SUCCESS (Some (bronze_id bronze)) (Some (mapping_version_id loaded)) n succeeded failed None in
  pre ← lift (run_pre_validation loaded f);
  if negb (passed pre)
  then fail_gate PRE_MAPPING_VALIDATED event f bronze loaded (gate_failures pre) failed_pre_validation else
  emit (ev PRE_MAPPING_VALIDATED None None (Some (rows_of f))) ≫= fun _ =>
  result ← lift (apply_loaded_mapping loaded f);
  if bool_decide (failures result <> [])
  then fail_gate MAPPING_EXECUTED event f bronze loaded (mapping_gate_failures result) failed_mapping else
  emit (ev MAPPING_EXECUTED (Some (rows_of (contribution result))) (Some 0%Z) (Some (rows_of f))) ≫= fun _ =>
  result ← enrich_for loaded facts result;
  post ← lift (run_post_validation loaded (contribution result));
  if negb (passed post)
  then fail_gate POST_MAPPING_VALIDATED event f bronze loaded (gate_failures post) failed_post_validation else
  emit (ev POST_MAPPING_VALIDATED None None (Some (rows_of (contribution result)))) ≫= fun _ =>
  report ← write_result event bronze loaded result (sf_tax_treatment <$> facts);
  let n := Some (Z.of_nat (event_rows_written report)) in
  emit (ev CANONICAL_WRITTEN n None n) ≫= fun _ =>
  emit_all (map (duplicate_event event bronze loaded) (duplicates report)) ≫= fun _ =>
  mret (mkConsume disp_written (Some report)).

(** [_process] *)
Definition process_body (event : IngressReadyEvent) : flow ConsumeOutcome :=
  seen ← seen_before event;
  '(f, bronze) ← staged RECEIVED (fetch_chunk event);
  set_ctx (fun c => mkFlowContext (ctx_bronze_id c) (ctx_mapping_version_id c) (ctx_dis_channel c) (Some (rows_of f))) ≫= fun _ =>
  emit (stage_event event RECEIVED (if (seen : bool) then RETRIED else SUCCESS) (Some (bronze_id bronze)) None (Some (rows_of f)) None None None) ≫= fun _ =>
  loaded ← staged MAPPING_LOOKED_UP (lift (load_active_mapping select_active model_validate event));
  set_ctx (fun c => mkFlowContext (ctx_bronze_id c) (Some (mapping_version_id loaded)) (ctx_dis_channel c) (ctx_row_count c)) ≫= fun _ =>
  emit (stage_event event MAPPING_LOOKED_UP SUCCESS (Some (bronze_id bronze)) (Some (mapping_version_id loaded)) None None None None) ≫= fun _ =>
  facts ← store_facts_for event loaded;
  process_loaded event f bronze loaded facts.

(** The catch-all of [process]. *)
Definition on_exception (event : IngressReadyEvent) (e : raised) : flow ConsumeOutcome :=
  let failed_stage := default RECEIVED (r_stage e) in
  let code := failure_code_for (r_exn e) in
  s ← get_state;
  let ctx := fl_ctx s in
  emit (stage_event event failed_stage FAILURE (ctx_bronze_id ctx) (ctx_mapping_version_id ctx) None None None (Some code)) ≫= fun _ =>
  if negb (quarantinable (r_exn e) code ctx) then reraise e else
  try_with (write_held (fun h => h' ← hold_chunk_failure chunk_insert_fails event ctx failed_stage code [] h; Ok (tt, h')))
           (fun _ => reraise e) ≫= fun _ =>
  emit_quarantined event code false 1 ≫= fun _ =>
  mret (mkConsume disp_quarantined None).

Definition empty_ctx : FlowContext := mkFlowContext None None None None.

(** [ConsumerPipeline.process], on a world. *)
Definition process (event : IngressReadyEvent) (w : world) : result raised ConsumeOutcome * world :=
  let '(r, s) := try_with (process_body event) (on_exception event) (mkFlow empty_ctx w) in (r, fl_world s).
End Pipeline.
