(* ===== verification/ConsumerProps.v ===== *)
(** ConsumerProps: the effect of one event on the canonical tables and on the
    quarantine, over all the ways its processing can end. *)

From S2P Require Import Prelude Text Values Decimals Transform SourceMapping Polars Normalize Engine.
From S2P Require Import Canonical Provenance Enrichment HotMapping Sink SinkProps Validation Paths Quarantine Consumer.
Local Open Scope nat_scope.

(** ** Running flows *)

Lemma bind_inv {A B} (c : flow A) (k : A -> flow B) s r s' :
  (c ≫= k) s = (r, s') ->
  (exists a s1, c s = (Ok a, s1) /\ k a s1 = (r, s')) \/ (exists e, c s = (Err e, s') /\ r = Err e).
Proof.
  unfold mbind, flow_bind. destruct (c s) as [[a|e] s1]; [left; eauto|]. intros [= <- <-]. right. eauto.
Qed.

(** The canonical tables and the quarantine stay; the audit log only grows. *)
Record quiet (s s' : flow_state) : Prop := {
  qu_db : w_db (fl_world s') = w_db (fl_world s);
  qu_held : w_held (fl_world s') = w_held (fl_world s);
  qu_audit : w_audit (fl_world s) `prefix_of` w_audit (fl_world s')
}.

Global Instance quiet_preorder : PreOrder quiet.
Proof.
  split; [by intros s; split|]. intros a b c [H1 H2 H3] [H4 H5 H6]. split; [congruence|congruence|by etrans].
Qed.

Definition silent {A} (c : flow A) : Prop := forall s r s', c s = (r, s') -> quiet s s'.

Lemma silent_bind {A B} (c : flow A) (k : A -> flow B) : silent c -> (forall a, silent (k a)) -> silent (c ≫= k).
Proof.
  intros Hc Hk s r s' [(a & s1 & H1 & H2)|(e & H1 & ->)]%bind_inv; [|by eapply Hc].
  etrans; [by eapply Hc|by eapply Hk].
Qed.

Lemma silent_ret {A} (a : A) : silent (mret a).
Proof. intros s r s' [= <- <-]. done. Qed.

Lemma silent_lift {A} (x : res A) : silent (lift x).
Proof. intros s r s' [= <- <-]. done. Qed.

Lemma silent_get : silent get_state.
Proof. intros s r s' [= <- <-]. done. Qed.

Lemma silent_set f : silent (set_ctx f).
Proof. intros s r s' [= <- <-]. by split. Qed.

Lemma silent_staged {A} stage (c : flow A) : silent c -> silent (staged stage c).
Proof.
  intros Hc s r s'. unfold staged. destruct (c s) as [[a|e] s1] eqn:Hs; intros [= <- <-]; by eapply Hc.
Qed.

(** ** Emissions *)

Section Props.
Context `{Polars, Codec, Pandera, Outside} (bronze_bucket : string) (batch_size : nat).

Lemma emit_run ev s : exists s', emit ev s = (Ok tt, s') /\ quiet s s' /\ fl_ctx s' = fl_ctx s.
Proof.
  unfold emit. destruct (audit_lands ev); eexists; (split; [done|]); split; try done; split; cbn; try done.
  by apply prefix_app_r.
Qed.

Lemma silent_emit ev : silent (emit ev).
Proof. intros s r s' Hs. destruct (emit_run ev s) as (s1 & He & Hq & _). rewrite He in Hs. by injection Hs as <- <-. Qed.

Lemma silent_emit_all evs : silent (emit_all evs).
Proof. induction evs as [|ev evs IH]; [apply silent_ret|]. apply silent_bind; [apply silent_emit|done]. Qed.

Lemma silent_fetch event : silent (fetch_chunk bronze_bucket event).
Proof.
  unfold fetch_chunk, note_bronze.
  repeat (apply silent_bind; [first [apply silent_lift|apply silent_set]|intros ?]). apply silent_ret.
Qed.

Lemma silent_gate_events stage event f bronze loaded gf : silent (emit_gate_failure stage event f bronze loaded gf).
Proof. apply silent_bind; [apply silent_emit|intros _; apply silent_emit_all]. Qed.

Lemma silent_quarantined_event event code b n : silent (emit_quarantined event code b n).
Proof. apply silent_bind; [apply silent_get|intros s; apply silent_emit]. Qed.

Lemma silent_store_facts event loaded : silent (store_facts_for event loaded).
Proof.
  unfold store_facts_for. destruct (bool_decide _); [|apply silent_ret].
  apply silent_bind; [apply silent_staged, silent_lift|intros ?; apply silent_ret].
Qed.

Lemma silent_enrich loaded facts result : silent (enrich_for loaded facts result).
Proof.
  unfold enrich_for. destruct (bool_decide _); [|apply silent_ret]. destruct facts; apply silent_lift.
Qed.

Lemma silent_seen event : silent (seen_before event).
Proof. apply silent_bind; [apply silent_get|intros s; apply silent_ret]. Qed.

(** ** Holding *)

Definition belongs (event : IngressReadyEvent) (b : QuarantineBase) : Prop :=
  q_tenant_id b = ev_tenant_id event /\ q_store_id b = Some (ev_store_id event) /\ q_trace_id b = ev_trace_id event /\
  q_source_id b = ev_source_id event /\ q_gcs_uri b = ev_gcs_uri event.

(** The event is held: one chunk record, or at least one row record. *)
Definition held_for (event : IngressReadyEvent) (h h' : held) : Prop :=
  (exists c, held_chunks h' = held_chunks h ++ [c] /\ held_rows h' = held_rows h /\ belongs event (qc_base c)) \/
  (exists rs, rs <> [] /\ held_rows h' = held_rows h ++ rs /\ held_chunks h' = held_chunks h /\
     Forall (fun r => belongs event (qr_base r)) rs).

Lemma hold_chunk_held event ctx stage code gf h h' :
  hold_chunk_failure chunk_insert_fails event ctx stage code gf h = Ok h' -> held_for event h h'.
Proof.
  unfold hold_chunk_failure, make_chunk, hold_chunk. intros Hh. destruct (ctx_dis_channel ctx) as [ch|]; [|done]. inv_ok.
  destruct (chunk_insert_fails _); [done|]. inv_ok. left. eexists. split; [done|]. split; [done|]. done.
Qed.

Lemma hold_rows_held event ctx stage gf h n h' :
  hold_row_failures rows_insert_fails event ctx stage gf h = Ok (n, h') -> held_for event h h'.
Proof.
  unfold hold_row_failures. intros Hh. destruct (ctx_dis_channel ctx) as [ch|]; [|done].
  destruct (ctx_mapping_version_id ctx) as [v|]; [|done]. inv_ok. right.
  unfold hold_rows in Hs1. destruct a0 as [|first rest]; [done|]. inv_ok. destruct (rows_insert_fails _); [done|]. inv_ok.
  exists (first :: rest). split; [done|]. split; [done|]. split; [done|].
  apply map_res_ok in Hs0. apply Forall_forall. intros r Hr. apply list_elem_of_lookup in Hr as [i Hi].
  destruct (Forall2_lookup_r _ _ _ _ _ Hs0 Hi) as ([j fs] & _ & Hm). unfold make_row in Hm. inv_ok. done.
Qed.

(** A hold either lands or leaves the state as it was. *)
Lemma write_held_inv {A} (w : held -> res (A * held)) s r s' :
  write_held w s = (r, s') ->
  (exists a h', r = Ok a /\ w (w_held (fl_world s)) = Ok (a, h') /\ w_held (fl_world s') = h' /\
     w_db (fl_world s') = w_db (fl_world s) /\ w_audit (fl_world s') = w_audit (fl_world s) /\ fl_ctx s' = fl_ctx s) \/
  (exists e, r = Err (mkRaised e None) /\ w (w_held (fl_world s)) = Err e /\ s' = s).
Proof.
  unfold write_held. destruct (w (w_held (fl_world s))) as [[a h']|e]; intros [= <- <-]; [left|right]; naive_solver.
Qed.

Lemma hold_gate_inv stage event gf s r s' :
  hold_gate stage event gf s = (r, s') ->
  (exists x, r = Ok x /\ w_db (fl_world s') = w_db (fl_world s) /\ w_audit (fl_world s') = w_audit (fl_world s) /\
     held_for event (w_held (fl_world s)) (w_held (fl_world s'))) \/
  (exists e, r = Err e /\ s' = s).
Proof.
  unfold hold_gate. intros [(st & s1 & [= <- <-] & Hk)|(e & Hg & _)]%bind_inv; [|done]. destruct (forallb row_known gf).
  - apply bind_inv in Hk as [(n & s1 & Hw & Hr)|(e & Hw & ->)].
    + injection Hr as <- <-. apply write_held_inv in Hw as [(a & h' & [= <-] & Hh & <- & Hd & Ha & _)|(e & [=] & _)].
      left. eexists. split; [done|]. split; [done|]. split; [done|]. by eapply hold_rows_held.
    + apply write_held_inv in Hw as [(a & h' & [=] & _)|(e' & [= ->] & _ & ->)]. right. eauto.
  - apply bind_inv in Hk as [(n & s1 & Hw & Hr)|(e & Hw & ->)].
    + injection Hr as <- <-. apply write_held_inv in Hw as [(a & h' & [= <-] & Hh & <- & Hd & Ha & _)|(e & [=] & _)].
      inv_ok. left. eexists. split; [done|]. split; [done|]. split; [done|]. by eapply hold_chunk_held.
    + apply write_held_inv in Hw as [(a & h' & [=] & _)|(e' & [= ->] & _ & ->)]. right. eauto.
Qed.

(** ** Outcomes of one event *)

(** The chunk of an event: the whole file at its checked location, and its bronze row. *)
Definition fetched (event : IngressReadyEvent) (f : frame) (bronze : BronzeMeta) : Prop :=
  read_bronze_row event = Ok bronze /\
  exists key data, cross_check_path bronze_bucket event = Ok key /\ download_bytes key = Ok data /\ read_csv (ev_delimiter event) data = Ok f.

(** The facts of the event's own store, for the targets that need them. *)
Definition facts_of (event : IngressReadyEvent) (loaded : LoadedMapping) (facts : option StoreFacts) : Prop :=
  if bool_decide (target_model loaded ∈ [StoreSkuSaleEvent; StoreSkuCurrentPosition])
  then exists sf, facts = Some sf /\ read_store_facts event = Ok sf else facts = None.

Definition enriched (loaded : LoadedMapping) (facts : option StoreFacts) (result result' : MappingResult) : Prop :=
  (target_model loaded = StoreSkuCurrentPosition /\ exists sf, facts = Some sf /\
     apply_loaded_enrichment [("currency", VStr (sf_currency sf)); ("tax_treatment", VStr (sf_tax_treatment sf))] result = Ok result') \/
  (target_model loaded <> StoreSkuCurrentPosition /\ result' = result).

(** The canonical write of an event: its whole chunk passed the first gate and mapped without a failure, and what it
    mapped to, enriched, passed the second gate and was written by the path of its target. *)
Definition canonical_write (event : IngressReadyEvent) (d : db) (rep : WriteReport) (d' : db) : Prop :=
  exists f bronze loaded facts result result',
    fetched event f bronze /\
    load_active_mapping select_active model_validate event = Ok loaded /\ facts_of event loaded facts /\
    (exists r, run_pre_validation loaded f = Ok r /\ passed r = true) /\
    apply_loaded_mapping loaded f = Ok result /\ failures result = [] /\
    enriched loaded facts result result' /\
    (exists r, run_post_validation loaded (contribution result') = Ok r /\ passed r = true) /\
    ((target_model loaded = StoreSkuCurrentPosition /\
      write_catalogue_chunk accepts fresh_hot_ids event loaded result' (dis_channel bronze) batch_size d = (Ok rep, d')) \/
     (target_model loaded <> StoreSkuCurrentPosition /\ exists rows,
      build_event_rows event bronze loaded result' (sf_tax_treatment <$> facts) fresh_row_ids = Ok rows /\
      write_chunk accepts select_priors fresh_hot_ids event loaded rows (dis_channel bronze) (sf_tax_treatment <$> facts) batch_size d = (Ok rep, d'))).

(** An exception that is not on the allowlist: the chunk is handed back. *)
Definition not_holdable (e : exn) : Prop := failure_code_for e ∉ CHUNK_QUARANTINE_CODES.

Inductive processed (event : IngressReadyEvent) (w w' : world) : result raised ConsumeOutcome -> Prop :=
| processed_written rep :
    canonical_write event (w_db w) rep (w_db w') -> w_held w' = w_held w ->
    processed event w w' (Ok (mkConsume disp_written (Some rep)))
| processed_held :
    w_db w' = w_db w -> held_for event (w_held w) (w_held w') ->
    processed event w w' (Ok (mkConsume disp_quarantined None))
| processed_failed d :
    w_db w' = w_db w -> w_held w' = w_held w -> d ∈ [failed_pre_validation; failed_mapping; failed_post_validation] ->
    processed event w w' (Ok (mkConsume d None))
| processed_raised e :
    w_held w' = w_held w -> (w_db w' = w_db w \/ not_holdable (r_exn e)) ->
    processed event w w' (Err e).

Lemma processed_from event w0 w1 w' r :
  w_db w1 = w_db w0 -> w_held w1 = w_held w0 -> processed event w1 w' r -> processed event w0 w' r.
Proof. intros Hd Hh. destruct 1; rewrite ?Hd, ?Hh in *; by econstructor. Qed.

Lemma processed_to event w w1 w' r :
  w_db w' = w_db w1 -> w_held w' = w_held w1 -> processed event w w1 r -> processed event w w' r.
Proof. intros Hd Hh. destruct 1; econstructor; rewrite ?Hd, ?Hh; eauto. Qed.

(** *** Errors of the writes *)

Lemma integrity_not_holdable : not_holdable integrity_error.
Proof. unfold not_holdable. apply (bool_decide_unpack _). by vm_compute. Qed.

Lemma resolve_not_holdable ns v t e : resolve_sink ns v t = Err e -> not_holdable e.
Proof.
  unfold resolve_sink. repeat case_match; intros [= <-]; unfold not_holdable; apply (bool_decide_unpack _); by vm_compute.
Qed.

Lemma raise_integrity b e : raise_if b integrity_error = Err e -> not_holdable e.
Proof. destruct b; [|done]. intros [= <-]. apply integrity_not_holdable. Qed.

Lemma bind_err {A B} (r : res A) (k : A -> res B) e :
  r ≫= k = Err e -> r = Err e \/ exists a, r = Ok a /\ k a = Err e.
Proof. destruct r; cbn; naive_solver. Qed.

Lemma complete_error ps proj table d e : insert_on_conflict_hot_complete_path accepts ps proj table d = Err e -> not_holdable e.
Proof.
  unfold insert_on_conflict_hot_complete_path. intros [Hr|(u & _ & Hk)]%bind_err; [by eapply raise_integrity|].
  destruct (key_exists _ _); [|done]. apply bind_err in Hk as [Hr|(u' & _ & Hk)]; [by eapply raise_integrity|done].
Qed.

Lemma incomplete_error ps proj table d e : update_hot_incomplete_path accepts ps proj table d = Err e -> not_holdable e.
Proof.
  unfold update_hot_incomplete_path. intros [Hr|(u & _ & Hk)]%bind_err; [by eapply raise_integrity|].
  destruct (Nat.ltb _ _); [done|]. by destruct (key_exists _ _).
Qed.

Lemma merge_groups_error event loaded channel tax groups : forall t misses d e,
  merge_groups accepts fresh_hot_ids event loaded channel tax groups t misses d = Err e -> not_holdable e.
Proof.
  induction groups as [|g groups IH]; intros t misses d e Hm; cbn [merge_groups] in Hm; [done|].
  apply bind_err in Hm as [Hu|([o d1] & _ & Hk)]; [|by eapply IH].
  unfold upsert_hot in Hu. apply bind_err in Hu as [Hr|(table & _ & Hk)]; [by eapply resolve_not_holdable|].
  destruct (hot_complete loaded); [by eapply complete_error|by eapply incomplete_error].
Qed.

Lemma write_batches_error event loaded table channel tax cols bs : forall t d e d',
  write_batches accepts select_priors fresh_hot_ids event loaded table channel tax cols bs t d = (Err e, d') -> not_holdable e.
Proof.
  induction bs as [|b bs IH]; intros t d e d' Hw; cbn [write_batches] in Hw; [done|]. unfold txn in Hw.
  destruct (batch_body accepts select_priors fresh_hot_ids event loaded table channel tax cols b t d) as [[[t1 misses] d1]|e1] eqn:Hb.
  - destruct misses; [by eapply IH|]. injection Hw as <- <-. unfold not_holdable. apply (bool_decide_unpack _). by vm_compute.
  - injection Hw as <- <-. unfold batch_body in Hb. apply bind_err in Hb as [Hi|(d1 & _ & Hk)].
    + unfold insert_events in Hi. apply bind_err in Hi as [Hr|(u & _ & Hk)]; [by eapply raise_integrity|done].
    + apply bind_err in Hk as [Hm|([[t' m'] d2] & _ & Hk)]; [by eapply merge_groups_error|done].
Qed.

Lemma write_chunk_error event loaded rows channel tax d e d' :
  write_chunk accepts select_priors fresh_hot_ids event loaded rows channel tax batch_size d = (Err e, d') -> d' = d \/ not_holdable e.
Proof.
  unfold write_chunk. destruct (write_target event loaded) as [[table cols]|e0]; [|intros [= _ <-]; by left].
  destruct (batches_of rows batch_size) as [bs|e0]; [|intros [= _ <-]; by left].
  destruct (write_batches _ _ _ _ _ _ _ _ _ _ _ _) as [[t|e1] d1] eqn:Hw; [done|]. intros [= <- <-]. right.
  by eapply write_batches_error.
Qed.

Lemma catalogue_merge_error event loaded channel table gs : forall n d e,
  catalogue_merge accepts fresh_hot_ids event loaded channel table gs n d = Err e -> not_holdable e.
Proof.
  induction gs as [|g gs IH]; intros n d e Hm; cbn [catalogue_merge] in Hm; [done|].
  apply bind_err in Hm as [Hu|([o d1] & _ & Hk)]; [by eapply complete_error|by eapply IH].
Qed.

Lemma write_catalogue_error event loaded result channel d e d' :
  write_catalogue_chunk accepts fresh_hot_ids event loaded result channel batch_size d = (Err e, d') -> d' = d \/ not_holdable e.
Proof.
  unfold write_catalogue_chunk. destruct (resolve_sink _ _ _) as [table|e0]; [|intros [= _ <-]; by left].
  destruct (catalogue_groups event result) as [gs|e0]; [|intros [= _ <-]; by left].
  destruct (batches_of gs batch_size) as [bs|e0]; [|intros [= _ <-]; by left].
  destruct (write_catalogue_batches _ _ _ _ _ _ _ _ _) as [[n|e1] d1] eqn:Hw; [done|]. intros [= <- <-]. right.
  revert Hw. generalize 0%nat. revert d. induction bs as [|b bs IH]; intros d n Hw; cbn [write_catalogue_batches] in Hw; [done|].
  unfold txn in Hw. destruct (catalogue_merge _ _ _ _ _ _ _ _ _) as [[n1 d2]|e2] eqn:Hm; [by eapply IH|].
  injection Hw as <- <-. by eapply catalogue_merge_error.
Qed.

(** *** The gates *)

Lemma fail_gate_processed stage event f bronze loaded gf fallback s r s' :
  fail_gate stage event f bronze loaded gf fallback s = (r, s') ->
  fallback ∈ [failed_pre_validation; failed_mapping; failed_post_validation] ->
  processed event (fl_world s) (fl_world s') r.
Proof.
  intros Hf Hfb. unfold fail_gate in Hf. apply bind_inv in Hf as [(u & s1 & Hg & Hq)|(e & Hg & ->)].
  2:{ apply silent_gate_events in Hg as [Hd Hh _]. by apply processed_raised; [|left]. }
  apply silent_gate_events in Hg as [Hd Hh _]. apply (processed_from _ _ (fl_world s1)); [done..|].
  unfold quarantine_gate_failure in Hq. apply bind_inv in Hq as [(x & s2 & Ht & Hk)|(e & Ht & ->)].
  2:{ unfold try_with in Ht. destruct ((x ← hold_gate stage event gf; mret (Some x)) s1) as [[y|e1] s3]; [done|]. done. }
  unfold try_with in Ht. destruct ((x ← hold_gate stage event gf; mret (Some x)) s1) as [[y|e1] s3] eqn:Hb.
  - injection Ht as -> ->. apply bind_inv in Hb as [(z & s4 & Hg & Hr)|(e & _ & [=])]. injection Hr as <- <-.
    apply hold_gate_inv in Hg as [(w & [= <-] & Hd2 & Ha & Hheld)|(e & [=] & _)]. destruct z as [[n b] code].
    apply bind_inv in Hk as [(u2 & s5 & Hg & Hr)|(e & Hg & ->)].
    + injection Hr as <- <-. apply silent_quarantined_event in Hg as [Hd3 Hh3 _]. apply processed_held; congruence.
    + exfalso. unfold emit_quarantined in Hg. apply bind_inv in Hg as [(st & s5 & [= <- <-] & He)|(e' & [=] & _)].
      destruct (emit_run (stage_event event QUARANTINED SUCCESS (ctx_bronze_id (fl_ctx s4)) (ctx_mapping_version_id (fl_ctx s4))
        (ctx_row_count (fl_ctx s4)) None (if b then Some (Z.of_nat n) else None) (Some code)) s4) as (s6 & He' & _). congruence.
  - injection Ht as <- <-. injection Hk as <- <-. apply bind_inv in Hb as [(z & s4 & _ & [=])|(e & Hg & _)].
    apply hold_gate_inv in Hg as [(w & [=] & _)|(e' & _ & ->)]. by apply processed_failed.
Qed.

(** *** The stages *)

Lemma lift_inv {A} (x : res A) s a s' : lift x s = (Ok a, s') -> x = Ok a /\ s' = s.
Proof. unfold lift. destruct x; by intros [= <- <-]. Qed.

Lemma raised_quiet event s s' e : quiet s s' -> processed event (fl_world s) (fl_world s') (Err e).
Proof. intros [Hd Hh _]. apply processed_raised; [done|by left]. Qed.

Lemma processed_step event s s1 s' r : quiet s s1 -> processed event (fl_world s1) (fl_world s') r -> processed event (fl_world s) (fl_world s') r.
Proof. intros [Hd Hh _]. by apply processed_from. Qed.

(** A write tagged with its stage. *)
Lemma staged_write_inv {A} stage (wr : db -> res A * db) s r s' :
  staged stage (write_db wr) s = (r, s') ->
  w_held (fl_world s') = w_held (fl_world s) /\
  ((exists a, r = Ok a /\ wr (w_db (fl_world s)) = (Ok a, w_db (fl_world s'))) \/
   (exists e, r = Err (mkRaised e (Some stage)) /\ wr (w_db (fl_world s)) = (Err e, w_db (fl_world s')))).
Proof.
  unfold staged, write_db. destruct (wr (w_db (fl_world s))) as [[a|e] d']; intros [= <- <-]; cbn; naive_solver.
Qed.

Lemma write_result_inv event bronze loaded result tax s r s' :
  write_result batch_size event bronze loaded result tax s = (r, s') ->
  w_held (fl_world s') = w_held (fl_world s) /\
  ((exists rep, r = Ok rep /\
      ((target_model loaded = StoreSkuCurrentPosition /\
        write_catalogue_chunk accepts fresh_hot_ids event loaded result (dis_channel bronze) batch_size (w_db (fl_world s)) = (Ok rep, w_db (fl_world s'))) \/
       (target_model loaded <> StoreSkuCurrentPosition /\ exists rows,
        build_event_rows event bronze loaded result tax fresh_row_ids = Ok rows /\
        write_chunk accepts select_priors fresh_hot_ids event loaded rows (dis_channel bronze) tax batch_size (w_db (fl_world s)) = (Ok rep, w_db (fl_world s'))))) \/
   (exists e, r = Err e /\ (w_db (fl_world s') = w_db (fl_world s) \/ not_holdable (r_exn e)))).
Proof.
  unfold write_result. destruct (bool_decide_reflect (target_model loaded = StoreSkuCurrentPosition)) as [Hm|Hm]; intros Hw.
  - apply staged_write_inv in Hw as [Hh [(rep & -> & Hw)|(e & -> & Hw)]]; (split; [done|]).
    + left. exists rep. split; [done|]. by left.
    + right. eexists. split; [done|]. by eapply write_catalogue_error.
  - apply bind_inv in Hw as [(rows & s1 & Hl & Hw)|(e & Hl & ->)].
    + apply lift_inv in Hl as [Hb ->]. apply staged_write_inv in Hw as [Hh [(rep & -> & Hw)|(e & -> & Hw)]]; (split; [done|]).
      * left. exists rep. split; [done|]. right. eauto.
      * right. eexists. split; [done|]. by eapply write_chunk_error.
    + apply silent_lift in Hl as [Hd Hh _]. split; [done|]. right. eauto.
Qed.

Lemma enrich_inv loaded facts result s result' s' : enrich_for loaded facts result s = (Ok result', s') -> enriched loaded facts result result'.
Proof.
  unfold enrich_for. destruct (bool_decide_reflect (target_model loaded = StoreSkuCurrentPosition)) as [Hm|Hm].
  - destruct facts as [sf|]; intros [He _]%lift_inv; [|done]. left. eauto.
  - intros [= <- _]. by right.
Qed.

Lemma fetch_inv event s f bronze s' : staged RECEIVED (fetch_chunk bronze_bucket event) s = (Ok (f, bronze), s') -> fetched event f bronze.
Proof.
  unfold staged. destruct (fetch_chunk bronze_bucket event s) as [[[f0 b0]|e] s0] eqn:Hf; [|done]. intros [= <- <- <-]. unfold fetch_chunk in Hf.
  apply bind_inv in Hf as [(key & s1 & Hk & Hf)|(e & _ & [=])]. apply lift_inv in Hk as [Hk ->].
  apply bind_inv in Hf as [(b & s1 & Hb & Hf)|(e & _ & [=])]. apply lift_inv in Hb as [Hb ->].
  apply bind_inv in Hf as [(u & s1 & Hn & Hf)|(e & _ & [=])].
  apply bind_inv in Hf as [(data & s2 & Hd & Hf)|(e & _ & [=])]. apply lift_inv in Hd as [Hd ->].
  apply bind_inv in Hf as [(f' & s2 & Hc & Hf)|(e & _ & [=])]. apply lift_inv in Hc as [Hc ->].
  injection Hf as <- <- <-. split; [done|]. exists key, data. split_and!; [done..|].
  unfold parse_chunk in Hc. destruct (read_csv (ev_delimiter event) data) as [f1|]; [|done]. inv_ok. done.
Qed.

Lemma facts_inv event loaded s facts s' : store_facts_for event loaded s = (Ok facts, s') -> facts_of event loaded facts.
Proof.
  unfold store_facts_for, facts_of. case_bool_decide; [|by intros [= <- _]].
  intros [(sf & s1 & Hl & [= <- _])|(e & _ & [=])]%bind_inv. unfold staged, lift in Hl.
  destruct (read_store_facts event) as [sf'|] eqn:Hr; [|done]. injection Hl as <- _. eauto.
Qed.

Lemma process_loaded_processed event f bronze loaded facts s r s' :
  fetched event f bronze -> load_active_mapping select_active model_validate event = Ok loaded -> facts_of event loaded facts ->
  process_loaded batch_size event f bronze loaded facts s = (r, s') ->
  processed event (fl_world s) (fl_world s') r.
Proof.
  intros Hfetch Hload Hfacts Hp. unfold process_loaded in Hp.
  apply bind_inv in Hp as [(pre & s1 & Hl & Hp)|(e & Hl & ->)]; [|by apply raised_quiet; eapply silent_lift].
  apply lift_inv in Hl as [Hpre ->]. destruct (passed pre) eqn:Hpp; cbn [negb] in Hp.
  2:{ eapply fail_gate_processed; [exact Hp|left]. }
  apply bind_inv in Hp as [(u & s1 & He & Hp)|(e & He & ->)]; apply silent_emit in He; [|by apply raised_quiet].
  apply (processed_step _ _ _ _ _ He). clear He s.
  apply bind_inv in Hp as [(result & s2 & Hl & Hp)|(e & Hl & ->)]; [|by apply raised_quiet; eapply silent_lift].
  apply lift_inv in Hl as [Hmap ->]. destruct (bool_decide_reflect (failures result <> [])) as [Hfail|Hfail].
  { eapply fail_gate_processed; [exact Hp|right; left]. }
  apply dec_stable in Hfail.
  apply bind_inv in Hp as [(u2 & s2 & He & Hp)|(e & He & ->)]; apply silent_emit in He; [|by apply raised_quiet].
  apply (processed_step _ _ _ _ _ He). clear He s1.
  apply bind_inv in Hp as [(result' & s3 & Hen & Hp)|(e & Hen & ->)]; [|by apply raised_quiet; eapply silent_enrich].
  pose proof (enrich_inv _ _ _ _ _ _ Hen) as Henr.
  apply silent_enrich in Hen. apply (processed_step _ _ _ _ _ Hen). clear Hen s2.
  apply bind_inv in Hp as [(post & s4 & Hl & Hp)|(e & Hl & ->)]; [|by apply raised_quiet; eapply silent_lift].
  apply lift_inv in Hl as [Hpost ->]. destruct (passed post) eqn:Hpq; cbn [negb] in Hp.
  2:{ eapply fail_gate_processed; [exact Hp|right; right; left]. }
  apply bind_inv in Hp as [(u3 & s4 & He & Hp)|(e & He & ->)]; apply silent_emit in He; [|by apply raised_quiet].
  apply (processed_step _ _ _ _ _ He). clear He s3.
  apply bind_inv in Hp as [(rep & s5 & Hw & Hp)|(e & Hw & ->)]; apply write_result_inv in Hw as [Hh Hw].
  2:{ destruct Hw as [(rep & [=] & _)|(e' & [= <-] & Hd)]. by apply processed_raised. }
  destruct Hw as [(rep' & [= <-] & Hw)|(e' & [=] & _)].
  assert (forall evs st, exists st', emit_all evs st = (Ok tt, st')) as Hall.
  { induction evs as [|ev evs IH]; intros st; [by eexists|]. cbn [emit_all]. destruct (emit_run ev st) as (st1 & Hst & _).
    unfold mbind, flow_bind. rewrite Hst. apply IH. }
  apply bind_inv in Hp as [(u4 & s6 & He & Hp)|(e & He & ->)].
  2:{ exfalso. edestruct (emit_run (stage_event event CANONICAL_WRITTEN SUCCESS (Some (bronze_id bronze)) (Some (mapping_version_id loaded))
        (Some (Z.of_nat (event_rows_written rep))) (Some (Z.of_nat (event_rows_written rep))) None None) s5) as (st & Hst & _). congruence. }
  apply silent_emit in He. apply bind_inv in Hp as [(u5 & s7 & Ha & Hr)|(e & Ha & ->)].
  2:{ exfalso. destruct (Hall (map (duplicate_event event bronze loaded) (duplicates rep)) s6) as (st & Hst). congruence. }
  injection Hr as <- <-. apply silent_emit_all in Ha. apply (processed_to _ _ (fl_world s5)).
  - destruct Ha as [-> _ _]. by destruct He as [-> _ _].
  - destruct Ha as [_ -> _]. by destruct He as [_ -> _].
  - apply processed_written; [|done].
    exists f, bronze, loaded, facts, result, result'. split_and!; eauto.
Qed.

Lemma process_body_processed event s r s' :
  process_body bronze_bucket batch_size event s = (r, s') -> processed event (fl_world s) (fl_world s') r.
Proof.
  intros Hp. unfold process_body in Hp.
  apply bind_inv in Hp as [(seen & s1 & Hq & Hp)|(e & Hq & ->)]; apply silent_seen in Hq; [|by apply raised_quiet].
  apply (processed_step _ _ _ _ _ Hq). clear Hq s.
  apply bind_inv in Hp as [([f bronze] & s2 & Hq & Hp)|(e & Hq & ->)];
    [pose proof (fetch_inv _ _ _ _ _ Hq) as Hfetch|]; apply (silent_staged _ _ (silent_fetch event)) in Hq; [|by apply raised_quiet].
  apply (processed_step _ _ _ _ _ Hq). clear Hq s1.
  apply bind_inv in Hp as [(u & s3 & Hq & Hp)|(e & Hq & ->)]; apply silent_set in Hq; [|by apply raised_quiet].
  apply (processed_step _ _ _ _ _ Hq). clear Hq s2.
  apply bind_inv in Hp as [(u1 & s4 & Hq & Hp)|(e & Hq & ->)]; apply silent_emit in Hq; [|by apply raised_quiet].
  apply (processed_step _ _ _ _ _ Hq). clear Hq s3.
  apply bind_inv in Hp as [(loaded & s5 & Hl & Hp)|(e & Hl & ->)];
    [|by apply (silent_staged _ _ (silent_lift _)) in Hl; apply raised_quiet].
  assert (load_active_mapping select_active model_validate event = Ok loaded) as Hload.
  { unfold staged, lift in Hl. destruct (load_active_mapping select_active model_validate event); [|done]. by injection Hl as <-. }
  apply (silent_staged _ _ (silent_lift _)) in Hl. apply (processed_step _ _ _ _ _ Hl). clear Hl s4.
  apply bind_inv in Hp as [(u2 & s6 & Hq & Hp)|(e & Hq & ->)]; apply silent_set in Hq; [|by apply raised_quiet].
  apply (processed_step _ _ _ _ _ Hq). clear Hq s5.
  apply bind_inv in Hp as [(u3 & s7 & Hq & Hp)|(e & Hq & ->)]; apply silent_emit in Hq; [|by apply raised_quiet].
  apply (processed_step _ _ _ _ _ Hq). clear Hq s6.
  apply bind_inv in Hp as [(facts & s8 & Hq & Hp)|(e & Hq & ->)];
    [pose proof (facts_inv _ _ _ _ _ Hq) as Hfacts|]; apply silent_store_facts in Hq; [|by apply raised_quiet].
  apply (processed_step _ _ _ _ _ Hq). by eapply process_loaded_processed.
Qed.

Lemma quarantinable_code e ctx : quarantinable e (failure_code_for e) ctx = true -> ~ not_holdable e.
Proof.
  unfold quarantinable, not_holdable. destruct (bool_decide_reflect (failure_code_for e ∈ CHUNK_QUARANTINE_CODES)); [|done]. by intros _ Hn.
Qed.

Lemma emit_quarantined_ok event code b n s : exists s', emit_quarantined event code b n s = (Ok tt, s') /\ quiet s s'.
Proof.
  unfold emit_quarantined, mbind, flow_bind, get_state. cbn beta iota.
  destruct (emit_run (stage_event event QUARANTINED SUCCESS (ctx_bronze_id (fl_ctx s)) (ctx_mapping_version_id (fl_ctx s))
    (ctx_row_count (fl_ctx s)) None (if b then Some (Z.of_nat n) else None) (Some code)) s) as (s' & He & Hq & _). eauto.
Qed.

(** The catch-all on an exception that left the state [s]. *)
Lemma on_exception_processed event w e s r s' :
  processed event w (fl_world s) (Err e) -> on_exception event e s = (r, s') -> processed event w (fl_world s') r.
Proof.
  intros Hproc He. inversion Hproc as [| | |e0 Hheld Hdb]; subst e0. unfold on_exception in He.
  apply bind_inv in He as [(st & s0 & [= <- <-] & He)|(e' & [=] & _)].
  apply bind_inv in He as [(u & s1 & Hq & He)|(e' & Hq & ->)].
  2:{ exfalso. edestruct (emit_run (stage_event event (default RECEIVED (r_stage e)) FAILURE (ctx_bronze_id (fl_ctx s))
        (ctx_mapping_version_id (fl_ctx s)) None None None (Some (failure_code_for (r_exn e)))) s) as (st & Hst & _). congruence. }
  apply silent_emit in Hq as [Hd Hh _].
  destruct (quarantinable (r_exn e) (failure_code_for (r_exn e)) (fl_ctx s)) eqn:Hqu; cbn [negb] in He.
  2:{ injection He as <- <-. apply processed_raised; [congruence|]. rewrite Hd. done. }
  destruct Hdb as [Hdb|Hdb]; [|by apply quarantinable_code in Hqu].
  apply bind_inv in He as [(u2 & s2 & Ht & He)|(e' & Ht & ->)].
  - unfold try_with in Ht. destruct (write_held _ s1) as [[u3|e3] s3] eqn:Hw; [|done]. injection Ht as <- <-.
    apply write_held_inv in Hw as [(a & h' & [= <-] & Hhold & Hh3 & Hd3 & _ & _)|(e3 & [=] & _)]. inv_ok.
    apply hold_chunk_held in Hs. destruct (emit_quarantined_ok event (failure_code_for (r_exn e)) false 1 s3) as (s4 & Hem & [Hd4 Hh4 _]).
    apply bind_inv in He as [(u4 & s5 & Hem' & Hr)|(e' & Hem' & _)]; [|congruence].
    rewrite Hem in Hem'. injection Hem' as <- <-. injection Hr as <- <-. apply processed_held; [congruence|].
    rewrite Hh4. by rewrite <- Hheld, <- Hh.
  - unfold try_with in Ht. destruct (write_held _ s1) as [[u3|e3] s3] eqn:Hw; [done|].
    injection Ht as <- <-. apply write_held_inv in Hw as [(a & h' & [=] & _)|(e4 & _ & _ & ->)].
    apply processed_raised; [congruence|]. left. congruence.
Qed.

Lemma process_processed event w r w' : process bronze_bucket batch_size event w = (r, w') -> processed event w w' r.
Proof.
  unfold process, try_with. destruct (process_body bronze_bucket batch_size event (mkFlow empty_ctx w)) as [[o|e] s] eqn:Hb.
  - intros [= <- <-]. by apply process_body_processed in Hb.
  - destruct (on_exception event e s) as [r0 s0] eqn:He. intros [= <- <-].
    apply process_body_processed in Hb. by eapply on_exception_processed.
Qed.
End Props.
