(* ===== verification/Subscriber.v ===== *)
(** Subscriber: the [ingress.ready] envelope and the pull loop of the streaming
    consumer (streaming-consumer, [envelope.py], [clients/pubsub.py]).

    Pydantic's coercions are the class [Pydantic]; an exception of a field
    validator that is neither a [ValueError] nor an [AssertionError] leaves
    [model_validate] as it is. *)

From S2P Require Import Prelude Text Values Decimals Transform SourceMapping Polars Normalize Engine.
From S2P Require Import Canonical Provenance Enrichment HotMapping Sink Validation Paths Quarantine Consumer.
Local Open Scope nat_scope.

(** [json.loads], and how pydantic reads the types of the envelope: an aware
    datetime is its instant, a naive one is marked. *)
Class Pydantic := {
  json_loads : string -> option value;
  as_uuid : value -> option uuid;
  as_datetime : value -> option (Z * bool);   (* instant, aware *)
  as_bool : value -> option bool
}.

Section Envelope.
Context `{Pydantic}.

Definition min_str (v : value) : option string :=
  match v with VStr s => if String.eqb s "" then None else Some s | _ => None end.

Definition one_char (v : value) : option ascii := match v with VStr (String c "") => Some c | _ => None end.

Definition opt_str (v : value) : bool := match v with VStr _ | VNone => true | _ => false end.

Definition opt_uuid (v : value) : option (option uuid) := match v with VNone => Some None | _ => Some <$> as_uuid v end.

Definition READY_FIELDS : list string :=
  ["schema_version"; "trace_id"; "tenant_id"; "store_id"; "source_id"; "template_id"; "bronze_ref"; "gcs_uri"; "received_ts";
   "delimiter"; "tenant_display_code"; "store_code"; "replay"; "parent_trace_id"].

(** Is the field of this name missing or malformed? *)
Definition bad_field (raw : dict value) (name : string) : bool :=
  let required {A} (read : value -> option A) := match dict_get raw name with Some v => negb (bool_decide (is_Some (read v))) | None => true end in
  let optional {A} (read : value -> option A) := match dict_get raw name with Some v => negb (bool_decide (is_Some (read v))) | None => false end in
  if mem name ["trace_id"; "tenant_id"; "store_id"; "template_id"; "bronze_ref"] then required as_uuid
  else if mem name ["source_id"; "gcs_uri"] then required min_str
  else if String.eqb name "received_ts" then required as_datetime
  else if String.eqb name "schema_version" then required (fun v => match v with VInt 1 => Some tt | _ => None end)
  else if String.eqb name "delimiter" then optional one_char
  else if String.eqb name "replay" then optional as_bool
  else if String.eqb name "parent_trace_id" then optional opt_uuid
  else optional (fun v => if opt_str v then Some tt else None).

(** The names in the validation report: bad fields, and fields that are forbidden. *)
Definition error_fields (raw : dict value) : list string :=
  filter (fun n => bad_field raw n = true) READY_FIELDS ++ filter (fun n => mem n READY_FIELDS = false) (dict_keys raw).

(** [_received_ts_must_be_aware] refuses a naive time. *)
Definition naive_received_ts (raw : dict value) : bool :=
  match dict_get raw "received_ts" ≫= as_datetime with Some (_, aware) => negb aware | None => false end.

Definition str_of (raw : dict value) (name : string) : string := match dict_get raw name with Some (VStr s) => s | _ => "" end.
Definition uuid_of (raw : dict value) (name : string) : uuid := default "" (dict_get raw name ≫= as_uuid).

Definition ready_event (raw : dict value) : IngressReadyEvent := mkIngressReady
  (uuid_of raw "trace_id") (uuid_of raw "tenant_id") (uuid_of raw "store_id") (str_of raw "source_id") (uuid_of raw "template_id")
  (uuid_of raw "bronze_ref") (str_of raw "gcs_uri") (default 0%Z (fst <$> (dict_get raw "received_ts" ≫= as_datetime)))
  (default ","%char (dict_get raw "delimiter" ≫= one_char)) (default false (dict_get raw "replay" ≫= as_bool))
  (default None (dict_get raw "parent_trace_id" ≫= opt_uuid)).

(** [IngressReadyEvent.model_validate(raw)] *)
Definition validate_ready (raw : dict value) : res IngressReadyEvent :=
  if naive_received_ts raw then Err NaiveDatetimeError
  else match error_fields raw with
       | [] => Ok (ready_event raw)
       | _ :: _ => Err ValidationError
       end.

Definition parse_ingress_ready (data : string) : res IngressReadyEvent :=
  match json_loads data with
  | Some (VDict raw) =>
      match validate_ready raw with
      | Err ValidationError => Err (EventContractError (head (py_sorted (error_fields raw))))
      | r => r
      end
  | _ => Err (EventContractError None)
  end.
End Envelope.

(** ** Messages *)

Inductive Decision : Type := ack | nack.

Section Messages.
Context `{Polars, Codec, Pandera, Outside, Pydantic}.
Context (bronze_bucket : string) (batch_size : nat).

Definition process_message (data : string) (w : world) : res Decision * world :=
  match parse_ingress_ready data with
  | Err (EventContractError _) => (Ok ack, w)
  | Err e => (Err e, w)
  | Ok event =>
      match process bronze_bucket batch_size event w with
      | (Err _, w') => (Ok nack, w')
      | (Ok outcome, w') =>
          match disposition outcome with
          | disp_quarantined | disp_written => (Ok ack, w')
          | _ => (Ok nack, w')
          end
      end
  end.

(** The loop of [poll_once] over the pulled messages: ids to acknowledge and ids
    to hand back; nothing is sent when the loop raises. *)
Fixpoint poll_messages (received : list (string * string)) (acks nacks : list string) (w : world)
    : res (list string * list string) * world :=
  match received with
  | [] => (Ok (acks, nacks), w)
  | (ack_id, data) :: rest =>
      match process_message data w with
      | (Err e, w') => (Err e, w')
      | (Ok ack, w') => poll_messages rest (acks ++ [ack_id]) nacks w'
      | (Ok nack, w') => poll_messages rest acks (nacks ++ [ack_id]) w'
      end
  end.

Definition poll_once (received : list (string * string)) (w : world) : res (list string * list string) * world :=
  poll_messages received [] [] w.
End Messages.
