(* ===== verification/ConsumerTheorems.v ===== *)
(** ConsumerTheorems: what the consumer promises of every message it takes. *)

From S2P Require Import Prelude Text Values Decimals Transform SourceMapping Polars Normalize Engine MappingTheorems.
From S2P Require Import Canonical Provenance Enrichment HotMapping Sink SinkProps SinkTheorems.
From S2P Require Import Validation ValidationTheorems Paths PathTheorems Quarantine Consumer ConsumerProps Subscriber.
Local Open Scope nat_scope.

(** ** A world to evaluate in *)

Definition change_mapping : SourceMapping := mkSourceMapping 1
  [("Article", "sku_id"); ("Valeur", "value_after"); ("Quand", "source_event_timestamp")]
  []
  [("source_event_timestamp", mkCastSpec CDatetime None None)]
  [("event_category", [mkTransformSpec "constant" [("value", VStr "INVENTORY")]]);
   ("event_subtype", [mkTransformSpec "constant" [("value", VStr "COUNT")]]);
   ("attribute_name", [mkTransformSpec "constant" [("value", VStr "stock_qty")]]);
   ("event_date", [mkTransformSpec "date_from_datetime" [("source_column", VStr "source_event_timestamp")]])].

Definition change_chunk : frame := Frame
  [ Series "Article" TString (text_cells ["A1"; "A1"]); Series "Valeur" TString (text_cells ["4"; "5"]);
    Series "Quand" TString (text_cells ["2026-01-02"; "2026-01-03"]) ].

Definition consumer_key : string :=
  "tenant/11111111-1111-1111-1111-111111111111/source/pos/yyyy=2026/mm=01/dd=03/0192b3c0-0000-7000-8000-000000000001.csv".
Definition consumer_uri : string := "gs://bronze/" +:+ consumer_key.

Definition consumer_event : IngressReadyEvent := mkIngressReady
  (ev_trace_id sample_event) (ev_tenant_id sample_event) (ev_store_id sample_event) "pos" (ev_template_id sample_event)
  (ev_bronze_ref sample_event) consumer_uri 1000 "," false None.

Definition consumer_bronze : BronzeMeta := mkBronzeMeta (ev_bronze_ref sample_event) "pos" "csv_upload" consumer_uri 1000 (Some 2%Z).

(** The outside world, with the mapping row, the parsed chunk and the hold decisions given. *)
Definition sample_outside (row : option mapping_row) (chunk : frame) (holds : bool) : Outside := {|
  bronze_row tenant ref trace := Ok (Some consumer_bronze);
  download_bytes key := if String.eqb key consumer_key then Ok "bytes" else Err StorageError;
  read_csv sep data := Ok chunk;
  store_row tenant store := Ok (Some (mkStoreFacts "INCLUSIVE" "EUR"));
  select_active tenant source template := Ok row;
  model_validate rules := construct change_mapping;
  accepts := sample_accepts;
  select_priors := no_priors;
  fresh_row_ids := sample_ids;
  fresh_hot_ids := sample_ids;
  audit_readback log trace := Ok false;
  audit_lands ev := true;
  chunk_insert_fails c := negb holds;
  rows_insert_fails rs := negb holds
|}.

Definition active_row : option mapping_row := Some (mkMappingRow 7 VNone INVENTORY_CHANGE None None).
Definition start_world : world := mkWorld sample_db (mkHeld [] []) [].

Definition ready_body (aware : string) : list (string * value) :=
  [("schema_version", VInt 1); ("trace_id", VStr (ev_trace_id sample_event)); ("tenant_id", VStr (ev_tenant_id sample_event));
   ("store_id", VStr (ev_store_id sample_event)); ("source_id", VStr "pos"); ("template_id", VStr (ev_template_id sample_event));
   ("bronze_ref", VStr (ev_bronze_ref sample_event)); ("gcs_uri", VStr consumer_uri); ("received_ts", VStr aware)].

(** Bodies are named; a time with a zone is aware. *)
Definition sample_pydantic : Pydantic := {|
  json_loads data :=
    if String.eqb data "ready" then Some (VDict (ready_body "2026-01-03T00:00:00Z"))
    else if String.eqb data "naive" then Some (VDict (ready_body "2026-01-03T00:00:00")) else None;
  as_uuid v := match v with VStr t => py_uuid t | _ => None end;
  as_datetime v := match v with VStr t => Some (1000%Z, str_in "Z" t) | _ => None end;
  as_bool v := match v with VBool b => Some b | _ => None end
|}.

Definition sample_message (row : option mapping_row) (chunk : frame) (holds : bool) (data : string) : res Decision * world :=
  @process_message sample_polars sample_codec sample_pandera (sample_outside row chunk holds) sample_pydantic "bronze" 2 data start_world.

Definition shown (x : res Decision * world) : res Decision * nat * nat * nat * list (Stage * Outcome) :=
  (x.1, length (events (w_db x.2)), length (held_chunks (w_held x.2)), length (held_rows (w_held x.2)),
   map (fun a => (au_stage a, au_outcome a)) (w_audit x.2)).

(** A good chunk is written and acknowledged. *)
Example message_written : shown (sample_message active_row change_chunk true "ready") =
  (Ok ack, 2, 0, 0, [(RECEIVED, SUCCESS); (MAPPING_LOOKED_UP, SUCCESS); (PRE_MAPPING_VALIDATED, SUCCESS);
                     (MAPPING_EXECUTED, SUCCESS); (POST_MAPPING_VALIDATED, SUCCESS); (CANONICAL_WRITTEN, SUCCESS)]).
Proof. by vm_compute. Qed.

(** ** One event *)

Lemma code_holdable e : bool_decide (failure_code_for e ∈ CHUNK_QUARANTINE_CODES) =
  match e with MappingConfigError _ | SuiteDefinitionError _ _ | EventContractError _ => true | _ => false end.
Proof. by destruct e. Qed.

Lemma code_contract e : bool_decide (failure_code_for e = CONTRACT_VIOLATION) =
  match e with EventContractError _ => true | _ => false end.
Proof. by destruct e. Qed.

Section Consumer.
Context `{Polars, Codec, Pandera, Outside, Pydantic} (bronze_bucket : string) (batch_size : nat).

(** C11. One event ends in exactly one of four ways, whatever fails on the way.
    Written: the whole file at the event's checked location, as it was downloaded, passed the first gate and
    mapped without a failure, what it mapped to passed the second gate, and the write of exactly that
    succeeded; the quarantine is untouched.  Held: the canonical tables are
    untouched and one chunk record or at least one row record of this very event
    was added.  Failed: neither store changed.  Raised: nothing was held, and the
    canonical tables changed only if the exception is one that is never held. *)
Theorem event_outcomes event w :
  processed bronze_bucket batch_size event w (process bronze_bucket batch_size event w).2 (process bronze_bucket batch_size event w).1.
Proof. by apply (process_processed bronze_bucket batch_size), surjective_pairing. Qed.

(** C4. A message is never acknowledged and lost: when it is acknowledged, its
    envelope does not parse (and nothing changed), or everything that the file at its location maps
    to was written, with no row of the file failed, or it is held in quarantine; when it is handed
    back, nothing was held. *)
Theorem ack_never_loses data w decision w'
    (Hmessage : process_message bronze_bucket batch_size data w = (Ok decision, w')) :
  match decision with
  | ack =>
      (exists field, parse_ingress_ready data = Err (EventContractError field) /\ w' = w) \/
      exists event, parse_ingress_ready data = Ok event /\
        ((exists rep, canonical_write bronze_bucket batch_size event (w_db w) rep (w_db w') /\ w_held w' = w_held w) \/
         (w_db w' = w_db w /\ held_for event (w_held w) (w_held w')))
  | nack => w_held w' = w_held w
  end.
Proof.
  unfold process_message in Hmessage. destruct (parse_ingress_ready data) as [event|e] eqn:Hp.
  - destruct (process bronze_bucket batch_size event w) as [[o|e] w1] eqn:Hr; apply process_processed in Hr.
    + inversion Hr as [rep Hw Hh|Hd Hh|d Hd Hh Hin|]; subst; cbn [disposition] in Hmessage.
      * injection Hmessage as <- <-. right. exists event. split; [done|]. left. eauto.
      * injection Hmessage as <- <-. right. exists event. split; [done|]. by right.
      * rewrite !elem_of_cons, elem_of_nil in Hin.
        destruct Hin as [->|[->|[->|[]]]]; by injection Hmessage as <- <-.
    + injection Hmessage as <- <-. by inversion Hr.
  - destruct e; try done. injection Hmessage as <- <-. left. eauto.
Qed.

(** The catch-all holds a chunk exactly when the failure is deterministic and
    describable (a mapping, suite or contract error, after the bronze row is known,
    other than a store that is not mirrored yet) and the hold succeeds; in every
    other case the exception is re-raised, and so the message is handed back. *)
Theorem catch_all_holds_exactly event e s :
  let ctx := fl_ctx s in
  let holdable := quarantinable (r_exn e) (failure_code_for (r_exn e)) ctx in
  let hold := hold_chunk_failure chunk_insert_fails event ctx (default RECEIVED (r_stage e)) (failure_code_for (r_exn e)) []
                (w_held (fl_world s)) in
  (on_exception event e s).1 = (if holdable && is_ok hold then Ok (mkConsume disp_quarantined None) else Err e) /\
  (holdable = true <->
     (exists channel, ctx_dis_channel ctx = Some channel) /\ r_exn e <> EventContractError (Some "store_id") /\
     ((exists c, r_exn e = MappingConfigError c) \/ (exists m c, r_exn e = SuiteDefinitionError m c) \/
      (exists f, r_exn e = EventContractError f))).
Proof.
  intros ctx holdable hold. split.
  - unfold on_exception, mbind, flow_bind, get_state. cbn beta iota.
    destruct (emit_run (stage_event event (default RECEIVED (r_stage e)) FAILURE (ctx_bronze_id (fl_ctx s)) (ctx_mapping_version_id (fl_ctx s))
      None None None (Some (failure_code_for (r_exn e)))) s) as (s1 & Hem & [_ Hh _] & _). rewrite Hem.
    fold ctx. fold holdable. destruct holdable; cbn [negb andb]; [|done].
    unfold try_with, write_held. rewrite Hh. fold hold. destruct hold as [h'|e']; cbn [mbind result_bind is_ok]; [|done].
    destruct (emit_quarantined_ok event (failure_code_for (r_exn e)) false 1
      (mkFlow (fl_ctx s1) (mkWorld (w_db (fl_world s1)) h' (w_audit (fl_world s1))))) as (s2 & Hem2 & _).
    by rewrite Hem2.
  - subst holdable ctx. unfold quarantinable. rewrite code_holdable, code_contract.
    destruct (ctx_dis_channel (fl_ctx s)) as [ch|]; [|destruct (negb _); naive_solver].
    destruct (r_exn e); cbn [negb andb]; try (split; [done|]); try naive_solver.
    unfold exn_field. destruct (bool_decide_reflect (field = Some "store_id")) as [->|Hne]; naive_solver.
Qed.
End Consumer.

(** The chunk without an active mapping: acknowledged, and not because its envelope is malformed. *)
Lemma ack_never_loses_witness :
  exists event,
    (exists rep, @canonical_write sample_polars sample_codec sample_pandera (sample_outside None change_chunk true) "bronze" 2 event sample_db rep
                   (w_db (sample_message None change_chunk true "ready").2) /\
                 w_held (sample_message None change_chunk true "ready").2 = mkHeld [] []) \/
    (w_db (sample_message None change_chunk true "ready").2 = sample_db /\
     held_for event (mkHeld [] []) (w_held (sample_message None change_chunk true "ready").2)).
Proof.
  assert ((sample_message None change_chunk true "ready").1 = Ok ack) as Hr by (vm_compute; reflexivity).
  destruct (@ack_never_loses sample_polars sample_codec sample_pandera (sample_outside None change_chunk true) sample_pydantic
    "bronze" 2 "ready" start_world ack (sample_message None change_chunk true "ready").2) as [(f & Hp & _)|(event & _ & Hend)].
  - unfold sample_message in *. rewrite <- Hr. apply surjective_pairing.
  - exfalso. vm_compute in Hp. discriminate Hp.
  - exists event. exact Hend.
Defined.

(** The good event, whose two rows are written. *)
Lemma event_outcomes_witness :
  exists rep, @canonical_write sample_polars sample_codec sample_pandera (sample_outside active_row change_chunk true) "bronze" 2 consumer_event sample_db rep
    (w_db (@process sample_polars sample_codec sample_pandera (sample_outside active_row change_chunk true) "bronze" 2 consumer_event start_world).2) /\
    event_rows_written rep = 2.
Proof.
  pose proof (@event_outcomes sample_polars sample_codec sample_pandera (sample_outside active_row change_chunk true) "bronze" 2
    consumer_event start_world) as Hp.
  assert (exists rep, (@process sample_polars sample_codec sample_pandera (sample_outside active_row change_chunk true) "bronze" 2
    consumer_event start_world).1 = Ok (mkConsume disp_written (Some rep)) /\ event_rows_written rep = 2) as (rep & Hr & Hn)
    by (eexists; vm_compute; split; reflexivity).
  rewrite Hr in Hp. exists rep. split; [|exact Hn]. inversion Hp as [rep' Hw _| | |]; subst. exact Hw.
Defined.

(** ** Fetching *)

Lemma lstrip_split p s : exists pre, str_all p pre = true /\ s = pre +:+ lstrip_chars p s.
Proof.
  induction s as [|c s (pre & Hp & IH)]; [by exists ""|]. cbn [lstrip_chars]. destruct (p c) eqn:Hc; [|by exists ""].
  exists (String c pre). by rewrite str_all_cons, Hc, Hp, str_app_cons, <- IH.
Qed.

(** White space, the stripped text, and more. *)
Lemma strip_split s : exists pre post, str_all is_space pre = true /\ s = pre +:+ strip s +:+ post.
Proof.
  rewrite strip_is. destruct (lstrip_split is_space s) as (pre & Hp & He).
  destruct (lstrip_split is_space (str_rev (lstrip_chars is_space s) "")) as (post & _ & Hr).
  exists pre, (str_rev post ""). split; [done|]. rewrite He at 1. f_equal. unfold strip_chars.
  by rewrite <- rev_app, <- Hr, str_rev_rev.
Qed.

Lemma prefix_split (p s : string) : String.prefix p s = true -> s = p +:+ String.substring (String.length p) (String.length s - String.length p) s.
Proof.
  revert s. induction p as [|c p IH]; intros s Hp.
  - cbn. rewrite Nat.sub_0_r. symmetry. apply substring_full.
  - destruct s as [|d s]; [done|]. cbn in Hp. destruct (ascii_dec c d) as [->|]; [|done]. rewrite str_app_cons. cbn. f_equal. by apply IH.
Qed.

Lemma split_at_inv c s l r : split_at_char (Ascii.eqb c) s = (l, Some r) -> s = l +:+ String c r.
Proof.
  revert l. induction s as [|a s IH]; intros l; [done|]. cbn [split_at_char]. destruct (Ascii.eqb_spec c a) as [->|]; [by intros [= <- <-]|].
  destruct (split_at_char _ s) as [l' r'] eqn:Hs. intros [= <- ->]. by rewrite str_app_cons, <- (IH l').
Qed.

(** The location of a key that was split off it. *)
Lemma split_uri_inv uri bucket key : split_object_uri uri = Ok (bucket, key) -> strip uri = "gs://" +:+ bucket +:+ "/" +:+ key.
Proof.
  unfold split_object_uri. destruct (String.prefix "gs://" (strip uri)) eqn:Hp; [|done]. apply prefix_split in Hp. change (String.length "gs://") with 5 in Hp.
  destruct (split_at_char _ _) as [b [k|]] eqn:Hs; [|done]. destruct (_ && _); [|done]. intros [= <- <-].
  rewrite Hp at 1. by rewrite (split_at_inv _ _ _ _ Hs).
Qed.

Section Fetching.
Context `{Polars, Codec, Pandera, Outside} (bronze_bucket : string).

(** C35. What the consumer reads belongs to the tenant and source of the event.  The key that is
    downloaded is the one of the event's location in the bronze bucket; it is
    [tenant/{tenant}/source/{source}/] and more, after white space at most, and after none when the location
    has none (the check ignores white space that the download does not, see [padded_key_passes_check]).
    The bronze row is the one of the event's
    reference and trace under its tenant and agrees with the event's source and
    location; the chunk is what was downloaded and has at least one row; and the flow knows the bronze id and
    the channel from the moment the row was read. *)
Theorem fetch_stays_in_tenant event s f bronze s'
    (Hfetch : fetch_chunk bronze_bucket event s = (Ok (f, bronze), s')) :
  (exists pad rest data,
     let key := pad +:+ ("tenant/" +:+ ev_tenant_id event +:+ "/source/" +:+ ev_source_id event +:+ "/") +:+ rest in
     strip (ev_gcs_uri event) = "gs://" +:+ bronze_bucket +:+ "/" +:+ key /\
     str_all is_space pad = true /\ (str_all (fun c => negb (is_space c)) (strip (ev_gcs_uri event)) = true -> pad = "") /\
     download_bytes key = Ok data /\ read_csv (ev_delimiter event) data = Ok f) /\
  bronze_row (ev_tenant_id event) (ev_bronze_ref event) (ev_trace_id event) = Ok (Some bronze) /\
  bronze_source_id bronze = ev_source_id event /\ bronze_gcs_uri bronze = ev_gcs_uri event /\ 1 <= height f /\
  ctx_bronze_id (fl_ctx s') = Some (bronze_id bronze) /\ ctx_dis_channel (fl_ctx s') = Some (dis_channel bronze).
Proof.
  unfold fetch_chunk in Hfetch.
  apply bind_inv in Hfetch as [(key & s1 & Hk & Hf)|(e & _ & [=])]. apply lift_inv in Hk as [Hk ->].
  apply bind_inv in Hf as [(b & s1 & Hb & Hf)|(e & _ & [=])]. apply lift_inv in Hb as [Hb ->].
  apply bind_inv in Hf as [(u & s1 & Hn & Hf)|(e & _ & [=])]. injection Hn as <- <-.
  apply bind_inv in Hf as [(data & s1 & Hd & Hf)|(e & _ & [=])]. apply lift_inv in Hd as [Hd ->].
  apply bind_inv in Hf as [(f' & s1 & Hc & Hf)|(e & _ & [=])]. apply lift_inv in Hc as [Hc ->].
  injection Hf as <- <- <-. unfold cross_check_path in Hk. inv_ok. destruct a as [bucket okey]. inv_ok.
  apply orb_false_iff in Hs2 as [Ht Hsrc]. apply negb_false_iff, String.eqb_eq in Ht, Hsrc.
  unfold parse_chunk in Hc. destruct (read_csv (ev_delimiter event) data) as [f0|] eqn:Hcsv; [|done]. inv_ok.
  apply Nat.eqb_neq in Hs2. unfold read_bronze_row in Hb.
  destruct (bronze_row _ _ _) as [[row|]|] eqn:Hrow; [|done|done]. cbn [mbind result_bind] in Hb. inv_ok.
  apply orb_false_iff in Hs3 as [Hb1 Hb2]. apply negb_false_iff, String.eqb_eq in Hb1, Hb2.
  split; [|split_and!; try done; lia]. apply negb_false_iff, String.eqb_eq in Hs0 as ->. apply split_uri_inv in Hs.
  destruct (strip_split key) as (pad & post & Hpad & Hkey). pose proof (parsed_under_prefix _ _ Hs1) as Hpre.
  rewrite Ht, Hsrc in Hpre. apply prefix_split in Hpre. revert Hpre. generalize (String.substring (String.length
    ("tenant/" +:+ ev_tenant_id event +:+ "/source/" +:+ ev_source_id event +:+ "/")) (String.length (strip key) - String.length
    ("tenant/" +:+ ev_tenant_id event +:+ "/source/" +:+ ev_source_id event +:+ "/")) (strip key)). intros rest Hpre.
  rewrite Hpre, (str_app_assoc _ rest post) in Hkey. exists pad, (rest +:+ post), data. cbv zeta. rewrite <- Hkey. split_and!; try done.
  intros Hall. rewrite Hs, Hkey, !str_all_app in Hall. rewrite !andb_true_iff in Hall. destruct Hall as (_ & _ & _ & Hall & _).
  destruct pad as [|c pad]; [done|]. rewrite str_all_cons in Hall, Hpad. destruct (is_space c); [done|discriminate Hpad].
Qed.
End Fetching.

Lemma fetch_stays_in_tenant_witness :
  exists rest, @download_bytes (sample_outside active_row change_chunk true)
    ("tenant/11111111-1111-1111-1111-111111111111/source/pos/" +:+ rest) = Ok "bytes" /\ 1 <= height change_chunk.
Proof.
  pose proof (@fetch_stays_in_tenant (sample_outside active_row change_chunk true) "bronze" consumer_event (mkFlow empty_ctx start_world)
    change_chunk consumer_bronze (mkFlow (mkFlowContext (Some (bronze_id consumer_bronze)) None (Some "csv_upload") None) start_world)
    ltac:(by vm_compute)) as ((pad & rest & data & _ & _ & Hpad & Hd & _) & _ & _ & _ & Hh & _).
  rewrite Hpad in Hd by (vm_compute; reflexivity). exists rest. split; [|exact Hh]. revert Hd. cbn [download_bytes sample_outside].
  destruct (String.eqb _ consumer_key) eqn:He; intros Hd; [|discriminate Hd].
  reflexivity.
Defined.

(** The path check and the download do not read the same key: the check strips
    white space around the key, the download does not.  A location with a space
    after the bucket passes the check for its tenant, and the key handed to the
    download is not under the tenant prefix. *)
Theorem padded_key_passes_check :
  let event := mkIngressReady (ev_trace_id consumer_event) (ev_tenant_id consumer_event) (ev_store_id consumer_event) "pos"
                 (ev_template_id consumer_event) (ev_bronze_ref consumer_event) ("gs://bronze/ " +:+ consumer_key) 1000 "," false None in
  cross_check_path "bronze" event = Ok (" " +:+ consumer_key) /\
  String.prefix "tenant/" (" " +:+ consumer_key) = false.
Proof. split; by vm_compute. Qed.

(** ** The pull loop *)

Section Polling.
Context `{Polars, Codec, Pandera, Outside, Pydantic} (bronze_bucket : string) (batch_size : nat).

Lemma poll_messages_ok received : forall acks nacks w acks' nacks' w',
  poll_messages bronze_bucket batch_size received acks nacks w = (Ok (acks', nacks'), w') ->
  acks' ++ nacks' ≡ₚ (acks ++ nacks) ++ map fst received.
Proof.
  induction received as [|[id data] rest IH]; intros acks nacks w acks' nacks' w' Hp; cbn [poll_messages map fst] in *.
  - injection Hp as <- <- <-. by rewrite app_nil_r.
  - destruct (process_message _ _ data w) as [[[|]|e] w1]; [| |done]; apply IH in Hp; rewrite Hp.
    + rewrite <- !app_assoc. apply Permutation_app_head. cbn. by rewrite Permutation_middle.
    + rewrite <- !app_assoc. done.
Qed.

(** A poll pass that completes decides every message it pulled exactly once. *)
Theorem poll_decides_each_once received w acks nacks w'
    (Hpoll : poll_once bronze_bucket batch_size received w = (Ok (acks, nacks), w')) :
  acks ++ nacks ≡ₚ map fst received.
Proof. by apply poll_messages_ok in Hpoll. Qed.

(** One message with a time without a zone stops the whole pass.  The envelope
    check refuses such a time with an exception that is not a validation error, so
    the message is not acknowledged as malformed: the exception leaves the loop,
    and no message of the pull is acknowledged or handed back, not even those
    already processed. *)
Theorem naive_time_stops_the_pass before after id data raw w
    (Hbody : json_loads data = Some (VDict raw)) (Hnaive : naive_received_ts raw = true) :
  exists e, (poll_once bronze_bucket batch_size (before ++ (id, data) :: after) w).1 = Err e.
Proof.
  unfold poll_once. generalize (@nil string) at 1. generalize (@nil string). revert w.
  induction before as [|[i d] before IH]; intros w nacks acks; cbn [app poll_messages].
  - unfold process_message, parse_ingress_ready, validate_ready. rewrite Hbody, Hnaive. eauto.
  - destruct (process_message _ _ d w) as [[[|]|e] w1]; [apply IH|apply IH|eauto].
Qed.
End Polling.

Lemma poll_decides_each_once_witness :
  exists acks nacks w', @poll_once sample_polars sample_codec sample_pandera (sample_outside active_row change_chunk true) sample_pydantic
      "bronze" 2 [("m1", "ready"); ("m2", "junk")] start_world = (Ok (acks, nacks), w') /\ acks ++ nacks ≡ₚ ["m1"; "m2"].
Proof.
  eexists _, _, _. split; [by vm_compute|].
  apply (@poll_decides_each_once sample_polars sample_codec sample_pandera (sample_outside active_row change_chunk true) sample_pydantic
      "bronze" 2 [("m1", "ready"); ("m2", "junk")] start_world _ _
      (@poll_once sample_polars sample_codec sample_pandera (sample_outside active_row change_chunk true) sample_pydantic
      "bronze" 2 [("m1", "ready"); ("m2", "junk")] start_world).2). by vm_compute.
Defined.

Lemma naive_time_stops_the_pass_witness :
  exists e, (@poll_once sample_polars sample_codec sample_pandera (sample_outside active_row change_chunk true) sample_pydantic
      "bronze" 2 ([("m1", "ready")] ++ ("m2", "naive") :: [("m3", "ready")]) start_world).1 = Err e.
Proof.
  apply (@naive_time_stops_the_pass sample_polars sample_codec sample_pandera (sample_outside active_row change_chunk true) sample_pydantic
    "bronze" 2 [("m1", "ready")] [("m3", "ready")] "m2" "naive" (ready_body "2026-01-03T00:00:00")); by vm_compute.
Defined.
