(* ===== verification/HoldTheorems.v ===== *)
(** HoldTheorems: what the consumer records of a failure, in the audit log and in
    the quarantine tables. *)

From S2P Require Import Prelude Text Values Decimals Transform SourceMapping Polars Normalize Engine MappingTheorems.
From S2P Require Import Canonical Provenance Enrichment HotMapping Sink SinkProps SinkTheorems.
From S2P Require Import Validation ValidationTheorems Paths Quarantine Consumer ConsumerProps Subscriber ConsumerTheorems.
Local Open Scope nat_scope.

(** ** Stage tags *)

(** Every exception [c] can raise carries a tag in [tags]. *)
Definition tags_in {A} (tags : list (option Stage)) (c : flow A) : Prop :=
  forall s e s', c s = (Err e, s') -> r_stage e ∈ tags.

Section Tags.
Context `{Polars, Codec, Pandera, Outside} (batch_size : nat) (tags : list (option Stage)).

Lemma tags_ret {A} (a : A) : tags_in tags (mret a : flow A).
Proof. by intros s e s' [=]. Qed.

Lemma tags_bind {A B} (c : flow A) (k : A -> flow B) : tags_in tags c -> (forall a, tags_in tags (k a)) -> tags_in tags (c ≫= k).
Proof.
  intros Hc Hk s e s' [(a & s1 & _ & Hb)|(e1 & Ha & [= ->])]%bind_inv; [by eapply Hk|by eapply Hc].
Qed.

Lemma tags_lift {A} (x : res A) : None ∈ tags -> tags_in tags (lift x).
Proof. unfold lift. intros Ht s e s'. by destruct x; intros [= <- <-]. Qed.

Lemma tags_staged {A} stage (c : flow A) : Some stage ∈ tags -> tags_in tags (staged stage c).
Proof. unfold staged. intros Ht s e s'. by destruct (c s) as [[a|e'] s1]; intros [= <- <-]. Qed.

Lemma tags_emit ev : tags_in tags (emit ev).
Proof. by intros s e s' [=]. Qed.

Lemma tags_emit_all evs : tags_in tags (emit_all evs).
Proof. induction evs as [|ev evs IH]; [apply tags_ret|]. apply tags_bind; [apply tags_emit|done]. Qed.

Lemma tags_emit_quarantined event code b n : tags_in tags (emit_quarantined event code b n).
Proof. by intros s e s' [=]. Qed.

Lemma tags_try_none {A} (c : flow A) : tags_in tags (try_with (x ← c; mret (Some x)) (fun _ => mret None)).
Proof. intros s e s'. unfold try_with. by destruct ((x ← c; mret (Some x)) s) as [[a|e'] s1]; intros [= <- <-]. Qed.

(** A failed gate raises nothing. *)
Lemma tags_fail_gate stage event f bronze loaded gf fallback : tags_in tags (fail_gate stage event f bronze loaded gf fallback).
Proof.
  apply tags_bind; [apply tags_bind; [apply tags_emit|intros _; apply tags_emit_all]|intros _].
  apply tags_bind; [apply tags_try_none|]. intros [[[n b] code]|]; [|apply tags_ret].
  apply tags_bind; [apply tags_emit_quarantined|intros _; apply tags_ret].
Qed.
End Tags.

Section Stages.
Context `{Polars, Codec, Pandera, Outside} (batch_size : nat).

Lemma tags_process_loaded event f bronze loaded facts :
  tags_in [None; Some CANONICAL_WRITTEN] (process_loaded batch_size event f bronze loaded facts).
Proof.
  assert (None ∈ [None; Some CANONICAL_WRITTEN]) as Hn by set_solver.
  assert (Some CANONICAL_WRITTEN ∈ [None; Some CANONICAL_WRITTEN]) as Hw by set_solver.
  unfold process_loaded, enrich_for, write_result.
  repeat first [ apply tags_ret | apply tags_emit_all | apply tags_emit | apply tags_fail_gate | by apply tags_lift
               | by apply tags_staged | case_match | apply tags_bind; [|intros ?] ].
Qed.

(** The audit log grows by the FAILURE event of the catch-all first. *)
Lemma on_exception_audit event e s :
  let ev := stage_event event (default RECEIVED (r_stage e)) FAILURE (ctx_bronze_id (fl_ctx s)) (ctx_mapping_version_id (fl_ctx s))
              None None None (Some (failure_code_for (r_exn e))) in
  w_audit (fl_world s) ++ (if audit_lands ev then [ev] else []) `prefix_of` w_audit (fl_world (on_exception event e s).2).
Proof.
  intros ev. unfold on_exception. unfold mbind at 1, flow_bind at 1, get_state. cbn beta iota. fold ev.
  set (s1 := (emit ev s).2).
  assert (w_audit (fl_world s1) = w_audit (fl_world s) ++ (if audit_lands ev then [ev] else [])) as <-.
  { subst s1. unfold emit. destruct (audit_lands ev); [done|]. by rewrite app_nil_r. }
  unfold mbind at 1, flow_bind at 1. replace (emit ev s) with (Ok (E := raised) tt, s1) by done.
  destruct (quarantinable _ _ _); cbn [negb]; [|done].
  unfold mbind at 1, flow_bind at 1, try_with.
  destruct (write_held _ s1) as [[[]|e'] s2] eqn:Hw; [|apply write_held_inv in Hw as [(a & h' & [=] & _)|(e'' & _ & _ & ->)]; done].
  apply write_held_inv in Hw as [(a & h' & _ & _ & _ & _ & <- & _)|(e'' & [=] & _)].
  unfold mbind, flow_bind. destruct (emit_quarantined _ _ _ _ s2) as [r s3] eqn:Hq.
  apply silent_quarantined_event in Hq as [_ _ Hp]. by destruct r.
Qed.

(** A failure between the gates loses its stage.  Once the mapping is loaded,
    only the canonical write tags its exceptions: an exception of a gate, of the
    engine, of enrichment or of row building reaches the catch-all untagged, and
    the FAILURE event it logs says RECEIVED, a stage that already succeeded. *)
Theorem stage_of_failure_lost event f bronze loaded facts s e s'
    (Hraise : process_loaded batch_size event f bronze loaded facts s = (Err e, s')) :
  r_stage e = Some CANONICAL_WRITTEN \/
  let ev := stage_event event RECEIVED FAILURE (ctx_bronze_id (fl_ctx s')) (ctx_mapping_version_id (fl_ctx s'))
              None None None (Some (failure_code_for (r_exn e))) in
  w_audit (fl_world s') ++ (if audit_lands ev then [ev] else []) `prefix_of` w_audit (fl_world (on_exception event e s').2).
Proof.
  pose proof (on_exception_audit event e s') as Hlog. apply tags_process_loaded in Hraise.
  rewrite !elem_of_cons, elem_of_nil in Hraise. destruct Hraise as [Ht|[Ht|[]]]; [right|by left]. by rewrite Ht in Hlog.
Qed.
End Stages.

(** A catalogue mapping that names a column no mapping may write. *)
Definition drifting_mapping : SourceMapping := mkSourceMapping 1
  [("Article", "sku_id"); ("Valeur", "product_name"); ("Quand", "tenant_id")] [] [] [].
Definition drifting_loaded : LoadedMapping := mkLoadedMapping 7 drifting_mapping StoreSkuCurrentPosition false.
Definition drifting_run : result raised ConsumeOutcome * flow_state :=
  @process_loaded sample_polars sample_codec sample_pandera (sample_outside active_row change_chunk true) 2
    consumer_event change_chunk consumer_bronze drifting_loaded (Some (mkStoreFacts "INCLUSIVE" "EUR"))
    (mkFlow (mkFlowContext (Some (bronze_id consumer_bronze)) (Some 7%Z) (Some "csv_upload") (Some 2%Z)) start_world).

(** The post gate raises, after two gates logged success. *)
Example drift_raised : drifting_run.1 = Err (mkRaised (SuiteDriftError (Some "StoreSkuCurrentPosition") (Some "tenant_id")) None).
Proof. by vm_compute. Qed.

Lemma stage_of_failure_lost_witness :
  exists ev, au_stage ev = RECEIVED /\ au_outcome ev = FAILURE /\
    w_audit (fl_world drifting_run.2) ++ [ev] `prefix_of`
      w_audit (fl_world (@on_exception (sample_outside active_row change_chunk true) consumer_event
        (mkRaised (SuiteDriftError (Some "StoreSkuCurrentPosition") (Some "tenant_id")) None) drifting_run.2).2).
Proof.
  eexists. split; [|split]; cycle -1.
  - destruct (@stage_of_failure_lost sample_polars sample_codec sample_pandera (sample_outside active_row change_chunk true) 2
      consumer_event change_chunk consumer_bronze drifting_loaded (Some (mkStoreFacts "INCLUSIVE" "EUR"))
      (mkFlow (mkFlowContext (Some (bronze_id consumer_bronze)) (Some 7%Z) (Some "csv_upload") (Some 2%Z)) start_world)
      (mkRaised (SuiteDriftError (Some "StoreSkuCurrentPosition") (Some "tenant_id")) None) drifting_run.2) as [Ht|Hlog].
    + rewrite <- drift_raised. apply surjective_pairing.
    + discriminate Ht.
    + exact Hlog.
  - reflexivity.
  - reflexivity.
Defined.

(** ** Rows held after a failed gate *)

Definition row_of (f : GateFailure) : option Z := let '(_, i, _, _) := f in i.

(** The failures of one row, in the order the gate reported them. *)
Definition failures_at (i : Z) (fs : list GateFailure) : list GateFailure := filter (fun f => row_of f = Some i) fs.

Definition clip (f : GateFailure) : GateFailure := let '(c, i, k, r) := f in (c, i, str_take 256 k, str_take 512 r).

Record grouped (done : list GateFailure) (by_row : list (Z * list GateFailure)) : Prop := {
  gr_nodup : NoDup (map fst by_row);
  gr_content : forall i fs, (i, fs) ∈ by_row -> fs = failures_at i done;
  gr_keys : forall i, i ∈ map fst by_row <-> exists f, f ∈ done /\ row_of f = Some i
}.

Lemma failures_at_app i fs gs : failures_at i (fs ++ gs) = failures_at i fs ++ failures_at i gs.
Proof. apply filter_app. Qed.

Lemma failures_at_none i fs : (forall f, f ∈ fs -> row_of f <> Some i) -> failures_at i fs = [].
Proof.
  intros Hn. unfold failures_at. induction fs as [|f fs IH]; [done|]. rewrite filter_cons_False by (apply Hn; left).
  apply IH. intros g Hg. apply Hn. by right.
Qed.

Lemma add_failure_keys by_row i f j : j ∈ map fst (add_failure by_row i f) <-> j = i \/ j ∈ map fst by_row.
Proof.
  induction by_row as [|[k fs] rest IH]; cbn [add_failure map fst]; [set_solver|].
  destruct (Z.eqb_spec i k) as [->|Hne]; cbn [map fst]; [set_solver|]. rewrite !elem_of_cons, IH. tauto.
Qed.

Lemma add_failure_nodup by_row i f : NoDup (map fst by_row) -> NoDup (map fst (add_failure by_row i f)).
Proof.
  induction by_row as [|[k fs] rest IH]; cbn [add_failure map fst]; [intros _; repeat constructor; set_solver|].
  rewrite NoDup_cons. intros [Hk Hnd]. destruct (Z.eqb_spec i k) as [->|Hne]; cbn [map fst]; rewrite NoDup_cons; [done|].
  split; [|by apply IH]. rewrite add_failure_keys. intros [->|?]; done.
Qed.

Lemma add_failure_content by_row i f j gs : NoDup (map fst by_row) -> (j, gs) ∈ add_failure by_row i f ->
  (j <> i /\ (j, gs) ∈ by_row) \/ (j = i /\ (i ∉ map fst by_row /\ gs = [f] \/ exists fs, (i, fs) ∈ by_row /\ gs = fs ++ [f])).
Proof.
  induction by_row as [|[k fs] rest IH]; cbn [add_failure map fst].
  - intros _ [= -> ->]%list_elem_of_singleton. right. split; [done|]. left. set_solver.
  - rewrite NoDup_cons. intros [Hk Hnd]. destruct (Z.eqb_spec i k) as [->|Hne]; rewrite elem_of_cons; intros [[= -> ->]|Hin].
    + right. split; [done|]. right. exists fs. split; [left|done].
    + left. split; [|by right]. intros ->. apply Hk. change k with (k, gs).1. apply list_elem_of_fmap. by eexists.
    + left. split; [done|left].
    + destruct (IH Hnd Hin) as [[? ?]|[-> [[Hnin ->]|(fs' & Hin' & ->)]]].
      * left. split; [done|by right].
      * right. split; [done|]. left. split; [set_solver|done].
      * right. split; [done|]. right. exists fs'. split; [by right|done].
Qed.

Lemma grouped_step done by_row f i : row_of f = Some i -> grouped done by_row -> grouped (done ++ [f]) (add_failure by_row i f).
Proof.
  intros Hf [Hnd Hc Hk]. split.
  - by apply add_failure_nodup.
  - intros j gs Hin. rewrite failures_at_app. apply add_failure_content in Hin as [[Hne Hin]|[-> [[Hnin ->]|(fs & Hin & ->)]]]; [| | |done].
    + rewrite <- (Hc _ _ Hin). unfold failures_at. rewrite filter_cons_False, filter_nil, app_nil_r; [done|]. rewrite Hf. congruence.
    + rewrite failures_at_none. { unfold failures_at. by rewrite filter_cons_True, filter_nil. }
      intros g Hg Hi. apply Hnin, Hk. by exists g.
    + rewrite <- (Hc _ _ Hin). f_equal. unfold failures_at. by rewrite filter_cons_True, filter_nil.
  - intros j. rewrite add_failure_keys, Hk. split.
    + intros [->|(g & Hg & Hi)]; [exists f|exists g]; set_solver.
    + intros (g & Hg & Hi). apply elem_of_app in Hg as [Hg|Hg%list_elem_of_singleton]; [right; by exists g|left; congruence].
Qed.

Lemma fold_grouped rest : forall done acc by_row,
  grouped done acc -> fold_res group_failure acc rest = Ok by_row -> grouped (done ++ rest) by_row.
Proof.
  induction rest as [|f rest IH]; intros done acc by_row Hinv; cbn [fold_res].
  - intros [= <-]. by rewrite app_nil_r.
  - intros (acc' & Hf & Hr)%bind_ok. change (f :: rest) with ([f] ++ rest). rewrite app_assoc. eapply IH; [|exact Hr].
    destruct f as [[[c [i|]] k] r]; [|done]. injection Hf as <-. by apply grouped_step.
Qed.

Lemma group_failures_grouped failures by_row : group_failures failures = Ok by_row -> grouped failures by_row.
Proof.
  apply (fold_grouped failures []). split; [constructor|by intros i fs []%elem_of_nil|].
  intros i. cbn. split; [by intros []%elem_of_nil|]. by intros (f & []%elem_of_nil & _).
Qed.

Global Instance row_le_trans : Transitive row_le.
Proof. intros a b c. unfold row_le. lia. Qed.
Global Instance row_le_total : Total row_le.
Proof. intros a b. unfold row_le. lia. Qed.

(** Distinct keys in ascending order are strictly ascending. *)
Lemma sorted_keys_strict (l : list (Z * list GateFailure)) :
  StronglySorted row_le l -> NoDup (map fst l) -> StronglySorted Z.lt (map fst l).
Proof.
  induction 1 as [|[i fs] l Hs IH Hall]; cbn [map fst]; [constructor|]. rewrite NoDup_cons. intros [Hi Hnd].
  constructor; [by apply IH|]. apply Forall_forall. intros j Hj. apply list_elem_of_fmap in Hj as ([j' gs] & -> & Hin).
  rewrite Forall_forall in Hall. specialize (Hall _ Hin). unfold row_le in Hall. cbn in *.
  assert (i <> j') by (intros ->; apply Hi, list_elem_of_fmap; by exists (j', gs)). lia.
Qed.

Lemma sort_rows_grouped failures by_row :
  grouped failures by_row -> grouped failures (sort_rows by_row) /\ StronglySorted Z.lt (map fst (sort_rows by_row)).
Proof.
  intros [Hnd Hc Hk]. unfold sort_rows. pose proof (merge_sort_Permutation row_le by_row) as Hp.
  assert (NoDup (map fst (merge_sort row_le by_row))) as Hnd' by (by rewrite Hp). split; [split|].
  - done.
  - intros i fs. rewrite Hp. apply Hc.
  - intros i. rewrite Hp. apply Hk.
  - apply sorted_keys_strict; [apply StronglySorted_merge_sort; apply _|done].
Qed.

Section Rows.
Context (rows_insert_fails : list QuarantinedRow -> bool).

(** C34. The rows held after a failed gate are exactly the failing rows: one record
    per distinct row number, in ascending order, each with all failures of its row
    in the order reported (check and reason clipped), stamped with the mapping
    version of the flow and the stage of the gate; the chunks held stay as they are. *)
Theorem held_rows_exact event ctx stage failures h n h'
    (Hhold : hold_row_failures rows_insert_fails event ctx stage failures h = Ok (n, h')) :
  exists records, held_rows h' = held_rows h ++ records /\ held_chunks h' = held_chunks h /\ n = length records /\
    StronglySorted Z.lt (map row_offset records) /\
    (forall i, i ∈ map row_offset records <-> exists f, f ∈ failures /\ row_of f = Some i) /\
    Forall (fun r => q_failures (qr_base r) = map clip (failures_at (row_offset r) failures) /\
                     q_failure_stage (qr_base r) = failure_stage_for stage /\
                     Some (qr_mapping_version_id r) = ctx_mapping_version_id ctx) records.
Proof.
  unfold hold_row_failures in Hhold. destruct (ctx_dis_channel ctx) as [ch|]; [|done].
  destruct (ctx_mapping_version_id ctx) as [v|]; [|done].
  apply bind_ok in Hhold as (by_row & Hg & Hhold). apply bind_ok in Hhold as (records & Hm & Hhold).
  apply bind_ok in Hhold as (h1 & Hh & Hok). injection Hok as <- <-.
  apply group_failures_grouped in Hg. apply sort_rows_grouped in Hg as [[_ Hc Hk] Hs].
  assert (Forall2 (fun e r => r = mkQuarantinedRow (quarantine_base event ctx ch stage VALIDATION_ROW_FAILED e.2) e.1 v)
            (sort_rows by_row) records) as Hrec.
  { apply map_res_ok in Hm. eapply Forall2_impl; [exact Hm|]. intros [i fs] r. unfold make_row. intros Hr. by inv_ok. }
  assert (map row_offset records = map fst (sort_rows by_row)) as Hoff
    by (clear -Hrec; induction Hrec as [|[i fs] r l k -> _ IH]; cbn; [done|by f_equal]).
  exists records. unfold hold_rows in Hh. destruct records as [|first rest] eqn:Er; [done|]. rewrite <- Er in *.
  apply bind_ok in Hh as (u & _ & Hh). destruct (rows_insert_fails records); [done|]. injection Hh as <-.
  rewrite Hoff. split_and!; try done.
  apply Forall_forall. intros r Hr. apply list_elem_of_lookup in Hr as [j Hj].
  destruct (Forall2_lookup_r _ _ _ _ _ Hrec Hj) as ([i fs] & Hi & ->). cbn. split; [|done].
  f_equal. apply Hc. by eapply list_elem_of_lookup_2.
Qed.
End Rows.

Definition row_ctx : FlowContext := mkFlowContext (Some "b") (Some 7%Z) (Some "csv_upload") (Some 9%Z).
Definition row_failures : list GateFailure :=
  [(Some "price", Some 4%Z, "cast", "bad"); (Some "sku", Some 2%Z, "nullable", "null"); (Some "qty", Some 4%Z, "cast", "bad")].

Lemma held_rows_exact_witness :
  exists records h', hold_row_failures (fun _ => false) consumer_event row_ctx MAPPING_EXECUTED row_failures (mkHeld [] []) = Ok (2, h') /\
    held_rows h' = records /\ StronglySorted Z.lt (map row_offset records).
Proof.
  destruct (hold_row_failures (fun _ => false) consumer_event row_ctx MAPPING_EXECUTED row_failures (mkHeld [] [])) as [[n h']|e] eqn:Hh;
    [|vm_compute in Hh; discriminate Hh].
  destruct (held_rows_exact (fun _ => false) _ _ _ _ _ _ _ Hh) as (records & Hr & _ & Hn & Hs & _).
  exists records, h'. split; [|by split]. vm_compute in Hh. injection Hh as <- _. reflexivity.
Defined.
