(* ===== verification/Pii.v ===== *)
(** Pii: the detector of personal columns by name and the gate in front of every
    write (dis-pii, [detectors.py], [gate.py]; csv-ingest-worker, [pii_gate.py]). *)

From S2P Require Import Prelude Text Values Decimals.
Local Open Scope nat_scope.

(** ** Detection *)

(** The alternatives of [_PII_NAME_PATTERN]; the optional letter is written out. *)
Definition PII_NAME_PATTERN : list string := ["email"; "phone"; "mobile"; "msisdn"; "loyalty"; "aadhaar"; "aadhar"].
Definition PII_EXACT_TOKENS : list string := ["pan"; "ssn"; "aadhaar"; "aadhar"].

Definition is_token_char (c : ascii) : bool := is_lower c || is_digit c.

(** [_TOKEN_SPLIT.split(s)], without the empty pieces. *)
Fixpoint tokens_from (current : string) (s : string) : list string :=
  let close := if String.eqb current "" then [] else [str_rev current ""] in
  match s with
  | EmptyString => close
  | String c s' => if is_token_char c then tokens_from (String c current) s' else close ++ tokens_from "" s'
  end.
Definition tokens (s : string) : list string := tokens_from "" s.

Definition is_pii_column (name : string) : bool :=
  let normalised := py_lower (strip name) in
  if String.eqb normalised "" then false
  else if existsb (fun p => str_in p normalised) PII_NAME_PATTERN then true
  else existsb (fun t => bool_decide (t ∈ PII_EXACT_TOKENS)) (tokens normalised).

Definition rename_columns (rules : dict value) : list string :=
  match dict_get rules "rename" with
  | Some (VDict d) => flat_map (fun '(source, canonical) => [source; py_str canonical]) d
  | _ => []
  end.

Definition section_columns (rules : dict value) (section : string) : list string :=
  match dict_get rules section with Some (VDict d) => dict_keys d | _ => [] end.

Definition iter_mapping_columns (mapping : dict value) : list string :=
  match default (VDict mapping) (dict_get mapping "mapping_rules") with
  | VDict rules => rename_columns rules ++ flat_map (section_columns rules) ["normalize"; "cast"; "derive"]
  | _ => []
  end.

Definition detect_pii_columns (mapping : dict value) : list string :=
  remove_dups (filter (fun c => is_pii_column c = true) (iter_mapping_columns mapping)).

(** ** The gate *)

(** Whether a backend is configured is all the gate asks of it. *)
Definition assert_pii_handled (mapping : dict value) (backend : bool) : res unit :=
  let columns := detect_pii_columns mapping in
  raise_if (bool_decide (columns <> []) && negb backend) (PiiBackendNotConfiguredError (py_sorted columns)).

Definition synthetic_mapping (columns : list string) : dict value :=
  [("rename", VDict (fold_left (fun d name => dict_set d name (VStr name)) columns []))].

Definition gate_csv_headers (columns : list string) (backend : bool) : res (list string) :=
  let mapping := synthetic_mapping columns in
  assert_pii_handled mapping backend ≫= fun _ => Ok (detect_pii_columns mapping).

(** ** Facts *)

Lemma synthetic_columns columns : forall acc : dict value,
  (forall c v, (c, v) ∈ acc -> v = VStr c) ->
  let d := fold_left (fun d name => dict_set d name (VStr name)) columns acc in
  (forall c v, (c, v) ∈ d -> v = VStr c) /\ (forall c, c ∈ dict_keys d <-> c ∈ columns \/ c ∈ dict_keys acc).
Proof.
  induction columns as [|n columns IH]; intros acc Hacc; cbn [fold_left]; [split; [done|set_solver]|].
  destruct (IH (dict_set acc n (VStr n))) as [Hv Hk].
  - clear IH. intros c v. induction acc as [|[k w] acc IHa]; cbn [dict_set].
    + by intros [= -> ->]%list_elem_of_singleton.
    + destruct (String.eqb_spec n k) as [->|Hne]; rewrite !elem_of_cons.
      * intros [[= -> ->]|Hin]; [done|]. apply Hacc. by right.
      * intros [[= -> ->]|Hin]; [apply Hacc; left|]. apply IHa; [|done]. intros c' v' Hin'. apply Hacc. by right.
  - split; [exact Hv|]. intros c. rewrite (Hk c), dict_keys_set_elem. set_solver.
Qed.

Lemma detected_headers columns c :
  c ∈ detect_pii_columns (synthetic_mapping columns) <-> c ∈ columns /\ is_pii_column c = true.
Proof.
  unfold detect_pii_columns, synthetic_mapping. rewrite elem_of_remove_dups, list_elem_of_filter.
  destruct (synthetic_columns columns []) as [Hv Hk]; [by intros ?? ?%elem_of_nil|].
  set (d := fold_left _ columns []) in *.
  assert (forall x, x ∈ iter_mapping_columns [("rename", VDict d)] <-> x ∈ columns) as Hit.
  { intros x. unfold iter_mapping_columns, rename_columns, section_columns. cbn. rewrite app_nil_r, elem_of_flat_map.
    split.
    - intros ([s v] & Hin & Hx). pose proof (Hv _ _ Hin) as ->. cbn in Hx.
      assert (x = s) as -> by set_solver. assert (s ∈ dict_keys d) as Hs by (apply list_elem_of_fmap; by exists (s, VStr s)).
      apply Hk in Hs. set_solver.
    - intros Hx. assert (x ∈ dict_keys d) as Hs by (apply Hk; by left). apply list_elem_of_fmap in Hs as ([s v] & -> & Hin).
      exists (s, v). split; [done|left]. }
  rewrite Hit. tauto.
Qed.

Lemma gate_csv_headers_iff columns backend :
  match gate_csv_headers columns backend with
  | Ok detected => (backend = true \/ forall c, c ∈ columns -> is_pii_column c = false) /\
                   forall c, c ∈ detected <-> c ∈ columns /\ is_pii_column c = true
  | Err e => backend = false /\ (exists c, c ∈ columns /\ is_pii_column c = true) /\
             exists cs, e = PiiBackendNotConfiguredError cs /\ forall c, c ∈ cs <-> c ∈ columns /\ is_pii_column c = true
  end.
Proof.
  pose proof (detected_headers columns) as Hd. unfold gate_csv_headers, assert_pii_handled.
  revert Hd. generalize (detect_pii_columns (synthetic_mapping columns)). intros ds Hd.
  destruct (bool_decide_reflect (ds <> [])) as [Hne|He]; [destruct backend|]; cbn [andb negb raise_if mbind result_bind].
  - split; [by left|done].
  - split; [done|]. split; [|eexists; split; [done|]; intros c; by rewrite <- Hd, py_sorted_perm].
    destruct ds as [|c ds]; [done|]. exists c. apply Hd. left.
  - assert (ds = []) as -> by (destruct ds; [done|]; exfalso; by apply He). split; [|done]. right. intros c Hc.
    destruct (is_pii_column c) eqn:Hp; [|done]. assert (c ∈ @nil string) as []%elem_of_nil by (by apply Hd).
Qed.
