(* ===== verification/Worker.v ===== *)
(** Worker: one uploaded file through the CSV ingest worker (csv-ingest-worker,
    [envelope.py], [preflight.py], [bronze.py], [publisher.py], [pipeline.py],
    [subscriber.py]).

    The state is the bronze table, the messages published on [ingress.ready] and the
    audit log.  A write to the database and a publish may fail, before or after it
    took effect, so that a crash at any point is a run of the model.  Messages,
    durations and free-form data of audit events are left out. *)

From S2P Require Import Prelude Text Values Decimals Transform SourceMapping Polars Normalize Engine.
From S2P Require Import Canonical Provenance Enrichment HotMapping Sink Validation Paths Quarantine Consumer Subscriber Pii.
Local Open Scope nat_scope.

(** ** Data *)

Record CsvReceivedEvent := mkCsvReceived {
  cr_trace_id : uuid;
  cr_tenant_id : uuid;
  cr_store_id : uuid;
  cr_source_id : string;
  cr_template_id : uuid;
  cr_upload_session_id : string;
  cr_gcs_uri : string;
  cr_received_ts : Z;
  cr_tenant_display_code : option string;
  cr_store_code : option string
}.

(** A row of [bronze.data_ingress_events]: the columns of [BronzeRow], the constant
    channel and content type, and the publish stamp. *)
Record BronzeRow := mkBronzeRow {
  br_id : uuid;
  br_tenant_id : uuid;
  br_store_id : uuid;
  br_source_id : string;
  br_dis_channel : string;
  br_trace_id : uuid;
  br_gcs_uri : string;
  br_payload_size_bytes : Z;
  br_payload_sha256 : string;
  br_row_count : option Z;
  br_content_type : string;
  br_source_payload_id : string;
  br_template_id : uuid;
  br_received_at : Z;
  br_processing_status : string;
  br_published_at : option Z
}.

(** The [ingress.ready] message: the fields the consumer reads, and the codes. *)
Record IngressReadyEnvelope := mkEnvelope {
  env_ready : IngressReadyEvent;
  env_tenant_display_code : option string;
  env_store_code : option string
}.

Record PreflightResult := mkPreflight {
  pf_columns : list string;
  pf_column_types : list string;
  pf_row_count : Z;
  pf_size_bytes : Z;
  pf_delimiter : string
}.

Inductive IngestDisposition : Type := ingested | duplicate_noop | duplicate_resumed | preflight_failed.

Record IngestOutcome := mkIngest { in_disposition : IngestDisposition; in_trace_id : uuid; in_bronze_id : option uuid }.

(** ** State and effects *)

Record worker_state := mkWorker {
  wk_bronze : list BronzeRow;
  wk_outbox : list IngressReadyEnvelope;
  wk_audit : list AuditEvent
}.

Definition worker (A : Type) : Type := worker_state -> res A * worker_state.

Global Instance worker_ret : MRet worker := fun A a s => (Ok a, s).
Global Instance worker_bind : MBind worker := fun A B k c s =>
  match c s with (Ok a, s') => k a s' | (Err e, s') => (Err e, s') end.

Definition pure_res {A} (r : res A) : worker A := fun s => (r, s).

(** What becomes of a write: done; refused; or done although the caller sees an exception. *)
Inductive Effect : Type := Done | Failed (e : exn) | DoneThenFailed (e : exn).

Definition perform (eff : Effect) (change : worker_state -> worker_state) : worker unit := fun s =>
  match eff with
  | Done => (Ok tt, change s)
  | Failed e => (Err e, s)
  | DoneThenFailed e => (Err e, change s)
  end.

(** The outside of one delivery. *)
Class WorkerOutside := {
  object_bytes : string -> res string;                                           (* storage.download_bytes *)
  sniff_csv : string -> option (option (string * bool * list (string * string))); (* None: duckdb.Error *)
  read_csv_count : string -> option (option Z);
  new_uuid7 : uuid;
  now_lookup : Z;
  now_received : Z;
  now_published : Z;
  latest : list BronzeRow -> option BronzeRow;                                   (* ORDER BY received_at DESC LIMIT 1 *)
  lookup_fails : option exn;
  insert_effect : Effect;
  publish_effect : Effect;
  mark_effect : Effect;
  worker_audit_lands : AuditEvent -> bool
}.

Definition DIS_CHANNEL : string := "csv_upload".
Definition CONTENT_TYPE : string := "text/csv".
Definition STATUS_PUBLISHED : string := "PUBLISHED".
Definition DEDUP_WINDOW : Z := (24 * 3600 * 1000000)%Z.   (* 24 hours in microseconds *)

(** ** Envelope of [csv.received] *)

Definition is_session_char (c : ascii) : bool := is_lower c || is_digit c.

(** [^us_[a-z0-9]{12}$] *)
Definition is_upload_session (s : string) : bool :=
  String.prefix "us_" s && (String.length s =? 15) && str_all is_session_char (String.substring 3 12 s).

Definition CSV_FIELDS : list string :=
  ["schema_version"; "trace_id"; "tenant_id"; "store_id"; "source_id"; "template_id"; "upload_session_id"; "gcs_uri"; "received_ts";
   "delimiter"; "tenant_display_code"; "store_code"].

Section ReceivedEnvelope.
Context `{Pydantic}.

Definition session_str (v : value) : option string :=
  match v with VStr s => if is_upload_session s then Some s else None | _ => None end.

Definition csv_bad_field (raw : dict value) (name : string) : bool :=
  if String.eqb name "upload_session_id"
  then match dict_get raw name with Some v => negb (bool_decide (is_Some (session_str v))) | None => true end
  else bad_field raw name.

Definition csv_error_fields (raw : dict value) : list string :=
  filter (fun n => csv_bad_field raw n = true) CSV_FIELDS ++ filter (fun n => mem n CSV_FIELDS = false) (dict_keys raw).

Definition opt_text (raw : dict value) (name : string) : option string :=
  match dict_get raw name with Some (VStr s) => Some s | _ => None end.

Definition csv_event (raw : dict value) : CsvReceivedEvent := mkCsvReceived
  (uuid_of raw "trace_id") (uuid_of raw "tenant_id") (uuid_of raw "store_id") (str_of raw "source_id") (uuid_of raw "template_id")
  (str_of raw "upload_session_id") (str_of raw "gcs_uri") (default 0%Z (fst <$> (dict_get raw "received_ts" ≫= as_datetime)))
  (opt_text raw "tenant_display_code") (opt_text raw "store_code").

Definition validate_received (raw : dict value) : res CsvReceivedEvent :=
  if naive_received_ts raw then Err NaiveDatetimeError
  else match csv_error_fields raw with
       | [] => Ok (csv_event raw)
       | _ :: _ => Err ValidationError
       end.

Definition parse_csv_received (data : string) : res CsvReceivedEvent :=
  match json_loads data with
  | Some (VDict raw) =>
      match validate_received raw with
      | Err ValidationError => Err (EventContractError (head (py_sorted (csv_error_fields raw))))
      | r => r
      end
  | _ => Err (EventContractError None)
  end.
End ReceivedEnvelope.

Section Ingest.
Context `{Codec, WorkerOutside} (bronze_bucket : string) (pii_backend : bool).

(** ** Audit *)

Definition worker_emit (ev : AuditEvent) : worker unit := fun s =>
  (Ok tt, if worker_audit_lands ev then mkWorker (wk_bronze s) (wk_outbox s) (wk_audit s ++ [ev]) else s).

Definition worker_event (event : CsvReceivedEvent) (stage : Stage) (outcome : Outcome) (trace : uuid) (bronze prior : option uuid)
    (row_count : option Z) (code : option FailureCode) : AuditEvent :=
  mkAudit stage outcome INGRESS_EVENT (cr_tenant_id event) trace bronze prior None row_count None None None code.

(** ** Preflight *)

(** [bytes.strip] *)
Definition is_byte_space (c : ascii) : bool := ascii_between "009" "013" c || Ascii.eqb c " ".

Definition run_preflight (data : string) : res PreflightResult :=
  let fail reason := Err (PreflightFailedError (Some reason)) in
  if str_all is_byte_space data then fail "not_csv" else
  match sniff_csv data with
  | None | Some None => fail "not_csv"
  | Some (Some (delimiter, has_header, columns_raw)) =>
      match read_csv_count data with
      | None => fail "not_csv"
      | Some row =>
          let row_count := default 0%Z row in
          let columns := map fst columns_raw in
          match columns with
          | [] => fail "no_columns"
          | _ :: _ =>
              if negb has_header then fail "no_header"
              else if (row_count <? 1)%Z then fail "no_data_rows"
              else Ok (mkPreflight columns (map snd columns_raw) row_count (Z.of_nat (String.length data)) delimiter)
          end
      end
  end.

Definition PREFLIGHT_CODES (reason : option string) : FailureCode :=
  match reason with
  | Some r => if String.eqb r "not_csv" then PREFLIGHT_NOT_CSV else if String.eqb r "no_columns" then PREFLIGHT_NO_COLUMNS
              else if String.eqb r "no_header" then PREFLIGHT_NO_HEADER else if String.eqb r "no_data_rows" then PREFLIGHT_NO_DATA_ROWS
              else INFRA_FAILURE
  | None => INFRA_FAILURE
  end.

(** ** Bronze *)

Definition is_published (row : BronzeRow) : bool :=
  bool_decide (is_Some (br_published_at row)) || String.eqb (br_processing_status row) STATUS_PUBLISHED.

Definition require_key_component (name v : string) : res unit :=
  raise_if (String.eqb (strip v) "") (EventContractError (Some name)).

(** The rows the lookup may return, under the tenant's row-level security. *)
Definition same_key (event : CsvReceivedEvent) (sha : string) (cutoff : Z) (row : BronzeRow) : bool :=
  String.eqb (br_tenant_id row) (cr_tenant_id event) && String.eqb (br_source_payload_id row) (cr_upload_session_id event) &&
  String.eqb (br_payload_sha256 row) sha && String.eqb (br_dis_channel row) DIS_CHANNEL && (cutoff <=? br_received_at row)%Z.

Definition candidates (event : CsvReceivedEvent) (sha : string) (rows : list BronzeRow) : list BronzeRow :=
  filter (fun row => same_key event sha (now_lookup - DEDUP_WINDOW) row = true) rows.

Definition find_prior (event : CsvReceivedEvent) (sha : string) : worker (option BronzeRow) := fun s =>
  (match lookup_fails with
   | Some e => Err e
   | None =>
       require_key_component "upload_session_id" (cr_upload_session_id event) ≫= fun _ =>
       require_key_component "payload_sha256" sha ≫= fun _ =>
       Ok (latest (candidates event sha (wk_bronze s)))
   end, s).

Definition insert_row (row : BronzeRow) : worker unit :=
  perform insert_effect (fun s => mkWorker (wk_bronze s ++ [row]) (wk_outbox s) (wk_audit s)).

Definition stamp (tenant bronze_id : uuid) (at_time : Z) (row : BronzeRow) : BronzeRow :=
  if String.eqb (br_id row) bronze_id && String.eqb (br_tenant_id row) tenant
  then mkBronzeRow (br_id row) (br_tenant_id row) (br_store_id row) (br_source_id row) (br_dis_channel row) (br_trace_id row)
         (br_gcs_uri row) (br_payload_size_bytes row) (br_payload_sha256 row) (br_row_count row) (br_content_type row)
         (br_source_payload_id row) (br_template_id row) (br_received_at row) STATUS_PUBLISHED (Some at_time)
  else row.

Definition mark_published (tenant bronze_id : uuid) : worker unit :=
  perform mark_effect (fun s => mkWorker (map (stamp tenant bronze_id now_published) (wk_bronze s)) (wk_outbox s) (wk_audit s)).

(** ** Publishing *)

(** The envelope's field checks leave one way to fail: the separator is not one character. *)
Definition build_ingress_ready (event : CsvReceivedEvent) (trace bronze_ref : uuid) (received : Z) (delimiter : string)
    : res IngressReadyEnvelope :=
  raise_if (String.eqb (cr_source_id event) "" || String.eqb (cr_gcs_uri event) "") ValidationError ≫= fun _ =>
  match delimiter with
  | String c "" =>
      Ok (mkEnvelope (mkIngressReady trace (cr_tenant_id event) (cr_store_id event) (cr_source_id event) (cr_template_id event)
                        bronze_ref (cr_gcs_uri event) received c false None)
            (cr_tenant_display_code event) (cr_store_code event))
  | _ => Err ValidationError
  end.

Definition publish (env : IngressReadyEnvelope) : worker unit :=
  perform publish_effect (fun s => mkWorker (wk_bronze s) (wk_outbox s ++ [env]) (wk_audit s)).

(** ** The pipeline *)

(** The loop over the pairs of [_cross_check_path]. *)
Fixpoint check_pairs (event : CsvReceivedEvent) (checks : list (string * string * string)) : worker unit :=
  match checks with
  | [] => mret tt
  | (field_name, path_value, event_value) :: rest =>
      if String.eqb path_value event_value then check_pairs event rest
      else worker_emit (worker_event event RECEIVED FAILURE (cr_trace_id event) None None None (Some PATH_MISMATCH)) ≫= fun _ =>
           pure_res (Err (EventPathMismatchError (Some field_name)))
  end.

Definition check_path (event : CsvReceivedEvent) : worker string :=
  '(bucket, object_key) ← pure_res (split_object_uri (cr_gcs_uri event));
  parsed ← pure_res (parse_object_path object_key);
  check_pairs event
    [ ("bucket", bucket, bronze_bucket); ("tenant_id", po_tenant_id parsed, cr_tenant_id event);
      ("source_id", po_source_id parsed, cr_source_id event); ("trace_id", po_trace_id parsed, cr_trace_id event);
      ("ext", po_ext parsed, "csv") ] ≫= fun _ =>
  mret object_key.

Definition handle_duplicate (event : CsvReceivedEvent) (prior : BronzeRow) (data : string) : worker IngestOutcome :=
  if String.eqb (br_processing_status prior) "FAILED" || is_published prior then
    worker_emit (worker_event event RECEIVED OUT_DUPLICATE_NOOP (cr_trace_id event) (Some (br_id prior)) (Some (br_trace_id prior))
                   None None) ≫= fun _ =>
    mret (mkIngest duplicate_noop (br_trace_id prior) (Some (br_id prior)))
  else
    preflight ← pure_res (run_preflight data);
    env ← pure_res (build_ingress_ready event (br_trace_id prior) (br_id prior) (br_received_at prior) (pf_delimiter preflight));
    publish env ≫= fun _ =>
    mark_published (cr_tenant_id event) (br_id prior) ≫= fun _ =>
    worker_emit (worker_event event INGRESS_PUBLISHED RETRIED (br_trace_id prior) (Some (br_id prior)) None None None) ≫= fun _ =>
    mret (mkIngest duplicate_resumed (br_trace_id prior) (Some (br_id prior))).

Definition new_row (event : CsvReceivedEvent) (sha : string) (size : Z) (row_count : option Z) (status : string) : BronzeRow :=
  mkBronzeRow new_uuid7 (cr_tenant_id event) (cr_store_id event) (cr_source_id event) DIS_CHANNEL (cr_trace_id event) (cr_gcs_uri event)
    size sha row_count CONTENT_TYPE (cr_upload_session_id event) (cr_template_id event) now_received status None.

Definition handle_preflight_failure (event : CsvReceivedEvent) (sha : string) (size : Z) (reason : option string) : worker IngestOutcome :=
  insert_row (new_row event sha size None "FAILED") ≫= fun _ =>
  worker_emit (worker_event event RECEIVED FAILURE (cr_trace_id event) (Some new_uuid7) None None (Some (PREFLIGHT_CODES reason))) ≫= fun _ =>
  mret (mkIngest preflight_failed (cr_trace_id event) (Some new_uuid7)).

Definition gate_pii (event : CsvReceivedEvent) (columns : list string) : worker (list string) :=
  match gate_csv_headers columns pii_backend with
  | Err e =>
      worker_emit (worker_event event PII_TOKENIZED FAILURE (cr_trace_id event) None None None (Some (failure_code_for e))) ≫= fun _ =>
      pure_res (Err e)
  | Ok detected =>
      worker_emit (worker_event event PII_TOKENIZED SUCCESS (cr_trace_id event) None None None None) ≫= fun _ => mret detected
  end.

(** Steps 5 to 7: the gate, the bronze row, the publish and its stamp. *)
Definition ingest_fresh (event : CsvReceivedEvent) (sha : string) (preflight : PreflightResult) : worker IngestOutcome :=
  worker_emit (worker_event event RECEIVED SUCCESS (cr_trace_id event) None None (Some (pf_row_count preflight)) None) ≫= fun _ =>
  gate_pii event (pf_columns preflight) ≫= fun _ =>
  insert_row (new_row event sha (pf_size_bytes preflight) (Some (pf_row_count preflight)) "RECEIVED") ≫= fun _ =>
  worker_emit (worker_event event BRONZE_WRITTEN SUCCESS (cr_trace_id event) (Some new_uuid7) None (Some (pf_row_count preflight)) None) ≫= fun _ =>
  env ← pure_res (build_ingress_ready event (cr_trace_id event) new_uuid7 now_received (pf_delimiter preflight));
  publish env ≫= fun _ =>
  mark_published (cr_tenant_id event) new_uuid7 ≫= fun _ =>
  worker_emit (worker_event event INGRESS_PUBLISHED SUCCESS (cr_trace_id event) (Some new_uuid7) None None None) ≫= fun _ =>
  mret (mkIngest ingested (cr_trace_id event) (Some new_uuid7)).

(** [IngestPipeline.process] *)
Definition ingest (event : CsvReceivedEvent) : worker IngestOutcome :=
  object_key ← check_path event;
  data ← pure_res (object_bytes object_key);
  let sha := sha256_hex data in
  prior ← find_prior event sha;
  match prior with
  | Some row => handle_duplicate event row data
  | None =>
      match run_preflight data with
      | Err (PreflightFailedError reason) => handle_preflight_failure event sha (Z.of_nat (String.length data)) reason
      | Err e => pure_res (Err e)
      | Ok preflight => ingest_fresh event sha preflight
      end
  end.

(** ** Messages *)

Context `{Pydantic}.

Definition is_terminal (e : exn) : bool :=
  match e with EventContractError _ | EventPathMismatchError _ | PiiBackendNotConfiguredError _ => true | _ => false end.

Definition worker_message (data : string) (s : worker_state) : res Decision * worker_state :=
  match parse_csv_received data with
  | Err (EventContractError _) => (Ok ack, s)
  | Err e => (Err e, s)
  | Ok event =>
      match ingest event s with
      | (Ok _, s') => (Ok ack, s')
      | (Err e, s') => (Ok (if is_terminal e then ack else nack), s')
      end
  end.
End Ingest.

(** ** A pass of the pull loop *)

(** A pulled message: the id to acknowledge it by, its body, and the outside of its delivery. *)
Record pulled := mkPulled { pu_ack_id : string; pu_data : string; pu_outside : WorkerOutside }.

Section Pass.
Context `{Codec, Pydantic} (bronze_bucket : string) (pii_backend : bool).

Definition deliver (m : pulled) (s : worker_state) : res Decision * worker_state :=
  (fun _ : WorkerOutside => worker_message bronze_bucket pii_backend (pu_data m) s) (pu_outside m).

(** The loop of [poll_once]: ids to acknowledge and ids to hand back; nothing is sent when the loop raises. *)
Fixpoint worker_poll_messages (received : list pulled) (acks nacks : list string) (s : worker_state)
    : res (list string * list string) * worker_state :=
  match received with
  | [] => (Ok (acks, nacks), s)
  | m :: rest =>
      match deliver m s with
      | (Err e, s') => (Err e, s')
      | (Ok ack, s') => worker_poll_messages rest (acks ++ [pu_ack_id m]) nacks s'
      | (Ok nack, s') => worker_poll_messages rest acks (nacks ++ [pu_ack_id m]) s'
      end
  end.

(** [poll_once]: the pull, the loop, then the acknowledgement and the return of the rest, each of which may
    fail; what was acknowledged, and what was returned. *)
Record pass := mkPass { ps_result : res nat; ps_acked : list string; ps_returned : list string }.

Definition worker_poll_once (pull : res (list pulled)) (acknowledge modify : Effect) (s : worker_state) : pass * worker_state :=
  match pull with
  | Err e => (mkPass (Err e) [] [], s)
  | Ok received =>
      match worker_poll_messages received [] [] s with
      | (Err e, s') => (mkPass (Err e) [] [], s')
      | (Ok (acks, nacks), s') =>
          let settled eff (ids : list string) := match eff with Failed _ => [] | _ => ids end in
          let raised eff (ids : list string) := match ids, eff with [], _ | _, Done => None | _, Failed e | _, DoneThenFailed e => Some e end in
          match raised acknowledge acks with
          | Some e => (mkPass (Err e) (settled acknowledge acks) [], s')
          | None => (mkPass (match raised modify nacks with Some e => Err e | None => Ok (length received) end) acks (settled modify nacks), s')
          end
      end
  end.
End Pass.
