(* ===== verification/WorkerTheorems.v ===== *)
(** WorkerTheorems: the writes of the ingest worker as explicit sequences of actions.

    [ends] lists the sequences one delivery may perform and the results they go
    with; [ingest_ends] shows that the pipeline performs no other.  Then what a pass of the pull loop
    acknowledges. *)

From S2P Require Import Prelude Text Values Decimals Transform SourceMapping Polars Normalize Engine MappingTheorems Canonical Provenance Enrichment HotMapping.
From S2P Require Import Sink SinkTheorems Paths Validation ValidationTheorems Quarantine Consumer ConsumerProps Subscriber Pii Worker.

Local Open Scope nat_scope.

(** ** Actions *)

Inductive action : Type :=
| AInsert (row : BronzeRow)
| APublish (env : IngressReadyEnvelope)
| AMark (tenant bronze_id : uuid) (at_time : Z).

Definition stores : Type := list BronzeRow * list IngressReadyEnvelope.

Definition core (s : worker_state) : stores := (wk_bronze s, wk_outbox s).

Definition act (c : stores) (a : action) : stores :=
  match a with
  | AInsert row => (c.1 ++ [row], c.2)
  | APublish env => (c.1, c.2 ++ [env])
  | AMark tenant id t => (map (stamp tenant id t) c.1, c.2)
  end.

Definition run_actions (t : list action) (c : stores) : stores := fold_left act t c.

Lemma run_actions_app t1 t2 c : run_actions (t1 ++ t2) c = run_actions t2 (run_actions t1 c).
Proof. apply fold_left_app. Qed.

(** ** A calculus of traces *)

(** [c] run from [s] performs some actions and returns as [Q] says. *)
Definition wp {A} (c : worker A) (Q : res A -> list action -> Prop) (s : worker_state) : Prop :=
  exists t, core (c s).2 = run_actions t (core s) /\ Q (c s).1 t.

Lemma wp_bind {A B} (c : worker A) (k : A -> worker B) (Q : res B -> list action -> Prop) s :
  wp c (fun r t => match r with
                   | Ok a => forall s', core s' = run_actions t (core s) -> wp (k a) (fun r' t' => Q r' (t ++ t')) s'
                   | Err e => Q (Err e) t
                   end) s -> wp (c ≫= k) Q s.
Proof.
  unfold wp, mbind, worker_bind. intros (t & Hc & HQ). destruct (c s) as [[a|e] s1]; cbn [fst snd] in *; [|by exists t].
  destruct (HQ s1 Hc) as (t' & Hc' & HQ'). exists (t ++ t'). split; [|done]. by rewrite run_actions_app, <- Hc.
Qed.

Lemma wp_ret {A} (a : A) (Q : res A -> list action -> Prop) s : Q (Ok a) [] -> wp (mret a) Q s.
Proof. by exists []. Qed.

Lemma wp_pure {A} (r : res A) (Q : res A -> list action -> Prop) s : Q r [] -> wp (pure_res r) Q s.
Proof. by exists []. Qed.

Lemma wp_perform eff a (change : worker_state -> worker_state) (Q : res unit -> list action -> Prop) s :
  (forall s', core (change s') = act (core s') a) ->
  Q (Ok tt) [a] -> (forall e, Q (Err e) [a]) -> (forall e, Q (Err e) []) -> wp (perform eff change) Q s.
Proof.
  intros Hact Hok Hdone Hnot. unfold wp, perform. destruct eff; [exists [a]|exists []|exists [a]]; (split; [|auto]); cbn; auto.
Qed.

Section Traces.
Context `{Codec, WorkerOutside} (bronze_bucket : string) (pii_backend : bool).

Lemma wp_emit ev (Q : res unit -> list action -> Prop) s : Q (Ok tt) [] -> wp (worker_emit ev) Q s.
Proof. exists []. split; [|done]. unfold worker_emit. cbn. by destruct (worker_audit_lands ev). Qed.

Lemma wp_then_emit {B} ev (k : worker B) Q s : (forall s', core s' = core s -> wp k Q s') -> wp (worker_emit ev ≫= fun _ => k) Q s.
Proof. intros Hk. apply wp_bind, wp_emit. intros s' Hs. by apply Hk. Qed.

Lemma wp_insert row (Q : res unit -> list action -> Prop) s :
  Q (Ok tt) [AInsert row] -> (forall e, Q (Err e) [AInsert row]) -> (forall e, Q (Err e) []) -> wp (insert_row row) Q s.
Proof. intros. by apply wp_perform with (a := AInsert row). Qed.

Lemma wp_publish env (Q : res unit -> list action -> Prop) s :
  Q (Ok tt) [APublish env] -> (forall e, Q (Err e) [APublish env]) -> (forall e, Q (Err e) []) -> wp (publish env) Q s.
Proof. intros. by apply wp_perform with (a := APublish env). Qed.

Lemma wp_mark tenant id (Q : res unit -> list action -> Prop) s :
  Q (Ok tt) [AMark tenant id now_published] -> (forall e, Q (Err e) [AMark tenant id now_published]) -> (forall e, Q (Err e) []) ->
  wp (mark_published tenant id) Q s.
Proof. intros. by apply wp_perform with (a := AMark tenant id now_published). Qed.

(** ** What one delivery may do *)

(** The location of the event agrees with its identity and names an object. *)
Definition located (event : CsvReceivedEvent) (data : string) : Prop :=
  exists key parsed, split_object_uri (cr_gcs_uri event) = Ok (bronze_bucket, key) /\ parse_object_path key = Ok parsed /\
    po_tenant_id parsed = cr_tenant_id event /\ po_source_id parsed = cr_source_id event /\
    po_trace_id parsed = cr_trace_id event /\ po_ext parsed = "csv" /\ object_bytes key = Ok data.

(** The lookup of a prior row ran and found this. *)
Definition looked_up (event : CsvReceivedEvent) (data : string) (rows : list BronzeRow) (found : option BronzeRow) : Prop :=
  lookup_fails = None /\
  require_key_component "upload_session_id" (cr_upload_session_id event) = Ok tt /\
  require_key_component "payload_sha256" (sha256_hex data) = Ok tt /\
  latest (candidates event (sha256_hex data) rows) = found.

(** The bronze row of a fresh file: its preflight passed and its header is clean or handled. *)
Definition fresh_row (event : CsvReceivedEvent) (data : string) (pf : PreflightResult) (row : BronzeRow) : Prop :=
  run_preflight data = Ok pf /\ is_ok (gate_csv_headers (pf_columns pf) pii_backend) = true /\
  row = new_row event (sha256_hex data) (pf_size_bytes pf) (Some (pf_row_count pf)) "RECEIVED".

Inductive fresh_trace (event : CsvReceivedEvent) (data : string) : list action -> Prop :=
| fresh_inserted pf row : fresh_row event data pf row -> fresh_trace event data [AInsert row]
| fresh_published pf row env : fresh_row event data pf row ->
    build_ingress_ready event (cr_trace_id event) new_uuid7 now_received (pf_delimiter pf) = Ok env ->
    fresh_trace event data [AInsert row; APublish env]
| fresh_marked pf row env : fresh_row event data pf row ->
    build_ingress_ready event (cr_trace_id event) new_uuid7 now_received (pf_delimiter pf) = Ok env ->
    fresh_trace event data [AInsert row; APublish env; AMark (cr_tenant_id event) new_uuid7 now_published].

(** The publish that completes an unpublished prior row. *)
Definition resumes (event : CsvReceivedEvent) (data : string) (prior : BronzeRow) (env : IngressReadyEnvelope) : Prop :=
  br_processing_status prior <> "FAILED" /\ is_published prior = false /\
  exists pf, run_preflight data = Ok pf /\
    build_ingress_ready event (br_trace_id prior) (br_id prior) (br_received_at prior) (pf_delimiter pf) = Ok env.

Definition failed_row (event : CsvReceivedEvent) (data : string) : BronzeRow :=
  new_row event (sha256_hex data) (Z.of_nat (String.length data)) None "FAILED".

Inductive ends (event : CsvReceivedEvent) (rows : list BronzeRow) : res IngestOutcome -> list action -> Prop :=
| ends_ingested data t : located event data -> looked_up event data rows None ->
    fresh_trace event data t -> length t = 3 ->
    ends event rows (Ok (mkIngest ingested (cr_trace_id event) (Some new_uuid7))) t
| ends_noop data prior : located event data -> looked_up event data rows (Some prior) ->
    br_processing_status prior = "FAILED" \/ is_published prior = true ->
    ends event rows (Ok (mkIngest duplicate_noop (br_trace_id prior) (Some (br_id prior)))) []
| ends_resumed data prior env : located event data -> looked_up event data rows (Some prior) ->
    resumes event data prior env ->
    ends event rows (Ok (mkIngest duplicate_resumed (br_trace_id prior) (Some (br_id prior))))
      [APublish env; AMark (cr_tenant_id event) (br_id prior) now_published]
| ends_preflight_failed data reason : located event data -> looked_up event data rows None ->
    run_preflight data = Err (PreflightFailedError reason) ->
    ends event rows (Ok (mkIngest preflight_failed (cr_trace_id event) (Some new_uuid7))) [AInsert (failed_row event data)]
| ends_raised e : ends event rows (Err e) []
| ends_raised_fresh e data t : located event data -> looked_up event data rows None ->
    fresh_trace event data t -> ends event rows (Err e) t
| ends_raised_resume e data prior env t : located event data -> looked_up event data rows (Some prior) ->
    resumes event data prior env ->
    t = [APublish env] \/ t = [APublish env; AMark (cr_tenant_id event) (br_id prior) now_published] ->
    ends event rows (Err e) t
| ends_raised_failed e data reason : located event data -> looked_up event data rows None ->
    run_preflight data = Err (PreflightFailedError reason) -> ends event rows (Err e) [AInsert (failed_row event data)].

(** ** The pipeline *)

Lemma wp_check_pairs event checks (Q : res unit -> list action -> Prop) s :
  (Forall (fun '(_, p, e) => p = e) checks -> Q (Ok tt) []) -> (forall e, Q (Err e) []) -> wp (check_pairs event checks) Q s.
Proof.
  revert s. induction checks as [|[[f p] e] checks IH]; intros s Hok Herr; cbn [check_pairs].
  - by apply wp_ret, Hok.
  - destruct (String.eqb_spec p e) as [->|Hne].
    + apply IH; [|done]. intros Hall. apply Hok. by constructor.
    + apply wp_then_emit. intros s' _. by apply wp_pure.
Qed.

Lemma wp_check_path event (Q : res string -> list action -> Prop) s :
  (forall key, (forall data, object_bytes key = Ok data -> located event data) -> Q (Ok key) []) ->
  (forall e, Q (Err e) []) -> wp (check_path bronze_bucket event) Q s.
Proof.
  intros Hok Herr. unfold check_path. apply wp_bind, wp_pure. destruct (split_object_uri (cr_gcs_uri event)) as [[bucket key]|] eqn:Hs; [|done].
  intros s1 _. apply wp_bind, wp_pure. destruct (parse_object_path key) as [parsed|] eqn:Hp; [|done].
  intros s2 _. apply wp_bind, wp_check_pairs; [|done]. intros Hall s3 _. apply wp_ret. cbn [app]. apply Hok.
  intros data Hd. rewrite !Forall_cons in Hall. destruct Hall as (-> & Ht & Hsrc & Htr & He & _).
  by exists key, parsed.
Qed.

Lemma fresh_ends event data rows pf s :
  located event data -> looked_up event data rows None -> run_preflight data = Ok pf ->
  wp (ingest_fresh pii_backend event (sha256_hex data) pf) (ends event rows) s.
Proof.
  intros Hloc Hnone Hpf. unfold ingest_fresh. apply wp_then_emit. intros s1 _.
  apply wp_bind. unfold gate_pii. destruct (gate_csv_headers (pf_columns pf) pii_backend) as [ds|e] eqn:Hg;
    (apply wp_then_emit; intros s2 _).
  2: { apply wp_pure. constructor. }
  apply wp_ret. intros s3 _. cbn [app].
  assert (fresh_row event data pf (new_row event (sha256_hex data) (pf_size_bytes pf) (Some (pf_row_count pf)) "RECEIVED")) as Hrow
    by (repeat split; [done|by rewrite Hg]).
  apply wp_bind, wp_insert; [|intros e; by eapply ends_raised_fresh; [..|econstructor]|intros e; constructor].
  intros s4 _. apply wp_then_emit. intros s5 _. apply wp_bind, wp_pure.
  destruct (build_ingress_ready _ _ _ _ _) as [env|e] eqn:Hb; [|by eapply ends_raised_fresh; [..|econstructor]].
  intros s6 _. cbn [app].
  apply wp_bind, wp_publish; [|intros e; by eapply ends_raised_fresh; [..|eapply fresh_published]|intros e; by eapply ends_raised_fresh; [..|econstructor]].
  intros s7 _. cbn [app].
  apply wp_bind, wp_mark; [|intros e; by eapply ends_raised_fresh; [..|eapply fresh_marked]|intros e; by eapply ends_raised_fresh; [..|eapply fresh_published]].
  intros s8 _. apply wp_then_emit. intros s9 _. apply wp_ret. cbn [app]. by eapply ends_ingested; [..|eapply fresh_marked|].
Qed.

Lemma duplicate_ends event data rows prior s :
  located event data -> looked_up event data rows (Some prior) ->
  wp (handle_duplicate event prior data) (ends event rows) s.
Proof.
  intros Hloc Hprior. unfold handle_duplicate.
  destruct (String.eqb_spec (br_processing_status prior) "FAILED") as [Hf|Hf]; [|destruct (is_published prior) eqn:Hpub]; cbn [orb].
  1,2: apply wp_then_emit; intros s1 _; apply wp_ret; eapply ends_noop; eauto.
  apply wp_bind, wp_pure. destruct (run_preflight data) as [pf|e] eqn:Hpf; [|constructor].
  intros s1 _. apply wp_bind, wp_pure. destruct (build_ingress_ready _ _ _ _ _) as [env|e] eqn:Hb; [|constructor].
  assert (resumes event data prior env) as Hres by (split; [done|]; split; [done|]; by exists pf).
  intros s2 _. apply wp_bind, wp_publish; [|intros e; eapply ends_raised_resume; eauto|intros e; constructor].
  intros s3 _. apply wp_bind, wp_mark; [|intros e; eapply ends_raised_resume; eauto|intros e; eapply ends_raised_resume; eauto].
  intros s4 _. apply wp_then_emit. intros s5 _. apply wp_ret. by eapply ends_resumed.
Qed.

Lemma failure_ends event data rows reason s :
  located event data -> looked_up event data rows None -> run_preflight data = Err (PreflightFailedError reason) ->
  wp (handle_preflight_failure event (sha256_hex data) (Z.of_nat (String.length data)) reason) (ends event rows) s.
Proof.
  intros Hloc Hnone Hpf. unfold handle_preflight_failure. fold (failed_row event data).
  apply wp_bind, wp_insert; [|intros e; by eapply ends_raised_failed|intros e; constructor].
  intros s1 _. apply wp_then_emit. intros s2 _. apply wp_ret. by eapply ends_preflight_failed.
Qed.

Lemma ingest_ends event s : wp (ingest bronze_bucket pii_backend event) (ends event (wk_bronze s)) s.
Proof.
  unfold ingest. apply wp_bind, wp_check_path; [|intros e; constructor]. intros key Hloc s1 Hs1. cbn [app].
  apply wp_bind, wp_pure. destruct (object_bytes key) as [data|e] eqn:Hd; [|constructor]. specialize (Hloc _ eq_refl).
  intros s2 Hs2. cbn [app]. apply wp_bind. exists []. split; [done|]. unfold find_prior. cbn [fst].
  assert (wk_bronze s2 = wk_bronze s) as ->
    by (cbn in Hs1, Hs2; rewrite Hs1 in Hs2; by apply (f_equal fst) in Hs2).
  destruct lookup_fails as [e|] eqn:Hlf; [apply ends_raised|].
  destruct (require_key_component "upload_session_id" _) as [[]|e] eqn:Hk1; [|apply ends_raised]. cbn [mbind result_bind].
  destruct (require_key_component "payload_sha256" _) as [[]|e] eqn:Hk2; [|apply ends_raised]. cbn [mbind result_bind].
  intros s3 _. cbn [app]. destruct (latest _) as [prior|] eqn:Hl; [by apply duplicate_ends|].
  destruct (run_preflight data) as [pf|e] eqn:Hpf; [by apply fresh_ends|].
  destruct e; try (apply wp_pure; constructor). by apply failure_ends.
Qed.
End Traces.

(** What the ingest worker promises of every upload, alone and
    together with the consumer of its messages. *)

Local Open Scope nat_scope.

(** What the lookup relies on of [ORDER BY received_at DESC LIMIT 1]. *)
Class LatestLaws (O : WorkerOutside) : Prop := {
  latest_nil : latest [] = None;
  latest_some l : l <> [] -> exists r, latest l = Some r /\ r ∈ l /\ forall x, x ∈ l -> (br_received_at x <= br_received_at r)%Z
}.

Lemma latest_none {O : WorkerOutside} {L : LatestLaws O} l : latest l = None -> l = [].
Proof. destruct l as [|x l]; [done|]. destruct (latest_some (x :: l)) as (r & Hr & _); [done|]. congruence. Qed.

Lemma latest_in {O : WorkerOutside} {L : LatestLaws O} l r : latest l = Some r -> r ∈ l.
Proof.
  destruct l as [|x l]; [by rewrite latest_nil|]. destruct (latest_some (x :: l)) as (r' & Hr & Hin & _); [done|]. congruence.
Qed.

Lemma latest_single {O : WorkerOutside} {L : LatestLaws O} r : latest [r] = Some r.
Proof. destruct (latest_some [r]) as (r' & Hr & Hin & _); [done|]. apply list_elem_of_singleton in Hin. by subst. Qed.

Lemma candidates_elem `{WorkerOutside} event sha rows row :
  row ∈ candidates event sha rows <-> same_key event sha (now_lookup - DEDUP_WINDOW) row = true /\ row ∈ rows.
Proof. unfold candidates. by rewrite list_elem_of_filter. Qed.

(** ** One delivery *)

Section Delivery.
Context `{Codec, WorkerOutside} (bronze_bucket : string) (pii_backend : bool).

(** One delivery writes one of the sequences [ends] lists and no other, whatever
    fails and wherever: a new file is inserted, then published, then stamped; a file
    that fails its preflight is inserted as FAILED and never published; a concluded
    file writes nothing; an unpublished one is published and stamped without a second
    row; an exception cuts one of these sequences short. *)
Theorem worker_writes event s :
  exists trace, core (ingest bronze_bucket pii_backend event s).2 = run_actions trace (core s) /\
    ends bronze_bucket pii_backend event (wk_bronze s) (ingest bronze_bucket pii_backend event s).1 trace.
Proof. apply ingest_ends. Qed.

Lemma ends_inserts event rows r trace row : ends bronze_bucket pii_backend event rows r trace -> AInsert row ∈ trace ->
  br_processing_status row = "FAILED" \/
  exists data pf, located bronze_bucket event data /\ fresh_row pii_backend event data pf row.
Proof.
  assert (forall data t, located bronze_bucket event data -> fresh_trace pii_backend event data t -> AInsert row ∈ t ->
    exists data pf, located bronze_bucket event data /\ fresh_row pii_backend event data pf row) as Hfresh.
  { intros data t Hloc Hf Hin. exists data. destruct Hf as [pf row' Hr|pf row' env Hr _|pf row' env Hr _];
      rewrite !elem_of_cons, elem_of_nil in Hin; naive_solver. }
  intros Hends Hin. destruct Hends as [data t Hl _ Hf _| | | | |e data t Hl _ Hf|e data prior env t _ _ _ Ht|]; try (by eauto).
  all: try (destruct Ht as [->| ->]); rewrite ?elem_of_cons, ?elem_of_nil in Hin; naive_solver.
Qed.
End Delivery.

(** C39. No file with a personal column lands while no backend is configured: every
    bronze row a delivery inserts is a FAILED one, or its file passed the preflight
    and no column of its header is detected; and the refusal is terminal. *)
Theorem pii_never_lands `{Codec, WorkerOutside} bronze_bucket event s :
  exists trace, core (ingest bronze_bucket false event s).2 = run_actions trace (core s) /\
    (forall row, AInsert row ∈ trace -> br_processing_status row = "FAILED" \/
       exists data pf, located bronze_bucket event data /\ run_preflight data = Ok pf /\
         forall c, c ∈ pf_columns pf -> is_pii_column c = false) /\
    forall columns e, gate_csv_headers columns false = Err e -> is_terminal e = true.
Proof.
  destruct (ingest_ends bronze_bucket false event s) as (t & Hc & Hends). exists t. split; [exact Hc|]. split.
  - intros row Hin. destruct (ends_inserts _ _ _ _ _ _ _ Hends Hin) as [Hf|(data & pf & Hloc & Hpf & Hg & _)]; [by left|].
    right. exists data, pf. split; [done|]. split; [done|].
    pose proof (gate_csv_headers_iff (pf_columns pf) false) as Hi. destruct (gate_csv_headers _ _) as [ds|e]; [|done].
    destruct Hi as [[?|Hclean] _]; [done|]. exact Hclean.
  - intros columns e Hg. pose proof (gate_csv_headers_iff columns false) as Hi. rewrite Hg in Hi.
    by destruct Hi as (_ & _ & cs & -> & _).
Qed.

(** ** All deliveries *)

Section Reachable.
Context `{Codec} (bronze_bucket : string) (pii_backend : bool).

(** The states reached by any deliveries, each with its own outside. *)
Inductive reached : worker_state -> Prop :=
| reached_empty : reached (mkWorker [] [] [])
| reached_step (O : WorkerOutside) (L : LatestLaws O) event s :
    reached s -> reached (ingest bronze_bucket pii_backend event s).2.

(** The row a message refers to. *)
Definition refers (env : IngressReadyEnvelope) (row : BronzeRow) : Prop :=
  br_id row = ev_bronze_ref (env_ready env) /\ br_tenant_id row = ev_tenant_id (env_ready env) /\
  br_trace_id row = ev_trace_id (env_ready env) /\ br_received_at row = ev_received_ts (env_ready env) /\
  br_processing_status row <> "FAILED".

Definition published_ok (c : stores) : Prop := forall env, env ∈ c.2 -> exists row, row ∈ c.1 /\ refers env row.

Lemma stamp_refers env tenant id t row : refers env row -> refers env (stamp tenant id t row).
Proof. unfold refers, stamp. destruct (_ && _); naive_solver. Qed.

Lemma act_published c a : published_ok c ->
  (forall env, a = APublish env -> exists row, row ∈ c.1 /\ refers env row) -> published_ok (act c a).
Proof.
  intros Hok Hnew env. destruct a as [row|env'|tenant id t]; cbn [act fst snd].
  - intros Hin. destruct (Hok _ Hin) as (r & Hr & Href). exists r. set_solver.
  - intros [Hin| ->%list_elem_of_singleton]%elem_of_app; [by apply Hok|by apply Hnew].
  - intros Hin. destruct (Hok _ Hin) as (r & Hr & Href). exists (stamp tenant id t r). split; [|by apply stamp_refers].
    apply list_elem_of_fmap. by exists r.
Qed.

Lemma build_refers event trace ref received delimiter env row :
  build_ingress_ready event trace ref received delimiter = Ok env ->
  br_id row = ref -> br_tenant_id row = cr_tenant_id event -> br_trace_id row = trace -> br_received_at row = received ->
  br_processing_status row <> "FAILED" -> refers env row.
Proof.
  unfold build_ingress_ready. intros Hb. apply bind_ok in Hb as (_ & _ & Hb).
  destruct delimiter as [|c [|]]; [done| |done]. injection Hb as <-. by repeat split.
Qed.

Lemma fresh_published_ok `{WorkerOutside} event data t c :
  fresh_trace pii_backend event data t -> published_ok c -> published_ok (run_actions t c).
Proof.
  intros Hf Hok.
  assert (forall pf row, fresh_row pii_backend event data pf row -> published_ok (act c (AInsert row))) as Hins
    by (intros; by apply act_published).
  assert (forall pf row env, fresh_row pii_backend event data pf row ->
    build_ingress_ready event (cr_trace_id event) new_uuid7 now_received (pf_delimiter pf) = Ok env ->
    published_ok (act (act c (AInsert row)) (APublish env))) as Hpub.
  { intros pf row env Hr Hb. apply act_published; [by eapply Hins|]. intros env' [= <-]. exists row.
    split; [cbn; set_solver|]. destruct Hr as (_ & _ & ->). by eapply build_refers. }
  destruct Hf as [pf row Hr|pf row env Hr Hb|pf row env Hr Hb]; cbn [run_actions fold_left].
  - by eapply Hins.
  - by eapply Hpub.
  - apply act_published; [by eapply Hpub|done].
Qed.

Lemma resume_published_ok {O : WorkerOutside} {L : LatestLaws O} event data rows prior env outbox :
  looked_up event data rows (Some prior) -> resumes event data prior env ->
  published_ok (rows, outbox) -> published_ok (act (rows, outbox) (APublish env)).
Proof.
  intros (_ & _ & _ & Hl) (Hf & _ & pf & _ & Hb) Hok. apply act_published; [done|]. intros env' [= <-].
  apply latest_in, candidates_elem in Hl as [Hkey Hin]. exists prior. split; [done|].
  unfold same_key in Hkey. rewrite !andb_true_iff in Hkey. destruct Hkey as ((((Ht & _) & _) & _) & _).
  apply String.eqb_eq in Ht. by eapply build_refers.
Qed.

(** C37. A message never runs ahead of its row.  In every state any deliveries can
    reach, with failures and crashes anywhere, each published message names a bronze
    row that is there, of the same tenant, trace and time of receipt, and that did
    not fail its preflight. *)
Theorem published_after_bronze s (Hreached : reached s) : published_ok (core s).
Proof.
  induction Hreached as [|O L event s Hs IH]; [by intros env ?%elem_of_nil|].
  destruct (ingest_ends bronze_bucket pii_backend event s) as (t & -> & Hends).
  assert (core s = (wk_bronze s, wk_outbox s)) as Ec by done.
  destruct Hends as [data t _ _ Hf _| | data prior env _ Hl Hr| | |e data t _ _ Hf|e data prior env t _ Hl Hr Ht|].
  - by eapply fresh_published_ok.
  - done.
  - cbn [run_actions fold_left]. apply act_published; [|done]. rewrite Ec in *. by eapply resume_published_ok.
  - by apply act_published.
  - done.
  - by eapply fresh_published_ok.
  - assert (published_ok (act (core s) (APublish env))) as Hp by (rewrite Ec in *; by eapply resume_published_ok).
    destruct Ht as [->| ->]; [exact Hp|]. by apply act_published.
  - by apply act_published.
Qed.
End Reachable.

(** ** A worker to evaluate *)

Fixpoint latest_of (rows : list BronzeRow) : option BronzeRow :=
  match rows with
  | [] => None
  | r :: rest =>
      match latest_of rest with
      | Some r' => if (br_received_at r' <=? br_received_at r)%Z then Some r else Some r'
      | None => Some r
      end
  end.

Lemma latest_of_spec rows : rows <> [] ->
  exists r, latest_of rows = Some r /\ r ∈ rows /\ forall x, x ∈ rows -> (br_received_at x <= br_received_at r)%Z.
Proof.
  induction rows as [|r rows IH]; [done|]. intros _. cbn [latest_of]. destruct rows as [|r1 rows].
  - exists r. split; [done|]. split; [left|]. intros x ->%list_elem_of_singleton. lia.
  - destruct IH as (r' & -> & Hin & Hmax); [done|]. destruct (Z.leb_spec (br_received_at r') (br_received_at r)) as [Hle|Hgt].
    + exists r. split; [done|]. split; [left|]. intros x [->|Hx]%elem_of_cons; [lia|]. specialize (Hmax _ Hx). lia.
    + exists r'. split; [done|]. split; [by right|]. intros x [->|Hx]%elem_of_cons; [lia|by apply Hmax].
Qed.

(** One delivery of a two-column file; the times and the fate of each write are given. *)
Definition sample_worker (lookup received published : Z) (insert publish mark : Effect) : WorkerOutside := {|
  object_bytes key := Ok "sku,qty A1,4";
  sniff_csv data := Some (Some (",", true, [("sku", "VARCHAR"); ("qty", "BIGINT")]));
  read_csv_count data := Some (Some 1%Z);
  new_uuid7 := "b-1";
  now_lookup := lookup;
  now_received := received;
  now_published := published;
  latest := latest_of;
  lookup_fails := None;
  insert_effect := insert;
  publish_effect := publish;
  mark_effect := mark;
  worker_audit_lands ev := true
|}.

Global Instance sample_worker_laws lookup received published insert publish mark :
  LatestLaws (sample_worker lookup received published insert publish mark).
Proof. split; [done|apply latest_of_spec]. Qed.

Definition upload_uri (trace : string) : string :=
  "gs://bronze/tenant/11111111-1111-1111-1111-111111111111/source/pos/yyyy=2026/mm=01/dd=03/" +:+ trace +:+ ".csv".

Definition upload_event (trace : string) : CsvReceivedEvent := mkCsvReceived trace "11111111-1111-1111-1111-111111111111" "store" "pos" "template"
  "us_0123456789ab" (upload_uri trace) 1000 None None.

Definition no_rows : worker_state := mkWorker [] [] [].

Definition sample_delivery (O : WorkerOutside) (trace : string) (s : worker_state) : res IngestOutcome * worker_state :=
  @ingest sample_codec O "bronze" false (upload_event trace) s.

(** A fresh upload is inserted, published and stamped. *)
Example upload_ingested :
  let r := sample_delivery (sample_worker 900 1000 1001 Done Done Done) "t1" no_rows in
  r.1 = Ok (mkIngest ingested "t1" (Some "b-1")) /\ map br_processing_status (wk_bronze r.2) = ["PUBLISHED"] /\
  map au_stage (wk_audit r.2) = [RECEIVED; PII_TOKENIZED; BRONZE_WRITTEN; INGRESS_PUBLISHED].
Proof. split_and!; by vm_compute. Qed.

Lemma published_after_bronze_witness :
  let s := (sample_delivery (sample_worker 900 1000 1001 Done Done (Failed (OtherError "lost"))) "t1" no_rows).2 in
  length (wk_outbox s) = 1 /\ published_ok (core s).
Proof.
  split; [by vm_compute|].
  apply (@published_after_bronze sample_codec "bronze" false).
  apply (@reached_step sample_codec "bronze" false (sample_worker 900 1000 1001 Done Done (Failed (OtherError "lost")))); [apply _|constructor].
Defined.

(** ** A pass *)

Section PassTheorems.
Context `{Codec, Pydantic} (bronze_bucket : string) (pii_backend : bool).

(** An upload is concluded when a bronze row of its tenant and session is published, or failed its preflight. *)
Definition concluded (event : CsvReceivedEvent) (rows : list BronzeRow) : Prop :=
  exists row, row ∈ rows /\ br_tenant_id row = cr_tenant_id event /\ br_source_payload_id row = cr_upload_session_id event /\
    (br_processing_status row = "FAILED" \/ is_published row = true).

Lemma stamp_published tenant id t row : br_id row = id -> br_tenant_id row = tenant -> is_published (stamp tenant id t row) = true.
Proof. intros <- <-. unfold stamp. by rewrite !String.eqb_refl. Qed.

Lemma stamp_keeps tenant id t row : br_tenant_id (stamp tenant id t row) = br_tenant_id row /\
  br_source_payload_id (stamp tenant id t row) = br_source_payload_id row /\
  (br_processing_status row = "FAILED" \/ is_published row = true ->
   br_processing_status (stamp tenant id t row) = "FAILED" \/ is_published (stamp tenant id t row) = true).
Proof. unfold stamp. destruct (_ && _); cbn; auto. Qed.

Lemma act_concluded event c a : concluded event c.1 -> concluded event (act c a).1.
Proof.
  intros (row & Hin & Ht & Hs & Hf). destruct a as [r|env|tenant id t]; cbn.
  - exists row. split; [apply elem_of_app; by left|done].
  - by exists row.
  - destruct (stamp_keeps tenant id t row) as (Ht' & Hs' & Hf'). exists (stamp tenant id t row).
    split; [by apply list_elem_of_fmap_2|]. rewrite Ht', Hs'. auto.
Qed.

Lemma run_concluded event t c : concluded event c.1 -> concluded event (run_actions t c).1.
Proof. revert c. induction t as [|a t IH]; [done|]. intros c Hc. cbn. by apply IH, act_concluded. Qed.

Lemma same_key_of event sha cutoff row : same_key event sha cutoff row = true ->
  br_tenant_id row = cr_tenant_id event /\ br_source_payload_id row = cr_upload_session_id event.
Proof. unfold same_key. rewrite !andb_true_iff, !String.eqb_eq. tauto. Qed.

(** A delivery that returns leaves its upload concluded. *)
Lemma ends_concluded {O : WorkerOutside} {L : LatestLaws O} event rows outbox outcome trace :
  ends bronze_bucket pii_backend event rows (Ok outcome) trace -> concluded event (run_actions trace (rows, outbox)).1.
Proof.
  assert (forall data prior, looked_up event data rows (Some prior) -> prior ∈ rows /\ br_tenant_id prior = cr_tenant_id event /\
    br_source_payload_id prior = cr_upload_session_id event) as Hprior.
  { intros data prior (_ & _ & _ & Hl). apply latest_in, candidates_elem in Hl as [Hk Hin]. split; [done|]. by eapply same_key_of. }
  inversion 1 as [data t Hloc Hlook Hf Hlen|data prior Hloc Hlook Hdone|data prior env Hloc Hlook Hres|data reason Hloc Hlook Hpf| | | |]; subst.
  - inversion Hf as [|pf row env Hrow Henv|pf row env Hrow Henv]; subst; try done. destruct Hrow as (_ & _ & ->). cbn.
    eexists. split; [apply list_elem_of_fmap_2, elem_of_app; right; apply list_elem_of_singleton; reflexivity|].
    match goal with |- context [stamp ?a ?b ?c ?r] => destruct (stamp_keeps a b c r) as (-> & -> & _) end. split_and!; try done. right. by apply stamp_published.
  - destruct (Hprior _ _ Hlook) as (Hin & Ht & Hs). by exists prior.
  - destruct (Hprior _ _ Hlook) as (Hin & Ht & Hs). cbn.
    eexists. split; [apply list_elem_of_fmap_2; exact Hin|].
    match goal with |- context [stamp ?a ?b ?c ?r] => destruct (stamp_keeps a b c r) as (-> & -> & _) end. split_and!; try done. right. by apply stamp_published.
  - cbn. eexists. split; [apply elem_of_app; right; apply list_elem_of_singleton; reflexivity|]. cbn. auto.
Qed.

(** The refusals that a redelivery repeats: of the contract, of the location, and of personal data. *)
Definition repeats (e : exn) : Prop :=
  (exists field, e = EventContractError field) \/ (exists field, e = EventPathMismatchError field) \/ (exists columns, e = PiiBackendNotConfiguredError columns).

Lemma terminal_repeats e : is_terminal e = true <-> repeats e.
Proof. unfold repeats. destruct e; cbn; naive_solver. Qed.

(** What an acknowledgement rests on. *)
Inductive settled (m : pulled) (rows : list BronzeRow) : Prop :=
| settled_refused field : parse_csv_received (pu_data m) = Err (EventContractError field) -> settled m rows
| settled_terminal event e before after : parse_csv_received (pu_data m) = Ok event ->
    (fun _ : WorkerOutside => ingest bronze_bucket pii_backend event before) (pu_outside m) = (Err e, after) -> repeats e -> settled m rows
| settled_concluded event : parse_csv_received (pu_data m) = Ok event -> concluded event rows -> settled m rows.

(** What a hand-back rests on: a failure that a later delivery may not meet. *)
Definition transient (m : pulled) : Prop :=
  exists event e before after, parse_csv_received (pu_data m) = Ok event /\
    (fun _ : WorkerOutside => ingest bronze_bucket pii_backend event before) (pu_outside m) = (Err e, after) /\ ~ repeats e.

Lemma deliver_keeps m s d s' : deliver bronze_bucket pii_backend m s = (d, s') -> forall event, concluded event (wk_bronze s) -> concluded event (wk_bronze s').
Proof.
  unfold deliver, worker_message. cbv beta. set (O := pu_outside m). intros Hd event' Hc.
  destruct (parse_csv_received _) as [event|e]; [|by destruct e; injection Hd as <- <-].
  destruct (ingest_ends bronze_bucket pii_backend event s) as (t & Hcore & _).
  assert (concluded event' (core (ingest bronze_bucket pii_backend event s).2).1) as Hc' by (rewrite Hcore; by apply run_concluded).
  destruct (ingest bronze_bucket pii_backend event s) as [[o|e] s1]; by injection Hd as <- <-.
Qed.

Lemma settled_keeps m rows rows' : (forall event, concluded event rows -> concluded event rows') -> settled m rows -> settled m rows'.
Proof. intros Hk [field Hp|event e before after Hp Hi Ht|event Hp Hc]; [by eapply settled_refused|by eapply settled_terminal|eapply settled_concluded; eauto]. Qed.

Definition rests_on (rows : list BronzeRow) (m : pulled) (d : Decision) : Prop := match d with ack => settled m rows | nack => transient m end.

Lemma deliver_rests m s d s' : LatestLaws (pu_outside m) -> deliver bronze_bucket pii_backend m s = (Ok d, s') -> rests_on (wk_bronze s') m d.
Proof.
  unfold deliver, worker_message. cbv beta. set (O := pu_outside m). intros HL Hd. destruct (parse_csv_received _) as [event|e] eqn:Hp.
  2: { destruct e; try done. injection Hd as <- <-. by eapply settled_refused. }
  destruct (ingest_ends bronze_bucket pii_backend event s) as (t & Hcore & Hends).
  destruct (ingest bronze_bucket pii_backend event s) as [[o|e] s1] eqn:Hi; cbn [fst snd] in *; injection Hd as <- <-.
  - eapply settled_concluded; [exact Hp|]. apply (ends_concluded event (wk_bronze s) (wk_outbox s)) in Hends. change (wk_bronze s1) with (core s1).1. by rewrite Hcore.
  - destruct (is_terminal e) eqn:Ht; [eapply settled_terminal; eauto; by apply terminal_repeats|].
    exists event, e, s, s1. split_and!; try done. rewrite <- terminal_repeats. congruence.
Qed.

Definition ids_of (wanted : Decision) (received : list pulled) (ds : list Decision) : list string :=
  concat (zip_with (fun m d => match wanted, d with ack, ack | nack, nack => [pu_ack_id m] | _, _ => [] end) received ds).

(** The loop decides each message in turn, and what a decision rests on still holds at its end. *)
Lemma poll_decides received acks nacks s acks' nacks' s' : Forall (fun m => LatestLaws (pu_outside m)) received ->
  worker_poll_messages bronze_bucket pii_backend received acks nacks s = (Ok (acks', nacks'), s') ->
  (forall event, concluded event (wk_bronze s) -> concluded event (wk_bronze s')) /\
  exists ds, Forall2 (rests_on (wk_bronze s')) received ds /\ acks' = acks ++ ids_of ack received ds /\ nacks' = nacks ++ ids_of nack received ds.
Proof.
  intros Hl. revert acks nacks s. induction Hl as [|m received Hm Hl IH]; intros acks nacks s Hrun.
  { injection Hrun as <- <- <-. split; [done|]. exists []. by rewrite !app_nil_r. }
  cbn [worker_poll_messages] in Hrun. destruct (deliver _ _ m s) as [[d|e] s1] eqn:Hd; [|done].
  assert (exists a n, worker_poll_messages bronze_bucket pii_backend received a n s1 = (Ok (acks', nacks'), s') /\
    a = acks ++ ids_of ack [m] [d] /\ n = nacks ++ ids_of nack [m] [d]) as (a & n & Hrest & Ha & Hn).
  { destruct d; eexists _, _; (split; [exact Hrun|]); cbn; by rewrite ?app_nil_r. }
  destruct (IH _ _ _ Hrest) as (Hk & ds & Hds & -> & ->). split.
  { intros event Hc. eapply Hk, deliver_keeps; eauto. }
  exists (d :: ds). split.
  - constructor; [|done]. apply deliver_rests in Hd; [|done]. destruct d; [by eapply settled_keeps|done].
  - subst a n. unfold ids_of. cbn. by rewrite !app_nil_r, !app_assoc.
Qed.

Lemma ids_elem wanted received ds rows id : Forall2 (rests_on rows) received ds -> id ∈ ids_of wanted received ds ->
  exists m, m ∈ received /\ pu_ack_id m = id /\ rests_on rows m wanted.
Proof.
  intros Hf. induction Hf as [|m d received ds Hm Hf IH]; [by intros []%not_elem_of_nil|]. unfold ids_of. cbn. rewrite elem_of_app. intros [Hin|Hin].
  - exists m. destruct wanted, d; try (by apply not_elem_of_nil in Hin); apply list_elem_of_singleton in Hin as ->; (split; [left|done]).
  - destruct (IH Hin) as (m' & Hm' & Hid & Hr). exists m'. split; [by right|done].
Qed.

Lemma ids_all received ds : length received = length ds -> ids_of ack received ds ++ ids_of nack received ds ≡ₚ map pu_ack_id received.
Proof.
  revert ds. induction received as [|m received IH]; intros [|d ds] Hlen; try done. injection Hlen as Hlen. specialize (IH ds Hlen).
  unfold ids_of in *. cbn. destruct d; cbn; [by rewrite IH|]. rewrite <- Permutation_middle. by rewrite IH.
Qed.

(** C36. An upload message is never acknowledged and lost.  After a pass, whatever fails in it, each acknowledged
    message had an envelope that does not parse, or ended in a refusal that a redelivery repeats, or
    has a bronze row of its tenant and session in the table that is published or failed its preflight; each message
    returned ended in another failure; and a pass that returns settled every message it pulled. *)
Theorem acknowledged_uploads_settled received acknowledge modify s p s'
    (Hlaws : Forall (fun m => LatestLaws (pu_outside m)) received)
    (Hpass : worker_poll_once bronze_bucket pii_backend (Ok received) acknowledge modify s = (p, s')) :
  (forall id, id ∈ ps_acked p -> exists m, m ∈ received /\ pu_ack_id m = id /\ settled m (wk_bronze s')) /\
  (forall id, id ∈ ps_returned p -> exists m, m ∈ received /\ pu_ack_id m = id /\ transient m) /\
  (forall n, ps_result p = Ok n -> n = length received /\ ps_acked p ++ ps_returned p ≡ₚ map pu_ack_id received).
Proof.
  unfold worker_poll_once in Hpass. destruct (worker_poll_messages _ _ received [] [] s) as [[[acks nacks]|e] s1] eqn:Hrun.
  2: { injection Hpass as <- <-. split_and!; [by intros id ?%elem_of_nil|by intros id ?%elem_of_nil|done]. }
  apply poll_decides in Hrun as (_ & ds & Hds & -> & ->); [|done]. rewrite !app_nil_l in Hpass.
  assert (s1 = s') as -> by (repeat case_match; by simplify_eq).
  assert (forall id, id ∈ ps_acked p -> id ∈ ids_of ack received ds) as Hack.
  { intros id. repeat case_match; simplify_eq; cbn; try done; by intros ?%elem_of_nil. }
  assert (forall id, id ∈ ps_returned p -> id ∈ ids_of nack received ds) as Hnack.
  { intros id. repeat case_match; simplify_eq; cbn; try done; by intros ?%elem_of_nil. }
  split_and!.
  - intros id Hin. by apply (ids_elem ack received ds), Hack.
  - intros id Hin. by apply (ids_elem nack received ds (wk_bronze s')), Hnack.
  - intros n Hn. rewrite <- (ids_all received ds) by (by eapply Forall2_length).
    repeat case_match; simplify_eq; cbn in *; try done; by simplify_eq.
Qed.
End PassTheorems.

(** One good message, one that is no JSON, one whose insert is lost. *)
Definition upload_body : dict value :=
  [("schema_version", VInt 1); ("trace_id", VStr "t1"); ("tenant_id", VStr "11111111-1111-1111-1111-111111111111"); ("store_id", VStr "store");
   ("source_id", VStr "pos"); ("template_id", VStr "template"); ("upload_session_id", VStr "us_0123456789ab"); ("gcs_uri", VStr (upload_uri "t1"));
   ("received_ts", VStr "2026-01-03T00:00:00Z")].

Definition plain_pydantic : Pydantic := {|
  json_loads data := if String.eqb data "upload" then Some (VDict upload_body) else None;
  as_uuid v := match v with VStr t => Some t | _ => None end;
  as_datetime v := match v with VStr _ => Some (1000%Z, true) | _ => None end;
  as_bool v := match v with VBool b => Some b | _ => None end
|}.

Definition sample_pulled : list pulled :=
  [mkPulled "a1" "upload" (sample_worker 900 1000 1001 (Failed (OtherError "lost")) Done Done); mkPulled "a2" "junk" (sample_worker 900 1000 1001 Done Done Done);
   mkPulled "a3" "upload" (sample_worker 900 1000 1001 Done Done Done)].

Abbreviation sample_pass := (@worker_poll_once sample_codec plain_pydantic "bronze" false (Ok sample_pulled) Done Done no_rows).

Example pass_sample : sample_pass.1 = mkPass (Ok 3) ["a2"; "a3"] ["a1"].
Proof. by vm_compute. Qed.

Lemma acknowledged_uploads_settled_witness : exists m, m ∈ sample_pulled /\ pu_ack_id m = "a3" /\
  @settled sample_codec plain_pydantic "bronze" false m (wk_bronze sample_pass.2).
Proof.
  destruct (@acknowledged_uploads_settled sample_codec plain_pydantic "bronze" false sample_pulled Done Done no_rows sample_pass.1 sample_pass.2) as [Hack _].
  - repeat constructor; apply latest_of_spec.
  - apply surjective_pairing.
  - apply (Hack "a3"). rewrite pass_sample. right. left.
Defined.
