(* ===== verification/WorkerRetries.v ===== *)
(** WorkerRetries: redelivery to the ingest worker, and what the consumer makes of
    the messages the worker published. *)

From S2P Require Import Prelude Text Values Decimals Transform SourceMapping Polars Normalize Engine MappingTheorems.
From S2P Require Import Canonical Provenance Enrichment HotMapping Sink SinkTheorems.
From S2P Require Import Validation ValidationTheorems Paths Quarantine Consumer ConsumerProps Subscriber Pii Worker WorkerTheorems.
Local Open Scope nat_scope.

(** ** Running a delivery forward *)

Section Forward.
Context `{Codec, WorkerOutside} (bronze_bucket : string) (pii_backend : bool).

Lemma check_pairs_equal event checks s : Forall (fun '(_, p, e) => p = e) checks -> check_pairs event checks s = (Ok tt, s).
Proof.
  induction 1 as [|[[f p] e] checks -> Hall IH]; [done|]. cbn [check_pairs]. by rewrite String.eqb_refl.
Qed.

Lemma ingest_found event data prior s :
  located bronze_bucket event data -> looked_up event data (wk_bronze s) (Some prior) ->
  ingest bronze_bucket pii_backend event s = handle_duplicate event prior data s.
Proof.
  intros (key & parsed & Hs & Hp & Ht & Hsrc & Htr & He & Hd) (Hlf & Hk1 & Hk2 & Hl).
  unfold ingest, check_path. unfold mbind, worker_bind, pure_res. rewrite Hs, Hp.
  rewrite check_pairs_equal by (repeat constructor; done). cbn [mret worker_ret]. unfold mret, worker_ret. rewrite Hd.
  unfold find_prior. rewrite Hlf, Hk1. cbn [mbind result_bind]. rewrite Hk2. cbn [mbind result_bind]. by rewrite Hl.
Qed.

Lemma duplicate_noop_run event data prior s :
  br_processing_status prior = "FAILED" \/ is_published prior = true ->
  exists s', handle_duplicate event prior data s = (Ok (mkIngest duplicate_noop (br_trace_id prior) (Some (br_id prior))), s') /\
    core s' = core s.
Proof.
  intros Hc. unfold handle_duplicate.
  assert (String.eqb (br_processing_status prior) "FAILED" || is_published prior = true) as ->.
  { destruct Hc as [->| ->]; [done|apply orb_true_r]. }
  eexists. split; [done|]. unfold worker_emit. cbn. by destruct (worker_audit_lands _).
Qed.

(** A delivery in which no write fails. *)
Definition healthy : Prop := lookup_fails = None /\ insert_effect = Done /\ publish_effect = Done /\ mark_effect = Done.

Lemma resume_run event data prior env s :
  healthy -> resumes event data prior env ->
  exists s', handle_duplicate event prior data s = (Ok (mkIngest duplicate_resumed (br_trace_id prior) (Some (br_id prior))), s') /\
    core s' = run_actions [APublish env; AMark (cr_tenant_id event) (br_id prior) now_published] (core s).
Proof.
  intros (_ & _ & Hpub & Hmark) (Hf & Hp & pf & Hpf & Hb). unfold handle_duplicate.
  apply String.eqb_neq in Hf. rewrite Hf, Hp. cbn [orb]. unfold mbind, worker_bind, pure_res. rewrite Hpf, Hb.
  unfold publish, mark_published, perform. rewrite Hpub, Hmark. unfold worker_emit. cbv beta iota.
  eexists. split; [done|]. by destruct (worker_audit_lands _).
Qed.
End Forward.

(** ** The same event again *)

Section Again.
Context `{Codec} (O1 O2 : WorkerOutside) {L1 : LatestLaws O1} {L2 : LatestLaws O2} (bronze_bucket : string) (pii_backend : bool).

(** The second delivery is later, within the window of the first, and reads the prior row. *)
Record later_in_window : Prop := {
  rd_lookup : @lookup_fails O2 = None;
  rd_later : (@now_lookup O1 <= @now_lookup O2)%Z;
  rd_window : (@now_lookup O2 - DEDUP_WINDOW <= @now_received O1)%Z
}.

(** And stored objects do not change. *)
Record redelivered : Prop := {
  rd_objects : forall key, @object_bytes O2 key = @object_bytes O1 key;
  rd_when : later_in_window
}.

(** Two events of one upload session. *)
Definition same_session (event event' : CsvReceivedEvent) : Prop :=
  cr_tenant_id event' = cr_tenant_id event /\ cr_upload_session_id event' = cr_upload_session_id event.

Lemma same_session_looked_up (O : WorkerOutside) event event' data rows found :
  same_session event event' -> looked_up event data rows found -> looked_up event' data rows found.
Proof.
  intros [Ht Hs] (Hlf & Hk1 & Hk2 & Hl). split; [done|]. rewrite Hs. split; [done|]. split; [done|]. rewrite <- Hl. f_equal.
  unfold candidates, same_key. by rewrite Ht, Hs.
Qed.

Lemma located_again event data : redelivered -> @located O1 bronze_bucket event data -> @located O2 bronze_bucket event data.
Proof. intros Hr (key & parsed & ?). exists key, parsed. rewrite (rd_objects Hr). naive_solver. Qed.

Lemma same_key_earlier event sha c1 c2 row : (c1 <= c2)%Z -> same_key event sha c2 row = true -> same_key event sha c1 row = true.
Proof. unfold same_key. rewrite !andb_true_iff, !Z.leb_le. intros Hc Hk. split; [apply Hk|]. destruct Hk as [_ Hk]. lia. Qed.

Lemma same_key_stamp event sha c tenant id t row : same_key event sha c (stamp tenant id t row) = same_key event sha c row.
Proof. unfold same_key, stamp. by destruct (String.eqb (br_id row) id && String.eqb (br_tenant_id row) tenant). Qed.

(** When nothing was found before and one row of this event was added, the lookup finds it. *)
Lemma found_again event data rows row f :
  later_in_window -> @looked_up _ O1 event data rows None ->
  (forall r, same_key event (sha256_hex data) (@now_lookup O2 - DEDUP_WINDOW) (f r) =
             same_key event (sha256_hex data) (@now_lookup O2 - DEDUP_WINDOW) r) ->
  same_key event (sha256_hex data) (@now_lookup O2 - DEDUP_WINDOW) row = true ->
  @looked_up _ O2 event data (map f (rows ++ [row])) (Some (f row)).
Proof.
  intros Hr (_ & Hk1 & Hk2 & Hnone) Hf Hrow. split; [apply (rd_lookup Hr)|]. split; [done|]. split; [done|].
  assert (candidates event (sha256_hex data) (map f (rows ++ [row])) = [f row]) as ->; [|apply latest_single].
  assert (forall r, r ∈ rows -> same_key event (sha256_hex data) (@now_lookup O2 - DEDUP_WINDOW) r = false) as Hold.
  { intros r Hin. destruct (same_key _ _ (@now_lookup O2 - DEDUP_WINDOW) r) eqn:Hk; [|done].
    apply (@latest_none O1 L1) in Hnone. assert (r ∈ @nil BronzeRow) as []%elem_of_nil. rewrite <- Hnone.
    apply candidates_elem. split; [|done]. eapply same_key_earlier; [|exact Hk]. pose proof (rd_later Hr). lia. }
  unfold candidates. clear Hnone. induction rows as [|r rows IH]; cbn [map app].
  - rewrite filter_cons_True by (by rewrite Hf). by rewrite filter_nil.
  - rewrite filter_cons_False by (rewrite Hf, Hold by left; done). apply IH. intros r' Hr'. apply Hold. by right.
Qed.

Lemma new_row_key event data size count status :
  later_in_window -> same_key event (sha256_hex data) (@now_lookup O2 - DEDUP_WINDOW) (@new_row O1 event (sha256_hex data) size count status) = true.
Proof.
  intros Hr. unfold same_key. cbn. rewrite !String.eqb_refl. apply Z.leb_le, (rd_window Hr).
Qed.

Lemma map_same {A} (l : list A) : l = map (fun x => x) l.
Proof. by rewrite map_id. Qed.

(** A concluded upload absorbs every later event of its session. *)
Lemma absorbed_as event event' s outcome s1 :
  later_in_window -> same_session event event' ->
  (forall data, @located O1 bronze_bucket event data -> @located O2 bronze_bucket event' data) ->
  @ingest _ O1 bronze_bucket pii_backend event s = (Ok outcome, s1) ->
  in_disposition outcome = ingested \/ in_disposition outcome = preflight_failed ->
  exists s2, @ingest _ O2 bronze_bucket pii_backend event' s1 =
      (Ok (mkIngest duplicate_noop (in_trace_id outcome) (in_bronze_id outcome)), s2) /\ core s2 = core s1.
Proof.
  intros Hagain Hsame Hlocated Hfirst Hnew.
  destruct (@ingest_ends _ O1 bronze_bucket pii_backend event s) as (t & Hc & Hends). rewrite Hfirst in Hc, Hends. cbn [fst snd] in *.
  assert (forall data row f, @located O1 bronze_bucket event data -> @looked_up _ O1 event data (wk_bronze s) None ->
    wk_bronze s1 = map f (wk_bronze s ++ [row]) ->
    (forall r, same_key event (sha256_hex data) (@now_lookup O2 - DEDUP_WINDOW) (f r) =
               same_key event (sha256_hex data) (@now_lookup O2 - DEDUP_WINDOW) r) ->
    same_key event (sha256_hex data) (@now_lookup O2 - DEDUP_WINDOW) row = true ->
    br_processing_status (f row) = "FAILED" \/ is_published (f row) = true ->
    exists s2, @ingest _ O2 bronze_bucket pii_backend event' s1 =
      (Ok (mkIngest duplicate_noop (br_trace_id (f row)) (Some (br_id (f row)))), s2) /\ core s2 = core s1) as Hfound.
  { intros data row f Hloc Hl Hb Hf Hkey Hdone. rewrite (ingest_found _ _ event' data (f row)).
    - by apply duplicate_noop_run.
    - by apply Hlocated.
    - rewrite Hb. eapply same_session_looked_up; [exact Hsame|]. by apply found_again. }
  inversion Hends as [data t' Hloc Hl Hft Hlen| | |data reason Hloc Hl Hpf| | | |]; subst; cbn [in_disposition] in Hnew;
    try (by destruct Hnew); cbn [in_trace_id in_bronze_id].
  - destruct Hft as [| |pf row env (Hpf & _ & Hrow) Hb]; [done..|].
    assert (wk_bronze s1 = map (stamp (cr_tenant_id event) (@new_uuid7 O1) (@now_published O1)) (wk_bronze s ++ [row])) as Hb1
      by exact (f_equal fst Hc).
    assert (stamp (cr_tenant_id event) (@new_uuid7 O1) (@now_published O1) row =
            mkBronzeRow (br_id row) (br_tenant_id row) (br_store_id row) (br_source_id row) (br_dis_channel row) (br_trace_id row)
              (br_gcs_uri row) (br_payload_size_bytes row) (br_payload_sha256 row) (br_row_count row) (br_content_type row)
              (br_source_payload_id row) (br_template_id row) (br_received_at row) STATUS_PUBLISHED (Some (@now_published O1))) as Hst
      by (subst row; unfold stamp; cbn; by rewrite !String.eqb_refl).
    destruct (Hfound data row _ Hloc Hl Hb1) as (s2 & Hs2 & Hcore).
    + intros r. apply same_key_stamp.
    + subst row. by apply new_row_key.
    + right. by rewrite Hst.
    + exists s2. split; [|done]. rewrite Hs2, Hst. by subst row.
  - destruct (Hfound data (@failed_row _ O1 event data) (fun r => r) Hloc Hl) as (s2 & Hs2 & Hcore).
    + rewrite <- map_same. exact (f_equal fst Hc).
    + done.
    + by apply new_row_key.
    + by left.
    + exists s2. by split.
Qed.

(** A concluded upload is absorbed: when a delivery ingested the file or recorded
    its failed preflight, a second delivery of the event within the window returns
    the trace and the bronze id of the first and changes neither table nor topic. *)
Theorem redelivery_absorbed event s outcome s1
    (Hagain : redelivered)
    (Hfirst : @ingest _ O1 bronze_bucket pii_backend event s = (Ok outcome, s1))
    (Hnew : in_disposition outcome = ingested \/ in_disposition outcome = preflight_failed) :
  exists s2, @ingest _ O2 bronze_bucket pii_backend event s1 =
      (Ok (mkIngest duplicate_noop (in_trace_id outcome) (in_bronze_id outcome)), s2) /\ core s2 = core s1.
Proof.
  eapply absorbed_as; [apply (rd_when Hagain)|done|intros data; by apply located_again|exact Hfirst|exact Hnew].
Qed.

Lemma crashed_after_insert event s e s1 row :
  @ingest _ O1 bronze_bucket pii_backend event s = (Err e, s1) -> wk_bronze s1 = wk_bronze s ++ [row] ->
  br_processing_status row = "RECEIVED" ->
  exists data pf, @located O1 bronze_bucket event data /\ @looked_up _ O1 event data (wk_bronze s) None /\
    @fresh_row _ O1 pii_backend event data pf row.
Proof.
  intros Hrun Hrow Hst. destruct (@ingest_ends _ O1 bronze_bucket pii_backend event s) as (t & Hc & Hends).
  rewrite Hrun in Hc, Hends. cbn [fst snd] in *. apply (f_equal fst) in Hc. cbn [core fst] in Hc. rewrite Hrow in Hc.
  inversion Hends as [| | | |e'|e' data t' Hloc Hl Hft|e' data prior env t' Hloc Hl Hres Ht|e' data reason Hloc Hl Hpf]; subst.
  - apply (f_equal length) in Hc. rewrite length_app in Hc. cbn in Hc. lia.
  - exists data. destruct Hft as [pf row' Hr|pf row' env Hr _|pf row' env Hr _]; exists pf; (split; [done|]); (split; [done|]).
    1,2: cbn in Hc; apply app_inj_2 in Hc as [_ [= ->]]; done.
    cbn in Hc. rewrite map_app in Hc. apply app_inj_2 in Hc as [_ [= Hlast]]; [|done].
    destruct Hr as (_ & _ & Hr). subst row row'. unfold stamp in Hst. cbn in Hst. by rewrite !String.eqb_refl in Hst.
  - apply (f_equal length) in Hc. destruct Ht as [->| ->]; cbn in Hc; rewrite ?length_map, length_app in Hc; cbn in Hc; lia.
  - cbn in Hc. apply app_inj_2 in Hc as [_ [= ->]]; done.
Qed.

(** C38. A crash between the bronze row and its stamp heals: when a delivery dies
    after the row landed, before or after the publish, a later healthy delivery of
    the event within the window adds no row, publishes one message that refers to the
    row, and stamps it. *)
Theorem lost_publish_completed event s e s1 row
    (Hagain : redelivered) (Hhealthy : @healthy O2)
    (Hpreflight : forall data, @run_preflight O2 data = @run_preflight O1 data)
    (Hdelimiter : forall data pf, @run_preflight O1 data = Ok pf -> String.length (pf_delimiter pf) = 1)
    (Hsource : cr_source_id event <> "") (Huri : cr_gcs_uri event <> "")
    (Hcrash : @ingest _ O1 bronze_bucket pii_backend event s = (Err e, s1))
    (Hrow : wk_bronze s1 = wk_bronze s ++ [row]) (Hstatus : br_processing_status row = "RECEIVED") :
  exists env s2, @ingest _ O2 bronze_bucket pii_backend event s1 = (Ok (mkIngest duplicate_resumed (cr_trace_id event) (Some (br_id row))), s2) /\
    wk_bronze s2 = map (stamp (cr_tenant_id event) (br_id row) (@now_published O2)) (wk_bronze s1) /\
    wk_outbox s2 = wk_outbox s1 ++ [env] /\ refers env row.
Proof.
  destruct (crashed_after_insert _ _ _ _ _ Hcrash Hrow Hstatus) as (data & pf & Hloc & Hl & Hpf & _ & Er).
  assert (exists env, build_ingress_ready event (br_trace_id row) (br_id row) (br_received_at row) (pf_delimiter pf) = Ok env) as [env Hb].
  { specialize (Hdelimiter _ _ Hpf). unfold build_ingress_ready. apply String.eqb_neq in Hsource, Huri. rewrite Hsource, Huri.
    destruct (pf_delimiter pf) as [|c [|]]; [done| |done]. eexists. reflexivity. }
  assert (@resumes O2 event data row env) as Hres.
  { split; [by rewrite Hstatus|]. split; [by subst row|]. exists pf. by rewrite Hpreflight. }
  assert (@looked_up _ O2 event data (wk_bronze s1) (Some row)) as Hl2.
  { rewrite Hrow, (map_same (_ ++ _)). change (Some row) with (Some ((fun r => r) row)). apply found_again; try done; [apply (rd_when Hagain)|].
    subst row. by apply new_row_key, (rd_when Hagain). }
  destruct (@resume_run O2 event data row env s1 Hhealthy Hres) as (s2 & Hrun & Hcore).
  exists env, s2. rewrite (ingest_found _ _ event data row) by (done || by apply located_again).
  split; [rewrite Hrun; by subst row|]. split; [exact (f_equal fst Hcore)|]. split; [exact (f_equal snd Hcore)|].
  eapply build_refers; [exact Hb|done| |done|done|by rewrite Hstatus]. by subst row.
Qed.
End Again.

(** ** From the worker to the consumer *)

(** The consumer's lookup of a bronze row: under the tenant, by id and trace. *)
Definition bronze_lookup (rows : list BronzeRow) (tenant id trace : uuid) : option BronzeRow :=
  head (filter (fun row => br_tenant_id row = tenant /\ br_id row = id /\ br_trace_id row = trace) rows).

Definition meta_of (row : BronzeRow) : BronzeMeta :=
  mkBronzeMeta (br_id row) (br_source_id row) (br_dis_channel row) (br_gcs_uri row) (br_received_at row) (br_row_count row).

(** Worker and consumer read the same bronze table. *)
Definition shares_bronze (C : Outside) (s : worker_state) : Prop :=
  forall tenant id trace, @bronze_row C tenant id trace = Ok (meta_of <$> bronze_lookup (wk_bronze s) tenant id trace).

Lemma bronze_lookup_some rows tenant id trace row :
  bronze_lookup rows tenant id trace = Some row ->
  row ∈ rows /\ br_tenant_id row = tenant /\ br_id row = id /\ br_trace_id row = trace.
Proof.
  unfold bronze_lookup. destruct (filter _ rows) as [|r rs] eqn:Hf; [done|]. intros [= ->].
  assert (row ∈ filter (fun row => br_tenant_id row = tenant /\ br_id row = id /\ br_trace_id row = trace) rows) as Hin
    by (rewrite Hf; left).
  apply list_elem_of_filter in Hin. tauto.
Qed.

Lemma bronze_lookup_fresh rows row : (forall r, r ∈ rows -> br_id r <> br_id row) ->
  bronze_lookup (rows ++ [row]) (br_tenant_id row) (br_id row) (br_trace_id row) = Some row.
Proof.
  intros Hfresh. unfold bronze_lookup. induction rows as [|r rows IH]; cbn [app].
  - by rewrite filter_cons_True.
  - rewrite filter_cons_False by (intros (_ & Hid & _); apply (Hfresh r); [left|done]). apply IH. intros r' Hr'. apply Hfresh. by right.
Qed.

Lemma map_stamp_fresh tenant id t rows row : (forall r, r ∈ rows -> br_id r <> id) ->
  map (stamp tenant id t) (rows ++ [row]) = rows ++ [stamp tenant id t row].
Proof.
  intros Hfresh. rewrite map_app. f_equal. rewrite <- (map_id rows) at 2. apply map_ext_in. intros r Hr.
  unfold stamp. assert (br_id r <> id) as Hne by (by apply Hfresh, list_elem_of_In). apply String.eqb_neq in Hne. by rewrite Hne.
Qed.

Lemma build_fields event trace ref received delimiter env :
  build_ingress_ready event trace ref received delimiter = Ok env ->
  ev_trace_id (env_ready env) = trace /\ ev_bronze_ref (env_ready env) = ref /\ ev_tenant_id (env_ready env) = cr_tenant_id event /\
  ev_source_id (env_ready env) = cr_source_id event /\ ev_gcs_uri (env_ready env) = cr_gcs_uri event.
Proof.
  unfold build_ingress_ready. intros Hb. apply bind_ok in Hb as (_ & _ & Hb).
  destruct delimiter as [|c [|]]; [done| |done]. injection Hb as <-. done.
Qed.

Section Handover.
Context `{Codec} (O : WorkerOutside) (C : Outside) (bronze_bucket : string) (pii_backend : bool).

Lemma located_cross_check event data env : located bronze_bucket event data ->
  ev_gcs_uri (env_ready env) = cr_gcs_uri event -> ev_tenant_id (env_ready env) = cr_tenant_id event ->
  ev_source_id (env_ready env) = cr_source_id event ->
  exists key, cross_check_path bronze_bucket (env_ready env) = Ok key /\ object_bytes key = Ok data.
Proof.
  intros (key & parsed & Hs & Hp & Ht & Hsrc & _ & _ & Hd) Hu Hte Hso. exists key. split; [|done].
  unfold cross_check_path. rewrite Hu, Hs. cbn [mbind result_bind]. rewrite String.eqb_refl. cbn [negb raise_if mbind result_bind].
  rewrite Hp. cbn [mbind result_bind]. by rewrite Ht, Hsrc, Hte, Hso, !String.eqb_refl.
Qed.

(** What the worker publishes for a fresh file the consumer accepts: the message
    passes the consumer's path check with the key of the very bytes the worker
    checked, and its bronze reference reads the row the worker wrote, whose channel
    the quarantine knows. *)
Theorem consumer_accepts_fresh event s outcome s1
    (Hingest : ingest bronze_bucket pii_backend event s = (Ok outcome, s1)) (Hfresh : in_disposition outcome = ingested)
    (Hid : forall row, row ∈ wk_bronze s -> br_id row <> new_uuid7) (Hshared : shares_bronze C s1) :
  exists env key data row, wk_outbox s1 = wk_outbox s ++ [env] /\
    cross_check_path bronze_bucket (env_ready env) = Ok key /\ object_bytes key = Ok data /\
    row ∈ wk_bronze s1 /\ br_payload_sha256 row = sha256_hex data /\
    @read_bronze_row C (env_ready env) = Ok (meta_of row) /\ br_dis_channel row ∈ DIS_CHANNELS.
Proof.
  destruct (ingest_ends bronze_bucket pii_backend event s) as (t & Hc & Hends). rewrite Hingest in Hc, Hends. cbn [fst snd] in *.
  inversion Hends as [data t' Hloc Hl Hft Hlen| | | | | | |]; subst; try done.
  destruct Hft as [| |pf row env (Hpf & _ & Hrow) Hb]; [done..|].
  pose proof (build_fields _ _ _ _ _ _ Hb) as (Etr & Eref & Ete & Eso & Euri).
  destruct (located_cross_check event data env Hloc Euri Ete Eso) as (key & Hkey & Hd).
  assert (wk_bronze s1 = wk_bronze s ++ [stamp (cr_tenant_id event) new_uuid7 now_published row]) as Hb1
    by (rewrite <- map_stamp_fresh by done; exact (f_equal fst Hc)).
  set (row' := stamp (cr_tenant_id event) new_uuid7 now_published row) in *.
  assert (br_tenant_id row' = cr_tenant_id event /\ br_id row' = new_uuid7 /\ br_trace_id row' = cr_trace_id event /\
          br_source_id row' = cr_source_id event /\ br_gcs_uri row' = cr_gcs_uri event /\ br_dis_channel row' = DIS_CHANNEL /\
          br_payload_sha256 row' = sha256_hex data) as (Rt & Ri & Rtr & Rs & Ru & Rc & Rsha)
    by (subst row' row; unfold stamp; cbn; rewrite !String.eqb_refl; by cbn).
  exists env, key, data, row'. split; [exact (f_equal snd Hc)|]. split; [done|]. split; [done|]. split; [rewrite Hb1; set_solver|].
  split; [done|]. split; [|rewrite Rc; apply (bool_decide_unpack _); by vm_compute].
  unfold read_bronze_row. rewrite Hshared, Hb1, Ete, Eref, Etr, <- Rt, <- Ri, <- Rtr.
  rewrite bronze_lookup_fresh by (intros r Hr; rewrite Ri; by apply Hid). cbn [fmap option_fmap option_map mbind result_bind].
  cbn [meta_of bronze_source_id bronze_gcs_uri]. by rewrite Rs, Ru, Eso, Euri, !String.eqb_refl.
Qed.
End Handover.

(** An event whose bronze reference does not read is never held: the failure comes
    before the channel is known, so the catch-all raises it again. *)
Lemma unread_bronze_raises `{Polars, Codec, Pandera, Outside} bronze_bucket batch_size event w e0 :
  read_bronze_row event = Err e0 ->
  exists e, (process bronze_bucket batch_size event w).1 = Err e /\
    w_held (process bronze_bucket batch_size event w).2 = w_held w /\ w_db (process bronze_bucket batch_size event w).2 = w_db w.
Proof.
  intros Hread. set (s0 := mkFlow empty_ctx w).
  assert (exists e, fetch_chunk bronze_bucket event s0 = (Err (mkRaised e None), s0)) as [e1 Hf].
  { unfold fetch_chunk, mbind, flow_bind, lift. destruct (cross_check_path bronze_bucket event) as [key|e]; [|by eexists].
    rewrite Hread. by eexists. }
  assert (process_body bronze_bucket batch_size event s0 = (Err (mkRaised e1 (Some RECEIVED)), s0)) as Hb.
  { unfold process_body, seen_before, mbind, flow_bind, get_state, staged. cbv beta iota. unfold mret, flow_ret. cbv beta iota.
    by rewrite Hf. }
  assert (forall ev, exists s1, emit ev s0 = (Ok tt, s1) /\ w_held (fl_world s1) = w_held w /\ w_db (fl_world s1) = w_db w) as Hem.
  { intros ev. destruct (emit_run ev s0) as (s1 & He & [Hd Hh _] & _). exists s1. by rewrite Hd, Hh. }
  edestruct Hem as (s1 & He & Hh & Hd).
  assert (on_exception event (mkRaised e1 (Some RECEIVED)) s0 = (Err (mkRaised e1 (Some RECEIVED)), s1)) as Hon.
  { unfold on_exception, mbind, flow_bind, get_state. cbn [fst snd fl_ctx s0 empty_ctx r_stage r_exn default from_option id].
    rewrite He. unfold quarantinable. cbn [ctx_dis_channel empty_ctx]. by destruct (negb _). }
  unfold process, try_with. fold s0. rewrite Hb, Hon. by eexists.
Qed.

Section Retry.
Context `{Polars, Codec, Pandera} (O : WorkerOutside) (C : Outside) (bronze_bucket : string) (pii_backend : bool) (batch_size : nat).

(** A retried upload is lost.  The session id is a function of the content, so
    uploading the same file again makes an event with the same key, a new trace and a
    new location.  When the first attempt's publish was lost, the worker resumes it
    with the prior row's id and trace but the new location; the consumer compares the
    location with the row's, refuses the message on every delivery and holds nothing,
    while the row is stamped PUBLISHED and so every later delivery is a no-op. *)
Theorem retried_upload_lost event s id trace s1
    (Hresume : ingest bronze_bucket pii_backend event s = (Ok (mkIngest duplicate_resumed trace (Some id)), s1))
    (Hmoved : forall row, row ∈ wk_bronze s -> br_id row = id -> br_gcs_uri row <> cr_gcs_uri event)
    (Hshared : shares_bronze C s1) :
  (exists env, wk_outbox s1 = wk_outbox s ++ [env] /\
     @read_bronze_row C (env_ready env) = Err (EventContractError (Some "bronze_ref")) /\
     forall w, exists e, (@process _ _ _ C bronze_bucket batch_size (env_ready env) w).1 = Err e /\
       w_held (@process _ _ _ C bronze_bucket batch_size (env_ready env) w).2 = w_held w) /\
  (forall row, row ∈ wk_bronze s1 -> br_id row = id -> br_tenant_id row = cr_tenant_id event -> is_published row = true).
Proof.
  destruct (ingest_ends bronze_bucket pii_backend event s) as (t & Hc & Hends). rewrite Hresume in Hc, Hends. cbn [fst snd] in *.
  inversion Hends as [| |data prior env Hloc Hl (Hf & Hp & pf & Hpf & Hb) Er| | | | |]; subst.
  assert (wk_bronze s1 = map (stamp (cr_tenant_id event) (br_id prior) now_published) (wk_bronze s)) as Hb1 by exact (f_equal fst Hc).
  pose proof (build_fields _ _ _ _ _ _ Hb) as (Etr & Eref & Ete & Eso & Euri).
  assert (@read_bronze_row C (env_ready env) = Err (EventContractError (Some "bronze_ref"))) as Hread.
  { unfold read_bronze_row. rewrite Hshared. destruct (bronze_lookup _ _ _ _) as [row|] eqn:Hlk; [|done].
    apply bronze_lookup_some in Hlk as (Hin & _ & Hid & _). rewrite Hb1 in Hin. apply list_elem_of_fmap in Hin as (old & -> & Hold).
    assert (br_id (stamp (cr_tenant_id event) (br_id prior) now_published old) = br_id old /\
            br_gcs_uri (stamp (cr_tenant_id event) (br_id prior) now_published old) = br_gcs_uri old) as [Ei Eu]
      by (unfold stamp; by destruct (_ && _)).
    cbn [fmap option_fmap option_map mbind result_bind meta_of bronze_source_id bronze_gcs_uri]. rewrite Eu, Euri.
    rewrite Ei, Eref in Hid. apply Hmoved in Hold; [|done]. apply String.eqb_neq in Hold. by rewrite Hold, orb_true_r. }
  split.
  - exists env. split; [exact (f_equal snd Hc)|]. split; [done|]. intros w.
    destruct (unread_bronze_raises bronze_bucket batch_size _ w _ Hread) as (e & He & Hh & _). by exists e.
  - intros row Hin Hid Hte. rewrite Hb1 in Hin. apply list_elem_of_fmap in Hin as (old & -> & Hold).
    unfold stamp in *. destruct (String.eqb_spec (br_id old) (br_id prior)) as [E1|E1];
      destruct (String.eqb_spec (br_tenant_id old) (cr_tenant_id event)) as [E2|E2]; cbn [andb] in *; congruence || done.
Qed.
End Retry.

(** ** Evaluated *)

Definition after_first : worker_state := (sample_delivery (sample_worker 900 1000 1001 Done Done Done) "t1" no_rows).2.
Definition lost : Effect := Failed (OtherError "unreachable").
Definition after_crash : worker_state := (sample_delivery (sample_worker 900 1000 1001 Done lost Done) "t1" no_rows).2.
Definition after_retry : worker_state := (sample_delivery (sample_worker 2000 2001 2002 Done Done Done) "t2" after_crash).2.

Lemma sample_redelivered i p m : redelivered (sample_worker 900 1000 1001 i p m) (sample_worker 2000 2001 2002 Done Done Done).
Proof. split; [done|]. split; [done| |]; by vm_compute. Qed.

Lemma redelivery_absorbed_witness :
  exists s2, sample_delivery (sample_worker 2000 2001 2002 Done Done Done) "t1" after_first = (Ok (mkIngest duplicate_noop "t1" (Some "b-1")), s2) /\
    core s2 = core after_first.
Proof.
  apply (@redelivery_absorbed sample_codec (sample_worker 900 1000 1001 Done Done Done) (sample_worker 2000 2001 2002 Done Done Done) _ _
    "bronze" false (upload_event "t1") no_rows (mkIngest ingested "t1" (Some "b-1")) after_first).
  - apply sample_redelivered.
  - vm_compute. reflexivity.
  - left. reflexivity.
Defined.

Definition crashed_row : BronzeRow := mkBronzeRow "b-1" "11111111-1111-1111-1111-111111111111" "store" "pos" "csv_upload" "t1" (upload_uri "t1")
  12 (@sha256_hex sample_codec "sku,qty A1,4") (Some 1%Z) "text/csv" "us_0123456789ab" "template" 1000 "RECEIVED" None.

Lemma lost_publish_completed_witness :
  exists env s2, sample_delivery (sample_worker 2000 2001 2002 Done Done Done) "t1" after_crash =
      (Ok (mkIngest duplicate_resumed "t1" (Some "b-1")), s2) /\ wk_outbox s2 = wk_outbox after_crash ++ [env] /\ refers env crashed_row.
Proof.
  destruct (@lost_publish_completed sample_codec (sample_worker 900 1000 1001 Done lost Done) (sample_worker 2000 2001 2002 Done Done Done) _ _
    "bronze" false (upload_event "t1") no_rows (OtherError "unreachable") after_crash crashed_row) as (env & s2 & Hrun & _ & Hout & Href).
  - apply sample_redelivered.
  - by repeat split.
  - intros data. reflexivity.
  - intros data pf. unfold run_preflight. cbn. destruct (str_all is_byte_space data); [discriminate|]. intros [= <-]. reflexivity.
  - discriminate.
  - discriminate.
  - vm_compute. reflexivity.
  - vm_compute. reflexivity.
  - reflexivity.
  - exists env, s2. split; [exact Hrun|]. split; [exact Hout|exact Href].
Defined.

(** A consumer that reads the worker's table. *)
Definition sharing_outside (s : worker_state) : Outside := {|
  bronze_row tenant id trace := Ok (meta_of <$> bronze_lookup (wk_bronze s) tenant id trace);
  download_bytes key := Ok "sku,qty A1,4";
  read_csv sep data := Err ValueError;
  store_row tenant store := Ok None;
  select_active tenant source template := Ok None;
  model_validate rules := Err ValidationError;
  accepts := sample_accepts;
  select_priors := no_priors;
  fresh_row_ids := sample_ids;
  fresh_hot_ids := sample_ids;
  audit_readback log trace := Ok false;
  audit_lands ev := true;
  chunk_insert_fails c := false;
  rows_insert_fails rs := false
|}.

Lemma consumer_accepts_fresh_witness :
  exists env row, wk_outbox after_first = [env] /\ row ∈ wk_bronze after_first /\
    @read_bronze_row (sharing_outside after_first) (env_ready env) = Ok (meta_of row).
Proof.
  destruct (@consumer_accepts_fresh sample_codec (sample_worker 900 1000 1001 Done Done Done) (sharing_outside after_first)
    "bronze" false (upload_event "t1") no_rows (mkIngest ingested "t1" (Some "b-1")) after_first)
    as (env & key & data & row & Hout & _ & _ & Hin & _ & Hread & _).
  - vm_compute. reflexivity.
  - reflexivity.
  - intros row []%elem_of_nil.
  - intros tenant id trace. reflexivity.
  - exists env, row. split; [exact Hout|]. split; [exact Hin|exact Hread].
Defined.

Lemma retried_upload_lost_witness :
  exists env, wk_outbox after_retry = [env] /\
    @read_bronze_row (sharing_outside after_retry) (env_ready env) = Err (EventContractError (Some "bronze_ref")).
Proof.
  destruct (@retried_upload_lost sample_polars sample_codec sample_pandera (sample_worker 2000 2001 2002 Done Done Done)
    (sharing_outside after_retry) "bronze" false 2 (upload_event "t2") after_crash "b-1" "t1" after_retry) as [(env & Hout & Hread & _) _].
  - vm_compute. reflexivity.
  - intros row Hin _. assert (row = crashed_row) as ->; [|vm_compute; discriminate].
    assert (wk_bronze after_crash = [crashed_row]) as E by (vm_compute; reflexivity). rewrite E in Hin. by apply list_elem_of_singleton in Hin.
  - intros tenant id trace. reflexivity.
  - exists env. split; [exact Hout|exact Hread].
Defined.
