(* ===== verification/UiErrors.v ===== *)
(** UiErrors: the error classes of [dis_core/errors.py] and their HTTP responses
    (dis-ui-server, [errors_http.py]).

    [Class.error_class] is the hierarchy by class; [ui_exn] is what the handlers
    of the service raise, with the attributes a handler reads.  [status_of] is
    the response a request ends with when the exception reaches the app. *)

From S2P Require Import Prelude Text Values Transform Provenance.

Module Class.
Inductive error_class : Type :=
| DisError | IdentityClientError | IdentityNotFoundError | IdentityServiceUnavailableError | RlsContextError
| PiiBackendNotConfiguredError | StorageError | AuditWriteError | QuarantineWriteError | MappingError
| MappingConfigError | InvalidTemplateTypeError | MappingInputError | ValidationSuiteError
| SuiteDefinitionError | SuiteDriftError | EnrichmentError | HotPositionMissingError | SinkResolutionError
| MirrorSyncError | CustomerMasterReadError | CsvIngestError | EventContractError | EventPathMismatchError
| PreflightFailedError | AuthTokenError | TenantScopeError | OpsRoleRequiredError | SuperAdminRequiredError
| DraftNotRatifiedError | DraftStateConflictError | ResourceNotFoundError | MappingTemplateNameConflictError
| MappingStateConflictError | FieldCatalogDriftError | PayloadTooLargeError | UploadRequestError
| UploadStructureError | StoreStateConflictError | EventPublishError | CmPermissionsClientError
| CmPermissionsUnavailableError.

(** The declared base class; only [DisError] has none within the hierarchy. *)
Definition base_class (c : error_class) : option error_class :=
  match c with
  | DisError => None
  | IdentityNotFoundError | IdentityServiceUnavailableError => Some IdentityClientError
  | MappingConfigError | InvalidTemplateTypeError | MappingInputError => Some MappingError
  | SuiteDefinitionError | SuiteDriftError => Some ValidationSuiteError
  | CustomerMasterReadError => Some MirrorSyncError
  | EventContractError | EventPathMismatchError | PreflightFailedError => Some CsvIngestError
  | CmPermissionsUnavailableError => Some CmPermissionsClientError
  | _ => Some DisError
  end.

(** [type(exc).__name__] *)
Definition class_name (c : error_class) : string :=
  match c with
  | DisError => "DisError"
  | IdentityClientError => "IdentityClientError"
  | IdentityNotFoundError => "IdentityNotFoundError"
  | IdentityServiceUnavailableError => "IdentityServiceUnavailableError"
  | RlsContextError => "RlsContextError"
  | PiiBackendNotConfiguredError => "PiiBackendNotConfiguredError"
  | StorageError => "StorageError"
  | AuditWriteError => "AuditWriteError"
  | QuarantineWriteError => "QuarantineWriteError"
  | MappingError => "MappingError"
  | MappingConfigError => "MappingConfigError"
  | InvalidTemplateTypeError => "InvalidTemplateTypeError"
  | MappingInputError => "MappingInputError"
  | ValidationSuiteError => "ValidationSuiteError"
  | SuiteDefinitionError => "SuiteDefinitionError"
  | SuiteDriftError => "SuiteDriftError"
  | EnrichmentError => "EnrichmentError"
  | HotPositionMissingError => "HotPositionMissingError"
  | SinkResolutionError => "SinkResolutionError"
  | MirrorSyncError => "MirrorSyncError"
  | CustomerMasterReadError => "CustomerMasterReadError"
  | CsvIngestError => "CsvIngestError"
  | EventContractError => "EventContractError"
  | EventPathMismatchError => "EventPathMismatchError"
  | PreflightFailedError => "PreflightFailedError"
  | AuthTokenError => "AuthTokenError"
  | TenantScopeError => "TenantScopeError"
  | OpsRoleRequiredError => "OpsRoleRequiredError"
  | SuperAdminRequiredError => "SuperAdminRequiredError"
  | DraftNotRatifiedError => "DraftNotRatifiedError"
  | DraftStateConflictError => "DraftStateConflictError"
  | ResourceNotFoundError => "ResourceNotFoundError"
  | MappingTemplateNameConflictError => "MappingTemplateNameConflictError"
  | MappingStateConflictError => "MappingStateConflictError"
  | FieldCatalogDriftError => "FieldCatalogDriftError"
  | PayloadTooLargeError => "PayloadTooLargeError"
  | UploadRequestError => "UploadRequestError"
  | UploadStructureError => "UploadStructureError"
  | StoreStateConflictError => "StoreStateConflictError"
  | EventPublishError => "EventPublishError"
  | CmPermissionsClientError => "CmPermissionsClientError"
  | CmPermissionsUnavailableError => "CmPermissionsUnavailableError"
  end.
End Class.


Global Instance error_class_eq_dec : EqDecision Class.error_class.
Proof. solve_decision. Defined.

(** [type(exc).__mro__], as far as [DisError]: the fuel is the depth of the
    hierarchy, see [mro_complete]. *)
Fixpoint mro_from (fuel : nat) (c : Class.error_class) : list Class.error_class :=
  match fuel with
  | O => []
  | S n => c :: match Class.base_class c with Some b => mro_from n b | None => [] end
  end.

Definition mro : Class.error_class -> list Class.error_class := mro_from 3.

(** ** The exceptions of the service *)

Inductive ui_exn : Type :=
| Lib (e : exn)                                    (* raised by a shared library *)
| PlainDisError
| AuthTokenError (reason : string)
| TenantScopeError
| OpsRoleRequiredError
| SuperAdminRequiredError
| CmPermissionsClientError (status_code : option Z)
| CmPermissionsUnavailableError
| InvalidTemplateTypeError (template_type : option string)
| ResourceNotFoundError (resource identifier : string)
| MappingTemplateNameConflictError (source_id template_name : string)
| MappingStateConflictError (expected actual : string)
| FieldCatalogDriftError (missing stale : list string)
| PayloadTooLargeError (limit_bytes observed_bytes : Z)
| UploadRequestError (part : option string)
| UploadStructureError (reason : string)
| StoreStateConflictError (actual : string)
| EventPublishError
| DraftNotRatifiedError (violations : list string)
| DraftStateConflictError (draft_id expected actual : option string)
| RequestValidationError                           (* FastAPI: the body does not fit its model *)
| DatabaseError (sqlstate : string).               (* what a handler does not translate *)

Abbreviation ures A := (result ui_exn A).

Definition ui {A} (r : res A) : ures A := match r with Ok a => Ok a | Err e => Err (Lib e) end.

(** The class of an exception; [None] when it is not a [DisError]. *)
Definition lib_class (e : exn) : option Class.error_class :=
  match e with
  | MappingConfigError _ => Some Class.MappingConfigError
  | MappingInputError _ => Some Class.MappingInputError
  | SuiteDefinitionError _ _ => Some Class.SuiteDefinitionError
  | SuiteDriftError _ _ => Some Class.SuiteDriftError
  | EnrichmentError _ => Some Class.EnrichmentError
  | HotPositionMissingError _ => Some Class.HotPositionMissingError
  | SinkResolutionError _ _ => Some Class.SinkResolutionError
  | EventContractError _ => Some Class.EventContractError
  | EventPathMismatchError _ => Some Class.EventPathMismatchError
  | PreflightFailedError _ => Some Class.PreflightFailedError
  | StorageError => Some Class.StorageError
  | QuarantineWriteError _ => Some Class.QuarantineWriteError
  | RlsContextError => Some Class.RlsContextError
  | PiiBackendNotConfiguredError _ => Some Class.PiiBackendNotConfiguredError
  | NaiveDatetimeError | ValidationError | KeyError _ | TypeError | ValueError | OtherError _ => None
  end.

Definition class_of (e : ui_exn) : option Class.error_class :=
  match e with
  | Lib e' => lib_class e'
  | PlainDisError => Some Class.DisError
  | AuthTokenError _ => Some Class.AuthTokenError
  | TenantScopeError => Some Class.TenantScopeError
  | OpsRoleRequiredError => Some Class.OpsRoleRequiredError
  | SuperAdminRequiredError => Some Class.SuperAdminRequiredError
  | CmPermissionsClientError _ => Some Class.CmPermissionsClientError
  | CmPermissionsUnavailableError => Some Class.CmPermissionsUnavailableError
  | InvalidTemplateTypeError _ => Some Class.InvalidTemplateTypeError
  | ResourceNotFoundError _ _ => Some Class.ResourceNotFoundError
  | MappingTemplateNameConflictError _ _ => Some Class.MappingTemplateNameConflictError
  | MappingStateConflictError _ _ => Some Class.MappingStateConflictError
  | FieldCatalogDriftError _ _ => Some Class.FieldCatalogDriftError
  | PayloadTooLargeError _ _ => Some Class.PayloadTooLargeError
  | UploadRequestError _ => Some Class.UploadRequestError
  | UploadStructureError _ => Some Class.UploadStructureError
  | StoreStateConflictError _ => Some Class.StoreStateConflictError
  | EventPublishError => Some Class.EventPublishError
  | DraftNotRatifiedError _ => Some Class.DraftNotRatifiedError
  | DraftStateConflictError _ _ _ => Some Class.DraftStateConflictError
  | RequestValidationError | DatabaseError _ => None
  end.

Definition is_dis_error (e : ui_exn) : bool := match class_of e with Some _ => true | None => false end.

(** ** Status and code of the response *)

Definition STATUS_BY_ERROR (c : Class.error_class) : option Z :=
  match c with
  | Class.AuthTokenError => Some 401
  | Class.TenantScopeError | Class.OpsRoleRequiredError | Class.SuperAdminRequiredError => Some 403
  | Class.CmPermissionsClientError => Some 503
  | Class.DraftNotRatifiedError => Some 422
  | Class.DraftStateConflictError => Some 409
  | Class.MappingConfigError | Class.InvalidTemplateTypeError => Some 400
  | Class.ResourceNotFoundError => Some 404
  | Class.MappingTemplateNameConflictError | Class.MappingStateConflictError => Some 409
  | Class.RlsContextError => Some 500
  | Class.UploadRequestError => Some 400
  | Class.PayloadTooLargeError => Some 413
  | Class.UploadStructureError => Some 422
  | Class.StoreStateConflictError => Some 409
  | Class.StorageError | Class.EventPublishError => Some 503
  | _ => None
  end%Z.

Definition FALLBACK_STATUS : Z := 500.

Fixpoint first_status (classes : list Class.error_class) : Z :=
  match classes with
  | [] => FALLBACK_STATUS
  | c :: cs => match STATUS_BY_ERROR c with Some s => s | None => first_status cs end
  end.

Definition status_for (c : Class.error_class) : Z := first_status (mro c).

(** [_CAMEL_BOUNDARY.sub("_", name).lower()]: an underscore before every capital
    but the first character. *)
Fixpoint camel_tail (s : string) : string :=
  match s with
  | EmptyString => EmptyString
  | String c s' => if is_upper c then String "_" (String (lower_char c) (camel_tail s')) else String c (camel_tail s')
  end.

Definition snake (s : string) : string :=
  match s with EmptyString => EmptyString | String c s' => String (lower_char c) (camel_tail s') end.

(** [s.removesuffix(suffix)] *)
Definition remove_suffix (suffix s : string) : string :=
  let n := (String.length s - String.length suffix)%nat in
  if String.eqb (String.substring n (String.length suffix) s) suffix && (String.length suffix <=? String.length s)%nat
  then String.substring 0 n s else s.

Definition code_for (c : Class.error_class) : string := remove_suffix "_error" (snake (Class.class_name c)).

(** The status a request ends with: the handlers of [register_error_handlers],
    and the framework's 500 for anything else. *)
Definition status_of (e : ui_exn) : Z :=
  match class_of e with
  | Some c => status_for c
  | None => match e with RequestValidationError => 422%Z | _ => 500%Z end
  end.

(** ** The hierarchy *)

(** Every walk ends at the root. *)
Lemma mro_complete c : last (mro c) = Some Class.DisError.
Proof. by destruct c. Qed.

(** More fuel adds nothing. *)
Lemma mro_fuel c n : (3 <= n)%nat -> mro_from n c = mro c.
Proof.
  intros Hn. destruct n as [|[|[|n]]]; [lia..|]. by destruct c; destruct n.
Qed.

(** A subclass without a status of its own has that of its base. *)
Lemma status_inherited c b : Class.base_class c = Some b -> STATUS_BY_ERROR c = None -> status_for c = status_for b.
Proof. destruct c; intros [= <-] Hs; vm_compute in Hs |- *; congruence. Qed.

(** The codes on the wire tell the classes apart. *)
Lemma code_for_inj c d : code_for c = code_for d -> c = d.
Proof. destruct c, d; intros H; first [reflexivity | vm_compute in H; discriminate H]. Qed.
