(* ===== verification/Access.v ===== *)
(** Access: who a request acts for (dis-ui-server, [auth/identity.py],
    [auth/verifier.py], [auth/cm_permissions.py], [auth/scope.py],
    [handlers/me.py]).

    A request carries at most an Authorization header.  The identity is read from
    the claims of the verified token; the scope of a read and the tenant of a
    write are decided from that identity.  PyJWT (key lookup and decoding) and
    the HTTP call to Customer Master are parameters. *)

From S2P Require Import Prelude Text Values Transform Provenance Paths UiErrors.

(** ** Identities *)

Inductive UserType : Type := TENANT | PLATFORM.

Global Instance UserType_eq_dec : EqDecision UserType.
Proof. solve_decision. Defined.

Record Identity := mkIdentity {
  id_user_id : string;
  id_tenant_id : option string;
  id_store_id : option string;
  id_roles : list string;
  id_user_type : UserType
}.

Definition OPS_ROLE : string := "dis:ops".
Definition SUPER_ADMIN_ROLE : string := "atlas:schema:publish".

(** ** Claims of a verified token *)

Definition CLAIMS_NAMESPACE : string := "https://sevyn8.com/".
Definition CLAIM_USER_ID : string := CLAIMS_NAMESPACE +:+ "user_id".
Definition CLAIM_USER_TYPE : string := CLAIMS_NAMESPACE +:+ "user_type".
Definition CLAIM_TENANT_ID : string := CLAIMS_NAMESPACE +:+ "tenant_id".
Definition CLAIM_STORE_ID : string := CLAIMS_NAMESPACE +:+ "store_id".
Definition CLAIM_ROLES : string := CLAIMS_NAMESPACE +:+ "roles".

Definition bad_claims : ui_exn := AuthTokenError "bad_claims".

Definition optional_str_claim (claims : dict value) (name : string) : ures (option string) :=
  match dict_get claims name with
  | None | Some VNone => Ok None
  | Some (VStr s) => Ok (Some s)
  | Some _ => Err bad_claims
  end.

Definition required_str_claim (claims : dict value) (name : string) : ures string :=
  match dict_get claims name with
  | Some (VStr s) => if String.eqb s "" then Err bad_claims else Ok s
  | _ => Err bad_claims
  end.

Definition roles_claim (claims : dict value) (name : string) : ures (list string) :=
  match dict_get claims name with
  | None | Some VNone => Ok []
  | Some (VList l) => match as_str_list l with Some ss => Ok ss | None => Err bad_claims end
  | Some _ => Err bad_claims
  end.

Definition user_type_claim (claims : dict value) (name : string) : ures UserType :=
  match dict_get claims name with
  | Some (VStr s) =>
      if String.eqb s "" then Err bad_claims
      else if String.eqb s "TENANT" then Ok TENANT
      else if String.eqb s "PLATFORM" then Ok PLATFORM
      else Err bad_claims
  | _ => Err bad_claims
  end.

(** [bool(tenant_id)] for an optional string. *)
Definition present (s : option string) : bool :=
  match s with Some t => negb (String.eqb t "") | None => false end.

(** What PyJWT answers: an expired token, another [PyJWTError], or anything else. *)
Inductive jwt_failure : Type := ExpiredSignatureError | PyJWTError | UnexpectedJwtFailure.

(** What the HTTP client answers: the failures of httpx, or a status and the
    decoded body ([None]: the body does not decode as JSON). *)
Inductive http_reply : Type :=
| TimeoutException
| TransportError
| HttpRaised (class_name : string)
| Response (status_code : Z) (body : option value).

Record PermissionGrant := mkGrant {
  g_module : string;
  g_resource : string;
  g_action : string;
  g_scope : string;
  g_anchor_path : value
}.

Definition GRANT_TO_ROLE (g : PermissionGrant) : option string :=
  if String.eqb (g_module g) "ATLAS" && String.eqb (g_resource g) "SCHEMA" &&
     String.eqb (g_action g) "PUBLISH" && String.eqb (g_scope g) "GLOBAL"
  then Some "atlas:schema:publish" else None.

(** The set of roles, as a list. *)
Definition roles_from_grants (grants : list PermissionGrant) : list string := omap GRANT_TO_ROLE grants.

(** *** The body of [/me/permissions] *)

(** [repr(v)] of a decoded JSON value (decimals and dates never are one). *)
Fixpoint json_repr (v : value) : string :=
  match v with
  | VNone => "None"
  | VBool b => if b then "True" else "False"
  | VInt z => pretty z
  | VFloat r => r
  | VStr s => py_repr s
  | VList l => "[" +:+ str_join ", " (map json_repr l) +:+ "]"
  | VDict d => "{" +:+ str_join ", " (map (fun '(k, x) => py_repr k +:+ ": " +:+ json_repr x) d) +:+ "}"
  | VDecimal _ _ | VDate _ | VDatetime _ => ""
  end.

(** [str(v)] *)
Definition json_str (v : value) : string := match v with VStr s => s | _ => json_repr v end.

(** [v[key]] for a string key. *)
Definition subscript (v : value) (key : string) : res value :=
  match v with VDict d => arg d key | _ => Err TypeError end.

(** [for x in v] *)
Definition iterate (v : value) : res (list value) :=
  match v with
  | VList l => Ok l
  | VDict d => Ok (map (fun '(k, _) => VStr k) d)
  | VStr s => Ok (map (fun c => VStr (String c "")) (String.list_ascii_of_string s))
  | _ => Err TypeError
  end.

Definition ENVELOPE_KEY : string := "permissions".

Definition parse_grant (item : value) : res PermissionGrant :=
  m ← subscript item "module";
  r ← subscript item "resource";
  a ← subscript item "action";
  s ← subscript item "scope";
  match item with
  | VDict d => Ok (mkGrant (json_str m) (json_str r) (json_str a) (json_str s) (arg_get d "anchor_path" VNone))
  | _ => Err TypeError
  end.

Definition parse_permissions (status_code : Z) (body : option value) : ures (list PermissionGrant) :=
  match body with
  | None => Err (CmPermissionsClientError (Some status_code))
  | Some b =>
      match (items ← subscript b ENVELOPE_KEY; l ← iterate items; map_res parse_grant l) with
      | Ok grants => Ok grants
      | Err _ => Err (CmPermissionsClientError (Some status_code))
      end
  end.

(** ** The request *)

Record request := mkRequest { req_authorization : option string }.

Definition BEARER_PREFIX : string := "Bearer ".

(** [header[len(_BEARER_PREFIX):]] when the header starts with it. *)
Definition bearer_of (header : option string) : option string :=
  match header with
  | Some h => if String.prefix BEARER_PREFIX h then Some (String.substring 7 (String.length h - 7) h) else None
  | None => None
  end.

Definition extract_bearer (r : request) : ures string :=
  match bearer_of (req_authorization r) with Some t => Ok t | None => Err (AuthTokenError "missing_bearer") end.

Class AuthOutside := {
  (** key selection and [jwt.decode] with the pinned issuer, audience, algorithm
      and required claims *)
  jwt_decode : string -> result jwt_failure (dict value);
  (** [config.cm_base_url] *)
  cm_base_url : option string;
  (** [GET /api/v1/me/permissions] with this bearer *)
  cm_get : string -> http_reply
}.

Section Scope.
Context `{AuthOutside}.

Definition verify (raw : string) : ures Identity :=
  match jwt_decode raw with
  | Err ExpiredSignatureError => Err (AuthTokenError "expired")
  | Err _ => Err (AuthTokenError "invalid")
  | Ok claims =>
      _ ← required_str_claim claims "sub";
      user ← required_str_claim claims CLAIM_USER_ID;
      ty ← user_type_claim claims CLAIM_USER_TYPE;
      tenant ← optional_str_claim claims CLAIM_TENANT_ID;
      raise_if (bool_decide (ty = TENANT) && negb (present tenant)) bad_claims ≫= fun _ =>
      raise_if (bool_decide (ty = PLATFORM) && present tenant) bad_claims ≫= fun _ =>
      store ← optional_str_claim claims CLAIM_STORE_ID;
      roles ← roles_claim claims CLAIM_ROLES;
      Ok (mkIdentity user tenant store roles ty)
  end.

Definition get_current_identity (r : request) : ures Identity :=
  match bearer_of (req_authorization r) with
  | None => Err (AuthTokenError "missing_bearer")
  | Some token => verify token
  end.

(** *** Customer Master *)

Definition is_success (status_code : Z) : bool := (200 <=? status_code)%Z && (status_code <=? 299)%Z.

Definition get_permissions (bearer : string) : ures (list PermissionGrant) :=
  match cm_base_url with
  | None | Some "" => Err CmPermissionsUnavailableError
  | Some _ =>
      match cm_get bearer with
      | TimeoutException | TransportError => Err CmPermissionsUnavailableError
      | HttpRaised c => Err (Lib (OtherError c))
      | Response status body =>
          if is_success status then parse_permissions status body
          else Err (CmPermissionsClientError (Some status))
      end
  end.

Definition is_cm_error (e : ui_exn) : bool :=
  match e with CmPermissionsClientError _ | CmPermissionsUnavailableError => true | _ => false end.

Definition require_super_admin (r : request) : ures Identity :=
  identity ← get_current_identity r;
  token ← extract_bearer r;
  grants ← (match get_permissions token with
            | Ok g => Ok g
            | Err e => if is_cm_error e then Err e else Err CmPermissionsUnavailableError
            end);
  if mem SUPER_ADMIN_ROLE (roles_from_grants grants ++ id_roles identity) then Ok identity
  else Err SuperAdminRequiredError.

Record MeRolesResponse := mkMeRoles { me_roles : list string; me_resolved : bool }.

(** The roles as [sorted(set)]. *)
Definition get_my_roles (r : request) : ures MeRolesResponse :=
  identity ← get_current_identity r;
  token ← extract_bearer r;
  match get_permissions token with
  | Ok grants => Ok (mkMeRoles (py_sorted (remove_dups (roles_from_grants grants ++ id_roles identity))) true)
  | Err e => if is_cm_error e then Ok (mkMeRoles [] false) else Err e
  end.

(** *** Tenant scope *)

Definition require_tenant (r : request) : ures Identity :=
  identity ← get_current_identity r;
  match id_tenant_id identity with None => Err TenantScopeError | Some _ => Ok identity end.

Definition require_ops (r : request) : ures Identity :=
  identity ← get_current_identity r;
  if mem OPS_ROLE (id_roles identity) then Ok identity else Err OpsRoleRequiredError.

Definition tenant_uuid_of (identity : Identity) : ures uuid :=
  match id_tenant_id identity with
  | None => Err TenantScopeError
  | Some t => match py_uuid t with Some u => Ok u | None => Err TenantScopeError end
  end.

Record ReadScope := mkReadScope { rs_is_platform : bool; rs_tenant_id : option uuid }.
Record WriteScope := mkWriteScope { ws_user_type : UserType; ws_token_tenant : option uuid; ws_has_ops : bool }.

Definition require_read_scope (r : request) : ures ReadScope :=
  identity ← get_current_identity r;
  match id_user_type identity with
  | PLATFORM => if mem OPS_ROLE (id_roles identity) then Ok (mkReadScope true None) else Err OpsRoleRequiredError
  | TENANT => t ← tenant_uuid_of identity; Ok (mkReadScope false (Some t))
  end.

Definition require_write_scope (r : request) : ures WriteScope :=
  identity ← get_current_identity r;
  token_tenant ← (match id_user_type identity with
                  | TENANT => t ← tenant_uuid_of identity; Ok (Some t)
                  | PLATFORM => Ok None
                  end);
  Ok (mkWriteScope (id_user_type identity) token_tenant (mem OPS_ROLE (id_roles identity))).

Definition resolve_acted_for (scope : WriteScope) (body_tenant_id : option uuid) : ures uuid :=
  match ws_user_type scope with
  | TENANT =>
      match body_tenant_id, ws_token_tenant scope with
      | Some _, _ => Err TenantScopeError
      | None, None => Err TenantScopeError
      | None, Some t => Ok t
      end
  | PLATFORM =>
      if negb (ws_has_ops scope) then Err OpsRoleRequiredError
      else match body_tenant_id with None => Err TenantScopeError | Some t => Ok t end
  end.
End Scope.
