(* ===== verification/Rules.v ===== *)
(** Rules: the stored JSON document of a source mapping, and the interface of
    its pydantic model.

    [dump_rules] is [model_dump(mode="json")] and [decode_rules] reads a document
    whose values already have the declared types.  [RulesModel] states what the
    services rely on of [SourceMapping.model_validate]; [strict_rules] is the
    model that accepts such documents only, and satisfies it. *)

From S2P Require Import Prelude Text Values Transform SourceMapping.

(** ** Writing *)

Definition cast_type_name (t : CastType) : string :=
  match t with
  | CString => "string" | CInteger => "integer" | CDecimal => "decimal"
  | CDate => "date" | CDatetime => "datetime" | CBoolean => "boolean"
  end.

Definition opt_int (z : option Z) : value := match z with Some n => VInt n | None => VNone end.

Definition dump_spec (s : TransformSpec) : value := VDict [("op", VStr (op s)); ("args", VDict (args s))].

Definition dump_cast (c : CastSpec) : value :=
  VDict [("type", VStr (cast_type_name (cast_type c))); ("precision", opt_int (precision c)); ("scale", opt_int (scale c))].

Definition dump_dict {A} (f : A -> value) (d : dict A) : value := VDict (map (fun '(k, x) => (k, f x)) d).

Definition dump_rules (m : SourceMapping) : value :=
  VDict [("version", VInt (version m)); ("rename", dump_dict VStr (rename m));
         ("normalize", dump_dict (fun l => VList (map dump_spec l)) (normalize m));
         ("cast", dump_dict dump_cast (cast m));
         ("derive", dump_dict (fun l => VList (map dump_spec l)) (derive m))].

(** ** Reading *)

(** [extra="forbid"] *)
Definition only_keys (allowed : list string) (d : dict value) : bool := forallb (fun k => mem k allowed) (dict_keys d).

Definition as_dict (v : value) : option (dict value) := match v with VDict d => Some d | _ => None end.
Definition as_list (v : value) : option (list value) := match v with VList l => Some l | _ => None end.
Definition as_int (v : value) : option Z := match v with VInt z => Some z | _ => None end.

(** A model: its keys and nothing else. *)
Definition model_dict (allowed : list string) (v : value) : option (dict value) :=
  d ← as_dict v; if only_keys allowed d then Some d else None.

Definition decode_spec (v : value) : option TransformSpec :=
  d ← model_dict ["op"; "args"] v;
  o ← dict_get d "op" ≫= as_str;
  a ← as_dict (arg_get d "args" (VDict []));
  Some (mkTransformSpec o a).

Definition decode_cast_type (s : string) : option CastType :=
  if String.eqb s "string" then Some CString else if String.eqb s "integer" then Some CInteger
  else if String.eqb s "decimal" then Some CDecimal else if String.eqb s "date" then Some CDate
  else if String.eqb s "datetime" then Some CDatetime else if String.eqb s "boolean" then Some CBoolean else None.

Definition decode_opt_int (v : value) : option (option Z) :=
  match v with VNone => Some None | VInt z => Some (Some z) | _ => None end.

Definition decode_cast (v : value) : option CastSpec :=
  d ← model_dict ["type"; "precision"; "scale"] v;
  t ← dict_get d "type" ≫= as_str;
  ty ← decode_cast_type t;
  p ← decode_opt_int (arg_get d "precision" VNone);
  s ← decode_opt_int (arg_get d "scale" VNone);
  Some (mkCastSpec ty p s).

Fixpoint decode_entries {A} (f : value -> option A) (d : dict value) : option (dict A) :=
  match d with
  | [] => Some []
  | (k, v) :: d' => x ← f v; rest ← decode_entries f d'; Some ((k, x) :: rest)
  end.

Fixpoint decode_items {A} (f : value -> option A) (l : list value) : option (list A) :=
  match l with
  | [] => Some []
  | v :: l' => x ← f v; rest ← decode_items f l'; Some (x :: rest)
  end.

Definition decode_field {A} (f : value -> option A) (d : dict value) (key : string) : option (dict A) :=
  e ← as_dict (arg_get d key (VDict [])); decode_entries f e.

Definition decode_specs (v : value) : option (list TransformSpec) := l ← as_list v; decode_items decode_spec l.

Definition decode_rules (v : value) : option SourceMapping :=
  d ← model_dict ["version"; "rename"; "normalize"; "cast"; "derive"] v;
  ver ← dict_get d "version" ≫= as_int;
  ren ← decode_field as_str d "rename";
  nor ← decode_field decode_specs d "normalize";
  cas ← decode_field decode_cast d "cast";
  der ← decode_field decode_specs d "derive";
  Some (mkSourceMapping ver ren nor cas der).

(** ** The model's interface *)

Class RulesModel := {
  model_validate : value -> res SourceMapping;
  (** a document of the declared types builds its mapping and runs the model's
      validator *)
  validate_decoded raw m : decode_rules raw = Some m -> model_validate raw = construct m;
  (** whatever is accepted has passed the validator *)
  validate_checked raw m : model_validate raw = Ok m -> construct m = Ok m
}.

(** ** Round trip *)

Lemma decode_entries_dump {A} (f : value -> option A) (g : A -> value) (d : dict A) :
  (forall x, f (g x) = Some x) -> decode_entries f (map (fun '(k, x) => (k, g x)) d) = Some d.
Proof. intros Hf. induction d as [|[k x] d IH]; [done|]. cbn. by rewrite Hf, IH. Qed.

Lemma decode_items_dump {A} (f : value -> option A) (g : A -> value) (l : list A) :
  (forall x, f (g x) = Some x) -> decode_items f (map g l) = Some l.
Proof. intros Hf. induction l as [|x l IH]; [done|]. cbn. by rewrite Hf, IH. Qed.

Lemma decode_dump_spec s : decode_spec (dump_spec s) = Some s.
Proof. by destruct s. Qed.

Lemma decode_dump_cast c : decode_cast (dump_cast c) = Some c.
Proof. destruct c as [t p s]. by destruct t, p, s. Qed.

Lemma decode_dump_specs l : decode_specs (VList (map dump_spec l)) = Some l.
Proof. unfold decode_specs. cbn. apply decode_items_dump, decode_dump_spec. Qed.

(** Reading a written mapping gives it back. *)
Lemma decode_dump m : decode_rules (dump_rules m) = Some m.
Proof.
  unfold decode_rules, decode_field, arg_get. cbn -[decode_entries].
  rewrite (decode_entries_dump as_str VStr) by done.
  rewrite !(decode_entries_dump decode_specs) by apply decode_dump_specs.
  rewrite (decode_entries_dump decode_cast) by apply decode_dump_cast. cbn. by destruct m.
Qed.

Lemma construct_ok m m' : construct m = Ok m' -> m' = m.
Proof. unfold construct. destruct (validate_rules m); cbn; naive_solver. Qed.

(** What was validated, written and read again is the same mapping. *)
Lemma validate_dump `{RulesModel} raw m : model_validate raw = Ok m -> model_validate (dump_rules m) = Ok m.
Proof. intros Hm. rewrite (validate_decoded _ _ (decode_dump m)). by apply (validate_checked raw). Qed.

(** ** The strict model *)

Definition strict_validate (v : value) : res SourceMapping :=
  match decode_rules v with Some m => construct m | None => Err ValidationError end.

Lemma strict_decoded raw m : decode_rules raw = Some m -> strict_validate raw = construct m.
Proof. unfold strict_validate. by intros ->. Qed.

Lemma strict_checked raw m : strict_validate raw = Ok m -> construct m = Ok m.
Proof.
  unfold strict_validate. destruct (decode_rules raw) as [m'|]; [|done].
  intros Hc. by rewrite (construct_ok _ _ Hc) in Hc |- *.
Qed.

Definition strict_rules : RulesModel :=
  {| model_validate := strict_validate; validate_decoded := strict_decoded; validate_checked := strict_checked |}.
