(* ===== verification/TemplateGate.v ===== *)
(** TemplateGate: from a template request to the rules that are stored
    (dis-ui-server, [mapping_validation.py], [mapping_translation.py], the field
    reflection of [catalog/field_catalog.py] and the request models of
    [schemas/mapping_templates.py]).

    A create request names a destination per source column;
    [translate_columns_to_mapping_rules] writes the mapping document and
    [validate_mapping_rules_for_type] is the gate in front of every write. *)

From S2P Require Import Prelude Text Values Transform SourceMapping.
From S2P Require Import Canonical Provenance Enrichment HotMapping Rules UiErrors.

(** ** Field shapes *)

Inductive FieldDatatype : Type :=
| DText | DInteger | DNumber | DDate | DDatetime | DBoolean | DChoice | DJson.

Global Instance FieldDatatype_eq_dec : EqDecision FieldDatatype.
Proof. solve_decision. Defined.

(** The label of a declared type and its allowed values; a type the dispatch
    does not know (a UUID column) raises. *)
Definition datatype_and_values (t : field_type) : ures (FieldDatatype * option (list string)) :=
  match t with
  | FVocab members => Ok (DChoice, Some members)
  | FAny | FJsonObject => Ok (DJson, None)
  | FBool => Ok (DBoolean, None)
  | FInt | FBigInt => Ok (DInteger, None)
  | FNumeric _ _ => Ok (DNumber, None)
  | FDatetime => Ok (DDatetime, None)
  | FDate => Ok (DDate, None)
  | FStr _ | FCurrency => Ok (DText, None)
  | FUuid => Err (FieldCatalogDriftError [] [])
  end.

Definition max_digits (t : field_type) : option Z :=
  match t with FNumeric d _ => Some (Z.of_nat d) | _ => None end.
Definition decimal_places (t : field_type) : option Z :=
  match t with FNumeric _ s => Some (Z.of_nat s) | _ => None end.

(** [model.model_fields[name]] *)
Definition model_field (m : model) (name : string) : ures field :=
  match find_field m name with Some f => Ok f | None => Err (Lib (KeyError name)) end.

Definition reflect_field_shape (m : model) (name : string) : ures (FieldDatatype * option Z * option Z) :=
  f ← model_field m name;
  '(datatype, _) ← datatype_and_values (f_type f);
  Ok (datatype, max_digits (f_type f), decimal_places (f_type f)).

(** ** The create request *)

Record MappingColumn := mkMappingColumn {
  src_key : string;
  dest_key : string;
  src_datetime_format : option string;
  src_decimal_separator : option string;
  src_thousand_separator : option string;
  src_is_percentage : option bool
}.

Record MappingTemplateCreate := mkTemplateCreate {
  tc_source_id : string;
  tc_template_name : string;
  tc_template_type : string;
  tc_columns : list MappingColumn;
  tc_acting_for : option uuid
}.

Definition literal_or_none (members : list string) (s : option string) : bool :=
  match s with None => true | Some x => mem x members end.

Definition column_ok (c : MappingColumn) : bool :=
  negb (String.eqb (src_key c) "") && negb (String.eqb (dest_key c) "") &&
  literal_or_none ["."; ","] (src_decimal_separator c) &&
  literal_or_none ["."; ","; String squote ""] (src_thousand_separator c).

Definition is_source_char (c : ascii) : bool := is_lower c || is_digit c || Ascii.eqb c "_".

(** The field constraints of the model; FastAPI answers 422 when one fails. *)
Definition create_body_ok (b : MappingTemplateCreate) : bool :=
  let n := String.length (tc_source_id b) in
  (1 <=? n)%nat && (n <=? 128)%nat && str_all is_source_char (tc_source_id b) &&
  (1 <=? String.length (tc_template_name b))%nat && (String.length (tc_template_name b) <=? 200)%nat &&
  match tc_columns b with [] => false | _ => forallb column_ok (tc_columns b) end.

(** ** Translation *)

Definition IGNORE : string := "__ignore__".
Definition DATETIME_TIMEZONE : string := "UTC".

Definition DATE_TOKEN_TO_STRPTIME : dict string :=
  [("DD-MM-YYYY", "%d-%m-%Y"); ("DD/MM/YYYY", "%d/%m/%Y"); ("MM/DD/YYYY", "%m/%d/%Y");
   ("YYYY-MM-DD", "%Y-%m-%d"); ("DD-MM-YY", "%d-%m-%y")].

Definition CAST_TYPE_BY_DATATYPE (d : FieldDatatype) : option CastType :=
  match d with
  | DText | DChoice => Some CString
  | DInteger => Some CInteger
  | DNumber => Some CDecimal
  | DDate => Some CDate
  | DDatetime => Some CDatetime
  | DBoolean => Some CBoolean
  | DJson => None
  end.

Definition config_refused : ui_exn := Lib (MappingConfigError None).

Definition date_token_to_strptime (token : string) : ures string :=
  match dict_get DATE_TOKEN_TO_STRPTIME token with Some code => Ok code | None => Err config_refused end.

Definition opt_str (s : option string) : value := match s with Some x => VStr x | None => VNone end.

Definition separators (c : MappingColumn) : dict value :=
  [("decimal_separator", opt_str (src_decimal_separator c));
   ("thousands_separator", opt_str (src_thousand_separator c))].

Definition date_ops (c : MappingColumn) (datatype : FieldDatatype) : ures (list TransformSpec) :=
  match src_datetime_format c, datatype with
  | Some token, DDate =>
      fmt ← date_token_to_strptime token;
      Ok [mkTransformSpec "parse_date" [("format", VStr fmt)]]
  | Some token, DDatetime =>
      fmt ← date_token_to_strptime token;
      Ok [mkTransformSpec "parse_datetime" [("format", VStr fmt); ("timezone", VStr DATETIME_TIMEZONE)]]
  | _, _ => Ok []
  end.

Definition number_ops (c : MappingColumn) (datatype : FieldDatatype) : list TransformSpec :=
  match datatype with
  | DNumber =>
      match src_is_percentage c, src_decimal_separator c with
      | Some true, _ => [mkTransformSpec "parse_percent" (separators c)]
      | _, Some _ => [mkTransformSpec "parse_decimal" (separators c)]
      | _, None => []
      end
  | _ => []
  end.

Definition normalize_ops (c : MappingColumn) (datatype : FieldDatatype) : ures (list TransformSpec) :=
  dates ← date_ops c datatype; Ok (dates ++ number_ops c datatype).

Definition cast_spec (datatype : FieldDatatype) (prec scl : option Z) : ures value :=
  match CAST_TYPE_BY_DATATYPE datatype with
  | None => Err config_refused
  | Some CDecimal =>
      Ok (VDict [("type", VStr (cast_type_name CDecimal)); ("precision", opt_int prec); ("scale", opt_int scl)])
  | Some t => Ok (VDict [("type", VStr (cast_type_name t))])
  end.

(** The three dictionaries the loop over the columns fills. *)
Record draft_rules := mkDraftRules {
  dr_rename : dict string;
  dr_normalize : dict (list TransformSpec);
  dr_cast : dict value
}.

Definition translate_column (m : model) (acc : draft_rules) (c : MappingColumn) : ures draft_rules :=
  if String.eqb (dest_key c) IGNORE then Ok acc
  else
    let rename' := dict_set (dr_rename acc) (src_key c) (dest_key c) in
    if negb (mem (dest_key c) (field_names m)) then Ok (mkDraftRules rename' (dr_normalize acc) (dr_cast acc))
    else
      '(datatype, prec, scl) ← reflect_field_shape m (dest_key c);
      ops ← normalize_ops c datatype;
      let normalize' := match ops with [] => dr_normalize acc | _ => dict_set (dr_normalize acc) (dest_key c) ops end in
      spec ← cast_spec datatype prec scl;
      Ok (mkDraftRules rename' normalize' (dict_set (dr_cast acc) (dest_key c) spec)).

Definition rules_document (d : draft_rules) : value :=
  VDict [("version", VInt 1); ("rename", dump_dict VStr (dr_rename d));
         ("normalize", dump_dict (fun l => VList (map dump_spec l)) (dr_normalize d));
         ("cast", VDict (dr_cast d)); ("derive", VDict [])].

Definition translate_columns_to_mapping_rules (b : MappingTemplateCreate) : ures value :=
  m ← ui (model_for_template_type (tc_template_type b));
  d ← fold_res (translate_column m) (mkDraftRules [] [] []) (tc_columns b);
  Ok (rules_document d).

(** ** The gate *)

Section Gate.
Context `{RulesModel}.

Definition parse_mapping_rules (raw : value) : res SourceMapping :=
  m ← (match model_validate raw with
       | Err ValidationError => Err (MappingConfigError None)
       | r => r
       end);
  raise_if (match rename m with [] => true | _ => false end) (MappingConfigError None) ≫= fun _ => Ok m.

Definition enrichment_guaranteed_for (m : model) : list string :=
  match m with StoreSkuCurrentPosition => enrichment_fields CURRENT_POSITION | _ => [] end.

Definition nonempty (l : list string) : bool := match l with [] => false | _ => true end.

Definition check_mandatory_coverage (s : SourceMapping) (m : model) : res unit :=
  mandatory ← mandatory_mapping_produced m (enrichment_guaranteed_for m);
  raise_if (nonempty (set_minus mandatory (target_columns s))) (MappingConfigError None).

Definition CATALOGUE_PRESENCE_PAIRINGS : list (list string * list string) :=
  [ (["promo_identifier"], ["promo_price"]);
    (["expiry_date"; "expiry_source"; "expiry_confidence"], ["expiry_date"; "expiry_source"; "expiry_confidence"]) ].

Definition require_template_type (template_type : string) : ures unit :=
  raise_if (negb (is_template_type template_type)) (InvalidTemplateTypeError (Some template_type)).

Definition check_target_legality (s : SourceMapping) (m : model) : res unit :=
  produced ← mapping_produced_columns m;
  raise_if (nonempty (set_minus (target_columns s) produced)) (MappingConfigError None).

Definition check_presence_pairings (s : SourceMapping) : res unit :=
  for_each (fun '(trigger, companion) =>
    raise_if (nonempty (set_and trigger (target_columns s)) && negb (subset companion (target_columns s)))
             (MappingConfigError None)) CATALOGUE_PRESENCE_PAIRINGS.

(** The gate without a type: the routed event model. *)
Definition validate_mapping_rules (raw : value) : res SourceMapping :=
  s ← parse_mapping_rules raw;
  m ← route_target_model s;
  check_mandatory_coverage s m ≫= fun _ => Ok s.

Definition validate_mapping_rules_for_type (raw : value) (template_type : string) : ures SourceMapping :=
  require_template_type template_type ≫= fun _ =>
  s ← ui (parse_mapping_rules raw);
  m ← ui (model_for_template_type template_type);
  ui (check_target_legality s m) ≫= fun _ =>
  ui (check_mandatory_coverage s m) ≫= fun _ =>
  (match m with StoreSkuCurrentPosition => ui (check_presence_pairings s) | _ => Ok tt end) ≫= fun _ =>
  Ok s.

(** What POST does before it writes. *)
Definition create_rules (b : MappingTemplateCreate) : ures SourceMapping :=
  require_template_type (tc_template_type b) ≫= fun _ =>
  raw ← translate_columns_to_mapping_rules b;
  validate_mapping_rules_for_type raw (tc_template_type b).
End Gate.
