(* ===== verification/GateTheorems.v ===== *)
(** GateTheorems: what a passed gate and a successful translation guarantee.

    [gate_facts] reads the gate as set inclusions between the targets of the
    mapping and the columns of its model; [translate_typed] is the invariant of
    the loop over the columns of a create request. *)

From S2P Require Import Prelude Text Values Transform SourceMapping Canonical Provenance Enrichment HotMapping UiErrors Rules TemplateGate.

Lemma ui_ok {A} (r : res A) a : ui r = Ok a <-> r = Ok a.
Proof. destruct r; cbn; naive_solver. Qed.

(** Peel lifted library calls too. *)
Ltac inv_ui := inv_ok; repeat (match goal with H : ui _ = Ok _ |- _ => apply ui_ok in H end; inv_ok).

Lemma nonempty_minus a b : nonempty (set_minus a b) = false <-> (forall c, c ∈ a -> c ∈ b).
Proof.
  assert (nonempty (set_minus a b) = false <-> set_minus a b = []) as ->
    by (destruct (set_minus a b); naive_solver).
  rewrite empty_iff. setoid_rewrite set_minus_elem. split.
  - intros H c Hc. destruct (decide (c ∈ b)); [done|]. destruct (H c); auto.
  - intros H c [? []]. auto.
Qed.

(** ** Columns of the template models *)

Definition produced_of (m : model) : list string :=
  match PROVENANCE m with Some p => mapping_produced p | None => [] end.

Definition mandatory_of (m : model) : list string :=
  match m with
  | StoreSkuCurrentPosition => ["sku_id"; "product_name"; "current_retail_price"]
  | StoreSkuSaleEvent => ["event_date"; "sku_id"; "event_subtype"; "source_sale_timestamp"; "quantity";
                          "unit_retail_price"; "unit_sale_price"; "currency"]
  | StoreSkuChangeEvent => ["event_date"; "sku_id"; "event_category"; "event_subtype"; "source_event_timestamp"]
  | StoreSkuSignalHistory => []
  end.

Definition template_models : list (string * model) := MODEL_BY_TYPE.

Lemma model_of_type ty m : model_for_template_type ty = Ok m -> (ty, m) ∈ template_models.
Proof.
  unfold model_for_template_type. destruct (dict_get MODEL_BY_TYPE ty) eqn:Hg; [|done]. intros [= <-].
  by apply dict_get_Some_elem.
Qed.

(** A fact about the three models, checked on each. *)
Lemma for_models (P : model -> Prop) ty m :
  P StoreSkuCurrentPosition -> P StoreSkuSaleEvent -> P StoreSkuChangeEvent -> (ty, m) ∈ template_models -> P m.
Proof. intros ???. unfold template_models, MODEL_BY_TYPE. rewrite !elem_of_cons, elem_of_nil. naive_solver. Qed.

Lemma produced_value ty m : (ty, m) ∈ template_models -> mapping_produced_columns m = Ok (produced_of m).
Proof. apply (for_models (fun m => mapping_produced_columns m = Ok (produced_of m))); by vm_compute. Qed.

Lemma mandatory_value ty m :
  (ty, m) ∈ template_models -> mandatory_mapping_produced m (enrichment_guaranteed_for m) = Ok (mandatory_of m).
Proof.
  apply (for_models (fun m => mandatory_mapping_produced m (enrichment_guaranteed_for m) = Ok (mandatory_of m)));
    by vm_compute.
Qed.

Lemma produced_fields ty m c : (ty, m) ∈ template_models -> c ∈ produced_of m -> c ∈ field_names m.
Proof.
  intros Hm. revert c. apply Forall_forall. revert Hm.
  apply (for_models (fun m => Forall (fun c => c ∈ field_names m) (produced_of m)));
    apply (bool_decide_unpack _); by vm_compute.
Qed.

Lemma type_models ty m : (ty, m) ∈ template_models -> dict_get MODEL_BY_TYPE ty = Some m.
Proof. apply dict_get_elem. apply (bool_decide_unpack _). by vm_compute. Qed.

(** ** The gate *)

Definition pairings_hold (targets : list string) : Prop :=
  ("promo_identifier" ∈ targets -> "promo_price" ∈ targets) /\
  ("expiry_date" ∈ targets \/ "expiry_source" ∈ targets \/ "expiry_confidence" ∈ targets ->
   "expiry_date" ∈ targets /\ "expiry_source" ∈ targets /\ "expiry_confidence" ∈ targets).

Lemma pairing_ok trigger companion targets :
  nonempty (set_and trigger targets) && negb (subset companion targets) = false <->
  ((exists c, c ∈ trigger /\ c ∈ targets) -> forall c, c ∈ companion -> c ∈ targets).
Proof.
  rewrite <- implication_ok. destruct (set_and trigger targets); cbn; [done|].
  destruct (subset companion targets); cbn; naive_solver.
Qed.

Lemma pairings_iff s u : check_presence_pairings s = Ok u <-> pairings_hold (target_columns s).
Proof.
  unfold check_presence_pairings, CATALOGUE_PRESENCE_PAIRINGS, pairings_hold. set (t := target_columns s).
  rewrite for_each_ok, !Forall_cons, !raise_if_ok, !pairing_ok. split.
  - intros (Hp & Hx & _). split.
    + intros Hin. apply Hp; [|set_solver]. exists "promo_identifier". set_solver.
    + intros Hany. split_and!; (apply Hx; [|set_solver]); destruct Hany as [?|[?|?]]; eexists;
        (split; [|eassumption]); set_solver.
  - intros [Hp Hx]. split_and!; [| |done].
    + intros (c & ->%list_elem_of_singleton & Hc) d ->%list_elem_of_singleton. auto.
    + intros (c & Hc & Hct) d Hd. destruct Hx as (? & ? & ?); set_solver.
Qed.

Section Gate.
Context `{RulesModel}.

(** The gate, as inclusions. *)
Record gated (ty : string) (m : model) (s : SourceMapping) : Prop := {
  ga_type : (ty, m) ∈ template_models;
  ga_rules : construct s = Ok s;
  ga_rename : rename s <> [];
  ga_legal : forall c, c ∈ target_columns s -> c ∈ produced_of m;
  ga_mandatory : forall c, c ∈ mandatory_of m -> c ∈ target_columns s;
  ga_pairs : m = StoreSkuCurrentPosition -> pairings_hold (target_columns s)
}.

Lemma parse_facts raw s :
  parse_mapping_rules raw = Ok s -> model_validate raw = Ok s /\ rename s <> [].
Proof.
  unfold parse_mapping_rules. intros Hp. inv_ok. split; [|by destruct (rename s)].
  destruct (model_validate raw) as [s'|[]]; naive_solver.
Qed.

Lemma gate_facts raw ty s :
  validate_mapping_rules_for_type raw ty = Ok s ->
  model_validate raw = Ok s /\ exists m, gated ty m s.
Proof.
  unfold validate_mapping_rules_for_type. intros Hv. inv_ui.
  apply parse_facts in Hs0 as [Hval Hne]. split; [done|].
  match goal with Hm : model_for_template_type ty = Ok ?m |- _ => apply model_of_type in Hm as Hty; exists m end.
  unfold check_target_legality, check_mandatory_coverage in *.
  rewrite (produced_value _ _ Hty) in *. rewrite (mandatory_value _ _ Hty) in *. inv_ok.
  rewrite nonempty_minus in *. split; try done.
  - by apply (validate_checked raw).
  - intros ->. match goal with Hc : ui (check_presence_pairings _) = Ok _ |- _ => apply ui_ok, pairings_iff in Hc end. done.
Qed.
End Gate.

(** The gate decides exactly these inclusions. *)
Lemma gate_iff `{RulesModel} raw ty s :
  validate_mapping_rules_for_type raw ty = Ok s <-> model_validate raw = Ok s /\ exists m, gated ty m s.
Proof.
  split; [apply gate_facts|]. intros [Hv (m & [Hty _ Hren Hleg Hman Hpair])].
  unfold validate_mapping_rules_for_type, require_template_type, is_template_type, dict_mem, parse_mapping_rules.
  rewrite (type_models _ _ Hty), Hv. cbn [mbind result_bind raise_if negb ui].
  destruct (rename s) eqn:Hr; [done|]. cbn [mbind result_bind raise_if ui].
  unfold model_for_template_type. rewrite (type_models _ _ Hty). cbn [mbind result_bind ui].
  unfold check_target_legality, check_mandatory_coverage.
  rewrite (produced_value _ _ Hty), (mandatory_value _ _ Hty). cbn [mbind result_bind].
  rewrite (proj2 (nonempty_minus _ _) Hleg), (proj2 (nonempty_minus _ _) Hman). cbn [raise_if mbind result_bind ui].
  destruct m; try done. by rewrite (proj2 (pairings_iff s tt) (Hpair eq_refl)).
Qed.

(** ** Acceptance by the consumer *)

Lemma sale_routes s m ty :
  gated ty m s -> m = StoreSkuSaleEvent \/ m = StoreSkuChangeEvent -> route_target_model s = Ok m.
Proof.
  intros Hg Hm. apply route_iff.
  assert (subset (target_columns s) (produced_of m) = true) as Hin by (apply subset_elem, Hg).
  destruct Hm as [-> | ->]; [left|right]; (split; [done|]; split; [done|]); apply not_true_iff_false;
    rewrite subset_elem; intros Hsub.
  - assert ("source_sale_timestamp" ∈ target_columns s) as Ht by (apply (ga_mandatory _ _ _ Hg); set_solver).
    apply Hsub in Ht. revert Ht. apply (bool_decide_unpack _). by vm_compute.
  - assert ("source_event_timestamp" ∈ target_columns s) as Ht by (apply (ga_mandatory _ _ _ Hg); set_solver).
    apply Hsub in Ht. revert Ht. apply (bool_decide_unpack _). by vm_compute.
Qed.

(** The consumer's choice of target, by stored type. *)
Lemma gated_routes ty m s :
  gated ty m s -> (if String.eqb ty SNAPSHOT then Ok StoreSkuCurrentPosition else route_target_model s) = Ok m.
Proof.
  intros Hg. pose proof (ga_type _ _ _ Hg) as Hm. revert Hm. unfold template_models, MODEL_BY_TYPE.
  rewrite !elem_of_cons, elem_of_nil.
  intros [[= -> ->]|[[= -> ->]|[[= -> ->]|[]]]]; cbn; [done|eapply sale_routes; eauto..].
Qed.

Lemma classify_total_gate s m : m ∈ map snd template_models -> exists b, classify_hot_completeness s m = Ok b.
Proof.
  intros Hm. unfold template_models, MODEL_BY_TYPE in Hm. cbn in Hm. rewrite !elem_of_cons, elem_of_nil in Hm.
  destruct Hm as [-> | Hm].
  - unfold classify_hot_completeness, guaranteed_hot_columns. rewrite produced_current_position, hot_required_value.
    cbn [mbind result_bind]. by case_match; eexists.
  - exists false. apply event_never_complete. unfold EVENT_MODELS. set_solver.
Qed.

Lemma gated_complete ty m s :
  gated ty m s -> classify_hot_completeness s m = Ok (bool_decide (m = StoreSkuCurrentPosition)).
Proof.
  intros Hg. pose proof (ga_type _ _ _ Hg) as Hty.
  destruct (classify_total_gate s m) as [b Hb]; [apply list_elem_of_fmap; by exists (ty, m)|].
  rewrite Hb. f_equal. destruct (decide (m = StoreSkuCurrentPosition)) as [->|Hne].
  - rewrite bool_decide_true by done. apply (snapshot_completeness s b Hb).
    destruct (ga_pairs _ _ _ Hg eq_refl) as [Hp Hx]. split; [|split; done].
    intros c Hc. by apply (ga_mandatory _ _ _ Hg).
  - rewrite bool_decide_false by done. rewrite event_never_complete in Hb; [naive_solver|].
    revert Hty Hne. unfold template_models, MODEL_BY_TYPE, EVENT_MODELS. set_solver.
Qed.

(** ** The translation *)

Lemma Forall_dict_set {A} (P : string * A -> Prop) (d : dict A) k v :
  Forall P d -> P (k, v) -> Forall P (dict_set d k v).
Proof.
  intros Hd Hk. induction d as [|[k' v'] d IH]; cbn; [by constructor|].
  apply Forall_cons in Hd as [H1 H2]. destruct (String.eqb_spec k k') as [<-|]; constructor; auto.
Qed.

(** The cast of a canonical column; UUID and JSON columns have none. *)
Definition typed_cast (t : field_type) : option CastSpec :=
  match t with
  | FStr _ | FCurrency | FVocab _ => Some (mkCastSpec CString None None)
  | FNumeric d s => Some (mkCastSpec CDecimal (Some (Z.of_nat d)) (Some (Z.of_nat s)))
  | FInt | FBigInt => Some (mkCastSpec CInteger None None)
  | FDate => Some (mkCastSpec CDate None None)
  | FDatetime => Some (mkCastSpec CDatetime None None)
  | FBool => Some (mkCastSpec CBoolean None None)
  | FUuid | FJsonObject | FAny => None
  end.

(** The parse ops a canonical column may be given. *)
Inductive typed_ops : field_type -> list TransformSpec -> Prop :=
| TO_date fmt : fmt ∈ dict_values DATE_TOKEN_TO_STRPTIME ->
    typed_ops FDate [mkTransformSpec "parse_date" [("format", VStr fmt)]]
| TO_datetime fmt : fmt ∈ dict_values DATE_TOKEN_TO_STRPTIME ->
    typed_ops FDatetime [mkTransformSpec "parse_datetime" [("format", VStr fmt); ("timezone", VStr "UTC")]]
| TO_number d s o c : o ∈ ["parse_decimal"; "parse_percent"] -> typed_ops (FNumeric d s) [mkTransformSpec o (separators c)].

Lemma shape_cast t dt vals v :
  datatype_and_values t = Ok (dt, vals) -> cast_spec dt (max_digits t) (decimal_places t) = Ok v ->
  exists spec, typed_cast t = Some spec /\ decode_cast v = Some spec.
Proof. destruct t; intros [= <- <-]; cbn; intros [= <-]; eexists; split; reflexivity. Qed.

Lemma token_format token fmt :
  date_token_to_strptime token = Ok fmt -> fmt ∈ dict_values DATE_TOKEN_TO_STRPTIME.
Proof.
  unfold date_token_to_strptime. destruct (dict_get _ token) as [c|] eqn:Hg; [|done]. intros [= <-].
  apply dict_get_Some_elem in Hg. apply list_elem_of_fmap. by exists (token, c).
Qed.

Lemma shape_ops t dt vals c ops :
  datatype_and_values t = Ok (dt, vals) -> normalize_ops c dt = Ok ops -> ops <> [] -> typed_ops t ops.
Proof.
  unfold normalize_ops, date_ops, number_ops. intros Ht Hn Hne.
  destruct t; try discriminate Ht; injection Ht as <- <-; destruct (src_datetime_format c) as [token|]; inv_ok; try done;
    try (constructor; by eapply token_format);
    destruct (src_is_percentage c) as [[]|], (src_decimal_separator c); cbn in *; try done; constructor; set_solver.
Qed.

(** What the loop has built so far. *)
Record typed_rules (m : model) (d : draft_rules) : Prop := {
  tr_cast : Forall (fun '(c, v) => exists f spec, find_field m c = Some f /\ typed_cast (f_type f) = Some spec /\
                                  decode_cast v = Some spec) (dr_cast d);
  tr_covered : forall c, c ∈ dict_values (dr_rename d) -> c ∈ field_names m -> c ∈ dict_keys (dr_cast d);
  tr_ops : Forall (fun '(c, ops) => exists f, find_field m c = Some f /\ typed_ops (f_type f) ops) (dr_normalize d)
}.

Lemma dict_values_set {A} (d : dict A) k v w : w ∈ dict_values (dict_set d k v) -> w = v \/ w ∈ dict_values d.
Proof.
  induction d as [|[k' v'] d IH]; cbn; [set_solver|]. case_match; cbn; rewrite !elem_of_cons; naive_solver.
Qed.

Lemma translate_column_typed m d c d' :
  typed_rules m d -> translate_column m d c = Ok d' -> typed_rules m d'.
Proof.
  intros [H1 H2 H3]. unfold translate_column. destruct (String.eqb (dest_key c) IGNORE); [by intros [= <-]|].
  destruct (mem (dest_key c) (field_names m)) eqn:Hmem; cbn [negb].
  - unfold reflect_field_shape, model_field.
    destruct (find_field m (dest_key c)) as [f|] eqn:Hf; [|done]. cbn [mbind result_bind].
    destruct (datatype_and_values (f_type f)) as [[dt vals]|] eqn:Hdt; [|done]. cbn [mbind result_bind].
    intros Ht. inv_ok. destruct (shape_cast _ _ _ _ Hdt Hs0) as (spec & Hspec & Hdec). split; cbn.
    + apply Forall_dict_set; [done|]. by exists f, spec.
    + intros x Hx Hfx. apply dict_keys_set_elem. apply dict_values_set in Hx as [->|Hx]; [by left|]. right. auto.
    + destruct a as [|o ops]; [done|]. apply Forall_dict_set; [done|]. exists f. split; [done|].
      by eapply shape_ops.
  - intros [= <-]. split; cbn; [done| |done]. intros x Hx Hfx. apply dict_values_set in Hx as [->|Hx]; [|auto].
    apply mem_elem in Hfx. congruence.
Qed.

Lemma translate_typed m cols d :
  fold_res (translate_column m) (mkDraftRules [] [] []) cols = Ok d -> typed_rules m d.
Proof.
  apply (fold_res_inv _ (typed_rules m)); [|split; cbn; [constructor|set_solver|constructor]].
  intros c s1 s2 _ Hs1 Hstep. by eapply translate_column_typed.
Qed.

(** The destination declared for a source column: the last one that is not ignored. *)
Definition declared_dest (cols : list MappingColumn) (k : string) : option string :=
  last (omap (fun c => if String.eqb (src_key c) k && negb (String.eqb (dest_key c) IGNORE)
                       then Some (dest_key c) else None) cols).

Lemma last_app_cases {A} (l1 l2 : list A) : last (l1 ++ l2) = match last l2 with Some x => Some x | None => last l1 end.
Proof.
  destruct (last l2) as [x|] eqn:H2; [|by rewrite (proj1 (last_None l2) H2), app_nil_r].
  apply last_Some in H2 as [l ->]. by rewrite (assoc_L (++)), last_snoc.
Qed.

Lemma translate_column_rename m acc c d :
  translate_column m acc c = Ok d ->
  dr_rename d = (if String.eqb (dest_key c) IGNORE then dr_rename acc else dict_set (dr_rename acc) (src_key c) (dest_key c)).
Proof.
  unfold translate_column. destruct (String.eqb (dest_key c) IGNORE); [by intros [= <-]|].
  destruct (negb _); intros Ht; inv_ok; [done|].
  destruct a as [[dt p] s]. inv_ok. done.
Qed.

Lemma translate_rename m cols d k :
  fold_res (translate_column m) (mkDraftRules [] [] []) cols = Ok d -> dict_get (dr_rename d) k = declared_dest cols k.
Proof.
  revert d. induction cols as [|c cols IH] using rev_ind; intros d; [by intros [= <-]|].
  rewrite fold_res_app. intros Hf. inv_ok. cbn in Hf. inv_ok. rewrite (translate_column_rename _ _ _ _ Hs0).
  unfold declared_dest. rewrite omap_app, last_app_cases. fold (declared_dest cols k). rewrite <- (IH _ Hs). cbn.
  destruct (String.eqb (dest_key c) IGNORE); cbn; [by rewrite andb_false_r|].
  rewrite dict_get_set, andb_true_r, String.eqb_sym. by destruct (String.eqb (src_key c) k).
Qed.

(** ** The gate against the consumer, and the rules POST stores *)

Lemma decode_entries_total {A} (f : value -> option A) (d : dict value) :
  Forall (fun '(_, v) => is_Some (f v)) d ->
  exists e, decode_entries f d = Some e /\ forall k, dict_get e k = dict_get d k ≫= f.
Proof.
  induction 1 as [|[k v] d [x Hx] _ (e & He & Hg)]; [by exists []|]. exists ((k, x) :: e).
  cbn. rewrite Hx, He. split; [done|]. intros k'. cbn. rewrite Hg. by case_match.
Qed.

(** The document POST builds reads back as the dictionaries of the loop. *)
Lemma decode_document m d :
  typed_rules m d ->
  exists cs, decode_rules (rules_document d) = Some (mkSourceMapping 1 (dr_rename d) (dr_normalize d) cs []) /\
             forall k, dict_get cs k = dict_get (dr_cast d) k ≫= decode_cast.
Proof.
  intros Ht. destruct (decode_entries_total decode_cast (dr_cast d)) as (cs & Hcs & Hg).
  { eapply Forall_impl; [apply (tr_cast _ _ Ht)|]. intros [c v] (f & spec & _ & _ & Hd). by exists spec. }
  exists cs. split; [|done]. unfold decode_rules, decode_field, arg_get. cbn -[decode_entries].
  rewrite (decode_entries_dump as_str VStr) by done.
  rewrite (decode_entries_dump decode_specs) by apply decode_dump_specs. cbn. by rewrite Hcs.
Qed.

Section Created.
Context `{RulesModel}.

Lemma create_facts b s :
  create_rules b = Ok s ->
  exists m d, gated (tc_template_type b) m s /\ typed_rules m d /\
    fold_res (translate_column m) (mkDraftRules [] [] []) (tc_columns b) = Ok d /\
    rename s = dr_rename d /\ normalize s = dr_normalize d /\ derive s = [] /\
    forall k, dict_get (cast s) k = dict_get (dr_cast d) k ≫= decode_cast.
Proof.
  unfold create_rules, translate_columns_to_mapping_rules. intros Hc. inv_ui.
  match goal with H : validate_mapping_rules_for_type _ _ = _ |- _ => apply gate_facts in H as [Hv (m & Hg)] end.
  match goal with H : fold_res _ _ _ = Ok ?d |- _ => rename H into Hf; rename d into dr end.
  match goal with H : model_for_template_type _ = Ok ?m0 |- _ =>
    assert (m0 = m) as -> by (apply model_of_type, type_models in H; pose proof (type_models _ _ (ga_type _ _ _ Hg)); congruence) end.
  pose proof (translate_typed _ _ _ Hf) as Ht. destruct (decode_document m dr Ht) as (cs & Hd & Hcs).
  rewrite (validate_decoded _ _ Hd) in Hv. apply construct_ok in Hv as ->.
  exists m, dr. by split_and!.
Qed.
End Created.

(** C15. What the template gate accepts, the streaming consumer loads: rules the
    gate passed for a template type, stored as written, are loaded for every
    event of that template, target the model of the type, and may create hot
    rows exactly when the type is the snapshot. *)
Theorem gate_refines_consumer `{RulesModel} select_active raw ty s event row :
  validate_mapping_rules_for_type raw ty = Ok s ->
  select_active (ev_tenant_id event) (ev_source_id event) (ev_template_id event) = Ok (Some row) ->
  row_rules row = dump_rules s -> row_template_type row = ty ->
  row_pre_suite row = None -> row_post_suite row = None ->
  exists m, model_for_template_type ty = Ok m /\
    load_active_mapping select_active model_validate event =
      Ok (mkLoadedMapping (row_version_id row) s m (bool_decide (m = StoreSkuCurrentPosition))).
Proof.
  intros Hg Hsel Hr Hty Hpre Hpost. apply gate_facts in Hg as [Hv (m & Hg)]. exists m.
  pose proof (ga_type _ _ _ Hg) as Hm. split; [unfold model_for_template_type; by rewrite (type_models _ _ Hm)|].
  unfold load_active_mapping. rewrite Hsel. cbn [mbind result_bind]. rewrite Hpre, Hpost. cbn [mbind result_bind raise_if].
  unfold parse_rules. rewrite Hr, (validate_dump _ _ Hv). cbn [mbind result_bind].
  destruct (rename s) eqn:Hren; [by destruct (ga_rename _ _ _ Hg)|]. cbn [mbind result_bind raise_if]. rewrite Hty.
  rewrite (gated_routes _ _ _ Hg).
  cbn [mbind result_bind]. by rewrite (gated_complete _ _ _ Hg).
Qed.

(** C40. The rules POST stores are well typed: a source column is renamed to
    its last declared destination, every target is cast to the type of its
    canonical column (decimals with the column's own precision and scale), and
    a target is parsed only by an op of that type. *)
Theorem created_rules_typed `{RulesModel} b s :
  create_rules b = Ok s ->
  exists m, model_for_template_type (tc_template_type b) = Ok m /\ derive s = [] /\
    (forall k, dict_get (rename s) k = declared_dest (tc_columns b) k) /\
    (forall c, c ∈ target_columns s ->
       exists f spec, find_field m c = Some f /\ typed_cast (f_type f) = Some spec /\ dict_get (cast s) c = Some spec) /\
    (forall c ops, dict_get (normalize s) c = Some ops ->
       exists f, find_field m c = Some f /\ typed_ops (f_type f) ops).
Proof.
  intros Hc. apply create_facts in Hc as (m & d & Hg & Ht & Hf & Hren & Hnor & Hder & Hcast). exists m.
  split; [unfold model_for_template_type; by rewrite (type_models _ _ (ga_type _ _ _ Hg))|].
  split; [done|]. split; [intros k; rewrite Hren; by apply (translate_rename m)|]. split.
  - intros c Hin. assert (c ∈ dict_keys (dr_cast d)) as Hk.
    { apply (tr_covered _ _ Ht).
      - unfold target_columns in Hin. rewrite Hder, Hren in Hin. by rewrite app_nil_r in Hin.
      - eapply produced_fields; [apply Hg|]. by apply (ga_legal _ _ _ Hg). }
    rewrite <- dict_mem_keys in Hk. unfold dict_mem in Hk. destruct (dict_get (dr_cast d) c) as [v|] eqn:Hd; [|done].
    pose proof (dict_get_Some_elem _ _ _ Hd) as Hel.
    destruct (proj1 (Forall_forall _ _) (tr_cast _ _ Ht) _ Hel) as (f & spec & Hff & Hspec & Hdec).
    exists f, spec. split_and!; [done..|]. by rewrite Hcast, Hd.
  - intros c ops Hop. rewrite Hnor in Hop. apply dict_get_Some_elem in Hop.
    exact (proj1 (Forall_forall _ _) (tr_ops _ _ Ht) _ Hop).
Qed.

(** A change template POST accepts maps none of the columns that carry the
    change: [value_before], [value_after] and [change_context] are mappable by
    the provenance partition, but POST refuses every request that maps one. *)
Theorem created_change_template_has_no_values `{RulesModel} b s c :
  tc_template_type b = INVENTORY_CHANGE -> create_rules b = Ok s ->
  c ∈ ["value_before"; "value_after"; "change_context"] -> c ∈ produced_of StoreSkuChangeEvent /\ c ∉ target_columns s.
Proof.
  intros Hty Hc Hin. split.
  - revert c Hin. apply Forall_forall, (bool_decide_unpack _). by vm_compute.
  - intros Ht. apply create_facts in Hc as (m & d & Hg & Htr & _ & Hren & _ & Hder & _).
    pose proof (type_models _ _ (ga_type _ _ _ Hg)) as Hm. rewrite Hty in Hm. injection Hm as <-.
    assert (c ∈ dict_keys (dr_cast d)) as Hk.
    { apply (tr_covered _ _ Htr); [|eapply produced_fields; [apply Hg|]; by apply (ga_legal _ _ _ Hg)].
      unfold target_columns in Ht. rewrite Hder, Hren in Ht. by rewrite app_nil_r in Ht. }
    apply list_elem_of_fmap in Hk as ([c' v] & -> & Hel).
    destruct (proj1 (Forall_forall _ _) (tr_cast _ _ Htr) _ Hel) as (f & spec & Hff & Hspec & _). cbn in *.
    rewrite !elem_of_cons, elem_of_nil in Hin. destruct Hin as [->|[->|[->|[]]]]; vm_compute in Hff;
      injection Hff as <-; discriminate Hspec.
Qed.

(** A create request that names a UUID column of the model as a destination
    (tenant_id, store_id, id, trace_id) ends in a 500, not in the 400 of an
    illegal target. *)
Theorem uuid_destination_fails `{RulesModel} b m pre c post d f :
  tc_columns b = pre ++ c :: post -> model_for_template_type (tc_template_type b) = Ok m ->
  fold_res (translate_column m) (mkDraftRules [] [] []) pre = Ok d ->
  find_field m (dest_key c) = Some f -> f_type f = FUuid ->
  exists e, create_rules b = Err e /\ status_of e = 500%Z.
Proof.
  intros Hcols Hm Hpre Hf Hty. exists (FieldCatalogDriftError [] []). split; [|done].
  unfold create_rules, require_template_type, is_template_type, dict_mem. pose proof (model_of_type _ _ Hm) as Hin.
  rewrite (type_models _ _ Hin). cbn. unfold translate_columns_to_mapping_rules. rewrite Hm, Hcols. cbn.
  rewrite fold_res_app, Hpre. cbn. unfold translate_column.
  assert (dest_key c ∈ field_names m) as Hn.
  { unfold find_field in Hf. destruct (list_find _ (model_fields m)) as [[i f']|] eqn:Hl; [|done]. injection Hf as ->.
    apply list_find_Some in Hl as (Hl & <- & _). apply list_elem_of_fmap. exists f. split; [done|].
    by apply list_elem_of_lookup_2 in Hl. }
  destruct (String.eqb_spec (dest_key c) IGNORE) as [Hi|_].
  { exfalso. rewrite Hi in Hn. revert Hn. revert Hin.
    apply (for_models (fun m => IGNORE ∈ field_names m -> False)); apply (bool_decide_unpack _); by vm_compute. }
  rewrite (proj2 (mem_elem _ _) Hn). cbn. unfold reflect_field_shape, model_field. rewrite Hf. cbn. by rewrite Hty.
Qed.

(** ** Concrete requests *)

Definition plain_column (source dest : string) : MappingColumn := mkMappingColumn source dest None None None None.

Definition price_column : MappingColumn := mkMappingColumn "Price" "current_retail_price" None (Some ",") (Some ".") None.

Definition snapshot_body : MappingTemplateCreate := mkTemplateCreate "manual" "stock" SNAPSHOT
  [plain_column "SKU" "sku_id"; plain_column "Name" "product_name"; price_column; plain_column "Junk" IGNORE;
   mkMappingColumn "Got" "receipt_date" (Some "DD-MM-YYYY") None None None] None.

Definition snapshot_rules : SourceMapping := mkSourceMapping 1
  [("SKU", "sku_id"); ("Name", "product_name"); ("Price", "current_retail_price"); ("Got", "receipt_date")]
  [("current_retail_price", [mkTransformSpec "parse_decimal" (separators price_column)]);
   ("receipt_date", [mkTransformSpec "parse_date" [("format", VStr "%d-%m-%Y")]])]
  [("sku_id", mkCastSpec CString None None); ("product_name", mkCastSpec CString None None);
   ("current_retail_price", mkCastSpec CDecimal (Some 12%Z) (Some 4%Z)); ("receipt_date", mkCastSpec CDate None None)] [].

Definition template_event : IngressReadyEvent := mkIngressReady "t-1" "tenant-a" "store-1" "manual" "template-1" "b-1"
  "gs://bronze/key" 0 "," false None.

Definition change_body : MappingTemplateCreate := mkTemplateCreate "manual" "changes" INVENTORY_CHANGE
  [plain_column "SKU" "sku_id"; plain_column "Day" "event_date"; plain_column "Kind" "event_category";
   plain_column "Sub" "event_subtype"; plain_column "At" "source_event_timestamp"] None.

Lemma gate_refines_consumer_witness :
  load_active_mapping (fun _ _ _ => Ok (Some (mkMappingRow 7 (dump_rules snapshot_rules) SNAPSHOT None None)))
    strict_validate template_event = Ok (mkLoadedMapping 7 snapshot_rules StoreSkuCurrentPosition true).
Proof.
  destruct (@gate_refines_consumer strict_rules
    (fun _ _ _ => Ok (Some (mkMappingRow 7 (dump_rules snapshot_rules) SNAPSHOT None None)))
    (dump_rules snapshot_rules) SNAPSHOT snapshot_rules template_event
    (mkMappingRow 7 (dump_rules snapshot_rules) SNAPSHOT None None)) as (m & Hm & Hl);
    [vm_compute; reflexivity | reflexivity | reflexivity | reflexivity | reflexivity | reflexivity |].
  injection Hm as <-. exact Hl.
Defined.

Lemma created_rules_typed_witness :
  @create_rules strict_rules snapshot_body = Ok snapshot_rules /\
  exists m, model_for_template_type (tc_template_type snapshot_body) = Ok m /\ derive snapshot_rules = [] /\
    (forall k, dict_get (rename snapshot_rules) k = declared_dest (tc_columns snapshot_body) k) /\
    (forall c, c ∈ target_columns snapshot_rules ->
       exists f spec, find_field m c = Some f /\ typed_cast (f_type f) = Some spec /\ dict_get (cast snapshot_rules) c = Some spec) /\
    (forall c ops, dict_get (normalize snapshot_rules) c = Some ops ->
       exists f, find_field m c = Some f /\ typed_ops (f_type f) ops).
Proof.
  split; [vm_compute; reflexivity|]. apply (@created_rules_typed strict_rules). vm_compute. reflexivity.
Defined.

Lemma created_change_template_has_no_values_witness :
  exists s, @create_rules strict_rules change_body = Ok s /\ "value_after" ∈ produced_of StoreSkuChangeEvent /\
            "value_after" ∉ target_columns s.
Proof.
  eexists. split; [vm_compute; reflexivity|].
  apply (@created_change_template_has_no_values strict_rules change_body); [reflexivity|vm_compute; reflexivity|].
  right. left.
Defined.

Lemma uuid_destination_fails_witness :
  exists e, @create_rules strict_rules (mkTemplateCreate "manual" "stock" SNAPSHOT [plain_column "T" "tenant_id"] None) = Err e /\
            status_of e = 500%Z.
Proof.
  apply (@uuid_destination_fails strict_rules _ StoreSkuCurrentPosition [] (plain_column "T" "tenant_id") [] (mkDraftRules [] [] [])
          (req "tenant_id" FUuid)); vm_compute; reflexivity.
Defined.
