(* ===== verification/Rls.v ===== *)
(** Rls: tenant-scoped transactions (libs/dis-rls [session.py]; dis-ui-server
    [db.py]).

    A transaction runs under two settings, [app.user_type] and [app.tenant_id];
    the row-level policies of the tables read them.  A role that can bypass row
    security is not bound by the policies, so the first use of an engine checks
    the database and the role. *)

From S2P Require Import Prelude Text Values Transform Provenance UiErrors.

(** ** The target and its role *)

Record posture := mkPosture {
  po_database : string;
  po_role : string;
  po_rolsuper : bool;
  po_rolbypassrls : bool
}.

Definition EXPECTED_DATABASE : string := "ithina_dis_db".

Definition create_rls_engine (url env_url : option string) : ures string :=
  match url, env_url with
  | Some "", None | Some "", Some "" | None, None | None, Some "" => Err (Lib RlsContextError)
  | Some "", Some u | None, Some u => Ok u
  | Some u, _ => Ok u
  end.

Definition check_posture (p : posture) : ures unit :=
  raise_if (negb (String.eqb (po_database p) EXPECTED_DATABASE)) (Lib RlsContextError) ≫= fun _ =>
  raise_if (po_rolsuper p || po_rolbypassrls p) (Lib RlsContextError).

(** ** Settings and policies *)

Record guc := mkGuc { app_user_type : string; app_tenant_id : string }.

(** [NULLIF(current_setting('app.tenant_id', true), '')::uuid] *)
Definition guc_tenant (g : guc) : option uuid :=
  if String.eqb (app_tenant_id g) "" then None else Some (app_tenant_id g).

Record session := mkSession { se_posture : posture; se_guc : guc }.

Definition bypasses (p : posture) : bool := po_rolsuper p || po_rolbypassrls p.

(** [USING]: which rows a statement sees. *)
Definition policy_using (s : session) (tenant : uuid) : bool :=
  bypasses (se_posture s) || bool_decide (guc_tenant (se_guc s) = Some tenant) ||
  String.eqb (app_user_type (se_guc s)) "PLATFORM".

(** [WITH CHECK]: which rows a statement may write. *)
Definition policy_check (s : session) (tenant : uuid) : bool :=
  bypasses (se_posture s) || bool_decide (guc_tenant (se_guc s) = Some tenant).

(** ** Transactions *)

(** An engine and whether its target and role were verified. *)
Record engine := mkEngine { en_reachable : bool; en_posture : posture; en_verified : bool }.

Section Transaction.
(** A database, and what a rollback leaves: [undo before after] (a sequence is
    not rolled back). *)
Context {D : Type} (undo : D -> D -> D).

Definition txn (A : Type) : Type := session -> D -> ures A * D.
Definition action (A : Type) : Type := engine * D -> ures A * (engine * D).

Definition verified_transaction {A} (g : guc) (body : txn A) : action A := fun '(en, db) =>
  if negb (en_reachable en) then (Err (DatabaseError "connect"), (en, db)) else
  match (if en_verified en then Ok tt else check_posture (en_posture en)) with
  | Err e => (Err e, (en, db))
  | Ok _ =>
      let en' := mkEngine true (en_posture en) true in
      match body (mkSession (en_posture en) g) db with
      | (Ok a, db') => (Ok a, (en', db'))
      | (Err e, db') => (Err e, (en', undo db db'))
      end
  end.

Definition rls_session {A} (tenant_id : uuid) (body : txn A) : action A :=
  verified_transaction (mkGuc "TENANT" tenant_id) body.

Definition rls_platform_session {A} (tenant_id : option uuid) (body : txn A) : action A :=
  verified_transaction (mkGuc "PLATFORM" (default "" tenant_id)) body.

Definition read_session {A} (is_platform : bool) (tenant_id : option uuid) (body : txn A) : action A :=
  if is_platform then rls_platform_session None body
  else match tenant_id with
       | None => fun s => (Err TenantScopeError, s)
       | Some t => rls_session t body
       end.

Definition write_session {A} (is_platform : bool) (acted_for : uuid) (body : txn A) : action A :=
  if is_platform then rls_platform_session (Some acted_for) body else rls_session acted_for body.
End Transaction.

Global Instance action_ret {D} : MRet (@action D) := fun A a s => (Ok a, s).
Global Instance action_bind {D} : MBind (@action D) :=
  fun A B f c s => match c s with (Ok a, s') => f a s' | (Err e, s') => (Err e, s') end.

Definition act {D A} (r : ures A) : @action D A := fun s => (r, s).

(** An action in sequence fails in its first part, or goes on to its second. *)
Lemma action_bind_inv {D A B} (c : @action D A) (f : A -> @action D B) s r s' :
  (c ≫= f) s = (r, s') ->
  (exists e, c s = (Err e, s') /\ r = Err e) \/ (exists a s1, c s = (Ok a, s1) /\ f a s1 = (r, s')).
Proof.
  unfold mbind, action_bind. destruct (c s) as [[a|e] s1]; [right; eauto|].
  intros [= <- <-]. left. by exists e.
Qed.

(** ** What the guard gives *)

(** An engine is honest when a verified mark means a checked target. *)
Definition honest (en : engine) : Prop := en_verified en = true -> check_posture (en_posture en) = Ok tt.

Lemma posture_safe p : check_posture p = Ok tt -> bypasses p = false.
Proof. unfold check_posture, bypasses. intros H. by inv_ok. Qed.

(** A body only runs under the policies, and then decides what is committed. *)
Lemma transaction_runs {D A} (undo : D -> D -> D) g (body : txn A) en db r en' db' :
  honest en -> verified_transaction undo g body (en, db) = (r, (en', db')) ->
  honest en' /\
  ((exists e, r = Err e /\ db' = db) \/
   exists p r' db1, bypasses p = false /\ body (mkSession p g) db = (r', db1) /\ r = r' /\
     db' = match r' with Ok _ => db1 | Err _ => undo db db1 end).
Proof.
  intros Hh. unfold verified_transaction. destruct (en_reachable en) eqn:Hr; cbn [negb].
  2: { intros [= <- <- <-]. split; [done|]. left. by eexists. }
  assert (forall u, (if en_verified en then Ok tt else check_posture (en_posture en)) = Ok u ->
            check_posture (en_posture en) = Ok tt) as Hc.
  { intros []. destruct (en_verified en) eqn:Hv; [intros _; by apply Hh|done]. }
  destruct (if en_verified en then _ else _) as [u|e] eqn:Hp.
  - specialize (Hc _ eq_refl). destruct (body _ db) as [[a|e] db1] eqn:Hb; intros [= <- <- <-]; (split; [intros _; exact Hc|right]).
    + exists (en_posture en), (Ok a), db1. split_and!; auto using posture_safe.
    + exists (en_posture en), (Err e), db1. split_and!; auto using posture_safe.
  - intros [= <- <- <-]. split; [done|]. left. by eexists.
Qed.
