(* ===== verification/Templates.v ===== *)
(** Templates: the version rows of mapping templates and their lifecycle
    (dis-ui-server, [repos/mapping_templates.py], [handlers/mapping_templates.py];
    table [config.source_mappings] with its sequence trigger, constraints and
    row-level policy, [schemas/postgres/config/source_mappings.sql]).

    A statement runs in a session and sees and writes the rows its policy allows;
    constraints look at the whole table. *)

From S2P Require Import Prelude Text Values Transform SourceMapping.
From S2P Require Import Canonical Provenance Rules Paths UiErrors Access Rls TemplateGate.

(** ** The table *)

Inductive template_status : Type := DRAFT | STAGED | ACTIVE | DEPRECATED.

Global Instance template_status_eq_dec : EqDecision template_status.
Proof. solve_decision. Defined.

Definition status_name (s : template_status) : string :=
  match s with DRAFT => "DRAFT" | STAGED => "STAGED" | ACTIVE => "ACTIVE" | DEPRECATED => "DEPRECATED" end.

Record SourceMappingRow := mkSourceMappingRow {
  sm_version_id : Z;
  sm_tenant : uuid;
  sm_source : string;
  sm_template : uuid;
  sm_name : string;
  sm_seq : Z;
  sm_status : template_status;
  sm_type : string;
  sm_rules : value;
  sm_pre_suite : option string;
  sm_post_suite : option string;
  sm_predecessor : option Z;
  sm_activated_at : option Z;
  sm_deprecated_at : option Z;
  sm_created_by : option uuid;
  sm_created_at : Z
}.

(** The table, the next value of its sequence, and the mirrored tenants. *)
Record templates := mkTemplates {
  td_rows : list SourceMappingRow;
  td_next : Z;
  td_tenants : list uuid
}.

(** A rollback restores the rows, not the sequence. *)
Definition undo_templates (before after : templates) : templates :=
  mkTemplates (td_rows before) (td_next after) (td_tenants before).

(** What SQLAlchemy raises: an [IntegrityError] naming its constraint, or
    another error by its SQLSTATE. *)
Inductive sql_error : Type := IntegrityError (constraint : string) | OtherSqlError (sqlstate : string).

Definition unhandled (e : sql_error) : ui_exn :=
  match e with IntegrityError c => DatabaseError c | OtherSqlError s => DatabaseError s end.

(** ** Statements *)

Definition in_lineage (tenant : uuid) (source : string) (template : uuid) (r : SourceMappingRow) : bool :=
  String.eqb (sm_tenant r) tenant && String.eqb (sm_source r) source && String.eqb (sm_template r) template.

(** [set_csm_version_seq]: one past the largest sequence the session sees. *)
Definition next_seq (s : session) (tenant : uuid) (source : string) (template : uuid) (rows : list SourceMappingRow) : Z :=
  foldr Z.max 0%Z (map sm_seq (filter (fun r => policy_using s (sm_tenant r) && in_lineage tenant source template r = true) rows)) + 1.

Definition SMALLINT_MAX : Z := 32767.

(** [ck_csm_version_seq_positive], [ck_csm_activated_consistency], [ck_csm_deprecated_consistency] *)
Definition row_checks (r : SourceMappingRow) : bool :=
  (0 <? sm_seq r)%Z &&
  match sm_status r, sm_activated_at r with
  | (ACTIVE | DEPRECATED), Some _ | (DRAFT | STAGED), None => true
  | _, _ => false
  end &&
  match sm_status r, sm_deprecated_at r with
  | DEPRECATED, Some _ => true
  | DEPRECATED, None => false
  | _, None => true
  | _, Some _ => false
  end.

(** [ex_csm_template_name_per_source]: another living template of the source has
    the name. *)
Definition name_conflict (r : SourceMappingRow) (rows : list SourceMappingRow) : bool :=
  negb (bool_decide (sm_status r = DEPRECATED)) &&
  existsb (fun q => negb (bool_decide (sm_status q = DEPRECATED)) && String.eqb (sm_tenant q) (sm_tenant r) &&
                    String.eqb (sm_source q) (sm_source r) && String.eqb (sm_name q) (sm_name r) &&
                    negb (String.eqb (sm_template q) (sm_template r))) rows.

(** The first unique or exclusion constraint a new row breaks. *)
Definition index_violation (r : SourceMappingRow) (rows : list SourceMappingRow) : option string :=
  let same q := in_lineage (sm_tenant r) (sm_source r) (sm_template r) q in
  if existsb (fun q => sm_version_id q =? sm_version_id r)%Z rows then Some "pk_csm"
  else if existsb (fun q => same q && (sm_seq q =? sm_seq r)%Z) rows then Some "uq_csm_seq_per_source"
  else if name_conflict r rows then Some "ex_csm_template_name_per_source"
  else if bool_decide (sm_status r = ACTIVE) && existsb (fun q => same q && bool_decide (sm_status q = ACTIVE)) rows
       then Some "uq_csm_active_per_source"
  else None.

(** The values of an [INSERT]; the sequence is left to the trigger. *)
Record NewRow := mkNewRow {
  nw_tenant : uuid;
  nw_source : string;
  nw_template : uuid;
  nw_name : string;
  nw_type : string;
  nw_status : template_status;
  nw_activated_at : option Z;
  nw_rules : value;
  nw_predecessor : option Z;
  nw_created_by : option uuid
}.

Definition new_row_of (id seq now : Z) (n : NewRow) : SourceMappingRow :=
  mkSourceMappingRow id (nw_tenant n) (nw_source n) (nw_template n) (nw_name n) seq (nw_status n) (nw_type n)
    (nw_rules n) None None (nw_predecessor n) (nw_activated_at n) None (nw_created_by n) now.

Definition insert_template (s : session) (now : Z) (n : NewRow) (db : templates) : result sql_error SourceMappingRow * templates :=
  let db1 := mkTemplates (td_rows db) (td_next db + 1) (td_tenants db) in
  let seq := next_seq s (nw_tenant n) (nw_source n) (nw_template n) (td_rows db) in
  if (SMALLINT_MAX <? seq)%Z then (Err (OtherSqlError "22003"), db1) else
  let r := new_row_of (td_next db) seq now n in
  if negb (policy_check s (sm_tenant r)) then (Err (OtherSqlError "42501"), db1) else
  if negb (row_checks r) then (Err (IntegrityError "ck_csm"), db1) else
  match index_violation r (td_rows db) with
  | Some c => (Err (IntegrityError c), db1)
  | None =>
      if negb (mem (sm_tenant r) (td_tenants db)) then (Err (IntegrityError "fk_csm_tenant"), db1)
      else (Ok r, mkTemplates (td_rows db ++ [r]) (td_next db + 1) (td_tenants db))
  end.

(** [UPDATE ... SET template_name WHERE template_id = ...] *)
Definition set_name (name : string) (r : SourceMappingRow) : SourceMappingRow :=
  mkSourceMappingRow (sm_version_id r) (sm_tenant r) (sm_source r) (sm_template r) name (sm_seq r) (sm_status r) (sm_type r)
    (sm_rules r) (sm_pre_suite r) (sm_post_suite r) (sm_predecessor r) (sm_activated_at r) (sm_deprecated_at r)
    (sm_created_by r) (sm_created_at r).

Definition rename_row (s : session) (template : uuid) (name : string) (rows : list SourceMappingRow) (r : SourceMappingRow)
    : result sql_error SourceMappingRow :=
  if policy_using s (sm_tenant r) && String.eqb (sm_template r) template then
    raise_if (negb (policy_check s (sm_tenant r))) (OtherSqlError "42501") ≫= fun _ =>
    raise_if (name_conflict (set_name name r) rows) (IntegrityError "ex_csm_template_name_per_source") ≫= fun _ =>
    Ok (set_name name r)
  else Ok r.

Definition update_name (s : session) (template : uuid) (name : string) (db : templates) : result sql_error unit * templates :=
  match map_res (rename_row s template name (td_rows db)) (td_rows db) with
  | Ok rows => (Ok tt, mkTemplates rows (td_next db) (td_tenants db))
  | Err e => (Err e, db)
  end.

(** [UPDATE ... SET mapping_rules WHERE mapping_version_id = ...] *)
Definition set_rules (rules : value) (r : SourceMappingRow) : SourceMappingRow :=
  mkSourceMappingRow (sm_version_id r) (sm_tenant r) (sm_source r) (sm_template r) (sm_name r) (sm_seq r) (sm_status r)
    (sm_type r) rules (sm_pre_suite r) (sm_post_suite r) (sm_predecessor r) (sm_activated_at r) (sm_deprecated_at r)
    (sm_created_by r) (sm_created_at r).

Definition edit_row (s : session) (id : Z) (rules : value) (r : SourceMappingRow) : result sql_error SourceMappingRow :=
  if policy_using s (sm_tenant r) && (sm_version_id r =? id)%Z then
    raise_if (negb (policy_check s (sm_tenant r))) (OtherSqlError "42501") ≫= fun _ => Ok (set_rules rules r)
  else Ok r.

Definition update_rules (s : session) (id : Z) (rules : value) (db : templates) : result sql_error unit * templates :=
  match map_res (edit_row s id rules) (td_rows db) with
  | Ok rows => (Ok tt, mkTemplates rows (td_next db) (td_tenants db))
  | Err e => (Err e, db)
  end.

(** [ORDER BY version_seq_per_source DESC] *)
Definition seq_desc (a b : SourceMappingRow) : Prop := (sm_seq b <= sm_seq a)%Z.

Global Instance seq_desc_dec : RelDecision seq_desc.
Proof. intros a b. unfold seq_desc. apply _. Defined.

Definition select_lineage (s : session) (template : uuid) (rows : list SourceMappingRow) : list SourceMappingRow :=
  merge_sort seq_desc (filter (fun r => policy_using s (sm_tenant r) && String.eqb (sm_template r) template = true) rows).

(** ** The repository *)

Definition get_template_rows (scope : ReadScope) (template : uuid) : @action templates (list SourceMappingRow) :=
  read_session undo_templates (rs_is_platform scope) (rs_tenant_id scope)
    (fun s db => (Ok (select_lineage s template (td_rows db)), db)).

Definition template_not_found (template : uuid) : ui_exn := ResourceNotFoundError "mapping_template" template.

Definition resolve_active_template (tenant template : uuid) : @action templates SourceMappingRow :=
  rows ← get_template_rows (mkReadScope false (Some tenant)) template;
  match rows with
  | [] => act (Err (template_not_found template))
  | head :: _ =>
      match filter (fun r => sm_status r = ACTIVE) rows with
      | [] => act (Err (MappingStateConflictError "ACTIVE" (status_name (sm_status head))))
      | r :: _ => mret r
      end
  end.

Definition create_template (tenant template : uuid) (source name ty : string) (rules : value) (by_user : option uuid)
    (user_type : UserType) (now : Z) : @action templates SourceMappingRow :=
  write_session undo_templates (bool_decide (user_type = PLATFORM)) tenant (fun s db =>
    match insert_template s now (mkNewRow tenant source template name ty ACTIVE (Some now) rules None by_user) db with
    | (Ok r, db') => (Ok r, db')
    | (Err e, db') =>
        (Err (match e with
              | IntegrityError "ex_csm_template_name_per_source" => MappingTemplateNameConflictError source name
              | IntegrityError "fk_csm_tenant" => TenantScopeError
              | _ => unhandled e
              end), db')
    end).

Definition apply_rules_edit (s : session) (now : Z) (locked : list SourceMappingRow) (tenant template : uuid) (name : string)
    (rules : value) (by_user : option uuid) (db : templates) : ures unit * templates :=
  match filter (fun r => sm_status r = DRAFT) locked with
  | draft :: _ =>
      match update_rules s (sm_version_id draft) rules db with
      | (Ok _, db') => (Ok tt, db')
      | (Err e, db') => (Err (unhandled e), db')
      end
  | [] =>
      match filter (fun r => sm_status r <> DEPRECATED) locked with
      | [] => (Err (MappingStateConflictError "DRAFT, STAGED or ACTIVE" "DEPRECATED"), db)
      | head :: _ =>
          match insert_template s now (mkNewRow tenant (sm_source head) template name (sm_type head) DRAFT None rules
                                         (Some (sm_version_id head)) by_user) db with
          | (Ok _, db') => (Ok tt, db')
          | (Err e, db') =>
              (Err (match e with
                    | IntegrityError "uq_csm_seq_per_source" =>
                        MappingStateConflictError "exclusive lineage head" "concurrent writer"
                    | _ => unhandled e
                    end), db')
          end
      end
  end.

Definition rename_lineage (s : session) (template : uuid) (new_name : option string) (head : SourceMappingRow) (db : templates)
    : ures string * templates :=
  match new_name with
  | Some name =>
      if String.eqb name (sm_name head) then (Ok (sm_name head), db)
      else match update_name s template name db with
           | (Ok _, db') => (Ok name, db')
           | (Err e, db') =>
               (Err (match e with
                     | IntegrityError "ex_csm_template_name_per_source" => MappingTemplateNameConflictError (sm_source head) name
                     | _ => unhandled e
                     end), db')
           end
  | None => (Ok (sm_name head), db)
  end.

(** The body of a PATCH after its second, decisive read of the lineage. *)
Definition patch_decided (s : session) (tenant template : uuid) (new_name : option string) (rules : option value)
    (by_user : option uuid) (now : Z) (locked : list SourceMappingRow) (db : templates) : ures (list SourceMappingRow) * templates :=
  match locked with
  | [] => (Err (template_not_found template), db)
  | head :: _ =>
      match rename_lineage s template new_name head db with
      | (Err e, db1) => (Err e, db1)
      | (Ok name, db1) =>
          match (match rules with
                 | Some doc => apply_rules_edit s now locked tenant template name doc by_user db1
                 | None => (Ok tt, db1)
                 end) with
          | (Err e, db2) => (Err e, db2)
          | (Ok _, db2) => (Ok (select_lineage s template (td_rows db2)), db2)
          end
      end
  end.

(** The whole body, as one PATCH alone runs it. *)
Definition patch_body (s : session) (tenant template : uuid) (new_name : option string) (rules : option value)
    (by_user : option uuid) (now : Z) (db : templates) : ures (list SourceMappingRow) * templates :=
  patch_decided s tenant template new_name rules by_user now (select_lineage s template (td_rows db)) db.

Definition patch_template (tenant template : uuid) (new_name : option string) (rules : option value)
    (by_user : option uuid) (user_type : UserType) (now : Z) : @action templates (list SourceMappingRow) :=
  write_session undo_templates (bool_decide (user_type = PLATFORM)) tenant
    (fun s => patch_body s tenant template new_name rules by_user now).
