(* ===== verification/TemplateApi.v ===== *)
(** TemplateApi: the /mapping-templates resource (dis-ui-server,
    [handlers/mapping_templates.py], [schemas/mapping_templates.py], the list
    query of [repos/mapping_templates.py]).

    A handler is an action on the engine and the table; FastAPI resolves the
    scope dependency first, then checks the body, then runs the handler. *)

From S2P Require Import Prelude Text Values Transform SourceMapping.
From S2P Require Import Canonical Provenance Rules Paths UiErrors Access Rls TemplateGate Templates.

(** ** Wire shapes *)

Definition STATUS_WIRE (s : template_status) : string :=
  match s with DRAFT => "draft" | STAGED => "staged" | ACTIVE => "active" | DEPRECATED => "deprecated" end.

Record MappingTemplateVersion := mkTemplateVersion {
  mv_version_id : Z;
  mv_version : Z;
  mv_status : string;
  mv_rules : SourceMapping;
  mv_field_count : nat;
  mv_transform_count : nat;
  mv_predecessor : option Z;
  mv_created_at : Z;
  mv_created_by : option uuid;
  mv_activated_at : option Z;
  mv_deprecated_at : option Z
}.

Record MappingTemplate := mkMappingTemplate {
  mt_template_id : uuid;
  mt_source_id : string;
  mt_template_name : string;
  mt_template_type : string;
  mt_latest_version : Z;
  mt_active_version : option Z;
  mt_staged_version : option Z;
  mt_draft_version : option Z;
  mt_versions_count : nat;
  mt_created_at : Z;
  mt_latest_created_at : Z
}.

Record MappingTemplateDetail := mkTemplateDetail {
  md_summary : MappingTemplate;
  md_versions : list MappingTemplateVersion
}.

Record MappingTemplatePatch := mkTemplatePatch {
  tp_template_name : option string;
  tp_mapping_rules : option value;
  tp_acting_for : option uuid
}.

Definition patch_body_ok (b : MappingTemplatePatch) : bool :=
  match tp_template_name b with
  | Some n => (1 <=? String.length n)%nat && (String.length n <=? 200)%nat
  | None => true
  end &&
  match tp_template_name b, tp_mapping_rules b with None, None => false | _, _ => true end.

(** ** Summaries *)

(** [max(rows, key=seq)]: the first of the largest. *)
Definition newest (first : SourceMappingRow) (rest : list SourceMappingRow) : SourceMappingRow :=
  fold_left (fun best r => if (sm_seq best <? sm_seq r)%Z then r else best) rest first.

Definition version_seq_for (rows : list SourceMappingRow) (status : template_status) : option Z :=
  match filter (fun r => sm_status r = status) rows with r :: _ => Some (sm_seq r) | [] => None end.

Definition summary_fields (rows : list SourceMappingRow) : ures MappingTemplate :=
  match rows with
  | [] => Err (Lib ValueError)
  | first :: rest =>
      let n := newest first rest in
      Ok (mkMappingTemplate (sm_template n) (sm_source n) (sm_name n) (sm_type n) (sm_seq n)
            (version_seq_for rows ACTIVE) (version_seq_for rows STAGED) (version_seq_for rows DRAFT) (length rows)
            (foldr Z.min (sm_created_at first) (map sm_created_at rest))
            (foldr Z.max (sm_created_at first) (map sm_created_at rest)))
  end.

Definition transform_count (m : SourceMapping) : nat :=
  sum_list (map length (dict_values (normalize m))) + length (cast m) + sum_list (map length (dict_values (derive m))).

Section Api.
Context `{RulesModel} `{AuthOutside}.

Definition to_version (r : SourceMappingRow) : ures MappingTemplateVersion :=
  rules ← ui (model_validate (sm_rules r));
  Ok (mkTemplateVersion (sm_version_id r) (sm_seq r) (STATUS_WIRE (sm_status r)) rules (length (rename rules))
        (transform_count rules) (sm_predecessor r) (sm_created_at r) (sm_created_by r) (sm_activated_at r) (sm_deprecated_at r)).

Definition to_detail (rows : list SourceMappingRow) : ures MappingTemplateDetail :=
  let ordered := merge_sort seq_desc rows in
  summary ← summary_fields ordered;
  versions ← map_res to_version ordered;
  Ok (mkTemplateDetail summary versions).

(** ** GET *)

(** [ORDER BY source_id, template_name, template_id, version_seq_per_source DESC] *)
Definition list_order (a b : SourceMappingRow) : Prop :=
  if String.eqb (sm_source a) (sm_source b) then
    if String.eqb (sm_name a) (sm_name b) then
      if String.eqb (sm_template a) (sm_template b) then seq_desc a b
      else String.leb (sm_template a) (sm_template b) = true
    else String.leb (sm_name a) (sm_name b) = true
  else String.leb (sm_source a) (sm_source b) = true.

Global Instance list_order_dec : RelDecision list_order.
Proof. intros a b. unfold list_order. repeat case_match; apply _. Defined.

Definition list_template_rows (scope : ReadScope) (source : option string) : @action templates (list SourceMappingRow) :=
  read_session undo_templates (rs_is_platform scope) (rs_tenant_id scope) (fun s db =>
    (Ok (merge_sort list_order
           (filter (fun r => policy_using s (sm_tenant r) &&
                             match source with Some x => String.eqb (sm_source r) x | None => true end = true) (td_rows db))), db)).

(** [by_template.setdefault(template_id, []).append(row)], in insertion order. *)
Definition group_rows (rows : list SourceMappingRow) : dict (list SourceMappingRow) :=
  fold_left (fun d r => dict_set d (sm_template r) (default [] (dict_get d (sm_template r)) ++ [r])) rows [].

Definition summary_order (a b : MappingTemplate) : Prop :=
  if String.eqb (mt_source_id a) (mt_source_id b) then String.leb (mt_template_name a) (mt_template_name b) = true
  else String.leb (mt_source_id a) (mt_source_id b) = true.

Global Instance summary_order_dec : RelDecision summary_order.
Proof. intros a b. unfold summary_order. case_match; apply _. Defined.

Definition list_mapping_templates (r : request) (source : option string) : @action templates (list MappingTemplate) :=
  scope ← act (require_read_scope r);
  rows ← list_template_rows scope source;
  summaries ← act (map_res summary_fields (dict_values (group_rows rows)));
  mret (merge_sort summary_order summaries).

Definition get_mapping_template (r : request) (template : uuid) : @action templates MappingTemplateDetail :=
  scope ← act (require_read_scope r);
  rows ← get_template_rows scope template;
  match rows with
  | [] => act (Err (template_not_found template))
  | _ => act (to_detail rows)
  end.

(** ** POST and PATCH *)

Definition created_by_uuid (identity : Identity) : option uuid := py_uuid (id_user_id identity).

Definition create_mapping_template (r : request) (b : MappingTemplateCreate) (fresh : uuid) (now : Z)
    : @action templates MappingTemplateDetail :=
  identity ← act (get_current_identity r);
  scope ← act (require_write_scope r);
  act (raise_if (negb (create_body_ok b)) RequestValidationError) ≫= fun _ =>
  acted_for ← act (resolve_acted_for scope (tc_acting_for b));
  source ← act (create_rules b);
  row ← create_template acted_for fresh (tc_source_id b) (tc_template_name b) (tc_template_type b) (dump_rules source)
          (created_by_uuid identity) (ws_user_type scope) now;
  act (to_detail [row]).

(** The rules of an edit, checked against the stored type. *)
Definition edited_rules (acted_for template : uuid) (raw : option value) : @action templates (option value) :=
  match raw with
  | None => mret None
  | Some doc =>
      rows ← get_template_rows (mkReadScope false (Some acted_for)) template;
      match rows with
      | [] => act (Err (template_not_found template))
      | row :: _ => source ← act (validate_mapping_rules_for_type doc (sm_type row)); mret (Some (dump_rules source))
      end
  end.

Definition patch_mapping_template (r : request) (template : uuid) (b : MappingTemplatePatch) (now : Z)
    : @action templates MappingTemplateDetail :=
  identity ← act (get_current_identity r);
  scope ← act (require_write_scope r);
  act (raise_if (negb (patch_body_ok b)) RequestValidationError) ≫= fun _ =>
  acted_for ← act (resolve_acted_for scope (tp_acting_for b));
  rules ← edited_rules acted_for template (tp_mapping_rules b);
  rows ← patch_template acted_for template (tp_template_name b) rules (created_by_uuid identity) (ws_user_type scope) now;
  act (to_detail rows).
End Api.
