(* ===== verification/TemplateLife.v ===== *)
(** TemplateLife: the lifecycle of a template, after what the statements on the template table change.

    [pinned s t]: the session may write rows of tenant [t] only.  The lemmas on
    the statements give the rows after a successful one, and that rows of other
    tenants stay as they are. *)

From S2P Require Import Prelude Text Values Transform SourceMapping Canonical Provenance Paths UiErrors Access Rules TemplateGate GateTheorems Rls.
From S2P Require Import Templates.

(** ** Rows by tenant and by template *)

Definition rows_of_tenant (u : uuid) (rows : list SourceMappingRow) : list SourceMappingRow :=
  filter (fun r => sm_tenant r = u) rows.

Definition lineage (template : uuid) (rows : list SourceMappingRow) : list SourceMappingRow :=
  filter (fun r => sm_template r = template) rows.

Lemma lineage_elem template rows r : r ∈ lineage template rows <-> sm_template r = template /\ r ∈ rows.
Proof. unfold lineage. by rewrite list_elem_of_filter. Qed.

Definition pinned (s : session) (t : uuid) : Prop := forall u, policy_check s u = true -> u = t.

Lemma check_sees s u : policy_check s u = true -> policy_using s u = true.
Proof. unfold policy_check, policy_using. by intros ->. Qed.

(** The rows of every tenant but one are as before. *)
Definition only_tenant (t : uuid) (rows rows' : list SourceMappingRow) : Prop :=
  forall u, u <> t -> rows_of_tenant u rows' = rows_of_tenant u rows.

Global Instance only_tenant_refl t : Reflexive (only_tenant t).
Proof. by intros rows u. Qed.

Global Instance only_tenant_trans t : Transitive (only_tenant t).
Proof. intros r1 r2 r3 H1 H2 u Hu. by rewrite H2, H1. Qed.

Lemma only_tenant_snoc t rows r : sm_tenant r = t -> only_tenant t rows (rows ++ [r]).
Proof.
  intros Ht u Hu. unfold rows_of_tenant. rewrite filter_app, filter_cons_False, filter_nil; [by rewrite app_nil_r|congruence].
Qed.

Lemma only_tenant_update t rows rows' :
  Forall2 (fun r r' => sm_tenant r' = sm_tenant r /\ (sm_tenant r <> t -> r' = r)) rows rows' -> only_tenant t rows rows'.
Proof.
  intros HF u Hu. unfold rows_of_tenant. induction HF as [|r r' rows rows' [Ht Hr] _ IH]; [done|].
  destruct (decide (sm_tenant r = u)) as [He|He].
  - rewrite !filter_cons_True by congruence. rewrite IH, Hr; [done|congruence].
  - rewrite !filter_cons_False by congruence. done.
Qed.

(** ** INSERT *)

Record inserted (s : session) (now : Z) (n : NewRow) (db : templates) (r : SourceMappingRow) (db' : templates) : Prop := {
  in_row : r = new_row_of (td_next db) (next_seq s (nw_tenant n) (nw_source n) (nw_template n) (td_rows db)) now n;
  in_rows : td_rows db' = td_rows db ++ [r];
  in_next : td_next db' = (td_next db + 1)%Z;
  in_tenants : td_tenants db' = td_tenants db;
  in_check : policy_check s (nw_tenant n) = true;
  in_width : (sm_seq r <= SMALLINT_MAX)%Z;
  in_free : index_violation r (td_rows db) = None;
  in_mirrored : nw_tenant n ∈ td_tenants db
}.

Lemma insert_cases s now n db res db' :
  insert_template s now n db = (res, db') ->
  (exists r, res = Ok r /\ inserted s now n db r db') \/
  (exists e, res = Err e /\ td_rows db' = td_rows db /\ td_tenants db' = td_tenants db).
Proof.
  unfold insert_template. cbv zeta. set (r := new_row_of _ _ now n).
  destruct (_ <? _)%Z eqn:Hw; [intros [= <- <-]; right; by eexists|].
  destruct (policy_check s (sm_tenant r)) eqn:Hc; cbn [negb]; [|intros [= <- <-]; right; by eexists].
  destruct (row_checks r); cbn [negb]; [|intros [= <- <-]; right; by eexists].
  destruct (index_violation r (td_rows db)) as [c|] eqn:Hi; [intros [= <- <-]; right; by eexists|].
  destruct (mem (sm_tenant r) (td_tenants db)) eqn:Hm; cbn [negb]; [|intros [= <- <-]; right; by eexists].
  intros [= <- <-]. left. exists r. split; [done|]. apply mem_elem in Hm. apply Z.ltb_ge in Hw. by split.
Qed.

Lemma index_free r rows :
  index_violation r rows = None ->
  (forall q, q ∈ rows -> sm_version_id q <> sm_version_id r) /\ name_conflict r rows = false.
Proof.
  unfold index_violation. cbv zeta. destruct (existsb (fun q => sm_version_id q =? _)%Z rows) eqn:Hp; [done|].
  destruct (existsb (fun q => _ && (sm_seq q =? _)%Z) rows); [done|]. destruct (name_conflict r rows); [done|].
  intros _. split; [|done].
  intros q Hq Heq. apply not_true_iff_false in Hp. apply Hp, existsb_exists. exists q.
  split; [by apply list_elem_of_In|]. by apply Z.eqb_eq.
Qed.

Lemma no_name_conflict r rows q :
  name_conflict r rows = false -> sm_status r <> DEPRECATED -> q ∈ rows -> sm_status q <> DEPRECATED ->
  sm_tenant q = sm_tenant r -> sm_source q = sm_source r -> sm_name q = sm_name r -> sm_template q = sm_template r.
Proof.
  unfold name_conflict. intros Hc Hr Hq Hs Ht Hsrc Hn. rewrite bool_decide_false in Hc by done. cbn in Hc.
  destruct (decide (sm_template q = sm_template r)); [done|]. exfalso. apply not_true_iff_false in Hc.
  apply Hc, existsb_exists. exists q. split; [by apply list_elem_of_In|].
  rewrite bool_decide_false by done. rewrite Ht, Hsrc, Hn, !String.eqb_refl. cbn.
  by apply negb_true_iff, String.eqb_neq.
Qed.

(** ** UPDATE *)

Lemma rename_cases s template name db res db' :
  update_name s template name db = (res, db') ->
  (exists e, res = Err e /\ db' = db) \/
  (res = Ok tt /\ td_next db' = td_next db /\ td_tenants db' = td_tenants db /\
   Forall2 (fun r r' => r' = r /\ (policy_using s (sm_tenant r) = false \/ sm_template r <> template) \/
              r' = set_name name r /\ sm_template r = template /\ policy_check s (sm_tenant r) = true /\
              name_conflict (set_name name r) (td_rows db) = false) (td_rows db) (td_rows db')).
Proof.
  unfold update_name. destruct (map_res _ _) as [rows|e] eqn:Hm; intros [= <- <-]; [right|left; by eexists].
  split_and!; [done..|]. cbn. apply map_res_ok in Hm. eapply Forall2_impl; [exact Hm|]. clear Hm.
  intros r r' Hr. unfold rename_row in Hr. destruct (policy_using s (sm_tenant r)) eqn:Hu, (String.eqb_spec (sm_template r) template);
    cbn in Hr; inv_ok; [right|left..]; try (split; [done|tauto]).
  split_and!; [done..| |done]. by apply negb_false_iff.
Qed.

Lemma edit_cases s id rules db res db' :
  update_rules s id rules db = (res, db') ->
  (exists e, res = Err e /\ db' = db) \/
  (res = Ok tt /\ td_next db' = td_next db /\ td_tenants db' = td_tenants db /\
   Forall2 (fun r r' => r' = r /\ (policy_using s (sm_tenant r) = false \/ sm_version_id r <> id) \/
              r' = set_rules rules r /\ sm_version_id r = id /\ policy_check s (sm_tenant r) = true)
     (td_rows db) (td_rows db')).
Proof.
  unfold update_rules. destruct (map_res _ _) as [rows|e] eqn:Hm; intros [= <- <-]; [right|left; by eexists].
  split_and!; [done..|]. cbn. apply map_res_ok in Hm. eapply Forall2_impl; [exact Hm|]. clear Hm.
  intros r r' Hr. unfold edit_row in Hr. destruct (policy_using s (sm_tenant r)) eqn:Hu, (Z.eqb_spec (sm_version_id r) id);
    cbn in Hr; inv_ok; [right|left..]; try (split; [done|tauto]).
  split_and!; [done..|]. by apply negb_false_iff.
Qed.

(** ** Isolation *)

Section Pinned.
Context (s : session) (t : uuid) (Hpin : pinned s t).

Lemma insert_isolated now n db res db' :
  insert_template s now n db = (res, db') -> only_tenant t (td_rows db) (td_rows db').
Proof.
  intros [(r & _ & Hi)|(e & _ & Hr & _)]%insert_cases; [|by rewrite Hr].
  rewrite (in_rows _ _ _ _ _ _ Hi). apply only_tenant_snoc. rewrite (in_row _ _ _ _ _ _ Hi). cbn.
  apply Hpin, Hi.
Qed.

Lemma rename_isolated template name db res db' :
  update_name s template name db = (res, db') -> only_tenant t (td_rows db) (td_rows db').
Proof.
  intros [(e & _ & ->)|(_ & _ & _ & HF)]%rename_cases; [done|]. apply only_tenant_update.
  eapply Forall2_impl; [exact HF|]. intros r r' [[-> _]|(-> & _ & Hc & _)]; [done|].
  split; [done|]. intros Hne. by apply Hpin in Hc.
Qed.

Lemma edit_isolated id rules db res db' :
  update_rules s id rules db = (res, db') -> only_tenant t (td_rows db) (td_rows db').
Proof.
  intros [(e & _ & ->)|(_ & _ & _ & HF)]%edit_cases; [done|]. apply only_tenant_update.
  eapply Forall2_impl; [exact HF|]. intros r r' [[-> _]|(-> & _ & Hc)]; [done|].
  split; [done|]. intros Hne. by apply Hpin in Hc.
Qed.

Lemma rules_edit_isolated now locked tenant template name rules by_user db res db' :
  apply_rules_edit s now locked tenant template name rules by_user db = (res, db') -> only_tenant t (td_rows db) (td_rows db').
Proof.
  unfold apply_rules_edit. destruct (filter _ locked) as [|draft ?].
  - destruct (filter _ locked) as [|head ?]; [by intros [= <- <-]|].
    destruct (insert_template _ _ _ _) as [[]] eqn:Hi; intros [= <- <-]; by eapply insert_isolated.
  - destruct (update_rules _ _ _ _) as [[]] eqn:Hu; intros [= <- <-]; by eapply edit_isolated.
Qed.

Lemma rename_lineage_isolated template new_name head db res db' :
  rename_lineage s template new_name head db = (res, db') -> only_tenant t (td_rows db) (td_rows db').
Proof.
  unfold rename_lineage. destruct new_name as [name|]; [|by intros [= <- <-]].
  destruct (String.eqb _ _); [by intros [= <- <-]|].
  destruct (update_name _ _ _ _) as [[]] eqn:Hu; intros [= <- <-]; by eapply rename_isolated.
Qed.

Lemma patch_body_isolated tenant template new_name rules by_user now db res db' :
  patch_body s tenant template new_name rules by_user now db = (res, db') -> only_tenant t (td_rows db) (td_rows db').
Proof.
  unfold patch_body, patch_decided. destruct (select_lineage _ _ _) as [|head rest]; [by intros [= <- <-]|].
  destruct (rename_lineage _ _ _ _ _) as [[name|e] db1] eqn:Hn; [|intros [= <- <-]; by eapply rename_lineage_isolated].
  apply rename_lineage_isolated in Hn. destruct rules as [doc|]; [|by intros [= <- <-]].
  destruct (apply_rules_edit _ _ _ _ _ _ _ _ _) as [[] db2] eqn:He; intros [= <- <-]; etrans; eauto using rules_edit_isolated.
Qed.
End Pinned.

(** The sessions a write opens are pinned to the tenant it acts for. *)
Lemma write_pinned p ty t : bypasses p = false -> pinned (mkSession p (mkGuc ty t)) t.
Proof.
  intros Hb u. unfold policy_check, guc_tenant. cbn. rewrite Hb. cbn. rewrite bool_decide_eq_true. case_match; naive_solver.
Qed.

Lemma write_session_isolated {A} (is_platform : bool) (t : uuid) (body : txn A) en db r en' db' :
  honest en ->
  (forall s r' db1, pinned s t -> body s db = (r', db1) -> only_tenant t (td_rows db) (td_rows db1)) ->
  write_session undo_templates is_platform t body (en, db) = (r, (en', db')) ->
  honest en' /\ only_tenant t (td_rows db) (td_rows db').
Proof.
  intros Hh Hbody Hw. assert (exists ty, verified_transaction undo_templates (mkGuc ty t) body (en, db) = (r, (en', db')))
    as [ty Hv] by (destruct is_platform; eexists; exact Hw).
  apply transaction_runs in Hv as [Hh' [(e & _ & ->)|(p & r' & db1 & Hb & Hrun & -> & ->)]]; [done| |done].
  split; [done|]. destruct r' as [a|e]; [|done]. eapply Hbody; [|exact Hrun]. by apply write_pinned.
Qed.

(** A read changes no row. *)
Lemma read_session_keeps {A} (is_platform : bool) (tenant : option uuid) (f : session -> templates -> ures A) en db r en' db' :
  honest en -> read_session undo_templates is_platform tenant (fun s d => (f s d, d)) (en, db) = (r, (en', db')) ->
  honest en' /\ td_rows db' = td_rows db /\ td_tenants db' = td_tenants db /\ td_next db' = td_next db.
Proof.
  intros Hh Hr. assert ((exists g, verified_transaction undo_templates g (fun s d => (f s d, d)) (en, db) = (r, (en', db'))) \/
    (en', db') = (en, db)) as [[g Hv]|[= -> ->]]; [|clear Hr|done].
  { destruct is_platform; [left; eexists; exact Hr|]. destruct tenant; [left; eexists; exact Hr|right].
    cbn in Hr. congruence. }
  apply transaction_runs in Hv as [Hh' [(e & _ & ->)|(p & r' & db1 & Hb & Hrun & -> & ->)]]; [done| |done].
  injection Hrun as _ <-. split; [done|]. by destruct r'.
Qed.

(** ** The lifecycle invariant of the template table

    POST creates the ACTIVE first version of a template and PATCH edits its one
    DRAFT, so every lineage is one ACTIVE version, or that version and one DRAFT
    chained to it; all rows of a template share tenant, source, name and type,
    and every stored document passed the gate for its type. *)

(** A stored document is a gated mapping, as the model dumps it. *)
Definition stored_ok (ty : string) (doc : value) : Prop := exists s m, doc = dump_rules s /\ gated ty m s.

Record version_ok (r : SourceMappingRow) : Prop := {
  vo_rules : stored_ok (sm_type r) (sm_rules r);
  vo_pre : sm_pre_suite r = None;
  vo_post : sm_post_suite r = None
}.

Record live_version (a : SourceMappingRow) : Prop := {
  lv_ok : version_ok a;
  lv_status : sm_status a = ACTIVE;
  lv_seq : sm_seq a = 1%Z;
  lv_first : sm_predecessor a = None
}.

Record draft_of (a d : SourceMappingRow) : Prop := {
  do_ok : version_ok d;
  do_status : sm_status d = DRAFT;
  do_seq : sm_seq d = 2%Z;
  do_chain : sm_predecessor d = Some (sm_version_id a);
  do_tenant : sm_tenant d = sm_tenant a;
  do_source : sm_source d = sm_source a;
  do_name : sm_name d = sm_name a;
  do_type : sm_type d = sm_type a
}.

Inductive lineage_ok : list SourceMappingRow -> Prop :=
| LO_none : lineage_ok []
| LO_live a : live_version a -> lineage_ok [a]
| LO_edited a d : live_version a -> draft_of a d -> lineage_ok [a; d].

Record tables_ok (db : templates) : Prop := {
  to_ids : NoDup (map sm_version_id (td_rows db));
  to_next : forall r, r ∈ td_rows db -> (sm_version_id r < td_next db)%Z;
  to_lineages : forall template, lineage_ok (lineage template (td_rows db));
  to_names : forall r q, r ∈ td_rows db -> q ∈ td_rows db -> sm_tenant r = sm_tenant q -> sm_source r = sm_source q ->
               sm_name r = sm_name q -> sm_template r = sm_template q;
  to_tenants : forall r, r ∈ td_rows db -> sm_tenant r ∈ td_tenants db
}.

(** ** Consequences *)

Lemma lineage_versions l r : lineage_ok l -> r ∈ l -> version_ok r /\ sm_status r <> DEPRECATED.
Proof.
  intros Hl. inversion Hl as [|a Ha|a d Ha Hd]; subst; rewrite ?elem_of_cons, ?elem_of_nil; [done|..].
  - intros [->|[]]. destruct Ha as [? Hs]. by rewrite Hs.
  - intros [->|[->|[]]]; [destruct Ha as [? Hs]|destruct Hd as [? Hs]]; by rewrite Hs.
Qed.

Lemma lineage_shared l r q :
  lineage_ok l -> r ∈ l -> q ∈ l -> sm_tenant r = sm_tenant q /\ sm_source r = sm_source q /\ sm_name r = sm_name q /\ sm_type r = sm_type q.
Proof.
  intros Hl. inversion Hl as [|a Ha|a d Ha Hd]; subst; rewrite ?elem_of_cons, ?elem_of_nil; [done|naive_solver|].
  destruct Hd. intros [->|[->|[]]] [->|[->|[]]]; auto.
Qed.

Lemma row_version db r : tables_ok db -> r ∈ td_rows db -> version_ok r /\ sm_status r <> DEPRECATED.
Proof.
  intros Hdb Hr. apply (lineage_versions (lineage (sm_template r) (td_rows db))); [apply Hdb|]. by apply lineage_elem.
Qed.

Lemma same_row db r q : tables_ok db -> r ∈ td_rows db -> q ∈ td_rows db -> sm_version_id r = sm_version_id q -> r = q.
Proof.
  intros Hdb [i Hi]%list_elem_of_lookup_1 [j Hj]%list_elem_of_lookup_1 He.
  assert (i = j) as ->; [|congruence].
  eapply NoDup_lookup; [apply (to_ids _ Hdb)|..]; rewrite list_lookup_fmap; [by rewrite Hi|by rewrite Hj, He].
Qed.

(** ** Updates row by row *)

Lemma lineage_Forall2 (R : SourceMappingRow -> SourceMappingRow -> Prop) template rows rows' :
  (forall r r', R r r' -> sm_template r' = sm_template r) ->
  Forall2 R rows rows' -> Forall2 R (lineage template rows) (lineage template rows').
Proof.
  intros HR HF. unfold lineage. induction HF as [|r r' rows rows' Hr _ IH]; [done|].
  pose proof (HR _ _ Hr). destruct (decide (sm_template r = template)).
  - rewrite !filter_cons_True by congruence. by constructor.
  - by rewrite !filter_cons_False by congruence.
Qed.

Lemma Forall2_elem_r {A B} (R : A -> B -> Prop) l l' y : Forall2 R l l' -> y ∈ l' -> exists x, x ∈ l /\ R x y.
Proof.
  induction 1 as [|x y' l l' Hxy _ IH]; rewrite ?elem_of_nil, ?elem_of_cons; [done|].
  intros [->|Hy]; [exists x; split; [left|done]|]. destruct (IH Hy) as (z & ? & ?). exists z. split; [by right|done].
Qed.

Lemma Forall2_elem_l {A B} (R : A -> B -> Prop) l l' x : Forall2 R l l' -> x ∈ l -> exists y, y ∈ l' /\ R x y.
Proof.
  induction 1 as [|x' y l l' Hxy _ IH]; rewrite ?elem_of_nil, ?elem_of_cons; [done|].
  intros [->|Hx]; [exists y; split; [left|done]|]. destruct (IH Hx) as (z & ? & ?). exists z. split; [by right|done].
Qed.

Lemma Forall2_members {A B} (R : A -> B -> Prop) l l' :
  Forall2 R l l' -> Forall2 (fun x y => x ∈ l /\ y ∈ l' /\ R x y) l l'.
Proof.
  induction 1 as [|x y l l' Hxy _ IH]; [done|]. constructor; [split_and!; [left|left|done]|].
  eapply Forall2_impl; [exact IH|]. intros ?? (? & ? & ?). split_and!; [by right|by right|done].
Qed.

(** What both updates keep of a row. *)
Definition same_version (r r' : SourceMappingRow) : Prop :=
  sm_version_id r' = sm_version_id r /\ sm_tenant r' = sm_tenant r /\ sm_source r' = sm_source r /\
  sm_template r' = sm_template r /\ sm_status r' = sm_status r /\ sm_seq r' = sm_seq r /\ sm_type r' = sm_type r /\
  sm_predecessor r' = sm_predecessor r /\ sm_pre_suite r' = sm_pre_suite r /\ sm_post_suite r' = sm_post_suite r.

Lemma same_version_refl r : same_version r r.
Proof. by repeat split. Qed.

Lemma live_update a a' : live_version a -> same_version a a' -> stored_ok (sm_type a) (sm_rules a') -> live_version a'.
Proof.
  intros [[Hr Hp Hq] Hs Hn Hf] (Hid & Ht & Hsrc & Htm & Hst & Hseq & Hty & Hpre & Hp1 & Hp2) Hok.
  repeat split; congruence.
Qed.

Lemma draft_update a d a' d' :
  draft_of a d -> same_version a a' -> same_version d d' -> sm_name d' = sm_name a' -> stored_ok (sm_type d) (sm_rules d') ->
  draft_of a' d'.
Proof.
  intros [[Hr Hp Hq] Hs Hn Hc Ht Hsrc Hnm Hty] Ha Hd Hname Hok. unfold same_version in *.
  destruct_and!. repeat split; congruence.
Qed.

Lemma ids_update rows rows' : Forall2 same_version rows rows' -> map sm_version_id rows' = map sm_version_id rows.
Proof. induction 1 as [|r r' rows rows' Hr _ IH]; [done|]. cbn. rewrite IH. f_equal. apply Hr. Qed.

(** An update keeps the invariant when it keeps the documents gated, the names
    of a lineage together and the names of a source apart. *)
Lemma tables_ok_update db db' :
  tables_ok db -> td_next db' = td_next db -> td_tenants db' = td_tenants db ->
  Forall2 (fun r r' => same_version r r' /\ stored_ok (sm_type r) (sm_rules r')) (td_rows db) (td_rows db') ->
  (forall r q, r ∈ td_rows db' -> q ∈ td_rows db' -> sm_template r = sm_template q -> sm_name r = sm_name q) ->
  (forall r q, r ∈ td_rows db' -> q ∈ td_rows db' -> sm_tenant r = sm_tenant q -> sm_source r = sm_source q ->
               sm_name r = sm_name q -> sm_template r = sm_template q) ->
  tables_ok db'.
Proof.
  intros Hdb Hnext Hten HF Htog Hnames.
  assert (Forall2 same_version (td_rows db) (td_rows db')) as HV by (eapply Forall2_impl; [exact HF|naive_solver]).
  split; [rewrite (ids_update _ _ HV); apply Hdb| | |done|].
  - intros r' Hr'. destruct (Forall2_elem_r _ _ _ _ HV Hr') as (r & Hr & Hid & _). rewrite Hid, Hnext. by apply (to_next _ Hdb).
  - intros template. assert (Forall2 (fun r r' => same_version r r' /\ stored_ok (sm_type r) (sm_rules r'))
      (lineage template (td_rows db)) (lineage template (td_rows db'))) as HL.
    { apply lineage_Forall2; [|done]. intros r r' [(_ & _ & _ & ? & _) _]. done. }
    pose proof (to_lineages _ Hdb template) as Hl. revert HL.
    assert (forall r, r ∈ lineage template (td_rows db') -> r ∈ td_rows db' /\ sm_template r = template) as Hel
      by (intros r Hr; apply lineage_elem in Hr; tauto). revert Hel.
    inversion Hl as [|a Ha|a d Ha Hd]; intros Hel HL.
    + inversion HL. constructor.
    + inversion HL as [|? a' ? ? [Hv Hok] Hnil]; subst. inversion Hnil. constructor. by eapply live_update.
    + inversion HL as [|? a' ? ? [Hv Hok] Hrest E1 E2]; subst. inversion Hrest as [|? d' ? ? [Hv2 Hok2] Hnil E3 E4]; subst.
      inversion Hnil; subst. rewrite <- E2 in Hel. constructor; [by eapply live_update|].
      eapply draft_update; [exact Hd|done|done| |done].
      destruct (Hel a') as [Ha1 Ha2]; [left|]. destruct (Hel d') as [Hd1 Hd2]; [right; left|]. apply Htog; congruence.
  - intros r' Hr'. destruct (Forall2_elem_r _ _ _ _ HV Hr') as (r & Hr & _ & -> & _). rewrite Hten. by apply (to_tenants _ Hdb).
Qed.

(** ** Inserting a version *)

Lemma insert_keeps s now n db r db' :
  tables_ok db -> inserted s now n db r db' -> nw_status n <> DEPRECATED ->
  lineage_ok (lineage (nw_template n) (td_rows db) ++ [r]) -> tables_ok db'.
Proof.
  intros Hdb Hi Hst Hl. destruct (index_free _ _ (in_free _ _ _ _ _ _ Hi)) as [Hid Hname].
  assert (sm_template r = nw_template n /\ sm_tenant r = nw_tenant n /\ sm_status r = nw_status n /\ sm_version_id r = td_next db)
    as (Htm & Hte & Hss & Hvi) by (by rewrite (in_row _ _ _ _ _ _ Hi)).
  pose proof (in_rows _ _ _ _ _ _ Hi) as Hrows. split; rewrite Hrows.
  - rewrite map_app. apply NoDup_app. split_and!; [apply Hdb| |apply NoDup_singleton].
    intros i (q & -> & Hq)%list_elem_of_fmap. cbn. rewrite list_elem_of_singleton. by apply Hid.
  - intros q. rewrite (in_next _ _ _ _ _ _ Hi), elem_of_app, list_elem_of_singleton. intros [Hq| ->]; [|lia].
    apply (to_next _ Hdb) in Hq. lia.
  - intros template. unfold lineage. rewrite filter_app. destruct (decide (sm_template r = template)) as [He|He].
    + rewrite filter_cons_True, filter_nil by done. rewrite Htm in He. by subst template.
    + rewrite filter_cons_False, filter_nil, app_nil_r by done. apply (to_lineages _ Hdb).
  - assert (forall q, q ∈ td_rows db -> sm_tenant q = sm_tenant r -> sm_source q = sm_source r -> sm_name q = sm_name r ->
              sm_template q = sm_template r) as Hq.
    { intros q Hq ???. apply (no_name_conflict r (td_rows db)); try done; [by rewrite Hss|]. by apply (row_version db). }
    intros p q. rewrite !elem_of_app, !list_elem_of_singleton. intros [Hp| ->] [Hqq| ->] ???; auto.
    + by apply (to_names _ Hdb).
    + symmetry. apply Hq; congruence.
  - intros q. rewrite (in_tenants _ _ _ _ _ _ Hi), elem_of_app, list_elem_of_singleton. intros [Hq| ->].
    + by apply (to_tenants _ Hdb).
    + rewrite Hte. apply Hi.
Qed.

Lemma in_lineage_filter s t src template rows :
  policy_using s t = true -> (forall r, r ∈ lineage template rows -> sm_tenant r = t /\ sm_source r = src) ->
  filter (fun r => policy_using s (sm_tenant r) && in_lineage t src template r = true) rows = lineage template rows.
Proof.
  intros Hu Hl. unfold lineage in *. induction rows as [|r rows IH]; [done|].
  assert (forall q, q ∈ filter (fun r => sm_template r = template) rows -> sm_tenant q = t /\ sm_source q = src) as Hl'.
  { intros q Hq. apply Hl. rewrite filter_cons. case_decide; [by right|done]. }
  destruct (decide (sm_template r = template)) as [He|He].
  - destruct (Hl r) as [H1 H2]; [rewrite filter_cons_True by done; left|].
    rewrite !filter_cons_True; [by rewrite IH|done|]. unfold in_lineage. by rewrite H1, H2, He, Hu, !String.eqb_refl.
  - rewrite !filter_cons_False; [by rewrite IH|done|]. unfold in_lineage.
    rewrite (proj2 (String.eqb_neq _ _) He), !andb_false_r. done.
Qed.

(** The first version of a fresh template. *)
Lemma create_keeps s now t src template name ty doc by_user db r db' :
  tables_ok db -> lineage template (td_rows db) = [] -> stored_ok ty doc ->
  inserted s now (mkNewRow t src template name ty ACTIVE (Some now) doc None by_user) db r db' -> tables_ok db'.
Proof.
  intros Hdb Hfresh Hok Hi. eapply insert_keeps; [done|exact Hi|done|]. cbn. rewrite Hfresh. constructor.
  rewrite (in_row _ _ _ _ _ _ Hi). repeat split; try done. cbn. unfold next_seq.
  rewrite in_lineage_filter, Hfresh; [done|apply check_sees, Hi|]. rewrite Hfresh. intros q []%not_elem_of_nil.
Qed.

(** The one draft of a live template. *)
Lemma chain_draft_keeps s now t template name doc by_user db a r db' :
  tables_ok db -> lineage template (td_rows db) = [a] -> sm_tenant a = t -> sm_name a = name -> stored_ok (sm_type a) doc ->
  inserted s now (mkNewRow t (sm_source a) template name (sm_type a) DRAFT None doc (Some (sm_version_id a)) by_user) db r db' ->
  tables_ok db'.
Proof.
  intros Hdb Hl Ht Hn Hok Hi. assert (live_version a) as Ha.
  { pose proof (to_lineages _ Hdb template) as Hlin. rewrite Hl in Hlin. by inversion Hlin. }
  eapply insert_keeps; [done|exact Hi|done|]. cbn. rewrite Hl. constructor; [done|].
  rewrite (in_row _ _ _ _ _ _ Hi). repeat split; try done. cbn. unfold next_seq.
  rewrite in_lineage_filter, Hl; [cbn; rewrite (lv_seq _ Ha); done|apply check_sees, Hi|].
  rewrite Hl. intros q ->%list_elem_of_singleton. done.
Qed.

(** ** Renaming and editing *)

Lemma template_together db r q :
  tables_ok db -> r ∈ td_rows db -> q ∈ td_rows db -> sm_template r = sm_template q ->
  sm_tenant r = sm_tenant q /\ sm_source r = sm_source q /\ sm_name r = sm_name q /\ sm_type r = sm_type q.
Proof.
  intros Hdb Hr Hq He. apply (lineage_shared (lineage (sm_template q) (td_rows db))); [apply Hdb|apply lineage_elem; by split..].
Qed.

Lemma stored_row db r : tables_ok db -> r ∈ td_rows db -> stored_ok (sm_type r) (sm_rules r).
Proof. intros Hdb Hr. by destruct (row_version db r Hdb Hr) as [[]]. Qed.

Section Rename.
Context (s : session) (template : uuid) (name : string) (db db' : templates) (Hdb : tables_ok db).
Context (HF : Forall2 (fun r r' => r' = r /\ (policy_using s (sm_tenant r) = false \/ sm_template r <> template) \/
              r' = set_name name r /\ sm_template r = template /\ policy_check s (sm_tenant r) = true /\
              name_conflict (set_name name r) (td_rows db) = false) (td_rows db) (td_rows db')).

(** A row afterwards: another one's, or renamed without a conflict. *)
Definition renamed_from (r r' : SourceMappingRow) : Prop :=
  r' = r /\ (policy_using s (sm_tenant r) = false \/ sm_template r <> template) \/
  r' = set_name name r /\ sm_template r = template /\ policy_using s (sm_tenant r) = true /\
  name_conflict (set_name name r) (td_rows db) = false.

Lemma renamed_back r' : r' ∈ td_rows db' -> exists r, r ∈ td_rows db /\ renamed_from r r'.
Proof using HF.
  intros Hr'. destruct (Forall2_elem_r _ _ _ _ HF Hr') as (r & Hr & [[-> ?]|(-> & ? & ? & ?)]); exists r;
    (split; [done|]); [by left|right]. auto using check_sees.
Qed.

Lemma renamed_together r q : r ∈ td_rows db' -> q ∈ td_rows db' -> sm_template r = sm_template q -> sm_name r = sm_name q.
Proof using HF Hdb.
  intros (r0 & Hr & Cr)%renamed_back (q0 & Hq & Cq)%renamed_back He.
  assert (sm_template r0 = sm_template q0) as He0.
  { destruct Cr as [[-> _]|(-> & _)], Cq as [[-> _]|(-> & _)]; done. }
  destruct (template_together db r0 q0 Hdb Hr Hq He0) as (Hten & _ & Hnm & _).
  destruct Cr as [[-> [?|?]]|(-> & ? & ? & _)], Cq as [[-> [?|?]]|(-> & ? & ? & _)]; try congruence; done.
Qed.

Lemma renamed_apart r q :
  r ∈ td_rows db' -> q ∈ td_rows db' -> sm_tenant r = sm_tenant q -> sm_source r = sm_source q ->
  sm_name r = sm_name q -> sm_template r = sm_template q.
Proof using HF Hdb.
  intros (r0 & Hr & Cr)%renamed_back (q0 & Hq & Cq)%renamed_back Hte Hsrc Hnm.
  pose proof (proj2 (row_version db r0 Hdb Hr)) as Hsr. pose proof (proj2 (row_version db q0 Hdb Hq)) as Hsq.
  destruct Cr as [[-> _]|(-> & Htr & _ & Hcr)], Cq as [[-> _]|(-> & Htq & _ & Hcq)]; cbn in *.
  - by apply (to_names _ Hdb).
  - by apply (no_name_conflict (set_name name q0) (td_rows db)).
  - symmetry. by apply (no_name_conflict (set_name name r0) (td_rows db)).
  - congruence.
Qed.
End Rename.

Lemma rename_keeps s template name db db' :
  tables_ok db -> update_name s template name db = (Ok tt, db') ->
  tables_ok db' /\ Forall2 same_version (td_rows db) (td_rows db') /\
  (forall r, r ∈ td_rows db -> sm_template r = template -> policy_using s (sm_tenant r) = true ->
     forall q, q ∈ lineage template (td_rows db') -> sm_name q = name).
Proof.
  intros Hdb [(e & [=] & _)|(_ & Hn & Ht & HF)]%rename_cases. split; [|split].
  - apply (tables_ok_update db); [done..| |by eapply renamed_together|by eapply renamed_apart].
    eapply Forall2_impl; [exact (Forall2_members _ _ _ HF)|]. intros r r' (Hr & _ & [[-> _]|(-> & _)]);
      (split; [by repeat split|exact (stored_row db r Hdb Hr)]).
  - eapply Forall2_impl; [exact HF|]. intros r r' [[-> _]|(-> & _)]; by repeat split.
  - intros r Hr Hrt Hu q [Hqt Hq]%lineage_elem. destruct (renamed_back _ _ _ _ _ HF q Hq) as (q0 & Hq0 & Cq).
    destruct Cq as [[-> C]|(-> & _)]; [|done].
    destruct (template_together db r q0 Hdb Hr Hq0) as (Hten & _); [congruence|]. rewrite Hten in Hu. naive_solver congruence.
Qed.

Lemma edit_keeps s id doc db db' :
  tables_ok db -> (forall r, r ∈ td_rows db -> sm_version_id r = id -> stored_ok (sm_type r) doc) ->
  update_rules s id doc db = (Ok tt, db') -> tables_ok db'.
Proof.
  intros Hdb Hdoc [(e & [=] & _)|(_ & Hn & Ht & HF)]%edit_cases.
  assert (forall r', r' ∈ td_rows db' -> exists r, r ∈ td_rows db /\ sm_template r' = sm_template r /\ sm_name r' = sm_name r /\
            sm_tenant r' = sm_tenant r /\ sm_source r' = sm_source r) as Hback.
  { intros r' Hr'. destruct (Forall2_elem_r _ _ _ _ HF Hr') as (r & Hr & [[-> _]|(-> & _)]); by exists r. }
  apply (tables_ok_update db); [done..| | |].
  - eapply Forall2_impl; [exact (Forall2_members _ _ _ HF)|]. intros r r' (Hr & _ & [[-> _]|(-> & Hid & _)]);
      (split; [by repeat split|]); [exact (stored_row db r Hdb Hr)|]. by apply Hdoc.
  - intros r q (r0 & Hr & Hr1 & Hr2 & _)%Hback (q0 & Hq & Hq1 & Hq2 & _)%Hback He. rewrite Hr2, Hq2.
    apply (template_together db r0 q0 Hdb Hr Hq). congruence.
  - intros r q (r0 & Hr & Hr1 & Hr2 & Hr3 & Hr4)%Hback (q0 & Hq & Hq1 & Hq2 & Hq3 & Hq4)%Hback ???. rewrite Hr1, Hq1.
    apply (to_names _ Hdb); congruence.
Qed.

(** ** PATCH *)

Lemma locked_lineage s template db r :
  tables_ok db -> r ∈ lineage template (td_rows db) -> policy_using s (sm_tenant r) = true ->
  select_lineage s template (td_rows db) ≡ₚ lineage template (td_rows db).
Proof.
  intros Hdb [Hrt Hr]%lineage_elem Hu. unfold select_lineage. rewrite merge_sort_Permutation. unfold lineage.
  assert (forall q, q ∈ td_rows db -> policy_using s (sm_tenant q) && String.eqb (sm_template q) template = true <-> sm_template q = template) as Hiff.
  { intros q Hq. rewrite andb_true_iff, String.eqb_eq. split; [tauto|]. intros Hqt. split; [|done].
    destruct (template_together db q r Hdb Hq Hr) as (Ht & _); [congruence|]. by rewrite Ht. }
  clear Hrt Hr Hu Hdb. induction (td_rows db) as [|q rows IH]; [done|].
  rewrite !filter_cons. pose proof (Hiff q ltac:(left)) as Hq. repeat case_decide; try tauto;
    rewrite IH; try done; intros p Hp; apply Hiff; by right.
Qed.

Lemma select_sees s template rows r : r ∈ select_lineage s template rows -> r ∈ lineage template rows /\ policy_using s (sm_tenant r) = true.
Proof.
  unfold select_lineage. rewrite merge_sort_Permutation, list_elem_of_filter, andb_true_iff, String.eqb_eq, lineage_elem. tauto.
Qed.

(** The draft and the head a PATCH finds among the locked rows. *)
Lemma locked_cases locked l :
  locked ≡ₚ l -> lineage_ok l -> l <> [] ->
  (exists a, l = [a] /\ filter (fun r => sm_status r = DRAFT) locked = [] /\
             filter (fun r => sm_status r <> DEPRECATED) locked = [a]) \/
  (exists a d, l = [a; d] /\ filter (fun r => sm_status r = DRAFT) locked = [d]).
Proof.
  intros Hp Hl Hne. inversion Hl as [|a Ha|a d Ha Hd]; subst; [done|left|right].
  - exists a. apply Permutation_singleton_r in Hp as ->. pose proof (lv_status _ Ha) as Hs.
    rewrite filter_cons_False, filter_nil, filter_cons_True, filter_nil by (by rewrite Hs). done.
  - exists a, d. split; [done|]. apply Permutation_singleton_r. rewrite Hp.
    rewrite filter_cons_False, filter_cons_True, filter_nil; [done|by rewrite (do_status _ _ Hd)|by rewrite (lv_status _ Ha)].
Qed.

Lemma rename_lineage_keeps s template nn head db name db1 :
  tables_ok db -> head ∈ lineage template (td_rows db) -> policy_using s (sm_tenant head) = true ->
  rename_lineage s template nn head db = (Ok name, db1) ->
  tables_ok db1 /\ Forall2 same_version (td_rows db) (td_rows db1) /\ forall q, q ∈ lineage template (td_rows db1) -> sm_name q = name.
Proof.
  intros Hdb Hh Hu. pose proof (proj1 (lineage_elem _ _ _) Hh) as [Hht Hhr].
  assert (tables_ok db /\ Forall2 same_version (td_rows db) (td_rows db) /\
          forall q, q ∈ lineage template (td_rows db) -> sm_name q = sm_name head) as Hsame.
  { split_and!; [done|apply Forall_Forall2_diag, Forall_forall; intros r _; apply same_version_refl|].
    intros q Hq. apply (lineage_shared _ q head (to_lineages _ Hdb template) Hq Hh). }
  unfold rename_lineage. destruct nn as [n|]; [|by intros [= <- <-]].
  destruct (String.eqb n (sm_name head)); [by intros [= <- <-]|].
  destruct (update_name s template n db) as [[[]|e] db2] eqn:Hup; intros [= <- <-].
  destruct (rename_keeps _ _ _ _ _ Hdb Hup) as (H1 & H2 & H3). split_and!; [done..|]. by apply (H3 head).
Qed.

Lemma patch_keeps s tenant template nn rules by_user now db rows db' :
  tables_ok db ->
  (forall doc, rules = Some doc -> forall r, r ∈ lineage template (td_rows db) -> sm_tenant r = tenant /\ stored_ok (sm_type r) doc) ->
  patch_body s tenant template nn rules by_user now db = (Ok rows, db') -> tables_ok db'.
Proof.
  intros Hdb Hdoc. unfold patch_body, patch_decided. destruct (select_lineage s template (td_rows db)) as [|head rest] eqn:Hlock; [done|].
  assert (head ∈ select_lineage s template (td_rows db)) as [Hh Hu]%select_sees by (rewrite Hlock; left).
  destruct (rename_lineage _ _ _ _ _) as [[name|e] db1] eqn:Hren; [|done].
  destruct (rename_lineage_keeps _ _ _ _ _ _ _ Hdb Hh Hu Hren) as (Hdb1 & HV & Hnames).
  destruct rules as [doc|]; [|by intros [= <- <-]]. specialize (Hdoc doc eq_refl).
  pose proof (locked_lineage _ _ _ _ Hdb Hh Hu) as Hperm. rewrite Hlock in Hperm.
  pose proof (lineage_Forall2 _ template _ _ (fun r r' '(conj _ (conj _ (conj _ (conj H _)))) => H) HV) as HL.
  unfold apply_rules_edit.
  destruct (locked_cases _ _ Hperm (to_lineages _ Hdb template)) as [(a & Hla & -> & ->)|(a & d & Hla & ->)].
  { intros Hnil. rewrite Hnil in Hh. by apply not_elem_of_nil in Hh. }
  - rewrite Hla in HL, Hdoc. destruct (Hdoc a ltac:(left)) as [Hten Hok].
    inversion HL as [|? a' ? l' Hv Hnil E1 E2]; subst. inversion Hnil; subst.
    destruct Hv as (Hid & Ht & Hsrc & Htm & Hst & Hseq & Hty & _).
    destruct (insert_template _ _ _ _) as [[r|e] db2] eqn:Hins; [|done]. intros [= _ <-].
    apply insert_cases in Hins as [(r0 & _ & Hi)|(e & [=] & _)]. rewrite <- Hsrc, <- Hty, <- Hid, <- Ht in Hi.
    eapply (chain_draft_keeps s now (sm_tenant a') template name doc by_user db1 a'); [done|by symmetry|done| |by rewrite Hty|exact Hi].
    apply Hnames. rewrite <- E2. left.
  - destruct (update_rules _ _ _ _) as [[[]|e] db2] eqn:Hup; [|done]. intros [= _ <-]. eapply edit_keeps; [done| |exact Hup].
    intros r' Hr' Hid. destruct (Forall2_elem_r _ _ _ _ HV Hr') as (r & Hr & Hid' & _ & _ & _ & _ & _ & Hty & _).
    assert (d ∈ lineage template (td_rows db)) as Hd by (rewrite Hla; right; left).
    assert (r = d) as -> by (apply (same_row db); [done..|by apply lineage_elem in Hd as [_ ?]|congruence]).
    rewrite Hty. by apply Hdoc.
Qed.

(** ** The sequence *)

Lemma insert_next s now n db r db' : insert_template s now n db = (r, db') -> td_next db' = (td_next db + 1)%Z.
Proof. unfold insert_template. cbv zeta. repeat case_match; by intros [= <- <-]. Qed.

Lemma patch_next s tenant template nn rules by_user now db r db' :
  patch_body s tenant template nn rules by_user now db = (r, db') -> (td_next db <= td_next db')%Z /\ td_tenants db' = td_tenants db.
Proof.
  unfold patch_body, patch_decided. destruct (select_lineage _ _ _) as [|head rest]; [by intros [= <- <-]|].
  destruct (rename_lineage _ _ _ _ _) as [rn db1] eqn:Hren.
  assert (td_next db1 = td_next db /\ td_tenants db1 = td_tenants db) as [Hn Ht].
  { unfold rename_lineage in Hren. destruct nn as [n|]; [|by injection Hren as <- <-].
    destruct (String.eqb _ _); [by injection Hren as <- <-|].
    destruct (update_name _ _ _ _) as [u db2] eqn:Hup. apply rename_cases in Hup.
    destruct u; injection Hren as <- <-; naive_solver. }
  rewrite <- Hn, <- Ht. destruct rn as [name|e]; [|by intros [= <- <-]].
  destruct rules as [doc|]; [|by intros [= <- <-]]. unfold apply_rules_edit.
  repeat match goal with |- context [match ?l with [] => _ | _ :: _ => _ end] => destruct l eqn:? end;
    try (by intros [= <- <-]).
  - destruct (insert_template _ _ _ _) as [[] db2] eqn:Hi; intros [= <- <-]; pose proof (insert_next _ _ _ _ _ _ Hi);
      apply insert_cases in Hi as [(? & _ & Hi)|(? & _ & _ & ?)]; (split; [lia|]); auto; apply Hi.
  - destruct (update_rules _ _ _ _) as [[] db2] eqn:Hup; intros [= <- <-]; apply edit_cases in Hup; naive_solver lia.
Qed.

Lemma tables_ok_undo db db1 : tables_ok db -> (td_next db <= td_next db1)%Z -> tables_ok (undo_templates db db1).
Proof.
  intros [H1 H2 H3 H4 H5] Hn. split; cbn; try done. intros r Hr. apply H2 in Hr. lia.
Qed.
