(* ===== verification/TemplateTheorems.v ===== *)
(** TemplateTheorems: the template API as a state machine.

    [api_step] is one request (whatever it answers), or a tenant being mirrored;
    the theorems are about every reachable table. *)

From S2P Require Import Prelude Text Values Transform SourceMapping.
From S2P Require Import Canonical Provenance Enrichment HotMapping Rules Paths UiErrors Access Rls.
From S2P Require Import TemplateGate GateTheorems Templates TemplateLife TemplateApi.

Inductive api_request : Type :=
| Create (b : MappingTemplateCreate) (fresh : uuid)
| Patch (template : uuid) (b : MappingTemplatePatch)
| Get (template : uuid)
| ListTemplates (source : option string).

Definition state : Type := engine * templates.

Definition outcome_only {A} (x : ures A * state) : ures unit * state :=
  match x with (Ok _, s) => (Ok tt, s) | (Err e, s) => (Err e, s) end.

(** A request under the tokens and clock of its time. *)
Definition serve (R : RulesModel) (O : AuthOutside) (r : request) (q : api_request) (now : Z) (s : state) : ures unit * state :=
  match q with
  | Create b fresh => outcome_only (create_mapping_template r b fresh now s)
  | Patch template b => outcome_only (patch_mapping_template r template b now s)
  | Get template => outcome_only (get_mapping_template r template s)
  | ListTemplates source => outcome_only (list_mapping_templates r source s)
  end.

(** The tenant a request names in its body. *)
Definition named_tenant (q : api_request) : option uuid :=
  match q with Create b _ => tc_acting_for b | Patch _ b => tp_acting_for b | _ => None end.

(** [new_uuid7()] mints an id no row has. *)
Definition mints_fresh (q : api_request) (rows : list SourceMappingRow) : Prop :=
  match q with Create _ fresh => lineage fresh rows = [] | _ => True end.

Inductive api_step (R : RulesModel) : state -> state -> Prop :=
| Step_request O r q now en db res s' :
    mints_fresh q (td_rows db) -> serve R O r q now (en, db) = (res, s') -> api_step R (en, db) s'
| Step_mirror en db t :
    api_step R (en, db) (en, mkTemplates (td_rows db) (td_next db) (t :: td_tenants db)).

Definition fresh_start (s : state) : Prop := en_verified s.1 = false /\ td_rows s.2 = [].

Definition reachable (R : RulesModel) (s : state) : Prop := exists s0, fresh_start s0 /\ rtc (api_step R) s0 s.

(** ** Inversion of actions *)

Lemma outcome_only_inv {A} (x : ures A * state) r s' : outcome_only x = (r, s') -> exists r', x = (r', s').
Proof. destruct x as [[a|e] s]; intros [= <- <-]; eauto. Qed.

(** Walk through a handler: an error of a pure step leaves the state, or the
    handler goes on. *)
Ltac walk :=
  repeat match goal with
  | H : outcome_only _ = _ |- _ => apply outcome_only_inv in H as [? H]
  | H : (_ ≫= _) _ = _ |- _ =>
      let e := fresh "e" in let a := fresh "a" in let s1 := fresh "st" in let Hc := fresh "Hc" in
      apply action_bind_inv in H as [(e & Hc & ->)|(a & s1 & Hc & H)]
  | H : act ?r ?s = (_, _) |- _ => unfold act in H; injection H; clear H; intros; subst
  | H : mret _ _ = (_, _) |- _ => unfold mret, action_ret in H; injection H; clear H; intros; subst
  end.

(** ** Invariant *)

Definition state_ok (s : state) : Prop := honest s.1 /\ tables_ok s.2.

Lemma keeps_rows s s' :
  state_ok s -> honest s'.1 -> td_rows s'.2 = td_rows s.2 -> td_tenants s'.2 = td_tenants s.2 -> td_next s'.2 = td_next s.2 -> state_ok s'.
Proof. intros [_ [H1 H2 H3 H4 H5]] Hh Hr Ht Hn. split; [done|]. split; rewrite ?Hr, ?Ht, ?Hn; done. Qed.

Lemma get_rows_ok scope template s r s' :
  state_ok s -> get_template_rows scope template s = (r, s') -> state_ok s' /\ td_rows s'.2 = td_rows s.2.
Proof.
  destruct s as [en db], s' as [en' db']. intros Hs Hg.
  destruct (read_session_keeps _ _ (fun se d => Ok (select_lineage se template (td_rows d))) _ _ _ _ _ (proj1 Hs) Hg) as (Hh & Hr & Ht & Hn).
  split; [|done]. by eapply keeps_rows.
Qed.

Lemma list_rows_ok scope source s r s' : state_ok s -> list_template_rows scope source s = (r, s') -> state_ok s'.
Proof.
  destruct s as [en db], s' as [en' db']. intros Hs Hg.
  destruct (read_session_keeps _ _ _ _ _ _ _ _ (proj1 Hs) Hg) as (Hh & Hr & Ht & Hn). by eapply keeps_rows.
Qed.

Lemma write_ok {A} is_platform t (body : txn A) s r s' :
  state_ok s ->
  (forall se res db1, body se s.2 = (res, db1) ->
     match res with Ok _ => tables_ok db1 | Err _ => (td_next s.2 <= td_next db1)%Z end) ->
  write_session undo_templates is_platform t body s = (r, s') -> state_ok s'.
Proof.
  destruct s as [en db], s' as [en' db']. cbn. intros [Hh Hok] Hbody Hw.
  assert (exists ty, verified_transaction undo_templates (mkGuc ty t) body (en, db) = (r, (en', db'))) as [ty Hv]
    by (destruct is_platform; eexists; exact Hw).
  apply transaction_runs in Hv as [Hh' [(e & _ & ->)|(p & r' & db1 & _ & Hrun & -> & ->)]]; [by split| |done].
  split; [done|]. cbn. specialize (Hbody _ _ _ Hrun). destruct r'; [done|]. by apply tables_ok_undo.
Qed.

Lemma create_ok t fresh src name ty doc by_user ut now s r s' :
  state_ok s -> lineage fresh (td_rows s.2) = [] -> stored_ok ty doc ->
  create_template t fresh src name ty doc by_user ut now s = (r, s') -> state_ok s'.
Proof.
  intros Hs Hfresh Hdoc Hc. eapply write_ok; [exact Hs| |exact Hc]. intros se res db1 Hb. cbv beta in Hb.
  destruct (insert_template se _ _ _) as [[row|e] db2] eqn:Hi; injection Hb as <- <-.
  - apply insert_cases in Hi as [(? & _ & Hi)|(? & [=] & _)]. eapply create_keeps; [apply Hs|done..|exact Hi].
  - rewrite (insert_next _ _ _ _ _ _ Hi). lia.
Qed.

Lemma patch_ok t template nn rules by_user ut now s r s' :
  state_ok s ->
  (forall doc, rules = Some doc -> forall q, q ∈ lineage template (td_rows s.2) -> sm_tenant q = t /\ stored_ok (sm_type q) doc) ->
  patch_template t template nn rules by_user ut now s = (r, s') -> state_ok s'.
Proof.
  intros Hs Hdoc Hp. eapply write_ok; [exact Hs| |exact Hp]. intros se [rows|e] db1 Hb.
  - eapply patch_keeps; [apply Hs|done|exact Hb].
  - by apply patch_next in Hb as [? _].
Qed.

(** A read pinned to a tenant sees its rows only. *)
Lemma tenant_sees p t u : bypasses p = false -> policy_using (mkSession p (mkGuc "TENANT" t)) u = true -> u = t.
Proof.
  intros Hb. unfold policy_using, guc_tenant. cbn. rewrite Hb. cbn. rewrite orb_false_r, bool_decide_eq_true.
  case_match; naive_solver.
Qed.

Lemma tenant_read t template en db rows s' :
  honest en -> get_template_rows (mkReadScope false (Some t)) template (en, db) = (Ok rows, s') ->
  exists p, bypasses p = false /\ rows = select_lineage (mkSession p (mkGuc "TENANT" t)) template (td_rows db).
Proof.
  intros Hh Hg. destruct s' as [en' db'].
  destruct (transaction_runs undo_templates _ _ _ _ _ _ _ Hh Hg) as [_ [(e & [=] & _)|(p & r' & db1 & Hb & Hrun & He & _)]].
  exists p. split; [done|]. injection Hrun as <- _. by injection He.
Qed.

(** The rules of an edit passed the gate for the stored type, and the template
    is the acted-for tenant's. *)
Lemma edited_ok `{RulesModel} t template raw s r s' :
  state_ok s -> edited_rules t template raw s = (r, s') ->
  state_ok s' /\ td_rows s'.2 = td_rows s.2 /\
  forall rules, r = Ok rules -> forall doc, rules = Some doc ->
    forall q, q ∈ lineage template (td_rows s.2) -> sm_tenant q = t /\ stored_ok (sm_type q) doc.
Proof.
  intros Hs He. unfold edited_rules in He. destruct raw as [doc|]; [|injection He as <- <-; naive_solver].
  walk; [eapply get_rows_ok in Hc as [? ?]; [|done]; naive_solver|].
  destruct (get_rows_ok _ _ _ _ _ Hs Hc) as [Hs1 Hr1]. destruct a as [|row rest]; [walk; naive_solver|].
  walk; [naive_solver|]. split_and!; [done..|]. intros rules [= <-] d [= <-] q Hq.
  match goal with Hv : validate_mapping_rules_for_type _ _ = Ok ?m |- _ => apply gate_facts in Hv as [_ (mo & Hg)] end.
  destruct s as [en db].
  destruct (tenant_read _ _ _ _ _ _ (proj1 Hs) Hc) as (p & Hb & Hsel).
  assert (row ∈ row :: rest) as Hin by left. rewrite Hsel in Hin. apply select_sees in Hin as [Hrow Hu].
  apply (tenant_sees _ _ _ Hb) in Hu.
  destruct (lineage_shared _ q row (to_lineages _ (proj2 Hs) template) Hq Hrow) as (-> & _ & _ & ->).
  split; [done|]. by exists a, mo.
Qed.

Lemma created_stored `{RulesModel} b m : create_rules b = Ok m -> stored_ok (tc_template_type b) (dump_rules m).
Proof.
  unfold create_rules. intros Hc. inv_ok.
  match goal with Hv : validate_mapping_rules_for_type _ _ = Ok _ |- _ => apply gate_facts in Hv as [_ (mo & Hg)] end.
  by exists m, mo.
Qed.

Lemma create_request_ok `{RulesModel} `{AuthOutside} r b fresh now s res s' :
  state_ok s -> lineage fresh (td_rows s.2) = [] -> create_mapping_template r b fresh now s = (res, s') -> state_ok s'.
Proof.
  intros Hs Hf Hq. unfold create_mapping_template in Hq. walk; try done; eapply create_ok; eauto using created_stored.
Qed.

Lemma patch_request_ok `{RulesModel} `{AuthOutside} r template b now s res s' :
  state_ok s -> patch_mapping_template r template b now s = (res, s') -> state_ok s'.
Proof.
  intros Hs Hq. unfold patch_mapping_template in Hq. walk; try done;
    match goal with He : edited_rules _ _ _ _ = _ |- _ => destruct (edited_ok _ _ _ _ _ _ Hs He) as (Hs1 & Hr1 & Hd) end;
    try done; (eapply patch_ok; [exact Hs1| |eassumption]); rewrite Hr1; eauto.
Qed.

Lemma serve_ok R O r q now s res s' :
  state_ok s -> mints_fresh q (td_rows s.2) -> serve R O r q now s = (res, s') -> state_ok s'.
Proof.
  intros Hs Hf Hq. destruct q as [b fresh|template b|template|source]; cbn in Hq, Hf; apply outcome_only_inv in Hq as [? Hq].
  - by eapply create_request_ok.
  - by eapply patch_request_ok.
  - unfold get_mapping_template in Hq. walk; try done; [by eapply get_rows_ok|].
    destruct a0; walk; by eapply get_rows_ok.
  - unfold list_mapping_templates in Hq. walk; try done; by eapply list_rows_ok.
Qed.

Lemma step_ok R s s' : state_ok s -> api_step R s s' -> state_ok s'.
Proof.
  intros Hs Hstep. destruct Hstep as [O r q now en db res s' Hf Hq|en db t]; [by eapply serve_ok|].
  destruct Hs as [Hh [H1 H2 H3 H4 H5]]. split; [done|]. split; cbn in *; try done. intros r Hr. right. by apply H5.
Qed.

Lemma start_ok s : fresh_start s -> state_ok s.
Proof.
  intros [Hv Hr]. split; [intros H; congruence|].
  split; rewrite Hr; try (intros *; by intros ?%elem_of_nil); [constructor|intros template; constructor].
Qed.

Lemma reachable_ok R s : reachable R s -> state_ok s.
Proof.
  intros (s0 & Hs0 & Hsteps). apply start_ok in Hs0. induction Hsteps as [s|s1 s2 s3 Hstep _ IH]; [done|].
  apply IH. by eapply step_ok.
Qed.

(** C5. In every reachable table each template is one ACTIVE first version, or
    that version and one DRAFT chained to it, with the tenant, source, name and
    type of the template on both; ids are unique, no two templates of a source
    share a name, and every stored document passed the gate for its type. *)
Theorem template_lifecycle (R : RulesModel) (s : state) :
  reachable R s -> tables_ok s.2.
Proof. intros Hs. apply (reachable_ok R s Hs). Qed.

(** ** The consumer's lookup *)

(** The row of the keyed SELECT on ACTIVE versions. *)
Definition select_active_of (db : templates) (tenant : uuid) (source : string) (template : uuid) : res (option mapping_row) :=
  Ok (match filter (fun r => in_lineage tenant source template r && bool_decide (sm_status r = ACTIVE) = true) (td_rows db) with
      | r :: _ => Some (mkMappingRow (sm_version_id r) (sm_rules r) (sm_type r) (sm_pre_suite r) (sm_post_suite r))
      | [] => None
      end).

Lemma active_unique db r q :
  tables_ok db -> r ∈ td_rows db -> q ∈ td_rows db -> sm_status r = ACTIVE -> sm_status q = ACTIVE ->
  sm_template r = sm_template q -> r = q.
Proof.
  intros Hdb Hr Hq Ar Aq He. pose proof (to_lineages _ Hdb (sm_template q)) as Hl.
  assert (r ∈ lineage (sm_template q) (td_rows db)) as Hrl by (by apply lineage_elem).
  assert (q ∈ lineage (sm_template q) (td_rows db)) as Hql by (by apply lineage_elem).
  revert Hrl Hql. inversion Hl as [|a Ha|a d Ha Hd]; rewrite ?elem_of_cons, ?elem_of_nil; [done|naive_solver|].
  pose proof (do_status _ _ Hd) as Hds. intros [->|[->|[]]] [->|[->|[]]]; congruence.
Qed.

Lemma select_active_row db r :
  tables_ok db -> r ∈ td_rows db -> sm_status r = ACTIVE ->
  select_active_of db (sm_tenant r) (sm_source r) (sm_template r) =
    Ok (Some (mkMappingRow (sm_version_id r) (sm_rules r) (sm_type r) (sm_pre_suite r) (sm_post_suite r))).
Proof.
  intros Hdb Hr Ha. unfold select_active_of. destruct (filter _ (td_rows db)) as [|q l] eqn:Hf.
  - exfalso. assert (r ∈ []) as []%not_elem_of_nil. rewrite <- Hf. apply list_elem_of_filter. split; [|done].
    unfold in_lineage. by rewrite !String.eqb_refl, bool_decide_true.
  - assert (q ∈ q :: l) as Hq by left. rewrite <- Hf in Hq. apply list_elem_of_filter in Hq as [Hm Hq].
    unfold in_lineage in Hm. rewrite !andb_true_iff, !String.eqb_eq, bool_decide_eq_true in Hm.
    destruct Hm as [[[_ _] Ht] Hs]. by rewrite (active_unique db q r Hdb Hq Hr Hs Ha Ht).
Qed.

(** C14. Every ACTIVE version of a reachable table is usable: the consumer's lookup
    for an event of its tenant, source and template finds it, the mapping loads,
    and it targets the model of the template's type. *)
Theorem live_templates_load (R : RulesModel) (s : state) r event :
  reachable R s -> r ∈ td_rows s.2 -> sm_status r = ACTIVE ->
  ev_tenant_id event = sm_tenant r -> ev_source_id event = sm_source r -> ev_template_id event = sm_template r ->
  exists m tm, sm_rules r = dump_rules m /\ model_for_template_type (sm_type r) = Ok tm /\
    load_active_mapping (select_active_of s.2) model_validate event =
      Ok (mkLoadedMapping (sm_version_id r) m tm (bool_decide (tm = StoreSkuCurrentPosition))).
Proof.
  intros [_ Hdb]%reachable_ok Hr Ha Het Hes Hem.
  destruct (row_version _ _ Hdb Hr) as [[(m & tm & Hrules & Hg) Hpre Hpost] _]. exists m, tm.
  pose proof (ga_type _ _ _ Hg) as Hty.
  split; [done|]. split; [unfold model_for_template_type; by rewrite (type_models _ _ Hty)|].
  unfold load_active_mapping. rewrite Het, Hes, Hem, select_active_row by done. cbn [mbind result_bind row_pre_suite row_post_suite].
  rewrite Hpre, Hpost. cbn [mbind result_bind raise_if row_rules row_template_type row_version_id]. unfold parse_rules.
  rewrite Hrules, (validate_decoded _ _ (decode_dump m)), (ga_rules _ _ _ Hg). cbn [mbind result_bind].
  destruct (rename m) eqn:Hren; [by destruct (ga_rename _ _ _ Hg)|]. cbn [mbind result_bind raise_if].
  rewrite (gated_routes _ _ _ Hg). cbn [mbind result_bind]. by rewrite (gated_complete _ _ _ Hg).
Qed.
