(* ===== verification/TenantTheorems.v ===== *)
(** TenantTheorems: tokens decide what a request may read and write. *)

From S2P Require Import Prelude Text Values Transform SourceMapping.
From S2P Require Import Canonical Provenance Rules Paths UiErrors Access Rls.
From S2P Require Import TemplateGate Templates TemplateLife TemplateApi TemplateTheorems.

(** ** Claims *)

Definition str_claim (claims : dict value) (name s : string) : Prop := dict_get claims name = Some (VStr s).
Definition role_claim (claims : dict value) (role : string) : Prop :=
  exists l, dict_get claims CLAIM_ROLES = Some (VList l) /\ VStr role ∈ l.

(** The tenants a request with these claims may write for. *)
Inductive may_act (claims : dict value) (named : option uuid) : uuid -> Prop :=
| MA_tenant raw t :
    str_claim claims CLAIM_USER_TYPE "TENANT" -> str_claim claims CLAIM_TENANT_ID raw -> py_uuid raw = Some t ->
    named = None -> may_act claims named t
| MA_operator t :
    str_claim claims CLAIM_USER_TYPE "PLATFORM" -> role_claim claims OPS_ROLE -> named = Some t -> may_act claims named t.

Lemma as_str_list_elem l ss x : as_str_list l = Some ss -> x ∈ ss -> VStr x ∈ l.
Proof.
  revert ss. induction l as [|v l IH]; intros ss; cbn; [intros [= <-] []%not_elem_of_nil|].
  destruct v; try done. destruct (as_str_list l) as [ss'|]; cbn; [|done]. intros [= <-].
  rewrite elem_of_cons. intros [->|Hx]; [left|right]. by eapply IH.
Qed.

Lemma required_claim claims name s : required_str_claim claims name = Ok s -> str_claim claims name s.
Proof. unfold required_str_claim, str_claim. repeat case_match; naive_solver. Qed.

Lemma optional_claim claims name s : optional_str_claim claims name = Ok (Some s) -> str_claim claims name s.
Proof. unfold optional_str_claim, str_claim. repeat case_match; naive_solver. Qed.

Lemma user_type_fact claims ty :
  user_type_claim claims CLAIM_USER_TYPE = Ok ty ->
  str_claim claims CLAIM_USER_TYPE (match ty with TENANT => "TENANT" | PLATFORM => "PLATFORM" end).
Proof.
  unfold user_type_claim, str_claim. destruct (dict_get _ _) as [[]|]; try done.
  destruct (String.eqb s ""); [done|]. destruct (String.eqb_spec s "TENANT") as [->|]; [by intros [= <-]|].
  destruct (String.eqb_spec s "PLATFORM") as [->|]; [by intros [= <-]|done].
Qed.

Lemma roles_fact claims roles role : roles_claim claims CLAIM_ROLES = Ok roles -> role ∈ roles -> role_claim claims role.
Proof.
  unfold roles_claim, role_claim. destruct (dict_get _ _) as [[]|]; try (intros [= <-] []%not_elem_of_nil); try done.
  destruct (as_str_list l) as [ss|] eqn:Hl; [|done]. intros [= <-] Hr. exists l. split; [done|]. by eapply as_str_list_elem.
Qed.

Section Tokens.
Context `{AuthOutside}.

(** What an identity says of the token it came from. *)
Record identity_of (claims : dict value) (id : Identity) : Prop := {
  io_type : str_claim claims CLAIM_USER_TYPE (match id_user_type id with TENANT => "TENANT" | PLATFORM => "PLATFORM" end);
  io_tenant : forall t, id_tenant_id id = Some t -> str_claim claims CLAIM_TENANT_ID t;
  io_roles : forall role, role ∈ id_roles id -> role_claim claims role;
  io_coherent : id_user_type id = TENANT <-> present (id_tenant_id id) = true
}.

Lemma verify_facts raw id : verify raw = Ok id -> exists claims, jwt_decode raw = Ok claims /\ identity_of claims id.
Proof.
  unfold verify. destruct (jwt_decode raw) as [claims|[]]; try done. intros Hv. exists claims. split; [done|].
  inv_ok. split; cbn.
  - by apply user_type_fact.
  - intros t ->. by apply optional_claim.
  - intros role. by apply roles_fact.
  - destruct a1, (present a2); cbn in *; naive_solver.
Qed.

Lemma identity_facts r id :
  get_current_identity r = Ok id ->
  exists token claims, bearer_of (req_authorization r) = Some token /\ jwt_decode token = Ok claims /\ identity_of claims id.
Proof.
  unfold get_current_identity. destruct (bearer_of _) as [token|]; [|done].
  intros (claims & ? & ?)%verify_facts. by exists token, claims.
Qed.

Lemma acted_facts r scope named t :
  require_write_scope r = Ok scope -> resolve_acted_for scope named = Ok t ->
  exists token claims, bearer_of (req_authorization r) = Some token /\ jwt_decode token = Ok claims /\ may_act claims named t.
Proof.
  unfold require_write_scope. intros Hw Hr. inv_ok. apply identity_facts in Hs as (token & claims & Hb & Hj & Hid).
  exists token, claims. split_and!; [done..|]. unfold resolve_acted_for in Hr. cbn in Hr.
  pose proof (io_type _ _ Hid) as Hty. destruct (id_user_type a).
  - inv_ok. unfold tenant_uuid_of in Hs. destruct (id_tenant_id a) as [raw|] eqn:Ht; [|done].
    destruct (py_uuid raw) as [u|] eqn:Hu; [|done]. inv_ok. destruct named; [done|]. inv_ok.
    eapply MA_tenant; eauto. by apply Hid.
  - inv_ok. destruct (mem OPS_ROLE (id_roles a)) eqn:Hm; [|done]. cbn in Hr. destruct named; [|done]. inv_ok.
    eapply MA_operator; eauto. by apply Hid, mem_elem.
Qed.
End Tokens.

(** ** Writes *)

Section Writes.
Context `{RulesModel} `{AuthOutside}.

Lemma create_isolated t fresh src name ty doc by_user ut now s r s' :
  honest s.1 -> create_template t fresh src name ty doc by_user ut now s = (r, s') ->
  only_tenant t (td_rows s.2) (td_rows s'.2).
Proof.
  destruct s as [en db], s' as [en' db']. intros Hh Hc. eapply write_session_isolated; [exact Hh| |exact Hc].
  intros se r' db1 Hp Hb. cbv beta in Hb.
  destruct (insert_template se _ _ _) as [[row|e] db2] eqn:Hi; injection Hb as <- <-; by eapply insert_isolated.
Qed.

Lemma patch_isolated t template nn rules by_user ut now s r s' :
  honest s.1 -> patch_template t template nn rules by_user ut now s = (r, s') ->
  only_tenant t (td_rows s.2) (td_rows s'.2).
Proof.
  destruct s as [en db], s' as [en' db']. intros Hh Hc. eapply write_session_isolated; [exact Hh| |exact Hc].
  intros se r' db1 Hp Hb. eapply patch_body_isolated; [exact Hp|exact Hb].
Qed.

Lemma rows_read scope template s r s' :
  honest s.1 -> get_template_rows scope template s = (r, s') -> honest s'.1 /\ td_rows s'.2 = td_rows s.2.
Proof.
  destruct s as [en db], s' as [en' db']. intros Hh Hg.
  by destruct (read_session_keeps _ _ _ _ _ _ _ _ Hh Hg) as (? & ? & _).
Qed.

Lemma list_read scope source s r s' :
  honest s.1 -> list_template_rows scope source s = (r, s') -> td_rows s'.2 = td_rows s.2.
Proof.
  destruct s as [en db], s' as [en' db']. intros Hh Hg.
  by destruct (read_session_keeps _ _ _ _ _ _ _ _ Hh Hg) as (_ & ? & _).
Qed.

Lemma edited_keeps t template raw s r s' :
  honest s.1 -> edited_rules t template raw s = (r, s') -> honest s'.1 /\ td_rows s'.2 = td_rows s.2.
Proof.
  intros Hh He. unfold edited_rules in He. destruct raw as [doc|]; [|by injection He as <- <-].
  walk; [by eapply rows_read|]. apply rows_read in Hc; [|done]. destruct a; walk; done.
Qed.
End Writes.

(** C16. The templates of a tenant change only by a request whose verified token is
    a TENANT token of that very tenant (and the body names no tenant), or a
    PLATFORM token with the dis:ops role whose body names the tenant; a request
    of any other kind, whatever it answers, leaves them as they are. *)
Theorem templates_change_by_token R O r q now en db res en' db' u :
  honest en -> serve R O r q now (en, db) = (res, (en', db')) ->
  rows_of_tenant u (td_rows db') <> rows_of_tenant u (td_rows db) ->
  exists token claims, bearer_of (req_authorization r) = Some token /\ jwt_decode token = Ok claims /\
    may_act claims (named_tenant q) u.
Proof.
  intros Hh Hq Hne. change en with (en, db).1 in Hh. change db with (en, db).2 in Hne. change db' with (en', db').2 in Hne.
  revert Hh Hq Hne. generalize (en, db) (en', db'). intros s s' Hh Hq Hne.
  destruct q as [b fresh|template b|template|source]; cbn in Hq; apply outcome_only_inv in Hq as [? Hq].
  - unfold create_mapping_template in Hq. walk; try done;
      (match goal with Hc : create_template ?t _ _ _ _ _ _ _ _ _ = _ |- _ =>
         apply create_isolated in Hc as Hi; [|done]; destruct (decide (u = t)) as [->|Hu]; [|by rewrite (Hi u Hu) in Hne] end);
      by eapply acted_facts.
  - unfold patch_mapping_template in Hq. walk; try done;
      match goal with He : edited_rules _ _ _ _ = _ |- _ =>
        destruct (edited_keeps _ _ _ _ _ _ Hh He) as [Hh1 Hr1] end; try (by rewrite Hr1 in Hne);
      (match goal with Hc : patch_template ?t _ _ _ _ _ _ _ = _ |- _ =>
         apply patch_isolated in Hc as Hi; [|done]; rewrite Hr1 in Hi;
         destruct (decide (u = t)) as [->|Hu]; [|by rewrite (Hi u Hu) in Hne] end); by eapply acted_facts.
  - unfold get_mapping_template in Hq. walk; try done;
      [|destruct a0; walk]; destruct (rows_read _ _ _ _ _ Hh Hc0) as [_ Hr]; by rewrite Hr in Hne.
  - unfold list_mapping_templates in Hq. walk; try done; by rewrite (list_read _ _ _ _ _ Hh Hc0) in Hne.
Qed.

(** ** Reads *)

Lemma tenant_filter p t (P : SourceMappingRow -> bool) rows :
  bypasses p = false ->
  filter (fun r => policy_using (mkSession p (mkGuc "TENANT" t)) (sm_tenant r) && P r = true) rows =
  filter (fun r => policy_using (mkSession p (mkGuc "TENANT" t)) (sm_tenant r) && P r = true) (rows_of_tenant t rows).
Proof.
  intros Hb. unfold rows_of_tenant. rewrite list_filter_filter_l; [done|].
  intros r [Hu _]%andb_true_iff. by apply (tenant_sees p).
Qed.

(** A pinned read of the same rows of its tenant gives the same answer. *)
Lemma pinned_read_same {A} (f : list SourceMappingRow -> A) (P : SourceMappingRow -> bool) t en db1 db2 :
  honest en -> rows_of_tenant t (td_rows db1) = rows_of_tenant t (td_rows db2) ->
  exists r en', forall db, db = db1 \/ db = db2 ->
    read_session undo_templates false (Some t)
      (fun s d => (Ok (f (filter (fun r => policy_using s (sm_tenant r) && P r = true) (td_rows d))), d)) (en, db) = (r, (en', db)).
Proof.
  intros Hh Heq. unfold read_session, rls_session, verified_transaction.
  destruct (en_reachable en) eqn:Hr; cbn [negb]; [|eauto].
  destruct (if en_verified en then Ok tt else check_posture (en_posture en)) as [u|e] eqn:Hp; [|eauto].
  assert (bypasses (en_posture en) = false) as Hb.
  { apply posture_safe. destruct (en_verified en) eqn:Hv; [by apply Hh|by destruct u]. }
  do 2 eexists. intros db [->| ->]; [reflexivity|]. by rewrite tenant_filter, <- Heq, <- tenant_filter by done.
Qed.

(** C17. A TENANT token reads nothing but its tenant's templates: on two tables
    with the same rows of that tenant, the detail of any template (its absence
    included) and the list answer the same, whatever other tenants have. *)
Theorem tenant_reads_own `{RulesModel} `{AuthOutside} r t en db1 db2 template source :
  honest en -> require_read_scope r = Ok (mkReadScope false (Some t)) ->
  rows_of_tenant t (td_rows db1) = rows_of_tenant t (td_rows db2) ->
  (get_mapping_template r template (en, db1)).1 = (get_mapping_template r template (en, db2)).1 /\
  (list_mapping_templates r source (en, db1)).1 = (list_mapping_templates r source (en, db2)).1.
Proof.
  intros Hh Hscope Heq. split.
  - unfold get_mapping_template, mbind, action_bind, act. rewrite Hscope. unfold get_template_rows.
    destruct (pinned_read_same (merge_sort seq_desc) (fun q => String.eqb (sm_template q) template) t en db1 db2 Hh Heq) as (res & en' & Hq).
    unfold select_lineage. cbn [rs_is_platform rs_tenant_id]. rewrite !Hq by auto. by repeat case_match.
  - unfold list_mapping_templates, mbind, action_bind, act. rewrite Hscope. unfold list_template_rows.
    destruct (pinned_read_same (merge_sort list_order)
      (fun q => match source with Some x => String.eqb (sm_source q) x | None => true end) t en db1 db2 Hh Heq) as (res & en' & Hq).
    cbn [rs_is_platform rs_tenant_id]. rewrite !Hq by auto. by repeat case_match.
Qed.

(** ** An operator acting for the wrong tenant *)

Lemma map_res_err {A B E} (f : A -> result E B) l x e :
  x ∈ l -> f x = Err e -> (forall y, y ∈ l -> f y = Err e \/ exists z, f y = Ok z) -> map_res f l = Err e.
Proof.
  induction l as [|y l IH]; intros Hx Hf Hall; [by apply not_elem_of_nil in Hx|]. cbn.
  destruct (Hall y) as [->|[z Hz]]; [left|done|]. rewrite Hz. cbn.
  apply elem_of_cons in Hx as [->|Hx]; [congruence|]. rewrite IH; auto. intros w Hw. apply Hall. by right.
Qed.

(** An operator who renames a template of one tenant while acting for another
    does not get the 404 of an absent template: the update is refused by the
    row policy and the request ends in a 500; with the name unchanged the other
    tenant's template is returned. *)
Theorem foreign_patch_is_not_404 en db q acted_for name by_user now :
  tables_ok db -> honest en -> en_reachable en = true -> check_posture (en_posture en) = Ok tt ->
  q ∈ td_rows db -> sm_tenant q <> acted_for ->
  let answer := (patch_template acted_for (sm_template q) (Some name) None by_user PLATFORM now (en, db)).1 in
  if String.eqb name (sm_name q)
  then exists rows, answer = Ok rows /\ rows ≡ₚ lineage (sm_template q) (td_rows db)
  else exists e, answer = Err e /\ status_of e = 500%Z.
Proof.
  intros Hdb Hh Hr Hp Hq Hne. unfold patch_template, write_session, rls_platform_session, verified_transaction.
  rewrite bool_decide_true, Hr by done. cbn [negb default].
  assert ((if en_verified en then Ok tt else check_posture (en_posture en)) = Ok tt) as -> by (by destruct (en_verified en)).
  set (s := mkSession _ _). assert (forall u, policy_using s u = true) as Hu.
  { intros u. unfold policy_using. cbn. by rewrite orb_true_r. }
  assert (q ∈ lineage (sm_template q) (td_rows db)) as Hql by (by apply lineage_elem).
  pose proof (locked_lineage s _ _ _ Hdb Hql (Hu _)) as Hperm. unfold patch_body, patch_decided.
  destruct (select_lineage s (sm_template q) (td_rows db)) as [|head rest] eqn:Hsel.
  { exfalso. apply Permutation_nil_l in Hperm. rewrite <- Hperm in Hql. by apply not_elem_of_nil in Hql. }
  assert (sm_name head = sm_name q) as Hn.
  { apply (lineage_shared (lineage (sm_template q) (td_rows db)) head q); [apply Hdb| |done]. rewrite <- Hperm. left. }
  unfold rename_lineage. rewrite Hn. destruct (String.eqb name (sm_name q)).
  - cbn. rewrite Hsel. eauto.
  - unfold update_name. rewrite (map_res_err _ _ q (OtherSqlError "42501")); [by eexists|done|..].
    + unfold rename_row. rewrite Hu, String.eqb_refl. cbn [andb]. destruct (policy_check s (sm_tenant q)) eqn:Hc; [|done].
      exfalso. apply Hne. by apply (write_pinned (en_posture en) "PLATFORM" acted_for (posture_safe _ Hp)).
    + intros y Hy. unfold rename_row. destruct (policy_using _ _ && _) eqn:Hm; [|by right; eexists]. left.
      apply andb_true_iff in Hm as [_ Hm]. apply String.eqb_eq in Hm.
      destruct (policy_check s (sm_tenant y)) eqn:Hc; [|done]. exfalso. apply Hne.
      destruct (template_together db y q Hdb Hy Hq Hm) as (<- & _).
      by apply (write_pinned (en_posture en) "PLATFORM" acted_for (posture_safe _ Hp)).
Qed.

(** ** The Atlas gate *)

Definition publish_grant (g : PermissionGrant) : Prop :=
  g_module g = "ATLAS" /\ g_resource g = "SCHEMA" /\ g_action g = "PUBLISH" /\ g_scope g = "GLOBAL".

Lemma grant_role grants role : role ∈ roles_from_grants grants -> exists g, g ∈ grants /\ publish_grant g.
Proof.
  intros (g & Hg & Hr)%list_elem_of_omap. exists g. split; [done|]. unfold GRANT_TO_ROLE in Hr.
  destruct (_ && _) eqn:Hm; [|done]. rewrite !andb_true_iff, !String.eqb_eq in Hm. unfold publish_grant. tauto.
Qed.

(** Verification fails with a 401 only. *)
Definition only_auth {A} (r : ures A) : Prop := forall e, r = Err e -> exists reason, e = AuthTokenError reason.

Lemma only_auth_bind {A B} (r : ures A) (f : A -> ures B) : only_auth r -> (forall a, only_auth (f a)) -> only_auth (r ≫= f).
Proof. intros Hr Hf e. destruct r as [a|e']; cbn; [apply Hf|intros [= ->]; by apply Hr]. Qed.

Lemma only_auth_claims claims name :
  only_auth (required_str_claim claims name) /\ only_auth (optional_str_claim claims name) /\
  only_auth (roles_claim claims name) /\ only_auth (user_type_claim claims name).
Proof.
  unfold only_auth, required_str_claim, optional_str_claim, roles_claim, user_type_claim, bad_claims.
  destruct (dict_get claims name) as [[]|]; split_and!; intros e; repeat case_match; naive_solver.
Qed.

Lemma only_auth_verify `{AuthOutside} raw : only_auth (verify raw).
Proof.
  unfold verify. destruct (jwt_decode raw) as [claims|[]]; try (intros e [= <-]; by eexists).
  repeat (apply only_auth_bind; [first [apply only_auth_claims | unfold raise_if; case_match; intros ? [=]; subst; by eexists]|intros ?]).
  intros e [=].
Qed.

(** The Atlas gate opens only for a verified token for which Customer Master
    answered with a success that lists the global publish grant, or that carries
    the role itself; everything else is a denial: 401, 403 or 503, never a 500. *)
Theorem super_admin_only_on_grant `{AuthOutside} r :
  match require_super_admin r with
  | Ok id => exists token claims status body grants,
      bearer_of (req_authorization r) = Some token /\ jwt_decode token = Ok claims /\ identity_of claims id /\
      cm_get token = Response status body /\ (200 <= status <= 299)%Z /\ parse_permissions status body = Ok grants /\
      ((exists g, g ∈ grants /\ publish_grant g) \/ role_claim claims SUPER_ADMIN_ROLE)
  | Err e => status_of e ∈ [401; 403; 503]%Z
  end.
Proof.
  unfold require_super_admin. destruct (get_current_identity r) as [id|e] eqn:Hid; cbn [mbind result_bind].
  2: { unfold get_current_identity in Hid. destruct (bearer_of _); [|injection Hid as <-; cbn; set_solver].
       apply only_auth_verify in Hid as [reason ->]. cbn. set_solver. }
  apply identity_facts in Hid as (token & claims & Hb & Hj & Hio). unfold extract_bearer. rewrite Hb. cbn [mbind result_bind].
  unfold get_permissions, is_success, parse_permissions. destruct cm_base_url as [[|c url]|]; try (cbn; set_solver).
  destruct (cm_get token) as [| |cn|status body] eqn:Hcm; try (cbn; set_solver).
  destruct ((200 <=? status)%Z && (status <=? 299)%Z) eqn:Hst; [|cbn; set_solver].
  fold (parse_permissions status body). destruct (parse_permissions status body) as [grants|e] eqn:Hpp; cbn [mbind result_bind].
  - destruct (mem SUPER_ADMIN_ROLE _) eqn:Hm; [|cbn; set_solver]. exists token, claims, status, body, grants.
    split_and!; try done; [lia|lia|]. apply mem_elem, elem_of_app in Hm as [Hm|Hm]; [left|right; by apply Hio].
    by eapply grant_role.
  - unfold parse_permissions in Hpp. destruct body as [v|]; [destruct (subscript v ENVELOPE_KEY ≫= _)|]; inv_ok; cbn; set_solver.
Qed.
