(* ===== verification/TenantSample.v ===== *)
(** TenantSample: the template API on a concrete table, and the theorems of
    TemplateTheorems and TenantTheorems applied there. *)

From S2P Require Import Prelude Text Values Transform SourceMapping.
From S2P Require Import Canonical Provenance HotMapping Rules Paths UiErrors Access Rls.
From S2P Require Import TemplateGate GateTheorems Templates TemplateLife TemplateApi TemplateTheorems TenantTheorems.

Definition tenant_a : uuid := "aaaaaaaa-0000-0000-0000-000000000001".
Definition tenant_b : uuid := "bbbbbbbb-0000-0000-0000-000000000002".
Definition user_u : uuid := "cccccccc-0000-0000-0000-000000000003".
Definition template_1 : uuid := "dddddddd-0000-0000-0000-000000000004".

Definition token_claims (ty : string) (tenant : list (string * value)) (roles : list string) : dict value :=
  [("sub", VStr "auth0|u"); (CLAIM_USER_ID, VStr user_u); (CLAIM_USER_TYPE, VStr ty);
   (CLAIM_ROLES, VList (map VStr roles))] ++ tenant.

Definition sample_auth : AuthOutside := {|
  jwt_decode token :=
    if String.eqb token "a" then Ok (token_claims "TENANT" [(CLAIM_TENANT_ID, VStr tenant_a)] [])
    else if String.eqb token "ops" then Ok (token_claims "PLATFORM" [] [OPS_ROLE])
    else Err PyJWTError;
  cm_base_url := Some "https://cm";
  cm_get _ := TimeoutException
|}.

Definition bearer (token : string) : request := mkRequest (Some (BEARER_PREFIX +:+ token)).

Definition good_engine : engine := mkEngine true (mkPosture EXPECTED_DATABASE "ithina_dis_user" false false) false.
Definition empty_table : state := (good_engine, mkTemplates [] 1 [tenant_a; tenant_b]).

Definition run (r : request) (q : api_request) (now : Z) (s : state) : ures unit * state :=
  serve strict_rules sample_auth r q now s.

(** Tenant A creates a template and edits its rules. *)
Definition created : state := (run (bearer "a") (Create snapshot_body template_1) 100 empty_table).2.
Definition edit_body : MappingTemplatePatch := mkTemplatePatch (Some "shelf") (Some (dump_rules snapshot_rules)) None.
Definition edited : state := (run (bearer "a") (Patch template_1 edit_body) 200 created).2.

Example sample_versions :
  map (fun r => (sm_version_id r, sm_name r, sm_seq r, sm_status r)) (td_rows edited.2) =
  [(1%Z, "shelf", 1%Z, ACTIVE); (2%Z, "shelf", 2%Z, DRAFT)].
Proof. vm_compute. reflexivity. Qed.

Lemma edited_reachable : reachable strict_rules edited.
Proof.
  exists empty_table. split; [split; reflexivity|].
  apply rtc_l with created; [eapply (Step_request _ sample_auth (bearer "a")); [|apply surjective_pairing]; vm_compute; reflexivity|].
  apply rtc_once. unfold edited. destruct created as [en db].
  eapply (Step_request _ sample_auth (bearer "a")); [|apply surjective_pairing]. exact I.
Qed.

Definition live_row : SourceMappingRow := mkSourceMappingRow 1 tenant_a "manual" template_1 "shelf" 1 ACTIVE SNAPSHOT
  (dump_rules snapshot_rules) None None None (Some 100%Z) None (Some user_u) 100.

Lemma live_row_in : live_row ∈ td_rows edited.2.
Proof. assert (head (td_rows edited.2) = Some live_row) as H by (vm_compute; reflexivity).
  destruct (td_rows edited.2); [discriminate H|]. injection H as ->. left.
Qed.

Lemma template_lifecycle_witness : reachable strict_rules edited /\ tables_ok edited.2.
Proof. split; [exact edited_reachable|]. apply (template_lifecycle strict_rules), edited_reachable. Defined.

Definition manual_event : IngressReadyEvent := mkIngressReady "t-1" tenant_a "store-1" "manual" template_1 "b-1"
  "gs://bronze/key" 0 "," false None.

Lemma live_templates_load_witness :
  exists m tm, sm_rules live_row = dump_rules m /\ model_for_template_type (sm_type live_row) = Ok tm /\
    load_active_mapping (select_active_of edited.2) (@model_validate strict_rules) manual_event =
      Ok (mkLoadedMapping (sm_version_id live_row) m tm (bool_decide (tm = StoreSkuCurrentPosition))).
Proof.
  apply (live_templates_load strict_rules edited live_row manual_event);
    [exact edited_reachable|exact live_row_in|reflexivity|reflexivity|reflexivity|reflexivity].
Defined.

Lemma templates_change_by_token_witness :
  exists token claims, bearer_of (req_authorization (bearer "ops")) = Some token /\ @jwt_decode sample_auth token = Ok claims /\
    may_act claims (Some tenant_b) tenant_b.
Proof.
  apply (templates_change_by_token strict_rules sample_auth (bearer "ops")
    (Create (mkTemplateCreate "manual" "stock" SNAPSHOT (tc_columns snapshot_body) (Some tenant_b)) template_1) 100
    good_engine (mkTemplates [] 1 [tenant_b]) (Ok tt)
    (mkEngine true (en_posture good_engine) true)
    (mkTemplates [mkSourceMappingRow 1 tenant_b "manual" template_1 "stock" 1 ACTIVE SNAPSHOT
                    (dump_rules snapshot_rules) None None None (Some 100%Z) None (Some user_u) 100] 2 [tenant_b])).
  - discriminate.
  - vm_compute. reflexivity.
  - vm_compute. discriminate.
Defined.

Lemma tenant_reads_own_witness :
  (@get_mapping_template strict_rules sample_auth (bearer "a") "x" (good_engine, edited.2)).1 =
  (@get_mapping_template strict_rules sample_auth (bearer "a") "x"
     (good_engine, mkTemplates (td_rows edited.2 ++ [mkSourceMappingRow 9 tenant_b "manual" "x" "other" 1 ACTIVE SNAPSHOT VNone
        None None None (Some 1%Z) None None 1]) 10 [])).1 /\
  (@list_mapping_templates sample_auth (bearer "a") None (good_engine, edited.2)).1 =
  (@list_mapping_templates sample_auth (bearer "a") None
     (good_engine, mkTemplates (td_rows edited.2 ++ [mkSourceMappingRow 9 tenant_b "manual" "x" "other" 1 ACTIVE SNAPSHOT VNone
        None None None (Some 1%Z) None None 1]) 10 [])).1.
Proof.
  apply (@tenant_reads_own strict_rules sample_auth (bearer "a") tenant_a); [discriminate|vm_compute; reflexivity|vm_compute; reflexivity].
Defined.

Lemma foreign_patch_is_not_404_witness :
  exists e, (patch_template tenant_b template_1 (Some "mine") None None PLATFORM 300 edited).1 = Err e /\ status_of e = 500%Z.
Proof.
  pose proof (foreign_patch_is_not_404 edited.1 edited.2 live_row tenant_b "mine" None 300) as H.
  rewrite <- surjective_pairing in H. apply H; [apply (reachable_ok strict_rules), edited_reachable|..].
  - intros _. vm_compute. reflexivity.
  - vm_compute. reflexivity.
  - vm_compute. reflexivity.
  - exact live_row_in.
  - vm_compute. discriminate.
Defined.
