(* ===== verification/Concurrent.v ===== *)
(** Concurrent: PATCH requests that overlap (dis-ui-server,
    [repos/mapping_templates.py] [patch_template]).

    A PATCH is two locking reads, up to two writes, a read of what it wrote and a
    commit.  Under READ COMMITTED a statement sees the rows committed when it
    starts and what its own transaction wrote.  [SELECT ... ORDER BY ... FOR UPDATE]
    locks the rows of its snapshot one by one, newest version first, and waits for
    each that another request holds; a rename waits for a request that is renaming
    a template to or from the name; and requests that wait for each other in a
    circle are broken up by failing one of them.  What a transaction wrote is
    uncommitted until its last step, but an identity value it drew is drawn at once.
    [patch_step] interleaves the statements of any number of requests with the
    creation of other templates. *)

From S2P Require Import Prelude Text Values Transform SourceMapping Canonical Provenance Paths UiErrors Access Rules TemplateGate GateTheorems Rls.
From S2P Require Import Templates TemplateLife TemplateTheorems TenantSample.

(** One PATCH: its session, the tenant it acts for, its template and edit. *)
Record patch_call := mkPatchCall {
  pc_session : session;
  pc_tenant : uuid;
  pc_template : uuid;
  pc_name : option string;
  pc_rules : option value;
  pc_user : option uuid;
  pc_now : Z
}.

(** An uncommitted write of a transaction. *)
Inductive write : Type :=
| WName (name : string)                       (* UPDATE ... SET template_name WHERE template_id = ... *)
| WRules (id : Z) (rules : value)             (* UPDATE ... SET mapping_rules WHERE mapping_version_id = ... *)
| WRow (r : SourceMappingRow).                (* INSERT *)

(** Where a request stands; [got] are the rows it has locked. *)
Inductive phase : Type :=
| Idle
| Locking (got todo : list Z)                                             (* in the first read *)
| Rereading (got todo snapshot : list Z)                                  (* in the second read *)
| Decided (got : list Z) (locked : list SourceMappingRow)                 (* second read done *)
| Renamed (got : list Z) (locked : list SourceMappingRow) (name : string) (ws : list write)
| Edited (got : list Z) (locked : list SourceMappingRow) (ws : list write)
| Answered (r : ures (list SourceMappingRow)).

Record shared := mkShared { sh_table : templates; sh_phase : nat -> phase }.

Definition held (p : phase) : list Z :=
  match p with
  | Locking got _ | Rereading got _ _ | Decided got _ | Renamed got _ _ _ | Edited got _ _ => got
  | Idle | Answered _ => []
  end.

Definition ids_of (rows : list SourceMappingRow) : list Z := map sm_version_id rows.

Definition set_phase (st : shared) (i : nat) (p : phase) : nat -> phase :=
  fun j => if decide (j = i) then p else sh_phase st j.

(** A request goes on, with the committed table as it is or as it leaves it. *)
Definition goto (st : shared) (i : nat) (p : phase) : shared := mkShared (sh_table st) (set_phase st i p).
Definition leave (st : shared) (i : nat) (db : templates) (p : phase) : shared := mkShared db (set_phase st i p).

(** The row and the name a request is about to take. *)
Definition wants_row (p : phase) : option Z :=
  match p with Locking _ (x :: _) | Rereading _ (x :: _) _ => Some x | _ => None end.

Definition name_of (ws : list write) : option string := match ws with WName n :: _ => Some n | _ => None end.

Definition pending_name (p : phase) : option string :=
  match p with Renamed _ _ _ ws | Edited _ _ ws => name_of ws | _ => None end.

Section Interleaving.
Context (call : nat -> patch_call).

Definition reads (i : nat) (db : templates) : list SourceMappingRow :=
  select_lineage (pc_session (call i)) (pc_template (call i)) (td_rows db).

(** ** The table as a transaction sees it *)

Definition named (i : nat) (n : string) (r : SourceMappingRow) : SourceMappingRow :=
  if policy_using (pc_session (call i)) (sm_tenant r) && String.eqb (sm_template r) (pc_template (call i)) then set_name n r else r.

Definition ruled (i : nat) (id : Z) (doc : value) (r : SourceMappingRow) : SourceMappingRow :=
  if policy_using (pc_session (call i)) (sm_tenant r) && (sm_version_id r =? id)%Z then set_rules doc r else r.

Definition written (i : nat) (rows : list SourceMappingRow) (w : write) : list SourceMappingRow :=
  match w with
  | WName n => map (named i n) rows
  | WRules id doc => map (ruled i id doc) rows
  | WRow r => rows ++ [r]
  end.

Definition view (i : nat) (ws : list write) (db : templates) : templates :=
  mkTemplates (foldl (written i) (td_rows db) ws) (td_next db) (td_tenants db).

(** ** The statements *)

Definition decide_patch (i : nat) (locked : list SourceMappingRow) (db : templates) : ures (list SourceMappingRow) * templates :=
  patch_decided (pc_session (call i)) (pc_tenant (call i)) (pc_template (call i)) (pc_name (call i)) (pc_rules (call i))
    (pc_user (call i)) (pc_now (call i)) locked db.

(** The whole PATCH, alone on a table. *)
Definition atomic_patch (i : nat) (db : templates) : ures (list SourceMappingRow) * templates :=
  patch_body (pc_session (call i)) (pc_tenant (call i)) (pc_template (call i)) (pc_name (call i)) (pc_rules (call i))
    (pc_user (call i)) (pc_now (call i)) db.

(** What a committed or rolled back transaction leaves. *)
Definition settle (db : templates) (x : ures (list SourceMappingRow) * templates) : templates :=
  match x with (Ok _, db') => db' | (Err _, db') => undo_templates db db' end.

Definition rename_statement (i : nat) (head : SourceMappingRow) (db : templates) : ures string * templates :=
  rename_lineage (pc_session (call i)) (pc_template (call i)) (pc_name (call i)) head db.

Definition rename_writes (i : nat) (head : SourceMappingRow) : list write :=
  match pc_name (call i) with
  | Some n => if String.eqb n (sm_name head) then [] else [WName n]
  | None => []
  end.

Definition edit_statement (i : nat) (locked : list SourceMappingRow) (name : string) (db : templates) : ures unit * templates :=
  match pc_rules (call i) with
  | Some doc => apply_rules_edit (pc_session (call i)) (pc_now (call i)) locked (pc_tenant (call i)) (pc_template (call i)) name doc
                  (pc_user (call i)) db
  | None => (Ok tt, db)
  end.

(** What the edit wrote: the rules of the draft, or the row it inserted. *)
Definition edit_writes (i : nat) (locked : list SourceMappingRow) (after : templates) : list write :=
  match pc_rules (call i), filter (fun r => sm_status r = DRAFT) locked, last (td_rows after) with
  | Some doc, draft :: _, _ => [WRules (sm_version_id draft) doc]
  | Some _, [], Some r => [WRow r]
  | _, _, _ => []
  end.

(** ** Waiting *)

Definition wants_name (i : nat) (p : phase) : option (uuid * string * string) :=
  match p with
  | Decided _ (head :: _) => n ← name_of (rename_writes i head); Some (sm_tenant head, sm_source head, n)
  | _ => None
  end.

(** A request that is renaming a template of the source to or from the name. *)
Definition writing_name (st : shared) (j : nat) (tenant : uuid) (source name : string) : Prop :=
  exists n r, pending_name (sh_phase st j) = Some n /\ r ∈ reads j (sh_table st) /\ sm_tenant r = tenant /\ sm_source r = source /\
    (n = name \/ sm_name r = name).

Definition waits_for (st : shared) (i j : nat) : Prop :=
  i <> j /\
  ((exists x, wants_row (sh_phase st i) = Some x /\ x ∈ held (sh_phase st j)) \/
   (exists tenant source name, wants_name i (sh_phase st i) = Some (tenant, source, name) /\ writing_name st j tenant source name)).

Definition unblocked (st : shared) (i : nat) : Prop := forall j, waits_for st i j -> False.

(** PostgreSQL's [deadlock_detected]. *)
Definition deadlock_error : ui_exn := unhandled (OtherSqlError "40P01").

(** The handler read the template before it opens the transaction: the rules are
    checked against its stored type, for the tenant it acts for. *)
Definition prepared (i : nat) (db : templates) : Prop :=
  reads i db <> [] /\
  forall doc, pc_rules (call i) = Some doc -> forall r, r ∈ lineage (pc_template (call i)) (td_rows db) ->
    sm_tenant r = pc_tenant (call i) /\ stored_ok (sm_type r) doc.

Inductive patch_step (st : shared) : shared -> Prop :=
| PS_begin i :
    sh_phase st i = Idle -> prepared i (sh_table st) -> patch_step st (goto st i (Locking [] (ids_of (reads i (sh_table st)))))
| PS_lock i got x todo :
    sh_phase st i = Locking got (x :: todo) -> unblocked st i -> patch_step st (goto st i (Locking (got ++ [x]) todo))
| PS_reread i got :
    sh_phase st i = Locking got [] ->
    patch_step st (goto st i (Rereading got (ids_of (reads i (sh_table st))) (ids_of (reads i (sh_table st)))))
| PS_relock i got x todo snapshot :
    sh_phase st i = Rereading got (x :: todo) snapshot -> unblocked st i -> patch_step st (goto st i (Rereading (got ++ [x]) todo snapshot))
| PS_decide i got snapshot :
    sh_phase st i = Rereading got [] snapshot ->
    patch_step st (goto st i (Decided got (filter (fun r => sm_version_id r ∈ snapshot) (reads i (sh_table st)))))
| PS_missing i got :
    sh_phase st i = Decided got [] -> patch_step st (goto st i (Answered (Err (template_not_found (pc_template (call i))))))
| PS_rename i got head rest name db1 :
    sh_phase st i = Decided got (head :: rest) -> unblocked st i -> rename_statement i head (sh_table st) = (Ok name, db1) ->
    patch_step st (goto st i (Renamed got (head :: rest) name (rename_writes i head)))
| PS_rename_fails i got head rest e db1 :
    sh_phase st i = Decided got (head :: rest) -> unblocked st i -> rename_statement i head (sh_table st) = (Err e, db1) ->
    patch_step st (goto st i (Answered (Err e)))
| PS_edit i got locked name ws db1 :
    sh_phase st i = Renamed got locked name ws -> edit_statement i locked name (view i ws (sh_table st)) = (Ok tt, db1) ->
    patch_step st (leave st i (undo_templates (sh_table st) db1) (Edited got locked (ws ++ edit_writes i locked db1)))
| PS_edit_fails i got locked name ws e db1 :
    sh_phase st i = Renamed got locked name ws -> edit_statement i locked name (view i ws (sh_table st)) = (Err e, db1) ->
    patch_step st (leave st i (undo_templates (sh_table st) db1) (Answered (Err e)))
| PS_commit i got locked ws :
    sh_phase st i = Edited got locked ws ->
    patch_step st (leave st i (view i ws (sh_table st)) (Answered (Ok (reads i (view i ws (sh_table st))))))
| PS_deadlock i :
    tc (waits_for st) i i -> patch_step st (goto st i (Answered (Err deadlock_error)))
| PS_create s now tenant source template name ty rules by_user r db' :
    lineage template (td_rows (sh_table st)) = [] -> stored_ok ty rules ->
    (forall j, writing_name st j tenant source name -> False) ->
    insert_template s now (mkNewRow tenant source template name ty ACTIVE (Some now) rules None by_user) (sh_table st) = (r, db') ->
    patch_step st (mkShared (if is_ok r then db' else undo_templates (sh_table st) db') (sh_phase st)).

Definition starts (st : shared) : Prop := tables_ok (sh_table st) /\ forall i, sh_phase st i = Idle.

(** ** What holds at every moment *)

(** What a request past its first read has: the first version of its template is
    among its rows, and its rules are checked for that version's type. *)
Definition engaged (i : nat) (db : templates) (ids : list Z) : Prop :=
  exists a l, lineage (pc_template (call i)) (td_rows db) = a :: l /\ sm_version_id a ∈ ids /\
    policy_using (pc_session (call i)) (sm_tenant a) = true /\
    forall doc, pc_rules (call i) = Some doc -> sm_tenant a = pc_tenant (call i) /\ stored_ok (sm_type a) doc.

Definition claimed (p : phase) : option (list Z) :=
  match p with
  | Locking got todo => Some (got ++ todo)
  | Rereading got _ _ | Decided got _ | Renamed got _ _ _ | Edited got _ _ => Some got
  | Idle | Answered _ => None
  end.

Definition decided_on (p : phase) : option (list SourceMappingRow) :=
  match p with Decided _ l | Renamed _ l _ _ | Edited _ l _ => Some l | _ => None end.

Definition new_id (p : phase) : option Z :=
  match p with
  | Edited _ _ ws => match last ws with Some (WRow r) => Some (sm_version_id r) | _ => None end
  | _ => None
  end.

(** The name is free for the lineage. *)
Definition can_name (i : nat) (n : string) (db : templates) : Prop :=
  forall r, r ∈ reads i db -> policy_check (pc_session (call i)) (sm_tenant r) = true /\
    forall q, q ∈ td_rows db -> sm_tenant q = sm_tenant r -> sm_source q = sm_source r -> sm_name q = n -> sm_template q = pc_template (call i).

Definition can_rename (i : nat) (head : SourceMappingRow) (db : templates) : Prop :=
  forall n, name_of (rename_writes i head) = Some n -> can_name i n db.

Definition effective_name (i : nat) (head : SourceMappingRow) : string := default (sm_name head) (pc_name (call i)).

(** The edit of a live lineage, with [k] for the id of a new row. *)
Definition edit_with (i : nat) (locked : list SourceMappingRow) (name : string) (k : Z) : list write :=
  match pc_rules (call i) with
  | None => []
  | Some doc =>
      match filter (fun r => sm_status r = DRAFT) locked, filter (fun r => sm_status r <> DEPRECATED) locked with
      | d :: _, _ => [WRules (sm_version_id d) doc]
      | [], h :: _ => [WRow (new_row_of k 2 (pc_now (call i)) (mkNewRow (pc_tenant (call i)) (sm_source h) (pc_template (call i)) name
                               (sm_type h) DRAFT None doc (Some (sm_version_id h)) (pc_user (call i))))]
      | [], [] => []
      end
  end.

Definition may_edit (i : nat) : Prop :=
  pc_rules (call i) = None \/ policy_check (pc_session (call i)) (pc_tenant (call i)) = true.

(** The writes a request has made would still be made on the committed table. *)
Definition writes_ok (i : nat) (db : templates) (p : phase) : Prop :=
  match p with
  | Renamed _ locked name ws => exists head rest, locked = head :: rest /\ name = effective_name i head /\
      ws = rename_writes i head /\ can_rename i head db
  | Edited _ locked ws => exists head rest k, locked = head :: rest /\ can_rename i head db /\ may_edit i /\
      ws = rename_writes i head ++ edit_with i locked (effective_name i head) k
  | _ => True
  end.

(** One request. *)
Record request_ok (i : nat) (db : templates) (p : phase) : Prop := {
  rq_engaged : forall ids, claimed p = Some ids -> engaged i db ids;
  rq_snapshot : forall got todo snapshot, p = Rereading got todo snapshot -> snapshot = ids_of (reads i db);
  rq_current : forall locked, decided_on p = Some locked -> locked = reads i db;
  rq_writes : writes_ok i db p;
  rq_fresh : forall k, new_id p = Some k -> (k < td_next db)%Z /\ k ∉ ids_of (td_rows db)
}.

(** Two requests: they hold different rows, write different names and drew different ids. *)
Record pair_ok (db : templates) (i : nat) (p : phase) (j : nat) (q : phase) : Prop := {
  pr_exclusive : forall x, x ∈ held p -> x ∉ held q;
  pr_names : forall n r r', pending_name p = Some n -> pending_name q = Some n -> r ∈ reads i db -> r' ∈ reads j db ->
    sm_tenant r = sm_tenant r' -> sm_source r = sm_source r' -> False;
  pr_ids : forall k, new_id p = Some k -> new_id q <> Some k
}.

Record serial_inv (st : shared) : Prop := {
  si_table : tables_ok (sh_table st);
  si_requests : forall i, request_ok i (sh_table st) (sh_phase st i);
  si_pairs : forall i j, i <> j -> pair_ok (sh_table st) i (sh_phase st i) j (sh_phase st j)
}.
End Interleaving.

(** ** What a step does to the lineages *)

(** Rows are added or updated in place: the first version stays the first. *)
Definition grows (db db' : templates) : Prop :=
  forall template a l, lineage template (td_rows db) = a :: l ->
    exists a' l', lineage template (td_rows db') = a' :: l' /\ same_version a a'.

Definition others_kept (template : uuid) (db db' : templates) : Prop :=
  forall t, t <> template -> lineage t (td_rows db') = lineage t (td_rows db).

Lemma grows_refl db : grows db db.
Proof. intros t a l Hl. exists a, l. split; [done|apply same_version_refl]. Qed.

Lemma same_version_trans r1 r2 r3 : same_version r1 r2 -> same_version r2 r3 -> same_version r1 r3.
Proof. unfold same_version. intros. destruct_and!. by split_and!; etrans. Qed.

Lemma grows_trans db1 db2 db3 : grows db1 db2 -> grows db2 db3 -> grows db1 db3.
Proof.
  intros H1 H2 t a l Hl. destruct (H1 t a l Hl) as (a' & l' & Hl' & Hv). destruct (H2 t a' l' Hl') as (a2 & l2 & Hl2 & Hv2).
  exists a2, l2. split; [done|]. by eapply same_version_trans.
Qed.

Lemma grows_snoc db db' r : td_rows db' = td_rows db ++ [r] -> grows db db' /\ others_kept (sm_template r) db db'.
Proof.
  intros Hr. split.
  - intros t a l Hl. unfold lineage in *. rewrite Hr, filter_app, Hl. exists a, (l ++ filter (fun r => sm_template r = t) [r]).
    split; [done|apply same_version_refl].
  - intros t Ht. unfold lineage. rewrite Hr, filter_app, filter_cons_False, filter_nil; [by rewrite app_nil_r|done].
Qed.

Lemma grows_update template db db' :
  Forall2 (fun r r' => same_version r r' /\ (r' = r \/ sm_template r = template)) (td_rows db) (td_rows db') ->
  grows db db' /\ others_kept template db db'.
Proof.
  intros HF. assert (forall t, Forall2 (fun r r' => same_version r r' /\ (r' = r \/ sm_template r = template))
    (lineage t (td_rows db)) (lineage t (td_rows db'))) as HL.
  { intros t. apply lineage_Forall2; [|done]. by intros r r' [(_ & _ & _ & ? & _) _]. }
  split.
  - intros t a l Hl. specialize (HL t). rewrite Hl in HL. inversion HL as [|? a' ? l' [Hv _]]; subst. by exists a', l'.
  - intros t Ht. apply list_eq_Forall2. eapply Forall2_flip, Forall2_impl; [exact (Forall2_members _ _ _ (HL t))|].
    intros r r' ([Hr _]%lineage_elem & _ & _ & [->|He]); [done|congruence].
Qed.

Lemma rename_lineage_grows s template nn head db name db1 :
  rename_lineage s template nn head db = (Ok name, db1) -> grows db db1 /\ others_kept template db db1.
Proof.
  unfold rename_lineage. destruct nn as [n|]; [|intros [= <- <-]; split; [apply grows_refl|done]].
  destruct (String.eqb n (sm_name head)); [intros [= <- <-]; split; [apply grows_refl|done]|].
  destruct (update_name s template n db) as [[[]|e] db2] eqn:Hup; intros [= <- <-].
  apply rename_cases in Hup as [(e & [=] & _)|(_ & _ & _ & HF)]. apply grows_update. eapply Forall2_impl; [exact HF|].
  intros r r' [[-> _]|(-> & Ht & _)]; (split; [by repeat split|]); auto.
Qed.

Lemma rules_edit_grows s now template tenant name doc by_user locked db db1 :
  tables_ok db -> (forall d, d ∈ locked -> exists r, r ∈ td_rows db /\ sm_template r = template /\ sm_version_id r = sm_version_id d) ->
  apply_rules_edit s now locked tenant template name doc by_user db = (Ok tt, db1) -> grows db db1 /\ others_kept template db db1.
Proof.
  intros Hdb Hin. unfold apply_rules_edit. destruct (filter (fun r => sm_status r = DRAFT) locked) as [|d ?] eqn:Hd.
  - destruct (filter (fun r => sm_status r <> DEPRECATED) locked) as [|h ?]; [done|].
    destruct (insert_template _ _ _ _) as [[r|e] db2] eqn:Hi; intros [= <-].
    apply insert_cases in Hi as [(r0 & _ & Hi)|(e & [=] & _)]. pose proof (in_row _ _ _ _ _ _ Hi) as Hrow.
    destruct (grows_snoc _ _ _ (in_rows _ _ _ _ _ _ Hi)) as [Hg Ho]. rewrite Hrow in Ho. done.
  - assert (d ∈ locked) as Hdl by (assert (d ∈ filter (fun r => sm_status r = DRAFT) locked) as Hdf by (rewrite Hd; left);
      by apply list_elem_of_filter in Hdf as [_ ?]).
    destruct (update_rules _ _ _ _) as [[[]|e] db2] eqn:Hup; intros [= <-].
    apply edit_cases in Hup as [(e & [=] & _)|(_ & _ & _ & HF)]. apply grows_update.
    eapply Forall2_impl; [exact (Forall2_members _ _ _ HF)|].
    intros r r' (Hr & _ & [[-> _]|(-> & Hid & _)]); (split; [by repeat split|]); [by left|right].
    destruct (Hin d Hdl) as (q & Hq & Hqt & Hqd). by rewrite (same_row db r q Hdb Hr Hq ltac:(congruence)).
Qed.

(** ** The statements of a request on a table that keeps the lifecycle *)

Section Statements.
Context (call : nat -> patch_call).

(** What a request reads depends on its lineage only. *)
Lemma reads_lineage i db db' :
  lineage (pc_template (call i)) (td_rows db') = lineage (pc_template (call i)) (td_rows db) -> reads call i db' = reads call i db.
Proof.
  intros Hl. unfold reads, select_lineage. f_equal.
  assert (forall rows, filter (fun r => policy_using (pc_session (call i)) (sm_tenant r) && String.eqb (sm_template r) (pc_template (call i)) = true) rows =
    filter (fun r => policy_using (pc_session (call i)) (sm_tenant r) = true) (lineage (pc_template (call i)) rows)) as Hf.
  { intros rows. unfold lineage. rewrite list_filter_filter. apply list_filter_iff. intros r. rewrite andb_true_iff, String.eqb_eq. tauto. }
  by rewrite !Hf, Hl.
Qed.

Lemma reads_elem i db r :
  r ∈ reads call i db <-> r ∈ td_rows db /\ sm_template r = pc_template (call i) /\ policy_using (pc_session (call i)) (sm_tenant r) = true.
Proof.
  unfold reads, select_lineage. rewrite merge_sort_Permutation, list_elem_of_filter, andb_true_iff, String.eqb_eq. tauto.
Qed.

Lemma map_res_pointwise {E A B} (f : A -> result E B) g l : (forall x, x ∈ l -> f x = Ok (g x)) -> map_res f l = Ok (map g l).
Proof.
  intros Hf. apply map_res_ok. induction l as [|x l IH]; [done|]. cbn. constructor; [apply Hf; left|]. apply IH. intros y Hy. apply Hf. by right.
Qed.

Lemma Forall2_map {A B} (f : A -> B) l l' : Forall2 (fun x y => y = f x) l l' -> l' = map f l.
Proof. induction 1 as [|x y l l' -> _ IH]; [done|]. cbn. by rewrite IH. Qed.

(** A rename goes through exactly when the name is free, and writes the name. *)
Lemma update_name_ok i n db : tables_ok db -> can_name call i n db ->
  update_name (pc_session (call i)) (pc_template (call i)) n db = (Ok tt, view call i [WName n] db).
Proof.
  intros Hdb Hcan. unfold update_name, view. cbn [foldl written].
  rewrite (map_res_pointwise _ (named call i n)); [done|]. intros r Hr. unfold rename_row, named.
  destruct (policy_using (pc_session (call i)) (sm_tenant r)) eqn:Hu; cbn [andb]; [|done].
  destruct (String.eqb_spec (sm_template r) (pc_template (call i))) as [Ht|Ht]; [|done].
  destruct (Hcan r) as [Hc Hfree]; [by apply reads_elem|]. rewrite Hc. cbn [negb raise_if].
  assert (name_conflict (set_name n r) (td_rows db) = false) as ->; [|done].
  unfold name_conflict. apply andb_false_intro2, not_true_iff_false. intros (q & Hq & Hb)%existsb_exists.
  rewrite !andb_true_iff, !String.eqb_eq, !negb_true_iff, String.eqb_neq in Hb. cbn in Hb. destruct Hb as [[[[_ H1] H2] H3] H4].
  apply H4. rewrite Ht. apply Hfree; [by apply list_elem_of_In|done..].
Qed.

Lemma update_name_inv i n db db1 : tables_ok db ->
  update_name (pc_session (call i)) (pc_template (call i)) n db = (Ok tt, db1) -> can_name call i n db /\ db1 = view call i [WName n] db.
Proof.
  intros Hdb Hup. assert (can_name call i n db) as Hcan; [|by rewrite (update_name_ok _ _ _ Hdb Hcan) in Hup; injection Hup as <-].
  apply rename_cases in Hup as [(e & [=] & _)|(_ & _ & _ & HF)]. intros r (Hr & Ht & Hu)%reads_elem.
  destruct (Forall2_elem_l _ _ _ _ HF Hr) as (r' & _ & [[_ [Hu'|Ht']]|(_ & _ & Hc & Hn)]); [congruence|done|]. split; [done|].
  intros q Hq H1 H2 H3. rewrite <- Ht. apply (no_name_conflict (set_name n r) (td_rows db)); [done|exact (proj2 (row_version db r Hdb Hr))|done|by apply (row_version db)|done..].
Qed.

Lemma rename_statement_ok i head db : tables_ok db -> can_rename call i head db ->
  rename_statement call i head db = (Ok (effective_name call i head), view call i (rename_writes call i head) db).
Proof.
  intros Hdb. unfold can_rename, rename_statement, rename_lineage, effective_name, rename_writes.
  destruct (pc_name (call i)) as [n|]; [|by destruct db]. destruct (String.eqb_spec n (sm_name head)) as [->|Hne]; [by destruct db|].
  cbn [name_of default]. intros Hcan. by rewrite update_name_ok by auto.
Qed.

Lemma rename_statement_inv i head db name db1 : tables_ok db -> rename_statement call i head db = (Ok name, db1) ->
  can_rename call i head db /\ name = effective_name call i head /\ db1 = view call i (rename_writes call i head) db.
Proof.
  intros Hdb Hrun. assert (can_rename call i head db) as Hcan.
  { revert Hrun. unfold can_rename, rename_statement, rename_lineage, rename_writes. destruct (pc_name (call i)) as [n|]; [|done].
    destruct (String.eqb n (sm_name head)); [done|]. destruct (update_name _ _ _ _) as [[[]|e] db2] eqn:Hup; [|done].
    apply update_name_inv in Hup as [Hcan _]; [|done]. intros _ m [= <-]. done. }
  split; [done|]. rewrite rename_statement_ok in Hrun by done. by injection Hrun as <- <-.
Qed.

(** A table, with another value next in its sequence. *)
Definition with_next (k : Z) (db : templates) : templates := mkTemplates (td_rows db) k (td_tenants db).

(** The decision of a PATCH, statement by statement. *)
Lemma decide_steps i head rest db : decide_patch call i (head :: rest) db =
  match rename_statement call i head db with
  | (Err e, db1) => (Err e, db1)
  | (Ok name, db1) =>
      match edit_statement call i (head :: rest) name db1 with
      | (Err e, db2) => (Err e, db2)
      | (Ok _, db2) => (Ok (reads call i db2), db2)
      end
  end.
Proof. done. Qed.

Lemma rename_statement_next i head k db : rename_statement call i head (with_next k db) =
  ((rename_statement call i head db).1, with_next k (rename_statement call i head db).2).
Proof.
  unfold rename_statement, rename_lineage, update_name. destruct (pc_name (call i)) as [n|]; [|done]. destruct (String.eqb _ _); [done|].
  cbn [td_rows with_next]. by destruct (map_res _ _).
Qed.

Lemma view_app i ws ws' db : view call i (ws ++ ws') db = view call i ws' (view call i ws db).
Proof. unfold view. cbn. by rewrite foldl_app. Qed.

Lemma view_next i ws k db : view call i ws (with_next k db) = with_next k (view call i ws db).
Proof. done. Qed.

(** What a request relies on, once its decisive read is done: [db1] is the table as
    the request sees it after its rename. *)
Record editing (i : nat) (db db1 : templates) (head : SourceMappingRow) : Prop := {
  ed_table : tables_ok db1;
  ed_same : Forall2 same_version (td_rows db) (td_rows db1);
  ed_names : forall q, q ∈ lineage (pc_template (call i)) (td_rows db1) -> sm_name q = effective_name call i head;
  ed_grows : grows db db1;
  ed_others : others_kept (pc_template (call i)) db db1
}.

Lemma renamed_view i db head rest : tables_ok db -> reads call i db = head :: rest -> can_rename call i head db ->
  editing i db (view call i (rename_writes call i head) db) head.
Proof.
  intros Hdb Hr Hcan. pose proof (rename_statement_ok _ _ _ Hdb Hcan) as Hrun.
  assert (head ∈ reads call i db) as Hh by (rewrite Hr; left). apply select_sees in Hh as [Hh Hu].
  destruct (rename_lineage_keeps _ _ _ _ _ _ _ Hdb Hh Hu Hrun) as (H1 & H2 & H3).
  destruct (rename_lineage_grows _ _ _ _ _ _ _ Hrun) as [H4 H5]. by split.
Qed.

(** The new draft of a live lineage goes in under any unused id. *)
Lemma insert_draft s now t template name doc by_user rows k tenants a :
  lineage template rows = [a] -> sm_tenant a = t -> sm_seq a = 1%Z -> t ∈ tenants -> k ∉ ids_of rows -> policy_check s t = true ->
  (forall q, q ∈ rows -> sm_tenant q = t -> sm_source q = sm_source a -> sm_name q = name -> sm_template q = template) ->
  let n := mkNewRow t (sm_source a) template name (sm_type a) DRAFT None doc (Some (sm_version_id a)) by_user in
  insert_template s now n (mkTemplates rows k tenants) =
  (Ok (new_row_of k 2 now n), mkTemplates (rows ++ [new_row_of k 2 now n]) (k + 1) tenants).
Proof.
  intros Hl Hta Hs Hin Hk Hc Hnames. cbv zeta. unfold insert_template. cbv zeta. cbn [td_rows td_next td_tenants nw_tenant nw_source nw_template].
  unfold next_seq. rewrite in_lineage_filter, Hl; [|by apply check_sees|by rewrite Hl; intros q ->%list_elem_of_singleton].
  cbn [map foldr]. rewrite Hs. cbn. rewrite Hc. cbn [negb]. unfold index_violation. cbv zeta.
  assert (forall (P : SourceMappingRow -> bool), (forall q, q ∈ rows -> P q = true -> False) -> existsb P rows = false) as Hex.
  { intros P HP. apply not_true_iff_false. intros (q & Hq%list_elem_of_In & Hp)%existsb_exists. by apply (HP q). }
  rewrite Hex; [rewrite Hex; [unfold name_conflict; rewrite Hex; [cbn; by apply mem_elem in Hin as ->|]|]|].
  - intros q Hq Hb. rewrite !andb_true_iff, !String.eqb_eq, !negb_true_iff, String.eqb_neq in Hb. cbn in Hb. naive_solver.
  - intros q Hq Hb. unfold in_lineage in Hb. rewrite !andb_true_iff, !String.eqb_eq in Hb. cbn in Hb.
    assert (q ∈ lineage template rows) as Hql by (apply lineage_elem; naive_solver). rewrite Hl in Hql. apply list_elem_of_singleton in Hql as ->.
    rewrite Hs in Hb. naive_solver.
  - intros q Hq Hb%Z.eqb_eq. apply Hk. cbn in Hb. rewrite <- Hb. by apply list_elem_of_fmap_2.
Qed.

Lemma ruled_cases i id doc r : ruled call i id doc r = r \/ (sm_version_id r = id /\ ruled call i id doc r = set_rules doc r).
Proof.
  unfold ruled. destruct (policy_using _ _); [|by left]. destruct (Z.eqb_spec (sm_version_id r) id); [by right|by left].
Qed.

(** An edit writes a row under its id, or does not depend on the id. *)
Lemma edit_with_id i locked name k :
  (exists n, forall k', edit_with call i locked name k' = [WRow (new_row_of k' 2 (pc_now (call i)) n)]) \/
  (forall k', edit_with call i locked name k' = edit_with call i locked name k /\ forall r, WRow r ∈ edit_with call i locked name k -> False).
Proof.
  unfold edit_with. destruct (pc_rules (call i)) as [doc|]; [|right; split; [done|by intros r []%not_elem_of_nil]].
  destruct (filter (fun r => sm_status r = DRAFT) locked) as [|d ?]; [|right; split; [done|by intros r [=]%list_elem_of_singleton]].
  destruct (filter (fun r => sm_status r <> DEPRECATED) locked) as [|h ?]; [right; split; [done|by intros r []%not_elem_of_nil]|left; by eexists].
Qed.

Lemma tables_ok_next db rows next tenants : tables_ok db -> rows = td_rows db -> tenants = td_tenants db ->
  (forall r, r ∈ rows -> (sm_version_id r < next)%Z) -> tables_ok (mkTemplates rows next tenants).
Proof. intros [H1 H2 H3 H4 H5] -> -> Hn. by split. Qed.

(** The id of the newest row does not matter, as long as it is not used. *)
Lemma tables_ok_reid rows k k' seq now n next next' tenants :
  tables_ok (mkTemplates (rows ++ [new_row_of k seq now n]) next tenants) ->
  (forall r, r ∈ rows ++ [new_row_of k' seq now n] -> (sm_version_id r < next')%Z) -> k' ∉ ids_of rows ->
  tables_ok (mkTemplates (rows ++ [new_row_of k' seq now n]) next' tenants).
Proof.
  intros [H1 H2 H3 H4 H5] Hlt Hk. cbn in *.
  assert (forall r, r ∈ rows ++ [new_row_of k' seq now n] -> exists r0, r0 ∈ rows ++ [new_row_of k seq now n] /\
    sm_tenant r0 = sm_tenant r /\ sm_source r0 = sm_source r /\ sm_name r0 = sm_name r /\ sm_template r0 = sm_template r) as Hback.
  { intros r [Hr|Hr%list_elem_of_singleton]%elem_of_app; [exists r; split; [apply elem_of_app; by left|done]|].
    subst r. eexists. split; [apply elem_of_app; right; left|done]. }
  split; cbn; [|done| |..].
  - rewrite map_app in *. apply NoDup_app in H1 as (Hn & _ & _). apply NoDup_app. split_and!; [done| |apply NoDup_singleton].
    intros x Hx Hin%list_elem_of_singleton. apply Hk. cbn in Hin. by subst x.
  - intros template. specialize (H3 template). unfold lineage in *. rewrite filter_app in *.
    destruct (decide (nw_template n = template)) as [Ht|Ht].
    2: { rewrite filter_cons_False, filter_nil in * by done. done. }
    rewrite filter_cons_True, filter_nil in * by done. destruct (filter (fun r => sm_template r = template) rows) as [|a [|b l]]; cbn in *.
    + inversion H3 as [|? [[] ]|]; subst. apply LO_live. by repeat split.
    + inversion H3 as [| |? ? Ha [[] ]]; subst. constructor; [done|]. by repeat split.
    + inversion H3 as [| |]; subst. by destruct l.
  - intros r q (r0 & Hr & E1 & E2 & E3 & E4)%Hback (q0 & Hq & F1 & F2 & F3 & F4)%Hback ???. rewrite <- E4, <- F4. apply H4; congruence.
  - intros r (r0 & Hr & <- & _)%Hback. by apply H5.
Qed.

(** The edit of a request that decided on its lineage, at any next id. *)
Section Edit.
Context (i : nat) (db : templates) (head : SourceMappingRow) (rest : list SourceMappingRow).
Context (Hdb : tables_ok db) (Hreads : reads call i db = head :: rest) (Hcan : can_rename call i head db).
Context (Hrules : forall doc, pc_rules (call i) = Some doc -> forall r, r ∈ lineage (pc_template (call i)) (td_rows db) ->
  sm_tenant r = pc_tenant (call i) /\ stored_ok (sm_type r) doc).

Let name := effective_name call i head.
Let db1 := view call i (rename_writes call i head) db.

Lemma locked_shape :
  head :: rest ≡ₚ lineage (pc_template (call i)) (td_rows db) /\ policy_using (pc_session (call i)) (sm_tenant head) = true.
Proof using Hdb Hreads.
  assert (head ∈ reads call i db) as Hh by (rewrite Hreads; left). pose proof Hh as [Hl Hu]%select_sees.
  split; [|done]. rewrite <- Hreads. by eapply locked_lineage.
Qed.

(** The shape of the lineage, before and after the rename. *)
Lemma lineage_pair :
  (exists a a', lineage (pc_template (call i)) (td_rows db) = [a] /\ lineage (pc_template (call i)) (td_rows db1) = [a'] /\ same_version a a' /\
     filter (fun r => sm_status r = DRAFT) (head :: rest) = [] /\ filter (fun r => sm_status r <> DEPRECATED) (head :: rest) = [a]) \/
  (exists a d, lineage (pc_template (call i)) (td_rows db) = [a; d] /\ filter (fun r => sm_status r = DRAFT) (head :: rest) = [d]).
Proof using Hdb Hreads Hcan.
  destruct locked_shape as [Hp _]. destruct (renamed_view _ _ _ _ Hdb Hreads Hcan) as [_ HV _ _ _].
  pose proof (lineage_Forall2 _ (pc_template (call i)) _ _ (fun r r' '(conj _ (conj _ (conj _ (conj H _)))) => H) HV) as HL.
  destruct (locked_cases _ _ Hp (to_lineages _ Hdb _)) as [(a & Hla & H1 & H2)|(a & d & Hla & H1)]; [| |by right; exists a, d].
  { intros Hn. rewrite Hn in Hp. symmetry in Hp. by apply Permutation_nil_cons in Hp. }
  left. fold db1 in HL. rewrite Hla in HL. inversion HL as [|? a' ? l' Hv Hnil E1 E2]; subst. inversion Hnil; subst. by exists a, a'.
Qed.

(** A row as the request sees it is the row it renamed. *)
Lemma row_before r' d : r' ∈ td_rows db1 -> d ∈ td_rows db -> sm_version_id r' = sm_version_id d -> same_version d r'.
Proof using Hdb Hreads Hcan.
  intros Hr' Hd Hid. destruct (renamed_view _ _ _ _ Hdb Hreads Hcan) as [_ HV _ _ _].
  destruct (Forall2_elem_r _ _ _ _ HV Hr') as (r & Hr & Hv). pose proof Hv as [Hid' _].
  by assert (r = d) as -> by (apply (same_row db); [done..|congruence]).
Qed.

Lemma edit_statement_ok k : may_edit call i -> k ∉ ids_of (td_rows db) ->
  exists k', (k <= k')%Z /\ (forall r, WRow r ∈ edit_with call i (head :: rest) name k -> sm_version_id r = k /\ k' = (k + 1)%Z) /\
    edit_statement call i (head :: rest) name (with_next k db1) =
      (Ok tt, with_next k' (view call i (edit_with call i (head :: rest) name k) db1)) /\
    edit_writes call i (head :: rest) (view call i (edit_with call i (head :: rest) name k) db1) = edit_with call i (head :: rest) name k.
Proof using Hdb Hreads Hcan Hrules.
  intros Hmay Hk. unfold edit_statement, edit_with, edit_writes. destruct (pc_rules (call i)) as [doc|] eqn:Hdoc.
  2: { exists k. split_and!; [lia|by intros r []%not_elem_of_nil|by destruct db|done]. }
  specialize (Hrules doc eq_refl). destruct Hmay as [Hno|Hc]; [congruence|]. unfold apply_rules_edit.
  destruct (renamed_view _ _ _ _ Hdb Hreads Hcan) as [Hok1 HV Hnames _ _]. fold db1 in Hok1, HV, Hnames.
  destruct lineage_pair as [(a & a' & Hla & Hla' & Hv & Hd & Hh)|(a & d & Hla & Hd)]; rewrite Hd.
  - rewrite Hh. destruct (Hrules a) as [Ht Hst]; [rewrite Hla; left|]. pose proof Hv as (Hid & Ht' & Hsrc & Htm & Hstat & Hseq & Hty & _).
    assert (a' ∈ lineage (pc_template (call i)) (td_rows db1)) as Ha' by (rewrite Hla'; left).
    pose proof Ha' as [Hat Hin']%lineage_elem.
    assert (live_version a') as Hlive by (pose proof (to_lineages _ Hok1 (pc_template (call i))) as Hlo; rewrite Hla' in Hlo; by inversion Hlo).
    exists (k + 1)%Z. split; [lia|]. split; [by intros r [= ->]%list_elem_of_singleton|]. unfold with_next.
    rewrite <- Hsrc, <- Hty, <- Hid. rewrite insert_draft; [| exact Hla'|congruence|apply Hlive| | |done|].
    + split; [done|]. cbn. by rewrite last_snoc.
    + rewrite <- Ht, <- Ht'. by apply (to_tenants _ Hok1).
    + unfold ids_of. by rewrite (ids_update _ _ HV).
    + intros q Hq H1 H2 H3. rewrite <- Hat. apply (to_names _ Hok1); [done..|congruence|congruence|]. rewrite H3. symmetry. by apply Hnames.
  - exists k. split; [lia|]. split; [intros r [=]%list_elem_of_singleton|]. split; [|done].
    assert (d ∈ lineage (pc_template (call i)) (td_rows db)) as Hdl by (rewrite Hla; right; left). destruct (Hrules d Hdl) as [Ht _].
    unfold update_rules. rewrite (map_res_pointwise _ (ruled call i (sm_version_id d) doc)); [done|].
    intros r Hr. unfold edit_row, ruled. destruct (policy_using _ _); cbn [andb]; [|done].
    destruct (Z.eqb_spec (sm_version_id r) (sm_version_id d)) as [Hid|]; [|done].
    destruct (row_before r d Hr) as (_ & Hten & _); [by apply lineage_elem in Hdl as [_ ?]|done|]. by rewrite Hten, Ht, Hc.
Qed.

Lemma edit_statement_inv k db2 : edit_statement call i (head :: rest) name (with_next k db1) = (Ok tt, db2) -> may_edit call i.
Proof using Hdb Hreads Hcan Hrules.
  intros Hrun. revert Hrun. unfold edit_statement, may_edit. destruct (pc_rules (call i)) as [doc|] eqn:Hdoc; [|by left]. intros Hrun. right. specialize (Hrules doc eq_refl).
  revert Hrun. unfold apply_rules_edit. destruct lineage_pair as [(a & a' & Hla & Hla' & Hv & Hd & Hh)|(a & d & Hla & Hd)]; rewrite Hd.
  - rewrite Hh. destruct (insert_template _ _ _ _) as [[r|e] db3] eqn:Hi; [|done]. intros _.
    apply insert_cases in Hi as [(r0 & _ & Hi)|(e & [=] & _)]. apply (in_check _ _ _ _ _ _ Hi).
  - destruct (update_rules _ _ _ _) as [[[]|e] db3] eqn:Hup; [|done]. intros _.
    apply edit_cases in Hup as [(e & [=] & _)|(_ & _ & _ & HF)].
    assert (d ∈ lineage (pc_template (call i)) (td_rows db)) as Hdl by (rewrite Hla; right; left). destruct (Hrules d Hdl) as [Ht _].
    apply lineage_elem in Hdl as [Hdt Hdr]. destruct (renamed_view _ _ _ _ Hdb Hreads Hcan) as [_ HV _ _ _]. fold db1 in HV.
    destruct (Forall2_elem_l _ _ _ _ HV Hdr) as (d' & Hd' & Hid & Hten & _).
    destruct (Forall2_elem_l _ _ _ _ HF Hd') as (d2 & _ & [[_ [Hu|Hne]]|(_ & _ & Hc)]); [|congruence|by rewrite <- Ht, <- Hten].
    destruct locked_shape as [Hp Hu']. destruct (lineage_shared _ d head (to_lineages _ Hdb (pc_template (call i)))) as (Htt & _).
    + by apply lineage_elem.
    + rewrite <- Hp. left.
    + congruence.
Qed.

(** What the edit does to the table the request sees. *)
Lemma edit_effect k : let db2 := view call i (edit_with call i (head :: rest) name k) db1 in
  grows db1 db2 /\ others_kept (pc_template (call i)) db1 db2 /\
  (forall q, q ∈ td_rows db2 -> sm_template q = pc_template (call i) -> sm_name q = name) /\
  (forall x, x ∈ ids_of (td_rows db2) -> x ∈ ids_of (td_rows db) \/ exists r, WRow r ∈ edit_with call i (head :: rest) name k /\ x = sm_version_id r).
Proof using Hdb Hreads Hcan.
  cbv zeta. clear Hrules. destruct (renamed_view _ _ _ _ Hdb Hreads Hcan) as [_ HV Hnames _ _]. fold db1 in HV, Hnames.
  assert (forall q, q ∈ td_rows db1 -> sm_template q = pc_template (call i) -> sm_name q = name) as Hn1
    by (intros q Hq Hqt; apply Hnames; by apply lineage_elem).
  assert (ids_of (td_rows db1) = ids_of (td_rows db)) as Hids by exact (ids_update _ _ HV).
  unfold edit_with. destruct (pc_rules (call i)) as [doc|].
  2: { split_and!; [apply grows_refl|done|done|]. intros x. cbn [view foldl td_rows]. rewrite Hids. by left. }
  destruct lineage_pair as [(a & a' & Hla & Hla' & Hv & Hd & Hh)|(a & d & Hla & Hd)]; rewrite Hd.
  - rewrite Hh. set (r := new_row_of k 2 _ _).
    destruct (grows_snoc db1 (view call i [WRow r] db1) r eq_refl) as [Hg Ho]. split_and!; [done|done|..].
    + intros q [Hq|Hq%list_elem_of_singleton]%elem_of_app Hqt; [by apply Hn1|by rewrite Hq].
    + intros x (q & -> & Hq)%list_elem_of_fmap. apply elem_of_app in Hq as [Hq|Hq%list_elem_of_singleton]; [|subst q].
      * left. rewrite <- Hids. by apply list_elem_of_fmap_2.
      * right. exists r. split; [left|done].
  - assert (Forall2 (fun r r' => same_version r r' /\ sm_name r' = sm_name r /\ (r' = r \/ sm_template r = pc_template (call i)))
        (td_rows db1) (td_rows (view call i [WRules (sm_version_id d) doc] db1))) as HF.
    { change (td_rows (view call i [WRules (sm_version_id d) doc] db1)) with (map (ruled call i (sm_version_id d) doc) (td_rows db1)).
      apply Forall2_fmap_r, Forall_Forall2_diag, Forall_forall. intros r Hr. unfold compose.
      destruct (ruled_cases i (sm_version_id d) doc r) as [->|[Hid ->]]; [split; [apply same_version_refl|by auto]|].
      split_and!; [by repeat split|done|right].
      assert (d ∈ lineage (pc_template (call i)) (td_rows db)) as [Hdt Hdr]%lineage_elem by (rewrite Hla; right; left).
      destruct (row_before r d Hr Hdr Hid) as (_ & _ & _ & -> & _). done. }
    destruct (grows_update (pc_template (call i)) db1 (view call i [WRules (sm_version_id d) doc] db1)) as [Hg Ho].
    { eapply Forall2_impl; [exact HF|]. naive_solver. }
    split_and!; [done|done|..].
    + intros q Hq Hqt. destruct (Forall2_elem_r _ _ _ _ HF Hq) as (q0 & Hq0 & (_ & _ & _ & Htm & _) & -> & _). apply Hn1; congruence.
    + intros x Hx. left. rewrite <- Hids. unfold ids_of in Hx. rewrite (ids_update (td_rows db1)) in Hx; [done|].
      eapply Forall2_impl; [exact HF|]. naive_solver.
Qed.

(** Alone, the request would write the same, whatever the next id. *)
Lemma alone_writes k : may_edit call i -> k ∉ ids_of (td_rows db) ->
  exists k', (k <= k')%Z /\ (forall r, WRow r ∈ edit_with call i (head :: rest) name k -> sm_version_id r = k /\ k' = (k + 1)%Z) /\
    atomic_patch call i (with_next k db) =
      (Ok (reads call i (view call i (edit_with call i (head :: rest) name k) db1)),
       with_next k' (view call i (edit_with call i (head :: rest) name k) db1)).
Proof using Hdb Hreads Hcan Hrules.
  intros Hmay Hk. destruct (edit_statement_ok k Hmay Hk) as (k' & Hle & Hrow & Hrun & _). exists k'. split; [done|]. split; [done|].
  unfold atomic_patch, patch_body. change (select_lineage _ _ (td_rows (with_next k db))) with (reads call i db). rewrite Hreads.
  change (patch_decided _ _ _ _ _ _ _ _ _) with (decide_patch call i (head :: rest) (with_next k db)).
  rewrite decide_steps, rename_statement_next, (rename_statement_ok i head db Hdb Hcan). cbn [fst snd]. fold name db1. by rewrite Hrun.
Qed.

(** What the request commits is what it would write alone, and keeps the lifecycle. *)
Lemma commit_ok k : may_edit call i ->
  (forall r, WRow r ∈ edit_with call i (head :: rest) name k -> k ∉ ids_of (td_rows db) /\ (k < td_next db)%Z) ->
  let db2 := view call i (edit_with call i (head :: rest) name k) db1 in
  tables_ok db2 /\ exists n n', (n <= td_next db)%Z /\ atomic_patch call i (with_next n db) = (Ok (reads call i db2), with_next n' db2).
Proof using Hdb Hreads Hcan Hrules.
  intros Hmay Hk db2. set (N := td_next db).
  assert (N ∉ ids_of (td_rows db)) as HN by (intros (r & Hid & Hr)%list_elem_of_fmap; apply (to_next _ Hdb) in Hr; lia).
  destruct (alone_writes N Hmay HN) as (N' & HleN & HrowN & HaloneN).
  assert (tables_ok (with_next N' (view call i (edit_with call i (head :: rest) name N) db1))) as HokN.
  { eapply patch_keeps; [exact Hdb| |]; [exact Hrules|]. unfold atomic_patch in HaloneN. replace (with_next N db) with db in HaloneN by (by destruct db).
    exact HaloneN. }
  destruct (edit_effect k) as (_ & _ & _ & Hids).
  assert (forall r, r ∈ td_rows db2 -> (sm_version_id r < td_next db)%Z) as Hlt.
  { intros r Hr. destruct (Hids (sm_version_id r)) as [(q & -> & Hq)%list_elem_of_fmap|(q & Hq & ->)]; [by apply list_elem_of_fmap_2|by apply (to_next _ Hdb)|].
    destruct (Hk q Hq) as [_ ?]. destruct (edit_with_id i (head :: rest) name k) as [(n & He)|He].
    - rewrite He in Hq. by apply list_elem_of_singleton in Hq as [= ->].
    - destruct (proj2 (He k) q Hq). }
  destruct (edit_with_id i (head :: rest) name k) as [(n & He)|He].
  - pose proof (He k) as Hek. destruct (Hk (new_row_of k 2 (pc_now (call i)) n)) as [Hfresh Hbound]; [rewrite Hek; left|].
    destruct (alone_writes k Hmay Hfresh) as (k' & _ & _ & Halone). split; [|exists k, k'; split; [lia|exact Halone]].
    unfold db2 in *. rewrite Hek in *. rewrite (He N) in HokN. eapply (tables_ok_reid _ N k); [exact HokN|exact Hlt|].
    destruct (renamed_view _ _ _ _ Hdb Hreads Hcan) as [_ HV _ _ _]. fold db1 in HV. unfold ids_of. by rewrite (ids_update _ _ HV).
  - destruct (He N) as [Heq _]. split; [|exists N, N'; split; [lia|unfold db2; rewrite <- Heq; exact HaloneN]].
    unfold db2 in *. rewrite <- Heq in Hlt |- *. eapply tables_ok_next; [exact HokN|done|done|exact Hlt].
Qed.
End Edit.
End Statements.

(** ** Overlapping PATCH requests *)

Section Serial.
Context (call : nat -> patch_call).

Lemma engaged_grows i db db' ids : grows db db' -> engaged call i db ids -> engaged call i db' ids.
Proof.
  intros Hg (a & l & Hl & Hin & Hd). destruct (Hg _ _ _ Hl) as (a' & l' & Hl' & Hid & Ht & _ & _ & _ & _ & Hty & _).
  exists a', l'. split; [done|]. rewrite Hid, Ht, Hty. done.
Qed.

Lemma engaged_prepared i db ids :
  tables_ok db -> engaged call i db ids ->
  forall doc, pc_rules (call i) = Some doc -> forall r, r ∈ lineage (pc_template (call i)) (td_rows db) ->
    sm_tenant r = pc_tenant (call i) /\ stored_ok (sm_type r) doc.
Proof.
  intros Hdb (a & l & Hl & _ & _ & Hd) doc Hr r Hin.
  assert (a ∈ lineage (pc_template (call i)) (td_rows db)) as Ha by (rewrite Hl; left).
  destruct (lineage_shared _ r a (to_lineages _ Hdb _) Hin Ha) as (-> & _ & _ & ->). by apply Hd.
Qed.

Lemma prepared_engaged i db : tables_ok db -> prepared call i db -> engaged call i db (ids_of (reads call i db)).
Proof.
  intros Hdb [Hne Hd]. unfold reads in *. destruct (select_lineage _ _ _) as [|q l] eqn:Hs; [done|].
  assert (q ∈ select_lineage (pc_session (call i)) (pc_template (call i)) (td_rows db)) as [Hq Hu]%select_sees by (rewrite Hs; left).
  pose proof (locked_lineage _ _ _ _ Hdb Hq Hu) as Hperm. rewrite <- Hs.
  destruct (lineage (pc_template (call i)) (td_rows db)) as [|a l'] eqn:Hl; [by apply not_elem_of_nil in Hq|].
  exists a, l'. split_and!; [done| | |intros doc Hr; apply Hd; [done|]; left].
  - apply list_elem_of_fmap. exists a. split; [done|]. rewrite Hperm. left.
  - assert (a ∈ lineage (pc_template (call i)) (td_rows db)) as Ha by (rewrite Hl; left). rewrite <- Hl in Hq.
    by destruct (lineage_shared _ a q (to_lineages _ Hdb _) Ha Hq) as (-> & _).
Qed.

Lemma engaged_reads i db ids : engaged call i db ids -> exists head rest, reads call i db = head :: rest.
Proof.
  intros (a & l & Hl & _ & Hu & _). assert (a ∈ reads call i db) as Ha.
  { assert (a ∈ lineage (pc_template (call i)) (td_rows db)) as [? ?]%lineage_elem by (rewrite Hl; left). by apply reads_elem. }
  destruct (reads call i db) as [|head rest]; [by apply not_elem_of_nil in Ha|eauto].
Qed.

(** A request past its first read holds the first version of its template. *)
Definition past_first (p : phase) : bool :=
  match p with Rereading _ _ _ | Decided _ _ | Renamed _ _ _ _ | Edited _ _ _ => true | _ => false end.

Lemma past_claims p : past_first p = true -> claimed p = Some (held p).
Proof. by destruct p. Qed.

Lemma pending_past p n : pending_name p = Some n -> past_first p = true.
Proof. by destruct p. Qed.

Lemma set_phase_eq st i p : set_phase st i p i = p.
Proof. unfold set_phase. by rewrite decide_True. Qed.

Lemma set_phase_ne st i p j : j <> i -> set_phase st i p j = sh_phase st j.
Proof. intros Hj. unfold set_phase. by rewrite decide_False. Qed.

Lemma pair_sym db i p j q : pair_ok call db i p j q -> pair_ok call db j q i p.
Proof.
  intros [H1 H2 H3]. split; [by intros x Hq Hp; apply (H1 x)| |by intros k Hq Hp; apply (H3 k)].
  intros n r r' Hq Hp Hr Hr' ??. by apply (H2 n r' r).
Qed.

(** Two requests past their first read are about different templates. *)
Lemma holders_differ st i j :
  serial_inv call st -> i <> j -> past_first (sh_phase st i) = true -> past_first (sh_phase st j) = true ->
  pc_template (call i) <> pc_template (call j).
Proof.
  intros [_ Hr Hp] Hij Hi Hj Heq.
  destruct (rq_engaged _ _ _ _ (Hr i) _ (past_claims _ Hi)) as (a & l & Hl & Hin & _).
  destruct (rq_engaged _ _ _ _ (Hr j) _ (past_claims _ Hj)) as (b & l' & Hl' & Hin' & _).
  rewrite Heq, Hl' in Hl. injection Hl as -> _. by apply (pr_exclusive _ _ _ _ _ _ (Hp i j Hij) (sm_version_id a)).
Qed.

(** A step of one request. *)
Lemma inv_step st i db p :
  serial_inv call st -> tables_ok db -> request_ok call i db p ->
  (forall j, j <> i -> request_ok call j db (sh_phase st j)) -> (forall j, j <> i -> pair_ok call db i p j (sh_phase st j)) ->
  (forall j k, j <> i -> k <> i -> j <> k -> pair_ok call db j (sh_phase st j) k (sh_phase st k)) ->
  serial_inv call (leave st i db p).
Proof.
  intros Hinv Hdb Hi Hj Hp Hpp. split; cbn; [done|..].
  - intros j. destruct (decide (j = i)) as [->|Hne]; rewrite ?set_phase_eq, ?set_phase_ne by done; auto.
  - intros j k Hjk. destruct (decide (j = i)) as [->|Hj'], (decide (k = i)) as [->|Hk'];
      rewrite ?set_phase_eq, ?set_phase_ne by done; [done|by apply Hp|by apply pair_sym, Hp|by apply Hpp].
Qed.

Lemma goto_step st i p :
  serial_inv call st -> request_ok call i (sh_table st) p -> (forall j, j <> i -> pair_ok call (sh_table st) i p j (sh_phase st j)) ->
  serial_inv call (goto st i p).
Proof. intros Hinv Hi Hp. apply inv_step; try done; [apply Hinv|intros; apply Hinv|intros; by apply Hinv]. Qed.

(** A request that keeps its writes and takes at most rows that are free. *)
Lemma pair_rows st i j p : serial_inv call st -> j <> i ->
  (forall x, x ∈ held p -> x ∈ held (sh_phase st i) \/ x ∉ held (sh_phase st j)) ->
  pending_name p = None -> new_id p = None -> pair_ok call (sh_table st) i p j (sh_phase st j).
Proof.
  intros Hinv Hne Hh Hn Hd. split; [|by rewrite Hn|by rewrite Hd]. intros x Hx. destruct (Hh x Hx) as [Hold|]; [|done].
  apply (pr_exclusive _ _ _ _ _ _ (si_pairs _ _ Hinv i j (not_eq_sym Hne))), Hold.
Qed.

(** A request that ends frees what it held. *)
Lemma pair_answered db i r j q : pair_ok call db i (Answered r) j q.
Proof. split; [by intros x []%not_elem_of_nil|done|done]. Qed.

Lemma request_answered db i r : request_ok call i db (Answered r).
Proof. by split. Qed.

(** ** Changes of the table by others *)

Lemma request_table j db db' p :
  request_ok call j db p -> grows db db' -> (past_first p = true -> reads call j db' = reads call j db) ->
  (forall n, pending_name p = Some n -> can_name call j n db -> can_name call j n db') ->
  (forall k, new_id p = Some k -> (k < td_next db')%Z /\ k ∉ ids_of (td_rows db')) -> request_ok call j db' p.
Proof.
  intros [He Hs Hc Hw Hf] Hg Hr Hn Hk.
  assert (forall head, (forall n, name_of (rename_writes call j head) = Some n -> pending_name p = Some n) ->
    can_rename call j head db -> can_rename call j head db') as Hcan by (intros head Hname Hcan n Hnm; apply Hn; auto).
  split; [| | | |done].
  - intros ids Hcl. eapply engaged_grows; [done|]. by apply He.
  - intros got todo snap ->. rewrite Hr by done. by eapply Hs.
  - intros locked Hl. rewrite Hr by (by destruct p). by apply Hc.
  - destruct p as [| | | |got locked name ws|got locked ws|]; try done; cbn [writes_ok] in *.
    + destruct Hw as (head & rest & -> & -> & -> & Hcr). exists head, rest. split_and!; [done..|]. apply Hcan; [|done]. by intros n.
    + destruct Hw as (head & rest & k & -> & Hcr & Hm & ->). exists head, rest, k. split_and!; [done| |done|done]. apply Hcan; [|done].
      intros n Hnm. cbn. destruct (rename_writes call j head) as [|[]]; done.
Qed.

Lemma pair_table db db' i p j q :
  (past_first p = true -> reads call i db' = reads call i db) -> (past_first q = true -> reads call j db' = reads call j db) ->
  pair_ok call db i p j q -> pair_ok call db' i p j q.
Proof.
  intros Hi Hj [H1 H2 H3]. split; [done| |done]. intros n r r' Hp Hq. rewrite Hi, Hj by (eapply pending_past; eassumption). exact (H2 n r r' Hp Hq).
Qed.

Lemma filter_members {A} (P : A -> Prop) `{forall x, base.Decision (P x)} (l : list A) : (forall x, x ∈ l -> P x) -> l = filter P l.
Proof.
  induction l as [|x l IH]; intros Hl; [done|]. rewrite filter_cons_True by (apply Hl; left).
  f_equal. apply IH. intros y Hy. apply Hl. by right.
Qed.

Lemma engaged_mono i db ids ids' : (forall x, x ∈ ids -> x ∈ ids') -> engaged call i db ids -> engaged call i db ids'.
Proof. intros Hsub (a & l & Hl & Hin & Hd). exists a, l. split_and!; [done|by apply Hsub|apply Hd..]. Qed.

Lemma name_of_edit i head locked name k :
  name_of (rename_writes call i head ++ edit_with call i locked name k) = name_of (rename_writes call i head).
Proof.
  unfold rename_writes, edit_with. destruct (pc_name (call i)) as [n|]; [destruct (String.eqb _ _)|]; cbn; [|done|];
    (destruct (pc_rules (call i)); [|done]); repeat case_match; done.
Qed.

(** The id of a new row is the one its edit drew. *)
Lemma new_id_edit i got locked head name k k' :
  new_id (Edited got locked (rename_writes call i head ++ edit_with call i locked name k)) = Some k' ->
  k' = k /\ exists r, WRow r ∈ edit_with call i locked name k.
Proof.
  cbn. destruct (edit_with_id call i locked name k) as [(n & He)|He].
  - rewrite (He k), last_snoc. intros [= <-]. split; [done|]. eexists. left.
  - destruct (He k) as [_ Hno]. intros Hl. exfalso.
    destruct (last (rename_writes call i head ++ edit_with call i locked name k)) as [[| |r]|] eqn:Hlast; [done..| |done].
    apply last_Some_elem_of, elem_of_app in Hlast as [Hr|Hr]; [|by apply (Hno r)].
    unfold rename_writes in Hr. repeat case_match; rewrite ?elem_of_cons, ?elem_of_nil in Hr; naive_solver.
Qed.

(** ** The steps *)

Context (st : shared) (Hinv : serial_inv call st).

Lemma begin_keeps i : sh_phase st i = Idle -> prepared call i (sh_table st) ->
  serial_inv call (goto st i (Locking [] (ids_of (reads call i (sh_table st))))).
Proof using Hinv.
  intros Hi Hp. apply goto_step; [done| |].
  - split; try done. intros ids [= <-]. apply prepared_engaged; [apply Hinv|done].
  - intros j Hj. apply pair_rows; [done..| |done|done]. by intros x []%not_elem_of_nil.
Qed.

(** The row a request takes is free. *)
Lemma taken_free i x j : unblocked call st i -> wants_row (sh_phase st i) = Some x -> j <> i -> x ∉ held (sh_phase st j).
Proof. intros Hun Hw Hj Hx. apply (Hun j). split; [done|]. left. eauto. Qed.

Lemma lock_keeps i got x todo : sh_phase st i = Locking got (x :: todo) -> unblocked call st i ->
  serial_inv call (goto st i (Locking (got ++ [x]) todo)).
Proof using Hinv.
  intros Hi Hun. apply goto_step; [done| |].
  - split; try done. intros ids [= <-]. rewrite <- app_assoc. apply (rq_engaged _ _ _ _ (si_requests _ _ Hinv i)). by rewrite Hi.
  - intros j Hj. apply pair_rows; [done..| |done|done]. rewrite Hi. cbn. intros y [Hy|Hy%list_elem_of_singleton]%elem_of_app; [by left|right].
    subst y. apply (taken_free i); [done| |done]. by rewrite Hi.
Qed.

Lemma reread_keeps i got : sh_phase st i = Locking got [] ->
  serial_inv call (goto st i (Rereading got (ids_of (reads call i (sh_table st))) (ids_of (reads call i (sh_table st))))).
Proof using Hinv.
  intros Hi. apply goto_step; [done| |].
  - split; try done; [|by intros ??? [= <- <- <-]]. intros ids [= <-]. rewrite <- (app_nil_r got).
    apply (rq_engaged _ _ _ _ (si_requests _ _ Hinv i)). by rewrite Hi.
  - intros j Hj. apply pair_rows; [done..| |done|done]. rewrite Hi. by left.
Qed.

Lemma relock_keeps i got x todo snapshot : sh_phase st i = Rereading got (x :: todo) snapshot -> unblocked call st i ->
  serial_inv call (goto st i (Rereading (got ++ [x]) todo snapshot)).
Proof using Hinv.
  intros Hi Hun. apply goto_step; [done| |].
  - split; try done.
    + intros ids [= <-]. eapply (engaged_mono _ _ got); [intros y Hy; apply elem_of_app; by left|].
      apply (rq_engaged _ _ _ _ (si_requests _ _ Hinv i)). by rewrite Hi.
    + intros ??? [= <- <- <-]. by apply (rq_snapshot _ _ _ _ (si_requests _ _ Hinv i) got (x :: todo)).
  - intros j Hj. apply pair_rows; [done..| |done|done]. rewrite Hi. cbn. intros y [Hy|Hy%list_elem_of_singleton]%elem_of_app; [by left|right].
    subst y. apply (taken_free i); [done| |done]. by rewrite Hi.
Qed.

Lemma decide_keeps i got snapshot : sh_phase st i = Rereading got [] snapshot ->
  serial_inv call (goto st i (Decided got (filter (fun r => sm_version_id r ∈ snapshot) (reads call i (sh_table st))))).
Proof using Hinv.
  intros Hi. apply goto_step; [done| |].
  - split; try done.
    + intros ids [= <-]. apply (rq_engaged _ _ _ _ (si_requests _ _ Hinv i)). by rewrite Hi.
    + intros locked [= <-]. rewrite (rq_snapshot _ _ _ _ (si_requests _ _ Hinv i) _ _ _ Hi). symmetry. apply filter_members.
      intros r Hr. by apply list_elem_of_fmap_2.
  - intros j Hj. apply pair_rows; [done..| |done|done]. rewrite Hi. by left.
Qed.

Lemma rename_keeps_inv i got head rest name db1 :
  sh_phase st i = Decided got (head :: rest) -> unblocked call st i -> rename_statement call i head (sh_table st) = (Ok name, db1) ->
  serial_inv call (goto st i (Renamed got (head :: rest) name (rename_writes call i head))).
Proof using Hinv.
  intros Hi Hun Hrun. pose proof (si_requests _ _ Hinv i) as Hreq. rewrite Hi in Hreq.
  pose proof (rq_current _ _ _ _ Hreq _ eq_refl) as Hreads.
  destruct (rename_statement_inv _ _ _ _ _ _ (si_table _ _ Hinv) Hrun) as (Hcan & -> & _). apply goto_step; [done| |].
  - split; try done; [| |by exists head, rest].
    + intros ids [= <-]. by apply (rq_engaged _ _ _ _ Hreq).
    + by intros locked [= <-].
  - intros j Hj. pose proof (si_pairs _ _ Hinv i j (not_eq_sym Hj)) as Hpair. rewrite Hi in Hpair. destruct Hpair as [H1 _ _].
    split; [done| |done]. intros n r r' Hn Hm Hr Hr' Hten Hsrc. apply (Hun j). split; [done|]. right.
    exists (sm_tenant head), (sm_source head), n. rewrite Hi. cbn [wants_name pending_name] in *. rewrite Hn. split; [done|].
    assert (head ∈ reads call i (sh_table st)) as Hh by (rewrite <- Hreads; left).
    apply reads_elem in Hh as (Hh & Hht & _). apply reads_elem in Hr as (Hr & Hrt & _).
    destruct (template_together _ r head (si_table _ _ Hinv) Hr Hh) as (Ht1 & Hs1 & _); [congruence|].
    exists n, r'. split_and!; [done|done|congruence|congruence|by left].
Qed.

Lemma answer_keeps i r : serial_inv call (goto st i (Answered r)).
Proof using Hinv. apply goto_step; [done|apply request_answered|intros; apply pair_answered]. Qed.

(** A request that has renamed is about to edit on the table it sees. *)
Lemma renamed_facts i got locked name ws : sh_phase st i = Renamed got locked name ws ->
  exists head rest, locked = head :: rest /\ reads call i (sh_table st) = head :: rest /\ can_rename call i head (sh_table st) /\
    name = effective_name call i head /\ ws = rename_writes call i head /\
    forall doc, pc_rules (call i) = Some doc -> forall r, r ∈ lineage (pc_template (call i)) (td_rows (sh_table st)) ->
      sm_tenant r = pc_tenant (call i) /\ stored_ok (sm_type r) doc.
Proof using Hinv.
  intros Hi. pose proof (si_requests _ _ Hinv i) as Hreq. rewrite Hi in Hreq.
  destruct (rq_writes _ _ _ _ Hreq) as (head & rest & -> & -> & -> & Hcan). exists head, rest.
  pose proof (rq_current _ _ _ _ Hreq _ eq_refl) as Hreads. split_and!; [done..|].
  eapply engaged_prepared; [apply Hinv|]. by apply (rq_engaged _ _ _ _ Hreq).
Qed.

Lemma next_fresh db : tables_ok db -> td_next db ∉ ids_of (td_rows db).
Proof. intros Hdb (r & Hid & Hr)%list_elem_of_fmap. apply (to_next _ Hdb) in Hr. lia. Qed.

(** Drawing an id changes nothing for the others. *)
Lemma drawn_request j db k : request_ok call j db (sh_phase st j) -> (td_next db <= k)%Z -> request_ok call j (with_next k db) (sh_phase st j).
Proof.
  intros Hreq Hk. apply (request_table j db); [done|exact (grows_refl db)|done|done|].
  intros k' Hk'. destruct (rq_fresh _ _ _ _ Hreq k' Hk') as [? ?]. split; [cbn; lia|done].
Qed.

Lemma edit_keeps_inv i got locked name ws db1 :
  sh_phase st i = Renamed got locked name ws -> edit_statement call i locked name (view call i ws (sh_table st)) = (Ok tt, db1) ->
  serial_inv call (leave st i (undo_templates (sh_table st) db1) (Edited got locked (ws ++ edit_writes call i locked db1))).
Proof using Hinv.
  intros Hi Hrun. destruct (renamed_facts _ _ _ _ _ Hi) as (head & rest & -> & Hreads & Hcan & -> & -> & Hrules).
  pose proof (si_table _ _ Hinv) as Hdb. set (k := td_next (sh_table st)).
  change (view call i (rename_writes call i head) (sh_table st)) with
    (with_next k (view call i (rename_writes call i head) (sh_table st))) in Hrun.
  pose proof (edit_statement_inv _ _ _ _ _ Hdb Hreads Hcan Hrules _ _ Hrun) as Hmay.
  destruct (edit_statement_ok _ _ _ _ _ Hdb Hreads Hcan Hrules k Hmay (next_fresh _ Hdb)) as (k' & Hle & Hrow & Hrun' & Hws).
  rewrite Hrun' in Hrun. injection Hrun as <-. change (undo_templates _ _) with (with_next k' (sh_table st)).
  change (edit_writes call i (head :: rest) (with_next k' _)) with
    (edit_writes call i (head :: rest) (view call i (edit_with call i (head :: rest) (effective_name call i head) k)
       (view call i (rename_writes call i head) (sh_table st)))). rewrite Hws.
  pose proof (si_requests _ _ Hinv i) as Hreq. rewrite Hi in Hreq.
  apply inv_step; [done|by apply (tables_ok_undo _ (with_next k' (sh_table st)))|..].
  - split; try done; [by apply (rq_engaged _ _ _ _ Hreq)|by intros l [= <-]|by exists head, rest, k|].
    intros k2 (-> & r & Hr)%new_id_edit. destruct (Hrow r Hr) as [_ ->]. split; [cbn; lia|exact (next_fresh _ Hdb)].
  - intros j Hj. apply drawn_request; [apply Hinv|done].
  - intros j Hj. pose proof (si_pairs _ _ Hinv i j (not_eq_sym Hj)) as [H1 H2 _]. rewrite Hi in H1, H2.
    split; [done|cbn [pending_name]; rewrite name_of_edit; exact H2|].
    intros k2 (-> & r & Hr)%new_id_edit Hk2. destruct (rq_fresh _ _ _ _ (si_requests _ _ Hinv j) _ Hk2). lia.
  - intros j l Hj Hl Hjl. apply (pair_table (sh_table st)); [done|done|]. by apply Hinv.
Qed.

Lemma undo_keeps i db1 r : (td_next (sh_table st) <= td_next db1)%Z -> serial_inv call (leave st i (undo_templates (sh_table st) db1) (Answered r)).
Proof using Hinv.
  intros Hle. apply inv_step; [done|apply tables_ok_undo; [apply Hinv|done]|apply request_answered| |intros; apply pair_answered|].
  - intros j Hj. apply (drawn_request j (sh_table st)); [apply Hinv|done].
  - intros j l Hj Hl Hjl. apply (pair_table (sh_table st)); [done|done|]. by apply Hinv.
Qed.

(** What a commit does: [k] is the id of its new row, if it has one. *)
Lemma edited_facts i got locked ws : sh_phase st i = Edited got locked ws ->
  exists head rest k, reads call i (sh_table st) = head :: rest /\ can_rename call i head (sh_table st) /\ may_edit call i /\
    (forall doc, pc_rules (call i) = Some doc -> forall r, r ∈ lineage (pc_template (call i)) (td_rows (sh_table st)) ->
      sm_tenant r = pc_tenant (call i) /\ stored_ok (sm_type r) doc) /\
    ws = rename_writes call i head ++ edit_with call i (head :: rest) (effective_name call i head) k /\
    forall r, WRow r ∈ edit_with call i (head :: rest) (effective_name call i head) k ->
      sm_version_id r = k /\ new_id (sh_phase st i) = Some k /\ k ∉ ids_of (td_rows (sh_table st)) /\ (k < td_next (sh_table st))%Z.
Proof using Hinv.
  intros Hi. pose proof (si_requests _ _ Hinv i) as Hreq. rewrite Hi in Hreq.
  destruct (rq_writes _ _ _ _ Hreq) as (head & rest & k & -> & Hcan & Hmay & ->). exists head, rest, k.
  pose proof (rq_current _ _ _ _ Hreq _ eq_refl) as Hreads. split_and!; [done..| |done|].
  { eapply engaged_prepared; [apply Hinv|]. by apply (rq_engaged _ _ _ _ Hreq). }
  intros r Hr. rewrite Hi. destruct (edit_with_id call i (head :: rest) (effective_name call i head) k) as [(n & He)|He].
  - pose proof (He k) as Hek. rewrite Hek in Hr. apply list_elem_of_singleton in Hr as [= ->]. split; [done|].
    assert (new_id (Edited got (head :: rest) (rename_writes call i head ++ edit_with call i (head :: rest) (effective_name call i head) k)) = Some k)
      as Hid by (cbn; by rewrite Hek, last_snoc). split; [done|]. destruct (rq_fresh _ _ _ _ Hreq k Hid). done.
  - destruct (proj2 (He k) r Hr).
Qed.

Lemma effective_cases i head :
  name_of (rename_writes call i head) = Some (effective_name call i head) \/
  (name_of (rename_writes call i head) = None /\ effective_name call i head = sm_name head).
Proof.
  unfold rename_writes, effective_name. destruct (pc_name (call i)) as [n|]; [|by right].
  destruct (String.eqb_spec n (sm_name head)); [by right|by left].
Qed.

(** A row of the lineage of a request, in a table that grew, has the lineage's tenant and source. *)
Lemma lineage_key db db' template h q : tables_ok db -> tables_ok db' -> grows db db' ->
  h ∈ lineage template (td_rows db) -> q ∈ lineage template (td_rows db') -> sm_tenant q = sm_tenant h /\ sm_source q = sm_source h.
Proof.
  intros Hdb Hdb' Hg Hh Hq. destruct (lineage template (td_rows db)) as [|a l] eqn:Hl; [by apply not_elem_of_nil in Hh|].
  destruct (Hg _ _ _ Hl) as (a' & l' & Hl' & _ & Ht & Hs & _).
  assert (a ∈ lineage template (td_rows db)) as Ha by (rewrite Hl; left). assert (a' ∈ lineage template (td_rows db')) as Ha' by (rewrite Hl'; left).
  rewrite <- Hl in Hh. destruct (lineage_shared _ h a (to_lineages _ Hdb _) Hh Ha) as (? & ? & _).
  destruct (lineage_shared _ q a' (to_lineages _ Hdb' _) Hq Ha') as (? & ? & _). split; congruence.
Qed.

Lemma commit_spec i got locked ws : sh_phase st i = Edited got locked ws ->
  let db := sh_table st in let db' := view call i ws db in
  tables_ok db' /\ grows db db' /\ others_kept (pc_template (call i)) db db' /\
  (forall x, x ∈ ids_of (td_rows db') -> x ∈ ids_of (td_rows db) \/ new_id (sh_phase st i) = Some x) /\
  (exists head, head ∈ reads call i db /\ forall q, q ∈ td_rows db' -> sm_template q = pc_template (call i) ->
     sm_tenant q = sm_tenant head /\ sm_source q = sm_source head /\ (pending_name (sh_phase st i) = Some (sm_name q) \/ sm_name q = sm_name head)) /\
  exists n n', (n <= td_next db)%Z /\ atomic_patch call i (with_next n db) = (Ok (reads call i db'), with_next n' db').
Proof using Hinv.
  intros Hi db db'. destruct (edited_facts _ _ _ _ Hi) as (head & rest & k & Hreads & Hcan & Hmay & Hrules & Hws & Hk).
  pose proof (si_table _ _ Hinv) as Hdb. fold db in Hdb, Hreads, Hcan, Hrules, Hk. subst db'. rewrite Hws, view_app.
  destruct (commit_ok _ _ _ _ _ Hdb Hreads Hcan Hrules k Hmay) as [Hok Halone]; [intros r Hr; by destruct (Hk r Hr) as (_ & _ & ? & ?)|].
  destruct (edit_effect _ _ _ _ _ Hdb Hreads Hcan k) as (Hg2 & Ho2 & Hn & Hids).
  destruct (renamed_view _ _ _ _ _ Hdb Hreads Hcan) as [_ _ _ Hg1 Ho1]. pose proof (grows_trans _ _ _ Hg1 Hg2) as Hg.
  assert (head ∈ reads call i db) as Hh by (rewrite Hreads; left).
  split_and!; [done|done|by intros t Ht; rewrite (Ho2 t Ht), (Ho1 t Ht)| | |done].
  - intros x Hx. destruct (Hids x Hx) as [?|(r & Hr & ->)]; [by left|right]. destruct (Hk r Hr) as (-> & ? & _). done.
  - exists head. split; [done|]. intros q Hq Hqt. apply reads_elem in Hh as (Hh & Hht & _).
    destruct (lineage_key db _ (pc_template (call i)) head q Hdb Hok Hg) as [Ht Hs]; [by apply lineage_elem|by apply lineage_elem|].
    split_and!; [done..|]. rewrite Hi, Hws. cbn [pending_name]. rewrite name_of_edit, (Hn q Hq Hqt).
    destruct (effective_cases i head) as [?|[_ ?]]; [by left|by right].
Qed.

(** A name a request has written stays free for it when another one commits. *)
Lemma name_survives i j n got locked ws : sh_phase st i = Edited got locked ws -> j <> i -> pending_name (sh_phase st j) = Some n ->
  can_name call j n (sh_table st) -> can_name call j n (view call i ws (sh_table st)).
Proof using Hinv.
  intros Hi Hj Hpn Hcan. destruct (commit_spec _ _ _ _ Hi) as (Hok & Hg & Ho & _ & (head & Hh & Hkey) & _).
  assert (pc_template (call j) <> pc_template (call i)) as Hdiff.
  { apply (holders_differ st j i Hinv Hj); [by eapply pending_past|by rewrite Hi]. }
  intros r. rewrite (reads_lineage call j (sh_table st)) by (by apply Ho). intros Hr. destruct (Hcan r Hr) as [Hc Hfree]. split; [done|].
  intros q Hq Ht Hs Hn. destruct (decide (sm_template q = pc_template (call i))) as [Hqi|Hqi].
  - destruct (Hkey q Hq Hqi) as (Ht' & Hs' & [Hpi|Hnm]).
    + exfalso. rewrite Hn in Hpi.
      apply (pr_names _ _ _ _ _ _ (si_pairs _ _ Hinv i j (not_eq_sym Hj)) n head r Hpi Hpn Hh Hr); congruence.
    + rewrite Hqi. apply reads_elem in Hh as (Hh & <- & _). apply Hfree; [done|congruence..].
  - apply Hfree; [|done..]. assert (q ∈ lineage (sm_template q) (td_rows (sh_table st))) as [_ ?]%lineage_elem; [|done].
    rewrite <- (Ho (sm_template q) Hqi). by apply lineage_elem.
Qed.

Lemma commit_keeps i got locked ws r : sh_phase st i = Edited got locked ws ->
  serial_inv call (leave st i (view call i ws (sh_table st)) (Answered r)).
Proof using Hinv.
  intros Hi. destruct (commit_spec _ _ _ _ Hi) as (Hok & Hg & Ho & Hids & _).
  assert (forall j, j <> i -> past_first (sh_phase st j) = true -> reads call j (view call i ws (sh_table st)) = reads call j (sh_table st)) as Hreads.
  { intros j Hj Hp. apply reads_lineage, Ho. apply (holders_differ st j i Hinv Hj Hp). by rewrite Hi. }
  apply inv_step; [done|done|apply request_answered| |intros; apply pair_answered|].
  - intros j Hj. apply (request_table j (sh_table st)); [apply Hinv|done|by apply Hreads| |].
    + intros n Hn. by eapply name_survives.
    + intros k Hk. destruct (rq_fresh _ _ _ _ (si_requests _ _ Hinv j) k Hk) as [Hlt Hnot]. split; [exact Hlt|].
      intros [Hx|Hx]%Hids; [done|]. by apply (pr_ids _ _ _ _ _ _ (si_pairs _ _ Hinv i j (not_eq_sym Hj)) k).
  - intros j l Hj Hl Hjl. apply (pair_table (sh_table st)); [by apply Hreads|by apply Hreads|]. by apply Hinv.
Qed.

Lemma create_keeps_inv s now tenant source template name ty rules by_user r db' :
  lineage template (td_rows (sh_table st)) = [] -> stored_ok ty rules -> (forall j, writing_name call st j tenant source name -> False) ->
  insert_template s now (mkNewRow tenant source template name ty ACTIVE (Some now) rules None by_user) (sh_table st) = (r, db') ->
  serial_inv call (mkShared (if is_ok r then db' else undo_templates (sh_table st) db') (sh_phase st)).
Proof using Hinv.
  intros Hnew Hst Hfree Hins. pose proof (insert_next _ _ _ _ _ _ Hins) as Hnext. pose proof (si_table _ _ Hinv) as Hdb.
  apply insert_cases in Hins as [(q & -> & Hi)|(e & -> & _)]; cbn [is_ok].
  2: { split; cbn [sh_table sh_phase]; [apply tables_ok_undo; [done|lia]| |].
       - intros j. apply (drawn_request j (sh_table st)); [apply Hinv|lia].
       - intros j l Hjl. apply (pair_table (sh_table st)); [done|done|]. by apply Hinv. }
  pose proof (in_row _ _ _ _ _ _ Hi) as Hrow. pose proof (in_rows _ _ _ _ _ _ Hi) as Hrows.
  destruct (grows_snoc _ _ _ Hrows) as [Hg Ho].
  assert (forall j, past_first (sh_phase st j) = true -> reads call j db' = reads call j (sh_table st)) as Hreads.
  { intros j Hp. apply reads_lineage, Ho. rewrite Hrow. cbn. intros Heq.
    destruct (rq_engaged _ _ _ _ (si_requests _ _ Hinv j) _ (past_claims _ Hp)) as (a & l & Hl & _). by rewrite Heq, Hnew in Hl. }
  split; cbn [sh_table sh_phase]; [by eapply create_keeps| |].
  - intros j. apply (request_table j (sh_table st)); [apply Hinv|done|by apply Hreads| |].
    + intros n Hn Hcan p. rewrite Hreads by (by eapply pending_past). intros Hp. destruct (Hcan p Hp) as [Hc Hf]. split; [done|].
      intros q' Hq'. rewrite Hrows in Hq'. apply elem_of_app in Hq' as [Hq'|Hq'%list_elem_of_singleton]; [by apply Hf|]. subst q'.
      rewrite Hrow. cbn. intros Ht Hs Hnm. exfalso. apply (Hfree j). exists n, p. split_and!; [done..|by left].
    + intros k Hk. destruct (rq_fresh _ _ _ _ (si_requests _ _ Hinv j) k Hk) as [Hlt Hnot]. split; [lia|].
      unfold ids_of. rewrite Hrows, map_app. intros [Hx|Hx%list_elem_of_singleton]%elem_of_app; [done|].
      subst k. rewrite Hrow in Hlt. cbn in Hlt. lia.
  - intros j l Hjl. apply (pair_table (sh_table st)); [by apply Hreads|by apply Hreads|]. by apply Hinv.
Qed.

Lemma edit_statement_next i locked name db r db1 : edit_statement call i locked name db = (r, db1) -> (td_next db <= td_next db1)%Z.
Proof.
  unfold edit_statement. destruct (pc_rules (call i)) as [doc|]; [|by intros [= <- <-]]. unfold apply_rules_edit.
  destruct (filter (fun r => sm_status r = DRAFT) locked) as [|d ?].
  - destruct (filter (fun r => sm_status r <> DEPRECATED) locked) as [|h ?]; [by intros [= <- <-]|].
    destruct (insert_template _ _ _ _) as [[] db2] eqn:Hi; intros [= <- <-]; apply insert_next in Hi; lia.
  - destruct (update_rules _ _ _ _) as [[] db2] eqn:Hup; intros [= <- <-]; apply edit_cases in Hup; naive_solver lia.
Qed.

Lemma step_serial st' : patch_step call st st' -> serial_inv call st'.
Proof using Hinv.
  intros []; eauto using begin_keeps, lock_keeps, reread_keeps, relock_keeps, decide_keeps, rename_keeps_inv, answer_keeps, edit_keeps_inv,
    commit_keeps, create_keeps_inv. apply undo_keeps. by eapply edit_statement_next in H0.
Qed.

(** How a request may end: as it would alone on the committed table, but for the
    value its new row drew from the sequence; or as the victim of a deadlock. *)
Definition ends_serially (i : nat) (r : ures (list SourceMappingRow)) (after : templates) : Prop :=
  (exists n, (n <= td_next after)%Z /\ (atomic_patch call i (with_next n (sh_table st))).1 = r /\
     td_rows (settle (sh_table st) (atomic_patch call i (with_next n (sh_table st)))) = td_rows after) \/
  (tc (waits_for call st) i i /\ r = Err deadlock_error /\ after = sh_table st).

Lemma decided_alone i locked : decided_on (sh_phase st i) = Some locked ->
  atomic_patch call i (with_next (td_next (sh_table st)) (sh_table st)) = decide_patch call i locked (sh_table st).
Proof using Hinv.
  intros Hd. rewrite (rq_current _ _ _ _ (si_requests _ _ Hinv i) _ Hd). by destruct (sh_table st).
Qed.

Lemma rename_fails_serially i got head rest e db1 :
  sh_phase st i = Decided got (head :: rest) -> rename_statement call i head (sh_table st) = (Err e, db1) -> ends_serially i (Err e) (sh_table st).
Proof using Hinv.
  intros Hi Hrun. left. exists (td_next (sh_table st)). split; [lia|].
  rewrite (decided_alone i (head :: rest)) by (by rewrite Hi). by rewrite decide_steps, Hrun.
Qed.

Lemma edit_fails_serially i got locked name ws e db1 :
  sh_phase st i = Renamed got locked name ws -> edit_statement call i locked name (view call i ws (sh_table st)) = (Err e, db1) ->
  ends_serially i (Err e) (undo_templates (sh_table st) db1).
Proof using Hinv.
  intros Hi Hrun. destruct (renamed_facts _ _ _ _ _ Hi) as (head & rest & -> & Hreads & Hcan & -> & -> & Hrules).
  left. exists (td_next (sh_table st)). split; [cbn; by apply edit_statement_next in Hrun|].
  rewrite (decided_alone i (head :: rest)) by (by rewrite Hi).
  by rewrite decide_steps, (rename_statement_ok _ _ _ _ (si_table _ _ Hinv) Hcan), Hrun.
Qed.

Lemma commit_serially i got locked ws : sh_phase st i = Edited got locked ws ->
  ends_serially i (Ok (reads call i (view call i ws (sh_table st)))) (view call i ws (sh_table st)).
Proof using Hinv.
  intros Hi. destruct (commit_spec _ _ _ _ Hi) as (_ & _ & _ & _ & _ & n & n' & Hn & Halone). left. exists n.
  rewrite Halone. done.
Qed.

(** A request that has its rows has a row. *)
Lemma never_missing i got : sh_phase st i = Decided got [] -> False.
Proof using Hinv.
  intros Hi. pose proof (si_requests _ _ Hinv i) as Hreq. rewrite Hi in Hreq.
  destruct (engaged_reads _ _ _ (rq_engaged _ _ _ _ Hreq _ eq_refl)) as (h & l & Hr).
  pose proof (rq_current _ _ _ _ Hreq _ eq_refl). congruence.
Qed.

Lemma step_outcomes st' i : patch_step call st st' -> sh_phase st' i <> sh_phase st i ->
  match sh_phase st' i with
  | Answered r => ends_serially i r (sh_table st')
  | _ => td_rows (sh_table st') = td_rows (sh_table st)
  end.
Proof using Hinv.
  intros Hstep Hne. assert (forall j p, set_phase st j p i <> sh_phase st i -> j = i) as Hmoved.
  { intros j p Hp. destruct (decide (i = j)); [done|]. by rewrite set_phase_ne in Hp. }
  destruct Hstep; cbn in Hne |- *; try (pose proof (Hmoved _ _ Hne); subst i0; rewrite set_phase_eq); cbn; try done.
  - by destruct (never_missing i got).
  - by eapply rename_fails_serially.
  - by eapply edit_fails_serially.
  - by eapply commit_serially.
  - by right.
Qed.
End Serial.

Lemma runs_serial (call : nat -> patch_call) st0 st : starts st0 -> rtc (patch_step call) st0 st -> serial_inv call st.
Proof.
  intros [Hok Hidle] Hsteps. assert (serial_inv call st0) as Hinv.
  { split; [done|intros i; rewrite Hidle; by split|]. intros i j _. rewrite !Hidle. split; [by intros x []%not_elem_of_nil|done|done]. }
  clear Hok Hidle. induction Hsteps as [st|st1 st2 st3 Hstep _ IH]; [done|]. apply IH. by eapply step_serial.
Qed.

(** C8. However the statements of overlapping PATCH requests interleave with each
    other and with the creation of templates, every step leaves a committed table
    that keeps the lifecycle (no interleaving leaves a template with two DRAFT
    versions), and a request that has not ended has changed no committed row.  A
    request ends with the answer, and leaves the rows, that it would give and leave
    alone on the table committed at that moment, where the id of a new row is the
    one it drew from the sequence; or it waits in a circle of requests and is failed
    by the database, with no row changed. *)
Theorem patches_serialize (call : nat -> patch_call) st0 st st' :
  starts st0 -> rtc (patch_step call) st0 st -> patch_step call st st' ->
  tables_ok (sh_table st') /\
  forall i, sh_phase st' i <> sh_phase st i ->
    match sh_phase st' i with
    | Answered r =>
        (exists n, (n <= td_next (sh_table st'))%Z /\ (atomic_patch call i (with_next n (sh_table st))).1 = r /\
           td_rows (settle (sh_table st) (atomic_patch call i (with_next n (sh_table st)))) = td_rows (sh_table st')) \/
        (tc (waits_for call st) i i /\ r = Err deadlock_error /\ sh_table st' = sh_table st)
    | _ => td_rows (sh_table st') = td_rows (sh_table st)
    end.
Proof.
  intros H0 Hsteps Hstep. pose proof (runs_serial call st0 st H0 Hsteps) as Hinv.
  split; [apply (step_serial call st Hinv st' Hstep)|]. intros i Hne. exact (step_outcomes call st Hinv st' i Hstep Hne).
Qed.

(** ** Editors of one template *)

Definition tenant_session : session := mkSession (en_posture good_engine) (mkGuc "TENANT" tenant_a).

Definition editors (i : nat) : patch_call :=
  mkPatchCall tenant_session tenant_a template_1 None (Some (dump_rules snapshot_rules)) None (300 + Z.of_nat i).

(** The second read is needed: a request that decided on its first read, taken
    before the other one committed, would mint a second DRAFT. *)
Example single_read_mints_two_drafts :
  let stale := reads editors 0 created.2 in
  let first := settle created.2 (decide_patch editors 0 stale created.2) in
  map (fun r => (sm_seq r, sm_status r)) (td_rows (settle first (decide_patch editors 1 stale first))) =
  [(1%Z, ACTIVE); (2%Z, DRAFT); (3%Z, DRAFT)].
Proof. vm_compute. reflexivity. Qed.

Lemma created_ok : tables_ok created.2.
Proof.
  apply (reachable_ok strict_rules). exists empty_table. split; [split; reflexivity|]. apply rtc_once.
  eapply (Step_request _ sample_auth (bearer "a")); [|apply surjective_pairing]. vm_compute. reflexivity.
Qed.

Lemma editors_prepared i db : reads editors i db <> [] ->
  forallb (fun r => String.eqb (sm_tenant r) tenant_a && String.eqb (sm_type r) (sm_type live_row)) (lineage template_1 (td_rows db)) = true ->
  prepared editors i db.
Proof.
  intros Hne Hall. split; [done|]. intros doc [= <-] r Hr. cbn [pc_template editors] in Hr.
  rewrite forallb_forall in Hall. apply list_elem_of_In, Hall, andb_true_iff in Hr as [->%String.eqb_eq ->%String.eqb_eq].
  split; [reflexivity|]. apply (created_stored (H := strict_rules) snapshot_body). vm_compute. reflexivity.
Qed.

(** The first editor has read the template; the second one locks it, reads it again
    and adds a draft. *)
Definition rows_0 : list SourceMappingRow := reads editors 1 created.2.
Definition drafted : templates := (edit_statement editors 1 rows_0 "stock" created.2).2.
Definition writes_1 : list write := edit_writes editors 1 rows_0 drafted.
Definition table_1 : templates := undo_templates created.2 drafted.
Definition table_2 : templates := view editors 1 writes_1 table_1.

Definition all_idle : shared := mkShared created.2 (fun _ => Idle).
Definition e1 : shared := goto all_idle 0 (Locking [] (ids_of (reads editors 0 created.2))).
Definition e2 : shared := goto e1 1 (Locking [] (ids_of rows_0)).
Definition e3 : shared := goto e2 1 (Locking [1%Z] []).
Definition e4 : shared := goto e3 1 (Rereading [1%Z] (ids_of rows_0) (ids_of rows_0)).
Definition e5 : shared := goto e4 1 (Rereading [1%Z; 1%Z] [] (ids_of rows_0)).
Definition e6 : shared := goto e5 1 (Decided [1%Z; 1%Z] rows_0).
Definition e7 : shared := goto e6 1 (Renamed [1%Z; 1%Z] rows_0 "stock" []).
Definition e8 : shared := leave e7 1 table_1 (Edited [1%Z; 1%Z] rows_0 writes_1).
Definition e9 : shared := leave e8 1 table_2 (Answered (Ok (reads editors 1 table_2))).

Lemma step_to st i p p' : patch_step editors st (goto st i p) -> p = p' -> patch_step editors st (goto st i p').
Proof. by intros ? <-. Qed.

Lemma unblocked_rows st i :
  (forall j x, i <> j -> wants_row (sh_phase st i) = Some x -> x ∈ held (sh_phase st j) -> False) -> unblocked editors st i.
Proof.
  intros Hrow j [Hne [(x & Hx & Hin)|(t & src & n & Hn & _)]]; [by apply (Hrow j x)|]. revert Hn. unfold wants_name, rename_writes.
  cbn [pc_name editors]. by repeat case_match.
Qed.

Lemma idle_prepared i : prepared editors i created.2.
Proof. apply editors_prepared; [vm_compute; discriminate|vm_compute; reflexivity]. Qed.

Lemma rows_0_is : rows_0 = [set_name "stock" live_row].
Proof. vm_compute. reflexivity. Qed.
Lemma ids_0_is : ids_of rows_0 = [1%Z].
Proof. vm_compute. reflexivity. Qed.

Lemma second_decides : rtc (patch_step editors) all_idle e7.
Proof.
  apply rtc_l with e1; [exact (PS_begin editors all_idle 0 eq_refl (idle_prepared 0))|].
  apply rtc_l with e2; [exact (PS_begin editors e1 1 eq_refl (idle_prepared 1))|].
  apply rtc_l with e3.
  { refine (step_to e2 1 _ _ (PS_lock editors e2 1 [] 1%Z [] _ _) eq_refl); [exact (f_equal (Locking []) ids_0_is)|].
    apply unblocked_rows. intros [|[|j]] x Hne _ []%not_elem_of_nil. }
  apply rtc_l with e4; [exact (PS_reread editors e3 1 [1%Z] eq_refl)|].
  apply rtc_l with e5.
  { refine (PS_relock editors e4 1 [1%Z] 1%Z [] (ids_of rows_0) _ _); [change (Rereading [1%Z] (ids_of rows_0) (ids_of rows_0) = Rereading [1%Z] [1%Z] (ids_of rows_0)); by rewrite ids_0_is|].
    apply unblocked_rows. intros [|[|j]] x Hne _; [intros []%not_elem_of_nil|done|intros []%not_elem_of_nil]. }
  apply rtc_l with e6.
  { refine (step_to e5 1 _ _ (PS_decide editors e5 1 [1%Z; 1%Z] (ids_of rows_0) eq_refl) _).
    apply (f_equal (Decided _)). symmetry. apply filter_members.
    intros r Hr. by apply list_elem_of_fmap_2. }
  apply rtc_once. refine (step_to e6 1 _ _ (PS_rename editors e6 1 [1%Z; 1%Z] (set_name "stock" live_row) [] "stock" created.2 _ _ _) _).
  - change (Decided [1%Z; 1%Z] rows_0 = Decided [1%Z; 1%Z] [set_name "stock" live_row]). by rewrite rows_0_is.
  - apply unblocked_rows. intros j x Hne [=].
  - reflexivity.
  - by rewrite rows_0_is.
Qed.

Lemma second_edits : rtc (patch_step editors) all_idle e8.
Proof.
  apply rtc_r with e7; [exact second_decides|].
  assert (edit_statement editors 1 rows_0 "stock" (view editors 1 [] (sh_table e7)) = (Ok tt, drafted)) as Hrun by (vm_compute; reflexivity).
  exact (PS_edit editors e7 1 [1%Z; 1%Z] rows_0 "stock" [] drafted eq_refl Hrun).
Qed.

Lemma second_commits : patch_step editors e8 e9.
Proof. exact (PS_commit editors e8 1 [1%Z; 1%Z] rows_0 writes_1 eq_refl). Qed.

Lemma patches_serialize_witness :
  tables_ok table_2 /\
  exists n, (n <= 3)%Z /\ (atomic_patch editors 1 (with_next n table_1)).1 = Ok (reads editors 1 table_2) /\
    td_rows (settle table_1 (atomic_patch editors 1 (with_next n table_1))) = td_rows table_2.
Proof.
  destruct (patches_serialize editors all_idle e8 e9 (conj created_ok (fun i => eq_refl)) second_edits second_commits) as [Hok Hend].
  split; [exact Hok|]. destruct (Hend 1 ltac:(discriminate)) as [(n & Hn)|(_ & Hr & _)]; [exists n; exact Hn|discriminate Hr].
Defined.

(** ** A deadlock

    The first editor started before the draft was committed and takes the only row
    it saw.  The third one starts after that, takes the draft, and waits for the
    first row; the first one reads again and waits for the draft. *)
Definition e10 : shared := goto e9 0 (Locking [1%Z] []).
Definition e11 : shared := goto e10 2 (Locking [] (ids_of (reads editors 2 table_2))).
Definition e12 : shared := goto e11 2 (Locking [2%Z] [1%Z]).
Definition e13 : shared := goto e12 0 (Rereading [1%Z] (ids_of (reads editors 0 table_2)) (ids_of (reads editors 0 table_2))).

Lemma ids_2_is i : ids_of (reads editors i table_2) = [2%Z; 1%Z].
Proof. vm_compute. reflexivity. Qed.

(** PATCH requests of one template can deadlock: the one the database picks is
    answered with a server error, which no order of whole requests gives. *)
Theorem editors_deadlock :
  rtc (patch_step editors) all_idle e13 /\ waits_for editors e13 0 2 /\ waits_for editors e13 2 0 /\
  patch_step editors e13 (goto e13 0 (Answered (Err deadlock_error))) /\ status_of deadlock_error = 500%Z.
Proof.
  assert (waits_for editors e13 0 2) as H02.
  { split; [done|]. left. exists 2%Z. split; [|left]. change (wants_row (Rereading [1%Z] (ids_of (reads editors 0 table_2)) (ids_of (reads editors 0 table_2))) = Some 2%Z).
    by rewrite ids_2_is. }
  assert (waits_for editors e13 2 0) as H20 by (split; [done|]; left; exists 1%Z; split; [done|left]).
  split_and!; [|done|done|apply PS_deadlock; apply tc_l with 2; [done|by apply tc_once]|reflexivity].
  apply rtc_r with e12; [apply rtc_r with e11; [apply rtc_r with e10; [apply rtc_r with e9; [apply rtc_r with e8|]|]|]|].
  - exact second_edits.
  - exact second_commits.
  - refine (PS_lock editors e9 0 [] 1%Z [] _ _); [change (Locking [] (ids_of (reads editors 0 created.2)) = Locking [] [1%Z]); by rewrite <- ids_0_is|].
    apply unblocked_rows. intros [|[|j]] x Hne _; [done|intros []%not_elem_of_nil..].
  - refine (PS_begin editors e10 2 eq_refl _). apply editors_prepared; [vm_compute; discriminate|vm_compute; reflexivity].
  - refine (PS_lock editors e11 2 [] 2%Z [1%Z] _ _); [change (Locking [] (ids_of (reads editors 2 table_2)) = Locking [] [2%Z; 1%Z]); by rewrite ids_2_is|].
    apply unblocked_rows. intros [|[|[|j]]] x Hne Hx Hin; [|exact (not_elem_of_nil x Hin)|exact (Hne eq_refl)|exact (not_elem_of_nil x Hin)].
    change (wants_row (Locking [] (ids_of (reads editors 2 table_2))) = Some x) in Hx. rewrite ids_2_is in Hx. injection Hx as <-.
    change (2%Z ∈ [1%Z]) in Hin. by apply list_elem_of_singleton in Hin.
  - exact (PS_reread editors e12 0 [1%Z] eq_refl).
Qed.
