(* ===== verification/Catalog.v ===== *)
(** Catalog: the field catalogue of a template type (dis-ui-server,
    [catalog/labels.py], [catalog/field_catalog.py], [schemas/mapping_fields.py],
    [handlers/template_mapping_fields.py]).

    Labels are authored per column; which columns are mappable, mandatory and of
    which datatype is derived from the models and the provenance partition.  The
    catalogues are built once at start: a label without a column, or a column
    without a label, stops the service. *)

From S2P Require Import Prelude Text Values Transform SourceMapping Canonical Provenance Enrichment HotMapping UiErrors Access Rules TemplateGate GateTheorems.

(** ** Authored labels *)

Record FieldLabel := mkFieldLabel { display_name : string; description : string }.

Definition sale_event_labels : dict FieldLabel :=
  [ ("event_date", mkFieldLabel "Event date"
      "Calendar date of the sale at UTC, derived from the sale timestamp (use a date_from_datetime derive on the timestamp column).");
    ("sku_id", mkFieldLabel "SKU"
      "The product identifier as your system reports it.");
    ("sku_variant", mkFieldLabel "SKU variant"
      "Variant qualifier (size, colour) when your SKUs carry one.");
    ("sku_lot_batch", mkFieldLabel "Lot / batch"
      "Lot or batch number when tracked.");
    ("event_subtype", mkFieldLabel "Sale type"
      "Whether the line is a sale, a return, or a void.");
    ("source_sale_timestamp", mkFieldLabel "Sale timestamp"
      "When the sale happened, per your system's clock. Declare the exact format and timezone — they are never guessed.");
    ("transaction_id", mkFieldLabel "Transaction ID"
      "Your receipt/transaction reference; enables exact correction matching.");
    ("line_item_seq", mkFieldLabel "Line number"
      "Position of this line within the transaction.");
    ("quantity", mkFieldLabel "Quantity"
      "Units sold (negative or RETURN-typed rows represent returns).");
    ("unit_retail_price", mkFieldLabel "Unit retail price"
      "Listed shelf price per unit at sale time.");
    ("unit_sale_price", mkFieldLabel "Unit sale price"
      "Price per unit actually charged after discounts.");
    ("discount_amount", mkFieldLabel "Discount amount"
      "Absolute discount applied to the line.");
    ("discount_pct", mkFieldLabel "Discount %"
      "Percentage discount applied to the line.");
    ("unit_cost", mkFieldLabel "Unit cost"
      "What each unit costs you, if your file includes it.");
    ("promo_identifier", mkFieldLabel "Promotion ID"
      "Identifier of the promotion applied, if any.");
    ("tax_amount", mkFieldLabel "Tax amount"
      "Tax charged on the line.");
    ("currency", mkFieldLabel "Currency"
      "The currency your prices are in, as a 3-letter code (for example, EUR or USD).");
    ("payment_method", mkFieldLabel "Payment method"
      "How the transaction was paid (cash, card, ...).");
    ("customer_token", mkFieldLabel "Customer token"
      "A privacy-safe stand-in for the customer. Real customer details are never imported; they are replaced with this token before the data reaches here.");
    ("sale_channel", mkFieldLabel "Sale channel"
      "Originating channel (in-store, online, ...).") ].

Definition change_event_labels : dict FieldLabel :=
  [ ("event_date", mkFieldLabel "Event date"
      "Calendar date of the change at UTC, derived from the event timestamp (use a date_from_datetime derive on the timestamp column).");
    ("sku_id", mkFieldLabel "SKU"
      "The product identifier as your system reports it.");
    ("sku_variant", mkFieldLabel "SKU variant"
      "Variant qualifier (size, colour) when your SKUs carry one.");
    ("sku_lot_batch", mkFieldLabel "Lot / batch"
      "Lot or batch number when tracked.");
    ("event_category", mkFieldLabel "Change category"
      "What kind of change this template carries (inventory, price, cost, ...). Usually a constant derive per template.");
    ("event_subtype", mkFieldLabel "Change subtype"
      "Your finer-grained change label (free-form).");
    ("source_event_timestamp", mkFieldLabel "Change timestamp"
      "When the change happened, per your system's clock. Declare the exact format and timezone — they are never guessed.");
    ("effective_from", mkFieldLabel "Effective from"
      "When the new value takes effect, if scheduled.");
    ("effective_until", mkFieldLabel "Effective until"
      "When the value expires, if bounded.");
    ("attribute_name", mkFieldLabel "Attribute"
      "Which attribute changed (e.g. stock_qty, current_retail_price). Usually a constant derive per template.");
    ("value_before", mkFieldLabel "Value before"
      "The previous value of the field, before this change, if your file includes it.");
    ("value_after", mkFieldLabel "Value after"
      "The attribute's value after the change.");
    ("reason_code", mkFieldLabel "Reason code"
      "Your system's code for why the change happened.");
    ("reason_note", mkFieldLabel "Reason note"
      "Free-text note accompanying the change.");
    ("change_context", mkFieldLabel "Change context"
      "Additional structured context your system attaches to the change.") ].

Definition LABELS (section : string) : dict FieldLabel :=
  if String.eqb section "sale_event" then sale_event_labels
  else if String.eqb section "change_event" then change_event_labels else [].

Definition SNAPSHOT_LABELS : dict (FieldLabel * string) :=
  [ ("sku_id", (mkFieldLabel "SKU"
      "The product identifier as your system reports it.", "identity"));
    ("sku_variant", (mkFieldLabel "SKU variant"
      "Variant qualifier (size, colour) when your SKUs carry one.", "identity"));
    ("sku_lot_batch", (mkFieldLabel "Lot / batch"
      "Lot or batch number when tracked.", "identity"));
    ("barcode", (mkFieldLabel "Barcode"
      "Scannable barcode (EAN, UPC, ...) for the item, if present.", "identity"));
    ("product_name", (mkFieldLabel "Product name"
      "Human-readable product name.", "product"));
    ("product_description", (mkFieldLabel "Product description"
      "Longer descriptive text for the product, if provided.", "product"));
    ("product_category", (mkFieldLabel "Category"
      "Top-level category your system files the product under.", "product"));
    ("product_sub_category", (mkFieldLabel "Sub-category"
      "Sub-category beneath the main category.", "product"));
    ("product_department", (mkFieldLabel "Department"
      "Store department or division the product belongs to.", "product"));
    ("supplier_id", (mkFieldLabel "Supplier ID"
      "Your identifier for the product's supplier.", "product"));
    ("packaging_type", (mkFieldLabel "Packaging type"
      "How the unit is packaged (each, case, pack, ...).", "product"));
    ("sku_size", (mkFieldLabel "Size"
      "Declared size of the unit (e.g. 500ml, 1kg).", "product"));
    ("unit_of_measure", (mkFieldLabel "Unit of measure"
      "Unit the quantity is counted in (each, kg, litre, ...).", "product"));
    ("current_retail_price", (mkFieldLabel "Retail price"
      "Current listed shelf price per unit.", "pricing"));
    ("unit_cost", (mkFieldLabel "Unit cost"
      "What each unit costs you, if your file includes it.", "pricing"));
    ("promo_price", (mkFieldLabel "Promo price"
      "Promotional price per unit while a promotion is active.", "pricing"));
    ("promo_identifier", (mkFieldLabel "Promotion ID"
      "Identifier of the promotion applied, if any.", "pricing"));
    ("currency", (mkFieldLabel "Currency"
      "The currency your prices are in, as a 3-letter code (for example, EUR or USD).", "pricing"));
    ("stock_qty", (mkFieldLabel "Stock quantity"
      "Units currently on hand.", "inventory"));
    ("reorder_point", (mkFieldLabel "Reorder point"
      "Stock level at which the item is reordered.", "inventory"));
    ("lead_time_days", (mkFieldLabel "Lead time (days)"
      "Days between reorder and replenishment.", "inventory"));
    ("receipt_date", (mkFieldLabel "Receipt date"
      "Date the current stock was received.", "inventory"));
    ("expiry_date", (mkFieldLabel "Expiry date"
      "Expiry or best-before date for the current stock.", "expiry"));
    ("expiry_source", (mkFieldLabel "Expiry source"
      "Where the expiry date came from (label, system, estimate).", "expiry"));
    ("expiry_confidence", (mkFieldLabel "Expiry confidence"
      "How reliable the expiry value is, as your system rates it.", "expiry"));
    ("regulatory_flag", (mkFieldLabel "Regulatory flag"
      "Whether the item is subject to regulatory handling.", "regulatory_status"));
    ("regulatory_type", (mkFieldLabel "Regulatory type"
      "The kind of regulatory handling that applies.", "regulatory_status"));
    ("sku_status", (mkFieldLabel "SKU status"
      "Lifecycle state of the SKU (active, discontinued, ...).", "regulatory_status")) ].


(** ** Entries *)

Record TemplateMappingField := mkTemplateField {
  tf_key : string;
  tf_display_name : string;
  tf_section : string;
  tf_mandatory : bool;
  tf_constraints : option string;
  tf_datatype : option FieldDatatype;
  tf_description : string;
  tf_allowed_values : option (list string);
  tf_max_length : option Z;
  tf_sink : option string
}.

Definition SINK_BY_MODEL (m : model) : ures string :=
  match m with
  | StoreSkuSaleEvent => Ok "canonical.store_sku_sale_events"
  | StoreSkuChangeEvent => Ok "canonical.store_sku_change_events"
  | StoreSkuCurrentPosition => Ok "canonical.store_sku_current_position"
  | StoreSkuSignalHistory => Err (Lib (KeyError (model_name m)))
  end.

Definition IGNORE_FIELD : TemplateMappingField := mkTemplateField IGNORE "Ignore (do not import)" "system" false None None
  "Assign any source column you do not want imported. More than one column can map here; all are dropped." None None None.

(** The declared maximum length of a text column. *)
Definition max_length (t : field_type) : option Z :=
  match t with FStr n => Some (Z.of_nat n) | FCurrency => Some 3%Z | _ => None end.

(** The mappable columns in declaration order, when labels and columns agree. *)
Definition assert_labels (m : model) (produced authored : list string) : ures (list string) :=
  let derived := filter (fun name => mem name produced = true) (field_names m) in
  let missing := set_minus derived authored in
  let stale := set_minus authored derived in
  raise_if (nonempty missing || nonempty stale) (FieldCatalogDriftError (py_sorted missing) (py_sorted stale)) ≫= fun _ =>
  Ok derived.

Definition structural (m : model) (name : string) : ures (FieldDatatype * option (list string) * option Z) :=
  f ← model_field m name;
  '(datatype, allowed) ← datatype_and_values (f_type f);
  Ok (datatype, allowed, max_length (f_type f)).

Definition entry (m : model) (labels : dict FieldLabel) (section_of : string -> string) (mandatory : list string) (sink name : string)
    : ures TemplateMappingField :=
  '(datatype, allowed, len) ← structural m name;
  match dict_get labels name with
  | None => Err (Lib (KeyError name))
  | Some label =>
      Ok (mkTemplateField name (display_name label) (section_of name) (mem name mandatory) None (Some datatype)
            (description label) allowed len (Some sink))
  end.

Definition entries (m : model) (labels : dict FieldLabel) (section_of : string -> string) : ures (list TemplateMappingField) :=
  produced ← ui (mapping_produced_columns m);
  mandatory ← ui (mandatory_mapping_produced m (enrichment_guaranteed_for m));
  derived ← assert_labels m produced (dict_keys labels);
  sink ← SINK_BY_MODEL m;
  map_res (entry m labels section_of mandatory sink) derived.

Definition event_entries (m : model) (section : string) : ures (list TemplateMappingField) :=
  entries m (LABELS section) (fun _ => section).

Definition snapshot_section (name : string) : string :=
  match dict_get SNAPSHOT_LABELS name with Some (_, s) => s | None => "" end.

Definition snapshot_entries : ures (list TemplateMappingField) :=
  entries StoreSkuCurrentPosition (map (fun '(k, (l, _)) => (k, l)) SNAPSHOT_LABELS) snapshot_section.

Definition build_field_catalogs : ures (dict (list TemplateMappingField)) :=
  sales ← event_entries StoreSkuSaleEvent "sale_event";
  changes ← event_entries StoreSkuChangeEvent "change_event";
  snapshot ← snapshot_entries;
  Ok [(SALES, sales ++ [IGNORE_FIELD]); (INVENTORY_CHANGE, changes ++ [IGNORE_FIELD]); (SNAPSHOT, snapshot ++ [IGNORE_FIELD])].

(** The event columns, without the sentinel: what the suggester matches against. *)
Definition build_field_catalog : ures (list TemplateMappingField) :=
  sales ← event_entries StoreSkuSaleEvent "sale_event";
  changes ← event_entries StoreSkuChangeEvent "change_event";
  Ok (sales ++ changes).

(** ** The endpoints *)

Record TemplateType := mkTemplateType { ty_key : string; ty_display_name : string; ty_description : string }.

Definition TYPE_DISPLAY : dict (string * string) :=
  [ (SNAPSHOT, ("Catalogue / current position",
      "Map a file that lists each product's current details and stock position in your store."));
    (SALES, ("Sales events", "Map a sales-transaction file into sale events."));
    (INVENTORY_CHANGE, ("Change events", "Map an inventory / price / status change file into change events.")) ].

Section Endpoints.
Context `{AuthOutside} (catalogs : dict (list TemplateMappingField)).

Definition get_template_types (r : request) : ures (list TemplateType) :=
  _ ← get_current_identity r;
  map_res (fun key => match dict_get TYPE_DISPLAY key with
                      | Some (name, text) => Ok (mkTemplateType key name text)
                      | None => Err (Lib (KeyError key))
                      end) TEMPLATE_TYPES.

Definition get_template_mapping_fields (r : request) (template_type : option string) : ures (list TemplateMappingField) :=
  _ ← get_current_identity r;
  match template_type with
  | None => Err (InvalidTemplateTypeError None)
  | Some ty =>
      if is_template_type ty
      then match dict_get catalogs ty with Some l => Ok l | None => Err (Lib (KeyError ty)) end
      else Err (InvalidTemplateTypeError (Some ty))
  end.
End Endpoints.

(** ** The catalogue and the gate *)

(** The columns a catalogue offers, and those it marks mandatory. *)
Definition offered (l : list TemplateMappingField) : list string :=
  filter (fun k => k <> IGNORE) (map tf_key l).
Definition marked (l : list TemplateMappingField) : list string :=
  map tf_key (filter (fun e => tf_mandatory e = true) l).

(** What the catalogue of a type shows, evaluated on the three types. *)
Definition catalogue_fits (cs : dict (list TemplateMappingField)) (p : string * model) : Prop :=
  match dict_get cs p.1 with
  | Some l => (Forall (fun c => c ∈ produced_of p.2) (offered l) /\ Forall (fun c => c ∈ offered l) (produced_of p.2)) /\
              marked l = mandatory_of p.2
  | None => False
  end.

Lemma catalogues_fit :
  match build_field_catalogs with Ok cs => Forall (catalogue_fits cs) template_models | Err _ => False end.
Proof.
  assert (exists cs, build_field_catalogs = Ok cs) as [cs Hcs]; [|rewrite Hcs].
  { destruct build_field_catalogs as [cs|e] eqn:Hb; [eauto|]. vm_compute in Hb. discriminate Hb. }
  vm_compute in Hcs. injection Hcs as <-. repeat constructor.
  all: first [reflexivity | apply (bool_decide_unpack _); vm_compute; exact I].
Qed.

(** The catalogues build (the labels have not drifted), and the one of a type
    describes the gate: a document passes for the type exactly when it parses
    with a rename, targets only offered columns, covers every column marked
    mandatory and, for the snapshot, keeps the presence pairings. *)
Theorem catalogue_describes_gate `{RulesModel} raw ty s :
  exists cs, build_field_catalogs = Ok cs /\
    (validate_mapping_rules_for_type raw ty = Ok s <->
     exists fields, dict_get cs ty = Some fields /\ model_validate raw = Ok s /\ rename s <> [] /\
       (forall c, c ∈ target_columns s -> c ∈ offered fields) /\
       (forall c, c ∈ marked fields -> c ∈ target_columns s) /\
       (ty = SNAPSHOT -> pairings_hold (target_columns s))).
Proof.
  pose proof catalogues_fit as Hfit. destruct build_field_catalogs as [cs|e] eqn:Hb; [|done]. exists cs. split; [done|].
  assert (forall m, (ty, m) ∈ template_models -> m = StoreSkuCurrentPosition <-> ty = SNAPSHOT) as Hsnap.
  { intros m. unfold template_models, MODEL_BY_TYPE. rewrite !elem_of_cons, elem_of_nil. naive_solver. }
  rewrite gate_iff. rewrite Forall_forall in Hfit. split.
  - intros [Hv (m & [Hty Hc Hr Hl Hm Hp])]. pose proof (Hfit _ Hty) as Hc'. unfold catalogue_fits in Hc'. cbn in Hc'.
    destruct (dict_get cs ty) as [l|]; [|done]. destruct Hc' as [[_ Ho] Hmk]. rewrite Forall_forall in Ho.
    exists l. split_and!; auto; [by rewrite Hmk|]. intros Hsn. by apply Hp, (Hsnap m).
  - intros (l & Hl & Hv & Hr & Ho & Hm & Hp). split; [done|].
    assert (exists m, (ty, m) ∈ template_models) as [m Hty].
    { clear -Hl Hb. assert (ty ∈ dict_keys cs) as Hk by (apply dict_mem_keys; unfold dict_mem; by rewrite Hl).
      assert (dict_keys cs = [SALES; INVENTORY_CHANGE; SNAPSHOT]) as Hks.
      { unfold build_field_catalogs in Hb. inv_ok. reflexivity. }
      rewrite Hks in Hk. unfold template_models, MODEL_BY_TYPE. set_solver. }
    pose proof (Hfit _ Hty) as Hc'. unfold catalogue_fits in Hc'. cbn in Hc'. rewrite Hl in Hc'.
    destruct Hc' as [[Hof _] Hmk]. rewrite Forall_forall in Hof. exists m. split; auto.
    + by apply (validate_checked raw).
    + by rewrite <- Hmk.
    + intros Hsn. by apply Hp, (Hsnap m).
Qed.
