(* ===== verification/Csv.v ===== *)
(** Csv: text decoding and [csv.reader], as the structural gate of an upload uses
    them (Python's utf-8-sig codec, [io.StringIO] and the [_csv] module with the
    default dialect; dis-ui-server [tier0.py]).

    Decoded text is a list of code points.  The reader is the state machine of
    the [csv] module for the excel dialect: comma, double quote, doubled quotes,
    not strict; [None] is [csv.Error]. *)

From S2P Require Import Prelude Text Values UiErrors.
From S2P Require Import Transform Provenance.

Local Open Scope N_scope.

(** ** UTF-8 *)

Definition bytes_of (s : string) : list N := map N_of_ascii (String.list_ascii_of_string s).

Definition between (lo hi b : N) : bool := (lo <=? b) && (b <=? hi).
Definition cont (b : N) : bool := between 128 191 b.

(** The second byte of a three- or four-byte sequence: no overlong form, no
    surrogate, nothing above U+10FFFF. *)
Definition second_ok (b0 b1 : N) : bool :=
  if b0 =? 224 then between 160 191 b1
  else if b0 =? 237 then between 128 159 b1
  else if b0 =? 240 then between 144 191 b1
  else if b0 =? 244 then between 128 143 b1
  else cont b1.

Fixpoint utf8_decode (bs : list N) : option (list N) :=
  match bs with
  | [] => Some []
  | b0 :: r0 =>
      if b0 <? 128 then cons b0 <$> utf8_decode r0
      else match r0 with
      | [] => None
      | b1 :: r1 =>
          if between 194 223 b0 && cont b1 then cons ((b0 - 192) * 64 + (b1 - 128)) <$> utf8_decode r1
          else match r1 with
          | [] => None
          | b2 :: r2 =>
              if between 224 239 b0 && second_ok b0 b1 && cont b2
              then cons ((b0 - 224) * 4096 + (b1 - 128) * 64 + (b2 - 128)) <$> utf8_decode r2
              else match r2 with
              | [] => None
              | b3 :: r3 =>
                  if between 240 244 b0 && second_ok b0 b1 && cont b2 && cont b3
                  then cons ((b0 - 240) * 262144 + (b1 - 128) * 4096 + (b2 - 128) * 64 + (b3 - 128)) <$> utf8_decode r3
                  else None
              end
          end
      end
  end.

(** [bytes.decode("utf-8-sig")]: one leading byte order mark is dropped. *)
Definition decode_sig (bs : list N) : option (list N) :=
  match bs with
  | 239 :: 187 :: 191 :: rest => utf8_decode rest
  | _ => utf8_decode bs
  end.

(** [str.isspace] of a code point. *)
Definition is_space_point (c : N) : bool :=
  between 9 13 c || between 28 32 c || (c =? 133) || (c =? 160) || (c =? 5760) || between 8192 8202 c ||
  (c =? 8232) || (c =? 8233) || (c =? 8239) || (c =? 8287) || (c =? 12288).

(** [bool(cell.strip())] *)
Definition has_text (cell : list N) : bool := existsb (fun c => negb (is_space_point c)) cell.

(** ** Lines *)

(** [for line in io.StringIO(text)]: a line ends after its newline. *)
Fixpoint lines_from (cur : list N) (text : list N) : list (list N) :=
  match text with
  | [] => match cur with [] => [] | _ => [rev cur] end
  | c :: rest => if c =? 10 then rev (c :: cur) :: lines_from [] rest else lines_from (c :: cur) rest
  end.

Definition string_lines (text : list N) : list (list N) := lines_from [] text.

(** ** The reader *)

Inductive csv_state : Type :=
| START_RECORD | START_FIELD | IN_FIELD | IN_QUOTED_FIELD | QUOTE_IN_QUOTED_FIELD | EAT_CRNL.

(** The state, the open field (last character first) with its length, and the
    saved fields (last field first). *)
Record reader := mkReader { rd_state : csv_state; rd_field : list N; rd_len : N; rd_fields : list (list N) }.

Definition FIELD_LIMIT : N := 131072.

Definition reset : reader := mkReader START_RECORD [] 0 [].

Definition save_field (r : reader) (s : csv_state) : reader := mkReader s [] 0 (rev (rd_field r) :: rd_fields r).

Definition add_char (r : reader) (c : N) (s : csv_state) : option reader :=
  if FIELD_LIMIT <=? rd_len r then None else Some (mkReader s (c :: rd_field r) (rd_len r + 1) (rd_fields r)).

Definition goto (r : reader) (s : csv_state) : reader := mkReader s (rd_field r) (rd_len r) (rd_fields r).

Definition is_newline (c : N) : bool := (c =? 10) || (c =? 13).

Definition start_field (r : reader) (c : N) : option reader :=
  if is_newline c then Some (save_field r EAT_CRNL)
  else if c =? 34 then Some (goto r IN_QUOTED_FIELD)
  else if c =? 44 then Some (save_field r START_FIELD)
  else add_char r c IN_FIELD.

(** One character of a line. *)
Definition process_char (r : reader) (c : N) : option reader :=
  match rd_state r with
  | START_RECORD => if is_newline c then Some (goto r EAT_CRNL) else start_field r c
  | START_FIELD => start_field r c
  | IN_FIELD =>
      if is_newline c then Some (save_field r EAT_CRNL)
      else if c =? 44 then Some (save_field r START_FIELD)
      else add_char r c IN_FIELD
  | IN_QUOTED_FIELD => if c =? 34 then Some (goto r QUOTE_IN_QUOTED_FIELD) else add_char r c IN_QUOTED_FIELD
  | QUOTE_IN_QUOTED_FIELD =>
      if c =? 34 then add_char r c IN_QUOTED_FIELD
      else if c =? 44 then Some (save_field r START_FIELD)
      else if is_newline c then Some (save_field r EAT_CRNL)
      else add_char r c IN_FIELD
  | EAT_CRNL => if is_newline c then Some r else None
  end.

(** The end of a line. *)
Definition process_eol (r : reader) : reader :=
  match rd_state r with
  | START_RECORD | IN_QUOTED_FIELD => r
  | START_FIELD | IN_FIELD | QUOTE_IN_QUOTED_FIELD => save_field r START_RECORD
  | EAT_CRNL => goto r START_RECORD
  end.

Fixpoint process_line (r : reader) (line : list N) : option reader :=
  match line with
  | [] => Some (process_eol r)
  | c :: rest => match process_char r c with Some r' => process_line r' rest | None => None end
  end.

(** [[row for row in csv.reader(lines)]] *)
Fixpoint read_rows (r : reader) (lines : list (list N)) : option (list (list (list N))) :=
  match lines with
  | [] =>
      match rd_state r with
      | IN_QUOTED_FIELD => Some [rev (rd_fields (save_field r START_RECORD))]
      | _ => if rd_len r =? 0 then Some [] else Some [rev (rd_fields (save_field r START_RECORD))]
      end
  | line :: rest =>
      match process_line r line with
      | None => None
      | Some r' =>
          match rd_state r' with
          | START_RECORD => cons (rev (rd_fields r')) <$> read_rows reset rest
          | _ => read_rows r' rest
          end
      end
  end.

Definition csv_reader (text : list N) : option (list (list (list N))) := read_rows reset (string_lines text).

(** ** The tier-0 gate *)

Definition MIN_CSV_RECORDS : nat := 2.

(** [bytes.strip] leaves something. *)
Definition has_bytes (bs : list N) : bool := existsb (fun b => negb (between 9 13 b || (b =? 32))) bs.

Definition records (rows : list (list (list N))) : list (list (list N)) := filter (fun row => existsb has_text row = true) rows.

(** The number of data rows. *)
Definition run_tier0 (file : string) : ures nat :=
  let bs := bytes_of file in
  if negb (has_bytes bs) then Err (UploadStructureError "empty_file") else
  match decode_sig bs with
  | None => Err (UploadStructureError "not_utf8")
  | Some text =>
      match csv_reader text with
      | None => Err (UploadStructureError "not_csv")
      | Some rows =>
          let n := length (records rows) in
          if (n <? MIN_CSV_RECORDS)%nat then Err (UploadStructureError "below_min_rows") else Ok (n - 1)%nat
      end
  end.
