(* ===== verification/UploadStream.v ===== *)
(** UploadStream: reading a multipart upload under its size limits (dis-ui-server,
    [upload_stream.py]).

    The python-multipart package (its header parser and its push parser) is the
    class [Multipart]: a write or the final call reports the callbacks it makes,
    in order, and how it ends.  The body of the request is a stream of chunks,
    possibly endless; reading it takes fuel, one unit for each item of the stream.
    Bytes are characters of a string; a text field is the UTF-8 text it was sent
    as, of which only ASCII blanks are stripped. *)

From S2P Require Import Prelude Text Values Decimals Transform Provenance UiErrors Csv.
Local Open Scope Z_scope.

Definition slen (s : string) : Z := Z.of_nat (String.length s).

(** ** The parser *)

(** A callback of the push parser, with the data it is given. *)
Inductive callback : Type :=
| on_part_begin
| on_part_data (data : string) (first last : nat)
| on_part_end
| on_header_field (data : string) (first last : nat)
| on_header_value (data : string) (first last : nat)
| on_header_end
| on_headers_finished.

(** [data[start:end]] *)
Definition slice (data : string) (first last : nat) : string := String.substring first (last - first) data.

Class Multipart := {
  parse_options_header : option string -> string * dict string;
  parser : Type;
  MultipartParser : string -> ures parser;
  write : parser -> string -> list callback * ures parser;
  finalize : parser -> list callback * ures unit
}.

(** ** The collector *)

(** [file_data] is the object of the part buffer until a new part gets a new one. *)
Inductive file_slot : Type := NoFile | LiveBuffer | FileBytes (bytes : string).

Record collector := mkCollector {
  mc_file_data : file_slot;
  mc_filename : option string;
  mc_fields : dict string;
  mc_headers : dict string;
  mc_header_field : string;
  mc_header_value : string;
  mc_part_name : option string;
  mc_part_is_file : bool;
  mc_part_buffer : string
}.

Definition new_collector : collector := mkCollector NoFile None [] [] "" "" None false "".

(** The bytes [file_data] refers to. *)
Definition file_bytes_of (c : collector) : option string :=
  match mc_file_data c with NoFile => None | LiveBuffer => Some (mc_part_buffer c) | FileBytes b => Some b end.

Definition MAX_TEXT_FIELD_BYTES : Z := 1024.

(** [raw.decode("utf-8", errors="replace")]: each ill-formed stretch becomes U+FFFD. *)
Fixpoint utf8_replace (bs : list N) : list N :=
  let bad := [239; 191; 189]%N in
  match bs with
  | [] => []
  | b0 :: r0 =>
      if (b0 <? 128)%N then b0 :: utf8_replace r0
      else if between 194 223 b0 then
        match r0 with
        | b1 :: r1 => if cont b1 then b0 :: b1 :: utf8_replace r1 else bad ++ utf8_replace r0
        | [] => bad
        end
      else if between 224 239 b0 then
        match r0 with
        | b1 :: r1 =>
            if second_ok b0 b1 then
              match r1 with
              | b2 :: r2 => if cont b2 then b0 :: b1 :: b2 :: utf8_replace r2 else bad ++ utf8_replace r1
              | [] => bad
              end
            else bad ++ utf8_replace r0
        | [] => bad
        end
      else if between 240 244 b0 then
        match r0 with
        | b1 :: r1 =>
            if second_ok b0 b1 then
              match r1 with
              | b2 :: r2 =>
                  if cont b2 then
                    match r2 with
                    | b3 :: r3 => if cont b3 then b0 :: b1 :: b2 :: b3 :: utf8_replace r3 else bad ++ utf8_replace r2
                    | [] => bad
                    end
                  else bad ++ utf8_replace r1
              | [] => bad
              end
            else bad ++ utf8_replace r0
        | [] => bad
        end
      else bad ++ utf8_replace r0
  end.

Definition string_of_bytes (bs : list N) : string := String.string_of_list_ascii (map ascii_of_N bs).
Definition decode_replace (raw : string) : string := string_of_bytes (utf8_replace (bytes_of raw)).
Definition is_utf8 (raw : string) : bool := bool_decide (is_Some (utf8_decode (bytes_of raw))).

Section Collect.
Context `{Multipart} (file_part : string) (text_parts : list string) (max_file_bytes : Z).

(** The callbacks; the names are those of the source, primed where the
    constructor of [callback] has the name. *)
Definition on_header_field' (data : string) (first last : nat) (c : collector) : collector :=
  mkCollector (mc_file_data c) (mc_filename c) (mc_fields c) (mc_headers c) (mc_header_field c +:+ slice data first last)
    (mc_header_value c) (mc_part_name c) (mc_part_is_file c) (mc_part_buffer c).

Definition on_header_value' (data : string) (first last : nat) (c : collector) : collector :=
  mkCollector (mc_file_data c) (mc_filename c) (mc_fields c) (mc_headers c) (mc_header_field c)
    (mc_header_value c +:+ slice data first last) (mc_part_name c) (mc_part_is_file c) (mc_part_buffer c).

Definition on_header_end' (c : collector) : collector :=
  mkCollector (mc_file_data c) (mc_filename c) (mc_fields c)
    (dict_set (mc_headers c) (py_lower (mc_header_field c)) (mc_header_value c)) "" ""
    (mc_part_name c) (mc_part_is_file c) (mc_part_buffer c).

Definition set_part (name : option string) (is_file : bool) (filename : option string) (c : collector) : collector :=
  mkCollector (mc_file_data c) filename (mc_fields c) (mc_headers c) (mc_header_field c) (mc_header_value c)
    name is_file (mc_part_buffer c).

Definition on_headers_finished' (c : collector) : ures collector :=
  let '(_, params) := parse_options_header (dict_get (mc_headers c) "content-disposition") in
  match decode_replace <$> dict_get params "name" with
  | None => Ok (set_part None false (mc_filename c) c)
  | Some name =>
      if String.eqb name file_part then
        match mc_file_data c with
        | NoFile => Ok (set_part (Some name) true (decode_replace <$> dict_get params "filename") c)
        | _ => Err (UploadRequestError (Some file_part))
        end
      else if mem name text_parts then
        if dict_mem (mc_fields c) name then Err (UploadRequestError (Some name))
        else Ok (set_part (Some name) false (mc_filename c) c)
      else Ok (set_part None false (mc_filename c) c)
  end.

Definition on_part_begin' (c : collector) : collector :=
  mkCollector (match mc_file_data c with LiveBuffer => FileBytes (mc_part_buffer c) | f => f end)
    (mc_filename c) (mc_fields c) [] (mc_header_field c) (mc_header_value c) (mc_part_name c) (mc_part_is_file c) "".

Definition on_part_data' (data : string) (first last : nat) (c : collector) : ures collector :=
  match mc_part_name c with
  | None => Ok c
  | Some name =>
      let buffer := mc_part_buffer c +:+ slice data first last in
      if mc_part_is_file c && (max_file_bytes <? slen buffer) then Err (PayloadTooLargeError max_file_bytes (slen buffer))
      else if negb (mc_part_is_file c) && (MAX_TEXT_FIELD_BYTES <? slen buffer) then Err (UploadRequestError (Some name))
      else Ok (mkCollector (mc_file_data c) (mc_filename c) (mc_fields c) (mc_headers c) (mc_header_field c) (mc_header_value c)
                 (mc_part_name c) (mc_part_is_file c) buffer)
  end.

Definition on_part_end' (c : collector) : ures collector :=
  match mc_part_name c with
  | None => Ok c
  | Some name =>
      if mc_part_is_file c then
        Ok (mkCollector LiveBuffer (mc_filename c) (mc_fields c) (mc_headers c) (mc_header_field c) (mc_header_value c)
              None false (mc_part_buffer c))
      else if is_utf8 (mc_part_buffer c) then
        Ok (mkCollector (mc_file_data c) (mc_filename c) (dict_set (mc_fields c) name (mc_part_buffer c)) (mc_headers c)
              (mc_header_field c) (mc_header_value c) None false (mc_part_buffer c))
      else Err (UploadRequestError (Some name))
  end.

(** A callback runs inside the parser; an exception of it ends the parse. *)
Definition call (c : collector) (e : callback) : ures collector :=
  match e with
  | on_part_begin => Ok (on_part_begin' c)
  | on_part_data d i j => on_part_data' d i j c
  | on_part_end => on_part_end' c
  | on_header_field d i j => Ok (on_header_field' d i j c)
  | on_header_value d i j => Ok (on_header_value' d i j c)
  | on_header_end => Ok (on_header_end' c)
  | on_headers_finished => on_headers_finished' c
  end.

Definition calls (c : collector) (events : list callback) : ures collector := fold_res call c events.

(** [parser.write(chunk)] and [parser.finalize()], with the callbacks. *)
Definition feed (p : parser) (c : collector) (chunk : string) : ures (parser * collector) :=
  let '(events, r) := write p chunk in
  c' ← calls c events;
  p' ← r;
  Ok (p', c').

Definition finish (p : parser) (c : collector) : ures collector :=
  let '(events, r) := finalize p in
  c' ← calls c events;
  _ ← r;
  Ok c'.

(** ** The body *)

(** An item of [request.stream()]: a chunk, the end of the body, or an exception
    of the server (the client disconnected). *)
Inductive stream_item : Type := Chunk (data : string) | EndOfBody | StreamRaises (class_name : string).

Definition body_stream : Type := nat -> stream_item.

(** The loop over the chunks from item [i] on; [None] when the fuel runs out. *)
Fixpoint read_body (ceiling : Z) (body : body_stream) (fuel i : nat) (total : Z) (p : parser) (c : collector)
    : option (ures collector) :=
  match fuel with
  | O => None
  | S fuel' =>
      match body i with
      | StreamRaises n => Some (Err (Lib (OtherError n)))
      | EndOfBody => Some (finish p c)
      | Chunk EmptyString => read_body ceiling body fuel' (S i) total p c
      | Chunk data =>
          let total' := total + slen data in
          if ceiling <? total' then Some (Err (PayloadTooLargeError ceiling total'))
          else match feed p c data with
               | Err e => Some (Err e)
               | Ok (p', c') => read_body ceiling body fuel' (S i) total' p' c'
               end
      end
  end.

Record upload_request := mkUpload {
  up_content_type : option string;
  up_content_length : option string;
  up_body : body_stream
}.

Record ParsedUpload := mkParsedUpload { file_bytes : string; filename : option string; fields : dict string }.

(** [declared.isdigit()], on the Latin-1 characters of a header: the digits and
    the superscripts two, three and one. *)
Definition is_digit_latin1 (c : ascii) : bool :=
  is_digit c || (N_of_ascii c =? 178)%N || (N_of_ascii c =? 179)%N || (N_of_ascii c =? 185)%N.
Definition isdigit (s : string) : bool := negb (String.eqb s "") && str_all is_digit_latin1 s.

(** [int(declared)] of digits: superscripts and more than 4300 digits are refused. *)
Definition int_digits (s : string) : ures Z :=
  if (4300 <? String.length s)%nat then Err (Lib ValueError)
  else match read_nat s with Some n => Ok n | None => Err (Lib ValueError) end.

Definition check_declared (ceiling : Z) (declared : option string) : ures unit :=
  match declared with
  | None => Ok tt
  | Some d =>
      if isdigit d then n ← int_digits d; raise_if (ceiling <? n) (PayloadTooLargeError ceiling n)
      else Ok tt
  end.

(** The text parts that are missing or blank, in order. *)
Definition missing_parts (fields : dict string) : list string :=
  py_sorted (filter (fun n => String.eqb (strip (default "" (dict_get fields n))) "" = true) text_parts).

Definition extract_upload (c : collector) : ures ParsedUpload :=
  match file_bytes_of c with
  | None => Err (UploadRequestError (Some file_part))
  | Some bytes =>
      match missing_parts (mc_fields c) with
      | m :: _ => Err (UploadRequestError (Some m))
      | [] => Ok (mkParsedUpload bytes (mc_filename c) (mc_fields c))
      end
  end.

Definition read_csv_upload (ceiling : Z) (r : upload_request) (fuel : nat) : option (ures ParsedUpload) :=
  let '(content_type, params) := parse_options_header (up_content_type r) in
  match dict_get params "boundary" with
  | None => Some (Err (UploadRequestError None))
  | Some boundary =>
      if negb (String.eqb content_type "multipart/form-data") then Some (Err (UploadRequestError None)) else
      match check_declared ceiling (up_content_length r) with
      | Err e => Some (Err e)
      | Ok _ =>
          match MultipartParser boundary with
          | Err e => Some (Err e)
          | Ok p =>
              match read_body ceiling (up_body r) fuel 0 0 p new_collector with
              | None => None
              | Some (Err e) => Some (Err e)
              | Some (Ok c) => Some (extract_upload c)
              end
          end
      end
  end.
End Collect.

Definition FILE_PART : string := "file".
Definition TEXT_PARTS : list string := ["template_id"; "store_code"].
