(* ===== verification/UploadForm.v ===== *)
(** UploadForm: the meaning of a form, after the callback protocol of the multipart parser, the invariant of
    the collector along it, and the read loop. *)

From S2P Require Import Prelude Text Values Decimals Transform Provenance PathTheorems UiErrors Csv UploadStream.

Local Open Scope Z_scope.

(** ** The order of the callbacks *)

Inductive phase : Type := BetweenParts | PartHeaders | PartData.

Definition order (ph : phase) (e : callback) : option phase :=
  match ph, e with
  | BetweenParts, on_part_begin => Some PartHeaders
  | PartHeaders, (on_header_field _ _ _ | on_header_value _ _ _ | on_header_end) => Some PartHeaders
  | PartHeaders, on_headers_finished => Some PartData
  | PartData, on_part_data _ _ _ => Some PartData
  | PartData, on_part_end => Some BetweenParts
  | _, _ => None
  end.

Fixpoint run_order (ph : phase) (events : list callback) : option phase :=
  match events with
  | [] => Some ph
  | e :: es => match order ph e with Some ph' => run_order ph' es | None => None end
  end.

(** What the parser documents: the callbacks of a part come in order, across writes. *)
Class MultipartOrder `{Multipart} := {
  phase_of : parser -> phase;
  fresh_phase : forall boundary p, MultipartParser boundary = Ok p -> phase_of p = BetweenParts;
  write_phase : forall p data events r, write p data = (events, r) ->
    exists ph, run_order (phase_of p) events = Some ph /\ forall p', r = Ok p' -> phase_of p' = ph;
  finalize_phase : forall p events r, finalize p = (events, r) -> exists ph, run_order (phase_of p) events = Some ph
}.

(** ** The collector along the order *)

Section Bounds.
Context `{Multipart} (file_part : string) (text_parts : list string) (max_file_bytes : Z).
Context (Hmax : 0 <= max_file_bytes).

Abbreviation call := (call file_part text_parts max_file_bytes).
Abbreviation calls := (calls file_part text_parts max_file_bytes).

Definition fields_ok (d : dict string) : Prop :=
  forall k v, dict_get d k = Some v -> mem k text_parts = true /\ slen v <= MAX_TEXT_FIELD_BYTES /\ is_utf8 v = true.

Definition part_ok (ph : phase) (c : collector) : Prop :=
  match ph with
  | BetweenParts => mc_part_name c = None
  | PartHeaders => mc_part_name c = None /\ mc_part_buffer c = "" /\ mc_file_data c <> LiveBuffer
  | PartData =>
      mc_file_data c <> LiveBuffer /\
      match mc_part_name c with
      | None => True
      | Some n => if mc_part_is_file c then slen (mc_part_buffer c) <= max_file_bytes
                  else mem n text_parts = true /\ slen (mc_part_buffer c) <= MAX_TEXT_FIELD_BYTES
      end
  end.

Record collected (ph : phase) (c : collector) : Prop := mkCollected {
  cd_fields : fields_ok (mc_fields c);
  cd_file : forall b, file_bytes_of c = Some b -> slen b <= max_file_bytes;
  cd_part : part_ok ph c
}.

Lemma collected_new : collected BetweenParts new_collector.
Proof. by split. Qed.

Lemma file_unchanged c b name is_file buffer fname fs hs hf hv :
  mc_file_data c <> LiveBuffer ->
  file_bytes_of (mkCollector (mc_file_data c) fname fs hs hf hv name is_file buffer) = Some b -> file_bytes_of c = Some b.
Proof. unfold file_bytes_of. cbn. by destruct (mc_file_data c). Qed.

Lemma begin_collected c : collected BetweenParts c -> collected PartHeaders (on_part_begin' c).
Proof.
  intros [Hf Hb Hp]. unfold on_part_begin'. split; [exact Hf| |].
  - intros b Hfb. apply Hb. revert Hfb. unfold file_bytes_of. cbn. by destruct (mc_file_data c).
  - cbn in Hp |- *. split_and!; [exact Hp|done|by destruct (mc_file_data c)].
Qed.

Lemma headers_collected c c' : collected PartHeaders c -> on_headers_finished' file_part text_parts c = Ok c' -> collected PartData c'.
Proof.
  intros [Hf Hb (Hn & Hbuf & Hlive)]. unfold on_headers_finished'.
  destruct (parse_options_header _) as [ct params].
  assert (forall n is_file fname, (n = None \/ is_file = true \/ exists m, n = Some m /\ mem m text_parts = true) ->
            collected PartData (set_part n is_file fname c)) as Hset.
  { intros n is_file fname Hcase. split; [exact Hf| |].
    - intros b Hfb. apply Hb. eapply file_unchanged; [exact Hlive|exact Hfb].
    - cbn. split; [exact Hlive|]. rewrite Hbuf. destruct n as [n|]; [|done]. destruct is_file; [exact Hmax|].
      destruct Hcase as [[=]|[[=]|(m & [= <-] & Hm)]]. done. }
  destruct (decode_replace <$> dict_get params "name") as [name|]; [|intros [= <-]; apply Hset; auto].
  destruct (String.eqb name file_part); [destruct (mc_file_data c); intros [= <-]; apply Hset; auto|].
  destruct (mem name text_parts) eqn:Hm; [|intros [= <-]; apply Hset; auto].
  destruct (dict_mem _ _); intros [= <-]. apply Hset. eauto.
Qed.

Lemma data_collected d i j c c' : collected PartData c -> on_part_data' max_file_bytes d i j c = Ok c' -> collected PartData c'.
Proof.
  intros [Hf Hb [Hlive Hpart]]. unfold on_part_data'. destruct (mc_part_name c) as [n|] eqn:Hn.
  2: { intros [= <-]. split; [done..|]. split; [done|]. by rewrite Hn. }
  destruct (mc_part_is_file c) eqn:Hi; cbn [andb negb].
  - destruct (Z.ltb_spec max_file_bytes (slen (mc_part_buffer c +:+ slice d i j))); intros [= <-].
    split; [exact Hf| |by split]. intros b Hfb. apply Hb. eapply file_unchanged; [exact Hlive|exact Hfb].
  - destruct (Z.ltb_spec MAX_TEXT_FIELD_BYTES (slen (mc_part_buffer c +:+ slice d i j))); intros [= <-].
    split; [exact Hf| |].
    + intros b Hfb. apply Hb. eapply file_unchanged; [exact Hlive|exact Hfb].
    + split; [exact Hlive|]. cbn. by destruct Hpart.
Qed.

Lemma end_collected c c' : collected PartData c -> on_part_end' c = Ok c' -> collected BetweenParts c'.
Proof.
  intros [Hf Hb [Hlive Hpart]]. unfold on_part_end'. destruct (mc_part_name c) as [n|] eqn:Hn; [|by intros [= <-]].
  destruct (mc_part_is_file c) eqn:Hi.
  - intros [= <-]. split; [exact Hf| |done]. by intros b [= <-].
  - destruct (is_utf8 (mc_part_buffer c)) eqn:Hu; intros [= <-]. split; [| |done].
    + intros k v. cbn. rewrite dict_get_set. destruct (String.eqb k n) eqn:Hk; [|apply Hf].
      intros [= <-]. apply String.eqb_eq in Hk as ->. by destruct Hpart.
    + intros b Hfb. apply Hb. eapply file_unchanged; [exact Hlive|exact Hfb].
Qed.

Lemma call_collected ph ph' e c c' : collected ph c -> order ph e = Some ph' -> call c e = Ok c' -> collected ph' c'.
Proof.
  intros Hc Ho. destruct ph, e; try discriminate Ho; injection Ho as <-; cbn [UploadStream.call].
  - intros [= <-]. by apply begin_collected.
  - intros [= <-]. destruct Hc as [Hf Hb (? & ? & ?)]. by split.
  - intros [= <-]. destruct Hc as [Hf Hb (? & ? & ?)]. by split.
  - intros [= <-]. destruct Hc as [Hf Hb (? & ? & ?)]. by split.
  - by apply headers_collected.
  - by apply data_collected.
  - by apply end_collected.
Qed.

Lemma calls_collected es : forall ph ph' c c', collected ph c -> run_order ph es = Some ph' -> calls c es = Ok c' -> collected ph' c'.
Proof.
  induction es as [|e es IH]; intros ph ph' c c' Hc; cbn; [by intros [= <-] [= <-]|].
  destruct (order ph e) as [ph1|] eqn:Ho; [|done]. intros Hr Hcall. inv_ok.
  eapply IH; [eapply call_collected; [exact Hc|exact Ho|exact Hs]|exact Hr|exact Hcall].
Qed.

Context `{!MultipartOrder}.

Lemma feed_collected p c data p' c' :
  collected (phase_of p) c -> feed file_part text_parts max_file_bytes p c data = Ok (p', c') -> collected (phase_of p') c'.
Proof.
  unfold feed. intros Hc. destruct (write p data) as [es r] eqn:Hw. intros Hf. inv_ok.
  destruct (write_phase _ _ _ _ Hw) as (ph & Hr & Hph). rewrite (Hph _ eq_refl).
  eapply calls_collected; [exact Hc|exact Hr|exact Hs].
Qed.

Lemma read_collected ceiling body fuel : forall i total p c c',
  collected (phase_of p) c -> read_body file_part text_parts max_file_bytes ceiling body fuel i total p c = Some (Ok c') ->
  exists ph, collected ph c'.
Proof.
  induction fuel as [|fuel IH]; intros i total p c c' Hc; [done|]. cbn.
  destruct (body i) as [[|a data]| |]; [by apply IH| | |done].
  - destruct (_ <? _); [done|]. destruct (feed _ _ _ _ _ _) as [[p1 c1]|e] eqn:Hf; [|done].
    apply IH. by eapply feed_collected.
  - intros [= Hf]. unfold finish in Hf. destruct (finalize p) as [es r] eqn:Hz. inv_ok.
    destruct (finalize_phase _ _ _ Hz) as (ph & Hr). exists ph. eapply calls_collected; [exact Hc|exact Hr|exact Hs].
Qed.
End Bounds.

(** ** The loop *)

Section Loop.
Context `{Multipart} (file_part : string) (text_parts : list string) (max_file_bytes ceiling : Z).

Abbreviation read_body := (read_body file_part text_parts max_file_bytes ceiling).

Definition no_empty_chunk (body : body_stream) : Prop := forall i, body i <> Chunk "".

Lemma slen_cons a s : 1 <= slen (String a s).
Proof. unfold slen. cbn. lia. Qed.

(** Each chunk brings the total closer to the ceiling. *)
Lemma read_body_enough body fuel : no_empty_chunk body -> forall i total p c,
  total <= ceiling -> (Z.to_nat (ceiling - total) < fuel)%nat -> exists r, read_body body fuel i total p c = Some r.
Proof.
  intros Hne. induction fuel as [|fuel IH]; intros i total p c Htotal Hf; [lia|]. cbn.
  specialize (Hne i). destruct (body i) as [[|a data]| |]; [done| |by eexists..].
  pose proof (slen_cons a data). destruct (Z.ltb_spec ceiling (total + slen (String a data))); [by eexists|].
  destruct (feed _ _ _ _ _ _) as [[p' c']|]; [|by eexists]. apply IH; lia.
Qed.

(** More fuel gives the same answer. *)
Lemma read_body_more body fuel : forall fuel' i total p c r,
  (fuel <= fuel')%nat -> read_body body fuel i total p c = Some r -> read_body body fuel' i total p c = Some r.
Proof.
  induction fuel as [|fuel IH]; intros [|fuel'] i total p c r Hle; [done|done|lia|]. cbn.
  destruct (body i) as [[|a data]| |]; [apply IH; lia| |done..].
  destruct (_ <? _); [done|]. destruct (feed _ _ _ _ _ _) as [[p' c']|]; [|done]. apply IH. lia.
Qed.

(** A body that never ends is refused. *)
Lemma read_body_endless body fuel : (forall i, exists data, body i = Chunk data) -> forall i total p c r,
  read_body body fuel i total p c = Some r -> exists e, r = Err e.
Proof.
  intros He. induction fuel as [|fuel IH]; intros i total p c r; [done|]. cbn. destruct (He i) as [data ->].
  destruct data as [|a data]; [apply IH|]. destruct (_ <? _); [intros [= <-]; by eexists|].
  destruct (feed _ _ _ _ _ _) as [[p' c']|]; [apply IH|intros [= <-]; by eexists].
Qed.

Definition item_size (it : stream_item) : Z := match it with Chunk d => slen d | _ => 0 end.

(** The bytes of items [i] to [i + n - 1]. *)
Definition bytes_sent (body : body_stream) (i n : nat) : Z := foldr Z.add 0 (map (fun k => item_size (body k)) (seq i n)).

(** What comes after the ceiling is crossed is never looked at. *)
Lemma read_body_prefix body body' n : forall fuel i total p c,
  (forall k, (i <= k < i + n)%nat -> body k = body' k) -> ceiling < total + bytes_sent body i n -> total <= ceiling ->
  read_body body fuel i total p c = read_body body' fuel i total p c.
Proof.
  induction n as [|n IH]; intros fuel i total p c Hsame Hover Hle; [unfold bytes_sent in Hover; cbn in Hover; lia|].
  destruct fuel as [|fuel]; [done|]. cbn [UploadStream.read_body]. rewrite <- (Hsame i) by lia.
  unfold bytes_sent in Hover. cbn [seq map foldr] in Hover. fold (bytes_sent body (S i) n) in Hover.
  destruct (body i) as [[|a data]| |]; cbn [item_size] in Hover; [|destruct (Z.ltb_spec ceiling (total + slen (String a data)))|done..].
  - apply IH; [|unfold slen in Hover; cbn in Hover; lia|done]. intros k Hk. apply Hsame. lia.
  - done.
  - destruct (feed _ _ _ _ _ _) as [[p' c']|]; [|done]. apply IH; [|lia|done]. intros k Hk. apply Hsame. lia.
Qed.
End Loop.

(** What an upload is, as a list of form parts, and that the
    streaming collector computes it however the parser and the network cut the
    data. *)

Local Open Scope Z_scope.

(** ** A form *)

(** A part: its content disposition, if it has one, and its bytes. *)
Record form_part := mkPart { fp_disposition : option string; fp_data : string }.

Definition is_header_callback (e : callback) : Prop :=
  match e with on_header_field _ _ _ | on_header_value _ _ _ | on_header_end => True | _ => False end.

(** The headers a run of header callbacks builds, with the open name and value. *)
Definition header_step (st : dict string * string * string) (e : callback) : dict string * string * string :=
  let '(hs, f, v) := st in
  match e with
  | on_header_field d i j => (hs, f +:+ slice d i j, v)
  | on_header_value d i j => (hs, f, v +:+ slice d i j)
  | on_header_end => (dict_set hs (py_lower f) v, "", "")
  | _ => st
  end.

Definition headers_of (events : list callback) : dict string * string * string := fold_left header_step events ([], "", "").

(** Callbacks that report the bytes of a part, cut anyhow. *)
Fixpoint reports_data (data : string) (events : list callback) : Prop :=
  match events with
  | [] => data = ""
  | on_part_data d i j :: es => exists rest, data = slice d i j +:+ rest /\ reports_data rest es
  | _ :: _ => False
  end.

(** Callbacks that report a whole part. *)
Definition reports_part (p : form_part) (events : list callback) : Prop :=
  exists hdrs datas hs,
    events = on_part_begin :: hdrs ++ on_headers_finished :: datas ++ [on_part_end] /\
    Forall is_header_callback hdrs /\ headers_of hdrs = (hs, "", "") /\ dict_get hs "content-disposition" = fp_disposition p /\
    reports_data (fp_data p) datas.

Section Form.
Context `{Multipart} (file_part : string) (text_parts : list string) (max_file_bytes : Z).

(** The parser reports these callbacks for the chunks, and takes them all. *)
Inductive reports : parser -> list string -> list callback -> Prop :=
| reports_end p events : finalize p = (events, Ok tt) -> reports p [] events
| reports_chunk p data p' chunks events events' :
    write p data = (events, Ok p') -> reports p' chunks events' -> reports p (data :: chunks) (events ++ events').

(** ** The reference *)

Definition form_state : Type := option (string * option string) * dict string.

Definition read_part (st : form_state) (p : form_part) : ures form_state :=
  let '(file, fields) := st in
  let params := snd (parse_options_header (fp_disposition p)) in
  match decode_replace <$> dict_get params "name" with
  | None => Ok st
  | Some name =>
      if String.eqb name file_part then
        match file with
        | Some _ => Err (UploadRequestError (Some file_part))
        | None => if max_file_bytes <? slen (fp_data p) then Err (PayloadTooLargeError max_file_bytes (slen (fp_data p)))
                  else Ok (Some (fp_data p, decode_replace <$> dict_get params "filename"), fields)
        end
      else if mem name text_parts then
        raise_if (dict_mem fields name || (MAX_TEXT_FIELD_BYTES <? slen (fp_data p)) || negb (is_utf8 (fp_data p)))
          (UploadRequestError (Some name)) ≫= fun _ =>
        Ok (file, dict_set fields name (fp_data p))
      else Ok st
  end.

Definition read_form (parts : list form_part) : ures ParsedUpload :=
  '(file, fields) ← fold_res read_part (None, []) parts;
  match file with
  | None => Err (UploadRequestError (Some file_part))
  | Some (bytes, name) =>
      match missing_parts text_parts fields with
      | m :: _ => Err (UploadRequestError (Some m))
      | [] => Ok (mkParsedUpload bytes name fields)
      end
  end.

(** Two outcomes that differ at most in the number of bytes seen when a limit was crossed. *)
Definition same_outcome {A B} (R : A -> B -> Prop) (r : ures A) (r' : ures B) : Prop :=
  match r, r' with
  | Ok a, Ok b => R a b
  | Err (PayloadTooLargeError l _), Err (PayloadTooLargeError l' _) => l = l'
  | Err e, Err e' => e = e'
  | _, _ => False
  end.

Lemma same_bind {A B C D} (R : A -> B -> Prop) (S : C -> D -> Prop) (r : ures A) (r' : ures B) f f' :
  same_outcome R r r' -> (forall a b, R a b -> same_outcome S (f a) (f' b)) -> same_outcome S (r ≫= f) (r' ≫= f').
Proof. destruct r, r'; cbn; intros Hr Hf; [by apply Hf|try done..]. by destruct e. Qed.

(** ** The collector against the reference *)

(** Between two parts, the collector holds the state of the reference. *)
Definition holds_form (c : collector) (st : form_state) : Prop :=
  mc_part_name c = None /\ mc_header_field c = "" /\ mc_header_value c = "" /\ mc_fields c = snd st /\
  match fst st with
  | None => mc_file_data c = NoFile
  | Some (bytes, name) => file_bytes_of c = Some bytes /\ mc_filename c = name
  end.

Abbreviation call := (call file_part text_parts max_file_bytes).
Abbreviation calls := (calls file_part text_parts max_file_bytes).

Lemma calls_app c es1 es2 : calls c (es1 ++ es2) = (c' ← calls c es1; calls c' es2).
Proof. apply fold_res_app. Qed.

Lemma calls_cons c e es : calls c (e :: es) = (c' ← call c e; calls c' es).
Proof. done. Qed.

Lemma calls_headers hdrs : Forall is_header_callback hdrs -> forall c,
  let '(hs, f, v) := fold_left header_step hdrs (mc_headers c, mc_header_field c, mc_header_value c) in
  calls c hdrs = Ok (mkCollector (mc_file_data c) (mc_filename c) (mc_fields c) hs f v (mc_part_name c) (mc_part_is_file c) (mc_part_buffer c)).
Proof.
  induction 1 as [|e hdrs He Hall IH]; intros c; [by destruct c|].
  destruct e as [|d i j| |d i j|d i j| |]; try done; cbn [fold_left header_step]; rewrite calls_cons; cbn [UploadStream.call mbind result_bind].
  - exact (IH (on_header_field' d i j c)).
  - exact (IH (on_header_value' d i j c)).
  - exact (IH (on_header_end' c)).
Qed.

(** The data of an ignored part leaves no trace. *)
Lemma calls_drained c datas data : mc_part_name c = None -> reports_data data datas -> calls c datas = Ok c.
Proof.
  intros Hn. revert data. induction datas as [|e es IH]; intros data; [done|]. destruct e; try done. intros (rest & -> & Hr).
  rewrite calls_cons. cbn [UploadStream.call]. unfold on_part_data'. rewrite Hn. cbn [mbind result_bind]. by eapply IH.
Qed.

Definition with_buffer (c : collector) (b : string) : collector :=
  mkCollector (mc_file_data c) (mc_filename c) (mc_fields c) (mc_headers c) (mc_header_field c) (mc_header_value c)
    (mc_part_name c) (mc_part_is_file c) b.

Lemma slen_app a b : slen (a +:+ b) = slen a + slen b.
Proof. unfold slen. rewrite str_length_app. lia. Qed.

Lemma slen_pos s : 0 <= slen s.
Proof. unfold slen. lia. Qed.

Definition part_limit (c : collector) : Z := if mc_part_is_file c then max_file_bytes else MAX_TEXT_FIELD_BYTES.

(** The data of a named part fills the buffer, or crosses the limit of the part. *)
Lemma calls_data datas : forall c n data, mc_part_name c = Some n -> reports_data data datas ->
  slen (mc_part_buffer c) <= part_limit c ->
  if part_limit c <? slen (mc_part_buffer c +:+ data)
  then exists e, calls c datas = Err e /\
         if mc_part_is_file c then exists o, e = PayloadTooLargeError max_file_bytes o else e = UploadRequestError (Some n)
  else calls c datas = Ok (with_buffer c (mc_part_buffer c +:+ data)).
Proof.
  induction datas as [|e es IH]; intros c n data Hn Hr Hlim.
  { cbn in Hr. subst data. rewrite slen_app. destruct (Z.ltb_spec (part_limit c) (slen (mc_part_buffer c) + slen "")).
    - change (slen "") with 0 in *. lia.
    - unfold with_buffer. rewrite str_app_nil_r. by destruct c. }
  destruct e as [|d i j| |d i j|d i j| |]; try done. destruct Hr as (rest & -> & Hr). rewrite calls_cons. cbn [UploadStream.call].
  unfold on_part_data'. rewrite Hn. pose proof (slen_pos rest) as Hpos.
  set (b := mc_part_buffer c +:+ slice d i j) in *.
  assert (mc_part_buffer c +:+ slice d i j +:+ rest = b +:+ rest) as -> by (unfold b; by rewrite str_app_assoc).
  destruct (Z.ltb_spec (part_limit c) (slen b)) as [Hover|Hunder].
  - assert (part_limit c <? slen (b +:+ rest) = true) as -> by (apply Z.ltb_lt; rewrite slen_app; lia).
    unfold part_limit in Hover. destruct (mc_part_is_file c) eqn:Hi; cbn [andb negb].
    + apply Z.ltb_lt in Hover as ->. cbn [mbind result_bind]. eauto.
    + apply Z.ltb_lt in Hover as ->. cbn [mbind result_bind]. eauto.
  - assert ((mc_part_is_file c && (max_file_bytes <? slen b)) = false /\
            (negb (mc_part_is_file c) && (MAX_TEXT_FIELD_BYTES <? slen b)) = false) as [-> ->].
    { unfold part_limit in Hunder. destruct (mc_part_is_file c); cbn [andb negb]; split; try done; by apply Z.ltb_ge. }
    cbn [mbind result_bind]. specialize (IH (with_buffer c b) n rest). cbn [with_buffer mc_part_name mc_part_buffer mc_part_is_file] in IH.
    unfold part_limit in *. cbn [with_buffer mc_part_is_file] in IH.
    specialize (IH Hn Hr Hunder). unfold with_buffer in *. cbn in IH. rewrite Hn in IH |- *. exact IH.
Qed.

Lemma headers_kept c hdrs hs : Forall is_header_callback hdrs -> headers_of hdrs = (hs, "", "") ->
  mc_headers c = [] -> mc_header_field c = "" -> mc_header_value c = "" ->
  calls c hdrs = Ok (mkCollector (mc_file_data c) (mc_filename c) (mc_fields c) hs "" "" (mc_part_name c) (mc_part_is_file c) (mc_part_buffer c)).
Proof.
  intros Hall Hhs H1 H2 H3. pose proof (calls_headers hdrs Hall c) as Hc. rewrite H1, H2, H3 in Hc.
  unfold headers_of in Hhs. rewrite Hhs in Hc. exact Hc.
Qed.

Lemma calls_end c datas data : reports_data data datas -> mc_part_name c = None -> calls c (datas ++ [on_part_end]) = Ok c.
Proof.
  intros Hd Hn. rewrite calls_app, (calls_drained _ _ _ Hn Hd). cbn [mbind result_bind]. rewrite calls_cons. cbn [UploadStream.call].
  unfold on_part_end'. rewrite Hn. done.
Qed.

(** One part, however it is cut. *)
Lemma calls_part c st p events : 0 <= max_file_bytes -> holds_form c st -> reports_part p events ->
  same_outcome holds_form (calls c events) (read_part st p).
Proof.
  intros Hmax (Hn & Hf & Hv & Hfields & Hfile) (hdrs & datas & hs & -> & Hall & Hhs & Hdisp & Hdata).
  rewrite calls_cons. cbn [UploadStream.call mbind result_bind].
  rewrite calls_app, (headers_kept _ _ _ Hall Hhs); [|by cbn..]. cbn [mbind result_bind].
  rewrite calls_cons. cbn [UploadStream.call]. unfold on_headers_finished', read_part. destruct st as [file fs].
  cbn [on_part_begin' mc_headers mc_file_data mc_filename mc_fields mc_header_field mc_header_value mc_part_name mc_part_is_file mc_part_buffer].
  rewrite Hdisp. destruct (parse_options_header (fp_disposition p)) as [ct params]. cbn [snd fst] in *. subst fs.
  set (c1 := mkCollector _ _ _ hs "" "" (mc_part_name c) (mc_part_is_file c) "").
  assert (forall is_file, holds_form (set_part None is_file (mc_filename c) c1) (file, mc_fields c)) as Hskip.
  { intros is_file. split_and!; [done..|]. cbn [fst] in *. destruct file as [[bytes fname]|].
    - destruct Hfile as [Hb Hname]. split; [|exact Hname]. revert Hb. unfold file_bytes_of. cbn. by destruct (mc_file_data c).
    - cbn. by rewrite Hfile. }
  assert (forall is_file, same_outcome holds_form
            (calls (set_part None is_file (mc_filename c) c1) (datas ++ [on_part_end])) (Ok (file, mc_fields c))) as Hdrain.
  { intros is_file. rewrite (calls_end _ _ _ Hdata) by done. apply Hskip. }
  destruct (decode_replace <$> dict_get params "name") as [name|]; [|apply Hdrain].
  destruct (String.eqb name file_part) eqn:Hname.
  - destruct file as [[bytes fname]|].
    { destruct Hfile as [Hb _]. revert Hb. unfold file_bytes_of. cbn. by destruct (mc_file_data c). }
    cbn [fst] in Hfile. rewrite Hfile. cbn [mbind result_bind]. rewrite calls_app.
    pose proof (calls_data datas (set_part (Some name) true (decode_replace <$> dict_get params "filename") c1) name (fp_data p)
                  eq_refl Hdata Hmax) as Hcalls.
    cbn [part_limit set_part mc_part_is_file mc_part_buffer c1] in Hcalls. unfold part_limit in Hcalls. cbn in Hcalls.
    change ("" +:+ fp_data p) with (fp_data p) in Hcalls. destruct (max_file_bytes <? slen (fp_data p)).
    + destruct Hcalls as (e & -> & o & ->). done.
    + cbn in Hcalls |- *. rewrite Hcalls. cbn. by split_and!.
  - destruct (mem name text_parts); [|apply Hdrain].
    destruct (dict_mem (mc_fields c) name); [done|]. cbn [mbind result_bind orb]. rewrite calls_app.
    assert (0 <= MAX_TEXT_FIELD_BYTES) as Htext by done.
    pose proof (calls_data datas (set_part (Some name) false (mc_filename c) c1) name (fp_data p) eq_refl Hdata Htext) as Hcalls.
    unfold part_limit in Hcalls. cbn [set_part mc_part_is_file mc_part_buffer c1] in Hcalls. change ("" +:+ fp_data p) with (fp_data p) in Hcalls.
    destruct (MAX_TEXT_FIELD_BYTES <? slen (fp_data p)).
    + destruct Hcalls as (e & -> & ->). done.
    + rewrite Hcalls. cbn [mbind result_bind orb]. rewrite calls_cons. cbn [UploadStream.call]. unfold on_part_end'.
      cbn [with_buffer set_part mc_part_name mc_part_is_file mc_part_buffer]. destruct (is_utf8 (fp_data p)); [|done].
      unfold UploadStream.calls. cbn [negb raise_if mbind result_bind same_outcome fold_res]. destruct (Hskip false) as (_ & _ & _ & Hfs & Hfl).
      split; [done|]. split; [done|]. split; [done|]. split; [done|].
      cbn [fst] in Hfl |- *. destruct file as [[b fname]|]; [|exact Hfl]. destruct Hfl as [Hb Hfname]. split; [|exact Hfname].
      revert Hb. unfold file_bytes_of. cbn. by destruct (mc_file_data c).
Qed.

Lemma calls_parts parts : forall c st events, 0 <= max_file_bytes -> holds_form c st -> Forall2 reports_part parts events ->
  same_outcome holds_form (calls c (concat events)) (fold_res read_part st parts).
Proof.
  induction parts as [|p parts IH]; intros c st events Hmax Hc Hr; inversion Hr as [|? es ? ess Hp Hps]; subst; [done|].
  cbn [concat fold_res]. rewrite calls_app. eapply same_bind; [by eapply calls_part|]. intros c' st' Hc'. by apply IH.
Qed.

(** ** The stream against the reference *)

(** The chunks, then the end of the body. *)
Definition stream_of (chunks : list string) : body_stream := fun i => match chunks !! i with Some d => Chunk d | None => EndOfBody end.

Definition total_size (chunks : list string) : Z := foldr (fun d n => slen d + n) 0 chunks.

Lemma total_size_pos chunks : 0 <= total_size chunks.
Proof. unfold total_size. induction chunks as [|d chunks IH]; cbn; [done|]. pose proof (slen_pos d). lia. Qed.

Lemma same_refl {A} (r : ures A) : same_outcome eq r r.
Proof. destruct r as [|e]; [done|]. by destruct e. Qed.

(** A body under the ceiling is the run of its callbacks. *)
Lemma read_reports ceiling chunks : forall pre p events total c fuel,
  reports p chunks events -> Forall (fun d => d <> "") chunks -> total + total_size chunks <= ceiling -> (length chunks < fuel)%nat ->
  read_body file_part text_parts max_file_bytes ceiling (stream_of (pre ++ chunks)) fuel (length pre) total p c = Some (calls c events).
Proof.
  induction chunks as [|d chunks IH]; intros pre p events total c fuel Hr Hne Htotal Hfuel;
    (destruct fuel as [|fuel]; [cbn in Hfuel; lia|]); cbn [read_body]; unfold stream_of at 1.
  - inversion Hr as [? ? Hfin|]; subst. rewrite app_nil_r, lookup_ge_None_2 by lia. unfold finish. rewrite Hfin.
    destruct (calls c events); done.
  - inversion Hr as [|? ? p' ? es es' Hw Hr']; subst. apply Forall_cons in Hne as [Hd Hne].
    rewrite lookup_app_r, Nat.sub_diag by lia. cbn [lookup list_lookup]. destruct d as [|a d]; [done|].
    cbn [total_size foldr] in Htotal. fold (total_size chunks) in Htotal. pose proof (total_size_pos chunks).
    destruct (Z.ltb_spec ceiling (total + slen (String a d))); [lia|]. unfold feed. rewrite Hw, calls_app.
    destruct (calls c es) as [c'|e]; cbn [mbind result_bind]; [|done].
    specialize (IH (pre ++ [String a d]) p' es' (total + slen (String a d)) c' fuel Hr' Hne).
    rewrite <- app_assoc, length_app in IH. cbn [app length] in IH. rewrite Nat.add_1_r in IH. apply IH; [lia|cbn in Hfuel; lia].
Qed.

Lemma extract_form c st : holds_form c st ->
  extract_upload file_part text_parts c =
  match fst st with
  | None => Err (UploadRequestError (Some file_part))
  | Some (bytes, name) =>
      match missing_parts text_parts (snd st) with
      | m :: _ => Err (UploadRequestError (Some m))
      | [] => Ok (mkParsedUpload bytes name (snd st))
      end
  end.
Proof.
  intros (_ & _ & _ & Hfs & Hfl). unfold extract_upload. rewrite Hfs. destruct (fst st) as [[bytes name]|].
  - destruct Hfl as [-> ->]. done.
  - unfold file_bytes_of. by rewrite Hfl.
Qed.

Lemma holds_new : holds_form new_collector (None, []).
Proof. by split_and!. Qed.
End Form.
