(* ===== verification/UploadLimits.v ===== *)
(** UploadLimits: what reading an upload promises, whatever the client sends. *)

From S2P Require Import Prelude Text Values Decimals Transform Provenance UiErrors Csv UploadStream UploadForm.
Local Open Scope Z_scope.

(** An accepted body: the parser runs, and what it collected passes the last checks. *)
Lemma read_ok `{Multipart} file_part text_parts max_file_bytes ceiling r fuel parsed :
  read_csv_upload file_part text_parts max_file_bytes ceiling r fuel = Some (Ok parsed) ->
  exists boundary p c, MultipartParser boundary = Ok p /\
    read_body file_part text_parts max_file_bytes ceiling (up_body r) fuel 0 0 p new_collector = Some (Ok c) /\
    extract_upload file_part text_parts c = Ok parsed.
Proof.
  unfold read_csv_upload. destruct (parse_options_header _) as [ct params]. destruct (dict_get params "boundary") as [boundary|]; [|done].
  destruct (negb _); [done|]. destruct (check_declared _ _); [|done]. destruct (MultipartParser boundary) as [p|] eqn:Hp; [|done].
  destruct (read_body _ _ _ _ _ _ _ _ _ _) as [[c|]|] eqn:Hr; [|done..]. intros [= He]. by exists boundary, p, c.
Qed.

Lemma missing_nil text_parts fields n : missing_parts text_parts fields = [] -> n ∈ text_parts ->
  strip (default "" (dict_get fields n)) <> "".
Proof.
  unfold missing_parts. intros Hm Hn Hs.
  assert (n ∈ py_sorted (filter (fun n => String.eqb (strip (default "" (dict_get fields n))) "" = true) text_parts)) as Hin.
  { unfold py_sorted. rewrite (merge_sort_Permutation _ _). apply list_elem_of_filter. by rewrite Hs. }
  rewrite Hm in Hin. by apply elem_of_nil in Hin.
Qed.

Section Limits.
Context `{MultipartOrder}.

(** C9. An upload that is accepted is within its limits, whatever the client declared
    or sent and however the body was cut: the file is no larger than the file limit,
    and the fields are text fields that were asked for (an unknown part, such as a
    tenant id slipped into the form, never gets through), each valid UTF-8 of at
    most 1024 bytes, with none of the asked-for fields missing or blank. *)
Theorem upload_limits file_part text_parts max_file_bytes ceiling r fuel parsed
    (Hmax : 0 <= max_file_bytes)
    (Hread : read_csv_upload file_part text_parts max_file_bytes ceiling r fuel = Some (Ok parsed)) :
  slen (file_bytes parsed) <= max_file_bytes /\
  (forall k v, dict_get (fields parsed) k = Some v -> k ∈ text_parts /\ slen v <= 1024 /\ is_utf8 v = true) /\
  (forall k, k ∈ text_parts -> exists v, dict_get (fields parsed) k = Some v /\ strip v <> "").
Proof.
  destruct (read_ok _ _ _ _ _ _ _ Hread) as (boundary & p & c & Hp & Hr & He).
  destruct (read_collected file_part text_parts max_file_bytes Hmax ceiling (up_body r) fuel 0 0 p new_collector c) as (ph & [Hf Hb _]).
  { rewrite (fresh_phase _ _ Hp). apply collected_new. }
  { exact Hr. }
  unfold extract_upload in He. destruct (file_bytes_of c) as [b|] eqn:Hfb; [|done].
  destruct (missing_parts text_parts (mc_fields c)) eqn:Hm; [|done]. injection He as <-. cbn.
  split; [by apply Hb|]. split.
  - intros k v Hk. destruct (Hf k v Hk) as (Hin & Hl & Hu). split; [|done].
    apply existsb_exists in Hin as (k' & Hin & Heq). apply String.eqb_eq in Heq as ->. by apply list_elem_of_In.
  - intros k Hk. pose proof (missing_nil _ _ _ Hm Hk) as Hs. destruct (dict_get (mc_fields c) k) as [v|] eqn:Hv; [|done].
    by exists v.
Qed.
End Limits.

Section Reading.
Context `{Multipart} (file_part : string) (text_parts : list string) (max_file_bytes ceiling : Z).

(** C18. Reading an upload ends after at most one chunk more than the ceiling has
    bytes, even when the client never stops sending, as long as chunks are not
    empty: that much fuel gives an answer, and more fuel the same one; an endless
    body is refused; and what the client sends after crossing the ceiling is never
    looked at, so that it cannot change the answer. *)
Theorem upload_reading_stops ct cl body
    (Hceiling : 0 <= ceiling) (Hchunks : no_empty_chunk body) :
  (exists r, forall fuel, (Z.to_nat ceiling < fuel)%nat ->
     read_csv_upload file_part text_parts max_file_bytes ceiling (mkUpload ct cl body) fuel = Some r /\
     ((forall i, exists data, body i = Chunk data) -> exists e, r = Err e)) /\
  (forall body' n fuel, (forall i, (i < n)%nat -> body i = body' i) -> ceiling < bytes_sent body 0 n ->
     read_csv_upload file_part text_parts max_file_bytes ceiling (mkUpload ct cl body') fuel =
     read_csv_upload file_part text_parts max_file_bytes ceiling (mkUpload ct cl body) fuel).
Proof.
  unfold read_csv_upload. cbn [up_content_type up_content_length up_body]. destruct (parse_options_header ct) as [ctype params].
  destruct (dict_get params "boundary") as [boundary|]; [|split; [|done]; eexists; split; [done|eauto]].
  destruct (negb _); [split; [|done]; eexists; split; [done|eauto]|].
  destruct (check_declared ceiling cl) as [u|e]; [|split; [|done]; eexists; split; [done|eauto]].
  destruct (MultipartParser boundary) as [p|e]; [|split; [|done]; eexists; split; [done|eauto]]. split.
  - destruct (read_body_enough file_part text_parts max_file_bytes ceiling body (S (Z.to_nat ceiling)) Hchunks 0 0 p new_collector)
      as [r Hr]; [lia..|].
    exists (match r with Ok c => extract_upload file_part text_parts c | Err e => Err e end). intros fuel Hf.
    rewrite (read_body_more _ _ _ _ _ _ fuel _ _ _ _ _ Hf Hr). split; [by destruct r|].
    intros He. destruct (read_body_endless _ _ _ _ _ _ He _ _ _ _ _ Hr) as [e ->]. eauto.
  - intros body' n fuel Hsame Hover. erewrite <- (read_body_prefix _ _ _ _ body body' n); [done|..].
    + intros k Hk. apply Hsame. lia.
    + lia.
    + done.
Qed.

(** C19. A body under the ceiling is read as its form: when the parser reports the
    parts of a form, in whatever pieces of headers and data and over whatever
    chunks, the answer is that of the form read part by part, the file with its
    name and the text fields when every part is acceptable, and otherwise the
    refusal of the first part that is not (a repeated part, a file or a field that
    is too large, text that is not UTF-8) or of a missing one. *)
Theorem form_is_read boundary ctype params p chunks parts events cl fuel
    (Hmax : 0 <= max_file_bytes)
    (Htype : parse_options_header (Some ctype) = ("multipart/form-data", params)) (Hbound : dict_get params "boundary" = Some boundary)
    (Hdeclared : check_declared ceiling cl = Ok tt)
    (Hparser : MultipartParser boundary = Ok p)
    (Hreports : reports p chunks (concat events)) (Hparts : Forall2 reports_part parts events)
    (Hchunks : Forall (fun d => d <> "") chunks) (Hsize : total_size chunks <= ceiling) (Hfuel : (length chunks < fuel)%nat) :
  exists r, read_csv_upload file_part text_parts max_file_bytes ceiling (mkUpload (Some ctype) cl (stream_of chunks)) fuel = Some r /\
    same_outcome eq r (read_form file_part text_parts max_file_bytes parts).
Proof.
  unfold read_csv_upload. cbn [up_content_type up_content_length up_body]. rewrite Htype, Hbound, Hdeclared, Hparser.
  cbn [String.eqb Ascii.eqb Bool.eqb negb].
  pose proof (read_reports file_part text_parts max_file_bytes ceiling chunks [] p _ 0 new_collector fuel Hreports Hchunks) as Hread.
  cbn [app length] in Hread. rewrite Hread by lia.
  pose proof (calls_parts file_part text_parts max_file_bytes parts new_collector (None, []) events Hmax holds_new Hparts) as Hc.
  exists (c ← calls file_part text_parts max_file_bytes new_collector (concat events); extract_upload file_part text_parts c).
  split; [by destruct (calls _ _ _ _ _)|]. unfold read_form. eapply same_bind; [exact Hc|].
  intros c [file fs] Hh. rewrite (extract_form _ _ _ _ Hh). apply same_refl.
Qed.
End Reading.

(** ** Witnesses *)

Module SampleForm.
(** A parser of bodies in which each chunk is a whole part, [disposition=data]. *)
Definition sample_type : string := "multipart/form-data; boundary=x".

Definition sample_header (h : option string) : string * dict string :=
  match h with
  | None => ("", [])
  | Some h => if String.eqb h sample_type then ("multipart/form-data", [("boundary", "x")]) else ("form-data", [("name", h)])
  end.

Definition sample_callbacks (disposition data : string) : list callback :=
  [on_part_begin; on_header_field "Content-Disposition" 0 19; on_header_value disposition 0 (String.length disposition);
   on_header_end; on_headers_finished; on_part_data data 0 (String.length data); on_part_end].

Definition sample_write (chunk : string) : list callback :=
  match split_at_char (Ascii.eqb "=") chunk with
  | (disposition, Some data) => sample_callbacks disposition data
  | (_, None) => []
  end.

#[export] Instance sample_multipart : Multipart := {
  parse_options_header := sample_header;
  parser := unit;
  MultipartParser := fun _ => Ok tt;
  write := fun _ chunk => (sample_write chunk, Ok tt);
  finalize := fun _ => ([], Ok tt)
}.

#[export] Instance sample_order : MultipartOrder.
Proof.
  refine (Build_MultipartOrder _ (fun _ => BetweenParts) _ _ _); [done| |].
  - intros p data events r [= <- <-]. exists BetweenParts. unfold sample_write.
    by destruct (split_at_char _ data) as [d [x|]].
  - intros p events r [= <- <-]. by exists BetweenParts.
Defined.

Definition good_chunks : list string := ["tenant_id=evil"; "template_id=t-1"; "file=a,b"; "store_code=S1"].

Definition good_parts : list form_part :=
  [mkPart (Some "tenant_id") "evil"; mkPart (Some "template_id") "t-1"; mkPart (Some "file") "a,b"; mkPart (Some "store_code") "S1"].

Definition good_events : list (list callback) := map sample_write good_chunks.
Definition good_request : upload_request := mkUpload (Some sample_type) (Some "58") (stream_of good_chunks).
Definition good_upload : ParsedUpload := mkParsedUpload "a,b" None [("template_id", "t-1"); ("store_code", "S1")].

(** A client that never stops. *)
Definition endless : body_stream := fun _ => Chunk "tenant_id=x".
End SampleForm.
Import SampleForm.

Lemma upload_limits_witness :
  read_csv_upload FILE_PART TEXT_PARTS 10 100 good_request 9 = Some (Ok good_upload) /\ slen (file_bytes good_upload) <= 10.
Proof.
  assert (read_csv_upload FILE_PART TEXT_PARTS 10 100 good_request 9 = Some (Ok good_upload)) as Hr by reflexivity.
  split; [exact Hr|]. refine (proj1 (upload_limits FILE_PART TEXT_PARTS 10 100 good_request 9 good_upload _ Hr)). lia.
Defined.

Lemma upload_reading_stops_witness :
  read_csv_upload FILE_PART TEXT_PARTS 10 40 (mkUpload (Some sample_type) None endless) 41 = Some (Err (PayloadTooLargeError 40 44)) /\
  exists r, forall fuel, (40 < fuel)%nat ->
    read_csv_upload FILE_PART TEXT_PARTS 10 40 (mkUpload (Some sample_type) None endless) fuel = Some r.
Proof.
  split; [reflexivity|].
  destruct (upload_reading_stops FILE_PART TEXT_PARTS 10 40 (Some sample_type) None endless) as [[r Hr] _]; [lia|by intros i|].
  exists r. intros fuel Hf. exact (proj1 (Hr fuel Hf)).
Defined.

Lemma form_is_read_witness :
  exists r, read_csv_upload FILE_PART TEXT_PARTS 10 100 good_request 9 = Some r /\ same_outcome eq r (Ok good_upload).
Proof.
  refine (@form_is_read sample_multipart FILE_PART TEXT_PARTS 10 100 "x" sample_type [("boundary", "x")] tt good_chunks good_parts good_events (Some "58") 9
            _ eq_refl eq_refl eq_refl eq_refl _ _ _ _ _).
  - lia.
  - apply (@reports_chunk sample_multipart tt "tenant_id=evil" tt); [reflexivity|]. apply (@reports_chunk sample_multipart tt "template_id=t-1" tt); [reflexivity|].
    apply (@reports_chunk sample_multipart tt "file=a,b" tt); [reflexivity|]. apply (@reports_chunk sample_multipart tt "store_code=S1" tt _ _ []); [reflexivity|].
    apply reports_end. reflexivity.
  - unfold good_parts, good_events, good_chunks.
    repeat constructor; (eexists [_; _; _], [_], _; split; [reflexivity|]; split; [repeat constructor|]; split; [reflexivity|];
      split; [reflexivity|]; exists ""; split; reflexivity).
  - repeat constructor; discriminate.
  - vm_compute. discriminate.
  - cbn. lia.
Defined.
