(* ===== verification/Mirror.v ===== *)
(** Mirror: the identity mirror and its sync from Customer Master
    (mirror-sync-consumer [pull/reader.py], [sync/tenants.py], [sync/stores.py],
    [sinks/postgres.py], [pull/runner.py]; tables [schemas/postgres/identity_mirror];
    dis-ui-server [models/store_row.py], [models/tenant_row.py]).

    Customer Master is the value a read finds.  A pass writes one transaction per
    tenant; the database may fail at any statement of any of them. *)

From S2P Require Import Prelude Text Values Transform Provenance UiErrors Rls.

(** ** Rows *)

(** A row of [core.tenants], as read. *)
Record CmTenant := mkCmTenant {
  ct_tenant_id : uuid;
  ct_name : string;
  ct_display_code : option string;
  ct_status : string;
  ct_created_at : Z;
  ct_updated_at : Z;
  ct_suspended_at : option Z;
  ct_terminated_at : option Z
}.

(** A row of [core.stores], as read. *)
Record CmStore := mkCmStore {
  cs_store_id : uuid;
  cs_tenant_id : uuid;
  cs_name : string;
  cs_store_code : option string;
  cs_status : string;
  cs_country : string;
  cs_timezone : string;
  cs_currency : string;
  cs_tax_treatment : string;
  cs_created_at : Z;
  cs_updated_at : Z;
  cs_closed_at : option Z
}.

Global Instance CmTenant_eq_dec : EqDecision CmTenant.
Proof. solve_decision. Defined.
Global Instance CmStore_eq_dec : EqDecision CmStore.
Proof. solve_decision. Defined.

(** The mirrored row: the columns of Customer Master, and when they were copied. *)
Record TenantRow := mkTenantRow { tn_copy : CmTenant; tn_synced_at : Z }.
Record StoreRow := mkStoreRow { st_copy : CmStore; st_synced_at : Z }.

Definition tn_tenant_id (r : TenantRow) : uuid := ct_tenant_id (tn_copy r).
Definition tn_display_code (r : TenantRow) : option string := ct_display_code (tn_copy r).
Definition st_tenant_id (r : StoreRow) : uuid := cs_tenant_id (st_copy r).
Definition st_store_id (r : StoreRow) : uuid := cs_store_id (st_copy r).
Definition st_name (r : StoreRow) : string := cs_name (st_copy r).
Definition st_status (r : StoreRow) : string := cs_status (st_copy r).
Definition st_store_code (r : StoreRow) : option string := cs_store_code (st_copy r).

Record mirror := mkMirror { mi_stores : list StoreRow; mi_tenants : list TenantRow }.

(** What a rollback leaves. *)
Definition undo_mirror (before _ : mirror) : mirror := before.

(** ** Customer Master *)

(** What a read transaction finds: whether it connects, the database it is on, the
    setting after it was set, whether the queries answer, and the rows they show. *)
Record customer_master := mkCustomerMaster {
  cm_reachable : bool;
  cm_database : string;
  cm_user_type : option string;
  cm_queryable : bool;
  cm_tenants : list CmTenant;
  cm_stores : list CmStore
}.

Record MirrorSyncConfig := mkSyncConfig { cfg_cm_db_url : string; cfg_dis_db_url : string; cfg_cm_db_name : string; cfg_dis_db_name : string }.

Definition DEFAULT_CM_DB_NAME : string := "ithina_platform_db".
Definition DIS_DB_NAME : string := "ithina_dis_db".

(** [MirrorSyncConfig.from_env]; [None] is [MirrorSyncError]. *)
Definition config_from_env (env : dict string) : option MirrorSyncConfig :=
  match dict_get env "CM_DB_URL", dict_get env "POSTGRES_URL" with
  | Some cm, Some dis =>
      if String.eqb cm "" || String.eqb dis "" then None
      else Some (mkSyncConfig cm dis (default DEFAULT_CM_DB_NAME (dict_get env "CM_DB_NAME")) DIS_DB_NAME)
  | _, _ => None
  end.

(** What reading raises: the guard's error, or an error of SQLAlchemy. *)
Inductive sync_exn : Type := CustomerMasterReadError | SqlFailure.

Definition assert_cm_target (database expected_cm_db dis_db : string) : result sync_exn unit :=
  raise_if (String.eqb database dis_db) CustomerMasterReadError ≫= fun _ =>
  raise_if (negb (String.eqb database expected_cm_db)) CustomerMasterReadError.

Definition assert_platform_context (user_type : option string) : result sync_exn unit :=
  raise_if (negb (bool_decide (user_type = Some "PLATFORM"))) CustomerMasterReadError.

Definition read_customer_master (cm : customer_master) (config : MirrorSyncConfig) : result sync_exn (list CmTenant * list CmStore) :=
  raise_if (negb (cm_reachable cm)) SqlFailure ≫= fun _ =>
  assert_cm_target (cm_database cm) (cfg_cm_db_name config) (cfg_dis_db_name config) ≫= fun _ =>
  assert_platform_context (cm_user_type cm) ≫= fun _ =>
  raise_if (negb (cm_queryable cm)) SqlFailure ≫= fun _ =>
  Ok (cm_tenants cm, cm_stores cm).

(** ** Columns *)

(** A value of [VARCHAR(n)]: what does not fit must be blank, and is cut. *)
Definition fit (n : nat) (s : string) : option string :=
  if str_all (Ascii.eqb " ") (String.substring n (String.length s - n) s) then Some (String.substring 0 n s) else None.

Fixpoint blanks (n : nat) : string := match n with O => "" | S n' => String " " (blanks n') end.

(** A value of [CHAR(n)] is filled with blanks. *)
Definition fill (n : nat) (s : string) : option string := (fun t => t +:+ blanks (n - String.length t)) <$> fit n s.

Definition TENANT_STATUSES : list string := ["ONBOARDING"; "TRIAL"; "ACTIVE"; "SUSPENDED"; "TERMINATED"].
Definition STORE_STATUSES : list string := ["OPENING"; "ACTIVE"; "INACTIVE"; "CLOSED"].
Definition TAX_TREATMENTS : list string := ["INCLUSIVE"; "EXCLUSIVE"].

(** The proposed row, checked; [None] is an error of the database. *)
Definition tenant_values (t : CmTenant) : option CmTenant :=
  name ← fit 200 (ct_name t);
  if mem (ct_status t) TENANT_STATUSES
  then Some (mkCmTenant (ct_tenant_id t) name (ct_display_code t) (ct_status t) (ct_created_at t) (ct_updated_at t)
               (ct_suspended_at t) (ct_terminated_at t))
  else None.

Definition store_values (s : CmStore) : option CmStore :=
  name ← fit 200 (cs_name s);
  currency ← fill 3 (cs_currency s);
  if mem (cs_status s) STORE_STATUSES && mem (cs_tax_treatment s) TAX_TREATMENTS
  then Some (mkCmStore (cs_store_id s) (cs_tenant_id s) name (cs_store_code s) (cs_status s) (cs_country s) (cs_timezone s) currency
               (cs_tax_treatment s) (cs_created_at s) (cs_updated_at s) (cs_closed_at s))
  else None.

(** [IS DISTINCT FROM], column by column. *)
Definition differ {A} `{EqDecision A} (x y : A) : bool := negb (bool_decide (x = y)).

Definition tenant_distinct (old new : CmTenant) : bool :=
  differ (ct_name old) (ct_name new) || differ (ct_display_code old) (ct_display_code new) || differ (ct_status old) (ct_status new) ||
  differ (ct_created_at old) (ct_created_at new) || differ (ct_updated_at old) (ct_updated_at new) ||
  differ (ct_suspended_at old) (ct_suspended_at new) || differ (ct_terminated_at old) (ct_terminated_at new).

Definition store_distinct (old new : CmStore) : bool :=
  differ (cs_name old) (cs_name new) || differ (cs_store_code old) (cs_store_code new) || differ (cs_status old) (cs_status new) ||
  differ (cs_country old) (cs_country new) || differ (cs_timezone old) (cs_timezone new) || differ (cs_currency old) (cs_currency new) ||
  differ (cs_tax_treatment old) (cs_tax_treatment new) || differ (cs_created_at old) (cs_created_at new) ||
  differ (cs_updated_at old) (cs_updated_at new) || differ (cs_closed_at old) (cs_closed_at new).

(** ** Upserts *)

Inductive upsert_outcome : Type := inserted | updated | unchanged.

Global Instance upsert_outcome_eq_dec : EqDecision upsert_outcome.
Proof. solve_decision. Defined.

(** [INSERT ... ON CONFLICT (key) DO UPDATE SET ... WHERE a column differs], on a
    table with one row per key, and what [_classify] makes of the row returned. *)
Fixpoint upsert {R : Type} (same_key differs : R -> bool) (new : R) (rows : list R) : upsert_outcome * list R :=
  match rows with
  | [] => (inserted, [new])
  | r :: rest =>
      if same_key r then if differs r then (updated, new :: rest) else (unchanged, r :: rest)
      else let '(o, rest') := upsert same_key differs new rest in (o, r :: rest')
  end.

(** [TENANT_UPSERT] *)
Definition tenant_upsert (now : Z) (t : CmTenant) (m : mirror) : option (upsert_outcome * mirror) :=
  v ← tenant_values t;
  let '(o, rows) := upsert (fun r => String.eqb (tn_tenant_id r) (ct_tenant_id v)) (fun r => tenant_distinct (tn_copy r) v)
                      (mkTenantRow v now) (mi_tenants m) in
  Some (o, mkMirror (mi_stores m) rows).

Definition store_key (s : CmStore) (r : StoreRow) : bool :=
  String.eqb (st_tenant_id r) (cs_tenant_id s) && String.eqb (st_store_id r) (cs_store_id s).

(** [STORE_UPSERT]; an insert also meets [uq_ims_store_id] and [fk_ims_tenant]. *)
Definition store_upsert (now : Z) (s : CmStore) (m : mirror) : option (upsert_outcome * mirror) :=
  v ← store_values s;
  let '(o, rows) := upsert (store_key v) (fun r => store_distinct (st_copy r) v) (mkStoreRow v now) (mi_stores m) in
  if bool_decide (o = inserted) &&
     (existsb (fun r => String.eqb (st_store_id r) (cs_store_id v)) (mi_stores m) ||
      negb (existsb (fun r => String.eqb (tn_tenant_id r) (cs_tenant_id v)) (mi_tenants m)))
  then None else Some (o, mkMirror rows (mi_tenants m)).

(** ** A pass *)

Record UpsertCounts := mkCounts { n_inserted : nat; n_updated : nat; n_unchanged : nat }.

Definition no_counts : UpsertCounts := mkCounts 0 0 0.

Definition record_outcome (o : upsert_outcome) (c : UpsertCounts) : UpsertCounts :=
  match o with
  | inserted => mkCounts (S (n_inserted c)) (n_updated c) (n_unchanged c)
  | updated => mkCounts (n_inserted c) (S (n_updated c)) (n_unchanged c)
  | unchanged => mkCounts (n_inserted c) (n_updated c) (S (n_unchanged c))
  end.

Definition seen (c : UpsertCounts) : nat := n_inserted c + n_updated c + n_unchanged c.

Record TenantSyncCounts := mkTenantCounts { tsc_tenant_id : uuid; tsc_tenants : UpsertCounts; tsc_stores : UpsertCounts }.
Record SyncResult := mkSyncResult { per_tenant : list TenantSyncCounts; skipped_stores : nat }.

Definition add_counts (a b : UpsertCounts) : UpsertCounts :=
  mkCounts (n_inserted a + n_inserted b) (n_updated a + n_updated b) (n_unchanged a + n_unchanged b).

Definition totals (r : SyncResult) : UpsertCounts * UpsertCounts :=
  fold_left (fun '(t, s) pt => (add_counts t (tsc_tenants pt), add_counts s (tsc_stores pt))) (per_tenant r) (no_counts, no_counts).

(** The outside of a pass: the clock of each transaction, and where the database fails. *)
Class SyncOutside := {
  sync_now : nat -> Z;
  statement_fails : nat -> nat -> bool
}.

Section Pass.
Context `{SyncOutside}.

Definition db_failed : ui_exn := DatabaseError "sync".

(** Statement [j] of transaction [i]. *)
Definition statement {A} (i j : nat) (r : option (A * mirror)) (m : mirror) : ures A * mirror :=
  if statement_fails i j then (Err db_failed, m)
  else match r with Some (a, m') => (Ok a, m') | None => (Err db_failed, m) end.

(** The stores of a tenant, from statement [j] on. *)
Fixpoint write_stores (i j : nat) (stores : list CmStore) (counts : UpsertCounts) (m : mirror) : ures UpsertCounts * mirror :=
  match stores with
  | [] => (Ok counts, m)
  | s :: rest =>
      match statement i j (store_upsert (sync_now i) s m) m with
      | (Ok o, m') => write_stores i (S j) rest (record_outcome o counts) m'
      | (Err e, m') => (Err e, m')
      end
  end.

Definition write_tenant (i : nat) (tenant : CmTenant) (stores : list CmStore) : @txn mirror TenantSyncCounts := fun _ m =>
  match statement i 0 (tenant_upsert (sync_now i) tenant m) m with
  | (Err e, m') => (Err e, m')
  | (Ok o, m1) =>
      match write_stores i 1 stores no_counts m1 with
      | (Err e, m2) => (Err e, m2)
      | (Ok counts, m2) => (Ok (mkTenantCounts (ct_tenant_id tenant) (record_outcome o no_counts) counts), m2)
      end
  end.

Definition stores_of (tenant : uuid) (stores : list CmStore) : list CmStore :=
  filter (fun s => String.eqb (cs_tenant_id s) tenant = true) stores.

(** The loop over the tenants from transaction [i] on. *)
Fixpoint write_tenants (i : nat) (tenants : list CmTenant) (stores : list CmStore) : @action mirror (list TenantSyncCounts) :=
  match tenants with
  | [] => mret []
  | t :: rest =>
      counts ← rls_session undo_mirror (ct_tenant_id t) (write_tenant i t (stores_of (ct_tenant_id t) stores));
      more ← write_tenants (S i) rest stores;
      mret (counts :: more)
  end.

Definition upsert_identity (tenants : list CmTenant) (stores : list CmStore) : @action mirror SyncResult :=
  counts ← write_tenants 0 tenants stores;
  mret (mkSyncResult counts
          (length (filter (fun s => mem (cs_tenant_id s) (map ct_tenant_id tenants) = false) stores))).

Inductive exit_code : Type := EXIT_OK | EXIT_CONFIG | EXIT_CM_READ | EXIT_CM_UNREACHABLE | EXIT_TARGET | EXIT_WRITE.

(** [_run], from when its two engines are built; the rows of Customer Master are read as rows of their models.  [None] is an
    exception of the pass that leaves it; an engine URL that does not parse and a row that its model refuses
    leave it too, and are outside. *)
Definition run_sync (env : dict string) (cm : customer_master) (s : engine * mirror)
    : option exit_code * (engine * mirror) :=
  match config_from_env env with
  | None => (Some EXIT_CONFIG, s)
  | Some cfg =>
      match read_customer_master cm cfg with
      | Err CustomerMasterReadError => (Some EXIT_CM_READ, s)
      | Err SqlFailure => (Some EXIT_CM_UNREACHABLE, s)
      | Ok ([], _) => (Some EXIT_OK, s)
      | Ok (tenants, stores) =>
          match upsert_identity tenants stores s with
          | (Ok _, s') => (Some EXIT_OK, s')
          | (Err (Lib RlsContextError), s') => (Some EXIT_TARGET, s')
          | (Err (DatabaseError _), s') => (Some EXIT_WRITE, s')
          | (Err _, s') => (None, s')
          end
      end
  end.
End Pass.
