(* ===== verification/Upload.v ===== *)
(** Upload: the CSV upload endpoint (dis-ui-server, [handlers/csv_uploads.py],
    [publisher.py], [audit.py], [repos/stores.py], [repos/tenants.py]).

    The state is what the handler touches: the database (the templates and the
    identity mirror, with the engine that reaches them), the object store, the
    messages published on [csv.received] and the audit log.  A write to the store
    and a publish may fail, before or after they took effect.  Messages,
    durations and free-form data of audit events are left out. *)

From S2P Require Import Prelude Text Values Decimals Transform SourceMapping Polars Normalize Engine.
From S2P Require Import Canonical Provenance Enrichment HotMapping Sink Validation Paths Quarantine Consumer Subscriber Pii Worker.
From S2P Require Import Rules UiErrors Access Rls TemplateGate Templates Mirror Csv UploadStream.
Local Open Scope nat_scope.

(** ** Reads of the identity mirror *)

(** [WHERE tenant_id = ... AND store_code = ...]; a null code matches nothing. *)
Definition select_stores (tenant : uuid) (store_code : string) (m : mirror) : list StoreRow :=
  filter (fun r => String.eqb (st_tenant_id r) tenant && bool_decide (st_store_code r = Some store_code) = true) (mi_stores m).

Definition resolve_store_by_code (tenant : uuid) (store_code : string) : @action mirror StoreRow :=
  rows ← rls_session undo_mirror tenant (fun _ m => (Ok (select_stores tenant store_code m), m));
  match rows with
  | [] => act (Err (ResourceNotFoundError "store" store_code))
  | [r] => mret r
  | _ => act (Err PlainDisError)
  end.

(** [scalar_one_or_none] *)
Definition get_tenant_display_code (tenant : uuid) : @action mirror (option string) :=
  rls_session undo_mirror tenant (fun _ m =>
    (match filter (fun r => tn_tenant_id r = tenant) (mi_tenants m) with
     | [] => Ok None
     | [r] => Ok (tn_display_code r)
     | _ => Err (Lib (OtherError "MultipleResultsFound"))
     end, m)).

(** ** State and effects *)

Record upload_world := mkUploadWorld {
  uw_engine : engine;
  uw_templates : templates;
  uw_mirror : mirror;
  uw_objects : dict string;
  uw_outbox : list CsvReceivedEvent;
  uw_audit : list AuditEvent
}.

Definition upload (A : Type) : Type := upload_world -> ures A * upload_world.

Global Instance upload_ret : MRet upload := fun A a w => (Ok a, w).
Global Instance upload_bind : MBind upload := fun A B k c w =>
  match c w with (Ok a, w') => k a w' | (Err e, w') => (Err e, w') end.

Definition pure_up {A} (r : ures A) : upload A := fun w => (r, w).

Definition on_templates {A} (a : @action templates A) : upload A := fun w =>
  let '(r, (en, db)) := a (uw_engine w, uw_templates w) in
  (r, mkUploadWorld en db (uw_mirror w) (uw_objects w) (uw_outbox w) (uw_audit w)).

Definition on_mirror {A} (a : @action mirror A) : upload A := fun w =>
  let '(r, (en, m)) := a (uw_engine w, uw_mirror w) in
  (r, mkUploadWorld en (uw_templates w) m (uw_objects w) (uw_outbox w) (uw_audit w)).

(** The outside of one request. *)
Class UploadOutside := {
  new_trace_id : uuid;
  now_upload : Z;
  put_effect : Effect;                      (* storage.upload_bytes *)
  announce_effect : Effect;                 (* publisher.publish *)
  upload_audit_lands : AuditEvent -> bool
}.

Definition perform_up (eff : Effect) (change : upload_world -> upload_world) : upload unit := fun w =>
  match eff with
  | Done => (Ok tt, change w)
  | Failed e => (Err (Lib e), w)
  | DoneThenFailed e => (Err (Lib e), change w)
  end.

Definition store_object (key bytes : string) (w : upload_world) : upload_world :=
  mkUploadWorld (uw_engine w) (uw_templates w) (uw_mirror w) (dict_set (uw_objects w) key bytes) (uw_outbox w) (uw_audit w).

Definition announce (ev : CsvReceivedEvent) (w : upload_world) : upload_world :=
  mkUploadWorld (uw_engine w) (uw_templates w) (uw_mirror w) (uw_objects w) (uw_outbox w ++ [ev]) (uw_audit w).

(** ** The gates *)

Definition CSV_UPLOAD_MAX_FILE_BYTES : Z := 10 * 1024 * 1024.
Definition CSV_UPLOAD_BODY_CEILING_BYTES : Z := CSV_UPLOAD_MAX_FILE_BYTES + 64 * 1024.

Definition UPLOADABLE_STORE_STATUSES : list string := ["ACTIVE"].

Definition gate_store_uploadable (store : StoreRow) : ures unit :=
  raise_if (negb (mem (st_status store) UPLOADABLE_STORE_STATUSES)) (StoreStateConflictError (st_status store)).

(** [parsed.fields[name]] *)
Definition field_of (parsed : ParsedUpload) (name : string) : ures string :=
  match dict_get (fields parsed) name with Some v => Ok v | None => Err (Lib (KeyError name)) end.

Definition parse_template_id (parsed : ParsedUpload) : ures uuid :=
  raw ← field_of parsed "template_id";
  match py_uuid (strip raw) with Some u => Ok u | None => Err (UploadRequestError (Some "template_id")) end.

Definition TIER0_CODES (reason : string) : FailureCode :=
  if String.eqb reason "empty_file" then UPLOAD_EMPTY_FILE
  else if String.eqb reason "not_utf8" then UPLOAD_NOT_UTF8
  else if String.eqb reason "not_csv" then UPLOAD_NOT_CSV
  else if String.eqb reason "below_min_rows" then UPLOAD_BELOW_MIN_ROWS
  else UPLOAD_REQUEST_MALFORMED.

Definition rejection_code (step : string) (e : ui_exn) : FailureCode :=
  match e with
  | PayloadTooLargeError _ _ => UPLOAD_TOO_LARGE
  | UploadRequestError _ => UPLOAD_REQUEST_MALFORMED
  | UploadStructureError reason => TIER0_CODES reason
  | MappingStateConflictError _ _ => TEMPLATE_NOT_ACTIVE
  | StoreStateConflictError _ => STORE_NOT_ACTIVE
  | ResourceNotFoundError _ _ => if String.eqb step "template" then TEMPLATE_NOT_FOUND else STORE_NOT_FOUND
  | _ => INFRA_FAILURE
  end.

(** What the gates resolve. *)
Record resolved := mkResolved {
  rv_parsed : ParsedUpload;
  rv_template_id : uuid;
  rv_store_code : string;
  rv_row_count : nat;
  rv_source_id : string;
  rv_store : StoreRow
}.

(** The gate sequence, in which an exception carries the step it came from. *)
Definition steps (A : Type) : Type := upload_world -> result (string * ui_exn) A * upload_world.

Global Instance steps_ret : MRet steps := fun A a w => (Ok a, w).
Global Instance steps_bind : MBind steps := fun A B k c w =>
  match c w with (Ok a, w') => k a w' | (Err e, w') => (Err e, w') end.

Definition at_step {A} (step : string) (c : upload A) : steps A := fun w =>
  match c w with (Ok a, w') => (Ok a, w') | (Err e, w') => (Err (step, e), w') end.

Definition resolve_upload (read : ures ParsedUpload) (tenant : uuid) : steps resolved :=
  parsed ← at_step "upload" (pure_up read);
  template_id ← at_step "upload" (pure_up (parse_template_id parsed));
  raw_code ← at_step "upload" (pure_up (field_of parsed "store_code"));
  let store_code := strip raw_code in
  row_count ← at_step "tier0" (pure_up (run_tier0 (file_bytes parsed)));
  template ← at_step "template" (on_templates (resolve_active_template tenant template_id));
  store ← at_step "store" (on_mirror (resolve_store_by_code tenant store_code));
  at_step "store" (pure_up (gate_store_uploadable store)) ≫= fun _ =>
  mret (mkResolved parsed template_id store_code row_count (sm_source template) store).

(** ** The handler *)

Record CsvUploadResult := mkUploadResult {
  ur_trace_id : uuid;
  ur_upload_id : string;
  ur_tenant_id : uuid;
  ur_store_id : uuid;
  ur_store_code : string;
  ur_source_id : string;
  ur_template_id : uuid;
  ur_gcs_uri : string;
  ur_row_count : nat;
  ur_received_ts : Z
}.

Section Handler.
Context `{Codec, UploadOutside} (bucket : string).

Definition derive_upload_session_id (tenant store template : uuid) (payload_sha256 : string) : string :=
  "us_" +:+ String.substring 0 12 (sha256_hex (str_join "|" [tenant; store; template; payload_sha256])).

(** The field checks of the envelope. *)
Definition build_csv_received (trace tenant store : uuid) (source_id : string) (template : uuid) (session gcs_uri : string)
    (received_ts : Z) (display_code store_code : option string) : ures CsvReceivedEvent :=
  raise_if (String.eqb source_id "" || negb (is_upload_session session) || String.eqb gcs_uri "") (Lib ValidationError) ≫= fun _ =>
  Ok (mkCsvReceived trace tenant store source_id template session gcs_uri received_ts display_code store_code).

Definition upload_emit (ev : AuditEvent) : upload unit := fun w =>
  (Ok tt, if upload_audit_lands ev
          then mkUploadWorld (uw_engine w) (uw_templates w) (uw_mirror w) (uw_objects w) (uw_outbox w) (uw_audit w ++ [ev]) else w).

Definition receipt_event (tenant trace : uuid) (outcome : Outcome) (row_count : option Z) (code : option FailureCode) : AuditEvent :=
  mkAudit RECEIVED outcome INGRESS_EVENT tenant trace None None None row_count None None None code.

Definition emit_failure (tenant trace : uuid) (code : FailureCode) : upload unit :=
  upload_emit (receipt_event tenant trace FAILURE None (Some code)).

(** [try: c; except Exception: emit the code and raise the failure] *)
Definition or_fail {A} (tenant trace : uuid) (code : FailureCode) (failure : ui_exn) (c : upload A) : upload A := fun w =>
  match c w with
  | (Ok a, w') => (Ok a, w')
  | (Err _, w') => (emit_failure tenant trace code ≫= fun _ => pure_up (Err failure)) w'
  end.

(** [except DisError]: one failure event, and the exception as it was. *)
Definition gated (tenant trace : uuid) (c : steps resolved) : upload resolved := fun w =>
  match c w with
  | (Ok a, w') => (Ok a, w')
  | (Err (step, e), w') =>
      if is_dis_error e then (emit_failure tenant trace (rejection_code step e) ≫= fun _ => pure_up (Err e)) w'
      else (Err e, w')
  end.

Definition process_upload (read : ures ParsedUpload) (tenant trace : uuid) : upload CsvUploadResult :=
  rv ← gated tenant trace (resolve_upload read tenant);
  display_code ← on_mirror (get_tenant_display_code tenant);
  let bytes := file_bytes (rv_parsed rv) in
  let payload_sha256 := sha256_hex bytes in
  let upload_id := derive_upload_session_id tenant (st_store_id (rv_store rv)) (rv_template_id rv) payload_sha256 in
  let received_ts := now_upload in
  object_key ← pure_up (ui (build_object_path tenant (rv_source_id rv) trace received_ts "csv"));
  let gcs_uri := "gs://" +:+ bucket +:+ "/" +:+ object_key in
  or_fail tenant trace GCS_WRITE_FAILED (Lib StorageError) (perform_up put_effect (store_object object_key bytes)) ≫= fun _ =>
  envelope ← pure_up (build_csv_received trace tenant (st_store_id (rv_store rv)) (rv_source_id rv) (rv_template_id rv) upload_id gcs_uri
                        received_ts display_code (Some (rv_store_code rv)));
  or_fail tenant trace PUBLISH_FAILED EventPublishError (perform_up announce_effect (announce envelope)) ≫= fun _ =>
  upload_emit (receipt_event tenant trace SUCCESS (Some (Z.of_nat (rv_row_count rv))) None) ≫= fun _ =>
  mret (mkUploadResult trace upload_id tenant (st_store_id (rv_store rv)) (rv_store_code rv) (rv_source_id rv) (rv_template_id rv) gcs_uri
          (rv_row_count rv) received_ts).

Context `{AuthOutside, Multipart}.

(** [None] while the body is still being read. *)
Definition upload_csv (r : request) (u : upload_request) (fuel : nat) (w : upload_world)
    : option (ures CsvUploadResult) * upload_world :=
  match (identity ← require_tenant r; tenant_uuid_of identity) with
  | Err e => (Some (Err e), w)
  | Ok tenant =>
      match read_csv_upload FILE_PART TEXT_PARTS CSV_UPLOAD_MAX_FILE_BYTES CSV_UPLOAD_BODY_CEILING_BYTES u fuel with
      | None => (None, w)
      | Some read => let '(res, w') := process_upload read tenant new_trace_id w in (Some res, w')
      end
  end.
End Handler.

(** ** The message *)

(** [model_dump(mode="json", exclude_none=True)]: the identifiers as text, the time
    by [isoformat]. *)
Definition to_wire (isoformat : Z -> string) (ev : CsvReceivedEvent) : dict value :=
  [("schema_version", VInt 1); ("trace_id", VStr (cr_trace_id ev)); ("tenant_id", VStr (cr_tenant_id ev));
   ("store_id", VStr (cr_store_id ev)); ("source_id", VStr (cr_source_id ev)); ("template_id", VStr (cr_template_id ev));
   ("upload_session_id", VStr (cr_upload_session_id ev)); ("gcs_uri", VStr (cr_gcs_uri ev));
   ("received_ts", VStr (isoformat (cr_received_ts ev)))] ++
  match cr_tenant_display_code ev with Some c => [("tenant_display_code", VStr c)] | None => [] end ++
  match cr_store_code ev with Some c => [("store_code", VStr c)] | None => [] end ++
  [("delimiter", VStr ",")].
