(* ===== verification/CsvTheorems.v ===== *)
(** CsvTheorems: writing quoted tables, and that reading inverts it. *)

From S2P Require Import Prelude Text Values Transform Provenance UiErrors Csv UploadStream.

Local Open Scope N_scope.

(** ** UTF-8 *)

(** A code point that UTF-8 encodes. *)
Definition is_scalar (c : N) : bool := (c <? 55296) || between 57344 1114111 c.

Definition encode_point (c : N) : list N :=
  if c <? 128 then [c]
  else if c <? 2048 then [192 + c / 64; 128 + c mod 64]
  else if c <? 65536 then [224 + c / 4096; 128 + c / 64 mod 64; 128 + c mod 64]
  else [240 + c / 262144; 128 + c / 4096 mod 64; 128 + c / 64 mod 64; 128 + c mod 64].

Definition utf8_encode (text : list N) : list N := flat_map encode_point text.

Ltac euclid := Z.to_euclidean_division_equations.

Lemma between_true lo hi b : lo <= b -> b <= hi -> between lo hi b = true.
Proof. intros ? ?. unfold between. apply andb_true_iff. by rewrite !N.leb_le. Qed.

Lemma between_false lo hi b : b < lo \/ hi < b -> between lo hi b = false.
Proof. intros Hb. unfold between. apply andb_false_iff. rewrite !N.leb_gt. tauto. Qed.

Lemma high_byte a q : 128 <= a -> (a + q <? 128) = false.
Proof. intros ?. apply N.ltb_ge. lia. Qed.

Lemma decode_point c rest : is_scalar c = true -> utf8_decode (encode_point c ++ rest) = cons c <$> utf8_decode rest.
Proof.
  unfold is_scalar, encode_point. rewrite orb_true_iff. unfold between. rewrite andb_true_iff, N.ltb_lt, !N.leb_le. intros Hc.
  destruct (N.ltb_spec c 128) as [H1|H1]; [cbn [app utf8_decode]; by rewrite (proj2 (N.ltb_lt _ _) H1)|].
  destruct (N.ltb_spec c 2048) as [H2|H2]; [|destruct (N.ltb_spec c 65536) as [H3|H3]]; cbn [app utf8_decode].
  - rewrite (high_byte 192 (c / 64)) by done.
    assert (2 <= c / 64 < 32 /\ c mod 64 < 64 /\ c = c / 64 * 64 + c mod 64) as (Hq & Hr & He) by (zify; euclid; lia).
    set (q := c / 64) in *. set (r := c mod 64) in *. clearbody q r.
    unfold cont. rewrite !between_true by lia. cbn [andb]. f_equal. f_equal. lia.
  - rewrite (high_byte 224 (c / 4096)) by done.
    assert (c / 4096 < 16 /\ c / 64 mod 64 < 64 /\ c mod 64 < 64 /\ c = c / 4096 * 4096 + c / 64 mod 64 * 64 + c mod 64) as (Hq & Hm & Hr & He)
      by (zify; euclid; lia).
    assert (second_ok (224 + c / 4096) (128 + c / 64 mod 64) = true) as ->.
    { unfold second_ok, cont. destruct (N.eqb_spec (224 + c / 4096) 224); [apply between_true; zify; euclid; lia|].
      destruct (N.eqb_spec (224 + c / 4096) 237); [apply between_true; zify; euclid; lia|].
      destruct (N.eqb_spec (224 + c / 4096) 240); [lia|]. destruct (N.eqb_spec (224 + c / 4096) 244); [lia|]. apply between_true; zify; euclid; lia. }
    set (q := c / 4096) in *. set (m := c / 64 mod 64) in *. set (r := c mod 64) in *. clearbody q m r.
    rewrite between_false by lia. cbn [andb]. rewrite between_true by lia.
    unfold cont. rewrite between_true by lia. cbn [andb]. f_equal. f_equal. lia.
  - rewrite (high_byte 240 (c / 262144)) by done.
    assert (c / 262144 < 5 /\ c / 4096 mod 64 < 64 /\ c / 64 mod 64 < 64 /\ c mod 64 < 64 /\
            c = c / 262144 * 262144 + c / 4096 mod 64 * 4096 + c / 64 mod 64 * 64 + c mod 64) as (Hq & Hm1 & Hm & Hr & He)
      by (zify; euclid; lia).
    assert (second_ok (240 + c / 262144) (128 + c / 4096 mod 64) = true) as ->.
    { unfold second_ok, cont. destruct (N.eqb_spec (240 + c / 262144) 224); [lia|].
      destruct (N.eqb_spec (240 + c / 262144) 237); [lia|].
      destruct (N.eqb_spec (240 + c / 262144) 240); [apply between_true; zify; euclid; lia|].
      destruct (N.eqb_spec (240 + c / 262144) 244); [apply between_true; zify; euclid; lia|]. apply between_true; zify; euclid; lia. }
    set (q := c / 262144) in *. set (m1 := c / 4096 mod 64) in *. set (m := c / 64 mod 64) in *. set (r := c mod 64) in *. clearbody q m1 m r.
    rewrite between_false by lia. cbn [andb]. rewrite between_false by lia. cbn [andb]. rewrite between_true by lia.
    unfold cont. rewrite !between_true by lia. cbn [andb]. f_equal. f_equal. lia.
Qed.

Lemma utf8_round_trip text : Forall (fun c => is_scalar c = true) text -> utf8_decode (utf8_encode text) = Some text.
Proof.
  induction 1 as [|c text Hc Hall IH]; [done|]. cbn [utf8_encode flat_map]. rewrite decode_point by done.
  unfold utf8_encode in IH. by rewrite IH.
Qed.

(** ** Reading character by character *)

Fixpoint process_chars (r : reader) (cs : list N) : option reader :=
  match cs with
  | [] => Some r
  | c :: rest => match process_char r c with Some r' => process_chars r' rest | None => None end
  end.

Lemma process_line_chars cs : forall r, process_line r cs = process_eol <$> process_chars r cs.
Proof. induction cs as [|c cs IH]; intros r; [done|]. cbn. destruct (process_char r c); [apply IH|done]. Qed.

Lemma process_chars_app a b : forall r, process_chars r (a ++ b) = match process_chars r a with Some r' => process_chars r' b | None => None end.
Proof. induction a as [|c a IH]; intros r; [done|]. cbn. destruct (process_char r c); [apply IH|done]. Qed.

(** After a line that ends in a newline. *)
Definition end_line (r : reader) (lines : list (list N)) : option (list (list (list N))) :=
  match rd_state (process_eol r) with
  | START_RECORD => cons (rev (rd_fields (process_eol r))) <$> read_rows reset lines
  | _ => read_rows (process_eol r) lines
  end.

(** The reader over text, from inside a line: [r] is the state after [cur]. *)
Lemma lines_newline cur rest r0 r : process_chars r0 (rev cur) = Some r ->
  read_rows r0 (lines_from cur (10 :: rest)) = match process_char r 10 with Some r' => end_line r' (string_lines rest) | None => None end.
Proof.
  intros Hc. cbn [lines_from]. change (10 =? 10) with true. cbn iota. cbn [read_rows rev]. rewrite process_line_chars, process_chars_app, Hc.
  cbn [process_chars]. by destruct (process_char r 10).
Qed.

(** ** Quoted tables *)

Definition quote_char (c : N) : list N := if c =? 34 then [34; 34] else [c].
Definition quote_cell (cell : list N) : list N := [34] ++ flat_map quote_char cell ++ [34].

Fixpoint quote_row (cells : list (list N)) : list N :=
  match cells with
  | [] => []
  | [cell] => quote_cell cell
  | cell :: rest => quote_cell cell ++ [44] ++ quote_row rest
  end.

(** Every cell quoted, every record ended by CR LF ([csv.writer] with QUOTE_ALL). *)
Definition quote_table (rows : list (list (list N))) : list N := flat_map (fun row => quote_row row ++ [13; 10]) rows.

Definition cell_fits (cell : list N) : Prop := (N.of_nat (length cell) <= FIELD_LIMIT)%N.

Section ReadBack.
(** Reading goes on from state [r] in a line whose characters so far are [cur], read from [r0]. *)
Definition reads (r0 : reader) (cur : list N) (r : reader) (text : list N) (result : option (list (list (list N)))) : Prop :=
  process_chars r0 (rev cur) = Some r -> read_rows r0 (lines_from cur text) = result.

Lemma reads_char r0 cur r c r' text result :
  (c =? 10) = false -> process_char r c = Some r' -> reads r0 (c :: cur) r' text result -> reads r0 cur r (c :: text) result.
Proof.
  intros Hc Hp Hr Hcur. cbn [lines_from]. rewrite Hc. apply Hr. cbn [rev]. rewrite process_chars_app, Hcur. cbn. by rewrite Hp.
Qed.

(** A newline inside quotes: the record goes on with the next line. *)
Lemma reads_quoted_newline r0 cur r r' text result :
  process_char r 10 = Some r' -> rd_state r' = IN_QUOTED_FIELD -> reads r' [] r' text result -> reads r0 cur r (10 :: text) result.
Proof.
  intros Hp Hst Hr Hcur. rewrite (lines_newline _ _ _ _ Hcur), Hp. unfold end_line, process_eol. rewrite Hst. cbn iota. rewrite Hst.
  apply Hr. done.
Qed.

Definition quoted (field : list N) (n : N) (fields : list (list N)) : reader := mkReader IN_QUOTED_FIELD field n fields.

(** The characters of a cell, up to its closing quote. *)
Lemma reads_cell cell : forall r0 cur field n fields text result,
  n + N.of_nat (length cell) <= FIELD_LIMIT ->
  (forall r1 cur1, reads r1 cur1 (mkReader QUOTE_IN_QUOTED_FIELD (rev cell ++ field) (n + N.of_nat (length cell)) fields) text result) ->
  reads r0 cur (quoted field n fields) (flat_map quote_char cell ++ 34 :: text) result.
Proof.
  induction cell as [|c cell IH]; intros r0 cur field n fields text result Hlim Hk.
  - cbn [flat_map app]. eapply reads_char; [done|reflexivity|]. cbn [length rev app] in Hk. rewrite N.add_0_r in Hk. apply Hk.
  - cbn [flat_map length] in *. rewrite <- app_assoc.
    assert (FIELD_LIMIT <=? n = false) as Hn by (apply N.leb_gt; lia).
    assert (forall r1 cur1, reads r1 cur1 (quoted (c :: field) (n + 1) fields) (flat_map quote_char cell ++ 34 :: text) result) as Hrest.
    { intros r1 cur1. apply IH; [lia|]. intros r2 cur2. cbn [rev] in Hk. rewrite <- app_assoc in Hk. cbn [app] in Hk.
      replace (n + 1 + N.of_nat (length cell)) with (n + N.of_nat (S (length cell))) by lia. apply Hk. }
    unfold quote_char at 1. destruct (N.eqb_spec c 34) as [->|Hc]; cbn [app].
    + eapply reads_char; [done|reflexivity|]. eapply reads_char; [done| |apply Hrest].
      cbn. unfold add_char. cbn [rd_len goto quoted]. by rewrite Hn.
    + assert (process_char (quoted field n fields) c = Some (quoted (c :: field) (n + 1) fields)) as Hp.
      { cbn. apply N.eqb_neq in Hc. rewrite Hc. unfold add_char. cbn [rd_len quoted]. by rewrite Hn. }
      destruct (N.eqb_spec c 10) as [->|Hnl].
      * eapply reads_quoted_newline; [exact Hp|done|apply Hrest].
      * eapply reads_char; [by apply N.eqb_neq|exact Hp|apply Hrest].
Qed.

(** A whole cell, from the start of a field. *)
Lemma reads_quoted cell r0 cur st fields text result :
  st = START_RECORD \/ st = START_FIELD -> cell_fits cell ->
  (forall r1 cur1, reads r1 cur1 (mkReader QUOTE_IN_QUOTED_FIELD (rev cell) (N.of_nat (length cell)) fields) text result) ->
  reads r0 cur (mkReader st [] 0 fields) (quote_cell cell ++ text) result.
Proof.
  intros Hst Hfit Hk. unfold quote_cell. cbn [app]. rewrite <- app_assoc. cbn [app].
  eapply reads_char; [done|by destruct Hst as [->| ->]|]. apply (reads_cell cell r0 (34 :: cur) [] 0); [unfold cell_fits in Hfit; lia|].
  intros r1 cur1. rewrite app_nil_r, N.add_0_l. apply Hk.
Qed.

Lemma reads_row row : forall r0 cur st fields text result,
  row <> [] -> st = START_RECORD \/ st = START_FIELD -> Forall cell_fits row ->
  (forall r1 cur1, reads r1 cur1 (mkReader EAT_CRNL [] 0 (rev row ++ fields)) text result) ->
  reads r0 cur (mkReader st [] 0 fields) (quote_row row ++ 13 :: text) result.
Proof.
  induction row as [|cell row IH]; intros r0 cur st fields text result Hne Hst Hfit Hk; [done|].
  apply Forall_cons in Hfit as [Hc Hrow]. destruct row as [|cell' row].
  - cbn [quote_row]. apply reads_quoted; [done|done|]. intros r1 cur1.
    eapply reads_char; [done|reflexivity|]. unfold save_field. cbn [rd_field rd_fields]. rewrite rev_involutive. apply Hk.
  - change (quote_row (cell :: cell' :: row)) with (quote_cell cell ++ [44] ++ quote_row (cell' :: row)).
    rewrite <- !app_assoc. apply reads_quoted; [done|done|]. intros r1 cur1. cbn [app].
    eapply reads_char; [done|reflexivity|]. unfold save_field. cbn [rd_field rd_fields]. rewrite rev_involutive.
    apply IH; [done|by right|done|]. intros r2 cur2. cbn [rev] in Hk |- *. rewrite <- app_assoc in Hk. cbn [app] in Hk. rewrite <- app_assoc.
    cbn [app]. rewrite <- app_assoc in Hk. exact (Hk r2 cur2).
Qed.

(** A record of the table is one row. *)
Lemma reads_record row text rows : Forall cell_fits row ->
  read_rows reset (string_lines text) = Some rows ->
  read_rows reset (string_lines ((quote_row row ++ [13; 10]) ++ text)) = Some (row :: rows).
Proof.
  intros Hfit Hrest. unfold string_lines in *. rewrite <- app_assoc. cbn [app].
  assert (forall r1 cur1 fields, fields = rev row -> reads r1 cur1 (mkReader EAT_CRNL [] 0 fields) (10 :: text) (Some (row :: rows))) as Hend.
  { intros r1 cur1 fields -> Hcur. rewrite (lines_newline _ _ _ _ Hcur). cbn [process_char rd_state]. change (is_newline 10) with true. cbn iota.
    unfold end_line. cbn [process_eol rd_state goto rd_fields]. rewrite rev_involutive. unfold string_lines. by rewrite Hrest. }
  destruct row as [|cell row].
  - cbn [quote_row app]. refine (reads_char reset [] reset 13 _ (10 :: text) _ eq_refl eq_refl _ eq_refl). by apply Hend.
  - refine (reads_row (cell :: row) reset [] START_RECORD [] (10 :: text) _ _ _ Hfit _ eq_refl); [done|by left|].
    intros r1 cur1. rewrite app_nil_r. by apply Hend.
Qed.
End ReadBack.

Lemma table_read_back rows : Forall (Forall cell_fits) rows -> csv_reader (quote_table rows) = Some rows.
Proof.
  unfold csv_reader. induction 1 as [|row rows Hrow Hall IH]; [done|]. cbn [quote_table flat_map]. by apply reads_record.
Qed.

(** ** The structural gate on a table *)

Local Open Scope N_scope.

(** ** The bytes of a table *)

Definition BOM : list N := [239; 187; 191].

Lemma bytes_of_string bs : Forall (fun b => b < 256) bs -> bytes_of (string_of_bytes bs) = bs.
Proof.
  unfold bytes_of, string_of_bytes. rewrite String.list_ascii_of_string_of_list_ascii.
  induction 1 as [|b bs Hb Hall IH]; [done|]. cbn. rewrite N_ascii_embedding by done. by f_equal.
Qed.

Lemma encode_point_bytes c : is_scalar c = true -> Forall (fun b => b < 256) (encode_point c).
Proof.
  unfold is_scalar, encode_point, between. rewrite orb_true_iff, andb_true_iff, N.ltb_lt, !N.leb_le. intros Hc.
  destruct (N.ltb_spec c 128); [|destruct (N.ltb_spec c 2048); [|destruct (N.ltb_spec c 65536)]];
    repeat constructor; zify; euclid; lia.
Qed.

Lemma encode_bytes text : Forall (fun c => is_scalar c = true) text -> Forall (fun b => b < 256) (utf8_encode text).
Proof. induction 1 as [|c text Hc Hall IH]; [constructor|]. cbn. apply Forall_app. split; [by apply encode_point_bytes|done]. Qed.

Definition cells_scalar (row : list (list N)) : Prop := Forall (Forall (fun c => is_scalar c = true)) row.

Lemma quote_row_scalar row : cells_scalar row -> Forall (fun c => is_scalar c = true) (quote_row row).
Proof.
  induction 1 as [|cell row Hc Hall IH]; [constructor|].
  assert (Forall (fun c => is_scalar c = true) (quote_cell cell)) as Hq.
  { unfold quote_cell. repeat (apply Forall_app; split); [by repeat constructor| |by repeat constructor].
    induction Hc as [|c cell Hc Hcs IHc]; [constructor|]. cbn. apply Forall_app. split; [|done].
    unfold quote_char. destruct (c =? 34); by repeat constructor. }
  destruct row as [|cell' row]; [done|]. change (quote_row (cell :: cell' :: row)) with (quote_cell cell ++ [44] ++ quote_row (cell' :: row)).
  apply Forall_app. split; [done|]. apply Forall_app. split; [by repeat constructor|done].
Qed.

Lemma quote_table_scalar rows : Forall cells_scalar rows -> Forall (fun c => is_scalar c = true) (quote_table rows).
Proof.
  induction 1 as [|row rows Hr Hall IH]; [constructor|]. cbn. apply Forall_app. split; [|done].
  apply Forall_app. split; [by apply quote_row_scalar|by repeat constructor].
Qed.

Lemma encode_elem c text : c < 128 -> c ∈ text -> c ∈ utf8_encode text.
Proof.
  intros Hc Hin. unfold utf8_encode. apply elem_of_flat_map. exists c. split; [done|]. unfold encode_point.
  apply N.ltb_lt in Hc as ->. left.
Qed.

Lemma quote_in_table rows row : row ∈ rows -> row <> [] -> 34 ∈ quote_table rows.
Proof.
  intros Hin Hne. unfold quote_table. apply elem_of_flat_map. exists row. split; [done|]. apply elem_of_app. left.
  destruct row as [|cell [|cell' row]]; [done|left|left].
Qed.

(** A table never begins with the bytes of a byte order mark. *)
Lemma table_start rows : decode_sig (utf8_encode (quote_table rows)) = utf8_decode (utf8_encode (quote_table rows)).
Proof. destruct rows as [|[|cell [|cell' row]] rows]; reflexivity. Qed.

Definition table_file (bom : bool) (rows : list (list (list N))) : string :=
  string_of_bytes ((if bom then BOM else []) ++ utf8_encode (quote_table rows)).

(** C20. The structural gate counts the rows of any table: for rows of cells of
    arbitrary Unicode text, commas, quotes and line breaks inside cells included,
    written with every cell quoted, in UTF-8 with or without a byte order mark, the
    gate answers with the number of rows that hold some text, less the header, and
    refuses the file as below the minimum when there are fewer than two. *)
Theorem quoted_table_counted bom rows
    (Hcells : Forall (Forall cell_fits) rows) (Hscalar : Forall cells_scalar rows)
    (Hsome : exists row, row ∈ rows /\ row <> []) :
  run_tier0 (table_file bom rows) =
    let n := length (records rows) in
    if (n <? MIN_CSV_RECORDS)%nat then Err (UploadStructureError "below_min_rows") else Ok (n - 1)%nat.
Proof.
  destruct Hsome as (row & Hin & Hne). pose proof (quote_table_scalar _ Hscalar) as Hs.
  unfold run_tier0, table_file. rewrite bytes_of_string.
  2: { apply Forall_app. split; [destruct bom; by repeat constructor|by apply encode_bytes]. }
  assert (has_bytes ((if bom then BOM else []) ++ utf8_encode (quote_table rows)) = true) as ->.
  { unfold has_bytes. apply existsb_exists. exists 34. split; [|done]. apply list_elem_of_In, elem_of_app. right.
    apply encode_elem; [done|]. by eapply quote_in_table. }
  assert (decode_sig ((if bom then BOM else []) ++ utf8_encode (quote_table rows)) = Some (quote_table rows)) as ->.
  { destruct bom; cbn [app]; [cbn [BOM app decode_sig]|rewrite table_start]; by apply utf8_round_trip. }
  cbn [negb]. by rewrite (table_read_back _ Hcells).
Qed.

(** ** Witness *)

(** A header and one row, whose second cell is a quote, a comma, a line break and an
    e with acute accent. *)
Definition sample_table : list (list (list N)) := [[[115; 107; 117]; [110]]; [[49]; [34; 44; 10; 233]]].

Lemma quoted_table_counted_witness : run_tier0 (table_file true sample_table) = Ok 1%nat.
Proof.
  rewrite (quoted_table_counted true sample_table); [reflexivity| | |].
  - repeat constructor; vm_compute; discriminate.
  - repeat constructor.
  - exists [[49]; [34; 44; 10; 233]]. split; [|discriminate]. right. left.
Defined.
