(* ===== verification/UploadTheorems.v ===== *)
(** UploadTheorems: what an upload may do, and what each step of the handler does. *)

From S2P Require Import Prelude Text Values Decimals Transform SourceMapping Polars Normalize Engine Canonical Provenance Enrichment HotMapping Sink.
From S2P Require Import Paths PathTheorems Validation Quarantine Consumer Subscriber Pii Worker WorkerTheorems WorkerRetries UiErrors Access Rules TemplateGate.
From S2P Require Import Rls Templates TemplateLife Csv UploadStream Mirror Upload.

Local Open Scope nat_scope.

(** Documented of SHA-256: 64 lowercase hexadecimal digits. *)
Class HexDigest `{Codec} := sha256_hex_digits : forall s, hex_group 64 (sha256_hex s) = true.

(** ** The engine *)

(** The exception a session of this engine ends with before its first statement. *)
Definition engine_error (en : engine) : option ui_exn :=
  if en_reachable en then match check_posture (en_posture en) with Ok _ => None | Err e => Some e end
  else Some (DatabaseError "connect").

(** A session, as a function of what its engine is. *)
Lemma transaction_eq {D A} (undo : D -> D -> D) g (body : txn A) en db : honest en ->
  verified_transaction undo g body (en, db) =
  match engine_error en with
  | Some e => (Err e, (en, db))
  | None =>
      let en' := mkEngine true (en_posture en) true in
      match body (mkSession (en_posture en) g) db with
      | (Ok a, db') => (Ok a, (en', db'))
      | (Err e, db') => (Err e, (en', undo db db'))
      end
  end.
Proof.
  intros Hh. unfold verified_transaction, engine_error. destruct (en_reachable en) eqn:Hr; cbn [negb]; [|done].
  destruct (en_verified en) eqn:Hv; [by rewrite (Hh Hv)|]. by destruct (check_posture _) as [[]|e].
Qed.

(** Once used, an engine answers as it did, and is honest. *)
Lemma engine_used en : engine_error en = None ->
  honest (mkEngine true (en_posture en) true) /\ engine_error (mkEngine true (en_posture en) true) = None /\ bypasses (en_posture en) = false.
Proof.
  unfold engine_error, honest. cbn. destruct (en_reachable en); [|done]. destruct (check_posture (en_posture en)) as [[]|e] eqn:Hp; [|done].
  intros _. split_and!; [done..|by apply posture_safe].
Qed.

Lemma engine_error_dis en e : engine_error en = Some e -> is_dis_error e = true -> e = Lib RlsContextError.
Proof.
  unfold engine_error. destruct (en_reachable en); [|by intros [= <-]]. destruct (check_posture (en_posture en)) as [[]|e'] eqn:Hp; [done|].
  intros [= <-] _. revert Hp. unfold check_posture, raise_if. destruct (negb _); cbn; [by intros [= <-]|].
  destruct (_ || _); cbn; [by intros [= <-]|done].
Qed.

(** ** The abstract upload *)

(** The file, the template and the store code of a request that was read. *)
Record names (read : ures ParsedUpload) (parsed : ParsedUpload) (template_id : uuid) (store_code : string) : Prop := {
  nm_read : read = Ok parsed;
  nm_template : exists raw, dict_get (fields parsed) "template_id" = Some raw /\ py_uuid (strip raw) = Some template_id;
  nm_store : exists raw, dict_get (fields parsed) "store_code" = Some raw /\ store_code = strip raw
}.

(** The versions of a template of a tenant. *)
Definition version_of (tenant template_id : uuid) (w : upload_world) (row : SourceMappingRow) : Prop :=
  row ∈ td_rows (uw_templates w) /\ sm_tenant row = tenant /\ sm_template row = template_id.

Definition live_version (tenant template_id : uuid) (w : upload_world) (row : SourceMappingRow) : Prop :=
  version_of tenant template_id w row /\ sm_status row = ACTIVE.

(** What the gates resolve of what was read, for a tenant: its ACTIVE template and
    its one ACTIVE store of the code, for a file that passes the structural gate. *)
Record resolves (read : ures ParsedUpload) (tenant : uuid) (w : upload_world) (rv : resolved) : Prop := {
  rs_names : names read (rv_parsed rv) (rv_template_id rv) (rv_store_code rv);
  rs_engine : engine_error (uw_engine w) = None;
  rs_template : exists row, live_version tenant (rv_template_id rv) w row /\ sm_source row = rv_source_id rv;
  rs_store : select_stores tenant (rv_store_code rv) (uw_mirror w) = [rv_store rv];
  rs_active : st_status (rv_store rv) = "ACTIVE";
  rs_rows : run_tier0 (file_bytes (rv_parsed rv)) = Ok (rv_row_count rv)
}.

(** The structural gate's reasons. *)
Definition structure_codes : list (string * FailureCode) :=
  [("empty_file", UPLOAD_EMPTY_FILE); ("not_utf8", UPLOAD_NOT_UTF8); ("not_csv", UPLOAD_NOT_CSV); ("below_min_rows", UPLOAD_BELOW_MIN_ROWS)].

(** The refusals of a request: what is wrong with it, the exception, and the code it
    is audited under.  Each gate only speaks when the ones before it have passed. *)
Inductive refusal (read : ures ParsedUpload) (tenant : uuid) (w : upload_world) : ui_exn -> FailureCode -> Prop :=
| refuse_size limit n : read = Err (PayloadTooLargeError limit n) -> refusal read tenant w (PayloadTooLargeError limit n) UPLOAD_TOO_LARGE
| refuse_form part : read = Err (UploadRequestError part) -> refusal read tenant w (UploadRequestError part) UPLOAD_REQUEST_MALFORMED
| refuse_template_id parsed raw :
    read = Ok parsed -> dict_get (fields parsed) "template_id" = Some raw -> py_uuid (strip raw) = None ->
    refusal read tenant w (UploadRequestError (Some "template_id")) UPLOAD_REQUEST_MALFORMED
| refuse_structure parsed tid code reason failure :
    names read parsed tid code -> run_tier0 (file_bytes parsed) = Err (UploadStructureError reason) -> (reason, failure) ∈ structure_codes ->
    refusal read tenant w (UploadStructureError reason) failure
| refuse_engine parsed tid code n :
    names read parsed tid code -> run_tier0 (file_bytes parsed) = Ok n -> engine_error (uw_engine w) = Some (Lib RlsContextError) ->
    refusal read tenant w (Lib RlsContextError) INFRA_FAILURE
| refuse_no_template parsed tid code n :
    names read parsed tid code -> run_tier0 (file_bytes parsed) = Ok n -> engine_error (uw_engine w) = None ->
    (forall row, version_of tenant tid w row -> False) ->
    refusal read tenant w (ResourceNotFoundError "mapping_template" tid) TEMPLATE_NOT_FOUND
| refuse_not_live parsed tid code n head :
    names read parsed tid code -> run_tier0 (file_bytes parsed) = Ok n -> engine_error (uw_engine w) = None ->
    version_of tenant tid w head -> (forall row, live_version tenant tid w row -> False) ->
    refusal read tenant w (MappingStateConflictError "ACTIVE" (status_name (sm_status head))) TEMPLATE_NOT_ACTIVE
| refuse_no_store parsed tid code n row :
    names read parsed tid code -> run_tier0 (file_bytes parsed) = Ok n -> engine_error (uw_engine w) = None ->
    live_version tenant tid w row -> select_stores tenant code (uw_mirror w) = [] ->
    refusal read tenant w (ResourceNotFoundError "store" code) STORE_NOT_FOUND
| refuse_stores parsed tid code n row :
    names read parsed tid code -> run_tier0 (file_bytes parsed) = Ok n -> engine_error (uw_engine w) = None ->
    live_version tenant tid w row -> 2 <= length (select_stores tenant code (uw_mirror w)) ->
    refusal read tenant w PlainDisError INFRA_FAILURE
| refuse_store_state parsed tid code n row store :
    names read parsed tid code -> run_tier0 (file_bytes parsed) = Ok n -> engine_error (uw_engine w) = None ->
    live_version tenant tid w row -> select_stores tenant code (uw_mirror w) = [store] -> st_status store <> "ACTIVE" ->
    refusal read tenant w (StoreStateConflictError (st_status store)) STORE_NOT_ACTIVE
| refuse_parser e :
    read = Err e -> is_dis_error e = true -> (forall limit n, e <> PayloadTooLargeError limit n) -> (forall part, e <> UploadRequestError part) ->
    refusal read tenant w e (rejection_code "upload" e).

(** The crashes: an exception of the reader that is no DisError, a field the reader
    did not give, a database that cannot be reached, a tenant mirrored twice, or a
    path that cannot be built. *)
Inductive crash (read : ures ParsedUpload) (tenant : uuid) (w : upload_world) (path : string -> res string) : ui_exn -> Prop :=
| crash_read e : read = Err e -> is_dis_error e = false -> crash read tenant w path e
| crash_field parsed name :
    read = Ok parsed -> name ∈ TEXT_PARTS -> dict_get (fields parsed) name = None -> crash read tenant w path (Lib (KeyError name))
| crash_engine parsed tid code n :
    names read parsed tid code -> run_tier0 (file_bytes parsed) = Ok n -> en_reachable (uw_engine w) = false ->
    crash read tenant w path (DatabaseError "connect")
| crash_tenants rv :
    resolves read tenant w rv -> 2 <= length (filter (fun r => tn_tenant_id r = tenant) (mi_tenants (uw_mirror w))) ->
    crash read tenant w path (Lib (OtherError "MultipleResultsFound"))
| crash_path rv e : resolves read tenant w rv -> path (rv_source_id rv) = Err e -> crash read tenant w path (Lib e).

Section Abstract.
Context `{Codec, UploadOutside} (bucket : string) (tenant trace : uuid).

Definition upload_id_of (rv : resolved) : string :=
  derive_upload_session_id tenant (st_store_id (rv_store rv)) (rv_template_id rv) (sha256_hex (file_bytes (rv_parsed rv))).

Definition event_of (rv : resolved) (display_code : option string) (key : string) : CsvReceivedEvent :=
  mkCsvReceived trace tenant (st_store_id (rv_store rv)) (rv_source_id rv) (rv_template_id rv) (upload_id_of rv)
    ("gs://" +:+ bucket +:+ "/" +:+ key) now_upload display_code (Some (rv_store_code rv)).

Definition result_of (rv : resolved) (key : string) : CsvUploadResult :=
  mkUploadResult trace (upload_id_of rv) tenant (st_store_id (rv_store rv)) (rv_store_code rv) (rv_source_id rv) (rv_template_id rv)
    ("gs://" +:+ bucket +:+ "/" +:+ key) (rv_row_count rv) now_upload.

(** The tenant's display code. *)
Definition display_code_of (w : upload_world) : option string :=
  match filter (fun r => tn_tenant_id r = tenant) (mi_tenants (uw_mirror w)) with r :: _ => tn_display_code r | [] => None end.

(** What changes: the database never does; of the audit events that are emitted,
    those land that the trail takes. *)
Definition changes (w w' : upload_world) (objects : dict string) (announced : list CsvReceivedEvent) (emitted : list AuditEvent) : Prop :=
  uw_templates w' = uw_templates w /\ uw_mirror w' = uw_mirror w /\
  (honest (uw_engine w') /\ engine_error (uw_engine w') = engine_error (uw_engine w)) /\ uw_objects w' = objects /\
  uw_outbox w' = uw_outbox w ++ announced /\ uw_audit w' = uw_audit w ++ filter (fun ev => upload_audit_lands ev = true) emitted.

Definition path_of (source : string) : res string := build_object_path tenant source trace now_upload "csv".

(** The object of the upload: its key is the canonical path. *)
Definition object_of (rv : resolved) (key : string) : Prop := path_of (rv_source_id rv) = Ok key.

Inductive upload_does (read : ures ParsedUpload) (w w' : upload_world) : ures CsvUploadResult -> Prop :=
| does_refuse e code :
    refusal read tenant w e code ->
    changes w w' (uw_objects w) [] [receipt_event tenant trace FAILURE None (Some code)] -> upload_does read w w' (Err e)
| does_crash e : crash read tenant w path_of e -> changes w w' (uw_objects w) [] [] -> upload_does read w w' (Err e)
| does_not_store rv key objects :
    resolves read tenant w rv -> object_of rv key -> put_effect <> Done ->
    objects = uw_objects w \/ objects = dict_set (uw_objects w) key (file_bytes (rv_parsed rv)) ->
    changes w w' objects [] [receipt_event tenant trace FAILURE None (Some GCS_WRITE_FAILED)] -> upload_does read w w' (Err (Lib StorageError))
| does_not_announce rv key announced :
    resolves read tenant w rv -> object_of rv key -> announce_effect <> Done ->
    announced = [] \/ announced = [event_of rv (display_code_of w) key] ->
    changes w w' (dict_set (uw_objects w) key (file_bytes (rv_parsed rv))) announced
      [receipt_event tenant trace FAILURE None (Some PUBLISH_FAILED)] -> upload_does read w w' (Err EventPublishError)
| does_accept rv key :
    resolves read tenant w rv -> object_of rv key ->
    changes w w' (dict_set (uw_objects w) key (file_bytes (rv_parsed rv))) [event_of rv (display_code_of w) key]
      [receipt_event tenant trace SUCCESS (Some (Z.of_nat (rv_row_count rv))) None] -> upload_does read w w' (Ok (result_of rv key)).

(** ** The steps *)

(** Only the engine's mark may differ. *)
Definition untouched (w w' : upload_world) : Prop := changes w w' (uw_objects w) [] [].

Lemma untouched_refl w : honest (uw_engine w) -> untouched w w.
Proof. intros Hh. unfold untouched, changes. rewrite filter_nil, !app_nil_r. done. Qed.

Lemma untouched_changes w w1 w2 objects announced audited :
  untouched w w1 -> changes w1 w2 objects announced audited -> changes w w2 objects announced audited.
Proof.
  unfold untouched, changes. rewrite filter_nil, !app_nil_r. intros (-> & -> & [_ ->] & _ & -> & ->). done.
Qed.

Lemma untouched_trans w w1 w2 : untouched w w1 -> untouched w1 w2 -> untouched w w2.
Proof.
  intros H1 H2. pose proof (untouched_changes _ _ _ _ _ _ H1 H2) as H3.
  destruct H1 as (_ & _ & _ & Ho & _). unfold untouched. by rewrite <- Ho.
Qed.

Lemma changes_app w w1 w2 o1 o2 a1 a2 e1 e2 :
  changes w w1 o1 a1 e1 -> changes w1 w2 o2 a2 e2 -> changes w w2 o2 (a1 ++ a2) (e1 ++ e2).
Proof.
  unfold changes. intros (-> & -> & [_ ->] & _ & -> & ->) (? & ? & ? & ? & Hob & Hau).
  rewrite filter_app, !app_assoc. done.
Qed.

Lemma emit_changes w ev : honest (uw_engine w) -> changes w (snd (upload_emit ev w)) (uw_objects w) [] [ev].
Proof.
  intros Hh. unfold upload_emit, changes. cbn [snd]. destruct (upload_audit_lands ev) eqn:Hl.
  - rewrite filter_cons_True, filter_nil, app_nil_r by done. done.
  - rewrite filter_cons_False, filter_nil, !app_nil_r by congruence. done.
Qed.

(** The world after a read: only the engine's mark is new. *)
Definition marked (w : upload_world) : upload_world :=
  mkUploadWorld (mkEngine true (en_posture (uw_engine w)) true) (uw_templates w) (uw_mirror w) (uw_objects w) (uw_outbox w) (uw_audit w).

Lemma marked_untouched w : engine_error (uw_engine w) = None -> untouched w (marked w).
Proof.
  intros He. destruct (engine_used _ He) as (Hh & Hn & _). unfold untouched, changes. rewrite filter_nil, !app_nil_r, He. done.
Qed.

(** Reads of the database. *)
Lemma mirror_read {A} t (f : mirror -> ures A) w : honest (uw_engine w) ->
  on_mirror (rls_session undo_mirror t (fun _ m => (f m, m))) w =
  match engine_error (uw_engine w) with Some e => (Err e, w) | None => (f (uw_mirror w), marked w) end.
Proof.
  intros Hh. unfold on_mirror, rls_session. rewrite transaction_eq by done.
  destruct (engine_error (uw_engine w)); [by destruct w|]. cbn. by destruct (f (uw_mirror w)).
Qed.

Lemma store_resolved t code w : honest (uw_engine w) ->
  on_mirror (resolve_store_by_code t code) w =
  match engine_error (uw_engine w) with
  | Some e => (Err e, w)
  | None => (match select_stores t code (uw_mirror w) with
             | [] => Err (ResourceNotFoundError "store" code) | [r] => Ok r | _ => Err PlainDisError
             end, marked w)
  end.
Proof.
  intros Hh. unfold on_mirror, resolve_store_by_code, mbind, action_bind, rls_session. rewrite transaction_eq by done.
  destruct (engine_error (uw_engine w)); [by destruct w|]. cbn. by destruct (select_stores t code (uw_mirror w)) as [|s [|]].
Qed.

Lemma tenant_policy_sees p t u : bypasses p = false -> t <> "" -> policy_using (mkSession p (mkGuc "TENANT" t)) u = true <-> u = t.
Proof.
  intros Hp Ht. unfold policy_using, guc_tenant. cbn. rewrite Hp. apply String.eqb_neq in Ht. rewrite Ht. cbn.
  rewrite orb_false_r, bool_decide_eq_true. naive_solver.
Qed.

Lemma own_lineage p t template w row : bypasses p = false -> t <> "" ->
  row ∈ select_lineage (mkSession p (mkGuc "TENANT" t)) template (td_rows (uw_templates w)) <-> version_of t template w row.
Proof.
  intros Hp Ht. unfold select_lineage, version_of. rewrite merge_sort_Permutation, list_elem_of_filter, andb_true_iff, (tenant_policy_sees _ _ _ Hp Ht), String.eqb_eq.
  naive_solver.
Qed.

(** The template gate: what it says of the tenant's versions of the template. *)
Lemma template_resolved t template w : honest (uw_engine w) -> t <> "" ->
  match engine_error (uw_engine w) with
  | Some e => on_templates (resolve_active_template t template) w = (Err e, w)
  | None =>
      (exists row, on_templates (resolve_active_template t template) w = (Ok row, marked w) /\ live_version t template w row) \/
      (on_templates (resolve_active_template t template) w = (Err (template_not_found template), marked w) /\ forall row, version_of t template w row -> False) \/
      (exists head, on_templates (resolve_active_template t template) w = (Err (MappingStateConflictError "ACTIVE" (status_name (sm_status head))), marked w) /\
         version_of t template w head /\ forall row, live_version t template w row -> False)
  end.
Proof.
  intros Hh Ht. unfold on_templates, resolve_active_template, get_template_rows, read_session. cbn [rs_is_platform rs_tenant_id].
  unfold mbind, action_bind, rls_session. rewrite transaction_eq by done. destruct (engine_error (uw_engine w)) eqn:He; [by destruct w|].
  destruct (engine_used _ He) as (_ & _ & Hp). cbn.
  assert (forall row, row ∈ select_lineage _ template (td_rows (uw_templates w)) <-> version_of t template w row) as Hown
    by (intros row; by apply own_lineage). revert Hown.
  destruct (select_lineage _ template (td_rows (uw_templates w))) as [|head rest]; intros Hown.
  { right. left. split; [done|]. intros row Hrow. apply Hown in Hrow. by apply elem_of_nil in Hrow. }
  destruct (filter (fun r0 => sm_status r0 = ACTIVE) (head :: rest)) as [|a l] eqn:Hf.
  - right. right. exists head. split; [done|]. split; [apply Hown; left|]. intros row [Hrow%Hown Hact].
    assert (row ∈ filter (fun r0 => sm_status r0 = ACTIVE) (head :: rest)) as Hin by by apply list_elem_of_filter.
    rewrite Hf in Hin. by apply elem_of_nil in Hin.
  - left. exists a. split; [done|]. assert (a ∈ filter (fun r0 => sm_status r0 = ACTIVE) (head :: rest)) as Ha by (rewrite Hf; left).
    apply list_elem_of_filter in Ha as [? ?%Hown]. done.
Qed.
End Abstract.

(** What an upload does, what the ingest worker makes of its
    message, and what a retry of it comes to. *)

Local Open Scope nat_scope.

(** ** The session id *)

Lemma substring_take s n : String.substring 0 n s = String.string_of_list_ascii (take n (chars s)).
Proof.
  revert n. induction s as [|a s IH]; intros [|n]; [done..|]. cbn. f_equal. apply IH.
Qed.

Lemma length_string_of l : String.length (String.string_of_list_ascii l) = length l.
Proof. induction l as [|a l IH]; cbn; [done|]. by rewrite IH. Qed.

Lemma session_hex (h : string) : hex_group 64 h = true -> is_upload_session ("us_" +:+ String.substring 0 12 h) = true.
Proof.
  intros Hh. apply hex_group_spec in Hh as [Hl Hall]. unfold is_upload_session.
  assert (length (chars (String.substring 0 12 h)) = 12) as H12.
  { rewrite substring_take, string_chars, length_take, Hl. done. }
  rewrite chars_length in H12. rewrite prefix_app, str_length_app, H12. cbn [andb String.length Nat.add Nat.eqb].
  replace 12 with (String.length (String.substring 0 12 h)) at 1 by exact H12.
  change 3 with (String.length "us_"). rewrite substring_app. rewrite substring_take.
  apply chars_all. rewrite string_chars. apply chars_all in Hall.
  eapply Forall_impl; [apply Forall_take, Hall|]. intros c. unfold is_hex_lower, is_session_char, is_lower, ascii_between.
  rewrite !orb_true_iff, !andb_true_iff, !N.leb_le. intros [?|[? ?]]; [by right|left]. split; [done|].
  etransitivity; [eassumption|]. done.
Qed.

Section Does.
Context `{Codec, UploadOutside} `{!HexDigest} (bucket : string).

Lemma honest_after w w' o a e : changes w w' o a e -> honest (uw_engine w').
Proof. intros (_ & _ & [? _] & _). done. Qed.

Lemma tier0_refuses file e : run_tier0 file = Err e -> exists reason failure, e = UploadStructureError reason /\
  TIER0_CODES reason = failure /\ (reason, failure) ∈ structure_codes.
Proof.
  intros Hr. assert (exists reason, e = UploadStructureError reason /\ (reason, TIER0_CODES reason) ∈ structure_codes) as (reason & -> & Hin)
    by (unfold run_tier0 in Hr; repeat case_match; simplify_eq; eexists; (split; [done|]); set_solver).
  by eexists _, _.
Qed.

Lemma store_gate store : gate_store_uploadable store =
  if String.eqb (st_status store) "ACTIVE" then Ok tt else Err (StoreStateConflictError (st_status store)).
Proof. unfold gate_store_uploadable, mem. cbn. by destruct (String.eqb (st_status store) "ACTIVE"). Qed.

(** How the gates end: resolved; refused, under the code of the refusal; or crashed. *)
Definition gates_end (read : ures ParsedUpload) (tenant trace : uuid) (w : upload_world) (r : result (string * ui_exn) resolved) : Prop :=
  match r with
  | Ok rv => resolves read tenant w rv
  | Err (step, e) =>
      if is_dis_error e then refusal read tenant w e (rejection_code step e) else crash read tenant w (path_of tenant trace) e
  end.

Lemma reader_ends read tenant trace w e : read = Err e -> gates_end read tenant trace w (Err ("upload", e)).
Proof.
  intros ->. unfold gates_end. destruct (is_dis_error e) eqn:Hd; [|by apply crash_read].
  destruct e; try (by apply refuse_parser); [by apply refuse_size|by apply refuse_form].
Qed.

Lemma engine_ends read tenant trace step w parsed tid code n e :
  names read parsed tid code -> run_tier0 (file_bytes parsed) = Ok n -> engine_error (uw_engine w) = Some e ->
  gates_end read tenant trace w (Err (step, e)).
Proof.
  intros Hn Ht He. unfold gates_end. destruct (is_dis_error e) eqn:Hd.
  - pose proof (engine_error_dis _ _ He Hd) as ->. by eapply refuse_engine.
  - unfold engine_error in He. destruct (en_reachable (uw_engine w)) eqn:Hr; [|injection He as <-; by eapply crash_engine].
    destruct (check_posture (en_posture (uw_engine w))) as [|e'] eqn:Hp; [done|]. injection He as ->. revert Hp Hd. unfold check_posture, raise_if.
    destruct (negb _); cbn; [by intros [= <-]|]. destruct (_ || _); cbn; [by intros [= <-]|done].
Qed.

(** The store gates, on an engine that answers. *)
Lemma store_ends read tenant trace w w1 r w' parsed tid code n row :
  names read parsed tid code -> run_tier0 (file_bytes parsed) = Ok n -> honest (uw_engine w1) -> engine_error (uw_engine w) = None ->
  untouched w w1 -> live_version tenant tid w row ->
  (store ← at_step "store" (on_mirror (resolve_store_by_code tenant code));
   at_step "store" (pure_up (gate_store_uploadable store)) ≫= fun _ => mret (mkResolved parsed tid code n (sm_source row) store)) w1 = (r, w') ->
  untouched w w' /\ gates_end read tenant trace w r.
Proof.
  intros Hn Ht Hh1 He Hun Hrow. unfold mbind, steps_bind, at_step, pure_up. rewrite store_resolved by done.
  assert (engine_error (uw_engine w1) = None) as He1 by (destruct Hun as (_ & _ & [_ ->] & _); done). rewrite He1.
  pose proof (untouched_trans _ _ _ Hun (marked_untouched _ He1)) as Hun2. destruct Hun as (_ & Hm & _). rewrite Hm.
  destruct (select_stores tenant code (uw_mirror w)) as [|store [|other rest]] eqn:Hs.
  - intros [= <- <-]. split; [done|]. by eapply refuse_no_store.
  - rewrite store_gate. destruct (String.eqb_spec (st_status store) "ACTIVE") as [Ha|Ha]; intros [= <- <-]; (split; [done|]).
    + split; [done..|by exists row|done|done|done].
    + by eapply refuse_store_state.
  - intros [= <- <-]. split; [done|]. eapply refuse_stores; [done..|]. rewrite Hs. cbn. lia.
Qed.

(** The gates change nothing, and end as they may. *)
Lemma resolve_upload_spec read tenant trace w r w' :
  honest (uw_engine w) -> tenant <> "" -> resolve_upload read tenant w = (r, w') -> untouched w w' /\ gates_end read tenant trace w r.
Proof.
  intros Hh Hne. unfold resolve_upload. unfold mbind at 1 2 3 4 5, steps_bind at 1 2 3 4 5. unfold at_step at 1 2 3 4 5, pure_up at 1 2 3 4.
  pose proof (untouched_refl w Hh) as Hrefl.
  destruct read as [parsed|e] eqn:Hread; [rewrite <- Hread|intros [= <- <-]; split; [done|]; rewrite <- Hread; by apply reader_ends].
  unfold parse_template_id, field_of. destruct (dict_get (fields parsed) "template_id") as [raw|] eqn:Hr1; cbn [mbind result_bind].
  2: { intros [= <- <-]. split; [done|]. eapply crash_field; [done| |done]. left. }
  destruct (py_uuid (strip raw)) as [tid|] eqn:Hp.
  2: { intros [= <- <-]. split; [done|]. by eapply refuse_template_id. }
  destruct (dict_get (fields parsed) "store_code") as [raw2|] eqn:Hr2.
  2: { intros [= <- <-]. split; [done|]. eapply crash_field; [done| |done]. right. left. }
  assert (names read parsed tid (strip raw2)) as Hn by (split; [done|by exists raw|by exists raw2]). clear Hread.
  destruct (run_tier0 (file_bytes parsed)) as [n|e] eqn:Ht0.
  2: { intros [= <- <-]. split; [done|]. destruct (tier0_refuses _ _ Ht0) as (reason & failure & -> & Hcode & Hin).
       cbn. rewrite Hcode. by eapply refuse_structure. }
  pose proof (template_resolved tenant tid w Hh Hne) as Htmpl. destruct (engine_error (uw_engine w)) as [e|] eqn:He.
  { rewrite Htmpl. intros [= <- <-]. split; [done|]. by eapply engine_ends. }
  pose proof (marked_untouched _ He) as Hun.
  destruct Htmpl as [(row & -> & Hrow)|[[-> Hno]|(head & -> & Hhead & Hno)]].
  - intros Hs. eapply store_ends; [done..| |done|done|done|exact Hs]. by destruct (engine_used _ He).
  - intros [= <- <-]. split; [done|]. by eapply refuse_no_template.
  - intros [= <- <-]. split; [done|]. by eapply refuse_not_live.
Qed.

(** A write that is attempted under [or_fail]: done, or audited, whether or not it took effect. *)
Lemma attempt_run eff (change : upload_world -> upload_world) tenant trace code failure w objects announced :
  honest (uw_engine w) -> changes w (change w) objects announced [] ->
  (exists w', or_fail tenant trace code failure (perform_up eff change) w = (Ok tt, w') /\ changes w w' objects announced []) \/
  (exists w' objects' announced', or_fail tenant trace code failure (perform_up eff change) w = (Err failure, w') /\ eff <> Done /\
     ((objects' = uw_objects w /\ announced' = []) \/ (objects' = objects /\ announced' = announced)) /\
     changes w w' objects' announced' [receipt_event tenant trace FAILURE None (Some code)]).
Proof.
  intros Hh Hc. unfold or_fail, perform_up. destruct eff as [|e|e].
  - left. by eexists.
  - right. eexists _, _, _. do 2 (split; [done|]). split; [by left|]. by apply emit_changes.
  - right. eexists _, objects, announced. do 2 (split; [done|]). split; [by right|].
    pose proof (emit_changes (change w) (receipt_event tenant trace FAILURE None (Some code)) (honest_after _ _ _ _ _ Hc)) as He.
    pose proof (changes_app _ _ _ _ _ _ _ _ _ Hc He) as Happ. rewrite app_nil_r in Happ.
    destruct Hc as (_ & _ & _ & <- & _). exact Happ.
Qed.

Lemma store_changes w key bytes : honest (uw_engine w) -> changes w (store_object key bytes w) (dict_set (uw_objects w) key bytes) [] [].
Proof. intros Hh. unfold changes. rewrite filter_nil, !app_nil_r. done. Qed.

Lemma announce_changes w ev : honest (uw_engine w) -> changes w (announce ev w) (uw_objects w) [ev] [].
Proof. intros Hh. unfold changes. rewrite filter_nil, !app_nil_r. done. Qed.

Lemma built_received trace tenant rv key code w : object_of tenant trace rv key ->
  pure_up (build_csv_received trace tenant (st_store_id (rv_store rv)) (rv_source_id rv) (rv_template_id rv)
             (derive_upload_session_id tenant (st_store_id (rv_store rv)) (rv_template_id rv) (sha256_hex (file_bytes (rv_parsed rv))))
             ("gs://" +:+ bucket +:+ "/" +:+ key) now_upload code (Some (rv_store_code rv))) w =
  (Ok (event_of bucket tenant trace rv code key), w).
Proof.
  intros Hkey. unfold build_csv_received, pure_up, event_of, upload_id_of.
  assert (is_upload_session (derive_upload_session_id tenant (st_store_id (rv_store rv)) (rv_template_id rv)
            (sha256_hex (file_bytes (rv_parsed rv)))) = true) as -> by apply session_hex, sha256_hex_digits.
  destruct (String.eqb_spec (rv_source_id rv) "") as [Hs|Hs]; [|done].
  unfold object_of, path_of, build_object_path in Hkey. rewrite Hs in Hkey. cbn in Hkey. rewrite orb_true_r in Hkey. discriminate Hkey.
Qed.

(** Storing the file and announcing it, once everything is resolved. *)
Lemma deliver_does read tenant trace w w1 rv key r w' :
  resolves read tenant w rv -> untouched w w1 -> object_of tenant trace rv key ->
  (or_fail tenant trace GCS_WRITE_FAILED (Lib StorageError) (perform_up put_effect (store_object key (file_bytes (rv_parsed rv)))) ≫= fun _ =>
   envelope ← pure_up (build_csv_received trace tenant (st_store_id (rv_store rv)) (rv_source_id rv) (rv_template_id rv)
                         (derive_upload_session_id tenant (st_store_id (rv_store rv)) (rv_template_id rv) (sha256_hex (file_bytes (rv_parsed rv))))
                         ("gs://" +:+ bucket +:+ "/" +:+ key) now_upload (display_code_of tenant w) (Some (rv_store_code rv)));
   or_fail tenant trace PUBLISH_FAILED EventPublishError (perform_up announce_effect (announce envelope)) ≫= fun _ =>
   upload_emit (receipt_event tenant trace SUCCESS (Some (Z.of_nat (rv_row_count rv))) None) ≫= fun _ =>
   mret (result_of bucket tenant trace rv key)) w1 = (r, w') ->
  upload_does bucket tenant trace read w w' r.
Proof.
  intros Hres Hun Hkey. pose proof (honest_after _ _ _ _ _ Hun) as Hh1.
  assert (Hobj : uw_objects w1 = uw_objects w) by (destruct Hun as (_ & _ & _ & ? & _); done).
  unfold mbind at 1, upload_bind at 1.
  destruct (attempt_run put_effect (store_object key (file_bytes (rv_parsed rv))) tenant trace GCS_WRITE_FAILED (Lib StorageError) w1 _ []
              Hh1 (store_changes w1 key (file_bytes (rv_parsed rv)) Hh1)) as [(w3 & -> & Hc3)|(w3 & objs & ann & -> & Heff & Hcase & Hc3)].
  2: { intros [= <- <-]. eapply (does_not_store _ _ _ _ _ _ rv key objs); [done..|rewrite <- Hobj; naive_solver|].
       eapply untouched_changes; [exact Hun|]. assert (ann = []) as -> by naive_solver. exact Hc3. }
  rewrite Hobj in Hc3. pose proof (untouched_changes _ _ _ _ _ _ Hun Hc3) as Hc. pose proof (honest_after _ _ _ _ _ Hc) as Hh3.
  unfold mbind at 1, upload_bind at 1. rewrite (built_received _ _ _ _ _ _ Hkey).
  unfold mbind at 1, upload_bind at 1.
  destruct (attempt_run announce_effect (announce (event_of bucket tenant trace rv (display_code_of tenant w) key)) tenant trace PUBLISH_FAILED
              EventPublishError w3 _ _ Hh3 (announce_changes w3 _ Hh3)) as [(w4 & -> & Hc4)|(w4 & objs & ann & -> & Heff & Hcase & Hc4)].
  - intros [= <- <-]. pose proof (emit_changes w4 (receipt_event tenant trace SUCCESS (Some (Z.of_nat (rv_row_count rv))) None)
                                     (honest_after _ _ _ _ _ Hc4)) as Hc5.
    eapply (does_accept _ _ _ _ _ _ rv key); [done..|].
    pose proof (changes_app _ _ _ _ _ _ _ _ _ (changes_app _ _ _ _ _ _ _ _ _ Hc Hc4) Hc5) as Hall. cbn [app] in Hall.
    destruct Hc4 as (_ & _ & _ & Ho4 & _), Hc as (_ & _ & _ & Ho3 & _). rewrite Ho4, Ho3 in Hall. exact Hall.
  - intros [= <- <-]. eapply (does_not_announce _ _ _ _ _ _ rv key ann); [done..|naive_solver|].
    pose proof (changes_app _ _ _ _ _ _ _ _ _ Hc Hc4) as Hall. cbn [app] in Hall.
    assert (objs = dict_set (uw_objects w) key (file_bytes (rv_parsed rv))) as <-; [|exact Hall].
    destruct Hc as (_ & _ & _ & Ho3 & _). naive_solver congruence.
Qed.

Lemma upload_refines_process read tenant trace w r w' :
  honest (uw_engine w) -> tenant <> "" -> process_upload bucket read tenant trace w = (r, w') -> upload_does bucket tenant trace read w w' r.
Proof.
  intros Hh Hne. unfold process_upload, gated. unfold mbind at 1, upload_bind at 1.
  destruct (resolve_upload read tenant w) as [rg w1] eqn:Hg.
  destruct (resolve_upload_spec _ _ trace _ _ _ Hh Hne Hg) as [Hun1 Hres]. pose proof (honest_after _ _ _ _ _ Hun1) as Hh1.
  assert (Hobj : uw_objects w1 = uw_objects w) by (destruct Hun1 as (_ & _ & _ & ? & _); done).
  destruct rg as [rv|[step e]].
  2: { unfold gates_end in Hres. destruct (is_dis_error e) eqn:Hd.
       - intros [= <- <-]. eapply does_refuse; [done|]. eapply untouched_changes; [exact Hun1|]. rewrite <- Hobj. by apply emit_changes.
       - intros [= <- <-]. by apply does_crash. }
  cbn [gates_end] in Hres. unfold mbind at 1, upload_bind at 1. unfold get_tenant_display_code.
  rewrite mirror_read by done. assert (engine_error (uw_engine w1) = None) as He1 by (destruct Hun1 as (_ & _ & [_ ->] & _); apply Hres).
  rewrite He1. pose proof (untouched_trans _ _ _ Hun1 (marked_untouched _ He1)) as Hun.
  assert (uw_mirror w1 = uw_mirror w) as -> by (destruct Hun1 as (_ & ? & _); done).
  destruct (filter _ (mi_tenants (uw_mirror w))) as [|t [|u l]] eqn:Hf.
  3: { intros [= <- <-]. apply does_crash; [|done]. eapply crash_tenants; [done|]. rewrite Hf. cbn. lia. }
  all: unfold mbind at 1, upload_bind at 1, pure_up at 1;
    destruct (build_object_path tenant (rv_source_id rv) trace now_upload "csv") as [key|e] eqn:Hkey; cbn [ui];
    [|intros [= <- <-]; apply does_crash; [by eapply crash_path|done]]; intros Hrest; eapply deliver_does; [done..|];
    unfold display_code_of; rewrite Hf; exact Hrest.
Qed.
End Does.

Section Claim.
Context `{Codec, UploadOutside, AuthOutside, Multipart} `{!HexDigest} (bucket : string).

(** The upload as the endpoint reads it. *)
Definition reads_upload (u : upload_request) (fuel : nat) : option (ures ParsedUpload) :=
  read_csv_upload FILE_PART TEXT_PARTS CSV_UPLOAD_MAX_FILE_BYTES CSV_UPLOAD_BODY_CEILING_BYTES u fuel.

Lemma upload_csv_does r u fuel w res w' :
  honest (uw_engine w) -> upload_csv bucket r u fuel w = (Some res, w') ->
  (w' = w /\ exists e, res = Err e /\ (x ← require_tenant r; tenant_uuid_of x) = Err e) \/
  (exists identity tenant read, get_current_identity r = Ok identity /\ tenant_uuid_of identity = Ok tenant /\
     reads_upload u fuel = Some read /\ upload_does bucket tenant new_trace_id read w w' res).
Proof.
  intros Hhonest Hrun. unfold upload_csv in Hrun. destruct (x ← require_tenant r; tenant_uuid_of x) as [tenant|e] eqn:Ht.
  - right. inv_ok. unfold require_tenant in Hs. inv_ok. destruct (id_tenant_id a0) eqn:Hid; [|done]. injection Hs as <-.
    fold (reads_upload u fuel) in Hrun. destruct (reads_upload u fuel) as [read|] eqn:Hread; [|done].
    exists a0, tenant, read. do 3 (split; [done|]).
    destruct (process_upload bucket read tenant new_trace_id w) as [res1 w1] eqn:Hp. injection Hrun as <- <-.
    eapply upload_refines_process; [done| |done]. unfold tenant_uuid_of in Ht. rewrite Hid in Ht.
    destruct (py_uuid s) as [t|] eqn:Hu; [|done]. injection Ht as ->. apply py_uuid_sound in Hu. by intros ->.
  - left. injection Hrun as <- <-. eauto.
Qed.
(** C6. What an upload may do. A request without a usable tenant token changes nothing.
    Otherwise, for the tenant of the token, one trace and what the reader made of the
    body, the upload ends in one of five ways, and never touches the database:
    refused by the first gate that does not pass, with the exception and the failure
    code of that gate ([refusal] lists them), nothing stored or announced and one
    failure event emitted with that code; crashed, for one of the reasons of [crash],
    with nothing stored, announced or emitted; failed to store, when the object store
    fails, with nothing announced; stored but failed to announce, when the broker
    fails, with the message published or not; or accepted.  Whatever is stored is the
    file of the request, under the canonical path, and whatever is announced belongs
    to the tenant's ACTIVE template, to its one ACTIVE store of the code in the
    request and to that stored file.  An emitted event lands when the audit trail
    takes it: an emission that fails is dropped. *)
Theorem upload_refines r u fuel w res w'
    (Hhonest : honest (uw_engine w)) (Hrun : upload_csv bucket r u fuel w = (Some res, w')) :
  (w' = w /\ exists e, res = Err e /\ (x ← require_tenant r; tenant_uuid_of x) = Err e) \/
  (exists identity tenant read, get_current_identity r = Ok identity /\ tenant_uuid_of identity = Ok tenant /\
     read_csv_upload FILE_PART TEXT_PARTS CSV_UPLOAD_MAX_FILE_BYTES CSV_UPLOAD_BODY_CEILING_BYTES u fuel = Some read /\
     upload_does bucket tenant new_trace_id read w w' res).
Proof. exact (upload_csv_does _ _ _ _ _ _ Hhonest Hrun). Qed.
End Claim.
