(* ===== verification/UploadWorker.v ===== *)
(** UploadWorker: the message of an upload at the ingest worker, and a client that
    sends the same file twice. *)

From S2P Require Import Prelude Text Values Decimals Transform SourceMapping Polars Normalize Engine.
From S2P Require Import Canonical Provenance Enrichment HotMapping Sink Validation Paths PathTheorems.
From S2P Require Import Quarantine Consumer Subscriber Pii Worker WorkerTheorems WorkerRetries.
From S2P Require Import Rules UiErrors Access Rls TemplateGate.
From S2P Require Import Templates TemplateLife Mirror Csv UploadStream Upload UploadTheorems.
Local Open Scope nat_scope.

(** ** Locations *)

Definition not_space (c : ascii) : bool := negb (is_space c).

Lemma not_space_space c : not_space c = true -> is_space c = false.
Proof. unfold not_space. apply negb_true_iff. Qed.

Lemma str_all_join p (s : string) parts : str_all p s = true -> Forall (fun x => str_all p x = true) parts -> str_all p (str_join s parts) = true.
Proof.
  intros Hs. induction 1 as [|x parts Hx Hall IH]; [done|]. rewrite join_cons. destruct parts as [|y parts]; [done|].
  by rewrite !str_all_app, Hx, Hs, IH.
Qed.

Lemma uuid_chars t : is_uuid_text t = true -> str_all is_uuid_char t = true.
Proof.
  intros (a & b & c & d & e & -> & Ha & Hb & Hc & Hd & He)%is_uuid_parts.
  assert (forall n s, hex_group n s = true -> str_all is_uuid_char s = true) as Hg.
  { intros n s [_ Hs]%hex_group_spec. eapply str_all_impl; [|exact Hs]. intros x Hx. unfold is_uuid_char. by rewrite Hx. }
  apply str_all_join; [done|]. repeat constructor; eauto.
Qed.

Lemma uuid_char_visible c : is_uuid_char c = true -> not_space c = true.
Proof. destruct c as [[] [] [] [] [] [] [] []]; cbn; done. Qed.
Lemma source_char_visible c : is_source_char c = true -> not_space c = true.
Proof. destruct c as [[] [] [] [] [] [] [] []]; cbn; done. Qed.
Lemma digit_visible c : is_digit c = true -> not_space c = true.
Proof. destruct c as [[] [] [] [] [] [] [] []]; cbn; done. Qed.
Lemma bucket_char_visible c : is_bucket_char c = true -> not_space c = true.
Proof. destruct c as [[] [] [] [] [] [] [] []]; cbn; done. Qed.
Lemma source_char_no_slash c : is_source_char c = true -> negb (Ascii.eqb c "/") = true.
Proof. destruct c as [[] [] [] [] [] [] [] []]; cbn; done. Qed.
Lemma bucket_char_no_slash c : is_bucket_char c = true -> Ascii.eqb "/" c = false.
Proof. destruct c as [[] [] [] [] [] [] [] []]; cbn; done. Qed.

Lemma strip_visible s : str_all not_space s = true -> strip s = s.
Proof. rewrite strip_is. apply strip_chars_class. apply not_space_space. Qed.

Lemma visible_no_newline s : str_all not_space s = true -> has_char "010" s = false.
Proof.
  intros Hs. unfold has_char. apply negb_false_iff. eapply str_all_impl; [|exact Hs].
  intros c Hc. apply negb_true_iff, Ascii.eqb_neq. intros ->. discriminate Hc.
Qed.

Lemma split_at_slash a b : str_all is_bucket_char a = true -> split_at_char (Ascii.eqb "/") (a +:+ "/" +:+ b) = (a, Some b).
Proof.
  induction a as [|c a IH]; [done|]. rewrite str_all_cons, andb_true_iff. intros [Hc Ha]. rewrite str_app_cons. cbn [split_at_char].
  by rewrite (bucket_char_no_slash _ Hc), (IH Ha).
Qed.

(** The URI of a visible key in a bucket splits into them. *)
Lemma split_uri bucket key : bucket <> "" -> str_all is_bucket_char bucket = true -> key <> "" -> str_all not_space key = true ->
  split_object_uri ("gs://" +:+ bucket +:+ "/" +:+ key) = Ok (bucket, key).
Proof.
  intros Hb Hbc Hk Hkc. unfold split_object_uri. rewrite strip_visible.
  2: { rewrite !str_all_app, Hkc. assert (str_all not_space bucket = true) as -> by (eapply str_all_impl; [apply bucket_char_visible|done]). done. }
  rewrite prefix_app, str_length_app. change (String.length "gs://") with 5.
  replace (5 + String.length (bucket +:+ "/" +:+ key) - 5) with (String.length (bucket +:+ "/" +:+ key)) by lia.
  change 5 with (String.length "gs://"). rewrite substring_app, (split_at_slash _ _ Hbc).
  apply String.eqb_neq in Hb, Hk. rewrite Hb, Hk, Hbc, (visible_no_newline _ Hkc). done.
Qed.

(** A template's source: what the create request accepts. *)
Definition source_ok (source : string) : Prop := source <> "" /\ str_all is_source_char source = true.

Lemma built_visible tenant source trace ts key :
  is_uuid_text tenant = true -> is_uuid_text trace = true -> source_ok source -> (0 <= c_year (date_of ts) <= 9999)%Z ->
  build_object_path tenant source trace ts "csv" = Ok key -> key <> "" /\ str_all not_space key = true.
Proof.
  intros Ht Htr [Hs Hsc] Hy Hb. apply built_parts in Hb as (t & Hpt & _ & _ & _ & ->).
  assert (forall u, is_uuid_text u = true -> str_all not_space u = true) as Hu
    by (intros u Hu; eapply str_all_impl; [apply uuid_char_visible|by apply uuid_chars]).
  assert (str_all not_space source = true) as Hsv by (eapply str_all_impl; [apply source_char_visible|done]).
  rewrite (strip_visible trace) by auto. rewrite (strip_visible source) by done.
  rewrite (strip_visible tenant) in Hpt by auto. rewrite (py_uuid_canonical _ Ht) in Hpt. injection Hpt as <-.
  pose proof (civil_bounds (ts / US_PER_DAY)) as [Hm Hd]. fold (date_of ts) in Hm, Hd.
  destruct (pad_numeral (c_year (date_of ts)) 4) as (_ & _ & D1); [lia|lia|].
  destruct (pad_numeral (c_month (date_of ts)) 2) as (_ & _ & D2); [lia|lia|].
  destruct (pad_numeral (c_day (date_of ts)) 2) as (_ & _ & D3); [lia|lia|].
  assert (forall d, str_all is_digit d = true -> str_all not_space d = true) as Hdig by (intros d; apply str_all_impl, digit_visible).
  split; [done|]. apply str_all_join; [done|]. repeat constructor; rewrite ?str_all_app, ?(Hdig _ D1), ?(Hdig _ D2), ?(Hdig _ D3), ?Hsv; auto.
  by rewrite (Hu _ Htr).
Qed.

Lemma source_no_slash source : source_ok source -> has_char "/" (strip source) = false.
Proof.
  intros [_ Hs]. rewrite strip_visible by (eapply str_all_impl; [apply source_char_visible|done]).
  unfold has_char. apply negb_false_iff. eapply str_all_impl; [apply source_char_no_slash|done].
Qed.

(** ** The message *)

(** What pydantic documents of the types of the message: an identifier and a time
    are read back from the text they are written as. *)
Class WireLaws `{Pydantic} (isoformat : Z -> string) : Prop := {
  as_uuid_text : forall u, is_uuid_text u = true -> as_uuid (VStr u) = Some u;
  as_datetime_iso : forall t, as_datetime (VStr (isoformat t)) = Some (t, true)
}.

Lemma filter_none {A} (P : A -> Prop) `{!forall x, base.Decision (P x)} (l : list A) : (forall x, P x -> x ∈ l -> False) -> filter P l = [].
Proof.
  induction l as [|x l IH]; intros Hn; [done|]. rewrite filter_cons_False.
  - apply IH. intros y Hy Hin. apply (Hn y Hy). by right.
  - intros Hx. apply (Hn x Hx). left.
Qed.

(** The fields of an event that fit the contract. *)
Definition event_fits (ev : CsvReceivedEvent) : Prop :=
  is_uuid_text (cr_trace_id ev) = true /\ is_uuid_text (cr_tenant_id ev) = true /\ is_uuid_text (cr_store_id ev) = true /\
  is_uuid_text (cr_template_id ev) = true /\ cr_source_id ev <> "" /\ cr_gcs_uri ev <> "" /\
  is_upload_session (cr_upload_session_id ev) = true.

Lemma wire_round_trip `{Pydantic} isoformat `{!WireLaws isoformat} ev : event_fits ev -> validate_received (to_wire isoformat ev) = Ok ev.
Proof.
  destruct ev as [trace tenant store source template session uri t dcode scode]. unfold event_fits.
  cbn [cr_trace_id cr_tenant_id cr_store_id cr_source_id cr_template_id cr_upload_session_id cr_gcs_uri].
  intros (Htr & Hte & Hst & Htm & Hso & Hur & Hse). apply String.eqb_neq in Hso, Hur.
  unfold validate_received, naive_received_ts, csv_error_fields.
  assert (forall n, csv_bad_field (to_wire isoformat (mkCsvReceived trace tenant store source template session uri t dcode scode)) n = true ->
            n ∈ CSV_FIELDS -> False) as Hbad.
  { intros n Hb Hn. unfold CSV_FIELDS in Hn. rewrite !elem_of_cons in Hn.
    destruct Hn as [->|[->|[->|[->|[->|[->|[->|[->|[->|[->|[->|[->|Hn]]]]]]]]]]]]; try (by apply elem_of_nil in Hn);
      destruct dcode, scode; unfold csv_bad_field, bad_field in Hb; cbn in Hb; revert Hb;
      rewrite ?(as_uuid_text _ Htr), ?(as_uuid_text _ Hte), ?(as_uuid_text _ Hst), ?(as_uuid_text _ Htm), ?as_datetime_iso, ?Hso, ?Hur, ?Hse;
      rewrite ?bool_decide_eq_true_2 by eauto; done. }
  rewrite (filter_none _ CSV_FIELDS) by eauto.
  assert (filter (fun n => mem n CSV_FIELDS = false)
    (dict_keys (to_wire isoformat (mkCsvReceived trace tenant store source template session uri t dcode scode))) = []) as ->
    by (by destruct dcode, scode).
  destruct dcode, scode; cbn; rewrite as_datetime_iso; cbn; unfold csv_event, uuid_of; cbn;
    rewrite (as_uuid_text _ Htr), (as_uuid_text _ Hte), (as_uuid_text _ Hst), (as_uuid_text _ Htm), as_datetime_iso; done.
Qed.

(** ** An upload at the worker *)

Section AtWorker.
Context `{Codec, UploadOutside} `{!HexDigest} (bucket : string).

(** The deployment an upload runs in: a well-formed bucket, and a clock of four-digit years. *)
Record deployment : Prop := {
  dp_bucket : bucket <> "" /\ str_all is_bucket_char bucket = true;
  dp_year : (0 <= c_year (date_of now_upload) <= 9999)%Z;
  dp_trace : is_uuid_text new_trace_id = true
}.

(** The database: sources as a create request accepts them, and stores with identifiers. *)
Record database_ok (w : upload_world) : Prop := {
  db_sources : forall row, row ∈ td_rows (uw_templates w) -> source_ok (sm_source row);
  db_stores : forall row, row ∈ mi_stores (uw_mirror w) -> is_uuid_text (st_store_id row) = true
}.

Lemma resolved_store read tenant w rv : resolves read tenant w rv -> rv_store rv ∈ mi_stores (uw_mirror w).
Proof.
  intros Hr. assert (rv_store rv ∈ select_stores tenant (rv_store_code rv) (uw_mirror w)) as Hin by (rewrite (rs_store _ _ _ _ Hr); left).
  by apply list_elem_of_filter in Hin as [_ ?].
Qed.

Lemma resolved_source read tenant w rv : database_ok w -> resolves read tenant w rv -> source_ok (rv_source_id rv).
Proof. intros Hdb Hr. destruct (rs_template _ _ _ _ Hr) as (row & [(Hin & _) _] & <-). by apply Hdb. Qed.

Lemma event_of_fits read tenant w rv code key :
  deployment -> database_ok w -> is_uuid_text tenant = true -> resolves read tenant w rv ->
  event_fits (event_of bucket tenant new_trace_id rv code key).
Proof.
  intros Hd Hdb Ht Hr. destruct (resolved_source _ _ _ _ Hdb Hr) as [Hs _].
  destruct (nm_template _ _ _ _ (rs_names _ _ _ _ Hr)) as (raw & _ & Htid%py_uuid_sound).
  split_and!; [by apply Hd|done|apply Hdb; by eapply resolved_store|exact Htid|done|done|apply session_hex, sha256_hex_digits].
Qed.

(** The location of the message names its tenant, source and trace. *)
Lemma event_of_path read tenant w rv code key :
  deployment -> database_ok w -> is_uuid_text tenant = true -> resolves read tenant w rv -> object_of tenant new_trace_id rv key ->
  let ev := event_of bucket tenant new_trace_id rv code key in
  split_object_uri (cr_gcs_uri ev) = Ok (bucket, key) /\
  exists parsed, parse_object_path key = Ok parsed /\ po_tenant_id parsed = cr_tenant_id ev /\ po_source_id parsed = cr_source_id ev /\
    po_trace_id parsed = cr_trace_id ev /\ po_ext parsed = "csv".
Proof.
  intros Hd Hdb Ht Hr Hkey ev. pose proof (resolved_source _ _ _ _ Hdb Hr) as Hsrc. destruct (dp_bucket Hd) as [Hb Hbc].
  destruct (built_visible _ _ _ _ _ Ht (dp_trace Hd) Hsrc (dp_year Hd) Hkey) as [Hne Hvis].
  assert (str_all not_space new_trace_id = true) as Htv by (eapply str_all_impl; [apply uuid_char_visible|apply uuid_chars, Hd]).
  assert (str_all not_space tenant = true) as Htn by (eapply str_all_impl; [apply uuid_char_visible|by apply uuid_chars]).
  assert (str_all not_space (rv_source_id rv) = true) as Hsv by (eapply str_all_impl; [apply source_char_visible|apply Hsrc]).
  destruct (parse_build _ _ _ _ _ _ Hkey (dp_year Hd)) as (t & Hpt & Hparse); [by apply source_no_slash| |done|done|].
  { rewrite strip_visible by done. apply uuid_no_slash, Hd. }
  rewrite (strip_visible _ Htn), (py_uuid_canonical _ Ht) in Hpt. injection Hpt as <-.
  split; [by apply split_uri|].
  exists (mkParsedPath tenant (strip (rv_source_id rv)) (c_year (date_of now_upload)) (c_month (date_of now_upload))
            (c_day (date_of now_upload)) (strip new_trace_id) "csv").
  split_and!; [exact Hparse|done|by apply strip_visible|by apply strip_visible|done].
Qed.

(** The one message an upload may add, and the object it names. *)
Lemma announced_once read tenant w w' r ev :
  upload_does bucket tenant new_trace_id read w w' r -> uw_outbox w' = uw_outbox w ++ [ev] ->
  exists rv key, resolves read tenant w rv /\ object_of tenant new_trace_id rv key /\
    ev = event_of bucket tenant new_trace_id rv (display_code_of tenant w) key /\ dict_get (uw_objects w') key = Some (file_bytes (rv_parsed rv)).
Proof.
  assert (forall l : list CsvReceivedEvent, l ++ [] = l ++ [ev] -> False) as Hno.
  { intros l Hl. apply (f_equal length) in Hl. rewrite !length_app in Hl. cbn in Hl. lia. }
  intros Hd Hout. destruct Hd as [e code _ Hc|e _ Hc|rv key objects _ _ _ _ Hc|rv key ann Hr Hk _ Ha Hc|rv key Hr Hk Hc];
    destruct Hc as (_ & _ & _ & Hobj & Hann & _); rewrite Hann in Hout; try (by destruct (Hno _ Hout)).
  1: destruct Ha as [->| ->]; [by destruct (Hno _ Hout)|].
  all: apply app_inv_head in Hout; injection Hout as <-; exists rv, key; split_and!; [done..|];
    by rewrite Hobj, dict_get_set, String.eqb_refl.
Qed.

Context `{AuthOutside, Multipart}.

(** Whoever an upload acts for has a canonical identifier. *)
Lemma acting_tenant r u fuel w res w' ev :
  honest (uw_engine w) -> upload_csv bucket r u fuel w = (Some res, w') -> uw_outbox w' = uw_outbox w ++ [ev] ->
  exists identity tenant read rv key, get_current_identity r = Ok identity /\ tenant_uuid_of identity = Ok tenant /\ is_uuid_text tenant = true /\
    reads_upload u fuel = Some read /\ resolves read tenant w rv /\ object_of tenant new_trace_id rv key /\
    ev = event_of bucket tenant new_trace_id rv (display_code_of tenant w) key /\ dict_get (uw_objects w') key = Some (file_bytes (rv_parsed rv)).
Proof.
  intros Hh Hrun Hout. destruct (upload_csv_does bucket r u fuel w res w' Hh Hrun) as [[-> _]|(id & tenant & read & Hid & Ht & Hread & Hd)].
  { apply (f_equal length) in Hout. rewrite length_app in Hout. cbn in Hout. lia. }
  destruct (announced_once _ _ _ _ _ _ Hd Hout) as (rv & key & Hrest). exists id, tenant, read, rv, key. do 2 (split; [done|]).
  split; [|done]. unfold tenant_uuid_of in Ht. destruct (id_tenant_id id) as [t|]; [|done]. destruct (py_uuid t) as [t'|] eqn:Hp; [|done].
  injection Ht as <-. by eapply py_uuid_sound.
Qed.

(** A run that announces [ev] for the file [bytes]. *)
Definition uploaded (w w' : upload_world) (ev : CsvReceivedEvent) (bytes : string) : Prop :=
  honest (uw_engine w) /\ database_ok w /\
  exists r u fuel res key, upload_csv bucket r u fuel w = (Some res, w') /\ uw_outbox w' = uw_outbox w ++ [ev] /\
    split_object_uri (cr_gcs_uri ev) = Ok (bucket, key) /\ dict_get (uw_objects w') key = Some bytes.

Lemma uploaded_session w w' ev bytes : deployment -> uploaded w w' ev bytes ->
  cr_upload_session_id ev = derive_upload_session_id (cr_tenant_id ev) (cr_store_id ev) (cr_template_id ev) (sha256_hex bytes) /\
  forall O : WorkerOutside, (forall k b, dict_get (uw_objects w') k = Some b -> object_bytes k = Ok b) ->
    located bucket ev bytes /\ forall data, located bucket ev data -> data = bytes.
Proof.
  intros Hdep (Hh & Hdb & r & u & fuel & res & key & Hrun & Hout & Hsplit & Hget).
  destruct (acting_tenant _ _ _ _ _ _ _ Hh Hrun Hout) as (id & tenant & read & rv & key' & _ & _ & Ht & _ & Hr & Hk & -> & Hget').
  destruct (event_of_path read tenant w rv (display_code_of tenant w) key' Hdep Hdb Ht Hr Hk) as (Hs & parsed & Hp & H1' & H2' & H3' & H4').
  rewrite Hs in Hsplit. injection Hsplit as ->. rewrite Hget in Hget'. injection Hget' as ->. split; [done|].
  intros O Hobj. split; [by exists key, parsed; auto 10|].
  intros data (k & p & Hs' & _ & _ & _ & _ & _ & Hd). rewrite Hs in Hs'. injection Hs' as <-. rewrite (Hobj _ _ Hget) in Hd. congruence.
Qed.

(** C21. What an upload announces the ingest worker can take: whether or not the upload
    was reported as a success, the message it published is for the tenant of the token,
    passes the worker's contract check and reads back as it was built, and the worker's
    path check accepts its location, under which the object store holds, byte for byte,
    the file part of the request; and that file passed the structural gate. *)
Theorem uploaded_message_ingestable `{Pydantic} isoformat `{!WireLaws isoformat} r u fuel w res w' ev
    (Hhonest : honest (uw_engine w)) (Hdeployed : deployment) (Hdb : database_ok w)
    (Hrun : upload_csv bucket r u fuel w = (Some res, w')) (Hout : uw_outbox w' = uw_outbox w ++ [ev]) :
  validate_received (to_wire isoformat ev) = Ok ev /\
  (exists identity, get_current_identity r = Ok identity /\ tenant_uuid_of identity = Ok (cr_tenant_id ev)) /\
  exists parsed key,
    read_csv_upload FILE_PART TEXT_PARTS CSV_UPLOAD_MAX_FILE_BYTES CSV_UPLOAD_BODY_CEILING_BYTES u fuel = Some (Ok parsed) /\
    dict_get (uw_objects w') key = Some (file_bytes parsed) /\ is_ok (run_tier0 (file_bytes parsed)) = true /\
    forall (O : WorkerOutside) s, check_path bucket ev s = (Ok key, s).
Proof.
  destruct (acting_tenant _ _ _ _ _ _ _ Hhonest Hrun Hout) as (id & tenant & read & rv & key & Hid & Htid & Ht & Hread & Hr & Hk & -> & Hget).
  split; [by eapply wire_round_trip, event_of_fits|]. split; [by exists id|]. exists (rv_parsed rv), key.
  destruct (rs_names _ _ _ _ Hr) as [Hok _ _]. split; [by rewrite <- Hok|]. split; [done|].
  split; [by rewrite (rs_rows _ _ _ _ Hr)|]. intros O s.
  destruct (event_of_path read tenant w rv (display_code_of tenant w) key Hdeployed Hdb Ht Hr Hk) as (Hs & parsed & Hp & ? & ? & ? & ?).
  unfold check_path, mbind, worker_bind, pure_res. rewrite Hs, Hp. by rewrite check_pairs_equal by (repeat constructor; done).
Qed.
End AtWorker.

Section Twice.
Context `{Codec, AuthOutside, Multipart} `{!HexDigest} (bucket : string) (pii_backend : bool).
Context (U1 U2 : UploadOutside) (O1 O2 : WorkerOutside) `{!LatestLaws O1, !LatestLaws O2}.

(** A client that sends the same file twice is served once: when two requests upload
    the same bytes for the same tenant, store and template, in two requests with
    their own traces, times and locations, and the worker has concluded the first
    one, then its delivery of the second within the window returns the trace and
    the bronze id of the first and changes neither the bronze table nor the topic. *)
Theorem retried_upload_absorbed w1 w1' ev1 w2 w2' ev2 bytes s outcome s1
    (Hdep1 : @deployment U1 bucket) (Hdep2 : @deployment U2 bucket)
    (Hup1 : @uploaded _ U1 bucket _ _ w1 w1' ev1 bytes) (Hup2 : @uploaded _ U2 bucket _ _ w2 w2' ev2 bytes)
    (Htenant : cr_tenant_id ev2 = cr_tenant_id ev1) (Hstore : cr_store_id ev2 = cr_store_id ev1)
    (Htemplate : cr_template_id ev2 = cr_template_id ev1)
    (Hobjects1 : forall k b, dict_get (uw_objects w1') k = Some b -> @object_bytes O1 k = Ok b)
    (Hobjects2 : forall k b, dict_get (uw_objects w2') k = Some b -> @object_bytes O2 k = Ok b)
    (Hlater : later_in_window O1 O2)
    (Hfirst : @ingest _ O1 bucket pii_backend ev1 s = (Ok outcome, s1))
    (Hnew : in_disposition outcome = ingested \/ in_disposition outcome = preflight_failed) :
  exists s2, @ingest _ O2 bucket pii_backend ev2 s1 =
      (Ok (mkIngest duplicate_noop (in_trace_id outcome) (in_bronze_id outcome)), s2) /\ core s2 = core s1.
Proof.
  destruct (@uploaded_session _ U1 _ bucket _ _ _ _ _ _ Hdep1 Hup1) as [Hs1 Hloc1].
  destruct (@uploaded_session _ U2 _ bucket _ _ _ _ _ _ Hdep2 Hup2) as [Hs2 Hloc2].
  eapply (absorbed_as O1 O2 bucket pii_backend ev1 ev2); [exact Hlater| | |exact Hfirst|exact Hnew].
  - split; [done|]. by rewrite Hs1, Hs2, Htenant, Hstore, Htemplate.
  - intros data Hd. rewrite (proj2 (Hloc1 O1 Hobjects1) data Hd). apply (Hloc2 O2 Hobjects2).
Qed.
End Twice.
