(* ===== verification/UploadSample.v ===== *)
(** UploadSample: uploads on a concrete deployment, and the theorems of
    UploadTheorems and UploadWorker applied there. *)

From S2P Require Import Prelude Text Values Decimals Transform SourceMapping Polars Normalize Engine.
From S2P Require Import Canonical Provenance Enrichment HotMapping Sink Validation Paths PathTheorems.
From S2P Require Import Quarantine Consumer Subscriber Pii Worker WorkerTheorems WorkerRetries.
From S2P Require Import Rules UiErrors Access Rls TemplateGate GateTheorems.
From S2P Require Import Templates TemplateLife TemplateTheorems TenantTheorems TenantSample.
From S2P Require Import Mirror Csv UploadStream UploadForm UploadLimits Upload UploadTheorems UploadWorker.
Import SampleForm.
Local Open Scope nat_scope.

(** A digest of 64 hexadecimal digits: the length of the text. *)
Definition hex_codec : Codec := {|
  orjson_dumps := fun _ => "";
  sha256_hex := fun s => String.string_of_list_ascii (hex_fixed 64 (Z.of_nat (String.length s)))
|}.

#[local] Instance hex_codec_digest : @HexDigest hex_codec.
Proof.
  intros s. unfold hex_group. destruct (hex_fixed_lower 64 (Z.of_nat (String.length s))) as [Hall Hlen].
  cbn [sha256_hex hex_codec]. rewrite <- chars_length, string_chars, Hlen. cbn [Nat.eqb andb]. apply chars_all. by rewrite string_chars.
Qed.

Definition trace_1 : uuid := "eeeeeeee-0000-7000-8000-000000000001".
Definition trace_2 : uuid := "eeeeeeee-0000-7000-8000-000000000002".

Definition upload_outside (trace : uuid) (now : Z) (put announced : Effect) : UploadOutside := {|
  new_trace_id := trace;
  now_upload := now;
  put_effect := put;
  announce_effect := announced;
  upload_audit_lands ev := true
|}.

Definition newline : string := String "010" "".
Definition csv_file : string := "sku,qty" +:+ newline +:+ "A1,4" +:+ newline.

Definition csv_request : upload_request := mkUpload (Some sample_type) None
  (stream_of ["template_id=" +:+ template_1; "store_code=S1"; "file=" +:+ csv_file]).

Definition shop (tenant id : uuid) (name status : string) : StoreRow :=
  mkStoreRow (mkCmStore id tenant name (Some "S1") status "DE" "Europe/Berlin" "EUR" "INCLUSIVE" 1 2 None) 3.
Definition store_1 : StoreRow := shop tenant_a "ffffffff-0000-0000-0000-000000000005" "Shop" "ACTIVE".

Definition upload_start : upload_world := mkUploadWorld good_engine (mkTemplates [live_row] 2 [tenant_a; tenant_b])
  (mkMirror [store_1; shop tenant_b "ffffffff-0000-0000-0000-000000000006" "Other" "CLOSED"]
     [mkTenantRow (mkCmTenant tenant_a "Acme" (Some "ACME") "ACTIVE" 1 2 None None) 3]) [] [] [].

Abbreviation run_upload U w := (@upload_csv hex_codec U "bronze" sample_auth sample_multipart (bearer "a") csv_request 9 w).

(** The 21st of January 2026. *)
Definition first_time : Z := 1769000000000000.
Definition first_upload : UploadOutside := upload_outside trace_1 first_time Done Done.
Definition second_upload : UploadOutside := upload_outside trace_2 (first_time + 60000000) Done Done.

Definition after_upload : upload_world := (run_upload first_upload upload_start).2.
Definition after_second : upload_world := (run_upload second_upload after_upload).2.

(** An accepted upload, and a publish that fails. *)
Example upload_accepted :
  (exists r, (run_upload first_upload upload_start).1 = Some (Ok r) /\ ur_row_count r = 1) /\
  length (uw_objects after_upload) = 1 /\ map cr_store_code (uw_outbox after_upload) = [Some "S1"] /\
  map au_outcome (uw_audit after_upload) = [SUCCESS].
Proof. split_and!; [eexists; split|..]; vm_compute; reflexivity. Qed.

Example upload_orphaned :
  let r := run_upload (upload_outside trace_1 first_time Done (Failed (OtherError "unreachable"))) upload_start in
  r.1 = Some (Err EventPublishError) /\ length (uw_objects r.2) = 1 /\ uw_outbox r.2 = [] /\
  map au_failure_code (uw_audit r.2) = [Some PUBLISH_FAILED].
Proof. split_and!; vm_compute; reflexivity. Qed.

(** Refusals name their gate: no template, no store of the code, a closed store. *)
Definition no_templates : upload_world := mkUploadWorld good_engine (mkTemplates [] 2 [tenant_a; tenant_b]) (uw_mirror upload_start) [] [] [].
Definition with_stores (stores : list StoreRow) : upload_world :=
  mkUploadWorld good_engine (uw_templates upload_start) (mkMirror stores (mi_tenants (uw_mirror upload_start))) [] [] [].

Example refusals_are_named :
  (run_upload first_upload no_templates).1 = Some (Err (ResourceNotFoundError "mapping_template" template_1)) /\
  map au_failure_code (uw_audit (run_upload first_upload no_templates).2) = [Some TEMPLATE_NOT_FOUND] /\
  (run_upload first_upload (with_stores [])).1 = Some (Err (ResourceNotFoundError "store" "S1")) /\
  map au_failure_code (uw_audit (run_upload first_upload (with_stores [])).2) = [Some STORE_NOT_FOUND] /\
  map au_failure_code (uw_audit (run_upload first_upload (with_stores [shop tenant_a (st_store_id store_1) "Shop" "CLOSED"])).2) = [Some STORE_NOT_ACTIVE].
Proof. split_and!; vm_compute; reflexivity. Qed.

Definition event_1 : CsvReceivedEvent := default (WorkerTheorems.upload_event "t1") (head (uw_outbox after_upload)).
Definition event_2 : CsvReceivedEvent := default (WorkerTheorems.upload_event "t1") (last (uw_outbox after_second)).

Lemma good_honest w : w = upload_start \/ w = after_upload -> honest (uw_engine w).
Proof. intros [->| ->]; intros _; vm_compute; reflexivity. Qed.

Lemma sample_database w : td_rows (uw_templates w) = [live_row] -> mi_stores (uw_mirror w) = mi_stores (uw_mirror upload_start) -> database_ok w.
Proof.
  intros Hrows Hstores. split.
  - intros row. rewrite Hrows. intros ->%list_elem_of_singleton. split; [discriminate|reflexivity].
  - intros row. rewrite Hstores. cbn. rewrite !elem_of_cons. intros [->|[->|[]%elem_of_nil]]; reflexivity.
Qed.

Lemma sample_deployment trace now : is_uuid_text trace = true -> (0 <= c_year (date_of now) <= 9999)%Z ->
  @deployment (upload_outside trace now Done Done) "bronze".
Proof. intros Ht Hy. split; [split; [discriminate|reflexivity]|exact Hy|exact Ht]. Qed.

Lemma deployed_1 : @deployment first_upload "bronze".
Proof. apply sample_deployment; [reflexivity|]. vm_compute. split; discriminate. Qed.
Lemma deployed_2 : @deployment second_upload "bronze".
Proof. apply sample_deployment; [reflexivity|]. vm_compute. split; discriminate. Qed.

Lemma start_database : database_ok upload_start.
Proof. apply sample_database; reflexivity. Qed.
Lemma after_database : database_ok after_upload.
Proof. apply sample_database; vm_compute; reflexivity. Qed.

(** What a run computes, without computing it in the proofs. *)
Lemma run_some U w : is_Some (run_upload U w).1 -> exists res, run_upload U w = (Some res, (run_upload U w).2).
Proof. destruct (run_upload U w) as [[res|] w']; intros [x Hx]; [by exists res|discriminate Hx]. Qed.

Lemma first_runs : exists res, run_upload first_upload upload_start = (Some res, after_upload).
Proof. apply run_some. vm_compute. eexists. reflexivity. Qed.
Lemma second_runs : exists res, run_upload second_upload after_upload = (Some res, after_second).
Proof. apply run_some. vm_compute. eexists. reflexivity. Qed.

Lemma upload_refines_witness :
  exists res, run_upload first_upload upload_start = (Some res, after_upload) /\
  ((after_upload = upload_start /\ exists e, res = Err e /\ (x ← @require_tenant sample_auth (bearer "a"); tenant_uuid_of x) = Err e) \/
   exists identity tenant read, @get_current_identity sample_auth (bearer "a") = Ok identity /\ tenant_uuid_of identity = Ok tenant /\
     @read_csv_upload sample_multipart FILE_PART TEXT_PARTS CSV_UPLOAD_MAX_FILE_BYTES CSV_UPLOAD_BODY_CEILING_BYTES csv_request 9 = Some read /\
     @upload_does hex_codec first_upload "bronze" tenant trace_1 read upload_start after_upload res).
Proof.
  destruct first_runs as [res Hrun]. exists res. split; [exact Hrun|]. pose proof (good_honest _ (or_introl eq_refl)) as Hh.
  revert Hrun Hh. generalize after_upload, upload_start. intros w' w Hrun Hh.
  exact (@upload_refines hex_codec first_upload sample_auth sample_multipart _ "bronze" (bearer "a") csv_request 9 w res w' Hh Hrun).
Defined.

(** ** Reading the message *)

(** Times as signed numbers of microseconds. *)
Definition sample_iso (t : Z) : string := String (if (t <? 0)%Z then "-" else "+") (pretty (Z.abs_N t)).

Definition sample_pydantic : Pydantic := {|
  json_loads := fun _ => None;
  as_uuid := fun v => match v with VStr u => if is_uuid_text u then Some u else None | _ => None end;
  as_datetime := fun v =>
    match v with
    | VStr (String "-" s) => (fun n => ((- n)%Z, true)) <$> read_digits 0 s
    | VStr (String "+" s) => (fun n => (n, true)) <$> read_digits 0 s
    | _ => None
    end;
  as_bool := fun _ => None
|}.

Lemma read_pretty (x : N) : read_digits 0 (pretty x) = Some (Z.of_N x).
Proof.
  unfold pretty, pretty_N. destruct (decide (x = 0%N)) as [->|Hx]; [reflexivity|]. by rewrite read_pretty_go.
Qed.

#[local] Instance sample_wire : @WireLaws sample_pydantic sample_iso.
Proof.
  split.
  - intros u Hu. cbn. by rewrite Hu.
  - intros t. cbn [as_datetime sample_pydantic]. unfold sample_iso. destruct (Z.ltb_spec t 0); rewrite read_pretty; cbn; do 2 f_equal; lia.
Qed.

Lemma outbox_1 : uw_outbox after_upload = uw_outbox upload_start ++ [event_1].
Proof. vm_compute. reflexivity. Qed.
Lemma outbox_2 : uw_outbox after_second = uw_outbox after_upload ++ [event_2].
Proof. vm_compute. reflexivity. Qed.

Lemma uploaded_message_ingestable_witness :
  @validate_received sample_pydantic (to_wire sample_iso event_1) = Ok event_1 /\
  (exists identity, @get_current_identity sample_auth (bearer "a") = Ok identity /\ tenant_uuid_of identity = Ok (cr_tenant_id event_1)) /\
  exists parsed key,
    @read_csv_upload sample_multipart FILE_PART TEXT_PARTS CSV_UPLOAD_MAX_FILE_BYTES CSV_UPLOAD_BODY_CEILING_BYTES csv_request 9 = Some (Ok parsed) /\
    dict_get (uw_objects after_upload) key = Some (file_bytes parsed) /\ is_ok (run_tier0 (file_bytes parsed)) = true /\
    forall (O : WorkerOutside) s, check_path "bronze" event_1 s = (Ok key, s).
Proof.
  destruct first_runs as [res Hrun]. pose proof (good_honest _ (or_introl eq_refl)) as Hh. pose proof start_database as Hdb.
  pose proof outbox_1 as Hout. revert Hrun Hh Hdb Hout. generalize event_1, after_upload, upload_start. intros ev w' w Hrun Hh Hdb Hout.
  exact (@uploaded_message_ingestable hex_codec first_upload _ "bronze" sample_auth sample_multipart sample_pydantic sample_iso _
    (bearer "a") csv_request 9 w res w' ev Hh deployed_1 Hdb Hrun Hout).
Defined.

(** ** The same file again *)

(** A worker that reads the stored objects. *)
Definition reading_worker (w : upload_world) (lookup received : Z) : WorkerOutside := {|
  object_bytes key := match dict_get (uw_objects w) key with Some b => Ok b | None => Err StorageError end;
  sniff_csv data := Some (Some (",", true, [("sku", "VARCHAR"); ("qty", "BIGINT")]));
  read_csv_count data := Some (Some 1%Z);
  new_uuid7 := "b-1";
  now_lookup := lookup;
  now_received := received;
  now_published := received;
  latest := latest_of;
  lookup_fails := None;
  insert_effect := Done;
  publish_effect := Done;
  mark_effect := Done;
  worker_audit_lands ev := true
|}.

#[local] Instance reading_worker_laws w lookup received : LatestLaws (reading_worker w lookup received).
Proof. split; [done|apply latest_of_spec]. Qed.

Lemma reading_worker_reads w lookup received k b :
  dict_get (uw_objects w) k = Some b -> @object_bytes (reading_worker w lookup received) k = Ok b.
Proof. cbn. by intros ->. Qed.

Definition key_of (ev : CsvReceivedEvent) : string := match split_object_uri (cr_gcs_uri ev) with Ok (_, k) => k | Err _ => "" end.

Lemma uploaded_1 : @uploaded hex_codec first_upload "bronze" sample_auth sample_multipart upload_start after_upload event_1 csv_file.
Proof.
  split; [exact (good_honest _ (or_introl eq_refl))|]. split; [exact start_database|]. destruct first_runs as [res Hrun].
  exists (bearer "a"), csv_request, 9, res, (key_of event_1). split; [exact Hrun|]. split; [exact outbox_1|].
  split; vm_compute; reflexivity.
Qed.

Lemma uploaded_2 : @uploaded hex_codec second_upload "bronze" sample_auth sample_multipart after_upload after_second event_2 csv_file.
Proof.
  split; [exact (good_honest _ (or_intror eq_refl))|]. split; [exact after_database|]. destruct second_runs as [res Hrun].
  exists (bearer "a"), csv_request, 9, res, (key_of event_2). split; [exact Hrun|]. split; [exact outbox_2|].
  split; vm_compute; reflexivity.
Qed.

Definition worker_1 : WorkerOutside := reading_worker after_upload 1000 1001.
Definition worker_2 : WorkerOutside := reading_worker after_second 2000 2001.
Definition ingested_1 : res IngestOutcome * worker_state := @ingest hex_codec worker_1 "bronze" false event_1 no_rows.

Lemma first_ingested : ingested_1 = (Ok (mkIngest ingested trace_1 (Some "b-1")), ingested_1.2).
Proof. vm_compute. reflexivity. Qed.

Lemma retried_upload_absorbed_witness :
  exists s2, @ingest hex_codec worker_2 "bronze" false event_2 ingested_1.2 = (Ok (mkIngest duplicate_noop trace_1 (Some "b-1")), s2) /\
    core s2 = core ingested_1.2.
Proof.
  apply (@retried_upload_absorbed hex_codec sample_auth sample_multipart _ "bronze" false first_upload second_upload worker_1 worker_2 _ _
    upload_start after_upload event_1 after_upload after_second event_2 csv_file no_rows (mkIngest ingested trace_1 (Some "b-1")) ingested_1.2).
  - exact deployed_1.
  - exact deployed_2.
  - exact uploaded_1.
  - exact uploaded_2.
  - vm_compute. reflexivity.
  - vm_compute. reflexivity.
  - vm_compute. reflexivity.
  - exact (reading_worker_reads after_upload 1000 1001).
  - exact (reading_worker_reads after_second 2000 2001).
  - split; [reflexivity|discriminate|]. vm_compute. discriminate.
  - exact first_ingested.
  - left. reflexivity.
Defined.
