(* ===== verification/MirrorTheorems.v ===== *)
(** MirrorTheorems: what a pass makes of the mirror. *)

From S2P Require Import Prelude Text Values Transform Provenance UiErrors Rls Mirror.

(** ** Tables as maps *)

Section Lookup.
Context {R K : Type} `{EqDecision K} (key : R -> K).

(** The row of a key. *)
Definition row_of (k : K) (rows : list R) : option R := List.find (fun r => bool_decide (key r = k)) rows.

Lemma row_of_cons k r rows : row_of k (r :: rows) = if decide (key r = k) then Some r else row_of k rows.
Proof. unfold row_of. cbn. case_bool_decide; by case_decide. Qed.

Lemma row_of_Some k rows r : row_of k rows = Some r -> r ∈ rows /\ key r = k.
Proof.
  induction rows as [|r' rows IH]; [done|]. rewrite row_of_cons. case_decide as Hk; [intros [= ->]; split; [left|done]|].
  intros Hr. destruct (IH Hr). split; [by right|done].
Qed.

Lemma row_of_None k rows : row_of k rows = None <-> k ∉ map key rows.
Proof.
  induction rows as [|r rows IH]; [split; [intros _; apply not_elem_of_nil|done]|]. rewrite row_of_cons. cbn [map]. rewrite not_elem_of_cons.
  case_decide as Hk; [split; [done|by intros [Hn _]]|]. rewrite IH. naive_solver.
Qed.

Context (differs : R -> bool) (new : R) (same : R -> bool) (Hsame : forall r, same r = bool_decide (key r = key new)).

Definition copied (old : option R) : R := match old with Some r => if differs r then new else r | None => new end.

(** An upsert replaces the row of its key, and nothing else. *)
Lemma upsert_row k rows : row_of k (upsert same differs new rows).2 =
  if decide (k = key new) then Some (copied (row_of k rows)) else row_of k rows.
Proof.
  induction rows as [|r rows IH]; cbn [upsert].
  - cbn [snd]. rewrite row_of_cons. cbn. repeat case_decide; naive_solver.
  - rewrite Hsame. case_bool_decide as Hk.
    + destruct (differs r) eqn:Hd; cbn [snd]; rewrite !row_of_cons.
      * repeat case_decide; try congruence. cbn. by rewrite Hd.
      * repeat case_decide; try congruence. cbn. by rewrite Hd.
    + destruct (upsert same differs new rows) as [o rows']. cbn [snd] in *. rewrite !row_of_cons, IH. repeat case_decide; congruence.
Qed.

Lemma upsert_copied {C} (copy : R -> C) rows : (forall r, key r = key new -> differs r = false -> copy r = copy new) ->
  copy <$> row_of (key new) (upsert same differs new rows).2 = Some (copy new).
Proof.
  intros Hc. rewrite upsert_row, decide_True by done. cbn. f_equal. unfold copied.
  destruct (row_of (key new) rows) as [r|] eqn:Hr; [|done]. destruct (differs r) eqn:Hd; [done|].
  apply row_of_Some in Hr as [_ Hr]. by apply Hc.
Qed.

Lemma upsert_others k rows : k <> key new -> row_of k (upsert same differs new rows).2 = row_of k rows.
Proof. intros Hk. by rewrite upsert_row, decide_False. Qed.

Lemma upsert_keys rows o rows' : upsert same differs new rows = (o, rows') ->
  if decide (o = inserted) then map key rows' = map key rows ++ [key new] /\ key new ∉ map key rows
  else map key rows' = map key rows /\ key new ∈ map key rows.
Proof.
  revert o rows'. induction rows as [|r rows IH]; intros o rows'; cbn [upsert].
  - intros [= <- <-]. case_decide; [|done]. split; [done|apply not_elem_of_nil].
  - rewrite Hsame. case_bool_decide as Hk.
    + destruct (differs r); intros [= <- <-]; (case_decide; [done|]); cbn; rewrite Hk; (split; [done|left]).
    + destruct (upsert same differs new rows) as [o1 rows1] eqn:Hu. intros [= <- <-]. specialize (IH _ _ eq_refl).
      case_decide; destruct IH as [He Hin]; cbn [map]; rewrite He; (split; [done|]).
      * apply not_elem_of_cons. done.
      * by right.
Qed.

(** Rows with the key of another row. *)
Lemma upsert_elem rows r : r ∈ (upsert same differs new rows).2 -> r = new \/ r ∈ rows.
Proof.
  induction rows as [|r' rows IH]; cbn [upsert]; [intros ->%list_elem_of_singleton; by left|]. destruct (same r').
  - destruct (differs r'); cbn [snd]; [|by right]. rewrite !elem_of_cons. naive_solver.
  - destruct (upsert same differs new rows) as [o rows']. cbn [snd] in *. rewrite !elem_of_cons. naive_solver.
Qed.

(** A row that is already as it should be leaves the table as it is. *)
Lemma upsert_unchanged rows r : row_of (key new) rows = Some r -> differs r = false -> upsert same differs new rows = (unchanged, rows).
Proof.
  intros Hr Hd. induction rows as [|r' rows IH]; [done|]. cbn [upsert]. rewrite row_of_cons in Hr. rewrite Hsame.
  case_decide as Hk; case_bool_decide; try done.
  - injection Hr as ->. by rewrite Hd.
  - by rewrite (IH Hr).
Qed.
End Lookup.

(** ** The two upserts *)

Definition tenant_row (id : uuid) (m : mirror) : option TenantRow := row_of tn_tenant_id id (mi_tenants m).
Definition st_key (r : StoreRow) : uuid * uuid := (st_tenant_id r, st_store_id r).
Definition store_row (k : uuid * uuid) (m : mirror) : option StoreRow := row_of st_key k (mi_stores m).
Definition cs_key (s : CmStore) : uuid * uuid := (cs_tenant_id s, cs_store_id s).

Lemma differ_false {A} `{EqDecision A} (x y : A) : differ x y = false -> x = y.
Proof. unfold differ. rewrite negb_false_iff. apply bool_decide_eq_true. Qed.

Lemma differ_refl {A} `{EqDecision A} (x : A) : differ x x = false.
Proof. unfold differ. by rewrite bool_decide_eq_true_2. Qed.

Lemma tenant_distinct_false old new : ct_tenant_id old = ct_tenant_id new -> tenant_distinct old new = false <-> old = new.
Proof.
  intros Hid. split; [|intros ->; unfold tenant_distinct; by rewrite !differ_refl].
  unfold tenant_distinct. rewrite !orb_false_iff. intros Hd. destruct_and! Hd.
  destruct old, new; cbn in *. repeat match goal with H : differ _ _ = false |- _ => apply differ_false in H end. congruence.
Qed.

Lemma store_distinct_false old new : cs_key old = cs_key new -> store_distinct old new = false <-> old = new.
Proof.
  intros Hid. split; [|intros ->; unfold store_distinct; by rewrite !differ_refl].
  unfold store_distinct. rewrite !orb_false_iff. intros Hd. destruct_and! Hd.
  destruct old, new; cbn in *. injection Hid as <- <-.
  repeat match goal with H : differ _ _ = false |- _ => apply differ_false in H end. congruence.
Qed.

Lemma tenant_values_id t v : tenant_values t = Some v -> ct_tenant_id v = ct_tenant_id t /\ mem (ct_status v) TENANT_STATUSES = true.
Proof.
  unfold tenant_values. destruct (fit 200 (ct_name t)) as [n|]; [|discriminate]. cbn [mbind option_bind].
  destruct (mem (ct_status t) TENANT_STATUSES) eqn:Hm; [|discriminate]. by intros [= <-].
Qed.

Lemma store_values_id s v : store_values s = Some v ->
  cs_key v = cs_key s /\ mem (cs_status v) STORE_STATUSES = true /\ mem (cs_tax_treatment v) TAX_TREATMENTS = true.
Proof.
  unfold store_values. destruct (fit 200 (cs_name s)) as [n|]; [|discriminate].
  destruct (fill 3 (cs_currency s)) as [c|]; [|discriminate]. cbn [mbind option_bind].
  destruct (mem (cs_status s) STORE_STATUSES) eqn:Hm; [|discriminate].
  destruct (mem (cs_tax_treatment s) TAX_TREATMENTS) eqn:Ht; [|discriminate]. cbn [andb]. by intros [= <-].
Qed.

(** ** What was written *)

(** The constraints of the two tables. *)
Record mirror_ok (m : mirror) : Prop := {
  ok_tenant_ids : NoDup (map tn_tenant_id (mi_tenants m));
  ok_store_ids : NoDup (map st_store_id (mi_stores m));
  ok_parents : forall r, r ∈ mi_stores m -> st_tenant_id r ∈ map tn_tenant_id (mi_tenants m);
  ok_tenant_status : forall r, r ∈ mi_tenants m -> mem (ct_status (tn_copy r)) TENANT_STATUSES = true;
  ok_store_status : forall r, r ∈ mi_stores m -> mem (st_status r) STORE_STATUSES = true;
  ok_store_tax : forall r, r ∈ mi_stores m -> mem (cs_tax_treatment (st_copy r)) TAX_TREATMENTS = true
}.

(** The rows of [ts] and [ss] were copied, the others were left as they were. *)
Record wrote (ts : list CmTenant) (ss : list CmStore) (m m' : mirror) : Prop := {
  wr_tenants : forall t, t ∈ ts -> exists v, tenant_values t = Some v /\ tn_copy <$> tenant_row (ct_tenant_id t) m' = Some v;
  wr_stores : forall s, s ∈ ss -> exists v, store_values s = Some v /\ st_copy <$> store_row (cs_key s) m' = Some v;
  wr_other_tenants : forall id, id ∉ map ct_tenant_id ts -> tenant_row id m' = tenant_row id m;
  wr_other_stores : forall k, k ∉ map cs_key ss -> store_row k m' = store_row k m;
  wr_ok : mirror_ok m -> mirror_ok m'
}.

Lemma wrote_nothing m : wrote [] [] m m.
Proof. split; try done; intros x Hx; by apply not_elem_of_nil in Hx. Qed.

Lemma wrote_app ts1 ss1 ts2 ss2 m m1 m2 : wrote ts1 ss1 m m1 -> wrote ts2 ss2 m1 m2 ->
  (forall t, t ∈ ts1 -> ct_tenant_id t ∉ map ct_tenant_id ts2) -> (forall s, s ∈ ss1 -> cs_key s ∉ map cs_key ss2) ->
  wrote (ts1 ++ ts2) (ss1 ++ ss2) m m2.
Proof.
  intros [T1 S1 OT1 OS1 K1] [T2 S2 OT2 OS2 K2] Ht Hs. split.
  - intros t [Hin|Hin]%elem_of_app; [|by apply T2]. rewrite OT2 by auto. by apply T1.
  - intros s [Hin|Hin]%elem_of_app; [|by apply S2]. rewrite OS2 by auto. by apply S1.
  - intros id. rewrite map_app, not_elem_of_app. intros [H1 H2]. by rewrite OT2, OT1.
  - intros k. rewrite map_app, not_elem_of_app. intros [H1 H2]. by rewrite OS2, OS1.
  - auto.
Qed.

Lemma wrote_same ts ss ss' m m' : wrote ts ss m m' -> (forall s, s ∈ ss <-> s ∈ ss') -> wrote ts ss' m m'.
Proof.
  intros [T S OT OS K] He. split; [done| |done| |done].
  - intros s Hs. apply S. by apply He.
  - intros k Hk. apply OS. intros (s & -> & Hs)%list_elem_of_fmap. apply Hk. apply list_elem_of_fmap. exists s. split; [done|by apply He].
Qed.

Lemma key_eqb t now r : String.eqb (tn_tenant_id r) (ct_tenant_id t) = bool_decide (tn_tenant_id r = tn_tenant_id (mkTenantRow t now)).
Proof. cbn. destruct (String.eqb_spec (tn_tenant_id r) (ct_tenant_id t)); symmetry; [by apply bool_decide_eq_true|by apply bool_decide_eq_false]. Qed.

Lemma store_key_eqb s now r : store_key s r = bool_decide (st_key r = st_key (mkStoreRow s now)).
Proof.
  unfold store_key, st_key. cbn. destruct (String.eqb_spec (st_tenant_id r) (cs_tenant_id s)), (String.eqb_spec (st_store_id r) (cs_store_id s)); symmetry; cbn;
    (apply bool_decide_eq_true || apply bool_decide_eq_false); unfold st_tenant_id, st_store_id in *; cbn; congruence.
Qed.

(** ** The statements *)

Lemma NoDup_snoc_fresh {A} (xs : list A) x : NoDup xs -> x ∉ xs -> NoDup (xs ++ [x]).
Proof. intros Hn Hx. apply NoDup_app. split_and!; [done| |apply NoDup_singleton]. by intros y Hy ->%list_elem_of_singleton. Qed.

Lemma tenant_upsert_wrote now t m o m' : tenant_upsert now t m = Some (o, m') -> wrote [t] [] m m'.
Proof.
  unfold tenant_upsert. destruct (tenant_values t) as [v|] eqn:Hv; [|discriminate]. cbn [mbind option_bind].
  destruct (tenant_values_id _ _ Hv) as [Hid Hst].
  destruct (upsert _ _ _ (mi_tenants m)) as [o1 rows] eqn:Hu. intros [= <- <-].
  pose proof (upsert_keys tn_tenant_id _ (mkTenantRow v now) _ (key_eqb v now) _ _ _ Hu) as Hkeys.
  apply (f_equal snd) in Hu. cbn [snd] in Hu. split; cbn [mi_tenants mi_stores].
  - intros t' ->%list_elem_of_singleton. exists v. split; [done|]. unfold tenant_row. cbn [mi_tenants]. rewrite <- Hu, <- Hid.
    apply (upsert_copied tn_tenant_id _ (mkTenantRow v now) _ (key_eqb v now) tn_copy). intros r Hr Hd.
    by apply tenant_distinct_false.
  - intros s Hs. by apply not_elem_of_nil in Hs.
  - intros id Hn. unfold tenant_row. cbn [mi_tenants]. rewrite <- Hu. apply (upsert_others tn_tenant_id _ (mkTenantRow v now) _ (key_eqb v now)).
    intros ->. apply Hn. unfold tn_tenant_id. cbn. rewrite Hid. left.
  - done.
  - intros [Hnd Hst1 Hp Ht Hs Hx]. split; cbn [mi_tenants mi_stores]; try done.
    + case_decide; destruct Hkeys as [-> Hin]; [by apply NoDup_snoc_fresh|done].
    + intros r Hr. case_decide; destruct Hkeys as [-> Hin]; [apply elem_of_app; left|]; by apply Hp.
    + intros r Hr. rewrite <- Hu in Hr. destruct (upsert_elem _ _ _ _ _ Hr) as [->|Hin]; [done|by apply Ht].
Qed.

Lemma existsb_none {A} (p : A -> bool) xs : existsb p xs = false -> forall x, x ∈ xs -> p x = false.
Proof. intros He x Hx. destruct (p x) eqn:Hp; [|done]. rewrite <- He. symmetry. apply existsb_exists. exists x. by split; [apply list_elem_of_In|]. Qed.

Lemma existsb_some {A} (p : A -> bool) xs : existsb p xs = true -> exists x, x ∈ xs /\ p x = true.
Proof. intros (x & Hx & Hp)%existsb_exists. exists x. by split; [apply list_elem_of_In|]. Qed.

Lemma store_ids_keys rows rows' : map st_key rows' = map st_key rows -> map st_store_id rows' = map st_store_id rows.
Proof. intros He. apply (f_equal (map snd)) in He. by rewrite !map_map in He. Qed.

Lemma store_upsert_wrote now s m o m' : store_upsert now s m = Some (o, m') -> wrote [] [s] m m'.
Proof.
  unfold store_upsert. destruct (store_values s) as [v|] eqn:Hv; [|discriminate]. cbn [mbind option_bind].
  destruct (store_values_id _ _ Hv) as (Hid & Hst & Htax).
  destruct (upsert _ _ _ (mi_stores m)) as [o1 rows] eqn:Hu.
  pose proof (upsert_keys st_key _ (mkStoreRow v now) _ (store_key_eqb v now) _ _ _ Hu) as Hkeys.
  destruct (_ && _) eqn:Hc; [discriminate|]. intros [= <- <-].
  apply (f_equal snd) in Hu. cbn [snd] in Hu. split; cbn [mi_tenants mi_stores].
  - intros t Ht. by apply not_elem_of_nil in Ht.
  - intros s' ->%list_elem_of_singleton. exists v. split; [done|]. unfold store_row. cbn [mi_stores]. rewrite <- Hu, <- Hid.
    apply (upsert_copied st_key _ (mkStoreRow v now) _ (store_key_eqb v now) st_copy). intros r Hr Hd. by apply store_distinct_false.
  - done.
  - intros k Hn. unfold store_row. cbn [mi_stores]. rewrite <- Hu. apply (upsert_others st_key _ (mkStoreRow v now) _ (store_key_eqb v now)).
    intros ->. apply Hn. cbn. rewrite <- Hid. left.
  - intros [Hnd Hst1 Hp Ht Hs Hx].
    assert (forall r, r ∈ rows -> r = mkStoreRow v now \/ r ∈ mi_stores m) as Hel.
    { intros r Hr. rewrite <- Hu in Hr. by eapply upsert_elem. }
    split; cbn [mi_tenants mi_stores]; try done.
    + case_decide as Ho; destruct Hkeys as [Hk Hin]; [|by rewrite (store_ids_keys _ _ Hk)].
      rewrite bool_decide_eq_true_2 in Hc by done. cbn [andb] in Hc. apply orb_false_iff in Hc as [Hfree _].
      apply (f_equal (map snd)) in Hk. rewrite map_app, !map_map in Hk. cbn in Hk. change (map st_store_id rows = map st_store_id (mi_stores m) ++ [cs_store_id v]) in Hk.
      rewrite Hk. apply NoDup_snoc_fresh; [done|]. intros (r & Hr & Hrin)%list_elem_of_fmap.
      pose proof (existsb_none _ _ Hfree _ Hrin) as Hne. cbn in Hne. rewrite <- Hr, String.eqb_refl in Hne. done.
    + intros r Hr. destruct (Hel r Hr) as [->|Hin]; [|by apply Hp].
      case_decide as Ho; destruct Hkeys as [Hk Hin].
      * rewrite bool_decide_eq_true_2 in Hc by done. cbn [andb] in Hc. apply orb_false_iff in Hc as [_ Hpar].
        apply negb_false_iff in Hpar. apply existsb_some in Hpar as (p & Hpin & Heq). apply String.eqb_eq in Heq.
        apply list_elem_of_fmap. by exists p.
      * apply list_elem_of_fmap in Hin as (r' & Hr' & Hin). injection Hr' as Hr1 _. rewrite Hr1. by apply Hp.
    + intros r Hr. destruct (Hel r Hr) as [->|Hin]; [done|by apply Hs].
    + intros r Hr. destruct (Hel r Hr) as [->|Hin]; [done|by apply Hx].
Qed.

(** ** A transaction *)

Definition stores_of_all (done : list CmTenant) (stores : list CmStore) : list CmStore :=
  filter (fun s => cs_tenant_id s ∈ map ct_tenant_id done) stores.

(** The errors a write ends a pass with. *)
Definition sync_error (e : ui_exn) : Prop := e = Lib RlsContextError \/ exists what, e = DatabaseError what.

Lemma guarded_errors {A} g (body : @txn mirror A) s e s' : verified_transaction undo_mirror g body s = (Err e, s') ->
  (forall se m e' m', body se m = (Err e', m') -> sync_error e') -> sync_error e.
Proof.
  destruct s as [en m]. unfold verified_transaction. intros Hv Hb. destruct (en_reachable en); cbn [negb] in Hv.
  2: { injection Hv as <- _. right. by eexists. }
  destruct (if en_verified en then _ else _) as [u|e1] eqn:Hp.
  - destruct (body _ m) as [[a|e2] m2] eqn:Hbody; [done|]. injection Hv as <- _. by eapply Hb.
  - injection Hv as <- _. left. destruct (en_verified en); [done|]. revert Hp. unfold check_posture, raise_if.
    destruct (negb _); [by intros [= <-]|]. cbn. by destruct (_ || _); intros [= <-].
Qed.

Section Passes.
Context `{SyncOutside}.

Lemma statement_ok {A} i j (r : option (A * mirror)) m a m' : statement i j r m = (Ok a, m') -> r = Some (a, m').
Proof. unfold statement. destruct (statement_fails i j); [done|]. destruct r as [[a1 m1]|]; [|done]. by intros [= <- <-]. Qed.

Lemma statement_err {A} i j (r : option (A * mirror)) m e m' : statement i j r m = (Err e, m') -> sync_error e.
Proof.
  unfold statement. intros Hs. right. exists "sync". destruct (statement_fails i j); [by injection Hs as <- _|].
  destruct r as [[a1 m1]|]; [done|]. by injection Hs as <- _.
Qed.

Lemma write_stores_wrote i ss : forall j c m c' m', NoDup (map cs_key ss) ->
  write_stores i j ss c m = (Ok c', m') -> wrote [] ss m m'.
Proof.
  induction ss as [|s ss IH]; intros j c m c' m' Hn; cbn [write_stores].
  - intros [= <- <-]. apply wrote_nothing.
  - apply NoDup_cons in Hn as [Hs Hn]. destruct (statement i j _ m) as [[o|e] m1] eqn:Hst; [|done].
    apply statement_ok, store_upsert_wrote in Hst. intros Hrest. apply (IH _ _ _ _ _ Hn) in Hrest.
    apply (wrote_app [] [s] [] ss _ _ _ Hst Hrest); [intros t Ht; by apply not_elem_of_nil in Ht|].
    by intros s' ->%list_elem_of_singleton.
Qed.

Lemma write_stores_err i ss : forall j c m e m', write_stores i j ss c m = (Err e, m') -> sync_error e.
Proof.
  induction ss as [|s ss IH]; intros j c m e m'; cbn [write_stores]; [done|].
  destruct (statement i j _ m) as [[o|e1] m1] eqn:Hst; [apply IH|]. intros [= <- <-]. by eapply statement_err.
Qed.

Lemma write_tenant_wrote i t ss se m c m' : NoDup (map cs_key ss) -> write_tenant i t ss se m = (Ok c, m') -> wrote [t] ss m m'.
Proof.
  intros Hn. unfold write_tenant. destruct (statement i 0 _ m) as [[o|e] m1] eqn:Hst; [|done].
  apply statement_ok, tenant_upsert_wrote in Hst.
  destruct (write_stores i 1 ss no_counts m1) as [[c1|e] m2] eqn:Hw; [|done]. intros [= <- <-].
  apply write_stores_wrote in Hw; [|done]. apply (wrote_app [t] [] [] ss _ _ _ Hst Hw).
  - intros t' _. apply not_elem_of_nil.
  - intros s Hs. by apply not_elem_of_nil in Hs.
Qed.

Lemma write_tenant_err i t ss se m e m' : write_tenant i t ss se m = (Err e, m') -> sync_error e.
Proof.
  unfold write_tenant. destruct (statement i 0 _ m) as [[o|e1] m1] eqn:Hst.
  - destruct (write_stores i 1 ss no_counts m1) as [[c1|e2] m2] eqn:Hw; [done|]. intros [= <- <-]. by eapply write_stores_err.
  - intros [= <- <-]. by eapply statement_err.
Qed.

Lemma NoDup_stores_of id stores : NoDup (map cs_key stores) -> NoDup (map cs_key (stores_of id stores)).
Proof. intros Hn. eapply sublist_NoDup; [exact Hn|]. apply (fmap_sublist cs_key), sublist_filter. Qed.

Lemma stores_of_tenant id stores s : s ∈ stores_of id stores <-> s ∈ stores /\ cs_tenant_id s = id.
Proof. unfold stores_of. rewrite list_elem_of_filter, String.eqb_eq. naive_solver. Qed.

Lemma all_stores_cons t done stores s :
  s ∈ stores_of (ct_tenant_id t) stores ++ stores_of_all done stores <-> s ∈ stores_of_all (t :: done) stores.
Proof. unfold stores_of_all. rewrite elem_of_app, stores_of_tenant, !list_elem_of_filter. cbn. rewrite elem_of_cons. naive_solver. Qed.

Lemma all_stores_nil stores s : s ∈ ([] : list CmStore) <-> s ∈ stores_of_all [] stores.
Proof. unfold stores_of_all. rewrite list_elem_of_filter. split; [by intros ?%not_elem_of_nil|by intros [?%not_elem_of_nil _]]. Qed.

(** One more tenant, in a transaction of its own. *)
Lemma wrote_tenant_first t done stores m m1 m2 : ct_tenant_id t ∉ map ct_tenant_id done ->
  wrote [t] (stores_of (ct_tenant_id t) stores) m m1 -> wrote done (stores_of_all done stores) m1 m2 ->
  wrote (t :: done) (stores_of_all (t :: done) stores) m m2.
Proof.
  intros Ht H1 H2. eapply wrote_same; [eapply (wrote_app [t] _ done _ _ _ _ H1 H2)|apply all_stores_cons].
  - by intros t' ->%list_elem_of_singleton.
  - intros s [_ Hid]%stores_of_tenant (s' & Hk & [Hin _]%list_elem_of_filter)%list_elem_of_fmap.
    injection Hk as Hk _. rewrite Hid in Hk. by rewrite <- Hk in Hin.
Qed.

Lemma prefix_not_in {A B} (f : A -> B) x done xs : x ∉ map f xs -> done `prefix_of` xs -> x ∉ map f done.
Proof. intros Hx [rest ->]. rewrite map_app, not_elem_of_app in Hx. tauto. Qed.

(** The tenants of a pass up to some point were copied with their stores. *)
Lemma write_tenants_wrote stores : NoDup (map cs_key stores) -> forall tenants i en m r en' m',
  honest en -> NoDup (map ct_tenant_id tenants) -> write_tenants i tenants stores (en, m) = (r, (en', m')) ->
  exists done, done `prefix_of` tenants /\ wrote done (stores_of_all done stores) m m' /\
    match r with Ok _ => done = tenants | Err e => sync_error e end.
Proof.
  intros Hs tenants. induction tenants as [|t tenants IH]; intros i en m r en' m' Hh Hn; cbn [write_tenants].
  - intros [= <- <- <-]. exists []. split_and!; [done| |done]. eapply wrote_same; [apply wrote_nothing|apply all_stores_nil].
  - apply NoDup_cons in Hn as [Ht Hn]. unfold mbind, action_bind.
    destruct (rls_session undo_mirror _ _ (en, m)) as [[c|e] [en1 m1]] eqn:Htx.
    + destruct (transaction_runs _ _ _ _ _ _ _ _ Hh Htx) as [Hh1 [(e & [=] & _)|(p & r1 & m2 & _ & Hb & <- & ->)]].
      apply write_tenant_wrote in Hb; [|by apply NoDup_stores_of].
      destruct (write_tenants (S i) tenants stores (en1, m2)) as [r2 [en2 m3]] eqn:Hrest.
      destruct (IH _ _ _ _ _ _ Hh1 Hn Hrest) as (done & Hpre & Hw & Hend). intros Heq. exists (t :: done).
      split_and!; [by apply prefix_cons| |].
      * apply (wrote_tenant_first _ _ _ _ m2); [by eapply prefix_not_in|done|]. by destruct r2; injection Heq as <- <- <-.
      * destruct r2; injection Heq as <- <- <-; [by rewrite Hend|done].
    + intros [= <- <- <-]. exists []. split_and!; [apply prefix_nil| |].
      * destruct (transaction_runs _ _ _ _ _ _ _ _ Hh Htx) as [_ [(e' & _ & ->)|(p & r1 & m2 & _ & _ & <- & ->)]];
          (eapply wrote_same; [apply wrote_nothing|apply all_stores_nil]).
      * eapply guarded_errors; [exact Htx|]. intros se m2 e' m3. apply write_tenant_err.
Qed.
End Passes.

(** ** A second pass *)

Lemma tenant_upsert_again now t v m : tenant_values t = Some v -> tn_copy <$> tenant_row (ct_tenant_id t) m = Some v ->
  tenant_upsert now t m = Some (unchanged, m).
Proof.
  intros Hv (r & Hr & Hc)%fmap_Some. unfold tenant_upsert. rewrite Hv. cbn [mbind option_bind].
  destruct (tenant_values_id _ _ Hv) as [Hid _].
  rewrite (upsert_unchanged tn_tenant_id _ (mkTenantRow v now) _ (key_eqb v now) (mi_tenants m) r).
  - by destruct m.
  - unfold tn_tenant_id at 2. cbn. by rewrite Hid.
  - by apply tenant_distinct_false; rewrite <- Hc.
Qed.

Lemma store_upsert_again now s v m : store_values s = Some v -> st_copy <$> store_row (cs_key s) m = Some v ->
  store_upsert now s m = Some (unchanged, m).
Proof.
  intros Hv (r & Hr & Hc)%fmap_Some. unfold store_upsert. rewrite Hv. cbn [mbind option_bind].
  destruct (store_values_id _ _ Hv) as [Hid _].
  rewrite (upsert_unchanged st_key _ (mkStoreRow v now) _ (store_key_eqb v now) (mi_stores m) r).
  - by destruct m.
  - change (row_of st_key (cs_key v) (mi_stores m) = Some r). by rewrite Hid.
  - by apply store_distinct_false; rewrite <- Hc.
Qed.

(** An engine after a transaction that committed. *)
Definition ready (en : engine) : Prop := en_reachable en = true /\ en_verified en = true.

Section Again.
Context `{SyncOutside} (Hnofail : forall i j, statement_fails i j = false).

Lemma write_stores_again i m ss : (forall s, s ∈ ss -> exists v, store_values s = Some v /\ st_copy <$> store_row (cs_key s) m = Some v) ->
  forall j c, exists c', write_stores i j ss c m = (Ok c', m).
Proof.
  induction ss as [|s ss IH]; intros Hss j c; cbn [write_stores]; [by eexists|].
  destruct (Hss s) as (v & Hv & Hc); [left|]. unfold statement. rewrite Hnofail, (store_upsert_again _ _ _ _ Hv Hc).
  apply IH. intros s' Hs'. apply Hss. by right.
Qed.

Lemma write_tenants_again en m ts : ready en -> forall ss, wrote ts (stores_of_all ts ss) m m ->
  forall i, exists c, write_tenants i ts ss (en, m) = (Ok c, (en, m)).
Proof.
  intros [Hr Hv] ss [T S _ _ _].
  assert (forall t, t ∈ ts -> forall i se, exists c, write_tenant i t (stores_of (ct_tenant_id t) ss) se m = (Ok c, m)) as Hone.
  { intros t Ht i se. destruct (T t Ht) as (v & Hvt & Hc). unfold write_tenant, statement.
    rewrite Hnofail, (tenant_upsert_again _ _ _ _ Hvt Hc). cbv beta iota.
    destruct (write_stores_again i m (stores_of (ct_tenant_id t) ss)) with (j := 1%nat) (c := no_counts) as [c' ->]; [|by eexists].
    intros s [Hs Hid]%stores_of_tenant. apply S. apply list_elem_of_filter. split; [|done]. rewrite Hid. by apply list_elem_of_fmap_2. }
  clear T S. induction ts as [|t ts IH]; intros i; cbn [write_tenants]; [by eexists|].
  unfold mbind, action_bind, rls_session, verified_transaction. rewrite Hr, Hv. cbn [negb].
  destruct (Hone t) with (i := i) (se := mkSession (en_posture en) (mkGuc "TENANT" (ct_tenant_id t))) as [c ->]; [left|].
  assert (mkEngine true (en_posture en) true = en) as -> by (destruct en; cbn in *; congruence).
  destruct (IH (fun t' Ht' => Hone t' (list_elem_of_further _ _ _ Ht')) (S i)) as [more ->]. by eexists.
Qed.
End Again.

Lemma wrote_settled ts ss m m' : wrote ts ss m m' -> wrote ts ss m' m'.
Proof. by intros [T S _ _ _]. Qed.

Lemma pass_leaves_ready `{SyncOutside} stores ts : forall i en m c en' m', write_tenants i ts stores (en, m) = (Ok c, (en', m')) -> ts = [] \/ ready en'.
Proof.
  induction ts as [|t ts IH]; intros i en m c en' m'; [by left|]. right. revert H0. cbn [write_tenants]. unfold mbind, action_bind.
  destruct (rls_session undo_mirror _ _ (en, m)) as [[c1|e] [en1 m1]] eqn:Htx; [|done].
  destruct (write_tenants (S i) ts stores (en1, m1)) as [[more|e] [en2 m2]] eqn:Hrest; [|done]. intros [= _ <- _].
  destruct (IH _ _ _ _ _ _ Hrest) as [->|Hr]; [|done]. injection Hrest as _ <- _. revert Htx.
  unfold rls_session, verified_transaction. destruct (en_reachable en); [|done]. cbn [negb].
  destruct (if en_verified en then _ else _); [|done]. destruct (write_tenant _ _ _ _ _) as [[]]; [|done]. by intros [= _ <- _].
Qed.

(** ** The counts *)

Lemma seen_record o c : seen (record_outcome o c) = S (seen c).
Proof. destruct o; unfold seen; cbn; lia. Qed.

Lemma seen_add a b : seen (add_counts a b) = (seen a + seen b)%nat.
Proof. unfold seen, add_counts. cbn. lia. Qed.

Section Counts.
Context `{SyncOutside}.

Lemma write_stores_seen i ss : forall j c m c' m', write_stores i j ss c m = (Ok c', m') -> seen c' = (seen c + length ss)%nat.
Proof.
  induction ss as [|s ss IH]; intros j c m c' m'; cbn [write_stores length]; [intros [= -> ->]; lia|].
  destruct (statement i j _ m) as [[o|e] m1]; [|done]. intros ->%IH. rewrite seen_record. lia.
Qed.

Lemma write_tenant_seen i t ss se m c m' : write_tenant i t ss se m = (Ok c, m') ->
  seen (tsc_tenants c) = 1%nat /\ seen (tsc_stores c) = length ss.
Proof.
  unfold write_tenant. destruct (statement i 0 _ m) as [[o|e] m1]; [|done].
  destruct (write_stores i 1 ss no_counts m1) as [[c1|e] m2] eqn:Hw; [|done]. intros [= <- <-]. cbn. rewrite seen_record.
  by rewrite (write_stores_seen _ _ _ _ _ _ _ Hw).
Qed.

Definition total (f : TenantSyncCounts -> nat) (cs : list TenantSyncCounts) : nat := sum_list_with f cs.

Lemma totals_sums r : seen (totals r).1 = total (fun c => seen (tsc_tenants c)) (per_tenant r) /\
  seen (totals r).2 = total (fun c => seen (tsc_stores c)) (per_tenant r).
Proof.
  unfold totals. destruct r as [cs k]. cbn [per_tenant].
  assert (forall a b, let p := fold_left (fun '(t, s) pt => (add_counts t (tsc_tenants pt), add_counts s (tsc_stores pt))) cs (a, b) in
    seen p.1 = (seen a + total (fun c => seen (tsc_tenants c)) cs)%nat /\ seen p.2 = (seen b + total (fun c => seen (tsc_stores c)) cs)%nat) as Hg.
  { unfold total. induction cs as [|c cs IH]; intros a b; cbn [fold_left sum_list_with]; [cbn; lia|].
    destruct (IH (add_counts a (tsc_tenants c)) (add_counts b (tsc_stores c))) as [-> ->]. rewrite !seen_add. lia. }
  apply (Hg no_counts no_counts).
Qed.

Lemma write_tenants_seen stores ts : forall i en m cs en' m', honest en -> write_tenants i ts stores (en, m) = (Ok cs, (en', m')) ->
  total (fun c => seen (tsc_tenants c)) cs = length ts /\
  total (fun c => seen (tsc_stores c)) cs = sum_list_with (fun t => length (stores_of (ct_tenant_id t) stores)) ts.
Proof.
  induction ts as [|t ts IH]; intros i en m cs en' m' Hh; cbn [write_tenants]; [by intros [= <- <- <-]|]. unfold mbind, action_bind.
  destruct (rls_session undo_mirror _ _ (en, m)) as [[c|e] [en1 m1]] eqn:Htx; [|done].
  destruct (transaction_runs _ _ _ _ _ _ _ _ Hh Htx) as [Hh1 [(e & [=] & _)|(p & r1 & m2 & _ & Hb & <- & ->)]].
  destruct (write_tenant_seen _ _ _ _ _ _ _ Hb) as [H1 H2].
  destruct (write_tenants (S i) ts stores (en1, m2)) as [[more|e] [en2 m3]] eqn:Hrest; [|done].
  destruct (IH _ _ _ _ _ _ Hh1 Hrest) as [H3 H4]. intros [= <- <- <-]. unfold total in *. cbn [sum_list_with length]. lia.
Qed.

(** Each store belongs to one tenant of the list, or to none. *)
Lemma stores_partition stores ts : NoDup (map ct_tenant_id ts) ->
  (sum_list_with (fun t => length (stores_of (ct_tenant_id t) stores)) ts +
   length (filter (fun s => mem (cs_tenant_id s) (map ct_tenant_id ts) = false) stores) = length stores)%nat.
Proof.
  intros Hn. induction stores as [|s stores IH].
  - cbn. rewrite Nat.add_0_r. clear Hn. induction ts as [|t ts IH]; cbn; [done|]. exact IH.
  - rewrite filter_cons. cbn [length].
    assert (sum_list_with (fun t => length (stores_of (ct_tenant_id t) (s :: stores))) ts =
      sum_list_with (fun t => length (stores_of (ct_tenant_id t) stores)) ts + if mem (cs_tenant_id s) (map ct_tenant_id ts) then 1 else 0)%nat as ->.
    { clear IH. induction ts as [|t ts IHt]; [done|]. cbn [map] in Hn. apply NoDup_cons in Hn as [Ht Hn]. cbn [map sum_list_with]. rewrite (IHt Hn).
      unfold stores_of at 1. rewrite filter_cons. fold (stores_of (ct_tenant_id t) stores). unfold mem. cbn [existsb].
      destruct (String.eqb_spec (cs_tenant_id s) (ct_tenant_id t)) as [He|He]; case_decide; try done; cbn [length orb].
      - rewrite He. apply mem_false in Ht. unfold mem in Ht. rewrite Ht. cbn. lia.
      - lia. }
    destruct (mem _ _); case_decide; try done; cbn [length]; lia.
Qed.

(** A successful pass counts every tenant once, and every store once or as skipped. *)
Lemma counts_complete tenants stores en m r s' : honest en -> NoDup (map ct_tenant_id tenants) ->
  upsert_identity tenants stores (en, m) = (Ok r, s') ->
  seen (totals r).1 = length tenants /\ (seen (totals r).2 + skipped_stores r = length stores)%nat.
Proof.
  intros Hh Hn. unfold upsert_identity, mbind, action_bind.
  destruct (write_tenants 0 tenants stores (en, m)) as [[cs|e] [en' m']] eqn:Hw; [|done]. intros [= <- <-].
  destruct (write_tenants_seen _ _ _ _ _ _ _ _ Hh Hw) as [H1 H2].
  destruct (totals_sums (mkSyncResult cs (length (filter (fun s => mem (cs_tenant_id s) (map ct_tenant_id tenants) = false) stores)))) as [-> ->].
  cbn [per_tenant skipped_stores]. rewrite H1, H2. split; [done|]. by apply stores_partition.
Qed.
End Counts.

(** ** The pass *)

Lemma read_allowed cm cfg r : read_customer_master cm cfg = Ok r ->
  r = (cm_tenants cm, cm_stores cm) /\ cm_user_type cm = Some "PLATFORM" /\ cm_database cm <> cfg_dis_db_name cfg.
Proof.
  unfold read_customer_master, assert_cm_target, assert_platform_context. intros Hr. inv_ok.
  split_and!; [done| |].
  - match goal with H : negb (bool_decide _) = false |- _ => by apply negb_false_iff, bool_decide_eq_true in H end.
  - match goal with H : (_ =? cfg_dis_db_name _)%string = false |- _ => by apply String.eqb_neq in H end.
Qed.

Lemma config_dis_name env cfg : config_from_env env = Some cfg -> cfg_dis_db_name cfg = DIS_DB_NAME.
Proof. unfold config_from_env. destruct (dict_get env "CM_DB_URL"), (dict_get env "POSTGRES_URL"); try done. by destruct (_ || _); intros [= <-]. Qed.

Definition exit_of (r : ures (list TenantSyncCounts)) : option exit_code :=
  match r with
  | Ok _ => Some EXIT_OK
  | Err (Lib RlsContextError) => Some EXIT_TARGET
  | Err (DatabaseError _) => Some EXIT_WRITE
  | Err _ => None
  end.

(** A pass either fails before it writes, or ends as its loop over the tenants does. *)
Lemma run_sync_cases `{SyncOutside} env cm s code s' : run_sync env cm s = (code, s') ->
  (s' = s /\ (code = Some EXIT_CONFIG \/ code = Some EXIT_CM_READ \/ code = Some EXIT_CM_UNREACHABLE)) \/
  (cm_user_type cm = Some "PLATFORM" /\ cm_database cm <> DIS_DB_NAME /\
   exists r, write_tenants 0 (cm_tenants cm) (cm_stores cm) s = (r, s') /\ code = exit_of r).
Proof.
  unfold run_sync. destruct (config_from_env env) as [cfg|] eqn:Hcfg; [|intros [= <- <-]; by auto].
  destruct (read_customer_master cm cfg) as [[ts ss]|[]] eqn:Hread; [|intros [= <- <-]; by auto..].
  destruct (read_allowed _ _ _ Hread) as ([= -> ->] & Hut & Hdb). rewrite (config_dis_name _ _ Hcfg) in Hdb.
  intros Hrun. right. split_and!; [done..|].
  destruct (cm_tenants cm) as [|t ts].
  - injection Hrun as <- <-. by exists (Ok []).
  - unfold upsert_identity, mbind, action_bind in Hrun. destruct (write_tenants 0 (t :: ts) (cm_stores cm) s) as [r s1]. exists r.
    destruct r as [c|e]; [by injection Hrun as <- <-|]. destruct e; [case_match|..]; by injection Hrun as <- <-.
Qed.

(** C22. A pass of the mirror sync copies a prefix of Customer Master's tenants, each
    with all of its stores: those rows hold the columns of Customer Master, every other row of
    the mirror is as it was (its time of copying included), nothing is deleted, and the
    keys, the parents and the vocabularies of the tables hold after it.  The prefix is all
    tenants exactly when the pass reports success, so a tenant is never half copied,
    wherever the database fails.  Once its engines are built and the rows it reads fit
    their models, the pass ends with an exit code whatever the databases do, and nothing
    is written from the DIS database itself or without the platform setting. *)
Theorem sync_copies_prefix `{SyncOutside} env cm en m code en' m' :
  honest en -> NoDup (map ct_tenant_id (cm_tenants cm)) -> NoDup (map cs_key (cm_stores cm)) ->
  run_sync env cm (en, m) = (code, (en', m')) ->
  code <> None /\
  (code = Some EXIT_OK \/ m' <> m -> cm_user_type cm = Some "PLATFORM" /\ cm_database cm <> DIS_DB_NAME) /\
  exists done, done `prefix_of` cm_tenants cm /\
    wrote done (stores_of_all done (cm_stores cm)) m m' /\ (code = Some EXIT_OK -> done = cm_tenants cm).
Proof.
  intros Hh Ht Hs Hrun. destruct (run_sync_cases _ _ _ _ _ Hrun) as [([= -> ->] & Hcode)|(Hut & Hdb & r & Hw & ->)].
  - split_and!; [naive_solver..|]. exists []. split_and!; [apply prefix_nil| |naive_solver].
    eapply wrote_same; [apply wrote_nothing|apply all_stores_nil].
  - destruct (write_tenants_wrote _ Hs _ _ _ _ _ _ _ Hh Ht Hw) as (done & Hpre & Hwr & Hend). split_and!.
    + destruct r as [c|e]; [done|]. by destruct Hend as [->|[what ->]].
    + done.
    + exists done. split_and!; [done..|]. destruct r as [c|e]; [done|]. by destruct Hend as [->|[what ->]].
Qed.

(** C23. Once a pass has succeeded, another pass over the same Customer Master, at any
    time, succeeds and leaves the mirror exactly as it is, the times of copying included. *)
Theorem sync_again_changes_nothing (o1 o2 : SyncOutside) env cm en m en' m' :
  honest en -> NoDup (map ct_tenant_id (cm_tenants cm)) -> NoDup (map cs_key (cm_stores cm)) ->
  (forall i j, @statement_fails o2 i j = false) ->
  @run_sync o1 env cm (en, m) = (Some EXIT_OK, (en', m')) ->
  @run_sync o2 env cm (en', m') = (Some EXIT_OK, (en', m')).
Proof.
  intros Hh Ht Hs Hnf Hrun. pose proof Hrun as Hrun1.
  apply run_sync_cases in Hrun as [(_ & [[=]|[[=]|[=]]])|(_ & _ & r & Hw & Hok)].
  destruct (write_tenants_wrote _ Hs _ _ _ _ _ _ _ Hh Ht Hw) as (done & _ & Hwr & Hend).
  destruct r as [c|e]; [|by destruct Hend as [->|[what ->]]]. subst done.
  destruct (@run_sync o2 env cm (en', m')) as [code2 s2] eqn:Hrun2.
  revert Hrun1 Hrun2. unfold run_sync. destruct (config_from_env env) as [cfg|]; [|done].
  destruct (read_customer_master cm cfg) as [[ts ss]|[]] eqn:Hread; [|done..]. destruct (read_allowed _ _ _ Hread) as ([= -> ->] & _).
  destruct (pass_leaves_ready _ _ _ _ _ _ _ _ Hw) as [Hnil|Hready]; [rewrite Hnil; by intros _ [= <- <-]|].
  destruct (write_tenants_again Hnf _ _ _ Hready _ (wrote_settled _ _ _ _ Hwr) 0%nat) as [c2 Hw2].
  destruct (cm_tenants cm) as [|t ts]; [by intros _ [= <- <-]|]. intros _. unfold upsert_identity, mbind, action_bind.
  rewrite Hw2. by intros [= <- <-].
Qed.

(** ** A pass on samples *)

Module SyncSample.
Definition env : dict string := [("CM_DB_URL", "postgresql://cm"); ("POSTGRES_URL", "postgresql://dis")].
Definition acme : CmTenant := mkCmTenant "t1" "Acme" (Some "ACME") "ACTIVE" 1 5 None None.
Definition bolt : CmTenant := mkCmTenant "t2" "Bolt" None "TRIAL" 2 6 None None.
Definition shop (id tenant code : string) : CmStore :=
  mkCmStore id tenant "Shop" (Some code) "ACTIVE" "IN" "Asia/Kolkata" "INR" "INCLUSIVE" 1 5 None.
Definition master : customer_master :=
  mkCustomerMaster true "ithina_platform_db" (Some "PLATFORM") true [acme; bolt] [shop "s1" "t1" "A1"; shop "s2" "t2" "B1"; shop "s3" "t1" "A2"].
Definition writer : engine := mkEngine true (mkPosture "ithina_dis_db" "ithina_dis_user" false false) false.
Definition old_mirror : mirror := mkMirror [] [mkTenantRow (mkCmTenant "t1" "Acme Ltd" None "TRIAL" 1 1 None None) 10].

(** The store of the second tenant fails; and nothing fails, later. *)
Definition failing : SyncOutside := {| sync_now i := (100 + Z.of_nat i)%Z; statement_fails i j := (i =? 1)%nat && (j =? 1)%nat |}.
Definition calm (start : Z) : SyncOutside := {| sync_now i := (start + Z.of_nat i)%Z; statement_fails _ _ := false |}.

Abbreviation pass o := (@run_sync o env master (writer, old_mirror)).

Lemma writer_honest : honest writer.
Proof. by intros [=]. Qed.

Lemma master_ids : NoDup (map ct_tenant_id (cm_tenants master)) /\ NoDup (map cs_key (cm_stores master)).
Proof. split; apply (bool_decide_unpack _); vm_compute; exact I. Qed.
End SyncSample.

Lemma sync_copies_prefix_witness :
  (SyncSample.pass SyncSample.failing).1 = Some EXIT_WRITE /\
  exists done, done `prefix_of` [SyncSample.acme; SyncSample.bolt] /\
    wrote done (stores_of_all done (cm_stores SyncSample.master)) SyncSample.old_mirror (SyncSample.pass SyncSample.failing).2.2.
Proof.
  split; [vm_compute; reflexivity|]. destruct (SyncSample.pass SyncSample.failing) as [code [en' m']] eqn:Hrun.
  destruct (@sync_copies_prefix SyncSample.failing _ _ _ _ _ _ _ SyncSample.writer_honest (proj1 SyncSample.master_ids) (proj2 SyncSample.master_ids) Hrun)
    as (_ & _ & done & Hpre & Hwr & _).
  exists done. split; [exact Hpre|exact Hwr].
Defined.

Lemma sync_again_changes_nothing_witness : exists en' m',
  SyncSample.pass (SyncSample.calm 100) = (Some EXIT_OK, (en', m')) /\ m' <> SyncSample.old_mirror /\
  @run_sync (SyncSample.calm 500) SyncSample.env SyncSample.master (en', m') = (Some EXIT_OK, (en', m')).
Proof.
  destruct (SyncSample.pass (SyncSample.calm 100)) as [code [en' m']] eqn:Hrun. exists en', m'.
  assert (code = Some EXIT_OK /\ m' <> SyncSample.old_mirror) as [-> Hne].
  { vm_compute in Hrun. injection Hrun as <- _ <-. split; [reflexivity|discriminate]. }
  split; [reflexivity|]. split; [exact Hne|].
  apply (sync_again_changes_nothing (SyncSample.calm 100) (SyncSample.calm 500) SyncSample.env SyncSample.master SyncSample.writer SyncSample.old_mirror
           en' m' SyncSample.writer_honest (proj1 SyncSample.master_ids) (proj2 SyncSample.master_ids) (fun _ _ => eq_refl) Hrun).
Defined.
