(* ===== verification/Console.v ===== *)
(** Console: the quarantine console (dis-ui-server [handlers/quarantine.py],
    [repos/quarantine.py], [schemas/quarantine.py]) over the two tables of held items
    ([models/quarantined_row.py], [models/quarantined_chunk.py]).

    A request is an action on the engine and the tables.  The scope dependency is
    resolved first, then the query parameters are checked, then the handler runs. *)

From S2P Require Import Prelude Text Values Transform Decimals Paths UiErrors Access Rls.

(** ** The tables *)

(** A held item as the console reads it; a row has a mapping version, a chunk may not. *)
Record HeldItem := mkHeldItem {
  hi_id : uuid;
  hi_tenant_id : uuid;
  hi_trace_id : uuid;
  hi_source_id : string;
  hi_failure_stage : string;
  hi_failure_reason : string;
  hi_failure_context : option (dict value);
  hi_mapping_version_id : option Z;
  hi_quarantined_at : Z;
  hi_status : string
}.

Record quarantine_tables := mkQuarantineTables { qt_rows : list HeldItem; qt_chunks : list HeldItem }.

Definition undo_quarantine (before _ : quarantine_tables) : quarantine_tables := before.

(** ** Wire vocabularies *)

Inductive Kind : Type := row | chunk.
Inductive StatusWire : Type := open | resolved.
Inductive WindowWire : Type := last_24h | last_7d | last_30d.
Inductive StageWire : Type := source_shape | canonical_shape | fk | normalization | other.

Global Instance Kind_eq_dec : EqDecision Kind.
Proof. solve_decision. Defined.
Global Instance StatusWire_eq_dec : EqDecision StatusWire.
Proof. solve_decision. Defined.
Global Instance StageWire_eq_dec : EqDecision StageWire.
Proof. solve_decision. Defined.

Definition kind_text (k : Kind) : string := match k with row => "row" | chunk => "chunk" end.
Definition status_wire_text (s : StatusWire) : string := match s with open => "open" | resolved => "resolved" end.
Definition window_text (w : WindowWire) : string := match w with last_24h => "24h" | last_7d => "7d" | last_30d => "30d" end.
Definition stage_wire_text (s : StageWire) : string :=
  match s with
  | source_shape => "source-shape" | canonical_shape => "canonical-shape" | fk => "fk"
  | normalization => "normalization" | other => "other"
  end.

Definition STAGE_DB_TO_WIRE : dict StageWire :=
  [("PRE_MAPPING_VALIDATION", source_shape); ("POST_MAPPING_VALIDATION", canonical_shape); ("IDENTITY_VALIDATION", fk);
   ("MAPPING_EXECUTION", normalization); ("CANONICAL_WRITE", other); ("OTHER", other); ("PRE_INGEST_PII", other);
   ("BRONZE_WRITE", other); ("MAPPING_LOOKUP", other)].

Definition STATUS_DB_TO_WIRE : dict StatusWire := [("NEW", open); ("RESOLVED", resolved); ("DISMISSED", resolved)].

(** [d[k]] *)
Definition crosswalk {A} (d : dict A) (k : string) : ures A :=
  match dict_get d k with Some w => Ok w | None => Err (Lib (KeyError k)) end.

Definition stage_to_wire (failure_stage : string) : ures StageWire := crosswalk STAGE_DB_TO_WIRE failure_stage.
Definition status_to_wire (status : string) : ures StatusWire := crosswalk STATUS_DB_TO_WIRE status.

(** The keys of a bucket. *)
Definition db_values_for {A} `{EqDecision A} (d : dict A) (w : A) : list string :=
  map fst (filter (fun e => e.2 = w) d).

Definition stage_db_values_for (error_type : StageWire) : list string := db_values_for STAGE_DB_TO_WIRE error_type.
Definition status_db_values_for (status : StatusWire) : list string := db_values_for STATUS_DB_TO_WIRE status.

Record QuarantineListRow := mkListRow {
  lr_id : string;
  lr_kind : Kind;
  lr_trace_id : uuid;
  lr_source_id : string;
  lr_source : string;
  lr_error_reason : string;
  lr_failure_stage : StageWire;
  lr_failed_at : string;
  lr_status : StatusWire
}.

Record QuarantineListResponse := mkListResponse { items : list QuarantineListRow; open_count : nat }.

Record QuarantineDetail := mkDetail {
  qd_id : string;
  qd_kind : Kind;
  qd_trace_id : uuid;
  qd_source : string;
  qd_failed_at : string;
  qd_mapping_version : option Z;
  qd_error_reason : string;
  qd_failure_stage : StageWire;
  qd_error_context : string;
  qd_original_payload : option value;
  qd_chain_depth : Z
}.

(** ** Reads *)

Definition tenant_term (scope : ReadScope) : ures (HeldItem -> bool) :=
  if rs_is_platform scope then Ok (fun _ => true)
  else match rs_tenant_id scope with
       | None => Err TenantScopeError
       | Some t => Ok (fun i => String.eqb (hi_tenant_id i) t)
       end.

(** A term of the WHERE that is there when its argument is. *)
Definition given {A} (p : A -> HeldItem -> bool) (arg : option A) (i : HeldItem) : bool :=
  match arg with Some a => p a i | None => true end.

Definition list_filters (scope : ReadScope) (source : option string) (stages statuses : option (list string)) (cutoff : option Z)
    : ures (HeldItem -> bool) :=
  tenant ← tenant_term scope;
  Ok (fun i => tenant i && given (fun s i => String.eqb (hi_source_id i) s) source i &&
               given (fun l i => mem (hi_failure_stage i) l) stages i && given (fun l i => mem (hi_status i) l) statuses i &&
               given (fun c i => (c <=? hi_quarantined_at i)%Z) cutoff i).

(** A SELECT sees the rows of the policy. *)
Definition selected (s : session) (where_ : HeldItem -> bool) (table : list HeldItem) : list HeldItem :=
  filter (fun i => policy_using s (hi_tenant_id i) && where_ i = true) table.

Definition leg (k : Kind) (l : list HeldItem) : list (Kind * HeldItem) := map (pair k) l.

(** The sort key [(quarantined_at, id)], in reverse. *)
Definition newer (a b : Kind * HeldItem) : Prop :=
  if (hi_quarantined_at a.2 =? hi_quarantined_at b.2)%Z then String.leb (hi_id b.2) (hi_id a.2) = true
  else (hi_quarantined_at b.2 < hi_quarantined_at a.2)%Z.

Global Instance newer_dec : RelDecision newer.
Proof. intros a b. unfold newer. case_match; apply _. Defined.

Definition list_held_items (scope : ReadScope) (source : option string) (stages statuses : option (list string)) (cutoff : option Z)
    : @action quarantine_tables (list (Kind * HeldItem)) :=
  where_ ← act (list_filters scope source stages statuses cutoff);
  rows ← read_session undo_quarantine (rs_is_platform scope) (rs_tenant_id scope)
           (fun s db => (Ok (leg row (selected s where_ (qt_rows db)) ++ leg chunk (selected s where_ (qt_chunks db))), db));
  mret (merge_sort newer rows).

Definition count_open (scope : ReadScope) : @action quarantine_tables nat :=
  tenant ← act (tenant_term scope);
  read_session undo_quarantine (rs_is_platform scope) (rs_tenant_id scope)
    (fun s db => let open_ := fun i => tenant i && String.eqb (hi_status i) "NEW" in
                 (Ok (length (selected s open_ (qt_rows db)) + length (selected s open_ (qt_chunks db)))%nat, db)).

Definition item_not_found (identifier : string) : ui_exn := ResourceNotFoundError "quarantine_item" identifier.

Definition get_held_item (scope : ReadScope) (kind : Kind) (item_id : uuid) : @action quarantine_tables (Kind * HeldItem) :=
  tenant ← act (tenant_term scope);
  found ← read_session undo_quarantine (rs_is_platform scope) (rs_tenant_id scope)
            (fun s db => (Ok (selected s (fun i => String.eqb (hi_id i) item_id && tenant i)
                                (match kind with row => qt_rows db | chunk => qt_chunks db end)), db));
  match found with
  | [] => act (Err (item_not_found (kind_text kind +:+ ":" +:+ item_id)))
  | i :: _ => mret (kind, i)
  end.

(** ** Handlers *)

Definition WINDOW_DELTA (w : WindowWire) : Z :=
  match w with last_24h => 24 * 3600000000 | last_7d => 7 * US_PER_DAY | last_30d => 30 * US_PER_DAY end%Z.

(** [value.isoformat().replace("+00:00", "Z")] *)
Definition iso_z (us : Z) : string := date_iso (us / US_PER_DAY) +:+ "T" +:+ time_iso us +:+ "Z".

(** [s.partition(":")]: what is before the first colon, and after it. *)
Fixpoint partition_colon (s : string) : option (string * string) :=
  match s with
  | EmptyString => None
  | String c rest =>
      if Ascii.eqb c ":" then Some ("", rest)
      else (fun '(a, b) => (String c a, b)) <$> partition_colon rest
  end.

Definition parse_item_id (item_id : string) : ures (Kind * uuid) :=
  match partition_colon item_id with
  | None => Err (item_not_found item_id)
  | Some (kind_raw, raw) =>
      if negb (mem kind_raw ["row"; "chunk"]) then Err (item_not_found item_id)
      else match py_uuid raw with
           | None => Err (item_not_found item_id)
           | Some u => Ok (if String.eqb kind_raw "row" then row else chunk, u)
           end
  end.

(** The part of a failure that is there: column, check, reason. *)
Definition segment (failure : dict value) : string :=
  str_join ", " (omap (fun key => v ← dict_get failure key; if truthy v then Some (py_str v) else None) ["column"; "check"; "reason"]).

Definition segments (failures : list value) : list string :=
  omap (fun f => match f with
                 | VDict d => if String.eqb (segment d) "" then None else Some (segment d)
                 | _ => None
                 end) failures.

Definition compose_context (stage_wire : StageWire) (failure_context : option (dict value)) : string :=
  let stage := stage_wire_text stage_wire in
  match failure_context with
  | None | Some [] => stage
  | Some context =>
      match dict_get context "failure_message" with
      | Some (VStr ((String _ _) as message)) => stage +:+ ": " +:+ message
      | _ =>
          match dict_get context "failures" with
          | Some (VList ((_ :: _) as failures)) =>
              match segments failures with
              | [] => stage
              | parts => stage +:+ ": " +:+ str_join "; " parts
              end
          | _ => stage
          end
      end
  end.

Definition tagged (i : Kind * HeldItem) : string := kind_text i.1 +:+ ":" +:+ hi_id i.2.

Definition to_list_row (i : Kind * HeldItem) : ures QuarantineListRow :=
  stage ← stage_to_wire (hi_failure_stage i.2);
  status ← status_to_wire (hi_status i.2);
  Ok (mkListRow (tagged i) i.1 (hi_trace_id i.2) (hi_source_id i.2) (hi_source_id i.2) (hi_failure_reason i.2) stage
        (iso_z (hi_quarantined_at i.2)) status).

Definition to_item_detail (i : Kind * HeldItem) : ures QuarantineDetail :=
  stage_wire ← stage_to_wire (hi_failure_stage i.2);
  Ok (mkDetail (tagged i) i.1 (hi_trace_id i.2) (hi_source_id i.2) (iso_z (hi_quarantined_at i.2)) (hi_mapping_version_id i.2)
        (hi_failure_reason i.2) stage_wire (compose_context stage_wire (hi_failure_context i.2)) None 0).

(** A query parameter of a [Literal] type. *)
Definition literal {A} (text : A -> string) (all : list A) (raw : option string) : ures (option A) :=
  match raw with
  | None => Ok None
  | Some s => match List.find (fun a => String.eqb (text a) s) all with
              | Some a => Ok (Some a)
              | None => Err RequestValidationError
              end
  end.

Section Console.
Context `{AuthOutside}.

Definition list_quarantine (r : request) (source error_type status window : option string) (now_utc : Z)
    : @action quarantine_tables QuarantineListResponse :=
  scope ← act (require_read_scope r);
  error_type ← act (literal stage_wire_text [source_shape; canonical_shape; fk; normalization; other] error_type);
  status ← act (literal status_wire_text [open; resolved] status);
  window ← act (literal window_text [last_24h; last_7d; last_30d] window);
  held ← list_held_items scope source (stage_db_values_for <$> error_type) (status_db_values_for <$> status)
           ((fun w => now_utc - WINDOW_DELTA w)%Z <$> window);
  count ← count_open scope;
  rows ← act (map_res to_list_row held);
  mret (mkListResponse rows count).

Definition get_quarantine_item (r : request) (item_id : string) : @action quarantine_tables QuarantineDetail :=
  scope ← act (require_read_scope r);
  p ← act (parse_item_id item_id);
  i ← get_held_item scope p.1 p.2;
  act (to_item_detail i).
End Console.
