(* ===== verification/ConsoleTheorems.v ===== *)
(** ConsoleTheorems: what the reads of the console amount to, as functions of the tables. *)

From S2P Require Import Prelude Text Values Transform Paths PathTheorems UiErrors Access Rls Console.

(** ** Crosswalks *)

(** The reverse crosswalk and the forward one agree. *)
Lemma db_values_agree {A} `{EqDecision A} (d : dict A) k w w' :
  dict_wf d -> dict_get d k = Some w -> mem k (db_values_for d w') = bool_decide (w = w').
Proof.
  intros Hwf Hk. apply eq_true_iff_eq. rewrite mem_elem, bool_decide_eq_true. unfold db_values_for. split.
  - intros ([k' x] & -> & [Hx Hin]%list_elem_of_filter)%list_elem_of_fmap. cbn in *.
    apply (dict_get_elem _ _ _ Hwf) in Hin. congruence.
  - intros <-. apply list_elem_of_fmap. exists (k, w). split; [done|]. apply list_elem_of_filter. split; [done|]. by apply dict_get_Some_elem.
Qed.

Lemma stage_dict_wf : dict_wf STAGE_DB_TO_WIRE.
Proof. unfold dict_wf. apply (bool_decide_unpack _). vm_compute. exact I. Qed.

Lemma status_dict_wf : dict_wf STATUS_DB_TO_WIRE.
Proof. unfold dict_wf. apply (bool_decide_unpack _). vm_compute. exact I. Qed.

Lemma crosswalk_ok {A} (d : dict A) k w : crosswalk d k = Ok w <-> dict_get d k = Some w.
Proof. unfold crosswalk. destruct (dict_get d k); split; congruence. Qed.

(** ** The order of the list *)

Lemma str_le_antisym a b : str_le a b -> str_le b a -> a = b.
Proof. unfold str_le. apply String.leb_antisym. Qed.

Global Instance newer_trans : Transitive newer.
Proof.
  intros a b c. unfold newer. repeat case_match; rewrite ?Z.eqb_eq, ?Z.eqb_neq in *; try lia.
  intros Hab Hbc. by apply (str_le_trans _ (hi_id b.2)).
Qed.

Global Instance newer_total : Total newer.
Proof.
  intros a b. unfold newer. repeat case_match; rewrite ?Z.eqb_eq, ?Z.eqb_neq in *; try lia. apply str_le_total.
Qed.

Lemma newer_antisym a b : newer a b -> newer b a -> hi_id a.2 = hi_id b.2.
Proof. unfold newer. repeat case_match; rewrite ?Z.eqb_eq, ?Z.eqb_neq in *; try lia. intros Hab Hba. by apply str_le_antisym. Qed.

Lemma StronglySorted_filter {A} (R : relation A) (P : A -> Prop) `{forall x, base.Decision (P x)} l :
  StronglySorted R l -> StronglySorted R (filter P l).
Proof.
  induction 1 as [|x l Hs IH Hx]; [constructor|]. rewrite filter_cons. case_decide; [|done]. constructor; [done|].
  apply Forall_forall. intros y [_ Hy]%list_elem_of_filter. by eapply Forall_forall in Hx.
Qed.

(** With one item per id, what is filtered after sorting is what is sorted after filtering. *)
Lemma sort_filter (P : Kind * HeldItem -> Prop) `{forall x, base.Decision (P x)} l :
  NoDup (map (fun i => hi_id i.2) l) -> merge_sort newer (filter P l) = filter P (merge_sort newer l).
Proof.
  intros Hn. apply (StronglySorted_unique_strong newer).
  - intros a b Ha Hb Hab Hba. rewrite merge_sort_Permutation in Ha.
    apply list_elem_of_filter in Ha as [_ Ha]. apply list_elem_of_filter in Hb as [_ Hb]. rewrite merge_sort_Permutation in Hb.
    apply list_elem_of_lookup in Ha as [i Hi]. apply list_elem_of_lookup in Hb as [j Hj].
    assert (i = j) as ->.
    { eapply (NoDup_lookup _ _ _ _ Hn); rewrite list_lookup_fmap; [by rewrite Hi|]. rewrite Hj. cbn. f_equal. symmetry. by apply newer_antisym. }
    congruence.
  - apply StronglySorted_merge_sort; apply _.
  - apply StronglySorted_filter, StronglySorted_merge_sort; apply _.
  - rewrite merge_sort_Permutation. apply filter_Permutation. by rewrite merge_sort_Permutation.
Qed.

(** ** Reads *)

(** An engine that reaches a checked target. *)
Definition answers (en : engine) : Prop :=
  en_reachable en = true /\ (if en_verified en then Ok tt else check_posture (en_posture en)) = Ok tt.
Definition verified (en : engine) : engine := mkEngine true (en_posture en) true.

Lemma verified_answers en : answers (verified en).
Proof. done. Qed.

Lemma verified_honest en : honest en -> answers en -> honest (verified en).
Proof. intros Hh [_ Hv] _. cbn. destruct (en_verified en) eqn:He; [by apply Hh|done]. Qed.

(** The two scopes a token gives. *)
Definition scope_ok (scope : ReadScope) : Prop :=
  scope = mkReadScope true None \/ exists t, t <> "" /\ scope = mkReadScope false (Some t).

Lemma read_scope_ok `{AuthOutside} r scope : require_read_scope r = Ok scope -> scope_ok scope.
Proof.
  unfold require_read_scope. intros Hr. inv_ok. destruct (id_user_type a).
  - inv_ok. right. exists a0. split; [|done]. unfold tenant_uuid_of in Hs0. destruct (id_tenant_id a) as [t|]; [|done].
    destruct (py_uuid t) as [u|] eqn:Hu; [|done]. injection Hs0 as <-. apply py_uuid_sound in Hu. by intros ->.
  - destruct (mem OPS_ROLE (id_roles a)); [|done]. injection Hr as <-. by left.
Qed.

Definition scope_guc (scope : ReadScope) : guc :=
  if rs_is_platform scope then mkGuc "PLATFORM" "" else mkGuc "TENANT" (default "" (rs_tenant_id scope)).

Definition sees (scope : ReadScope) (tenant : uuid) : bool :=
  rs_is_platform scope || bool_decide (rs_tenant_id scope = Some tenant).

Definition visible (scope : ReadScope) (i : HeldItem) : bool := sees scope (hi_tenant_id i).

(** A read of an engine that answers is a function of the tables. *)
Lemma read_answers {D A} {undo : D -> D -> D} scope en db (f : session -> D -> A) : scope_ok scope -> answers en ->
  read_session undo (rs_is_platform scope) (rs_tenant_id scope) (fun s d => (Ok (f s d), d)) (en, db) =
  (Ok (f (mkSession (en_posture en) (scope_guc scope)) db), (verified en, db)).
Proof.
  intros Hs [Hr Hv]. destruct Hs as [->|(t & Ht & ->)]; cbn; unfold rls_platform_session, rls_session, verified_transaction;
    rewrite Hr, Hv; done.
Qed.

(** Otherwise it fails, whatever is read. *)
Lemma read_fails {A} scope en db (f : session -> quarantine_tables -> A) : scope_ok scope -> ~ answers en ->
  exists e, read_session undo_quarantine (rs_is_platform scope) (rs_tenant_id scope) (fun s d => (Ok (f s d), d)) (en, db) = (Err e, (en, db)).
Proof.
  intros Hs Hn. unfold answers in Hn.
  assert (exists e, forall g, verified_transaction undo_quarantine g (fun s d => (Ok (f s d), d)) (en, db) = (Err e, (en, db))) as [e He].
  { unfold verified_transaction. destruct (en_reachable en); [|by eexists]. cbn [negb].
    destruct (if en_verified en then _ else _) as [[]|e]; [naive_solver|by eexists]. }
  exists e. destruct Hs as [->|(t & Ht & ->)]; apply He.
Qed.

(** The term of the query and the policy of the table select the visible rows. *)
Definition in_tenant (scope : ReadScope) (i : HeldItem) : bool :=
  rs_is_platform scope || String.eqb (hi_tenant_id i) (default "" (rs_tenant_id scope)).

Lemma tenant_term_ok scope : scope_ok scope -> exists term, tenant_term scope = Ok term /\ forall i, term i = in_tenant scope i.
Proof. intros [->|(t & Ht & ->)]; by eexists. Qed.

Lemma visible_rows scope p i : scope_ok scope -> bypasses p = false ->
  policy_using (mkSession p (scope_guc scope)) (hi_tenant_id i) && in_tenant scope i = visible scope i.
Proof.
  intros Hs Hb. unfold policy_using, in_tenant, visible, sees. cbn. rewrite Hb. destruct Hs as [->|(t & Ht & ->)]; cbn.
  - by rewrite orb_true_r.
  - unfold guc_tenant. cbn. destruct (String.eqb_spec t ""); [done|]. rewrite orb_false_r.
    destruct (String.eqb_spec (hi_tenant_id i) t) as [->|Hne]; rewrite ?andb_true_r, ?andb_false_r; [done|]. symmetry. apply bool_decide_eq_false. congruence.
Qed.

Lemma selected_visible scope p term P l : scope_ok scope -> bypasses p = false -> (forall i, term i = in_tenant scope i && P i) ->
  selected (mkSession p (scope_guc scope)) term l = filter (fun i => visible scope i && P i = true) l.
Proof.
  intros Hs Hb Ht. unfold selected. apply list_filter_iff. intros i. rewrite Ht, <- (visible_rows scope p i Hs Hb). by rewrite andb_assoc.
Qed.

(** ** The list *)

Definition all_items (db : quarantine_tables) : list (Kind * HeldItem) := leg row (qt_rows db) ++ leg chunk (qt_chunks db).

Definition filters (source : option string) (stages statuses : option (list string)) (cutoff : option Z) (i : HeldItem) : bool :=
  given (fun s i => String.eqb (hi_source_id i) s) source i && given (fun l i => mem (hi_failure_stage i) l) stages i &&
  given (fun l i => mem (hi_status i) l) statuses i && given (fun c i => (c <=? hi_quarantined_at i)%Z) cutoff i.

Definition view (scope : ReadScope) (db : quarantine_tables) : list (Kind * HeldItem) :=
  filter (fun i => visible scope i.2 = true) (all_items db).

Lemma leg_filter k (P : HeldItem -> bool) l : leg k (filter (fun i => P i = true) l) = filter (fun i => P i.2 = true) (leg k l).
Proof. unfold leg. induction l as [|i l IH]; [done|]. cbn [map]. rewrite !filter_cons. cbn [snd]. case_decide; cbn [map]; by rewrite IH. Qed.

Lemma legs_filter (P : HeldItem -> bool) db :
  leg row (filter (fun i => P i = true) (qt_rows db)) ++ leg chunk (filter (fun i => P i = true) (qt_chunks db)) =
  filter (fun i => P i.2 = true) (all_items db).
Proof. unfold all_items. by rewrite filter_app, !leg_filter. Qed.

Lemma view_filter scope (P : HeldItem -> bool) db :
  filter (fun i => visible scope i.2 && P i.2 = true) (all_items db) = filter (fun i => P i.2 = true) (view scope db).
Proof. unfold view. rewrite list_filter_filter. apply list_filter_iff. intros i. rewrite andb_true_iff. tauto. Qed.

Lemma answers_safe en : honest en -> answers en -> bypasses (en_posture en) = false.
Proof. intros Hh Ha. apply posture_safe. by apply (verified_honest en Hh Ha). Qed.

Lemma list_answers scope source stages statuses cutoff en db : honest en -> scope_ok scope -> answers en ->
  list_held_items scope source stages statuses cutoff (en, db) =
  (Ok (merge_sort newer (filter (fun i => filters source stages statuses cutoff i.2 = true) (view scope db))), (verified en, db)).
Proof.
  intros Hh Hs Ha. unfold list_held_items, list_filters. destruct (tenant_term_ok scope Hs) as (term & -> & Hterm).
  unfold mbind, action_bind, act. cbn [result_bind]. rewrite (read_answers scope en db _ Hs Ha).
  rewrite !(selected_visible scope (en_posture en) _ (filters source stages statuses cutoff)); auto using answers_safe.
  - by rewrite legs_filter, view_filter.
  - intros i. rewrite Hterm. unfold filters. by rewrite !andb_assoc.
  - intros i. rewrite Hterm. unfold filters. by rewrite !andb_assoc.
Qed.

Lemma count_answers scope en db : honest en -> scope_ok scope -> answers en ->
  count_open scope (en, db) = (Ok (length (filter (fun i => String.eqb (hi_status i.2) "NEW" = true) (view scope db))), (verified en, db)).
Proof.
  intros Hh Hs Ha. unfold count_open. destruct (tenant_term_ok scope Hs) as (term & -> & Hterm).
  unfold mbind, action_bind, act. rewrite (read_answers scope en db _ Hs Ha). cbv zeta.
  rewrite !(selected_visible scope (en_posture en) _ (fun i => String.eqb (hi_status i) "NEW")); auto using answers_safe.
  - rewrite <- (view_filter scope (fun i => String.eqb (hi_status i) "NEW") db).
    rewrite <- (legs_filter (fun i => visible scope i && String.eqb (hi_status i) "NEW") db), length_app. unfold leg. by rewrite !length_map.
  - intros i. by rewrite Hterm.
  - intros i. by rewrite Hterm.
Qed.

Lemma list_fails scope source stages statuses cutoff en db : scope_ok scope -> ~ answers en ->
  exists e, list_held_items scope source stages statuses cutoff (en, db) = (Err e, (en, db)).
Proof.
  intros Hs Ha. unfold list_held_items, list_filters. destruct (tenant_term_ok scope Hs) as (term & -> & _).
  unfold mbind, action_bind, act. cbn [result_bind].
  match goal with |- context [read_session _ _ _ (fun s d => (Ok (@?f s d), d)) _] => destruct (read_fails scope en db f Hs Ha) as [e ->] end.
  by eexists.
Qed.

(** ** The detail *)

Definition found_in (scope : ReadScope) (kind : Kind) (item_id : uuid) (db : quarantine_tables) : list (Kind * HeldItem) :=
  filter (fun i => i.1 = kind /\ hi_id i.2 = item_id) (view scope db).

Lemma get_answers scope kind item_id en db : honest en -> scope_ok scope -> answers en ->
  get_held_item scope kind item_id (en, db) =
  (match found_in scope kind item_id db with
   | [] => Err (item_not_found (kind_text kind +:+ ":" +:+ item_id))
   | i :: _ => Ok i
   end, (verified en, db)).
Proof.
  intros Hh Hs Ha. unfold get_held_item. destruct (tenant_term_ok scope Hs) as (term & -> & Hterm).
  unfold mbind, action_bind, act. rewrite (read_answers scope en db _ Hs Ha).
  rewrite (selected_visible scope (en_posture en) _ (fun i => String.eqb (hi_id i) item_id)); auto using answers_safe.
  2: { intros i. rewrite Hterm. apply andb_comm. }
  assert (found_in scope kind item_id db =
    leg kind (filter (fun i => visible scope i && String.eqb (hi_id i) item_id = true) (match kind with row => qt_rows db | chunk => qt_chunks db end))) as ->.
  { rewrite (leg_filter kind (fun i => visible scope i && String.eqb (hi_id i) item_id)). unfold found_in, view, all_items.
    rewrite list_filter_filter, filter_app.
    assert (forall k l, filter (fun i : Kind * HeldItem => (i.1 = kind /\ hi_id i.2 = item_id) /\ visible scope i.2 = true) (leg k l) =
      if decide (k = kind) then filter (fun i => visible scope i.2 && String.eqb (hi_id i.2) item_id = true) (leg k l) else []) as Hleg.
    { intros k l. unfold leg. induction l as [|i l IH]; [by case_decide|]. cbn [map]. rewrite !filter_cons, IH. cbn [fst snd].
      case_decide as Hk; repeat case_decide; rewrite ?andb_true_iff, ?String.eqb_eq in *; try done; try tauto. }
    rewrite !Hleg. destruct kind; repeat case_decide; try done. by rewrite app_nil_r. }
  by destruct (filter _ _).
Qed.

(** ** What the quarantine console shows *)

(** The constraints of the two tables: the vocabularies of stage and status, and ids
    that are UUIDs, each used once. *)
Record held_ok (db : quarantine_tables) : Prop := {
  ok_stage : forall i, i ∈ all_items db -> hi_failure_stage i.2 ∈ dict_keys STAGE_DB_TO_WIRE;
  ok_status : forall i, i ∈ all_items db -> hi_status i.2 ∈ dict_keys STATUS_DB_TO_WIRE;
  ok_ids : NoDup (map (fun i => hi_id i.2) (all_items db));
  ok_uuids : forall i, i ∈ all_items db -> is_uuid_text (hi_id i.2) = true
}.

Lemma crosswalk_total {A} (d : dict A) k : k ∈ dict_keys d -> exists w, crosswalk d k = Ok w.
Proof. intros Hk. unfold crosswalk. destruct (dict_get d k) eqn:Hg; [by eexists|]. by apply dict_get_None in Hg. Qed.

Lemma list_row_total i : hi_failure_stage i.2 ∈ dict_keys STAGE_DB_TO_WIRE -> hi_status i.2 ∈ dict_keys STATUS_DB_TO_WIRE ->
  exists r, to_list_row i = Ok r.
Proof.
  intros Hs Ht. unfold to_list_row, stage_to_wire, status_to_wire. destruct (crosswalk_total _ _ Hs) as [w ->].
  destruct (crosswalk_total _ _ Ht) as [w' ->]. by eexists.
Qed.

(** ** The request *)

Section Requests.
Context `{AuthOutside}.

Lemma list_request r scope source et st w now en db : honest en -> require_read_scope r = Ok scope -> answers en ->
  list_quarantine r source (stage_wire_text <$> et) (status_wire_text <$> st) (window_text <$> w) now (en, db) =
  (match map_res to_list_row (merge_sort newer (filter (fun i => filters source (stage_db_values_for <$> et) (status_db_values_for <$> st)
           ((fun w => now - WINDOW_DELTA w)%Z <$> w) i.2 = true) (view scope db))) with
   | Ok rows => Ok (mkListResponse rows (length (filter (fun i => String.eqb (hi_status i.2) "NEW" = true) (view scope db))))
   | Err e => Err e
   end, (verified en, db)).
Proof.
  intros Hh Hr Ha. pose proof (read_scope_ok _ _ Hr) as Hs. unfold list_quarantine, mbind, action_bind, act. rewrite Hr.
  assert (literal stage_wire_text [source_shape; canonical_shape; fk; normalization; other] (stage_wire_text <$> et) = Ok et) as ->
    by (by destruct et as [[]|]).
  assert (literal status_wire_text [open; resolved] (status_wire_text <$> st) = Ok st) as -> by (by destruct st as [[]|]).
  assert (literal window_text [last_24h; last_7d; last_30d] (window_text <$> w) = Ok w) as -> by (by destruct w as [[]|]).
  rewrite (list_answers scope) by done. rewrite (count_answers scope) by auto using verified_honest, verified_answers.
  by destruct (map_res to_list_row _).
Qed.

(** A list that was answered. *)
Lemma listed_inv r source et st w now en db resp s' :
  list_quarantine r source et st w now (en, db) = (Ok resp, s') -> exists scope, require_read_scope r = Ok scope /\ answers en.
Proof.
  unfold list_quarantine, mbind, action_bind, act. destruct (require_read_scope r) as [scope|e] eqn:Hr; [|done].
  destruct (literal stage_wire_text _ et) as [et'|]; [|done]. destruct (literal status_wire_text _ st) as [st'|]; [|done].
  destruct (literal window_text _ w) as [w'|]; [|done]. intros Hl. exists scope. split; [done|].
  destruct (decide (en_reachable en = true)) as [Hre|Hre].
  2: { destruct (list_fails scope source (stage_db_values_for <$> et') (status_db_values_for <$> st') ((fun w => now - WINDOW_DELTA w)%Z <$> w') en db
         (read_scope_ok _ _ Hr)) as [e He]; [by intros [? _]|]. by rewrite He in Hl. }
  destruct (if en_verified en then Ok tt else check_posture (en_posture en)) as [[]|e] eqn:Hv; [by split|].
  destruct (list_fails scope source (stage_db_values_for <$> et') (status_db_values_for <$> st') ((fun w => now - WINDOW_DELTA w)%Z <$> w') en db
         (read_scope_ok _ _ Hr)) as [e' He]; [intros [_ Hc]; congruence|]. by rewrite He in Hl.
Qed.
End Requests.

(** ** Filters *)

(** Whether a row of the list passes filters, by what it shows. *)
Definition shown (source : option string) (error_type : option StageWire) (status : option StatusWire) (r : QuarantineListRow) : bool :=
  match source with Some s => String.eqb (lr_source_id r) s | None => true end &&
  match error_type with Some w => bool_decide (lr_failure_stage r = w) | None => true end &&
  match status with Some w => bool_decide (lr_status r = w) | None => true end.

Lemma row_shows i r : to_list_row i = Ok r ->
  dict_get STAGE_DB_TO_WIRE (hi_failure_stage i.2) = Some (lr_failure_stage r) /\
  dict_get STATUS_DB_TO_WIRE (hi_status i.2) = Some (lr_status r) /\ lr_source_id r = hi_source_id i.2 /\ lr_id r = tagged i.
Proof.
  unfold to_list_row, stage_to_wire, status_to_wire. intros Hr. inv_ok.
  split_and!; [by apply crosswalk_ok|by apply crosswalk_ok|done|done].
Qed.

Lemma filters_shown source et st cutoff i r : to_list_row i = Ok r ->
  filters source (stage_db_values_for <$> et) (status_db_values_for <$> st) cutoff i.2 =
  shown source et st r && filters None None None cutoff i.2.
Proof.
  intros (Hs & Ht & Hsrc & _)%row_shows. unfold filters, shown, given, stage_db_values_for, status_db_values_for.
  rewrite Hsrc. destruct et as [w|], st as [w'|]; cbn [fmap option_fmap option_map];
    rewrite ?(db_values_agree _ _ _ _ stage_dict_wf Hs), ?(db_values_agree _ _ _ _ status_dict_wf Ht); by destruct source.
Qed.

Lemma map_res_filter {A B E} (f : A -> result E B) (P : A -> bool) (Q : B -> bool) l rows :
  (forall x y, x ∈ l -> f x = Ok y -> P x = Q y) -> map_res f l = Ok rows ->
  map_res f (filter (fun x => P x = true) l) = Ok (filter (fun y => Q y = true) rows).
Proof.
  intros HPQ Hl. apply map_res_ok in Hl. apply map_res_ok. induction Hl as [|x y l rows Hxy _ IH]; [constructor|].
  rewrite !filter_cons. rewrite (HPQ x y) by (done || left).
  assert (forall x y, x ∈ l -> f x = Ok y -> P x = Q y) as HPQ' by (intros; apply HPQ; [by right|done]).
  case_decide; [constructor|]; auto.
Qed.

Lemma filter_everything {A} (P : A -> Prop) `{forall x, base.Decision (P x)} (l : list A) : (forall x, P x) -> filter P l = l.
Proof. intros HP. induction l as [|x l IH]; [done|]. by rewrite filter_cons_True, IH. Qed.

Lemma view_ids scope db : held_ok db -> NoDup (map (fun i => hi_id i.2) (view scope db)).
Proof. intros Hok. eapply sublist_NoDup; [exact (ok_ids _ Hok)|]. apply (fmap_sublist (fun i : Kind * HeldItem => hi_id i.2)), sublist_filter. Qed.

(** The list with filters is the list without, filtered. *)
Lemma filtered_view scope source et st cutoff db : held_ok db ->
  merge_sort newer (filter (fun i => filters source (stage_db_values_for <$> et) (status_db_values_for <$> st) cutoff i.2 = true) (view scope db)) =
  filter (fun i => filters source (stage_db_values_for <$> et) (status_db_values_for <$> st) cutoff i.2 = true)
    (merge_sort newer (filter (fun i => filters None None None cutoff i.2 = true) (view scope db))).
Proof.
  intros Hok. rewrite !sort_filter by auto using view_ids. rewrite list_filter_filter. apply list_filter_iff. intros i.
  unfold filters. rewrite !andb_true_iff. cbn. tauto.
Qed.

(** C24. The console filters by what it shows: with any choice of source, error type and
    status, inside any time window, it lists exactly the rows whose displayed source, stage and status
    are the ones chosen, in the same order, and the open count does not move.  Without a
    window the list is every held item the token may see, newest first, and the
    count is the number of rows displayed as open. *)
Theorem console_filters_what_it_shows `{AuthOutside} r source et st w now en db all s1 :
  honest en -> held_ok db ->
  list_quarantine r None None None (window_text <$> w) now (en, db) = (Ok all, s1) ->
  list_quarantine r source (stage_wire_text <$> et) (status_wire_text <$> st) (window_text <$> w) now (en, db) =
    (Ok (mkListResponse (filter (fun x => shown source et st x = true) (items all)) (open_count all)), s1) /\
  (w = None -> open_count all = length (filter (fun x => lr_status x = open) (items all)) /\
    exists scope held, require_read_scope r = Ok scope /\ map_res to_list_row held = Ok (items all) /\
      StronglySorted newer held /\ held ≡ₚ view scope db).
Proof.
  intros Hh Hok Hall. destruct (listed_inv _ _ _ _ _ _ _ _ _ _ Hall) as (scope & Hr & Ha).
  pose proof (list_request r scope None None None w now en db Hh Hr Ha) as H0. cbn [fmap option_fmap option_map] in H0.
  rewrite Hall in H0. rewrite (list_request r scope) by done.
  destruct (map_res to_list_row (merge_sort newer (filter (fun i => filters None None None _ i.2 = true) (view scope db)))) as [rows|e] eqn:Hrows;
    [|done].
  injection H0 as -> ->. cbn [items open_count]. split.
  - rewrite filtered_view by done. erewrite map_res_filter; [reflexivity| |exact Hrows].
    intros i x Hi Hx. rewrite (filters_shown _ _ _ _ _ _ Hx). rewrite merge_sort_Permutation in Hi.
    apply list_elem_of_filter in Hi as [-> _]. apply andb_true_r.
  - intros ->. cbn [fmap option_fmap option_map] in Hrows.
    assert (filter (fun i => filters None None None None i.2 = true) (view scope db) = view scope db) as Hv.
    { by apply filter_everything. }
    rewrite Hv in Hrows. split.
    + assert (length (filter (fun i => (hi_status i.2 =? "NEW")%string = true) (view scope db)) =
              length (filter (fun i => (hi_status i.2 =? "NEW")%string = true) (merge_sort newer (view scope db)))) as ->.
      { apply Permutation_length, filter_Permutation. by rewrite merge_sort_Permutation. }
      erewrite <- (map_res_length to_list_row); [|eapply (map_res_filter _ _ (fun x => bool_decide (lr_status x = open))); [|exact Hrows]].
      * f_equal. apply list_filter_iff. intros x. apply bool_decide_eq_true.
      * intros i x _ (_ & Hx & _)%row_shows. apply dict_get_Some_elem in Hx. revert Hx.
        unfold STATUS_DB_TO_WIRE. rewrite !elem_of_cons, elem_of_nil. intros [[= -> ->]|[[= -> ->]|[[= -> ->]|[]]]]; done.
    + exists scope, (merge_sort newer (view scope db)). split_and!; [done|done|apply StronglySorted_merge_sort; apply _|apply merge_sort_Permutation].
Qed.

(** ** The detail *)

(** A detail and a row of the list that show the same item. *)
Definition describes (d : QuarantineDetail) (x : QuarantineListRow) : Prop :=
  (qd_id d, qd_kind d, qd_trace_id d, qd_source d, qd_failed_at d, qd_error_reason d, qd_failure_stage d) =
  (lr_id x, lr_kind x, lr_trace_id x, lr_source x, lr_failed_at x, lr_error_reason x, lr_failure_stage x).

Lemma detail_describes i x d : to_list_row i = Ok x -> to_item_detail i = Ok d -> describes d x.
Proof. unfold to_list_row, to_item_detail, describes. intros Hx Hd. inv_ok. cbn. congruence. Qed.

Lemma detail_total i x : to_list_row i = Ok x -> exists d, to_item_detail i = Ok d.
Proof. unfold to_list_row, to_item_detail. intros Hx. inv_ok. rewrite Hs. by eexists. Qed.

Lemma tagged_parses i : is_uuid_text (hi_id i.2) = true -> parse_item_id (tagged i) = Ok (i.1, hi_id i.2).
Proof.
  destruct i as [k i]. cbn [fst snd]. intros Hu. unfold parse_item_id, tagged. cbn [fst snd].
  assert (partition_colon (kind_text k +:+ ":" +:+ hi_id i) = Some (kind_text k, hi_id i)) as -> by (by destruct k).
  assert (mem (kind_text k) ["row"; "chunk"] = true) as -> by (by destruct k). cbn [negb].
  rewrite (py_uuid_canonical _ Hu). by destruct k.
Qed.

Lemma parse_refused item_id e : parse_item_id item_id = Err e -> status_of e = 404%Z.
Proof. unfold parse_item_id. by repeat case_match; intros [= <-]. Qed.

Lemma view_elem scope db i : i ∈ view scope db -> i ∈ all_items db.
Proof. by intros [_ Hi]%list_elem_of_filter. Qed.

(** An item has one id. *)
Lemma view_unique scope db i j : held_ok db -> i ∈ view scope db -> j ∈ view scope db -> hi_id i.2 = hi_id j.2 -> i = j.
Proof.
  intros Hok [m Hm]%list_elem_of_lookup [n Hn]%list_elem_of_lookup He.
  assert (m = n) as ->; [|congruence]. eapply (NoDup_lookup _ _ _ _ (view_ids scope db Hok)); rewrite list_lookup_fmap; [by rewrite Hm|]. by rewrite Hn, He.
Qed.

Section Details.
Context `{AuthOutside}.

(** The items of an unfiltered list. *)
Lemma listed_items r now en db all s1 : honest en -> held_ok db -> list_quarantine r None None None None now (en, db) = (Ok all, s1) ->
  exists scope, require_read_scope r = Ok scope /\ answers en /\ s1 = (verified en, db) /\
    forall x, x ∈ items all <-> exists i, i ∈ view scope db /\ to_list_row i = Ok x.
Proof.
  intros Hh Hok Hall. destruct (listed_inv _ _ _ _ _ _ _ _ _ _ Hall) as (scope & Hr & Ha). exists scope.
  pose proof (list_request r scope None None None None now en db Hh Hr Ha) as H0. cbn [fmap option_fmap option_map] in H0. rewrite Hall in H0.
  rewrite filter_everything in H0 by done. destruct (map_res to_list_row _) as [rows|e] eqn:Hrows; [|done]. injection H0 as -> ->.
  split_and!; [done..|].
  apply map_res_ok in Hrows. intros x. cbn [items]. split.
  - intros [n Hn]%list_elem_of_lookup. destruct (Forall2_lookup_r _ _ _ _ _ Hrows Hn) as (i & Hi & Hx). exists i. split; [|done].
    rewrite <- (merge_sort_Permutation newer). by eapply list_elem_of_lookup_2.
  - intros (i & Hi & Hx). rewrite <- (merge_sort_Permutation newer) in Hi. apply list_elem_of_lookup in Hi as [n Hn].
    destruct (Forall2_lookup_l _ _ _ _ _ Hrows Hn) as (x' & Hx' & Heq). assert (x' = x) as -> by congruence. by eapply list_elem_of_lookup_2.
Qed.

Lemma get_request r scope item_id en db : honest en -> require_read_scope r = Ok scope -> answers en ->
  (get_quarantine_item r item_id (en, db)).1 =
  match parse_item_id item_id with
  | Err e => Err e
  | Ok (k, u) => match found_in scope k u db with
                 | [] => Err (item_not_found (kind_text k +:+ ":" +:+ u))
                 | i :: _ => to_item_detail i
                 end
  end.
Proof.
  intros Hh Hr Ha. unfold get_quarantine_item, mbind, action_bind, act. rewrite Hr. destruct (parse_item_id item_id) as [[k u]|e]; [|done].
  cbn [fst snd]. rewrite (get_answers scope) by eauto using read_scope_ok. by destruct (found_in scope k u db).
Qed.

Lemma found_elem scope k u db i l : found_in scope k u db = i :: l -> i ∈ view scope db /\ i.1 = k /\ hi_id i.2 = u.
Proof. intros Hf. assert (i ∈ found_in scope k u db) as Hi by (rewrite Hf; left). by apply list_elem_of_filter in Hi as [[? ?] ?]. Qed.

(** The ids of the list open the details: each listed item is found by its id and shown with
    the same fields; and an id that is answered at all is the id of a listed item, any other
    (malformed, unknown, or of an item of another tenant) is the same 404. *)
Theorem console_ids_open_details r now en db all s1 :
  honest en -> held_ok db -> list_quarantine r None None None None now (en, db) = (Ok all, s1) ->
  (forall x, x ∈ items all -> exists d, (get_quarantine_item r (lr_id x) (en, db)).1 = Ok d /\ describes d x) /\
  (forall item_id, match (get_quarantine_item r item_id (en, db)).1 with
                   | Ok d => exists x, x ∈ items all /\ parse_item_id item_id = parse_item_id (lr_id x) /\ describes d x
                   | Err e => status_of e = 404%Z
                   end).
Proof.
  intros Hh Hok Hall. destruct (listed_items _ _ _ _ _ _ Hh Hok Hall) as (scope & Hr & Ha & _ & Hitems). split.
  - intros x (i & Hi & Hx)%Hitems. rewrite (get_request r scope) by done. destruct (row_shows _ _ Hx) as (_ & _ & _ & ->).
    rewrite tagged_parses by (eapply ok_uuids; [done|by eapply view_elem]).
    destruct (found_in scope i.1 (hi_id i.2) db) as [|j l] eqn:Hf.
    + assert (i ∈ found_in scope i.1 (hi_id i.2) db) as Hin by (by apply list_elem_of_filter). rewrite Hf in Hin. by apply not_elem_of_nil in Hin.
    + apply found_elem in Hf as (Hj & _ & Hid). rewrite (view_unique scope db j i) by done.
      destruct (detail_total _ _ Hx) as [d Hd]. exists d. split; [done|by eapply detail_describes].
  - intros item_id. rewrite (get_request r scope) by done. destruct (parse_item_id item_id) as [[k u]|e] eqn:Hp; [|by eapply parse_refused].
    destruct (found_in scope k u db) as [|j l] eqn:Hf; [done|]. apply found_elem in Hf as (Hj & <- & <-).
    destruct (list_row_total j) as [x Hx]; [eapply ok_stage; [done|by eapply view_elem]|eapply ok_status; [done|by eapply view_elem]|].
    destruct (detail_total _ _ Hx) as [d Hd]. rewrite Hd. exists x. destruct (row_shows _ _ Hx) as (_ & _ & _ & Hid). split_and!.
    + apply Hitems. by exists j.
    + rewrite Hid. symmetry. apply tagged_parses. eapply ok_uuids; [done|by eapply view_elem].
    + by eapply detail_describes.
Qed.
End Details.
