(* ===== verification/ConsoleHold.v ===== *)
(** ConsoleHold: from a failed gate of the streaming consumer to the quarantine console.

    The rows the consumer holds are inserted with their times, under ids and the default status of
    the database ([postgres_writer.py]); the console then lists them. *)

From S2P Require Import Prelude Text Values Transform HotMapping Paths PathTheorems Quarantine UiErrors Access Rls TenantSample Console ConsoleTheorems.

(** The text of a stage, as stored. *)
Definition failure_stage_text (s : QuarantineFailureStage) : string :=
  match s with
  | PRE_INGEST_PII => "PRE_INGEST_PII" | BRONZE_WRITE => "BRONZE_WRITE" | MAPPING_LOOKUP => "MAPPING_LOOKUP"
  | IDENTITY_VALIDATION => "IDENTITY_VALIDATION" | PRE_MAPPING_VALIDATION => "PRE_MAPPING_VALIDATION"
  | MAPPING_EXECUTION => "MAPPING_EXECUTION" | POST_MAPPING_VALIDATION => "POST_MAPPING_VALIDATION"
  | CANONICAL_WRITE => "CANONICAL_WRITE" | OTHER => "OTHER"
  end.

(** The JSON of the failures of a row. *)
Definition row_context (failures : list GateFailure) : dict value :=
  [("failures", VList (map (fun '(column, _, check, reason) =>
      VDict [("column", from_option VStr VNone column); ("check", VStr check); ("reason", VStr reason)]) failures))].

(** [_INSERT_ROW]: the id and the status are the defaults of the table. *)
Definition stored_row (stamp : uuid * Z) (r : QuarantinedRow) : HeldItem :=
  let b := qr_base r in
  mkHeldItem stamp.1 (q_tenant_id b) (q_trace_id b) (q_source_id b) (failure_stage_text (q_failure_stage b)) (q_failure_reason b)
    (Some (row_context (q_failures b))) (Some (qr_mapping_version_id r)) stamp.2 "NEW".

Definition insert_rows (stamps : list (uuid * Z)) (records : list QuarantinedRow) (db : quarantine_tables) : quarantine_tables :=
  mkQuarantineTables (qt_rows db ++ zip_with stored_row stamps records) (qt_chunks db).

(** Where a failure at a stage is displayed. *)
Definition displayed (s : QuarantineFailureStage) : StageWire :=
  match s with
  | PRE_MAPPING_VALIDATION => source_shape
  | POST_MAPPING_VALIDATION => canonical_shape
  | IDENTITY_VALIDATION => fk
  | MAPPING_EXECUTION => normalization
  | _ => other
  end.

Lemma displayed_ok s : stage_to_wire (failure_stage_text s) = Ok (displayed s).
Proof. by destruct s. Qed.

Lemma stored_row_shown stamp r : to_list_row (row, stored_row stamp r) =
  Ok (mkListRow ("row:" +:+ stamp.1) row (q_trace_id (qr_base r)) (q_source_id (qr_base r)) (q_source_id (qr_base r)) (q_failure_reason (qr_base r))
        (displayed (q_failure_stage (qr_base r))) (iso_z stamp.2) open).
Proof. unfold to_list_row, stored_row. cbn [snd fst hi_failure_stage]. by rewrite displayed_ok. Qed.

(** The records of one hold. *)
Lemma held_records fails event ctx stage failures h n h' : hold_row_failures fails event ctx stage failures h = Ok (n, h') ->
  exists records, held_rows h' = held_rows h ++ records /\ n = length records /\
    Forall (fun r => exists channel fs, qr_base r = quarantine_base event ctx channel stage VALIDATION_ROW_FAILED fs) records.
Proof.
  unfold hold_row_failures. destruct (ctx_dis_channel ctx) as [ch|]; [|done]. destruct (ctx_mapping_version_id ctx) as [v|]; [|done].
  intros Hh. inv_ok. exists a0. split_and!; [|done|].
  - unfold hold_rows in Hs1. destruct a0 as [|first rest]; [done|]. inv_ok. by destruct (fails _); [|injection Hs1 as <-].
  - apply map_res_ok in Hs0. clear -Hs0. induction Hs0 as [|[i fs] r l k Hr _ IH]; [constructor|]. constructor; [|done].
    unfold make_row in Hr. inv_ok. by exists ch, fs.
Qed.

Lemma all_items_insert stamps records db :
  all_items (insert_rows stamps records db) ≡ₚ all_items db ++ leg row (zip_with stored_row stamps records).
Proof. unfold all_items, insert_rows, leg. cbn. rewrite map_app, <- !app_assoc. apply Permutation_app_head, Permutation_app_comm. Qed.

Lemma new_visible scope stamps records tenant : sees scope tenant = true ->
  Forall (fun r => q_tenant_id (qr_base r) = tenant) records ->
  filter (fun i => visible scope i.2 = true) (leg row (zip_with stored_row stamps records)) = leg row (zip_with stored_row stamps records).
Proof.
  intros Hv Hr. revert stamps. induction Hr as [|r records Ht _ IH]; intros [|stamp stamps]; [done..|]. cbn [zip_with leg map].
  rewrite filter_cons_True; [f_equal; apply IH|]. unfold visible. cbn. by rewrite Ht.
Qed.

Lemma view_insert scope stamps records tenant db : sees scope tenant = true -> Forall (fun r => q_tenant_id (qr_base r) = tenant) records ->
  view scope (insert_rows stamps records db) ≡ₚ view scope db ++ leg row (zip_with stored_row stamps records).
Proof.
  intros Hv Hr. unfold view. rewrite (filter_Permutation _ _ _ (all_items_insert stamps records db)), filter_app.
  by rewrite (new_visible scope stamps records tenant).
Qed.

Lemma view_insert_hidden scope stamps records tenant db : sees scope tenant = false -> Forall (fun r => q_tenant_id (qr_base r) = tenant) records ->
  view scope (insert_rows stamps records db) = view scope db.
Proof.
  intros Hv Hr. unfold view, all_items, insert_rows. cbn [qt_rows qt_chunks]. unfold leg. rewrite map_app, !filter_app. f_equal.
  rewrite <- (app_nil_r (filter _ (map (pair row) (qt_rows db)))) at 2. f_equal.
  revert stamps. induction Hr as [|r records Ht _ IH]; intros [|stamp stamps]; [done..|]. cbn [zip_with map].
  rewrite filter_cons_False; [apply IH|]. unfold visible. cbn. rewrite Ht. by rewrite Hv.
Qed.

(** ** Results in any order *)

Definition good {A B E} (f : A -> result E B) (x : A) : option B := match f x with Ok y => Some y | Err _ => None end.

Lemma map_res_good {A B E} (f : A -> result E B) l ys : map_res f l = Ok ys -> ys = omap (good f) l.
Proof. intros Hl%map_res_ok. induction Hl as [|x y l ys Hx _ IH]; [done|]. cbn. unfold good at 1. by rewrite Hx, <- IH. Qed.

(** ** The rows of one hold in the list *)

(** How a row held for a failed gate is displayed. *)
Definition row_shown (event : IngressReadyEvent) (stage : Stage) (stamp : uuid * Z) : QuarantineListRow :=
  mkListRow ("row:" +:+ stamp.1) row (ev_trace_id event) (ev_source_id event) (ev_source_id event) "VALIDATION_ROW_FAILED"
    (displayed (failure_stage_for stage)) (iso_z stamp.2) open.

Definition of_hold (event : IngressReadyEvent) (ctx : FlowContext) (stage : Stage) (r : QuarantinedRow) : Prop :=
  exists channel fs, qr_base r = quarantine_base event ctx channel stage VALIDATION_ROW_FAILED fs.

Lemma hold_shown event ctx stage stamp r : of_hold event ctx stage r ->
  to_list_row (row, stored_row stamp r) = Ok (row_shown event stage stamp).
Proof. intros (channel & fs & Hb). rewrite stored_row_shown, Hb. done. Qed.

Lemma new_rows_shown event ctx stage stamps records : length stamps = length records -> Forall (of_hold event ctx stage) records ->
  omap (good to_list_row) (leg row (zip_with stored_row stamps records)) = map (row_shown event stage) stamps.
Proof.
  intros Hl Hr. revert stamps Hl. induction Hr as [|r records Hb _ IH]; intros [|stamp stamps]; [done..|]. intros [= Hl].
  cbn [zip_with leg map omap list_omap]. unfold good at 1. rewrite (hold_shown _ _ _ _ _ Hb). f_equal. by apply IH.
Qed.

Lemma new_rows_open stamps records : length stamps = length records ->
  filter (fun i => String.eqb (hi_status i.2) "NEW" = true) (leg row (zip_with stored_row stamps records)) = leg row (zip_with stored_row stamps records).
Proof.
  revert records. induction stamps as [|stamp stamps IH]; intros [|r records]; [done..|]. intros [= Hl]. cbn [zip_with leg map].
  rewrite filter_cons_True by done. f_equal. by apply IH.
Qed.

Lemma new_row_elem stamps records i : i ∈ leg row (zip_with stored_row stamps records) ->
  exists stamp r, r ∈ records /\ i = (row, stored_row stamp r).
Proof.
  intros (h & -> & Hh)%list_elem_of_fmap. apply elem_of_lookup_zip_with in Hh as (n & id & r & -> & _ & Hr). exists id, r. split; [|done].
  by eapply list_elem_of_lookup_2.
Qed.

(** C25. Every row a gate of the consumer fails is shown: after the rows of an event are held and inserted, whoever may
    see the tenant of the event finds in the list what was there before and exactly one open item per failing
    row, with the trace and the source of the event and the bucket of the gate, and the open count grows by
    as many; whoever may not see it finds what was there before. *)
Theorem held_rows_are_shown `{AuthOutside} fails event ctx stage failures h n h' r scope now en db before s1 stamps :
  hold_row_failures fails event ctx stage failures h = Ok (n, h') -> length stamps = n ->
  honest en -> held_ok db -> require_read_scope r = Ok scope ->
  list_quarantine r None None None None now (en, db) = (Ok before, s1) ->
  exists after, (list_quarantine r None None None None now (en, insert_rows stamps (drop (length (held_rows h)) (held_rows h')) db)).1 = Ok after /\
    if sees scope (ev_tenant_id event)
    then items after ≡ₚ items before ++ map (row_shown event stage) stamps /\ open_count after = (open_count before + n)%nat
    else items after = items before /\ open_count after = open_count before.
Proof.
  intros Hhold Hlen Hh Hok Hr Hbefore. destruct (held_records _ _ _ _ _ _ _ _ Hhold) as (records & -> & -> & Hrec).
  rewrite drop_app_length. change (Forall (of_hold event ctx stage) records) in Hrec.
  destruct (listed_inv _ _ _ _ _ _ _ _ _ _ Hbefore) as (scope' & Hr' & Ha). assert (scope' = scope) as -> by congruence. clear Hr'.
  pose proof (list_request r scope None None None None now en db Hh Hr Ha) as Hq. cbn [fmap option_fmap option_map] in Hq. rewrite Hbefore in Hq.
  pose proof (list_request r scope None None None None now en (insert_rows stamps records db) Hh Hr Ha) as Hq'.
  cbn [fmap option_fmap option_map] in Hq'. rewrite Hq'. clear Hq' Hbefore. rewrite filter_everything in Hq by done. rewrite filter_everything by done.
  destruct (map_res to_list_row (merge_sort newer (view scope db))) as [rows|e] eqn:Hrows; [|done]. injection Hq as -> _. cbn [items open_count fst].
  assert (Forall (fun q => q_tenant_id (qr_base q) = ev_tenant_id event) records) as Htenant.
  { eapply Forall_impl; [exact Hrec|]. intros q (ch & fs & ->). done. }
  destruct (sees scope (ev_tenant_id event)) eqn:Hsees.
  - pose proof (view_insert scope stamps records _ db Hsees Htenant) as Hperm.
    destruct (map_res_total to_list_row (merge_sort newer (view scope (insert_rows stamps records db)))) as [rows' Hrows'].
    { intros i Hi. rewrite merge_sort_Permutation, Hperm in Hi. apply elem_of_app in Hi as [Hi|Hi].
      - apply list_row_total; [eapply ok_stage|eapply ok_status]; eauto using view_elem.
      - apply new_row_elem in Hi as (id & q & Hq & ->). eexists. eapply hold_shown. by eapply Forall_forall in Hrec. }
    rewrite Hrows'. eexists. split; [done|]. cbn [items open_count]. split.
    + rewrite (map_res_good _ _ _ Hrows), (map_res_good _ _ _ Hrows'), !merge_sort_Permutation, Hperm, omap_app.
      by rewrite (new_rows_shown event ctx stage).
    + rewrite (Permutation_length (filter_Permutation _ _ _ Hperm)), filter_app, new_rows_open, length_app by done.
      unfold leg. by rewrite length_map, length_zip_with, Hlen, Nat.min_id.
  - rewrite (view_insert_hidden scope stamps records _ db Hsees Htenant), Hrows. by eexists.
Qed.

(** ** Concrete tables *)

Definition item_1 : uuid := "11111111-0000-0000-0000-000000000001".
Definition item_2 : uuid := "22222222-0000-0000-0000-000000000002".
Definition item_3 : uuid := "33333333-0000-0000-0000-000000000003".
Definition item_4 : uuid := "44444444-0000-0000-0000-000000000004".

Definition price_failure : dict value :=
  [("failures", VList [VDict [("column", VStr "price"); ("check", VStr "cast"); ("reason", VStr "not a number")]])].

Definition held_tables : quarantine_tables := mkQuarantineTables
  [mkHeldItem item_1 tenant_a "tr-1" "pos" "MAPPING_EXECUTION" "VALIDATION_ROW_FAILED" (Some price_failure) (Some 7%Z) 1000 "NEW";
   mkHeldItem item_2 tenant_b "tr-2" "pos" "IDENTITY_VALIDATION" "VALIDATION_ROW_FAILED" None (Some 8%Z) 2000 "NEW"]
  [mkHeldItem item_3 tenant_a "tr-3" "erp" "MAPPING_LOOKUP" "MAPPING_CONFIG_INVALID" (Some [("failure_message", VStr "no ACTIVE mapping")])
     None 3000 "RESOLVED"].

Lemma held_tables_ok : held_ok held_tables.
Proof.
  assert (forall i, i ∈ all_items held_tables ->
    bool_decide (hi_failure_stage i.2 ∈ dict_keys STAGE_DB_TO_WIRE) && bool_decide (hi_status i.2 ∈ dict_keys STATUS_DB_TO_WIRE) &&
    is_uuid_text (hi_id i.2) = true) as Hall.
  { apply Forall_forall. apply (bool_decide_unpack _). vm_compute. exact I. }
  split.
  - intros i Hi. specialize (Hall i Hi). rewrite !andb_true_iff, !bool_decide_eq_true in Hall. tauto.
  - intros i Hi. specialize (Hall i Hi). rewrite !andb_true_iff, !bool_decide_eq_true in Hall. tauto.
  - apply (bool_decide_unpack _). vm_compute. exact I.
  - intros i Hi. specialize (Hall i Hi). rewrite !andb_true_iff in Hall. tauto.
Qed.

Lemma good_engine_honest : honest good_engine.
Proof. intros [=]. Qed.

Abbreviation console source et st w := (@list_quarantine sample_auth (bearer "a") source et st w 5000 (good_engine, held_tables)).
Abbreviation console_item item_id := (@get_quarantine_item sample_auth (bearer "a") item_id (good_engine, held_tables)).

(** Tenant A sees two items, newest first, one of them open. *)
Example console_lists : exists resp s, console None None None None = (Ok resp, s) /\
  map (fun x => (lr_id x, lr_failure_stage x, lr_status x)) (items resp) =
    [("chunk:" +:+ item_3, other, resolved); ("row:" +:+ item_1, normalization, open)] /\ open_count resp = 1%nat.
Proof. eexists _, _. split; [vm_compute; reflexivity|]. split; vm_compute; reflexivity. Qed.

Example console_detail : exists d s, console_item ("row:" +:+ item_1) = (Ok d, s) /\
  qd_error_context d = "normalization: price, cast, not a number".
Proof. eexists _, _. split; vm_compute; reflexivity. Qed.

(** An item of another tenant, and a malformed id. *)
Example console_hides : (console_item ("row:" +:+ item_2)).1 = Err (item_not_found ("row:" +:+ item_2)) /\
  (console_item "row:x").1 = Err (item_not_found "row:x").
Proof. split; vm_compute; reflexivity. Qed.

Lemma console_filters_what_it_shows_witness : exists all s1,
  console None None None None = (Ok all, s1) /\
  console (Some "pos") (Some "normalization") (Some "open") None =
    (Ok (mkListResponse (filter (fun x => shown (Some "pos") (Some normalization) (Some open) x = true) (items all)) (open_count all)), s1).
Proof.
  destruct (console None None None None) as [[all|e] s1] eqn:Hall; [|vm_compute in Hall; discriminate Hall].
  exists all, s1. split; [reflexivity|].
  exact (proj1 (@console_filters_what_it_shows sample_auth (bearer "a") (Some "pos") (Some normalization) (Some open) None 5000 _ _ all s1
    good_engine_honest held_tables_ok Hall)).
Defined.

Lemma console_ids_open_details_witness : exists all s1 x d,
  console None None None None = (Ok all, s1) /\ x ∈ items all /\ (console_item (lr_id x)).1 = Ok d /\ describes d x.
Proof.
  destruct (console None None None None) as [[all|e] s1] eqn:Hall; [|vm_compute in Hall; discriminate Hall].
  destruct (@console_ids_open_details sample_auth (bearer "a") 5000 _ _ all s1 good_engine_honest held_tables_ok Hall) as [Hopen _].
  destruct (items all) as [|x rest] eqn:Hitems.
  { vm_compute in Hall. injection Hall as <- _. discriminate Hitems. }
  destruct (Hopen x) as (d & Hd & Hx); [left|]. exists all, s1, x, d. split; [reflexivity|]. split; [rewrite Hitems; left|]. split; [exact Hd|exact Hx].
Defined.

Definition failing_event : IngressReadyEvent := mkIngressReady "tr-4" tenant_a "store-1" "manual" template_1 "b-1" "gs://bronze/key" 0 "," false None.
Definition gate_ctx : FlowContext := mkFlowContext (Some "b") (Some 7%Z) (Some "csv_upload") (Some 9%Z).
Definition sample_gate_failures : list GateFailure := [(Some "price", Some 4%Z, "cast", "bad"); (Some "qty", Some 4%Z, "cast", "bad")].

Lemma held_rows_are_shown_witness : exists n h' before s1 after,
  hold_row_failures (fun _ => false) failing_event gate_ctx POST_MAPPING_VALIDATED sample_gate_failures (mkHeld [] []) = Ok (n, h') /\
  console None None None None = (Ok before, s1) /\
  (@list_quarantine sample_auth (bearer "a") None None None None 5000 (good_engine, insert_rows [(item_4, 4000%Z)] (held_rows h') held_tables)).1 = Ok after /\
  items after ≡ₚ items before ++ [row_shown failing_event POST_MAPPING_VALIDATED (item_4, 4000%Z)].
Proof.
  destruct (hold_row_failures (fun _ => false) failing_event gate_ctx POST_MAPPING_VALIDATED sample_gate_failures (mkHeld [] [])) as [[n h']|e] eqn:Hh;
    [|vm_compute in Hh; discriminate Hh].
  destruct (console None None None None) as [[before|e] s1] eqn:Hb; [|vm_compute in Hb; discriminate Hb].
  assert (length [(item_4, 4000%Z)] = n) as Hn by (vm_compute in Hh; injection Hh as <- _; reflexivity).
  destruct (@held_rows_are_shown sample_auth _ failing_event gate_ctx POST_MAPPING_VALIDATED sample_gate_failures (mkHeld [] []) n h' (bearer "a")
    (mkReadScope false (Some tenant_a)) 5000 _ _ before s1 [(item_4, 4000%Z)] Hh Hn good_engine_honest held_tables_ok ltac:(vm_compute; reflexivity) Hb)
    as (after & Ha & Hp).
  exists n, h', before, s1, after. split; [reflexivity|]. split; [reflexivity|]. split; [exact Ha|exact (proj1 Hp)].
Defined.
