(* ===== verification/Dashboard.v ===== *)
(** Dashboard: the metrics of the last day (dis-ui-server [handlers/dashboard.py], [repos/dashboard.py],
    [schemas/dashboard.py]; tables [schemas/postgres/audit/events.sql], quarantine and canonical).

    The reads are one transaction under the row policies, at PostgreSQL's default isolation: each of the six
    statements sees what is committed when it starts, so the database of a request is a sequence of tables, one per
    statement, and [now()] is the start of the transaction for all of them.  [hash_order] is the order in which the
    database emits the groups of an aggregate; rows that tie in an ORDER BY keep it. *)

From Stdlib Require Import SpecFloat.
From S2P Require Import Prelude Text Values Decimals Transform Provenance HotMapping Polars Sink Validation Quarantine Consumer UiErrors Access Rls.
From S2P Require Import TenantSample Upload Console ConsoleTheorems ConsoleHold.
Local Open Scope nat_scope.

(** ** Tables *)

(** A row of [audit.events], the columns that are read; the template is [event_data->>'template_id']. *)
Record AuditRow := mkAuditRow {
  aw_tenant_id : option uuid;
  aw_stage : string;
  aw_outcome : string;
  aw_row_count : option Z;
  aw_event_timestamp : Z;
  aw_template_id : option string
}.

(** Of a canonical table only the tenant of each row matters here. *)
Record metric_tables := mkMetricTables {
  mt_events : list AuditRow;
  mt_quarantine : quarantine_tables;
  mt_canonical : string -> list uuid
}.

(** The committed tables as the statements of a request find them, by the number of the statement. *)
Definition moments : Type := nat -> metric_tables.

Definition undo_metrics (before _ : moments) : moments := before.

(** [rls_audit_events_tenant]: an event without a tenant is everybody's. *)
Definition audit_using (s : session) (tenant : option uuid) : bool :=
  match tenant with Some t => policy_using s t | None => true end.

(** ** Reads *)

Definition CANONICAL_TABLES : list string := ["store_sku_current_position"; "store_sku_sale_events"; "store_sku_change_events"].

Definition DAY_US : Z := 24 * 3600000000.

Definition received_24h (s : session) (now : Z) (events : list AuditRow) : list AuditRow :=
  filter (fun e => audit_using s (aw_tenant_id e) && String.eqb (aw_stage e) "RECEIVED" && String.eqb (aw_outcome e) "SUCCESS" &&
                   (now - DAY_US <=? aw_event_timestamp e)%Z = true) events.

Definition sum_z (l : list Z) : Z := foldr Z.add 0%Z l.

(** [COALESCE(SUM(row_count), 0)] *)
Definition sum_rows (events : list AuditRow) : Z := sum_z (map (fun e => default 0%Z (aw_row_count e)) events).

Definition quarantined_24h (s : session) (now : Z) (q : quarantine_tables) : Z :=
  let recent := fun i => (now - DAY_US <=? hi_quarantined_at i)%Z in
  (Z.of_nat (length (selected s recent (qt_rows q))) + Z.of_nat (length (selected s recent (qt_chunks q))))%Z.

Record FlowAggRow := mkFlowAgg { fa_template_id : option string; fa_rows_24h : Z; fa_last_received_at : option Z }.

(** [MAX(event_timestamp)] *)
Fixpoint latest (l : list Z) : option Z :=
  match l with [] => None | x :: l' => Some (match latest l' with Some y => Z.max x y | None => x end) end.

Definition flow_group (events : list AuditRow) (template : option string) : FlowAggRow :=
  let group := filter (fun e => aw_template_id e = template) events in
  mkFlowAgg template (sum_rows group) (latest (map aw_event_timestamp group)).

(** [GROUP BY 1] *)
Definition flow_groups (events : list AuditRow) : list FlowAggRow := map (flow_group events) (remove_dups (map aw_template_id events)).

Definition more_rows (a b : FlowAggRow) : Prop := (fa_rows_24h b <= fa_rows_24h a)%Z.
Global Instance more_rows_dec : RelDecision more_rows := fun a b => Z_le_dec (fa_rows_24h b) (fa_rows_24h a).

Class DashboardOutside := { hash_order : list FlowAggRow -> list FlowAggRow }.
Class DashboardLaws `{DashboardOutside} := { hash_order_perm l : hash_order l ≡ₚ l }.

Record DashboardMetricsData := mkMetricsData {
  dm_rows_ingested_24h : Z;
  dm_quarantined_rows_24h : Z;
  dm_canonical_by_table : list (string * Z);
  dm_flow : list FlowAggRow
}.

(** [SELECT count( * ) FROM canonical.table] *)
Definition count_canonical (s : session) (table : string) (d : metric_tables) : Z :=
  Z.of_nat (length (filter (fun t => policy_using s t = true) (mt_canonical d table))).

Definition flow_24h `{DashboardOutside} (s : session) (now : Z) (events : list AuditRow) : list FlowAggRow :=
  merge_sort more_rows (hash_order (flow_groups (received_24h s now events))).

Definition read_metrics `{DashboardOutside} (now : Z) (s : session) (h : moments) : DashboardMetricsData :=
  mkMetricsData (sum_rows (received_24h s now (mt_events (h 0)))) (quarantined_24h s now (mt_quarantine (h 1)))
    (imap (fun k table => (table, count_canonical s table (h (2 + k)))) CANONICAL_TABLES)
    (flow_24h s now (mt_events (h (2 + length CANONICAL_TABLES)))).

Definition fetch_dashboard_metrics `{DashboardOutside} (scope : ReadScope) (now : Z) : @action moments DashboardMetricsData :=
  read_session undo_metrics (rs_is_platform scope) (rs_tenant_id scope) (fun s h => (Ok (read_metrics now s h), h)).

(** ** The response *)

(** The double nearest to a quotient of integers, [a / b] for [b > 0]. *)
Definition float_ratio (a b : Z) : spec_float :=
  match a, b with
  | Z0, _ => S754_zero false
  | Zpos p, Zpos q => SFdiv 53 1024 (S754_finite false p 0) (S754_finite false q 0)
  | Zneg p, Zpos q => SFdiv 53 1024 (S754_finite true p 0) (S754_finite false q 0)
  | _, _ => S754_nan
  end.

Record QuarantineMetrics := mkQuarantineMetrics { qm_quarantined_rows : Z; qm_received_rows : Z; qm_rate : option spec_float }.
Record CanonicalRecords := mkCanonicalRecords { cr_total : Z; cr_by_table : list (string * Z) }.
Record FlowRow := mkFlowRow { fr_template_id : option string; fr_rows_24h : Z; fr_last_received_at : option string }.

Record DashboardMetrics := mkDashboardMetrics {
  dx_rows_ingested_24h : Z;
  dx_quarantine_24h : QuarantineMetrics;
  dx_records_in_canonical : CanonicalRecords;
  dx_flow : list FlowRow
}.

Definition metrics_to_wire (data : DashboardMetricsData) : DashboardMetrics :=
  let received := dm_rows_ingested_24h data in
  let quarantined := dm_quarantined_rows_24h data in
  mkDashboardMetrics received
    (mkQuarantineMetrics quarantined received (if (0 <? received)%Z then Some (float_ratio quarantined received) else None))
    (mkCanonicalRecords (sum_z (map snd (dm_canonical_by_table data))) (dm_canonical_by_table data))
    (map (fun r => mkFlowRow (fa_template_id r) (fa_rows_24h r) (datetime_iso <$> fa_last_received_at r)) (dm_flow data)).

Definition get_dashboard_metrics `{AuthOutside} `{DashboardOutside} (r : request) (now : Z) : @action moments DashboardMetrics :=
  scope ← act (require_read_scope r);
  data ← fetch_dashboard_metrics scope now;
  mret (metrics_to_wire data).

(** ** What the services write *)

Definition audit_stage_text (s : Stage) : string :=
  match s with
  | RECEIVED => "RECEIVED" | PII_TOKENIZED => "PII_TOKENIZED" | BRONZE_WRITTEN => "BRONZE_WRITTEN" | INGRESS_PUBLISHED => "INGRESS_PUBLISHED"
  | MAPPING_LOOKED_UP => "MAPPING_LOOKED_UP" | IDENTITY_VALIDATED => "IDENTITY_VALIDATED" | PRE_MAPPING_VALIDATED => "PRE_MAPPING_VALIDATED"
  | MAPPING_EXECUTED => "MAPPING_EXECUTED" | POST_MAPPING_VALIDATED => "POST_MAPPING_VALIDATED" | CANONICAL_WRITTEN => "CANONICAL_WRITTEN"
  | QUARANTINED => "QUARANTINED" | SIGNAL_COMPUTED => "SIGNAL_COMPUTED"
  end.

Definition audit_outcome_text (o : Outcome) : string :=
  match o with
  | SUCCESS => "SUCCESS" | FAILURE => "FAILURE" | SKIPPED => "SKIPPED" | RETRIED => "RETRIED" | OUT_DUPLICATE_NOOP => "DUPLICATE_NOOP"
  | OUT_DUPLICATE_OVERWRITTEN => "DUPLICATE_OVERWRITTEN"
  end.

(** An event as it is inserted, at a time and with the template in its data. *)
Definition stored_event (at_ : Z) (template : option string) (e : AuditEvent) : AuditRow :=
  mkAuditRow (Some (au_tenant_id e)) (audit_stage_text (au_stage e)) (audit_outcome_text (au_outcome e)) (au_row_count e) at_ template.

(** ** Sums *)

Lemma sum_z_perm l k : l ≡ₚ k -> sum_z l = sum_z k.
Proof. unfold sum_z. induction 1; cbn; lia. Qed.

Lemma sum_rows_cons e l : sum_rows (e :: l) = (default 0 (aw_row_count e) + sum_rows l)%Z.
Proof. done. Qed.

(** Over distinct templates that cover the events, the sums of the groups add up. *)
Lemma group_sums templates : NoDup templates -> forall events, (forall e, e ∈ events -> aw_template_id e ∈ templates) ->
  sum_z (map (fun t => sum_rows (filter (fun e => aw_template_id e = t) events)) templates) = sum_rows events.
Proof.
  intros Hn. induction events as [|e events IH]; intros Hcov.
  { clear. induction templates as [|t ts IH]; [done|]. exact IH. }
  rewrite sum_rows_cons, <- IH by (intros e' He'; apply Hcov; by right). assert (aw_template_id e ∈ templates) as Hin by (apply Hcov; left).
  clear IH Hcov. induction Hn as [|t ts Ht Hn IH]; [by apply not_elem_of_nil in Hin|]. cbn [map sum_z foldr]. fold (sum_z).
  rewrite filter_cons. case_decide as He.
  - subst t. rewrite sum_rows_cons. assert (map (fun t => sum_rows (filter (fun e0 => aw_template_id e0 = t) (e :: events))) ts =
      map (fun t => sum_rows (filter (fun e0 => aw_template_id e0 = t) events)) ts) as Hsame.
    { apply map_ext_in. intros t Hin'. rewrite filter_cons_False; [done|]. intros <-. apply Ht. by apply list_elem_of_In. }
    unfold sum_z in *. rewrite Hsame. lia.
  - apply elem_of_cons in Hin as [Hin|Hin]; [by destruct He|]. specialize (IH Hin). unfold sum_z in *. lia.
Qed.

Lemma flow_adds_up events : sum_z (map fa_rows_24h (flow_groups events)) = sum_rows events.
Proof.
  unfold flow_groups. rewrite map_map. cbn. apply group_sums; [apply NoDup_remove_dups|].
  intros e He. apply elem_of_remove_dups. by apply list_elem_of_fmap_2.
Qed.

Global Instance more_rows_total : Total more_rows.
Proof. intros a b. unfold more_rows. lia. Qed.
Global Instance more_rows_trans : Transitive more_rows.
Proof. intros a b c. unfold more_rows. lia. Qed.

(** ** The request *)

Lemma policy_sees scope p t : scope_ok scope -> bypasses p = false -> policy_using (mkSession p (scope_guc scope)) t = sees scope t.
Proof.
  intros Hs Hb. unfold policy_using, sees. cbn. rewrite Hb. destruct Hs as [->|(u & Hu & ->)]; cbn; [by rewrite orb_true_r|].
  unfold guc_tenant. cbn. destruct (String.eqb_spec u ""); [done|]. by rewrite orb_false_r.
Qed.

Definition sees_event (scope : ReadScope) (e : AuditRow) : bool := match aw_tenant_id e with Some t => sees scope t | None => true end.

(** What a scope may see. *)
Definition seen_by (scope : ReadScope) (d : metric_tables) : metric_tables :=
  mkMetricTables (filter (fun e => sees_event scope e = true) (mt_events d))
    (mkQuarantineTables (filter (fun i => visible scope i = true) (qt_rows (mt_quarantine d)))
       (filter (fun i => visible scope i = true) (qt_chunks (mt_quarantine d))))
    (fun table => filter (fun t => sees scope t = true) (mt_canonical d table)).

Lemma filter_twice {A} (p q : A -> bool) (l : list A) : (forall x, q x = true -> p x = true) ->
  filter (fun x => q x = true) (filter (fun x => p x = true) l) = filter (fun x => q x = true) l.
Proof. intros Hpq. rewrite list_filter_filter. apply list_filter_iff. intros x. naive_solver. Qed.

Lemma audit_sees scope p e : scope_ok scope -> bypasses p = false -> audit_using (mkSession p (scope_guc scope)) (aw_tenant_id e) = sees_event scope e.
Proof. intros Hs Hb. unfold audit_using, sees_event. destruct (aw_tenant_id e); [by apply policy_sees|done]. Qed.

Definition all_seen_by (scope : ReadScope) (h : moments) : moments := fun k => seen_by scope (h k).

(** The metrics are a function of what the scope may see. *)
Lemma metrics_of_seen `{DashboardOutside} scope p now h : scope_ok scope -> bypasses p = false ->
  read_metrics now (mkSession p (scope_guc scope)) (all_seen_by scope h) = read_metrics now (mkSession p (scope_guc scope)) h.
Proof.
  intros Hs Hb. unfold read_metrics, flow_24h, all_seen_by. set (se := mkSession p (scope_guc scope)).
  assert (forall d, received_24h se now (mt_events (seen_by scope d)) = received_24h se now (mt_events d)) as Hev.
  { intros d. unfold received_24h, seen_by. cbn [mt_events]. apply (filter_twice (sees_event scope)).
    intros e. rewrite !andb_true_iff. unfold se. rewrite audit_sees by done. tauto. }
  assert (forall P l, selected se P (filter (fun i => visible scope i = true) l) = selected se P l) as Hsel.
  { intros P l. unfold selected. apply (filter_twice (visible scope)). intros i. unfold se. rewrite policy_sees, andb_true_iff by done. by intros [? _]. }
  assert (forall table d, count_canonical se table (seen_by scope d) = count_canonical se table d) as Hcan.
  { intros table d. unfold count_canonical, seen_by. cbn [mt_canonical]. do 2 f_equal. apply (filter_twice (sees scope)).
    intros t. unfold se. by rewrite policy_sees. }
  rewrite !Hev. unfold quarantined_24h. cbn [seen_by mt_quarantine qt_rows qt_chunks]. rewrite !Hsel. f_equal.
  apply imap_ext. intros k table _. cbv beta. by rewrite Hcan.
Qed.

(** What is quarantined in the last day is what the console lists for it. *)
Lemma quarantined_listed scope p now q : scope_ok scope -> bypasses p = false ->
  quarantined_24h (mkSession p (scope_guc scope)) now q =
  Z.of_nat (length (filter (fun i => filters None None None (Some (now - DAY_US)%Z) i.2 = true) (view scope q))).
Proof.
  intros Hs Hb. unfold quarantined_24h. cbv zeta. set (recent := fun i => (now - DAY_US <=? hi_quarantined_at i)%Z).
  assert (forall l, selected (mkSession p (scope_guc scope)) recent l = filter (fun i => visible scope i && recent i = true) l) as Hsel.
  { intros l. unfold selected. apply list_filter_iff. intros i. by rewrite policy_sees. }
  rewrite !Hsel. change (filters None None None (Some (now - DAY_US)%Z)) with recent.
  rewrite <- (view_filter scope recent q), <- (legs_filter (fun i => visible scope i && recent i) q), length_app. unfold leg. rewrite !length_map. lia.
Qed.

Lemma sum_rows_nonneg l : (forall e n, e ∈ l -> aw_row_count e = Some n -> (0 <= n)%Z) -> (0 <= sum_rows l)%Z.
Proof.
  induction l as [|e l IH]; intros Hn; [done|]. rewrite sum_rows_cons.
  assert (0 <= sum_rows l)%Z by (apply IH; intros e' n He'; apply Hn; by right).
  destruct (aw_row_count e) as [n|] eqn:He; cbn; [|lia]. specialize (Hn e n ltac:(left) He). lia.
Qed.

(** The receipts of the last day that a scope may see. *)
Definition received_by (scope : ReadScope) (now : Z) (events : list AuditRow) : list AuditRow :=
  filter (fun e => sees_event scope e && String.eqb (aw_stage e) "RECEIVED" && String.eqb (aw_outcome e) "SUCCESS" &&
                   (now - DAY_US <=? aw_event_timestamp e)%Z = true) events.

Lemma received_seen scope p now events : scope_ok scope -> bypasses p = false ->
  received_24h (mkSession p (scope_guc scope)) now events = received_by scope now events.
Proof. intros Hs Hb. unfold received_24h, received_by. apply list_filter_iff. intros e. by rewrite audit_sees. Qed.

Lemma sum_rows_perm l k : l ≡ₚ k -> sum_rows l = sum_rows k.
Proof. intros Hp. unfold sum_rows. apply sum_z_perm. by rewrite Hp. Qed.

Lemma sum_rows_app l k : sum_rows (l ++ k) = (sum_rows l + sum_rows k)%Z.
Proof. induction l as [|e l IH]; [done|]. cbn [app]. rewrite !sum_rows_cons, IH. lia. Qed.

(** The flow panel of a statement adds up to the receipts that statement sees, in descending order by template. *)
Lemma flow_panel `{DashboardLaws} s now events :
  sum_z (map fa_rows_24h (flow_24h s now events)) = sum_rows (received_24h s now events) /\
  NoDup (map fa_template_id (flow_24h s now events)) /\ StronglySorted more_rows (flow_24h s now events).
Proof.
  set (received := received_24h s now events).
  assert (flow_24h s now events ≡ₚ flow_groups received) as Hperm by (unfold flow_24h; by rewrite merge_sort_Permutation, hash_order_perm).
  split_and!.
  - rewrite <- flow_adds_up. apply sum_z_perm. by rewrite Hperm.
  - rewrite Hperm. unfold flow_groups. rewrite map_map. cbn. rewrite map_id. apply NoDup_remove_dups.
  - apply StronglySorted_merge_sort; apply _.
Qed.

(** C26. The dashboard adds up as far as its statements see the same rows, and agrees with the quarantine console.
    The six statements of a request each see what is committed when they start, with other requests committing in
    between.  For whoever may read: the rows ingested, which are also the rows received of the quarantine panel, are the
    rows of the receipts of the last day the reader may see at the first statement, and the rate is there exactly when
    there are any; the count of quarantined items is the length of the list the console shows for the last day on the
    tables of the second statement; and the rows of the flow panel have distinct templates, come in descending order,
    and add up to the rows ingested plus the rows of the visible receipts that were committed between the first and the
    last statement.  The answer depends only on the rows the reader may see at each statement. *)
Theorem dashboard_adds_up `{AuthOutside} `{DashboardLaws} r scope now en (h : moments) between :
  honest en -> answers en -> require_read_scope r = Ok scope -> held_ok (mt_quarantine (h 1)) ->
  mt_events (h 5) ≡ₚ mt_events (h 0) ++ between ->
  (forall e n, e ∈ mt_events (h 0) -> aw_row_count e = Some n -> (0 <= n)%Z) ->
  exists m resp, get_dashboard_metrics r now (en, h) = (Ok m, (verified en, h)) /\
    list_quarantine r None None None (Some "24h") now (en, mt_quarantine (h 1)) = (Ok resp, (verified en, mt_quarantine (h 1))) /\
    qm_quarantined_rows (dx_quarantine_24h m) = Z.of_nat (length (items resp)) /\
    dx_rows_ingested_24h m = sum_rows (received_by scope now (mt_events (h 0))) /\
    qm_received_rows (dx_quarantine_24h m) = dx_rows_ingested_24h m /\
    (qm_rate (dx_quarantine_24h m) = None <-> dx_rows_ingested_24h m = 0%Z) /\
    sum_z (map fr_rows_24h (dx_flow m)) = (dx_rows_ingested_24h m + sum_rows (received_by scope now between))%Z /\
    NoDup (map fr_template_id (dx_flow m)) /\
    StronglySorted (fun a b => fr_rows_24h b <= fr_rows_24h a)%Z (dx_flow m) /\
    (get_dashboard_metrics r now (en, all_seen_by scope h)).1 = Ok m.
Proof.
  intros Hh Ha Hr Hok Hgrown Hn. pose proof (read_scope_ok _ _ Hr) as Hs. pose proof (answers_safe en Hh Ha) as Hb.
  set (se := mkSession (en_posture en) (scope_guc scope)).
  assert (forall h', get_dashboard_metrics r now (en, h') = (Ok (metrics_to_wire (read_metrics now se h')), (verified en, h'))) as Hget.
  { intros h'. unfold get_dashboard_metrics, fetch_dashboard_metrics, mbind, action_bind, act. rewrite Hr. by rewrite (read_answers scope en h' _ Hs Ha). }
  pose proof (list_request r scope None None None (Some last_24h) now en (mt_quarantine (h 1)) Hh Hr Ha) as Hlist.
  cbn [fmap option_fmap option_map window_text] in Hlist.
  match type of Hlist with _ = (match map_res to_list_row ?l with _ => _ end, _) => destruct (map_res_total to_list_row l) as [rows Hrows] end.
  { intros i Hi. rewrite merge_sort_Permutation in Hi. apply list_elem_of_filter in Hi as [_ Hi].
    apply list_row_total; [eapply ok_stage|eapply ok_status]; eauto using view_elem. }
  rewrite Hrows in Hlist. destruct (flow_panel se now (mt_events (h 5))) as (Hsum & Hdup & Hsort).
  assert (forall events, received_24h se now events = received_by scope now events) as Hrec by (intros; by apply received_seen).
  eexists _, _. rewrite (Hget h), (Hget (all_seen_by scope h)), Hlist. split_and!; [done|done| |cbn; by rewrite Hrec|done| | | | |].
  - cbn. unfold se. rewrite quarantined_listed by done. f_equal. apply map_res_length in Hrows. rewrite Hrows.
    symmetry. apply Permutation_length, merge_sort_Permutation.
  - cbn. assert ((0 <= sum_rows (received_24h se now (mt_events (h 0%nat))))%Z) as Hpos.
    { apply sum_rows_nonneg. intros e n [_ He]%list_elem_of_filter. by apply Hn. }
    destruct (Z.ltb_spec 0%Z (sum_rows (received_24h se now (mt_events (h 0))))); [split; [done|lia]|]. split; [lia|done].
  - cbn [metrics_to_wire read_metrics dm_flow dx_flow dm_rows_ingested_24h dx_rows_ingested_24h length CANONICAL_TABLES Nat.add].
    rewrite map_map. transitivity (sum_z (map fa_rows_24h (flow_24h se now (mt_events (h 5))))); [done|]. rewrite Hsum, !Hrec, <- sum_rows_app. apply sum_rows_perm. unfold received_by. by rewrite Hgrown, filter_app.
  - cbn [metrics_to_wire read_metrics dm_flow dx_flow length CANONICAL_TABLES Nat.add]. rewrite map_map. exact Hdup.
  - cbn [metrics_to_wire read_metrics dm_flow dx_flow length CANONICAL_TABLES Nat.add]. revert Hsort. generalize (flow_24h se now (mt_events (h 5))). clear. intros l.
    induction 1 as [|x l Hl IH Hx]; cbn; constructor; [done|]. apply Forall_map. eapply Forall_impl; [exact Hx|]. done.
  - cbn [fst]. by rewrite (metrics_of_seen scope (en_posture en)).
Qed.

(** ** A file is received twice *)

(** The receipt the upload writes and the intake the consumer writes on the first delivery of the file are both
    RECEIVED with SUCCESS and a row count, and the queries do not tell the services apart: a file
    that was consumed counts twice. *)
Lemma consumed_upload_counted_twice scope p now event trace n at1 at2 template bronze events :
  scope_ok scope -> bypasses p = false -> sees scope (ev_tenant_id event) = true -> (now - DAY_US <= at1)%Z -> (now - DAY_US <= at2)%Z ->
  sum_rows (received_24h (mkSession p (scope_guc scope)) now
    (stored_event at1 template (receipt_event (ev_tenant_id event) trace SUCCESS (Some n) None) ::
     stored_event at2 None (stage_event event RECEIVED SUCCESS bronze None (Some n) None None None) :: events)) =
  (2 * n + sum_rows (received_24h (mkSession p (scope_guc scope)) now events))%Z.
Proof.
  intros Hs Hb Hsees H1 H2. unfold received_24h. set (keep := fun e => _ = true).
  assert (forall at_ tpl e, au_tenant_id e = ev_tenant_id event -> au_stage e = RECEIVED -> au_outcome e = SUCCESS -> (now - DAY_US <= at_)%Z ->
    keep (stored_event at_ tpl e)) as Hkeep.
  { intros at_ tpl e Ht Hst Ho Hat. unfold keep. cbn [stored_event aw_tenant_id aw_stage aw_outcome aw_event_timestamp audit_using].
    rewrite Ht, Hst, Ho, policy_sees, Hsees by done. by apply Z.leb_le. }
  rewrite !filter_cons_True by (by apply Hkeep). rewrite !sum_rows_cons. cbn. lia.
Qed.

(** ** A sample *)

Definition sample_order : DashboardOutside := {| hash_order l := rev l |}.
Lemma sample_order_laws : @DashboardLaws sample_order.
Proof. split. intros l. symmetry. apply Permutation_rev. Qed.

Definition metric_sample : metric_tables := mkMetricTables
  [mkAuditRow (Some tenant_a) "RECEIVED" "SUCCESS" (Some 3%Z) 4000 (Some template_1);
   mkAuditRow (Some tenant_a) "RECEIVED" "SUCCESS" (Some 3%Z) 4100 None;
   mkAuditRow (Some tenant_b) "RECEIVED" "SUCCESS" (Some 9%Z) 4200 None;
   mkAuditRow (Some tenant_a) "RECEIVED" "FAILURE" None 4300 None]
  held_tables (fun table => if String.eqb table "store_sku_sale_events" then [tenant_a; tenant_b; tenant_a] else []).

(** Another upload is received while the request runs. *)
Definition late_receipt : AuditRow := mkAuditRow (Some tenant_a) "RECEIVED" "SUCCESS" (Some 5%Z) 4900 None.
Definition busy : moments := fun k =>
  if decide (k < 5) then metric_sample
  else mkMetricTables (mt_events metric_sample ++ [late_receipt]) (mt_quarantine metric_sample) (mt_canonical metric_sample).

Abbreviation dashboard h := (@get_dashboard_metrics sample_auth sample_order (bearer "a") 5000 (good_engine, h)).

Definition sample_panels (none_rows : Z) (none_at : string) : DashboardMetrics :=
  mkDashboardMetrics 6 (mkQuarantineMetrics 2 6 (Some (S754_finite false 6004799503160661 (-54))))
    (mkCanonicalRecords 2 [("store_sku_current_position", 0%Z); ("store_sku_sale_events", 2%Z); ("store_sku_change_events", 0%Z)])
    [mkFlowRow None none_rows (Some none_at); mkFlowRow (Some template_1) 3 (Some "1970-01-01T00:00:00.004000+00:00")].

(** On quiet tables the panels agree; a receipt in between shows in the flow and not in the rows ingested. *)
Example dashboard_sample :
  (dashboard ((fun _ => metric_sample) : moments)).1 = Ok (sample_panels 3 "1970-01-01T00:00:00.004100+00:00") /\
  (dashboard busy).1 = Ok (sample_panels 8 "1970-01-01T00:00:00.004900+00:00").
Proof. split; vm_compute; reflexivity. Qed.

Lemma dashboard_adds_up_witness : exists m resp, (dashboard busy).1 = Ok m /\
  (@list_quarantine sample_auth (bearer "a") None None None (Some "24h") 5000 (good_engine, held_tables)).1 = Ok resp /\
  qm_quarantined_rows (dx_quarantine_24h m) = Z.of_nat (length (items resp)) /\
  sum_z (map fr_rows_24h (dx_flow m)) =
    (dx_rows_ingested_24h m + sum_rows (received_by (mkReadScope false (Some tenant_a)) 5000 [late_receipt]))%Z.
Proof.
  destruct (@dashboard_adds_up sample_auth sample_order sample_order_laws (bearer "a") (mkReadScope false (Some tenant_a)) 5000 good_engine busy
    [late_receipt] good_engine_honest ltac:(split; reflexivity) ltac:(vm_compute; reflexivity) held_tables_ok ltac:(reflexivity))
    as (m & resp & Hm & Hl & Hq & _ & _ & _ & Hf & _).
  { assert (Forall (fun e => forall n, aw_row_count e = Some n -> (0 <= n)%Z) (mt_events metric_sample)) as Hall.
    { unfold metric_sample. cbn [mt_events]. repeat (apply Forall_cons_2; [intros n Hn; cbn in Hn; inversion Hn; lia|]). apply Forall_nil_2. }
    rewrite Forall_forall in Hall. intros e n He. exact (Hall e He n). }
  exists m, resp. rewrite Hm. change (mt_quarantine (busy 1)) with held_tables in Hl. rewrite Hl.
  split; [reflexivity|]. split; [reflexivity|]. split; [exact Hq|exact Hf].
Defined.
