(* ===== verification/AuditTrail.v ===== *)
(** AuditTrail: the audit trail, from a stage event to a row (libs/dis-audit [event.py], [postgres_writer.py],
    [bigquery_writer.py], [writer.py], [schema_contract.py]; the emitters of the three services,
    [sinks/audit.py] and [audit.py]; table [schemas/postgres/audit/events.sql]).

    The live table has the columns its schema says, which need not be those the library
    expects.  A row is the values of its columns; [event_data] is kept as the object, its JSON text
    and the cast of the text to JSONB being one step.  What the database accepts as JSONB and as INET,
    whether it takes a statement and whether its commit is confirmed are outside. *)

From S2P Require Import Prelude Text Values Decimals Transform Provenance HotMapping Polars Sink Validation Quarantine Consumer UiErrors Access Rls.
From S2P Require Import TenantSample Upload Console ConsoleTheorems ConsoleHold Dashboard.

(** ** Timestamps *)

(** A datetime: its clock reading, and the offset of its zone unless it is naive. *)
Record datetime := mkDatetime { dt_clock_us : Z; dt_offset_us : option Z }.

(** [datetime.min] and [datetime.max]; a conversion past them raises. *)
Definition MIN_US : Z := -62135596800000000.
Definition MAX_US : Z := 253402300799999999.

Definition now_utc (now : Z) : datetime := mkDatetime now (Some 0%Z).

Definition ensure_utc (dt : datetime) : res datetime :=
  match dt_offset_us dt with
  | None => Err NaiveDatetimeError
  | Some offset =>
      let us := (dt_clock_us dt - offset)%Z in
      if (MIN_US <=? us)%Z && (us <=? MAX_US)%Z then Ok (mkDatetime us (Some 0%Z)) else Err (OtherError "OverflowError")
  end.

(** [dt.date()], as its day number. *)
Definition date_of (dt : datetime) : Z := (dt_clock_us dt / DAY_US)%Z.

(** ** The event *)

Record AuditModel := mkAuditModel {
  am_id : option uuid;
  am_event_timestamp : datetime;
  am_event_date : option Z;
  am_trace_id : uuid;
  am_prior_trace_id : option uuid;
  am_tenant_id : option uuid;
  am_data_ingress_event_id : option uuid;
  am_service_name : string;
  am_service_version : option string;
  am_stage : Stage;
  am_event_scope : EventScope;
  am_outcome : Outcome;
  am_row_count : option Z;
  am_rows_succeeded : option Z;
  am_rows_failed : option Z;
  am_duration_ms : option Z;
  am_row_offset : option Z;
  am_mapping_version_id : option Z;
  am_failure_code : option string;
  am_failure_message : option string;
  am_event_data : option (dict value);
  am_auth_principal : option string;
  am_client_ip : option string;
  am_loaded_at : option datetime
}.

(** [Field(max_length=n)] and [Field(ge=0)] *)
Definition at_most (n : nat) (o : option string) : bool := match o with Some s => (String.length s <=? n)%nat | None => true end.
Definition non_negative (o : option Z) : bool := match o with Some z => (0 <=? z)%Z | None => true end.

Definition fields_ok (e : AuditModel) : bool :=
  at_most 64 (Some (am_service_name e)) && at_most 64 (am_service_version e) &&
  non_negative (am_row_count e) && non_negative (am_rows_succeeded e) && non_negative (am_rows_failed e) && non_negative (am_duration_ms e) &&
  at_most 64 (am_failure_code e) && at_most 2048 (am_failure_message e) && at_most 256 (am_auth_principal e).

Definition set_times (e : AuditModel) (ts : datetime) (date : Z) : AuditModel :=
  mkAuditModel (am_id e) ts (Some date) (am_trace_id e) (am_prior_trace_id e) (am_tenant_id e) (am_data_ingress_event_id e) (am_service_name e)
    (am_service_version e) (am_stage e) (am_event_scope e) (am_outcome e) (am_row_count e) (am_rows_succeeded e) (am_rows_failed e)
    (am_duration_ms e) (am_row_offset e) (am_mapping_version_id e) (am_failure_code e) (am_failure_message e) (am_event_data e)
    (am_auth_principal e) (am_client_ip e) (am_loaded_at e).

(** The constructor: the field validators, then [_derive_event_date]. *)
Definition audit_event (e : AuditModel) : res AuditModel :=
  ts ← ensure_utc (am_event_timestamp e);
  raise_if (negb (fields_ok e)) ValidationError ≫= fun _ =>
  ts' ← ensure_utc ts;
  Ok (set_times e ts (date_of ts')).

Definition db_column_names : list string :=
  ["id"; "event_timestamp"; "event_date"; "trace_id"; "prior_trace_id"; "tenant_id"; "data_ingress_event_id"; "service_name"; "service_version";
   "stage"; "event_scope"; "outcome"; "row_count"; "rows_succeeded"; "rows_failed"; "duration_ms"; "row_offset"; "mapping_version_id";
   "failure_code"; "failure_message"; "event_data"; "auth_principal"; "client_ip"; "_loaded_at"].

Definition SERVER_DEFAULTED : list string := ["id"; "_loaded_at"].

(** [json.dumps] raises on a value JSON does not have. *)
Fixpoint json_dumps_ok (v : value) : bool :=
  match v with
  | VNone | VBool _ | VInt _ | VFloat _ | VStr _ => true
  | VDecimal _ _ | VDate _ | VDatetime _ => false
  | VList l => forallb json_dumps_ok l
  | VDict d => forallb (fun '(_, x) => json_dumps_ok x) d
  end.

Definition scope_text (s : EventScope) : string := match s with INGRESS_EVENT => "INGRESS_EVENT" | ROW => "ROW" end.

Definition text_or_null (o : option string) : value := match o with Some s => VStr s | None => VNone end.
Definition int_or_null (o : option Z) : value := match o with Some z => VInt z | None => VNone end.

Definition to_insert_params (e : AuditModel) : res (dict value) :=
  data ← (match am_event_data e with
          | None => Ok VNone
          | Some d => if json_dumps_ok (VDict d) then Ok (VDict d) else Err TypeError
          end);
  Ok [("event_timestamp", VDatetime (dt_clock_us (am_event_timestamp e)));
      ("event_date", match am_event_date e with Some d => VDate d | None => VNone end);
      ("trace_id", VStr (am_trace_id e)); ("prior_trace_id", text_or_null (am_prior_trace_id e)); ("tenant_id", text_or_null (am_tenant_id e));
      ("data_ingress_event_id", text_or_null (am_data_ingress_event_id e)); ("service_name", VStr (am_service_name e));
      ("service_version", text_or_null (am_service_version e)); ("stage", VStr (audit_stage_text (am_stage e)));
      ("event_scope", VStr (scope_text (am_event_scope e))); ("outcome", VStr (audit_outcome_text (am_outcome e)));
      ("row_count", int_or_null (am_row_count e)); ("rows_succeeded", int_or_null (am_rows_succeeded e));
      ("rows_failed", int_or_null (am_rows_failed e)); ("duration_ms", int_or_null (am_duration_ms e)); ("row_offset", int_or_null (am_row_offset e));
      ("mapping_version_id", int_or_null (am_mapping_version_id e)); ("failure_code", text_or_null (am_failure_code e));
      ("failure_message", text_or_null (am_failure_message e)); ("event_data", data); ("auth_principal", text_or_null (am_auth_principal e));
      ("client_ip", text_or_null (am_client_ip e))].

(** ** The schema contract *)

Record ColumnSpec := mkColumnSpec { co_data_type : string; co_is_nullable : string; co_max_length : option Z }.
Global Instance column_spec_eq : EqDecision ColumnSpec. Proof. solve_decision. Defined.

Definition EXPECTED_COLUMNS : dict ColumnSpec :=
  [("id", mkColumnSpec "uuid" "NO" None); ("event_timestamp", mkColumnSpec "timestamp with time zone" "NO" None);
   ("event_date", mkColumnSpec "date" "NO" None); ("trace_id", mkColumnSpec "uuid" "NO" None); ("prior_trace_id", mkColumnSpec "uuid" "YES" None);
   ("tenant_id", mkColumnSpec "uuid" "YES" None); ("data_ingress_event_id", mkColumnSpec "uuid" "YES" None);
   ("service_name", mkColumnSpec "character varying" "NO" (Some 64%Z)); ("service_version", mkColumnSpec "character varying" "YES" (Some 64%Z));
   ("stage", mkColumnSpec "character varying" "NO" (Some 64%Z)); ("event_scope", mkColumnSpec "character varying" "NO" (Some 32%Z));
   ("outcome", mkColumnSpec "character varying" "NO" (Some 32%Z)); ("row_count", mkColumnSpec "integer" "YES" None);
   ("rows_succeeded", mkColumnSpec "integer" "YES" None); ("rows_failed", mkColumnSpec "integer" "YES" None);
   ("duration_ms", mkColumnSpec "integer" "YES" None); ("row_offset", mkColumnSpec "integer" "YES" None);
   ("mapping_version_id", mkColumnSpec "bigint" "YES" None); ("failure_code", mkColumnSpec "character varying" "YES" (Some 64%Z));
   ("failure_message", mkColumnSpec "character varying" "YES" (Some 2048%Z)); ("event_data", mkColumnSpec "jsonb" "YES" None);
   ("auth_principal", mkColumnSpec "character varying" "YES" (Some 256%Z)); ("client_ip", mkColumnSpec "inet" "YES" None);
   ("_loaded_at", mkColumnSpec "timestamp with time zone" "NO" None)].

(** A row of [information_schema.columns]: name, type, nullability, length. *)
Definition LiveColumnRow : Type := string * ColumnSpec.

Definition int_repr (o : option Z) : string := match o with Some z => pretty z | None => "None" end.

Definition column_diffs (name : string) (want got : ColumnSpec) : list string :=
  (if String.eqb (co_data_type got) (co_data_type want) then []
   else ["column " +:+ py_repr name +:+ ": type " +:+ py_repr (co_data_type got) +:+ " != expected " +:+ py_repr (co_data_type want)]) ++
  (if String.eqb (co_is_nullable got) (co_is_nullable want) then []
   else ["column " +:+ py_repr name +:+ ": is_nullable " +:+ py_repr (co_is_nullable got) +:+ " != expected " +:+ py_repr (co_is_nullable want)]) ++
  (if bool_decide (co_max_length got = co_max_length want) then []
   else ["column " +:+ py_repr name +:+ ": max length " +:+ int_repr (co_max_length got) +:+ " != expected " +:+ int_repr (co_max_length want) +:+
         " (a narrowing fails INSERTs silently under fire-and-forget — fix the contract or the schema)"]).

Definition diff_schema (live_rows : list LiveColumnRow) (expected : dict ColumnSpec) : list string :=
  let live := fold_left (fun d '(name, spec) => dict_set d name spec) live_rows [] in
  map (fun name => "column " +:+ py_repr name +:+ ": in the contract but MISSING live")
    (py_sorted (filter (fun n => dict_mem live n = false) (dict_keys expected))) ++
  map (fun name => "column " +:+ py_repr name +:+ ": live but NOT in the contract")
    (py_sorted (filter (fun n => dict_mem expected n = false) (dict_keys live))) ++
  concat (map (fun name => match dict_get expected name, dict_get live name with
                           | Some want, Some got => column_diffs name want got
                           | _, _ => []
                           end)
    (py_sorted (filter (fun n => dict_mem live n = true) (dict_keys expected)))).

(** ** The table *)

Class AuditOutside := {
  jsonb_input : dict value -> bool;
  inet_input : string -> bool;
  next_id : list (dict value) -> uuid;      (* [uuidv7()] *)
  loaded_at : Z;                            (* [now()] *)
  takes_statement : dict value -> bool;
  commit_confirmed : dict value -> bool
}.

Record audit_db := mkAuditDb {
  ad_columns : list LiveColumnRow;
  ad_tenants : list uuid;                   (* [identity_mirror.tenants] *)
  ad_rows : list (dict value)
}.

Definition undo_audit (before _ : audit_db) : audit_db := before.

Definition in_bits (bits : Z) (z : Z) : bool := (- 2 ^ (bits - 1) <=? z)%Z && (z <? 2 ^ (bits - 1))%Z.
Definition no_nul (s : string) : bool := forallb (fun c => negb (Ascii.eqb c Ascii.zero)) (String.list_ascii_of_string s).

(** Whether a value fits a column. *)
Definition column_takes `{AuditOutside} (c : ColumnSpec) (v : value) : bool :=
  match v with
  | VNone => String.eqb (co_is_nullable c) "YES"
  | VStr s =>
      if String.eqb (co_data_type c) "character varying"
      then no_nul s && match co_max_length c with Some n => (Z.of_nat (String.length s) <=? n)%Z | None => true end
      else String.eqb (co_data_type c) "uuid" || String.eqb (co_data_type c) "inet" && inet_input s
  | VInt z => String.eqb (co_data_type c) "integer" && in_bits 32 z || String.eqb (co_data_type c) "bigint" && in_bits 64 z
  | VDatetime _ => String.eqb (co_data_type c) "timestamp with time zone"
  | VDate _ => String.eqb (co_data_type c) "date"
  | VDict d => String.eqb (co_data_type c) "jsonb" && jsonb_input d
  | _ => false
  end.

Definition value_at (row : dict value) (name : string) : value := default VNone (dict_get row name).

(** The CHECK constraints. *)
Definition counts_up (v : value) : bool := match v with VInt z => (0 <=? z)%Z | _ => true end.
Definition checks_ok (row : dict value) : bool :=
  match value_at row "event_scope" with VStr s => mem s ["INGRESS_EVENT"; "ROW"] | _ => true end &&
  match value_at row "outcome" with VStr s => mem s ["SUCCESS"; "FAILURE"; "SKIPPED"; "RETRIED"; "DUPLICATE_NOOP"; "DUPLICATE_OVERWRITTEN"] | _ => true end &&
  counts_up (value_at row "row_count") && counts_up (value_at row "rows_succeeded") && counts_up (value_at row "rows_failed") &&
  counts_up (value_at row "duration_ms") &&
  match value_at row "event_date", value_at row "event_timestamp" with VDate d, VDatetime us => (d =? us / DAY_US)%Z | _, _ => true end.

Definition tenant_at (row : dict value) : option uuid := match value_at row "tenant_id" with VStr t => Some t | _ => None end.

Definition has_id (id : uuid) (row : dict value) : bool := match value_at row "id" with VStr i => String.eqb i id | _ => false end.

(** The INSERT, with the server defaults. *)
Definition insert_event `{AuditOutside} (params : dict value) (s : session) (db : audit_db) : ures unit * audit_db :=
  let row := [("id", VStr (next_id (ad_rows db)))] ++ params ++ [("_loaded_at", VDatetime loaded_at)] in
  let fits := forallb (fun '(name, _) => mem name (map fst (ad_columns db))) params && forallb (fun '(name, c) => column_takes c (value_at row name)) (ad_columns db) in
  if negb (takes_statement row) then (Err (DatabaseError "XX000"), db)
  else if negb fits then (Err (DatabaseError "22000"), db)
  else if negb (audit_using s (tenant_at row)) then (Err (DatabaseError "42501"), db)
  else if negb (checks_ok row) then (Err (DatabaseError "23514"), db)
  else if existsb (has_id (next_id (ad_rows db))) (ad_rows db) then (Err (DatabaseError "23505"), db)
  else if match tenant_at row with Some t => negb (mem t (ad_tenants db)) | None => false end then (Err (DatabaseError "23503"), db)
  else (Ok tt, mkAuditDb (ad_columns db) (ad_tenants db) (ad_rows db ++ [row])).

(** ** The writers *)

(** [AuditWriter]: what an emitter is given. *)
Record AuditWriter := mkAuditWriter { write : AuditModel -> @action audit_db bool }.

Definition postgres_write `{AuditOutside} (event : AuditModel) : @action audit_db bool := fun w =>
  match am_tenant_id event with
  | None => (Ok false, w)
  | Some t =>
      match rls_session undo_audit t (fun s db =>
              match to_insert_params event with
              | Ok params => let '(r, db') := insert_event params s db in (_ ← r; Ok (commit_confirmed params), db')
              | Err e => (Err (Lib e), db)
              end) w with
      | (Ok confirmed, w') => (Ok confirmed, w')
      | (Err _, w') => (Ok false, w')
      end
  end.

Definition bigquery_write (event : AuditModel) : @action audit_db bool := act (Err (Lib (OtherError "NotImplementedError"))).

Inductive AuditBackend : Type := POSTGRES | BIGQUERY.

Definition select_writer `{AuditOutside} (backend : AuditBackend) (has_engine : bool) : ures AuditWriter :=
  match backend with
  | POSTGRES => if has_engine then Ok (mkAuditWriter postgres_write) else Err (Lib (OtherError "AuditWriteError"))
  | BIGQUERY => Ok (mkAuditWriter bigquery_write)
  end.

(** ** The emitters *)

(** [try: event = AuditEvent(...); await writer.write(event); except Exception: log] *)
Definition fire_and_forget (writer : AuditWriter) (event : AuditModel) : @action audit_db unit := fun w =>
  match (e ← act (ui (audit_event event)); write writer e) w with
  | (Ok _, w') => (Ok tt, w')
  | (Err _, w') => (Ok tt, w')
  end.

Section Emit.
Context (writer : AuditWriter) (now : Z) (stage : Stage) (outcome : Outcome) (tenant_id trace_id : uuid).

Definition ConsumerAudit_emit (scope : EventScope) (bronze_id prior_trace_id : option uuid)
    (mapping_version_id row_count rows_succeeded rows_failed row_offset duration_ms : option Z) (event_data : option (dict value))
    (failure_code failure_message : option string) : @action audit_db unit :=
  fire_and_forget writer
    (mkAuditModel None (now_utc now) None trace_id prior_trace_id (Some tenant_id) bronze_id "streaming-consumer" None stage scope outcome row_count
       rows_succeeded rows_failed duration_ms row_offset mapping_version_id failure_code failure_message event_data None None None).

Definition WorkerAudit_emit (bronze_id prior_trace_id : option uuid) (row_count duration_ms : option Z) (event_data : option (dict value))
    (failure_code failure_message : option string) : @action audit_db unit :=
  fire_and_forget writer
    (mkAuditModel None (now_utc now) None trace_id prior_trace_id (Some tenant_id) bronze_id "csv-ingest-worker" None stage INGRESS_EVENT outcome row_count
       None None duration_ms None None failure_code failure_message event_data None None None).

Definition UiAudit_emit (row_count duration_ms : option Z) (event_data : option (dict value))
    (failure_code failure_message auth_principal client_ip : option string) : @action audit_db unit :=
  fire_and_forget writer
    (mkAuditModel None (now_utc now) None trace_id None (Some tenant_id) None "dis-ui-server" None stage INGRESS_EVENT outcome row_count
       None None duration_ms None None failure_code failure_message event_data auth_principal client_ip None).
End Emit.

(** ** The contract *)

(** The columns of the model are those of the contract, and the INSERT sends all of them
    but the two the server fills. *)
Lemma model_columns : db_column_names = dict_keys EXPECTED_COLUMNS /\
  forall e params, to_insert_params e = Ok params -> dict_keys params = filter (fun n => n ∉ SERVER_DEFAULTED) db_column_names.
Proof. split; [reflexivity|]. intros e params. unfold to_insert_params. intros (data & _ & [= <-])%bind_ok. reflexivity. Qed.

Lemma fold_set_get (rows : list LiveColumnRow) d n : NoDup (map fst rows) ->
  dict_get (fold_left (fun d '(name, spec) => dict_set d name spec) rows d) n = match dict_get rows n with Some c => Some c | None => dict_get d n end.
Proof.
  revert d. induction rows as [|[k c] rows IH]; intros d Hnd; [done|]. cbn [map fst] in Hnd. apply NoDup_cons in Hnd as [Hk Hnd].
  cbn [fold_left dict_get]. rewrite IH, dict_get_set by done. destruct (String.eqb_spec n k) as [->|Hn]; [|done].
  destruct (dict_get rows k) as [c'|] eqn:Hg; [|done]. destruct Hk. apply dict_get_Some_elem in Hg. apply list_elem_of_fmap. by exists (k, c').
Qed.

Lemma column_diffs_nil name want got : column_diffs name want got = [] <-> got = want.
Proof.
  unfold column_diffs. rewrite !app_nil. destruct want as [t1 n1 l1], got as [t2 n2 l2]. cbn. split.
  - intros (H1 & H2 & H3). repeat case_match; try done. rewrite bool_decide_eq_true in *. rewrite String.eqb_eq in *. by subst.
  - intros [= -> -> ->]. by rewrite !String.eqb_refl, bool_decide_eq_true_2.
Qed.

Lemma sorted_nil l : py_sorted l = [] <-> l = [].
Proof.
  unfold py_sorted. split; [|by intros ->]. intros H. pose proof (merge_sort_Permutation str_le l) as Hp. rewrite H in Hp. by apply Permutation_nil_l in Hp.
Qed.

Lemma map_nil_iff {A B} (f : A -> B) l : map f l = [] <-> l = [].
Proof. by destruct l. Qed.

Lemma concat_map_nil_iff {A B} (f : A -> list B) l : concat (map f l) = [] <-> forall x, x ∈ l -> f x = [].
Proof.
  induction l as [|y l IH]; [split; [intros _ x []%not_elem_of_nil|done]|]. cbn [map concat]. rewrite app_nil, IH. split.
  - intros [Hy Hl] x [->|Hx]%elem_of_cons; auto.
  - intros H. split; [apply H; left|]. intros x Hx. apply H. by right.
Qed.

(** No difference is reported exactly when every column is as the contract has it. *)
Lemma clean_diff_iff live expected : NoDup (map fst live) ->
  diff_schema live expected = [] <-> forall n, dict_get live n = dict_get expected n.
Proof.
  intros Hnd. unfold diff_schema. set (d := fold_left _ live []).
  assert (forall n, dict_get d n = dict_get live n) as Hd.
  { intros n. unfold d. rewrite fold_set_get by done. by destruct (dict_get live n). }
  rewrite !app_nil, !map_nil_iff, !sorted_nil, !filter_nil_iff, concat_map_nil_iff. unfold py_sorted.
  setoid_rewrite merge_sort_Permutation. setoid_rewrite list_elem_of_filter. setoid_rewrite <- dict_mem_keys. unfold dict_mem.
  setoid_rewrite Hd. split.
  - intros (H1 & H2 & H3) n. specialize (H1 n). specialize (H2 n). specialize (H3 n). rewrite Hd in H3.
    destruct (dict_get live n), (dict_get expected n); [|by destruct (H2 eq_refl eq_refl)|by destruct (H1 eq_refl eq_refl)|done].
    f_equal. apply (column_diffs_nil n). by apply H3.
  - intros Heq. setoid_rewrite Heq. split_and!; intros n Hn; rewrite ?Hd, ?Heq in *; repeat case_match; try naive_solver. by apply column_diffs_nil.
Qed.

(** ** The row *)

Definition stored_row_of `{AuditOutside} (db : audit_db) (params : dict value) : dict value :=
  [("id", VStr (next_id (ad_rows db)))] ++ params ++ [("_loaded_at", VDatetime loaded_at)].

Definition appended (db : audit_db) (row : dict value) : audit_db := mkAuditDb (ad_columns db) (ad_tenants db) (ad_rows db ++ [row]).

Definition fits_live `{AuditOutside} (db : audit_db) (params : dict value) : bool :=
  forallb (fun '(name, _) => mem name (map fst (ad_columns db))) params &&
  forallb (fun '(name, c) => column_takes c (value_at (stored_row_of db params) name)) (ad_columns db).

Definition accepts `{AuditOutside} (s : session) (db : audit_db) (params : dict value) : bool :=
  let row := stored_row_of db params in
  takes_statement row && fits_live db params && audit_using s (tenant_at row) && checks_ok row &&
  negb (existsb (has_id (next_id (ad_rows db))) (ad_rows db)) && match tenant_at row with Some t => mem t (ad_tenants db) | None => true end.

(** The INSERT stores the row or changes nothing. *)
Lemma insert_event_cases `{AuditOutside} params s db :
  if accepts s db params then insert_event params s db = (Ok tt, appended db (stored_row_of db params))
  else exists e, insert_event params s db = (Err e, db).
Proof.
  unfold accepts, insert_event. cbv zeta. fold (stored_row_of db params). fold (fits_live db params).
  destruct (takes_statement _), (fits_live _ _), (audit_using _ _), (checks_ok _), (existsb _ _); cbn [andb negb]; try (by eexists).
  destruct (tenant_at _) as [t|]; [destruct (mem t _)|]; cbn [negb]; try done. by eexists.
Qed.

(** What the columns of the contract take, from the fields. *)
Definition all_of {A} (p : A -> bool) (o : option A) : bool := match o with Some a => p a | None => true end.

Definition storable `{AuditOutside} (e : AuditModel) : bool :=
  fields_ok e &&
  (no_nul (am_service_name e) && all_of no_nul (am_service_version e) && all_of no_nul (am_failure_code e) && all_of no_nul (am_failure_message e) &&
   all_of no_nul (am_auth_principal e)) &&
  (all_of (in_bits 32) (am_row_count e) && all_of (in_bits 32) (am_rows_succeeded e) && all_of (in_bits 32) (am_rows_failed e) &&
   all_of (in_bits 32) (am_duration_ms e) && all_of (in_bits 32) (am_row_offset e) && all_of (in_bits 64) (am_mapping_version_id e)) &&
  all_of (fun d => json_dumps_ok (VDict d) && jsonb_input d) (am_event_data e) && all_of inet_input (am_client_ip e).

Section Columns.
Context `{AuditOutside}.

Lemma length_fits n s : (Z.of_nat (String.length s) <=? Z.of_nat n)%Z = (String.length s <=? n)%nat.
Proof. destruct (Nat.leb_spec (String.length s) n); [apply Z.leb_le|apply Z.leb_gt]; lia. Qed.

Lemma takes_text n z o : Z.of_nat n = z ->
  column_takes (mkColumnSpec "character varying" "YES" (Some z)) (text_or_null o) = all_of no_nul o && at_most n o.
Proof. intros <-. destruct o as [s|]; [|done]. cbn -[Z.of_nat]. by rewrite length_fits. Qed.

Lemma takes_name n z s : Z.of_nat n = z ->
  column_takes (mkColumnSpec "character varying" "NO" (Some z)) (VStr s) = no_nul s && at_most n (Some s).
Proof. intros <-. cbn -[Z.of_nat]. by rewrite length_fits. Qed.

Lemma takes_int o : column_takes (mkColumnSpec "integer" "YES" None) (int_or_null o) = all_of (in_bits 32) o.
Proof. destruct o; [|done]. cbn. by destruct (in_bits 32 z). Qed.

Lemma takes_bigint o : column_takes (mkColumnSpec "bigint" "YES" None) (int_or_null o) = all_of (in_bits 64) o.
Proof. by destruct o. Qed.

Lemma takes_uuid o : column_takes (mkColumnSpec "uuid" "YES" None) (text_or_null o) = true.
Proof. by destruct o. Qed.

Lemma takes_inet o : column_takes (mkColumnSpec "inet" "YES" None) (text_or_null o) = all_of inet_input o.
Proof. by destruct o. Qed.

Lemma vocabulary_taken (s : Stage) (c : EventScope) (o : Outcome) :
  column_takes (mkColumnSpec "character varying" "NO" (Some 64%Z)) (VStr (audit_stage_text s)) = true /\
  column_takes (mkColumnSpec "character varying" "NO" (Some 32%Z)) (VStr (scope_text c)) = true /\
  column_takes (mkColumnSpec "character varying" "NO" (Some 32%Z)) (VStr (audit_outcome_text o)) = true.
Proof. split_and!; [destruct s|destruct c|destruct o]; reflexivity. Qed.
End Columns.

(** Both ends of the contract: the row of a validated event fits the expected columns exactly when its
    values are storable. *)
Lemma fits_contract `{AuditOutside} e params d db : to_insert_params e = Ok params -> am_event_date e = Some d -> fields_ok e = true ->
  forallb (fun '(name, c) => column_takes c (value_at (stored_row_of db params) name)) EXPECTED_COLUMNS = storable e.
Proof.
  unfold to_insert_params. intros (data & Hdata & [= <-])%bind_ok Hd Hf.
  assert (column_takes (mkColumnSpec "jsonb" "YES" None) data = all_of (fun d => json_dumps_ok (VDict d) && jsonb_input d) (am_event_data e)) as Hj.
  { destruct (am_event_data e) as [x|]; [|by injection Hdata as <-]. cbn [all_of]. destruct (json_dumps_ok _); [|done]. injection Hdata as <-. done. }
  pose proof (vocabulary_taken (am_stage e) (am_event_scope e) (am_outcome e)) as (Hst & Hsc & Hou).
  unfold EXPECTED_COLUMNS. rewrite Hd. cbn [forallb]. unfold value_at. cbn [stored_row_of app dict_get String.eqb Ascii.eqb Bool.eqb default from_option id].
  rewrite Hj, Hst, Hsc, Hou, !takes_int, !takes_bigint, !takes_uuid, !takes_inet.
  rewrite (takes_name 64), !(takes_text 64), (takes_text 2048), (takes_text 256) by reflexivity.
  apply Bool.eq_true_iff_eq. unfold storable, fields_ok in *. clear -Hf. rewrite !andb_true_iff in Hf. rewrite !andb_true_iff.
  cbn in *. tauto.
Qed.

(** ** What an emission does *)

Lemma forallb_ext_elem {A} (p : A -> bool) l k : (forall x, x ∈ l <-> x ∈ k) -> forallb p l = forallb p k.
Proof.
  intros Hlk. apply Bool.eq_true_iff_eq. rewrite !forallb_forall. setoid_rewrite <- list_elem_of_In. split; intros Hp x Hx; apply Hp; by apply Hlk.
Qed.

(** A live table without differences takes the rows the contract takes. *)
Lemma fits_clean `{AuditOutside} e params d db : NoDup (map fst (ad_columns db)) -> diff_schema (ad_columns db) EXPECTED_COLUMNS = [] ->
  to_insert_params e = Ok params -> am_event_date e = Some d -> fields_ok e = true -> fits_live db params = storable e.
Proof.
  intros Hnd Hdiff Hp Hd Hf. rewrite clean_diff_iff in Hdiff by done.
  assert (dict_wf EXPECTED_COLUMNS) as Hwf by (apply (bool_decide_unpack _); vm_compute; exact I).
  assert (forall x, x ∈ ad_columns db <-> x ∈ EXPECTED_COLUMNS) as Hsame.
  { intros [n c]. split; intros Hx; [apply (dict_get_elem (ad_columns db)) in Hx|apply (dict_get_elem EXPECTED_COLUMNS) in Hx]; try done;
      apply dict_get_Some_elem; congruence. }
  unfold fits_live. rewrite (forallb_ext_elem _ (ad_columns db) EXPECTED_COLUMNS Hsame), (fits_contract e params d) by done.
  assert (forallb (fun '(name, _) => mem name (map fst (ad_columns db))) params = true) as ->; [|done].
  apply forallb_forall. intros [n v] Hin. apply mem_elem. rewrite <- list_elem_of_In in Hin.
  assert (n ∈ dict_keys EXPECTED_COLUMNS) as Hn.
  { destruct model_columns as [<- Hcols]. assert (n ∈ dict_keys params) as Hk by (apply list_elem_of_fmap; by exists (n, v)).
    rewrite (Hcols _ _ Hp) in Hk. by apply list_elem_of_filter in Hk as [_ ?]. }
  apply list_elem_of_fmap in Hn as ([n' c] & -> & Hn). apply list_elem_of_fmap. exists (n', c). split; [done|]. by apply Hsame.
Qed.

(** What the constructor gives: the fields as they were, the times in UTC. *)
Lemma audit_event_ok event e : audit_event event = Ok e -> exists us, ensure_utc (am_event_timestamp event) = Ok (mkDatetime us (Some 0%Z)) /\
  e = set_times event (mkDatetime us (Some 0%Z)) (us / DAY_US)%Z /\ fields_ok event = true.
Proof.
  unfold audit_event. intros (ts & Hts & H)%bind_ok. assert (exists us, ts = mkDatetime us (Some 0%Z)) as [us ->].
  { unfold ensure_utc in Hts. repeat case_match; simplify_eq. eauto. }
  destruct (fields_ok event) eqn:Hf; cbn in H; [|done]. unfold ensure_utc in H. cbn in H. rewrite Z.sub_0_r in H.
  destruct (_ && _); [|done]. injection H as <-. by exists us.
Qed.

Lemma row_tenant `{AuditOutside} e params db : to_insert_params e = Ok params -> tenant_at (stored_row_of db params) = am_tenant_id e.
Proof. unfold to_insert_params. intros (data & _ & [= <-])%bind_ok. unfold tenant_at, value_at. cbn. by destruct (am_tenant_id e). Qed.

(** The CHECK constraints hold of every row the model lets through. *)
Lemma checks_hold `{AuditOutside} event e params db : audit_event event = Ok e -> to_insert_params e = Ok params ->
  checks_ok (stored_row_of db params) = true.
Proof.
  intros (us & _ & -> & Hf)%audit_event_ok. unfold to_insert_params. intros (data & _ & [= <-])%bind_ok.
  unfold checks_ok, value_at. cbn -[mem Z.div DAY_US]. rewrite Z.eqb_refl. unfold fields_ok in Hf. rewrite !andb_true_iff in Hf.
  destruct Hf as ((((((((_ & _) & H1) & H2) & H3) & H4) & _) & _) & _).
  assert (forall o, non_negative o = true -> counts_up (int_or_null o) = true) as Hc by (by intros []).
  rewrite !Hc by done. destruct (am_event_scope event), (am_outcome event); reflexivity.
Qed.

Lemma postgres_write_cases `{AuditOutside} e en db : honest en -> exists b en' db', postgres_write e (en, db) = (Ok b, (en', db')) /\ honest en' /\
  (db' = db \/ exists t params s, am_tenant_id e = Some t /\ to_insert_params e = Ok params /\ accepts s db params = true /\
    db' = appended db (stored_row_of db params)).
Proof.
  intros Hh. unfold postgres_write. destruct (am_tenant_id e) as [t|]; [|by eexists _, _, _; eauto].
  destruct (rls_session _ _ _ _) as [r [en' db']] eqn:Hrun. unfold rls_session in Hrun.
  apply transaction_runs in Hrun as [Hh' [(x & -> & ->)|(p & r' & db1 & _ & Hbody & -> & ->)]]; [by eexists _, _, _; eauto| |done].
  destruct (to_insert_params e) as [params|x] eqn:Hp; [|injection Hbody as <- <-; by eexists _, _, _; eauto].
  pose proof (insert_event_cases params (mkSession p (mkGuc "TENANT" t)) db) as Hc. destruct (accepts _ _ _) eqn:Ha.
  - rewrite Hc in Hbody. injection Hbody as <- <-. eexists _, _, _. split; [done|]. split; [done|]. right. eauto 10.
  - destruct Hc as [x Hc]. rewrite Hc in Hbody. injection Hbody as <- <-. by eexists _, _, _; eauto.
Qed.

(** A database that is as the library expects it, and takes statements. *)
Record healthy `{AuditOutside} (en : engine) (db : audit_db) : Prop := {
  he_answers : answers en;
  he_names : NoDup (map fst (ad_columns db));
  he_schema : diff_schema (ad_columns db) EXPECTED_COLUMNS = [];
  he_ids : existsb (has_id (next_id (ad_rows db))) (ad_rows db) = false;
  he_tenants : "" ∉ ad_tenants db;
  he_takes row : takes_statement row = true
}.

Lemma storable_params `{AuditOutside} e : storable e = true -> exists params, to_insert_params e = Ok params.
Proof.
  unfold storable, to_insert_params. destruct (am_event_data e) as [d|]; [|eauto]. cbn [all_of]. rewrite !andb_true_iff.
  intros [[_ [-> _]] _]. cbn. eauto.
Qed.

(** In a healthy database an event that the model builds is stored exactly when its values are storable
    and its tenant is mirrored. *)
Lemma healthy_write `{AuditOutside} event e t en db : healthy en db -> honest en -> audit_event event = Ok e -> am_tenant_id event = Some t ->
  exists en' db', (exists b, postgres_write e (en, db) = (Ok b, (en', db'))) /\
    length (ad_rows db') = (length (ad_rows db) + if storable event && mem t (ad_tenants db) then 1 else 0)%nat.
Proof.
  intros [Hans Hnd Hdiff Hids Hten Htakes] Hh He Ht. destruct (audit_event_ok _ _ He) as (us & _ & Hee & Hf).
  assert (am_tenant_id e = Some t) as Ht' by (by subst e). assert (storable event = storable e) as -> by (by subst e).
  unfold postgres_write, rls_session, verified_transaction. rewrite Ht'. destruct Hans as [-> ->]. cbn [negb].
  destruct (to_insert_params e) as [params|x] eqn:Hp.
  2: { destruct (storable e) eqn:Hs; [|eexists _, _; split; [by eexists|unfold undo_audit; cbn; lia]]. destruct (storable_params e Hs). congruence. }
  set (s := mkSession _ _). assert (accepts s db params = storable e && mem t (ad_tenants db)) as Hacc.
  { unfold accepts. rewrite Htakes, (fits_clean e params (us / DAY_US)), (row_tenant e), Ht', (checks_hold event e), Hids by (by subst e).
    cbn [andb negb]. rewrite !andb_true_r. destruct (mem t (ad_tenants db)) eqn:Hm; [|by rewrite !andb_false_r]. apply mem_elem in Hm.
    assert (audit_using s (Some t) = true) as ->; [|by rewrite !andb_true_r].
    cbn. unfold policy_using, guc_tenant. cbn. destruct (String.eqb_spec t "") as [->|]; [done|]. rewrite bool_decide_eq_true_2 by done.
    by rewrite orb_true_r. }
  pose proof (insert_event_cases params s db) as Hc. rewrite <- Hacc. destruct (accepts s db params).
  - rewrite Hc. eexists _, _. split; [by eexists|]. cbn. rewrite length_app. cbn. lia.
  - destruct Hc as [x ->]. eexists _, _. split; [by eexists|]. unfold undo_audit. lia.
Qed.

(** C29. What emitting an audit event does.  It never raises, with either writer and whatever the database does.  The
    trail is left as it was or grows by one row: the event the model built, with its tenant among
    the mirrored ones, every CHECK met and every live column fitted.  And where the live columns show no
    difference to the contract and the database takes statements, an event of the clock's time
    is stored exactly when its values are storable and its tenant is mirrored. *)
Theorem audit_emission `{AuditOutside} backend writer event en db :
  honest en -> select_writer backend true = Ok writer ->
  exists en' db', fire_and_forget writer event (en, db) = (Ok tt, (en', db')) /\ honest en' /\
    (db' = db \/ exists e params t, audit_event event = Ok e /\ to_insert_params e = Ok params /\ am_tenant_id event = Some t /\ t ∈ ad_tenants db /\
       checks_ok (stored_row_of db params) = true /\ fits_live db params = true /\ db' = appended db (stored_row_of db params)) /\
    (backend = POSTGRES -> healthy en db -> forall t now, am_tenant_id event = Some t -> am_event_timestamp event = now_utc now ->
       (MIN_US <= now <= MAX_US)%Z ->
       length (ad_rows db') = (length (ad_rows db) + if storable event && mem t (ad_tenants db) then 1 else 0)%nat).
Proof.
  intros Hh Hw. unfold fire_and_forget, mbind, action_bind, act. destruct (audit_event event) as [e|x] eqn:He; cbn [ui].
  2: { eexists _, _. split; [done|]. split; [done|]. split; [by left|]. intros _ _ t now _ Hts Hnow.
       destruct (fields_ok event) eqn:Hf; [|unfold storable; rewrite Hf; cbn; lia]. exfalso. revert He. unfold audit_event, ensure_utc. rewrite Hts. cbn.
       assert ((MIN_US <=? now - 0)%Z && (now - 0 <=? MAX_US)%Z = true) as Hin by lia. rewrite Hin. cbn. rewrite Hf. cbn. rewrite !Z.sub_0_r in *. by rewrite Hin. }
  destruct backend; injection Hw as <-; cbn [write].
  2: { eexists _, _. split; [done|]. split; [done|]. split; [by left|done]. }
  destruct (postgres_write_cases e en db Hh) as (b & en' & db' & Hrun & Hh' & Hcase). rewrite Hrun. eexists _, _. split; [done|]. split; [done|]. split.
  - destruct Hcase as [->|(t & params & s & Ht & Hp & Hacc & ->)]; [by left|right]. unfold accepts in Hacc. rewrite !andb_true_iff in Hacc.
    destruct Hacc as [[[[[_ Hfit] _] Hck] _] Hten]. rewrite (row_tenant e _ _ Hp), Ht in Hten. exists e, params, t.
    split_and!; try done; [|by apply mem_elem]. destruct (audit_event_ok _ _ He) as (us & _ & -> & _). done.
  - intros _ Hhe t now Ht _ _. destruct (healthy_write event e t en db Hhe Hh He Ht) as (en2 & db2 & [b2 Hrun2] & Hlen). rewrite Hrun in Hrun2. by simplify_eq.
Qed.

(** ** Events that are dropped *)

(** The upload endpoint and the ingest worker pass the text of an exception on as it is: past 2048 characters the
    event cannot be built, and nothing is recorded. *)
Lemma long_message_dropped writer now outcome tenant trace count ms data code message principal ip w : (2048 < String.length message)%nat ->
  UiAudit_emit writer now RECEIVED outcome tenant trace count ms data code (Some message) principal ip w = (Ok tt, w) /\
  WorkerAudit_emit writer now RECEIVED outcome tenant trace None None count ms data code (Some message) w = (Ok tt, w).
Proof.
  intros Hlen. assert (forall e, am_failure_message e = Some message -> fire_and_forget writer e w = (Ok tt, w)) as Hdrop.
  { intros e Hm. unfold fire_and_forget, mbind, action_bind, act. destruct (audit_event e) as [e'|] eqn:He; [|done]. exfalso.
    apply audit_event_ok in He as (_ & _ & _ & Hf). unfold fields_ok in Hf. rewrite Hm, !andb_true_iff in Hf. destruct Hf as [[_ Hf] _].
    unfold at_most in Hf. apply Nat.leb_le in Hf. lia. }
  split; by apply Hdrop.
Qed.

(** ** Samples *)

Definition sample_outside : AuditOutside := {|
  jsonb_input _ := true;
  inet_input _ := true;
  next_id rows := "0198-" +:+ pretty (Z.of_nat (length rows));
  loaded_at := 5000;
  takes_statement _ := true;
  commit_confirmed _ := true
|}.

Definition sample_trail : audit_db := mkAuditDb EXPECTED_COLUMNS ["t1"] [].

Definition sample_message (message : string) : AuditModel :=
  mkAuditModel None (now_utc 90000000000) None "trace" None (Some "t1") None "dis-ui-server" None RECEIVED INGRESS_EVENT FAILURE (Some 3%Z) None None (Some 12%Z)
    None None (Some "RESOURCE_NOT_FOUND") (Some message) None None None None.

Definition sample_postgres : AuditWriter := mkAuditWriter (@postgres_write sample_outside).

(** A column that was narrowed is reported, and until then its events vanish without an error. *)
Definition narrowed : list LiveColumnRow := <[19%nat := ("failure_message", mkColumnSpec "character varying" "YES" (Some 8%Z))]> EXPECTED_COLUMNS.

Example narrowing_reported :
  length (diff_schema narrowed EXPECTED_COLUMNS) = 1%nat /\
  (fire_and_forget sample_postgres (sample_message "not found") (good_engine, mkAuditDb narrowed ["t1"] [])) = (Ok tt, (verified good_engine, mkAuditDb narrowed ["t1"] [])).
Proof. vm_compute. done. Qed.

(** The date of an event is its day in UTC. *)
Example event_stored :
  (fun row => (value_at row "event_date", value_at row "outcome")) <$> ad_rows (fire_and_forget sample_postgres (sample_message "not found") (good_engine, sample_trail)).2.2 =
  [(VDate 1, VStr "FAILURE")].
Proof. vm_compute. done. Qed.

Lemma sample_healthy : @healthy sample_outside good_engine sample_trail.
Proof. split; try done; [apply (bool_decide_unpack _); vm_compute; exact I|cbn; set_solver]. Qed.

Lemma audit_emission_witness : exists en' db', fire_and_forget sample_postgres (sample_message "not found") (good_engine, sample_trail) = (Ok tt, (en', db')) /\
  length (ad_rows db') = 1%nat.
Proof.
  destruct (@audit_emission sample_outside POSTGRES sample_postgres (sample_message "not found") good_engine sample_trail) as (en' & db' & Hrun & _ & _ & Hlen).
  - intros _. reflexivity.
  - reflexivity.
  - exists en', db'. split; [exact Hrun|]. rewrite (Hlen eq_refl sample_healthy "t1" 90000000000%Z eq_refl eq_refl); [vm_compute; reflexivity|].
    unfold MIN_US, MAX_US. lia.
Defined.
