(* ===== verification/Stores.v ===== *)
(** Stores: the list of onboarded stores (dis-ui-server [handlers/stores.py], [repos/stores.py],
    [schemas/stores.py]), and its agreement with Customer Master after a pass of the mirror sync.

    The column [name] is sorted by the collation of the database, which is a parameter: a total
    order on texts. *)

From S2P Require Import Prelude Text Values Transform Provenance UiErrors Access Rls Mirror TenantSample Console ConsoleTheorems MirrorTheorems.

Class Collation := {
  coll_le : relation string;
  coll_dec :: RelDecision coll_le;
  coll_total :: Total coll_le;
  coll_trans :: Transitive coll_le;
  coll_antisym a b : coll_le a b -> coll_le b a -> a = b
}.

(** ** Wire shape *)

Inductive StoreStatus : Type := opening | active | inactive | closed.
Inductive StoreTaxTreatment : Type := inclusive | exclusive.

Record OnboardedStore := mkOnboardedStore {
  os_store_id : string;
  os_name : string;
  os_store_code : option string;
  os_status : StoreStatus;
  os_country : string;
  os_timezone : string;
  os_currency : string;
  os_tax_treatment : StoreTaxTreatment
}.

Definition STATUS_WIRE : dict StoreStatus := [("OPENING", opening); ("ACTIVE", active); ("INACTIVE", inactive); ("CLOSED", closed)].
Definition TAX_TREATMENT_WIRE : dict StoreTaxTreatment := [("INCLUSIVE", inclusive); ("EXCLUSIVE", exclusive)].

Definition copy_to_wire (s : CmStore) : ures OnboardedStore :=
  status ← crosswalk STATUS_WIRE (cs_status s);
  tax ← crosswalk TAX_TREATMENT_WIRE (cs_tax_treatment s);
  Ok (mkOnboardedStore (cs_store_id s) (cs_name s) (cs_store_code s) status (cs_country s) (cs_timezone s) (cs_currency s) tax).

Definition store_to_wire (row : StoreRow) : ures OnboardedStore := copy_to_wire (st_copy row).

(** ** The read *)

Section Listing.
Context `{Collation}.

(** [ORDER BY name, store_id] *)
Definition by_name (name1 id1 name2 id2 : string) : Prop := if decide (name1 = name2) then str_le id1 id2 else coll_le name1 name2.
Definition store_before (a b : StoreRow) : Prop := by_name (st_name a) (st_store_id a) (st_name b) (st_store_id b).

Global Instance store_before_dec : RelDecision store_before.
Proof. intros a b. unfold store_before, by_name. case_decide; apply _. Defined.

Definition list_onboarded_stores (tenant_id : uuid) : @action mirror (list StoreRow) :=
  rls_session undo_mirror tenant_id (fun _ m => (Ok (merge_sort store_before (filter (fun r => st_tenant_id r = tenant_id) (mi_stores m))), m)).

Definition get_stores_onboarded `{AuthOutside} (r : request) : @action mirror (list OnboardedStore) :=
  identity ← act (require_tenant r);
  tenant ← act (tenant_uuid_of identity);
  rows ← list_onboarded_stores tenant;
  act (map_res store_to_wire rows).

(** ** The order *)

Global Instance store_before_total : Total store_before.
Proof.
  intros a b. unfold store_before, by_name. destruct (decide (st_name a = st_name b)) as [He|He].
  - rewrite decide_True by done. apply str_le_total.
  - rewrite decide_False by done. apply coll_total.
Qed.

Global Instance store_before_trans : Transitive store_before.
Proof.
  intros a b c. unfold store_before, by_name. generalize (st_name a) (st_name b) (st_name c). intros na nb nc.
  destruct (decide (na = nb)) as [->|Hab], (decide (nb = nc)) as [->|Hbc]; rewrite ?decide_True, ?decide_False by done; try done; [apply str_le_trans|].
  intros H1 H2. destruct (decide (na = nc)) as [->|]; [destruct Hab; by apply coll_antisym|by trans nb].
Qed.
End Listing.

(** ** The mirror after a pass *)

Lemma store_keys_nodup m : mirror_ok m -> NoDup (map st_key (mi_stores m)).
Proof.
  intros Hok. apply (NoDup_fmap_1 snd). change (NoDup (map snd (map st_key (mi_stores m)))). rewrite map_map. exact (ok_store_ids _ Hok).
Qed.

(** A row of the table is the row of its key. *)
Lemma store_row_elem m k row : mirror_ok m -> store_row k m = Some row <-> row ∈ mi_stores m /\ st_key row = k.
Proof.
  intros Hok. split; [apply row_of_Some|]. intros [Hin <-]. unfold store_row.
  destruct (row_of st_key (st_key row) (mi_stores m)) as [row'|] eqn:Hf.
  - apply row_of_Some in Hf as [Hin' Hk]. f_equal. apply list_elem_of_lookup in Hin as [i Hi]. apply list_elem_of_lookup in Hin' as [j Hj].
    assert (i = j) as ->; [|congruence].
    eapply (NoDup_lookup _ _ _ _ (store_keys_nodup _ Hok)); rewrite list_lookup_fmap; [by rewrite Hi|]. rewrite Hj. cbn. by rewrite Hk.
  - apply row_of_None in Hf. destruct Hf. by apply list_elem_of_fmap_2.
Qed.

(** The copies of a tenant's stores after the pass: those of Customer Master, and those it no longer has. *)
Lemma copies_after tenants stores m m' t c : mirror_ok m -> wrote tenants (stores_of_all tenants stores) m m' -> t ∈ map ct_tenant_id tenants ->
  (exists row, row ∈ mi_stores m' /\ st_tenant_id row = t /\ st_copy row = c) <->
  (exists s, s ∈ stores /\ cs_tenant_id s = t /\ store_values s = Some c) \/
  (exists row, row ∈ mi_stores m /\ st_tenant_id row = t /\ st_key row ∉ map cs_key stores /\ st_copy row = c).
Proof.
  intros Hok [_ Hst _ Hother Hok'] Ht. specialize (Hok' Hok).
  assert (forall s, cs_tenant_id s = t -> s ∈ stores <-> s ∈ stores_of_all tenants stores) as Hall.
  { intros s <-. unfold stores_of_all. rewrite list_elem_of_filter. naive_solver. }
  assert (forall id, (t, id) ∈ map cs_key (stores_of_all tenants stores) <-> (t, id) ∈ map cs_key stores) as Hkeys.
  { intros id. rewrite !list_elem_of_fmap. split; intros (s & Hk & Hs); exists s; (split; [done|]); apply (Hall s); try done; by injection Hk. }
  split.
  - intros (row & Hin & <- & <-). destruct (decide (st_key row ∈ map cs_key stores)) as [Hk|Hk].
    + left. apply Hkeys in Hk as (s & Hk & Hs)%list_elem_of_fmap. destruct (Hst s Hs) as (v & Hv & Hc).
      assert (store_row (cs_key s) m' = Some row) as Hrow by (apply store_row_elem; auto). rewrite Hrow in Hc. injection Hc as Hc.
      exists s. split_and!; [apply Hall; [by injection Hk|done]|by injection Hk|congruence].
    + right. exists row. split_and!; try done. assert (store_row (st_key row) m' = Some row) as Hrow by (apply store_row_elem; auto).
      rewrite Hother in Hrow by (intros Hx; apply Hk; exact (proj1 (Hkeys (st_store_id row)) Hx)). by apply store_row_elem in Hrow as [Hrow _].
  - intros [(s & Hs & Hst' & Hv)|(row & Hin & <- & Hk & <-)].
    + apply (Hall s Hst') in Hs. destruct (Hst s Hs) as (v & Hv' & Hc). destruct (store_row (cs_key s) m') as [row|] eqn:Hrow; [|done].
      injection Hc as Hc. apply store_row_elem in Hrow as [Hrow Hk]; [|done]. exists row. split_and!; [done| |congruence]. injection Hk as -> _. done.
    + assert (store_row (st_key row) m' = Some row) as Hrow by (rewrite Hother by (intros Hx; apply Hk; exact (proj1 (Hkeys (st_store_id row)) Hx)); by apply store_row_elem).
      apply store_row_elem in Hrow as [Hrow _]; [|done]. by exists row.
Qed.

Lemma copy_shown s : mem (cs_status s) STORE_STATUSES = true -> mem (cs_tax_treatment s) TAX_TREATMENTS = true ->
  exists o, copy_to_wire s = Ok o /\ os_store_id o = cs_store_id s /\ os_name o = cs_name s.
Proof.
  intros Hs%mem_elem Ht%mem_elem. unfold copy_to_wire.
  destruct (crosswalk_total STATUS_WIRE (cs_status s)) as [st ->]; [exact Hs|].
  destruct (crosswalk_total TAX_TREATMENT_WIRE (cs_tax_treatment s)) as [tx ->]; [exact Ht|]. by eexists.
Qed.

(** ** The list after a pass *)

Definition listed_before `{Collation} (a b : OnboardedStore) : Prop := by_name (os_name a) (os_store_id a) (os_name b) (os_store_id b).

Section Claim.
Context `{Collation} `{AuthOutside} `{SyncOutside}.

Lemma listing_answers r identity t en m : mirror_ok m -> require_tenant r = Ok identity -> tenant_uuid_of identity = Ok t -> answers en ->
  exists l, get_stores_onboarded r (en, m) = (Ok l, (verified en, m)) /\
    Forall2 (fun row o => store_to_wire row = Ok o) (merge_sort store_before (filter (fun x => st_tenant_id x = t) (mi_stores m))) l.
Proof.
  intros Hok Hr Ht [Hre Hv]. unfold get_stores_onboarded, mbind, action_bind, act. rewrite Hr, Ht. unfold list_onboarded_stores, rls_session, verified_transaction.
  rewrite Hre, Hv. cbn [negb].
  destruct (map_res_total store_to_wire (merge_sort store_before (filter (fun x => st_tenant_id x = t) (mi_stores m)))) as [l Hl].
  { intros row Hrow. rewrite merge_sort_Permutation in Hrow. apply list_elem_of_filter in Hrow as [_ Hrow].
    destruct (copy_shown (st_copy row)) as (o & Ho & _); [by apply (ok_store_status _ Hok)|by apply (ok_store_tax _ Hok)|by exists o]. }
  exists l. rewrite Hl. split; [done|]. by apply map_res_ok.
Qed.

(** What is listed keeps the ids and the order of the rows. *)
Lemma shown_fields row o : store_to_wire row = Ok o -> os_store_id o = st_store_id row /\ os_name o = st_name row.
Proof. unfold store_to_wire, copy_to_wire. intros Hw. inv_ok. done. Qed.

Lemma shown_sorted rows l : Forall2 (fun row o => store_to_wire row = Ok o) rows l -> StronglySorted store_before rows -> StronglySorted listed_before l.
Proof.
  induction 1 as [|row o rows l Ho Hl IH]; intros Hs; [constructor|]. apply StronglySorted_inv in Hs as [Hs Hf]. constructor; [by apply IH|].
  apply Forall_forall. intros o' [i Ho']%list_elem_of_lookup. destruct (Forall2_lookup_r _ _ _ _ _ Hl Ho') as (row' & Hrow' & Hw).
  eapply Forall_lookup_1 in Hf; [|exact Hrow']. destruct (shown_fields _ _ Ho) as [Hi Hn], (shown_fields _ _ Hw) as [Hi' Hn'].
  unfold listed_before. by rewrite Hi, Hn, Hi', Hn'.
Qed.

(** C27. The list of onboarded stores after a successful pass of the mirror sync.  For a tenant of Customer
    Master the endpoint answers, whatever was mirrored before, and lists every store of the tenant
    in Customer Master, as stored and with its vocabularies translated, besides it only stores of the tenant
    that were mirrored earlier and that Customer Master no longer has, no store twice, in the order of
    names and then ids. *)
Theorem stores_listed_after_sync env cm en m en' m' r identity t en2 :
  honest en -> mirror_ok m -> NoDup (map ct_tenant_id (cm_tenants cm)) -> NoDup (map cs_key (cm_stores cm)) ->
  run_sync env cm (en, m) = (Some EXIT_OK, (en', m')) -> t ∈ map ct_tenant_id (cm_tenants cm) ->
  require_tenant r = Ok identity -> tenant_uuid_of identity = Ok t -> answers en2 ->
  exists l, get_stores_onboarded r (en2, m') = (Ok l, (verified en2, m')) /\ NoDup (map os_store_id l) /\ StronglySorted listed_before l /\
    forall o, o ∈ l <->
      (exists s v, s ∈ cm_stores cm /\ cs_tenant_id s = t /\ store_values s = Some v /\ copy_to_wire v = Ok o) \/
      (exists row, row ∈ mi_stores m /\ st_tenant_id row = t /\ st_key row ∉ map cs_key (cm_stores cm) /\ store_to_wire row = Ok o).
Proof.
  intros Hh Hok Hts Hss Hrun Ht Hr Hid Ha. apply run_sync_cases in Hrun as [(_ & [[=]|[[=]|[=]]])|(_ & _ & w & Hw & Hcode)].
  destruct (write_tenants_wrote _ Hss _ _ _ _ _ _ _ Hh Hts Hw) as (done_ & _ & Hwr & Hend).
  assert (done_ = cm_tenants cm) as ->. { destruct w as [c|e]; [done|]. by destruct Hend as [->|[what ->]]. }
  pose proof (wr_ok _ _ _ _ Hwr Hok) as Hok'. destruct (listing_answers r identity t en2 m' Hok' Hr Hid Ha) as (l & Hl & Hf).
  exists l. split_and!; [done| | |].
  - assert (map os_store_id l = map st_store_id (merge_sort store_before (filter (fun x => st_tenant_id x = t) (mi_stores m')))) as ->.
    { clear -Hf. induction Hf as [|row o rows l Ho _ IH]; [done|]. cbn. by rewrite IH, (proj1 (shown_fields _ _ Ho)). }
    rewrite merge_sort_Permutation. eapply sublist_NoDup; [exact (ok_store_ids _ Hok')|]. apply (fmap_sublist st_store_id), sublist_filter.
  - eapply shown_sorted; [exact Hf|]. apply StronglySorted_merge_sort; apply _.
  - intros o. trans (exists row, row ∈ mi_stores m' /\ st_tenant_id row = t /\ store_to_wire row = Ok o).
    + split.
      * intros [i Hi]%list_elem_of_lookup. destruct (Forall2_lookup_r _ _ _ _ _ Hf Hi) as (row & Hrow & Hwire). exists row.
        apply list_elem_of_lookup_2 in Hrow. rewrite merge_sort_Permutation in Hrow. apply list_elem_of_filter in Hrow as [? ?]. done.
      * intros (row & Hin & Htn & Hwire).
        assert (row ∈ merge_sort store_before (filter (fun x => st_tenant_id x = t) (mi_stores m'))) as Hrow
          by (rewrite merge_sort_Permutation; by apply list_elem_of_filter).
        apply list_elem_of_lookup in Hrow as [i Hi]. destruct (Forall2_lookup_l _ _ _ _ _ Hf Hi) as (o' & Ho' & Hw').
        assert (o' = o) as -> by congruence. by eapply list_elem_of_lookup_2.
    + pose proof (fun c => copies_after _ _ _ _ t c Hok Hwr Ht) as Hc. split.
      * intros (row & Hin & Htn & Hwire). destruct (proj1 (Hc (st_copy row))) as [(s & Hs & Hst & Hv)|(q & Hq & Hqt & Hk & Hcq)];
          [by exists row|left; by exists s, (st_copy row)|right]. exists q. split_and!; try done. unfold store_to_wire in *. by rewrite Hcq.
      * intros [(s & v & Hs & Hst & Hv & Hwire)|(q & Hq & Hqt & Hk & Hwire)].
        -- destruct (proj2 (Hc v)) as (row & Hin & Htn & Hcr); [left; by exists s|]. exists row. unfold store_to_wire. by rewrite Hcr.
        -- destruct (proj2 (Hc (st_copy q))) as (row & Hin & Htn & Hcr); [right; by exists q|]. exists row. unfold store_to_wire in *.
           by rewrite Hcr.
Qed.
End Claim.

(** ** A sample *)

Definition c_collation : Collation.
Proof.
  refine {| coll_le := str_le |}. exact String.leb_antisym.
Defined.

Definition sample_store (id name status : string) : CmStore :=
  mkCmStore id tenant_a name (Some "A1") status "IN" "Asia/Kolkata" "INR" "INCLUSIVE" 1 5 None.
Definition sample_master : customer_master := mkCustomerMaster true "ithina_platform_db" (Some "PLATFORM") true
  [mkCmTenant tenant_a "Acme" (Some "ACME") "ACTIVE" 1 5 None None] [sample_store "s2" "North" "ACTIVE"; sample_store "s1" "East" "OPENING"].
Definition sample_mirror : mirror := mkMirror [mkStoreRow (sample_store "s0" "Old" "CLOSED") 10; mkStoreRow (sample_store "s2" "Nord" "ACTIVE") 10]
  [mkTenantRow (mkCmTenant tenant_a "Acme" None "TRIAL" 1 1 None None) 10].

Lemma sample_mirror_ok : mirror_ok sample_mirror.
Proof.
  assert (forall r, r ∈ mi_stores sample_mirror ->
    bool_decide (st_tenant_id r ∈ map tn_tenant_id (mi_tenants sample_mirror)) && mem (st_status r) STORE_STATUSES &&
    mem (cs_tax_treatment (st_copy r)) TAX_TREATMENTS = true) as Hall by (apply Forall_forall, (bool_decide_unpack _); vm_compute; exact I).
  split; try (apply (bool_decide_unpack _); vm_compute; exact I).
  - intros r Hr. specialize (Hall r Hr). rewrite !andb_true_iff, bool_decide_eq_true in Hall. tauto.
  - apply Forall_forall, (bool_decide_unpack _). vm_compute. exact I.
  - intros r Hr. specialize (Hall r Hr). rewrite !andb_true_iff in Hall. tauto.
  - intros r Hr. specialize (Hall r Hr). rewrite !andb_true_iff in Hall. tauto.
Qed.

Abbreviation sample_pass := (@run_sync (SyncSample.calm 100) SyncSample.env sample_master (SyncSample.writer, sample_mirror)).
Abbreviation sample_list := (@get_stores_onboarded c_collation sample_auth (bearer "a") (good_engine, sample_pass.2.2)).

Example stores_sample :
  (l ← sample_list.1; Ok (map (fun o => (os_name o, os_status o)) l)) = Ok [("East", opening); ("North", active); ("Old", closed)].
Proof. vm_compute. reflexivity. Qed.

Lemma stores_listed_after_sync_witness : exists l, sample_list = (Ok l, (verified good_engine, sample_pass.2.2)) /\ NoDup (map os_store_id l).
Proof.
  destruct sample_pass as [code [en' m']] eqn:Hrun. assert (code = Some EXIT_OK) as -> by (vm_compute in Hrun; injection Hrun as <- _ _; reflexivity).
  destruct (@stores_listed_after_sync c_collation sample_auth (SyncSample.calm 100) SyncSample.env sample_master SyncSample.writer sample_mirror en' m'
    (bearer "a") (mkIdentity user_u (Some tenant_a) None [] TENANT) tenant_a good_engine SyncSample.writer_honest sample_mirror_ok) as (l & Hl & Hn & _);
    [apply (bool_decide_unpack _); vm_compute; exact I|apply (bool_decide_unpack _); vm_compute; exact I|exact Hrun|left|vm_compute; reflexivity|
     vm_compute; reflexivity|split; reflexivity|].
  exists l. split; [exact Hl|exact Hn].
Defined.
