(* ===== verification/Ir.v ===== *)
(** Ir: the canonical-schema document of Atlas (tools/codegen [ir.py]), its serializer, the assembly of a
    draft and the checks on it ([draft_ir.py]).

    A document is a JSON value.  Attributes the parser copies without a check are kept as
    values; a missing key, a value that is not a mapping where one is indexed, and a
    text that is no number raise as in Python. *)

From S2P Require Import Prelude Text Values Decimals.

(** ** Reading a document *)

(** [raw[key]] *)
Definition get_item (raw : value) (key : string) : res value :=
  match raw with
  | VDict d => match dict_get d key with Some v => Ok v | None => Err (KeyError key) end
  | _ => Err TypeError
  end.

(** [raw.get(key, default)] *)
Definition get_or (raw : value) (key : string) (d : value) : res value :=
  match raw with
  | VDict l => Ok (default d (dict_get l key))
  | _ => Err (OtherError "AttributeError")
  end.

(** [raw.items()] *)
Definition get_items (raw : value) : res (dict value) :=
  match raw with VDict d => Ok d | _ => Err (OtherError "AttributeError") end.

Fixpoint chars (s : string) : list value :=
  match s with EmptyString => [] | String c s' => VStr (String c "") :: chars s' end.

(** [for x in raw] *)
Definition py_iter (raw : value) : res (list value) :=
  match raw with
  | VList l => Ok l
  | VStr s => Ok (chars s)
  | VDict d => Ok (map (fun e => VStr e.1) d)
  | _ => Err TypeError
  end.

(** The digits of [int(s)]: single underscores may separate them. *)
Fixpoint read_grouped (acc : Z) (after_digit : bool) (s : string) : option Z :=
  match s with
  | EmptyString => if after_digit then Some acc else None
  | String c s' =>
      if is_digit c then read_grouped (acc * 10 + digit_value c) true s'
      else if after_digit && Ascii.eqb c "_" then read_grouped acc false s' else None
  end.

Definition int_of_text (s : string) : option Z :=
  match strip s with
  | String "-" s' => Z.opp <$> read_grouped 0 false s'
  | String "+" s' => read_grouped 0 false s'
  | s' => read_grouped 0 false s'
  end.

(** [int(raw)] *)
Definition py_int (raw : value) : res Z :=
  match raw with
  | VInt z => Ok z
  | VBool b => Ok (if b then 1 else 0)%Z
  | VStr s => match int_of_text s with Some z => Ok z | None => Err ValueError end
  | VFloat r => match py_decimal r with Some (VDecimal c sc) => Ok (Z.quot c (10 ^ Z.of_nat sc)) | _ => Err ValueError end
  | VDecimal c sc => Ok (Z.quot c (10 ^ Z.of_nat sc))
  | _ => Err TypeError
  end.

(** ** The schema *)

Inductive ProducedBy : Type := CONSUMER_INJECTED | DB_GENERATED | COMPUTE_OWNED | ENRICHMENT_PRODUCED | MAPPING_PRODUCED.

Global Instance ProducedBy_eq_dec : EqDecision ProducedBy.
Proof. solve_decision. Defined.

Definition produced_by_text (p : ProducedBy) : string :=
  match p with
  | CONSUMER_INJECTED => "consumer_injected" | DB_GENERATED => "db_generated" | COMPUTE_OWNED => "compute_owned"
  | ENRICHMENT_PRODUCED => "enrichment_produced" | MAPPING_PRODUCED => "mapping_produced"
  end.

Definition ALL_PRODUCED_BY : list ProducedBy := [CONSUMER_INJECTED; DB_GENERATED; COMPUTE_OWNED; ENRICHMENT_PRODUCED; MAPPING_PRODUCED].

(** [ProducedBy(raw)] *)
Definition produced_by_of (raw : value) : res ProducedBy :=
  match raw with
  | VStr s => match List.find (fun p => String.eqb (produced_by_text p) s) ALL_PRODUCED_BY with Some p => Ok p | None => Err ValueError end
  | _ => Err ValueError
  end.

Record TypeIR := mkTypeIR { ty_base : string; ty_precision : value; ty_scale : value; ty_max_length : value; ty_min_length : value }.

Record FieldProvenance := mkFieldProvenance {
  introduced_in : Z;
  source_headers : list value;
  present_in_files : Z;
  total_files : Z;
  rows_profiled : Z
}.

Record FieldIR := mkFieldIR {
  fi_name : string;
  fi_produced_by : ProducedBy;
  fi_type_ref : string;
  fi_nullable : bool;
  fi_default : value;
  fi_mandatory : bool;
  fi_max_length : value;
  fi_inline_type : option TypeIR;
  fi_enum_ref : value;
  fi_origin : value;
  fi_display_name : value;
  fi_description : value;
  fi_section : value;
  fi_pii : value;
  fi_enum_candidate : list value;
  fi_provenance : option FieldProvenance
}.

Record TableIR := mkTableIR {
  tb_key : string;
  tb_template_type : string;
  tb_semantics : string;
  tb_sink : string;
  tb_natural_key : list string;
  tb_fields : list FieldIR
}.

Record SchemaIR := mkSchemaIR {
  sc_vertical : string;
  sc_schema_version : Z;
  sc_status : string;
  sc_system_profile : string;
  sc_types : dict TypeIR;
  sc_enums : dict (list string);
  sc_tables : list TableIR
}.

(** ** Parsing *)

Definition type_ir_from_dict (raw : value) : res TypeIR :=
  base ← get_item raw "base";
  precision ← get_or raw "precision" VNone;
  scale ← get_or raw "scale" VNone;
  max_length ← get_or raw "max_length" VNone;
  min_length ← get_or raw "min_length" VNone;
  Ok (mkTypeIR (py_str base) precision scale max_length min_length).

Definition provenance_from_dict (raw : value) : res (option FieldProvenance) :=
  match raw with
  | VNone => Ok None
  | _ =>
      intro ← get_or raw "introduced_in" (VInt 1) ≫= py_int;
      headers ← get_or raw "source_headers" (VList []) ≫= py_iter;
      present ← get_or raw "present_in_files" (VInt 0) ≫= py_int;
      total ← get_or raw "total_files" (VInt 0) ≫= py_int;
      rows ← get_or raw "rows_profiled" (VInt 0) ≫= py_int;
      Ok (Some (mkFieldProvenance intro headers present total rows))
  end.

Definition field_from_dict (raw : value) : res FieldIR :=
  raw_type ← get_item raw "type";
  inline ← (match raw_type with VDict _ => t ← type_ir_from_dict raw_type; Ok (Some t) | _ => Ok None end);
  let type_ref := match inline with Some t => ty_base t | None => py_str raw_type end in
  name ← get_item raw "name";
  produced ← get_item raw "produced_by" ≫= produced_by_of;
  nullable ← get_or raw "nullable" (VBool false);
  default_ ← get_or raw "default" VNone;
  mandatory ← get_or raw "mandatory" (VBool false);
  max_length ← get_or raw "max_length" VNone;
  enum_ref ← get_or raw "enum_ref" VNone;
  origin ← get_or raw "origin" VNone;
  display_name ← get_or raw "display_name" VNone;
  description ← get_or raw "description" VNone;
  section ← get_or raw "section" VNone;
  pii ← get_or raw "pii" VNone;
  candidate ← get_or raw "enum_candidate" (VList []) ≫= py_iter;
  provenance ← get_or raw "provenance" VNone ≫= provenance_from_dict;
  Ok (mkFieldIR (py_str name) produced type_ref (truthy nullable) default_ (truthy mandatory) max_length inline enum_ref origin
        display_name description section pii candidate provenance).

Definition table_from_dict (raw : value) : res TableIR :=
  key ← get_item raw "key";
  template_type ← get_item raw "template_type";
  semantics ← get_item raw "semantics";
  sink ← get_item raw "sink";
  natural_key ← get_or raw "natural_key" (VList []) ≫= py_iter;
  raw_fields ← get_item raw "fields" ≫= py_iter;
  fields ← map_res field_from_dict raw_fields;
  Ok (mkTableIR (py_str key) (py_str template_type) (py_str semantics) (py_str sink) (map py_str natural_key) fields).

(** A dict comprehension over the items of a dict. *)
Definition map_items {A} (f : value -> res A) (d : dict value) : res (dict A) :=
  map_res (fun '(name, spec) => a ← f spec; Ok (name, a)) d.

Definition parse_ir (document : value) : res SchemaIR :=
  raw_types ← get_or document "types" (VDict []) ≫= get_items;
  types ← map_items type_ir_from_dict raw_types;
  raw_enums ← get_or document "enums" (VDict []) ≫= get_items;
  enums ← map_items (fun values => l ← py_iter values; Ok (map py_str l)) raw_enums;
  vertical ← get_item document "vertical";
  version ← get_item document "schema_version" ≫= py_int;
  status ← get_item document "status";
  profile ← get_item document "system_profile";
  raw_tables ← get_or document "tables" (VList []) ≫= py_iter;
  tables ← map_res table_from_dict raw_tables;
  Ok (mkSchemaIR (py_str vertical) version (py_str status) (py_str profile) types enums tables).

(** ** Serializing *)

Definition is_none (v : value) : bool := match v with VNone => true | _ => false end.

(** [if v is not None: out[key] = v] *)
Definition unless_none (key : string) (v : value) : dict value := if is_none v then [] else [(key, v)].

Definition field_to_dict (f : FieldIR) : value :=
  VDict ([("name", VStr (fi_name f));
          ("type", match fi_inline_type f with
                   | Some t => VDict [("base", VStr (ty_base t)); ("precision", ty_precision t); ("scale", ty_scale t)]
                   | None => VStr (fi_type_ref f)
                   end)] ++
         unless_none "max_length" (fi_max_length f) ++
         [("nullable", VBool (fi_nullable f))] ++
         unless_none "default" (fi_default f) ++
         [("mandatory", VBool (fi_mandatory f)); ("produced_by", VStr (produced_by_text (fi_produced_by f))); ("origin", fi_origin f)] ++
         unless_none "enum_ref" (fi_enum_ref f) ++
         unless_none "display_name" (fi_display_name f) ++
         unless_none "description" (fi_description f) ++
         unless_none "section" (fi_section f) ++
         unless_none "pii" (fi_pii f) ++
         match fi_enum_candidate f with [] => [] | l => [("enum_candidate", VList l)] end ++
         match fi_provenance f with
         | None => []
         | Some p => [("provenance", VDict [("introduced_in", VInt (introduced_in p)); ("source_headers", VList (source_headers p));
                                            ("present_in_files", VInt (present_in_files p)); ("total_files", VInt (total_files p));
                                            ("rows_profiled", VInt (rows_profiled p))])]
         end).

Definition table_to_dict (t : TableIR) : value :=
  VDict [("key", VStr (tb_key t)); ("template_type", VStr (tb_template_type t)); ("semantics", VStr (tb_semantics t));
         ("sink", VStr (tb_sink t)); ("natural_key", VList (map VStr (tb_natural_key t))); ("fields", VList (map field_to_dict (tb_fields t)))].

Definition type_to_dict (t : TypeIR) : value :=
  VDict [("base", VStr (ty_base t)); ("precision", ty_precision t); ("scale", ty_scale t); ("max_length", ty_max_length t); ("min_length", ty_min_length t)].

Definition schema_to_document (s : SchemaIR) : value :=
  VDict [("vertical", VStr (sc_vertical s)); ("schema_version", VInt (sc_schema_version s)); ("status", VStr (sc_status s));
         ("system_profile", VStr (sc_system_profile s));
         ("types", VDict (map (fun '(n, t) => (n, type_to_dict t)) (sc_types s)));
         ("enums", VDict (map (fun '(n, l) => (n, VList (map VStr l))) (sc_enums s)));
         ("tables", VList (map table_to_dict (sc_tables s)))].

(** ** Assembling a draft

    A draft schema, and the two checks on it ([draft_ir.py]). *)

(** ** The system profile *)

Definition system_field (name : string) (produced : ProducedBy) (type_ref : string) (nullable : bool) (default_ max_length : value) : FieldIR :=
  mkFieldIR name produced type_ref nullable default_ false max_length None VNone (VStr "human") VNone VNone VNone VNone [] None.

Definition SNAPSHOT_SYSTEM_PROFILE : list FieldIR :=
  [system_field "id" DB_GENERATED "uuid" false (VStr "uuidv7()") VNone;
   system_field "tenant_id" CONSUMER_INJECTED "uuid" false VNone VNone;
   system_field "store_id" CONSUMER_INJECTED "uuid" false VNone VNone;
   system_field "last_source_event_at" CONSUMER_INJECTED "timestamptz" true VNone VNone;
   system_field "mapping_version_id" CONSUMER_INJECTED "bigint" false VNone VNone;
   system_field "trace_id" CONSUMER_INJECTED "uuid" false VNone VNone;
   system_field "dis_channel" CONSUMER_INJECTED "str" false VNone (VInt 32);
   system_field "last_updated_at" DB_GENERATED "timestamptz" false (VStr "now()") VNone;
   system_field "ingest_metadata" CONSUMER_INJECTED "jsonb" true VNone VNone].

(** ** Assembly *)

(** [a or b] *)
Definition py_or (a b : value) : value := if truthy a then a else b.

Definition business_field (col proposal : value) : res FieldIR :=
  raw_base ← get_item col "base";
  let base := py_str raw_base in
  inline ← (if String.eqb base "decimal"
            then precision ← get_or col "precision" VNone; scale ← get_or col "scale" VNone;
                 Ok (Some (mkTypeIR "decimal" precision scale VNone VNone))
            else Ok None);
  canonical ← get_or proposal "canonical_name" VNone;
  name ← (if truthy canonical then Ok canonical else get_item col "name");
  enum_values ← get_or proposal "enum_values" VNone;
  candidate ← (if truthy enum_values then Ok enum_values
               else distinct ← get_or col "distinct_values" VNone; Ok (py_or distinct (VList []))) ≫= py_iter;
  nullable ← get_item col "nullable";
  max_length ← (if String.eqb base "str" then get_or col "max_length" VNone else Ok VNone);
  pii ← get_or proposal "pii" VNone;
  display_name ← get_or proposal "display_name" VNone;
  description ← get_or proposal "description" VNone;
  headers ← get_or col "source_headers" (VList []) ≫= py_iter;
  present ← get_or col "present_in_files" (VInt 0) ≫= py_int;
  total ← get_or col "total_files" (VInt 0) ≫= py_int;
  rows ← get_or col "rows_profiled" (VInt 0) ≫= py_int;
  Ok (mkFieldIR (py_str name) MAPPING_PRODUCED base (truthy nullable) VNone false max_length inline VNone (VStr "inferred") display_name
        description VNone pii candidate (Some (mkFieldProvenance 1 headers present total rows))).

(** [proposals_by_col]: the last proposal for a column counts. *)
Definition add_proposal (by_col : dict value) (raw : value) : res (dict value) :=
  source ← get_or raw "source_column" VNone;
  Ok (match source with VStr s => dict_set by_col s raw | _ => by_col end).

Definition assemble_draft_ir (vertical table_key : string) (profile_payload proposal_payload : value) : res SchemaIR :=
  proposals ← get_or proposal_payload "proposals" (VList []) ≫= py_iter;
  by_col ← fold_res add_proposal [] proposals;
  columns ← get_or profile_payload "columns" (VList []) ≫= py_iter;
  business ← map_res (fun col => name ← get_item col "name";
                                 business_field col (default (VDict []) (dict_get by_col (py_str name)))) columns;
  Ok (mkSchemaIR vertical 1 "draft" "dis.v1" [] []
        [mkTableIR table_key "snapshot" "merge_upsert" ("canonical." +:+ table_key) [] (SNAPSHOT_SYSTEM_PROFILE ++ business)]).

(** ** The check on a fresh draft *)

Definition is_text (s : string) (v : value) : bool := match v with VStr t => String.eqb t s | _ => false end.

Definition validate_field (f : FieldIR) : res unit :=
  raise_if (negb (is_text "inferred" (fi_origin f) || is_text "human" (fi_origin f))) ValueError ≫= fun _ =>
  if bool_decide (fi_produced_by f = MAPPING_PRODUCED) then raise_if (negb (is_text "inferred" (fi_origin f))) ValueError
  else raise_if (negb (is_text "human" (fi_origin f))) ValueError.

Definition validate_fresh_draft (schema : SchemaIR) : res unit :=
  map_res validate_field (flat_map tb_fields (sc_tables schema)) ≫= fun _ => Ok tt.

(** ** The publish gate *)

Definition is_curated_bearing (field : FieldIR) (table : TableIR) : bool :=
  existsb (String.eqb (fi_name field)) (tb_natural_key table) || fi_mandatory field || negb (bool_decide (length (fi_enum_candidate field) = 0)) ||
  (negb (is_none (fi_pii field)) && negb (is_text "none" (fi_pii field))).

Definition field_violations (table : TableIR) (f : FieldIR) : list string :=
  if is_curated_bearing f table && negb (is_text "human" (fi_origin f))
  then [tb_key table +:+ "." +:+ fi_name f +:+ ": curated attribute still origin: inferred (needs ratification)"] else [].

Definition table_violations (table : TableIR) : list string :=
  flat_map (field_violations table) (tb_fields table) ++
  (if String.eqb (tb_semantics table) "merge_upsert" && bool_decide (length (tb_natural_key table) = 0)
   then [tb_key table +:+ ": merge_upsert table has no ratified natural_key"] else []).

Definition ratify_violations (schema : SchemaIR) : list string := flat_map table_violations (sc_tables schema).

Definition assert_ratified_for_publish (schema : SchemaIR) : res unit :=
  raise_if (negb (bool_decide (length (ratify_violations schema) = 0))) ValueError.

(** ** Writing a schema and reading it back *)

(** A schema as its document keeps it: an inline type is its base, precision and scale, and the
    reference of a field with an inline type is the base of that type. *)
Definition written_type (t : TypeIR) : TypeIR := mkTypeIR (ty_base t) (ty_precision t) (ty_scale t) VNone VNone.

Definition written_field (f : FieldIR) : FieldIR :=
  mkFieldIR (fi_name f) (fi_produced_by f) (from_option ty_base (fi_type_ref f) (fi_inline_type f)) (fi_nullable f) (fi_default f)
    (fi_mandatory f) (fi_max_length f) (written_type <$> fi_inline_type f) (fi_enum_ref f) (fi_origin f) (fi_display_name f)
    (fi_description f) (fi_section f) (fi_pii f) (fi_enum_candidate f) (fi_provenance f).

Definition written_table (t : TableIR) : TableIR :=
  mkTableIR (tb_key t) (tb_template_type t) (tb_semantics t) (tb_sink t) (tb_natural_key t) (map written_field (tb_fields t)).

Definition written (s : SchemaIR) : SchemaIR :=
  mkSchemaIR (sc_vertical s) (sc_schema_version s) (sc_status s) (sc_system_profile s) (sc_types s) (sc_enums s) (map written_table (sc_tables s)).

(** ** Lookups *)

Lemma get_unless key v d k : dict_get (unless_none key v ++ d) k = if String.eqb key k then (if is_none v then dict_get d k else Some v) else dict_get d k.
Proof. unfold unless_none. destruct (is_none v); cbn; [by destruct (key =? k)%string|]. rewrite String.eqb_sym. by destruct (key =? k)%string. Qed.

Lemma get_cons (k' : string) (v : value) d k : dict_get ((k', v) :: d) k = if String.eqb k' k then Some v else dict_get d k.
Proof. cbn. by rewrite String.eqb_sym. Qed.

Lemma none_default v : default VNone (if is_none v then None else Some v) = v.
Proof. by destruct v. Qed.

Lemma map_res_map {A B C E} (f : B -> result E C) (g : A -> B) (h : A -> C) l :
  (forall x, f (g x) = Ok (h x)) -> map_res f (map g l) = Ok (map h l).
Proof. intros Hf. induction l as [|x l IH]; [done|]. cbn. by rewrite Hf, IH. Qed.

Lemma produced_by_round p : produced_by_of (VStr (produced_by_text p)) = Ok p.
Proof. by destruct p. Qed.

Lemma py_str_texts l : map py_str (map VStr l) = l.
Proof. rewrite map_map. cbn. apply map_id. Qed.

Ltac lookup := repeat (rewrite ?get_unless, ?get_cons; cbn [String.eqb Ascii.eqb Bool.eqb app]).

Lemma field_round f : field_from_dict (field_to_dict f) = Ok (written_field f).
Proof.
  destruct f as [name pb tr nl df md ml inline er og dn ds sec pii cand prov].
  unfold field_from_dict, field_to_dict, get_item, get_or, written_field. cbn [fi_name fi_produced_by fi_type_ref fi_nullable fi_default fi_mandatory
    fi_max_length fi_inline_type fi_enum_ref fi_origin fi_display_name fi_description fi_section fi_pii fi_enum_candidate fi_provenance app].
  lookup. destruct inline as [t|], cand as [|c cand], prov as [p|]; cbn -[is_none produced_by_of produced_by_text];
    rewrite produced_by_round; cbn -[is_none]; rewrite !none_default; try (by destruct p); done.
Qed.

Lemma table_round t : table_from_dict (table_to_dict t) = Ok (written_table t).
Proof.
  destruct t as [key ty sem sink nk fields]. unfold table_from_dict, table_to_dict, get_item, get_or, written_table.
  cbn [tb_key tb_template_type tb_semantics tb_sink tb_natural_key tb_fields dict_get String.eqb Ascii.eqb Bool.eqb mbind result_bind from_option id py_iter].
  rewrite (map_res_map _ _ _ fields field_round). cbn [mbind result_bind]. by rewrite py_str_texts.
Qed.

Lemma type_round t : type_ir_from_dict (type_to_dict t) = Ok t.
Proof. by destruct t. Qed.

Lemma map_items_map {A} (f : value -> res A) (g : A -> value) (d : dict A) :
  (forall a, f (g a) = Ok a) -> map_items f (map (fun '(n, a) => (n, g a)) d) = Ok d.
Proof. intros Hf. unfold map_items. induction d as [|[n a] d IH]; [done|]. cbn. by rewrite Hf, IH. Qed.

Lemma document_read s : parse_ir (schema_to_document s) = Ok (written s).
Proof.
  destruct s as [vert ver st prof types enums tables]. unfold parse_ir, schema_to_document, get_item, get_or, written.
  cbn [sc_vertical sc_schema_version sc_status sc_system_profile sc_types sc_enums sc_tables dict_get String.eqb Ascii.eqb Bool.eqb
    mbind result_bind from_option id get_items py_iter py_int].
  rewrite (map_items_map type_ir_from_dict type_to_dict types type_round). cbn [mbind result_bind].
  rewrite (map_items_map _ (fun l => VList (map VStr l)) enums). 2: { intros l. cbn [py_iter mbind result_bind]. by rewrite py_str_texts. }
  cbn [mbind result_bind]. by rewrite (map_res_map _ _ _ tables table_round).
Qed.

(** A field the document keeps as it is. *)
Definition plain_field (f : FieldIR) : Prop :=
  forall t, fi_inline_type f = Some t -> ty_max_length t = VNone /\ ty_min_length t = VNone /\ fi_type_ref f = ty_base t.

Definition plain (s : SchemaIR) : Prop := Forall (fun t => Forall plain_field (tb_fields t)) (sc_tables s).

Lemma written_field_id f : written_field f = f <-> plain_field f.
Proof.
  destruct f as [name pb tr nl df md ml inline er og dn ds sec pii cand prov]. unfold written_field, plain_field. cbn.
  destruct inline as [[b p sc mx mn]|]; cbn; [|split; [done|]; intros _; done]. split.
  - intros [= H1 H2 H3] t [= <-]. cbn. done.
  - intros Hp. destruct (Hp _ eq_refl) as (Hmx & Hmn & Hb). cbn in *. unfold written_type. cbn. by subst.
Qed.

Lemma map_id_iff {A} (f : A -> A) (P : A -> Prop) l : (forall x, f x = x <-> P x) -> map f l = l <-> Forall P l.
Proof.
  intros Hf. induction l as [|x l IH]; [split; [constructor|done]|]. cbn. rewrite Forall_cons, <- Hf, <- IH. split; [by intros [= -> ->]|]. by intros [-> ->].
Qed.

Lemma written_table_id t : written_table t = t <-> Forall plain_field (tb_fields t).
Proof.
  rewrite <- (map_id_iff written_field plain_field) by apply written_field_id. destruct t. unfold written_table. cbn.
  split; [by intros [= ->]|by intros ->].
Qed.

Lemma written_id s : written s = s <-> plain s.
Proof.
  unfold plain. rewrite <- (map_id_iff written_table) by apply written_table_id. destruct s. unfold written. cbn. split; [by intros [= ->]|by intros ->].
Qed.

(** A schema written as a document and read back is the schema itself exactly when its inline types bound no lengths and
    the references of their fields name their base; otherwise all but the lengths of the inline types
    and those references comes back. *)
Theorem document_round_trip s :
  parse_ir (schema_to_document s) = Ok (written s) /\ (parse_ir (schema_to_document s) = Ok s <-> plain s).
Proof. rewrite document_read. split; [done|]. rewrite <- written_id. split; [by intros [= ->]|by intros ->]. Qed.

(** A length of an inline type is lost. *)
Definition code_field : FieldIR := mkFieldIR "code" MAPPING_PRODUCED "str" false VNone false VNone
  (Some (mkTypeIR "str" VNone VNone (VInt 12) VNone)) VNone (VStr "inferred") VNone VNone VNone VNone [] None.

Example inline_length_lost : exists f, field_from_dict (field_to_dict code_field) = Ok f /\ f <> code_field.
Proof. eexists. split; [vm_compute; reflexivity|discriminate]. Qed.
