(* ===== verification/Suggest.v ===== *)
(** Suggest: which canonical field a source column may map to (dis-ui-server
    [suggest/fallback_matcher.py], [suggest/gemini_client.py], [handlers/mapping_suggestions.py],
    [schemas/mapping_suggestions.py]).

    Scores and confidences are doubles ([spec_float] with 53 bits); a decimal literal is the double
    nearest to its value.  The language model is outside: its answer is any JSON value, or the
    exception of the call or of reading the JSON.  Whatever it is, the suggestions stay within the
    catalogue. *)

From Stdlib Require Import SpecFloat.
From S2P Require Import Prelude Text Values Decimals Transform SourceMapping Canonical Provenance Enrichment HotMapping UiErrors Access Rules TemplateGate GateTheorems TenantTheorems.
From S2P Require Import TenantSample Catalog Ir Dashboard.

(** ** Wire shapes *)

Record ColumnProfile := mkColumnProfile {
  cf_name : string;
  cf_inferred_datatype : string;
  cf_null_pct : spec_float;
  cf_sample_values : list string
}.

Record Suggestion := mkSuggestion {
  sg_source_column : string;
  sg_suggested_target : option string;
  sg_confidence : spec_float;
  sg_reasoning : option string;
  sg_alternatives : option (list string)
}.

Inductive SuggestionSource : Type := llm | fallback.

Record MappingSuggestionRequest := mkSuggestionRequest { sr_columns : list ColumnProfile; sr_template_type : option string }.
Record MappingSuggestionResponse := mkSuggestionResponse { rs_source : SuggestionSource; rs_model : option string; rs_suggestions : list Suggestion }.

(** ** Doubles *)

Definition float_lt (a b : spec_float) : bool := SFltb a b.
Definition float_add (a b : spec_float) : spec_float := SFadd 53 1024 a b.
Definition ZERO : spec_float := S754_zero false.
Definition ONE : spec_float := float_ratio 1 1.

(** [min(1.0, x)] and [max(0.0, x)]: the first argument unless the second is beyond it. *)
Definition min_one (x : spec_float) : spec_float := if float_lt x ONE then x else ONE.
Definition max_zero (x : spec_float) : spec_float := if float_lt ZERO x then x else ZERO.

(** ** The mechanical matcher *)

Definition SYNONYMS : dict string :=
  [("itemcode", "sku_id"); ("item", "sku_id"); ("sku", "sku_id"); ("product", "sku_id"); ("productcode", "sku_id"); ("articlenumber", "sku_id");
   ("variant", "sku_variant"); ("skuvariant", "sku_variant"); ("qty", "quantity"); ("quantity", "quantity"); ("units", "quantity");
   ("unitssold", "quantity"); ("price", "unit_sale_price"); ("unitprice", "unit_sale_price"); ("saleprice", "unit_sale_price");
   ("sellprice", "unit_sale_price"); ("amount", "unit_sale_price"); ("retailprice", "unit_retail_price"); ("listprice", "unit_retail_price");
   ("txndate", "source_sale_timestamp"); ("date", "source_sale_timestamp"); ("saledate", "source_sale_timestamp");
   ("soldat", "source_sale_timestamp"); ("timestamp", "source_sale_timestamp"); ("datetime", "source_sale_timestamp");
   ("time", "source_sale_timestamp"); ("txn", "transaction_id"); ("transaction", "transaction_id"); ("transactionid", "transaction_id");
   ("terminal", "transaction_id"); ("register", "transaction_id"); ("pos", "transaction_id"); ("posterminal", "transaction_id");
   ("currency", "currency"); ("ccy", "currency"); ("description", "product_description"); ("productdescription", "product_description")].

Definition DATATYPE_COMPAT : dict (list FieldDatatype) :=
  [("integer", [DInteger; DNumber]); ("number", [DNumber; DInteger]); ("datetime", [DDatetime; DDate]); ("date", [DDate; DDatetime]);
   ("text", [DText; DChoice]); ("choice", [DChoice; DText])].

Fixpoint keep_chars (p : ascii -> bool) (s : string) : string :=
  match s with EmptyString => "" | String c s' => if p c then String c (keep_chars p s') else keep_chars p s' end.

Definition normalize_name (name : string) : string := keep_chars (fun c => is_lower c || is_digit c) (py_lower name).

(** [a in b] *)
Definition in_text (a b : string) : bool := match String.index 0 a b with Some _ => true | None => false end.

Definition name_score (col : string) (field : TemplateMappingField) : spec_float :=
  let key_norm := normalize_name (tf_key field) in
  let display_norm := normalize_name (tf_display_name field) in
  if bool_decide (dict_get SYNONYMS col = Some (tf_key field)) then float_ratio 95 100
  else if String.eqb col key_norm then float_ratio 95 100
  else if String.eqb col display_norm then float_ratio 9 10
  else if (3 <=? String.length col)%nat && (in_text col key_norm || in_text key_norm col) then float_ratio 6 10
  else ZERO.

Definition compatible (inferred : string) (field : TemplateMappingField) : bool :=
  match tf_datatype field with
  | Some d => bool_decide (d ∈ default [] (dict_get DATATYPE_COMPAT inferred))
  | None => false
  end.

Definition score (profile : ColumnProfile) (field : TemplateMappingField) : spec_float :=
  let name := name_score (normalize_name (cf_name profile)) field in
  if negb (float_lt ZERO name) then ZERO
  else min_one (float_add name (if compatible (cf_inferred_datatype profile) field then float_ratio 5 100 else ZERO)).

Definition better (profile : ColumnProfile) (best : option string * spec_float) (field : TemplateMappingField) : option string * spec_float :=
  if float_lt best.2 (score profile field) then (Some (tf_key field), score profile field) else best.

Definition match_column (catalog : list TemplateMappingField) (profile : ColumnProfile) : Suggestion :=
  let '(best_key, best_score) := fold_left (better profile) catalog (None, float_ratio (-1) 1) in
  match best_key with
  | None => mkSuggestion (cf_name profile) None ZERO None None
  | Some key => mkSuggestion (cf_name profile) (Some key) (max_zero best_score) None None
  end.

Definition match_columns (columns : list ColumnProfile) (catalog : list TemplateMappingField) : list Suggestion := map (match_column catalog) columns.

(** ** The answer of the model *)

(** [float(x)] of an integer: an integer beyond the doubles raises. *)
Definition float_of_int (z : Z) : res spec_float :=
  match float_ratio z 1 with S754_infinity _ => Err (OtherError "OverflowError") | f => Ok f end.

Definition float_of_repr (r : string) : spec_float :=
  match py_decimal r with
  | Some (VDecimal c sc) => float_ratio c (10 ^ Z.of_nat sc)
  | _ => if String.eqb r "inf" then S754_infinity false else if String.eqb r "-inf" then S754_infinity true else S754_nan
  end.

Definition float_of_value (v : value) : res spec_float :=
  match v with
  | VInt z => float_of_int z
  | VBool b => Ok (if b then ONE else ZERO)
  | VFloat r => Ok (float_of_repr r)
  | _ => Ok ZERO
  end.

Definition add_item (by_column : dict (dict value)) (item : value) : dict (dict value) :=
  match item with
  | VDict d => match dict_get d "source_column" with Some (VStr c) => dict_set by_column c d | _ => by_column end
  | _ => by_column
  end.

Definition known_key (valid : list string) (v : value) : option string :=
  match v with VStr s => if mem s valid then Some s else None | _ => None end.

Definition read_item (valid : list string) (column : ColumnProfile) (item : dict value) : res Suggestion :=
  let get key := default VNone (dict_get item key) in
  confidence ← float_of_value (default (VFloat "0.0") (dict_get item "confidence"));
  Ok (mkSuggestion (cf_name column) (known_key valid (get "suggested_target")) (min_one (max_zero confidence))
        (match get "reasoning" with VStr (String c s) => Some (String c s) | _ => None end)
        (match get "alternatives" with
         | VList l => match omap (M := list) (known_key valid) l with [] => None | alts => Some alts end
         | _ => None
         end)).

Definition parse_suggestions (parsed : value) (columns : list ColumnProfile) (catalog : list TemplateMappingField) : res (list Suggestion) :=
  raw_items ← (match parsed with VDict _ => get_or parsed "suggestions" (VList []) | _ => Ok (VList []) end);
  items ← py_iter raw_items;
  let by_column := fold_left add_item items [] in
  map_res (fun column => read_item (map tf_key catalog) column (default [] (dict_get by_column (cf_name column)))) columns.

(** ** The endpoint *)

Definition DEFAULT_MODEL : string := "gemini-2.5-flash".

Class SuggestOutside := {
  vertex_project : option string;
  vertex_location : option string;
  vertex_answer : list ColumnProfile -> list TemplateMappingField -> res value
}.

(** [app.state.field_catalog]: what a request without a type is answered from. *)
Definition suggestion_catalog (field_catalogs : dict (list TemplateMappingField)) : ures (list TemplateMappingField) :=
  let get ty := match dict_get field_catalogs ty with Some l => Ok l | None => Err (Lib (KeyError ty)) end in
  sales ← get SALES;
  changes ← get INVENTORY_CHANGE;
  Ok (sales ++ changes).

Definition is_set (o : option string) : bool := match o with Some (String _ _) => true | _ => false end.

Definition suggest `{SuggestOutside} (columns : list ColumnProfile) (catalog : list TemplateMappingField)
    : SuggestionSource * option string * list Suggestion :=
  if negb (is_set vertex_project) || negb (is_set vertex_location) then (fallback, None, match_columns columns catalog)
  else match (parsed ← vertex_answer columns catalog; parse_suggestions parsed columns catalog) with
       | Ok suggestions => (llm, Some DEFAULT_MODEL, suggestions)
       | Err _ => (fallback, None, match_columns columns catalog)
       end.

Definition post_mapping_suggestions `{AuthOutside} `{SuggestOutside} (field_catalog : list TemplateMappingField)
    (field_catalogs : dict (list TemplateMappingField)) (r : request) (body : MappingSuggestionRequest) : ures MappingSuggestionResponse :=
  identity ← require_tenant r;
  raise_if (bool_decide (length (sr_columns body) = 0)) RequestValidationError ≫= fun _ =>
  catalog ← (match sr_template_type body with
             | None => Ok field_catalog
             | Some ty =>
                 _ ← tenant_uuid_of identity;
                 require_template_type ty ≫= fun _ =>
                 match dict_get field_catalogs ty with Some l => Ok l | None => Err (Lib (KeyError ty)) end
             end);
  let '(source, model, suggestions) := suggest (sr_columns body) catalog in
  Ok (mkSuggestionResponse source model suggestions).

(** ** Scores *)

(** The seven scores there are, in ascending order. *)
Definition SCORES : list spec_float :=
  [ZERO; float_ratio 6 10; float_add (float_ratio 6 10) (float_ratio 5 100); float_ratio 9 10; float_ratio 95 100;
   float_add (float_ratio 9 10) (float_ratio 5 100); ONE].

Definition ordered_like (l : list spec_float) (i j : nat) : bool :=
  match l !! i, l !! j with Some a, Some b => Bool.eqb (float_lt a b) (i <? j)%nat | _, _ => true end.

Lemma scores_ordered i j a b : SCORES !! i = Some a -> SCORES !! j = Some b -> float_lt a b = (i <? j)%nat.
Proof.
  intros Ha Hb. assert (forallb (fun i => forallb (ordered_like SCORES i) (seq 0 7)) (seq 0 7) = true) as Hall by (vm_compute; reflexivity).
  rewrite forallb_forall in Hall. assert (i < 7)%nat as Hi by (by apply lookup_lt_Some in Ha). assert (j < 7)%nat as Hj by (by apply lookup_lt_Some in Hb).
  specialize (Hall i ltac:(apply in_seq; lia)). rewrite forallb_forall in Hall. specialize (Hall j ltac:(apply in_seq; lia)).
  unfold ordered_like in Hall. rewrite Ha, Hb in Hall. by apply Bool.eqb_prop.
Qed.

Definition in_scores (x : spec_float) : Prop := exists i, SCORES !! i = Some x.

Lemma name_score_cases col f : name_score col f = ZERO \/ name_score col f = float_ratio 6 10 \/ name_score col f = float_ratio 9 10 \/
  name_score col f = float_ratio 95 100.
Proof. unfold name_score. cbv zeta. repeat case_match; auto. Qed.

Lemma score_in_scores p f : in_scores (score p f).
Proof.
  unfold score. cbv zeta. destruct (compatible _ _); destruct (name_score_cases (normalize_name (cf_name p)) f) as [-> | [-> | [-> | ->]]];
    [exists 0%nat|exists 2%nat|exists 5%nat|exists 6%nat|exists 0%nat|exists 1%nat|exists 3%nat|exists 4%nat]; vm_compute; reflexivity.
Qed.

Lemma score_above_start p f : float_lt (float_ratio (-1) 1) (score p f) = true.
Proof.
  destruct (score_in_scores p f) as [i Hi]. apply list_elem_of_lookup_2 in Hi. revert Hi. generalize (score p f). intros x. unfold SCORES.
  rewrite !elem_of_cons, elem_of_nil. intros [->|[->|[->|[->|[->|[->|[->|[]]]]]]]]; vm_compute; reflexivity.
Qed.

(** ** The best match *)

Definition best_at (p : ColumnProfile) (catalog : list TemplateMappingField) (i : nat) (f : TemplateMappingField) : Prop :=
  catalog !! i = Some f /\ forall j g, catalog !! j = Some g ->
    float_lt (score p f) (score p g) = false /\ ((j < i)%nat -> float_lt (score p g) (score p f) = true).

Lemma scores_compare p f g : exists i j, SCORES !! i = Some (score p f) /\ SCORES !! j = Some (score p g) /\
  float_lt (score p f) (score p g) = (i <? j)%nat /\ float_lt (score p g) (score p f) = (j <? i)%nat.
Proof.
  destruct (score_in_scores p f) as [i Hi], (score_in_scores p g) as [j Hj]. exists i, j. split_and!; auto using scores_ordered.
Qed.

(** A field is compared with the best so far: the order of the scores is total. *)
Lemma better_chain p f g h : float_lt (score p f) (score p g) = true -> float_lt (score p f) (score p h) = false ->
  float_lt (score p g) (score p h) = false /\ float_lt (score p h) (score p g) = true.
Proof.
  destruct (score_in_scores p f) as [i Hi], (score_in_scores p g) as [j Hj], (score_in_scores p h) as [k Hk].
  rewrite (scores_ordered i j), (scores_ordered i k), (scores_ordered j k), (scores_ordered k j) by done.
  rewrite Nat.ltb_lt, !Nat.ltb_ge, Nat.ltb_lt. lia.
Qed.

Lemma best_found p catalog : catalog <> [] -> exists i f, best_at p catalog i f /\
  fold_left (better p) catalog (None, float_ratio (-1) 1) = (Some (tf_key f), score p f).
Proof.
  induction catalog as [|g l IH] using rev_ind; [done|]. intros _. rewrite fold_left_app. cbn [fold_left].
  assert (float_lt (score p g) (score p g) = false) as Hself.
  { destruct (score_in_scores p g) as [i Hi]. rewrite (scores_ordered i i) by done. apply Nat.ltb_irrefl. }
  destruct l as [|h l].
  { exists 0%nat, g. unfold better. cbn [fold_left snd]. rewrite score_above_start. split; [|done]. split; [done|].
    intros [|j] g' Hg'; [|done]. injection Hg' as <-. split; [done|lia]. }
  destruct IH as (i & f & [Hi Hbest] & ->); [done|]. unfold better. cbn [snd]. destruct (float_lt (score p f) (score p g)) eqn:Hlt.
  - exists (length (h :: l)), g. split; [|done]. split; [by rewrite lookup_app_r, Nat.sub_diag by lia|]. intros j g' Hg'.
    destruct (decide (j < length (h :: l)))%nat as [Hj|Hj].
    + rewrite lookup_app_l in Hg' by done. destruct (Hbest j g' Hg') as [Hn _].
      destruct (better_chain p f g g' Hlt Hn). done.
    + rewrite lookup_app_r in Hg' by lia. destruct (j - length (h :: l))%nat as [|k] eqn:Hk; [|done]. injection Hg' as <-. split; [done|lia].
  - exists i, f. split; [|done]. split; [by rewrite lookup_app_l by (by eapply lookup_lt_Some)|]. intros j g' Hg'.
    destruct (decide (j < length (h :: l)))%nat as [Hj|Hj]; [rewrite lookup_app_l in Hg' by done; by apply Hbest|].
    rewrite lookup_app_r in Hg' by lia. destruct (j - length (h :: l))%nat as [|k] eqn:Hk; [|done]. injection Hg' as <-. split; [done|].
    apply lookup_lt_Some in Hi. lia.
Qed.

Lemma score_not_below_zero p f : max_zero (score p f) = score p f.
Proof.
  destruct (score_in_scores p f) as [i Hi]. apply list_elem_of_lookup_2 in Hi. revert Hi. generalize (score p f). intros x. unfold SCORES.
  rewrite !elem_of_cons, elem_of_nil. intros [->|[->|[->|[->|[->|[->|[->|[]]]]]]]]; vm_compute; reflexivity.
Qed.

(** ** Suggestions *)

Definition confidence_ok (c : spec_float) : Prop := SFleb ZERO c = true /\ SFleb c ONE = true.

Lemma lt_le a b : float_lt a b = true -> SFleb a b = true.
Proof. unfold float_lt, SFltb, SFleb. by destruct (SFcompare a b) as [[]|]. Qed.

(** Any double is clamped, infinities and NaN included. *)
Lemma clamped x : confidence_ok (min_one (max_zero x)).
Proof.
  unfold min_one, max_zero. destruct (float_lt ZERO x) eqn:H0.
  - destruct (float_lt x ONE) eqn:H1; [by split; apply lt_le|]. split; vm_compute; reflexivity.
  - split; vm_compute; reflexivity.
Qed.

Lemma score_confidence p f : confidence_ok (score p f).
Proof.
  destruct (score_in_scores p f) as [i Hi]. apply list_elem_of_lookup_2 in Hi. revert Hi. generalize (score p f). intros x. unfold SCORES.
  rewrite !elem_of_cons, elem_of_nil. intros [->|[->|[->|[->|[->|[->|[->|[]]]]]]]]; split; vm_compute; reflexivity.
Qed.

Record suggestion_ok (catalog : list TemplateMappingField) (p : ColumnProfile) (s : Suggestion) : Prop := {
  so_column : sg_source_column s = cf_name p;
  so_target : forall k, sg_suggested_target s = Some k -> k ∈ map tf_key catalog;
  so_alternatives : forall l, sg_alternatives s = Some l -> l <> [] /\ forall k, k ∈ l -> k ∈ map tf_key catalog;
  so_confidence : confidence_ok (sg_confidence s)
}.

(** A mechanical suggestion: the first of the fields with the highest score. *)
Definition mechanical (catalog : list TemplateMappingField) (p : ColumnProfile) (s : Suggestion) : Prop :=
  exists i f, best_at p catalog i f /\ s = mkSuggestion (cf_name p) (Some (tf_key f)) (score p f) None None.

Lemma match_column_mechanical catalog p : catalog <> [] -> mechanical catalog p (match_column catalog p).
Proof.
  intros Hne. destruct (best_found p catalog Hne) as (i & f & Hb & Hf). exists i, f. split; [done|]. unfold match_column. rewrite Hf.
  by rewrite score_not_below_zero.
Qed.

Lemma mechanical_ok catalog p s : mechanical catalog p s -> suggestion_ok catalog p s.
Proof.
  intros (i & f & [Hi _] & ->). split; cbn; [done| |done|apply score_confidence].
  intros k [= <-]. apply list_elem_of_fmap_2. by eapply list_elem_of_lookup_2.
Qed.

Lemma known_key_valid valid v k : known_key valid v = Some k -> k ∈ valid.
Proof. unfold known_key. destruct v; try done. destruct (mem s valid) eqn:Hm; [|done]. intros [= <-]. by apply mem_elem. Qed.

Lemma read_item_ok catalog p item s : read_item (map tf_key catalog) p item = Ok s -> suggestion_ok catalog p s.
Proof.
  unfold read_item. cbv zeta. intros (c & _ & Hs)%bind_ok. injection Hs as <-. split; cbn [sg_source_column sg_suggested_target sg_alternatives sg_confidence].
  - done.
  - intros k. apply known_key_valid.
  - intros l Hl. destruct (default VNone (dict_get item "alternatives")) eqn:Halt; try done. rename l0 into raw.
    assert (l = omap (M := list) (known_key (map tf_key catalog)) raw /\ l <> []) as [-> Hne].
    { destruct (omap (M := list) _ raw); [done|]. injection Hl as <-. done. }
    split; [done|]. intros k (v & _ & Hv)%list_elem_of_omap. by eapply known_key_valid.
  - apply clamped.
Qed.

Lemma suggest_ok `{SuggestOutside} columns catalog source model l : catalog <> [] -> suggest columns catalog = (source, model, l) ->
  Forall2 (suggestion_ok catalog) columns l /\ (source = fallback -> model = None /\ Forall2 (mechanical catalog) columns l).
Proof.
  intros Hne. assert (Forall2 (mechanical catalog) columns (match_columns columns catalog)) as Hm.
  { unfold match_columns. induction columns; constructor; [by apply match_column_mechanical|done]. }
  assert (Forall2 (suggestion_ok catalog) columns (match_columns columns catalog)) as Hmo.
  { eapply Forall2_impl; [exact Hm|]. intros p s. apply mechanical_ok. }
  unfold suggest. destruct (_ || _); [by intros [= <- <- <-]|].
  destruct (_ ≫= _) as [l'|e] eqn:Hp; [|by intros [= <- <- <-]]. intros [= <- <- <-]. split; [|done].
  apply bind_ok in Hp as (parsed & _ & Hp). unfold parse_suggestions in Hp. apply bind_ok in Hp as (raw & _ & Hp). apply bind_ok in Hp as (its & _ & Hp).
  apply map_res_ok in Hp. eapply Forall2_impl; [exact Hp|]. intros p s. apply read_item_ok.
Qed.

(** ** The endpoint *)

(** What the suggester is built with at start-up: three catalogues by type and their
    event columns together, none of them empty. *)
Lemma catalogues_built : exists cs legacy, build_field_catalogs = Ok cs /\ suggestion_catalog cs = Ok legacy /\ legacy <> [] /\
  forall ty, is_template_type ty = true -> exists catalog m, dict_get cs ty = Some catalog /\ catalog <> [] /\
    (ty, m) ∈ template_models /\ forall k, k ∈ map tf_key catalog -> k = IGNORE \/ k ∈ produced_of m.
Proof.
  pose proof catalogues_fit as Hfit. destruct build_field_catalogs as [cs|e] eqn:Hb; [|done].
  unfold build_field_catalogs in Hb. apply bind_ok in Hb as (sales & Hsales & Hb). apply bind_ok in Hb as (changes & Hchanges & Hb).
  apply bind_ok in Hb as (snapshot & Hsnapshot & [= <-]). eexists _, _. split; [done|]. split; [reflexivity|]. split.
  { intros Hnil. by destruct sales. }
  intros ty Hty. unfold is_template_type in Hty. rewrite Forall_forall in Hfit.
  assert (exists m, (ty, m) ∈ template_models) as [m Hm].
  { unfold template_models. apply dict_mem_keys in Hty. unfold MODEL_BY_TYPE in *. cbn in Hty. set_solver. }
  pose proof (Hfit _ Hm) as Hc. unfold catalogue_fits in Hc. cbn [fst snd] in Hc.
  destruct (dict_get _ ty) as [catalog|] eqn:Hg; [|done]. exists catalog, m. split; [done|]. destruct Hc as [[Ho _] _]. split_and!; [|done|].
  - intros ->. clear -Hg. cbn [dict_get] in Hg. repeat case_match; try done; injection Hg; intros Hnil; by apply app_eq_nil in Hnil as [_ ?].
  - intros k Hk. destruct (decide (k = IGNORE)); [by left|right]. rewrite Forall_forall in Ho. apply Ho. unfold offered.
    by apply list_elem_of_filter.
Qed.

(** The catalogue a request is answered from. *)
Definition answered_from (legacy : list TemplateMappingField) (cs : dict (list TemplateMappingField)) (ty : option string)
    (catalog : list TemplateMappingField) : Prop :=
  match ty with
  | None => catalog = legacy
  | Some ty => dict_get cs ty = Some catalog /\
      exists m, (ty, m) ∈ template_models /\ forall k, k ∈ map tf_key catalog -> k = IGNORE \/ k ∈ produced_of m
  end.

Lemma no_identity_status `{AuthOutside} r e : require_tenant r = Err e -> status_of e ∈ [401; 403]%Z.
Proof.
  unfold require_tenant. destruct (get_current_identity r) as [id|e'] eqn:Hid; cbn [mbind result_bind].
  - destruct (id_tenant_id id); [done|]. intros [= <-]. cbn. set_solver.
  - intros [= ->]. unfold get_current_identity in Hid. destruct (bearer_of _); [|injection Hid as <-; cbn; set_solver].
    apply only_auth_verify in Hid as [reason ->]. cbn. set_solver.
Qed.

(** C28. Whatever the language model answers, and when it fails, each column of a request
    gets one suggestion, in order: its target and its alternatives are keys of the
    catalogue the request is for (with a template type, the ignore marker or a column
    the type may target), its confidence is between 0 and 1.  An answer labelled
    mechanical names no model and holds the first of the highest-scoring fields for
    each column.  The only errors are those of the caller: 401, 403, 400, 422. *)
Theorem suggestions_within_catalogue `{AuthOutside} `{SuggestOutside} r body :
  exists cs legacy, build_field_catalogs = Ok cs /\ suggestion_catalog cs = Ok legacy /\
  match post_mapping_suggestions legacy cs r body with
  | Ok resp => exists catalog, answered_from legacy cs (sr_template_type body) catalog /\
      Forall2 (suggestion_ok catalog) (sr_columns body) (rs_suggestions resp) /\
      (rs_source resp = fallback -> rs_model resp = None /\ Forall2 (mechanical catalog) (sr_columns body) (rs_suggestions resp))
  | Err e => status_of e ∈ [401; 403; 400; 422]%Z
  end.
Proof.
  destruct catalogues_built as (cs & legacy & Hcs & Hl & Hne & Htypes). exists cs, legacy. split; [done|]. split; [done|].
  unfold post_mapping_suggestions, require_template_type. destruct (require_tenant r) as [id|e] eqn:Hr; cbn [mbind result_bind].
  2: { apply no_identity_status in Hr. set_solver. }
  destruct (bool_decide _); cbn [raise_if mbind result_bind]; [cbn; set_solver|].
  assert (forall catalog, catalog <> [] -> answered_from legacy cs (sr_template_type body) catalog ->
    let '(source, model, l) := suggest (sr_columns body) catalog in
    exists catalog, answered_from legacy cs (sr_template_type body) catalog /\ Forall2 (suggestion_ok catalog) (sr_columns body) l /\
      (source = fallback -> model = None /\ Forall2 (mechanical catalog) (sr_columns body) l)) as Hgo.
  { intros catalog Hc Ha. destruct (suggest _ _) as [[source model] l] eqn:Hs. apply suggest_ok in Hs; [|done]. eauto. }
  destruct (sr_template_type body) as [ty|]; cbn [mbind result_bind].
  2: { specialize (Hgo legacy Hne eq_refl). by destruct (suggest _ _) as [[source model] l]. }
  destruct (tenant_uuid_of id) as [t|e] eqn:Ht; cbn [mbind result_bind].
  2: { unfold tenant_uuid_of in Ht. repeat case_match; simplify_eq; cbn; set_solver. }
  destruct (is_template_type ty) eqn:Hty; cbn [negb raise_if mbind result_bind]; [|cbn; set_solver].
  destruct (Htypes ty Hty) as (catalog & m & Hg & Hcne & Hm & Hk). rewrite Hg. cbn [mbind result_bind].
  specialize (Hgo catalog Hcne ltac:(split; eauto)). by destruct (suggest _ _) as [[source model] l].
Qed.

(** ** Samples *)

Definition sample_column (name datatype : string) : ColumnProfile := mkColumnProfile name datatype ZERO [].

Definition sales_catalogue : list TemplateMappingField :=
  match build_field_catalogs with Ok cs => default [] (dict_get cs SALES) | Err _ => [] end.

(** A synonym with a fitting type is certain. *)
Example price_matches :
  match_column sales_catalogue (sample_column "Price" "number") = mkSuggestion "Price" (Some "unit_sale_price") ONE None None.
Proof. vm_compute. reflexivity. Qed.

Definition sample_field (key display_name : string) (datatype : FieldDatatype) : TemplateMappingField :=
  mkTemplateField key display_name "" false None (Some datatype) "" None None None.

(** 0.9 + 0.05 rounds up as doubles, above 0.95: a display name with a fitting type beats the column's own key. *)
Example display_name_beats_key :
  sg_suggested_target (match_column [sample_field "amount_due" "Due" DText; sample_field "total" "Amount due" DNumber] (sample_column "amount_due" "number")) =
  Some "total".
Proof. vm_compute. reflexivity. Qed.

(** The ignore marker is a candidate like any field, with a type and without. *)
Example ignore_suggested :
  sg_suggested_target (match_column sales_catalogue (sample_column "Ignore" "text")) = Some IGNORE /\
  match build_field_catalogs ≫= suggestion_catalog with
  | Ok legacy => sg_suggested_target (match_column legacy (sample_column "Ignore" "text")) = Some IGNORE
  | Err _ => False
  end.
Proof. vm_compute. done. Qed.

(** A confidence that is not a number is nothing, one beyond 1 is 1, an unknown target is dropped. *)
Example answer_clamped :
  read_item ["sku_id"] (sample_column "a" "text")
    [("confidence", VInt 7); ("suggested_target", VStr "password"); ("alternatives", VList [VStr "sku_id"; VInt 1; VStr "x"]); ("reasoning", VStr "")] =
  Ok (mkSuggestion "a" None ONE None (Some ["sku_id"])) /\
  (s ← read_item [] (sample_column "a" "text") [("confidence", VFloat "nan")]; Ok (sg_confidence s)) = Ok ZERO.
Proof. vm_compute. done. Qed.
