(* ===== verification/Startup.v ===== *)
(** Startup: how the processes come up (the [config.py] and [main.py] of csv-ingest-worker, streaming-consumer and
    dis-ui-server; libs/dis-core [pubsub_names.py]), the heartbeat of the pull loops with the
    probes ([health.py], [handlers/health.py]), and the client of the identity service (libs/dis-core
    [identity/client.py], [identity/models.py]).

    The environment is a dict.  The broker is the topics and subscriptions of its projects.  Whether a
    database URL parses, what database answers behind it, whether the clients of the cloud
    services can be built and answer, and on which ports a server can listen are outside.  A time is in
    milliseconds. *)

From S2P Require Import Prelude Text Values Decimals Transform SourceMapping Canonical Provenance Paths HotMapping Polars Sink Validation Quarantine Consumer Subscriber.
From S2P Require Import UiErrors Access Rls TemplateGate TenantSample Catalog Console ConsoleTheorems Ir Suggest.

(** ** Names *)

(** What start-up raises: a [DisError], its subclass [CsvIngestError], or an exception of a client library. *)
Inductive startup_exn : Type := ConfigDisError | CsvIngestError | ClientError | CatalogError (e : ui_exn).

Abbreviation sres A := (result startup_exn A).

Definition resolve_pubsub_name (env : dict string) (env_var default_name : string) : sres string :=
  match dict_get env env_var with
  | None => Ok default_name
  | Some raw => if String.eqb (strip raw) "" then Err ConfigDisError else Ok (strip raw)
  end.

Definition PUBSUB_TOPICS : list string :=
  ["csv.received"; "ingress.ready"; "ingress.resubmit"; "identity.changed"; "quarantine"; "mapping.changed"; "pipeline.dlq"].

Definition PUBSUB_SUBSCRIPTIONS : dict string :=
  [("csv-ingest-worker.csv.received", "csv.received"); ("streaming-consumer.ingress.ready", "ingress.ready")].

(** The module constants: the topic the upload publishes to, and what the worker and the consumer publish to and
    subscribe to. *)
Definition CSV_RECEIVED_TOPIC (env : dict string) : sres string := resolve_pubsub_name env "CSV_RECEIVED_TOPIC" "csv.received".
Definition INGRESS_READY_TOPIC (env : dict string) : sres string := resolve_pubsub_name env "INGRESS_READY_TOPIC" "ingress.ready".
Definition CSV_RECEIVED_SUBSCRIPTION (env : dict string) : sres string :=
  resolve_pubsub_name env "CSV_RECEIVED_SUBSCRIPTION" "csv-ingest-worker.csv.received".
Definition INGRESS_READY_SUBSCRIPTION (env : dict string) : sres string :=
  resolve_pubsub_name env "INGRESS_READY_SUBSCRIPTION" "streaming-consumer.ingress.ready".

(** ** The broker *)

Record broker := mkBroker {
  bk_topics : list (string * string);                (* project, topic *)
  bk_subscriptions : list (string * string * string) (* project, subscription, topic *)
}.

Definition has_topic (project topic : string) (b : broker) : bool := bool_decide ((project, topic) ∈ bk_topics b).
Definition topic_of (project subscription : string) (b : broker) : option string :=
  snd <$> List.find (fun '(p, s, _) => String.eqb p project && String.eqb s subscription) (bk_subscriptions b).

(** [create_topic] and [create_subscription]; a name that is there raises [AlreadyExists], which is skipped. *)
Definition create_topic (project : string) (b : broker) (topic : string) : broker :=
  if has_topic project topic b then b else mkBroker (bk_topics b ++ [(project, topic)]) (bk_subscriptions b).

Definition create_subscription (project subscription topic : string) (b : broker) : sres broker :=
  match topic_of project subscription b with
  | Some _ => Ok b
  | None => if has_topic project topic b then Ok (mkBroker (bk_topics b) (bk_subscriptions b ++ [(project, subscription, topic)])) else Err ClientError
  end.

Fixpoint create_subscriptions (project : string) (l : dict string) (b : broker) : sres broker :=
  match l with
  | [] => Ok b
  | (subscription, topic) :: rest => b' ← create_subscription project subscription topic b; create_subscriptions project rest b'
  end.

Definition provision_pubsub (project : string) (b : broker) : sres broker :=
  create_subscriptions project PUBSUB_SUBSCRIPTIONS (fold_left (create_topic project) PUBSUB_TOPICS b).

(** ** Configuration *)

(** [os.environ.get(name)], refused when missing or empty. *)
Definition required (env : dict string) (name : string) (e : startup_exn) : sres string :=
  match dict_get env name with Some (String c s) => Ok (String c s) | _ => Err e end.

(** [WorkerConfig] and [ConsumerConfig], which have the same fields. *)
Record LoopConfig := mkLoopConfig {
  lc_postgres_url : string;
  lc_pubsub_project_id : string;
  lc_bronze_bucket : string;
  lc_run_health_server : bool;
  lc_health_port : option Z
}.

Definition health_on (env : dict string) : bool := mem (py_lower (default "" (dict_get env "RUN_HEALTH_SERVER"))) ["1"; "true"].

Definition health_port_from_env (env : dict string) (e : startup_exn) : sres (option Z) :=
  if health_on env
  then port_raw ← required env "PORT" e; match int_of_text port_raw with Some z => Ok (Some z) | None => Err e end
  else Ok None.

Definition loop_config_from_env (env : dict string) (e : startup_exn) : sres LoopConfig :=
  postgres_url ← required env "POSTGRES_URL" e;
  pubsub_project_id ← required env "PUBSUB_PROJECT_ID" e;
  bronze_bucket ← required env "GCS_BUCKET_BRONZE" e;
  health_port ← health_port_from_env env e;
  Ok (mkLoopConfig postgres_url pubsub_project_id bronze_bucket (health_on env) health_port).

Definition worker_config_from_env (env : dict string) : sres LoopConfig := loop_config_from_env env CsvIngestError.
Definition consumer_config_from_env (env : dict string) : sres LoopConfig := loop_config_from_env env ConfigDisError.

(** ** The two pulling processes *)

Class ProcessOutside := {
  url_parses : string -> bool;                 (* [create_async_engine] *)
  database_at : string -> option string;       (* [current_database()]; [None] when the connection fails *)
  clients_built : bool;                        (* storage and Pub/Sub clients *)
  broker_answers : bool;
  listens : Z -> bool                          (* [uvicorn.Server.serve] on the port *)
}.

(** What becomes of a process: it exits with a code, dies of an exception, or pulls. *)
Inductive process_state : Type := Exited (code : Z) | Crashed | Pulling (config : LoopConfig) (subscription : string).

Section Processes.
Context `{ProcessOutside}.

Definition make_engine (url : string) : sres string :=
  match create_rls_engine (Some url) None with
  | Ok u => if url_parses u then Ok u else Err ClientError
  | Err _ => Err ConfigDisError
  end.

Definition require_subscription (project subscription : string) (b : broker) (e : startup_exn) : sres unit :=
  raise_if (negb (clients_built && broker_answers)) ClientError ≫= fun _ =>
  match topic_of project subscription b with Some _ => Ok tt | None => Err e end.

Definition assert_dis_target (url : string) : sres unit :=
  match database_at url with
  | None => Err ClientError
  | Some current => raise_if (negb (String.eqb current EXPECTED_DATABASE)) ConfigDisError
  end.

(** The health server, a sibling task of the loop when it is on: when it cannot listen, the task group ends the
    process with an exception that [main] does not catch. *)
Definition serve_health (config : LoopConfig) : sres unit :=
  if lc_run_health_server config
  then match lc_health_port config with
       | None => Err ClientError                               (* the assertion *)
       | Some port => raise_if (negb (listens port)) ClientError
       end
  else Ok tt.

Definition worker_run (env : dict string) (b : broker) (subscription : string) : sres LoopConfig :=
  config ← worker_config_from_env env;
  engine ← make_engine (lc_postgres_url config);
  require_subscription (lc_pubsub_project_id config) subscription b CsvIngestError ≫= fun _ =>
  serve_health config ≫= fun _ =>
  Ok config.

(** The constants are resolved when the modules are loaded, before [main] can catch. *)
Definition worker_main (env : dict string) (b : broker) : process_state :=
  match (_ ← INGRESS_READY_TOPIC env; CSV_RECEIVED_SUBSCRIPTION env) with
  | Err _ => Crashed
  | Ok subscription =>
      match worker_run env b subscription with
      | Ok config => Pulling config subscription
      | Err CsvIngestError => Exited 2
      | Err _ => Crashed
      end
  end.

Definition consumer_run (env : dict string) (b : broker) (subscription : string) : sres LoopConfig :=
  config ← consumer_config_from_env env;
  engine ← make_engine (lc_postgres_url config);
  assert_dis_target engine ≫= fun _ =>
  require_subscription (lc_pubsub_project_id config) subscription b ConfigDisError ≫= fun _ =>
  serve_health config ≫= fun _ =>
  Ok config.

Definition consumer_main (env : dict string) (b : broker) : process_state :=
  match INGRESS_READY_SUBSCRIPTION env with
  | Err _ => Crashed
  | Ok subscription =>
      match consumer_run env b subscription with
      | Ok config => Pulling config subscription
      | Err ConfigDisError | Err CsvIngestError => Exited 2
      | Err _ => Crashed
      end
  end.
End Processes.

(** ** The service *)

Definition DEFAULT_JWT_ISSUER : string := "https://sevyn8.us.auth0.com/".
Definition DEFAULT_JWT_AUDIENCE : string := "https://api.cortex.sevyn8.com".

Record UiServerConfig := mkUiServerConfig {
  uc_postgres_url : string;
  uc_gcs_bucket_bronze : string;
  uc_pubsub_project_id : string;
  uc_jwt_issuer : string;
  uc_jwt_audience : string;
  uc_jwt_jwks_url : string;
  uc_gemini_vertex_project : option string;
  uc_gemini_vertex_location : option string;
  uc_gemini_impersonate_sa : option string;
  uc_cm_base_url : option string
}.

(** [os.environ.get(name) or None] *)
Definition env_or_none (env : dict string) (name : string) : option string :=
  match dict_get env name with Some (String c s) => Some (String c s) | _ => None end.

Definition ui_config_from_env (env : dict string) : sres UiServerConfig :=
  postgres_url ← required env "POSTGRES_URL" ConfigDisError;
  gcs_bucket_bronze ← required env "GCS_BUCKET_BRONZE" ConfigDisError;
  pubsub_project_id ← required env "PUBSUB_PROJECT_ID" ConfigDisError;
  let jwt_issuer := default DEFAULT_JWT_ISSUER (env_or_none env "JWT_ISSUER") in
  let jwt_audience := default DEFAULT_JWT_AUDIENCE (env_or_none env "JWT_AUDIENCE") in
  let jwt_jwks_url := default (jwt_issuer +:+ ".well-known/jwks.json") (env_or_none env "JWT_JWKS_URL") in
  Ok (mkUiServerConfig postgres_url gcs_bucket_bronze pubsub_project_id jwt_issuer jwt_audience jwt_jwks_url
        (env_or_none env "GEMINI_VERTEX_PROJECT") (env_or_none env "GEMINI_VERTEX_LOCATION") (env_or_none env "GEMINI_IMPERSONATE_SA")
        (env_or_none env "CM_BASE_URL")).

Definition DEFAULT_CORS_ORIGINS : list string := ["http://localhost:5173"].

Definition cors_allowed_origins_from_env (env : dict string) : sres (list string) :=
  match dict_get env "CORS_ALLOWED_ORIGINS" with
  | None => Ok DEFAULT_CORS_ORIGINS
  | Some raw =>
      match filter (fun o => o <> "") (map strip (split_on "," raw)) with
      | [] => Err ConfigDisError
      | origins => Ok origins
      end
  end.

(** [app.state], as far as the handlers read it. *)
Record app_state := mkAppState {
  ap_config : UiServerConfig;
  ap_engine : string;
  ap_field_catalogs : dict (list TemplateMappingField);
  ap_field_catalog : list TemplateMappingField
}.

Definition catalogs_or {A} (r : ures A) : sres A := match r with Ok a => Ok a | Err e => Err (CatalogError e) end.

Section Service.
Context `{ProcessOutside}.

Definition lifespan (env : dict string) : sres app_state :=
  config ← ui_config_from_env env;
  engine ← make_engine (uc_postgres_url config);
  raise_if (negb clients_built) ClientError ≫= fun _ =>
  field_catalogs ← catalogs_or build_field_catalogs;
  field_catalog ← catalogs_or (suggestion_catalog field_catalogs);
  Ok (mkAppState config engine field_catalogs field_catalog).

(** The module [main]: its imports and [create_app], then the lifespan. *)
Definition ui_main (env : dict string) : sres (list string * app_state) :=
  _ ← CSV_RECEIVED_TOPIC env;
  origins ← cors_allowed_origins_from_env env;
  state ← lifespan env;
  Ok (origins, state).
End Service.

(** ** Probes *)

Definition healthz : Z * string := (200, "ok")%Z.

(** The probe counts the rows a fresh tenant sees. *)
Definition readyz (probe_tenant : uuid) : @action quarantine_tables (Z * string) := fun w =>
  match rls_session undo_quarantine probe_tenant (fun s q => (Ok (length (selected s (fun _ => true) (qt_rows q))), q)) w with
  | (Ok _, w') => (Ok (200, "ready")%Z, w')
  | (Err _, w') => (Ok (503, "degraded")%Z, w')
  end.

Definition HEALTH_PATH : string := "/healthz".
Definition HEALTH_STALENESS_MS : Z := 60000.

(** [make_healthz_app]: the answer to a request at a time, after a last beat. *)
Definition healthz_app (last_beat now : Z) (path : string) : Z * string :=
  if negb (String.eqb path HEALTH_PATH) then (404, "not found")%Z
  else if (now - last_beat <=? HEALTH_STALENESS_MS)%Z then (200, "ok")%Z
  else (503, "stale")%Z.

(** ** The loop *)

(** [run_forever] as the cycles it makes: a beat, then a pass that takes some time and may raise, and then
    a second of sleep. *)
Record loop_state := mkLoop { lo_clock : Z; lo_last_beat : Z }.

Inductive cycle : loop_state -> loop_state -> Prop :=
| cycle_pass clock beat took : (0 <= took)%Z -> cycle (mkLoop clock beat) (mkLoop (clock + took) clock)
| cycle_raised clock beat took : (0 <= took)%Z -> cycle (mkLoop clock beat) (mkLoop (clock + took + 1000) clock).

(** ** The client of the identity service *)

(** An HTTP answer: its status, its body if it is JSON, and its [Retry-After] header. *)
Record http_response := mkResponse { hr_status : Z; hr_json : option value; hr_retry_after : option string }.

(** What a call raises.  An error of the service carries its status, code and trace. *)
Inductive identity_exn : Type :=
| IdentityNotFoundError (status : Z) (code trace : option string)
| IdentityServiceUnavailableError (status : Z) (code trace : option string) (retry_after : option Z)
| IdentityClientError (status : Z) (code trace : option string)
| RefusedByModel                                   (* a request or an answer that does not fit its model *)
| BodyNotJson
| TransportFailed.

Abbreviation ires A := (result identity_exn A).

Definition ERROR_CODES : list string := ["unauthorized"; "identity_not_found"; "circuit_open"; "internal_error"; "invalid_request"].
Definition IDENTITY_SOURCES : list string := ["cache_fresh"; "cache_stale"; "customer_master"].
Definition VALIDATE_SOURCES : list string := ["cache_fresh"; "cache_stale"; "customer_master"; "identity_mirror_fallback"].

Record ResolvedIdentity := mkResolved {
  ri_tenant_id : uuid; ri_store_id : uuid; ri_display_code : option string; ri_store_code : option string; ri_is_active : bool; ri_source : string;
  ri_metadata : option (dict value); ri_resolved_at : option string
}.
Record ValidateResponse := mkValidateResponse { vr_exists : bool; vr_is_active : bool; vr_source : string }.

(** [^us_[a-z0-9]{12}$] and [^ec_[a-z0-9]{12}$] *)
Definition artifact_id (prefix s : string) : bool :=
  String.prefix prefix s && (String.length s =? 15)%nat && str_all (fun c => is_lower c || is_digit c) (String.substring 3 12 s).

Definition one_of (names : list string) (v : value) : option string := match v with VStr s => if mem s names then Some s else None | _ => None end.

(** An optional text field: absent, null or text. *)
Definition text_field (raw : dict value) (name : string) : option (option string) :=
  match dict_get raw name with None | Some VNone => Some None | Some (VStr s) => Some (Some s) | _ => None end.

Definition only_fields (raw : dict value) (names : list string) : bool := forallb (fun n => mem n names) (dict_keys raw).

(** [Error.model_validate] *)
Definition error_envelope (v : value) : option (string * string * option string) :=
  match v with
  | VDict raw =>
      if only_fields raw ["error_code"; "message"; "trace_id"]
      then code ← dict_get raw "error_code" ≫= one_of ERROR_CODES;
           message ← (match dict_get raw "message" with Some (VStr s) => Some s | _ => None end);
           trace ← text_field raw "trace_id";
           Some (code, message, trace)
      else None
  | _ => None
  end.

Section IdentityClient.
Context `{Pydantic} (post : string -> dict value -> option http_response).

(** [Identity.model_validate] and [ValidateResponse.model_validate] *)
Definition identity_model (v : value) : option ResolvedIdentity :=
  match v with
  | VDict raw =>
      if only_fields raw ["tenant_id"; "store_id"; "display_code"; "store_code"; "is_active"; "source"; "metadata"; "resolved_at"]
      then tenant_id ← dict_get raw "tenant_id" ≫= as_uuid;
           store_id ← dict_get raw "store_id" ≫= as_uuid;
           display_code ← text_field raw "display_code";
           store_code ← text_field raw "store_code";
           is_active ← dict_get raw "is_active" ≫= as_bool;
           source ← dict_get raw "source" ≫= one_of IDENTITY_SOURCES;
           metadata ← (match dict_get raw "metadata" with None | Some VNone => Some None | Some (VDict d) => Some (Some d) | _ => None end);
           resolved_at ← text_field raw "resolved_at";
           Some (mkResolved tenant_id store_id display_code store_code is_active source metadata resolved_at)
      else None
  | _ => None
  end.

Definition validate_model (v : value) : option ValidateResponse :=
  match v with
  | VDict raw =>
      if only_fields raw ["exists"; "is_active"; "source"]
      then exists_ ← dict_get raw "exists" ≫= as_bool;
           is_active ← dict_get raw "is_active" ≫= as_bool;
           source ← dict_get raw "source" ≫= one_of VALIDATE_SOURCES;
           Some (mkValidateResponse exists_ is_active source)
      else None
  | _ => None
  end.

Definition to_error (r : http_response) : identity_exn :=
  let envelope := hr_json r ≫= error_envelope in
  let code := (fun '(c, _, _) => c) <$> envelope in
  let trace := envelope ≫= (fun '(_, _, t) => t) in
  if (hr_status r =? 404)%Z || bool_decide (code = Some "identity_not_found") then IdentityNotFoundError (hr_status r) code trace
  else if (hr_status r =? 503)%Z || bool_decide (code = Some "circuit_open")
  then IdentityServiceUnavailableError (hr_status r) code trace
         (s ← hr_retry_after r; if negb (String.eqb s "") && str_all is_digit s then int_of_text s else None)
  else IdentityClientError (hr_status r) code trace.

Definition call (path : string) (payload : dict value) : ires value :=
  match post path payload with
  | None => Err TransportFailed
  | Some r =>
      if (200 <=? hr_status r)%Z && (hr_status r <=? 299)%Z
      then match hr_json r with Some v => Ok v | None => Err BodyNotJson end
      else Err (to_error r)
  end.

Definition fit {A} (o : option A) : ires A := match o with Some a => Ok a | None => Err RefusedByModel end.

Definition resolve_from_token (jwt : string) : ires ResolvedIdentity :=
  body ← call "/v1/resolve_from_token" [("jwt", VStr jwt)]; fit (identity_model body).

Definition resolve_from_upload (upload_session_id : string) : ires ResolvedIdentity :=
  raise_if (negb (artifact_id "us_" upload_session_id)) RefusedByModel ≫= fun _ =>
  body ← call "/v1/resolve_from_upload" [("upload_session_id", VStr upload_session_id)]; fit (identity_model body).

Definition resolve_from_endpoint (endpoint_config_id : string) : ires ResolvedIdentity :=
  raise_if (negb (artifact_id "ec_" endpoint_config_id)) RefusedByModel ≫= fun _ =>
  body ← call "/v1/resolve_from_endpoint" [("endpoint_config_id", VStr endpoint_config_id)]; fit (identity_model body).

Definition validate_identity (tenant_id store_id : uuid) : ires ValidateResponse :=
  body ← call "/v1/validate" [("tenant_id", VStr tenant_id); ("store_id", VStr store_id)]; fit (validate_model body).
End IdentityClient.

(** ** Provisioning *)

Lemma has_topic_iff project topic b : has_topic project topic b = true <-> (project, topic) ∈ bk_topics b.
Proof. unfold has_topic. by rewrite bool_decide_eq_true. Qed.

Lemma create_topic_adds project b topic : bk_subscriptions (create_topic project b topic) = bk_subscriptions b /\
  (project, topic) ∈ bk_topics (create_topic project b topic) /\ forall x, x ∈ bk_topics b -> x ∈ bk_topics (create_topic project b topic).
Proof.
  unfold create_topic. destruct (has_topic project topic b) eqn:Ht; [by apply has_topic_iff in Ht|].
  cbn. split; [done|]. split; [|intros x]; rewrite elem_of_app, list_elem_of_singleton; auto.
Qed.

Lemma create_topics_add project topics b : let b' := fold_left (create_topic project) topics b in
  bk_subscriptions b' = bk_subscriptions b /\ (forall t, t ∈ topics -> (project, t) ∈ bk_topics b') /\ (forall x, x ∈ bk_topics b -> x ∈ bk_topics b').
Proof.
  revert b. induction topics as [|t topics IH]; intros b; cbn; [by split_and!; [|intros t []%not_elem_of_nil|]|].
  destruct (create_topic_adds project b t) as (Hs & Ht & Hk). destruct (IH (create_topic project b t)) as (IHs & IHt & IHk).
  split_and!; [by rewrite IHs| |by auto]. intros t' [->|Hin]%elem_of_cons; auto.
Qed.

(** Nothing is created where every topic is there. *)
Lemma create_topics_again project topics b : (forall t, t ∈ topics -> (project, t) ∈ bk_topics b) -> fold_left (create_topic project) topics b = b.
Proof.
  induction topics as [|t topics IH]; intros Hall; [done|]. cbn. assert (create_topic project b t = b) as ->.
  { unfold create_topic. by rewrite (proj2 (has_topic_iff project t b)) by (apply Hall; left). }
  apply IH. intros t' Ht'. apply Hall. by right.
Qed.

Lemma topic_of_add project subscription topic project' subscription' b :
  topic_of project subscription (mkBroker (bk_topics b) (bk_subscriptions b ++ [(project', subscription', topic)])) =
  match topic_of project subscription b with
  | Some t => Some t
  | None => if String.eqb project' project && String.eqb subscription' subscription then Some topic else None
  end.
Proof.
  unfold topic_of. cbn [bk_subscriptions]. induction (bk_subscriptions b) as [|[[p s] t] l IH]; cbn [app List.find]; [by destruct (String.eqb project' project && String.eqb subscription' subscription)|]. by destruct (String.eqb p project && String.eqb s subscription).
Qed.

(** What a successful [create_subscription] leaves. *)
Lemma create_subscription_ok project subscription topic b : (project, topic) ∈ bk_topics b ->
  exists b', create_subscription project subscription topic b = Ok b' /\ bk_topics b' = bk_topics b /\
    (exists more, bk_subscriptions b' = bk_subscriptions b ++ more) /\
    forall s, topic_of project s b' = match topic_of project s b with Some t => Some t | None => if String.eqb subscription s then Some topic else None end.
Proof.
  intros Ht. unfold create_subscription. destruct (topic_of project subscription b) as [t|] eqn:Hs.
  - exists b. split_and!; try done; [exists []; by rewrite app_nil_r|]. intros s.
    destruct (topic_of project s b) eqn:Hsb; [done|]. destruct (String.eqb_spec subscription s) as [->|]; congruence.
  - rewrite (proj2 (has_topic_iff project topic b) Ht). eexists. split; [done|]. split; [done|]. split; [by eexists|].
    intros s. by rewrite topic_of_add, String.eqb_refl.
Qed.

Definition has_all (project : string) (b : broker) : Prop :=
  (forall t, t ∈ PUBSUB_TOPICS -> (project, t) ∈ bk_topics b) /\ forall s, s ∈ dict_keys PUBSUB_SUBSCRIPTIONS -> is_Some (topic_of project s b).

(** Provisioning succeeds from any state, keeps what there is, and attaches a subscription it creates to its topic. *)
Lemma provision_ok project b : exists b', provision_pubsub project b = Ok b' /\ has_all project b' /\ (forall x, x ∈ bk_topics b -> x ∈ bk_topics b') /\
  (exists more, bk_subscriptions b' = bk_subscriptions b ++ more) /\
  forall s t, (s, t) ∈ PUBSUB_SUBSCRIPTIONS -> topic_of project s b' = Some (default t (topic_of project s b)).
Proof.
  unfold provision_pubsub. destruct (create_topics_add project PUBSUB_TOPICS b) as (Hs & Ht & Hk). set (b1 := fold_left _ _ b) in *.
  assert (forall s, topic_of project s b1 = topic_of project s b) as Hof by (intros s; unfold topic_of; by rewrite Hs).
  unfold PUBSUB_SUBSCRIPTIONS at 1. cbn [create_subscriptions].
  destruct (create_subscription_ok project "csv-ingest-worker.csv.received" "csv.received" b1) as (b2 & -> & Ht2 & [m2 Hs2] & Ho2).
  { apply Ht. by apply (bool_decide_unpack _). }
  cbn [mbind result_bind].
  destruct (create_subscription_ok project "streaming-consumer.ingress.ready" "ingress.ready" b2) as (b3 & -> & Ht3 & [m3 Hs3] & Ho3).
  { rewrite Ht2. apply Ht. by apply (bool_decide_unpack _). }
  cbn [mbind result_bind]. exists b3. split; [done|].
  assert (forall s t, (s, t) ∈ PUBSUB_SUBSCRIPTIONS -> topic_of project s b3 = Some (default t (topic_of project s b))) as Hto.
  { intros s t Hst. rewrite Ho3, Ho2, Hof. destruct (topic_of project s b); [done|]. unfold PUBSUB_SUBSCRIPTIONS in Hst.
    rewrite !elem_of_cons, elem_of_nil in Hst. by destruct Hst as [[= -> ->]|[[= -> ->]|[]]]. }
  split_and!; [split|intros x Hx; rewrite Ht3, Ht2; by apply Hk| |exact Hto].
  - intros t Hin. rewrite Ht3, Ht2. by apply Ht.
  - intros s (x & -> & Hx)%list_elem_of_fmap. destruct x as [s t]. cbn. rewrite (Hto s t Hx). by eexists.
  - exists (m2 ++ m3). by rewrite Hs3, Hs2, Hs, app_assoc.
Qed.

Lemma provision_again project b : has_all project b -> provision_pubsub project b = Ok b.
Proof.
  intros [Ht Hs]. unfold provision_pubsub. rewrite create_topics_again by done. unfold PUBSUB_SUBSCRIPTIONS. cbn [create_subscriptions].
  unfold create_subscription. destruct (Hs "csv-ingest-worker.csv.received") as [t1 ->]; [by apply (bool_decide_unpack _)|]. cbn [mbind result_bind].
  destruct (Hs "streaming-consumer.ingress.ready") as [t2 ->]; [by apply (bool_decide_unpack _)|]. done.
Qed.

(** ** Starting *)

Lemma required_ok env name e v : required env name e = Ok v -> dict_get env name = Some v /\ v <> "".
Proof. unfold required. destruct (dict_get env name) as [[|c s]|]; try done. by intros [= <-]. Qed.

Lemma required_err env name e e' : required env name e = Err e' -> e' = e.
Proof. unfold required. destruct (dict_get env name) as [[|c s]|]; congruence. Qed.

Lemma port_err env e e' : health_port_from_env env e = Err e' -> e' = e.
Proof.
  unfold health_port_from_env. destruct (health_on env); [|done]. destruct (required env "PORT" e) as [p|x] eqn:Hp; cbn [mbind result_bind].
  - destruct (int_of_text p); congruence.
  - apply required_err in Hp. congruence.
Qed.

(** A configuration is refused with the error of its service and nothing else. *)
Lemma loop_config_err env e e' : loop_config_from_env env e = Err e' -> e' = e.
Proof.
  unfold loop_config_from_env. destruct (required env "POSTGRES_URL" e) eqn:H1; cbn [mbind result_bind]; [|apply required_err in H1; congruence].
  destruct (required env "PUBSUB_PROJECT_ID" e) eqn:H2; cbn [mbind result_bind]; [|apply required_err in H2; congruence].
  destruct (required env "GCS_BUCKET_BRONZE" e) eqn:H3; cbn [mbind result_bind]; [|apply required_err in H3; congruence].
  destruct (health_port_from_env env e) eqn:H4; cbn [mbind result_bind]; [done|apply port_err in H4; congruence].
Qed.

(** What a configuration holds. *)
Record configured (env : dict string) (c : LoopConfig) : Prop := {
  cf_url : dict_get env "POSTGRES_URL" = Some (lc_postgres_url c) /\ lc_postgres_url c <> "";
  cf_project : dict_get env "PUBSUB_PROJECT_ID" = Some (lc_pubsub_project_id c) /\ lc_pubsub_project_id c <> "";
  cf_bucket : dict_get env "GCS_BUCKET_BRONZE" = Some (lc_bronze_bucket c) /\ lc_bronze_bucket c <> "";
  cf_health : lc_run_health_server c = true <-> is_Some (lc_health_port c)
}.

Lemma loop_config_ok env e c : loop_config_from_env env e = Ok c -> configured env c.
Proof.
  unfold loop_config_from_env. intros H. apply bind_ok in H as (url & H1 & H). apply bind_ok in H as (project & H2 & H).
  apply bind_ok in H as (bucket & H3 & H). apply bind_ok in H as (port & H4 & [= <-]).
  split; cbn [lc_postgres_url lc_pubsub_project_id lc_bronze_bucket lc_run_health_server lc_health_port]; eauto using required_ok. unfold health_port_from_env in H4. destruct (health_on env).
  - apply bind_ok in H4 as (raw & _ & H4). destruct (int_of_text raw); [|done]. injection H4 as <-. by split; [eexists|].
  - injection H4 as <-. split; [done|]. by intros [? [=]].
Qed.

Section Starting.
Context `{ProcessOutside}.

Lemma make_engine_ok url u : make_engine url = Ok u -> u = url /\ url_parses url = true.
Proof. unfold make_engine, create_rls_engine. destruct url as [|c s]; cbn; [done|]. destruct (url_parses _) eqn:Hp; [|done]. by intros [= <-]. Qed.

Lemma subscription_there project s b e u : require_subscription project s b e = Ok u -> is_Some (topic_of project s b).
Proof. unfold require_subscription. destruct (clients_built && broker_answers); cbn; [|done]. destruct (topic_of project s b); [by eexists|done]. Qed.

(** The server of a configuration can listen, if it is to run. *)
Definition health_listens (c : LoopConfig) : bool :=
  negb (lc_run_health_server c) || match lc_health_port c with Some port => listens port | None => false end.

Lemma serve_health_eq c : serve_health c = if health_listens c then Ok tt else Err ClientError.
Proof.
  unfold serve_health, health_listens. destruct (lc_run_health_server c); [|done]. destruct (lc_health_port c) as [port|]; [|done].
  by destruct (listens port).
Qed.

(** A process pulls only when it is configured, on a subscription that is there and with its health server up, and
    the consumer only on the DIS database. *)
Lemma pulling_configured env b c s :
  (worker_main env b = Pulling c s -> configured env c /\ url_parses (lc_postgres_url c) = true /\ is_Some (topic_of (lc_pubsub_project_id c) s b) /\
     health_listens c = true) /\
  (consumer_main env b = Pulling c s -> configured env c /\ database_at (lc_postgres_url c) = Some EXPECTED_DATABASE /\
     is_Some (topic_of (lc_pubsub_project_id c) s b) /\ health_listens c = true).
Proof.
  assert (forall c u, serve_health c = Ok u -> health_listens c = true) as Hhealth by (intros c' u; rewrite serve_health_eq; by destruct (health_listens c')).
  split.
  - unfold worker_main. destruct (_ ≫= _) as [sub|]; [|done]. destruct (worker_run env b sub) as [c'|e] eqn:Hr; [|by destruct e]. intros [= -> ->].
    unfold worker_run in Hr. apply bind_ok in Hr as (c' & Hc & Hr). apply bind_ok in Hr as (u & Hu & Hr). apply bind_ok in Hr as (v & Hv & Hr).
    apply bind_ok in Hr as (v' & Hh & [= ->]).
    apply make_engine_ok in Hu as [_ Hu]. split_and!; [by eapply loop_config_ok|done|by eapply subscription_there|by eapply Hhealth].
  - unfold consumer_main. destruct (INGRESS_READY_SUBSCRIPTION env) as [sub|]; [|done]. destruct (consumer_run env b sub) as [c'|e] eqn:Hr; [|by destruct e].
    intros [= -> ->]. unfold consumer_run in Hr. apply bind_ok in Hr as (c' & Hc & Hr). apply bind_ok in Hr as (u & Hu & Hr).
    apply bind_ok in Hr as (v & Hv & Hr). apply bind_ok in Hr as (v' & Hv' & Hr). apply bind_ok in Hr as (v2 & Hh & [= ->]). apply make_engine_ok in Hu as [-> _].
    split_and!; [by eapply loop_config_ok| |by eapply subscription_there|by eapply Hhealth]. unfold assert_dis_target in Hv.
    destruct (database_at _) as [current|]; [|done]. destruct (String.eqb current EXPECTED_DATABASE) eqn:He; [|done]. apply String.eqb_eq in He. by subst.
Qed.

(** What an environment names is there: its database URL parses and leads to the DIS database, and the cloud services
    answer. *)
Record reachable (env : dict string) : Prop := {
  re_url url : dict_get env "POSTGRES_URL" = Some url -> url <> "" -> url_parses url = true;
  re_database url : dict_get env "POSTGRES_URL" = Some url -> url <> "" -> database_at url = Some EXPECTED_DATABASE;
  re_clients : clients_built = true;
  re_broker : broker_answers = true
}.

(** An environment that names no other project and keeps the names of the contract. *)
Record local_env (env : dict string) (project : string) : Prop := {
  le_project p : dict_get env "PUBSUB_PROJECT_ID" = Some p -> p <> "" -> p = project;
  le_names name : name ∈ ["CSV_RECEIVED_TOPIC"; "INGRESS_READY_TOPIC"; "CSV_RECEIVED_SUBSCRIPTION"; "INGRESS_READY_SUBSCRIPTION"] -> dict_get env name = None
}.

Lemma local_name env project name d : local_env env project ->
  name ∈ ["CSV_RECEIVED_TOPIC"; "INGRESS_READY_TOPIC"; "CSV_RECEIVED_SUBSCRIPTION"; "INGRESS_READY_SUBSCRIPTION"] -> resolve_pubsub_name env name d = Ok d.
Proof. intros Hl Hn. unfold resolve_pubsub_name. by rewrite (le_names _ _ Hl name Hn). Qed.

Lemma reachable_engine env url : reachable env -> dict_get env "POSTGRES_URL" = Some url -> url <> "" -> make_engine url = Ok url.
Proof. intros Hr Hu Hne. unfold make_engine, create_rls_engine. destruct url; [done|]. by rewrite (re_url _ Hr). Qed.

Lemma reachable_subscription env project s b e : reachable env -> is_Some (topic_of project s b) -> require_subscription project s b e = Ok tt.
Proof. intros Hr [t Ht]. unfold require_subscription. by rewrite (re_clients _ Hr), (re_broker _ Hr), Ht. Qed.

(** How a process ends up on a reachable environment whose subscription is there. *)
Lemma worker_comes_up env b project s : reachable env -> local_env env project -> is_Some (topic_of project s b) ->
  worker_run env b s = (c ← worker_config_from_env env; if health_listens c then Ok c else Err ClientError).
Proof.
  intros Hr Hl Hs. unfold worker_run, worker_config_from_env. destruct (loop_config_from_env env CsvIngestError) as [c|e] eqn:Hok; [|done].
  cbn [mbind result_bind]. destruct (loop_config_ok _ _ _ Hok) as [[Hu Hne] [Hpr Hpne] _ _]. rewrite (le_project _ _ Hl _ Hpr Hpne).
  rewrite (reachable_engine env _ Hr Hu Hne). cbn [mbind result_bind]. rewrite (reachable_subscription env) by done. cbn [mbind result_bind].
  rewrite serve_health_eq. by destruct (health_listens c).
Qed.

Lemma consumer_comes_up env b project s : reachable env -> local_env env project -> is_Some (topic_of project s b) ->
  consumer_run env b s = (c ← consumer_config_from_env env; if health_listens c then Ok c else Err ClientError).
Proof.
  intros Hr Hl Hs. unfold consumer_run, consumer_config_from_env. destruct (loop_config_from_env env ConfigDisError) as [c|e] eqn:Hok; [|done].
  cbn [mbind result_bind]. destruct (loop_config_ok _ _ _ Hok) as [[Hu Hne] [Hpr Hpne] _ _]. rewrite (le_project _ _ Hl _ Hpr Hpne).
  rewrite (reachable_engine env _ Hr Hu Hne). cbn [mbind result_bind]. unfold assert_dis_target. rewrite (re_database _ Hr _ Hu Hne), String.eqb_refl.
  cbn [negb raise_if mbind result_bind]. rewrite (reachable_subscription env) by done. cbn [mbind result_bind].
  rewrite serve_health_eq. by destruct (health_listens c).
Qed.
End Starting.

(** C30. A provisioned project comes up, and its parts are wired to each other.  Provisioning succeeds from any state of the
    broker, keeps what was there, and a second time changes nothing.  Afterwards, with the names of the contract, the
    subscription of the worker is attached to the topic the upload publishes to, and that of the consumer to the topic
    the worker publishes to, unless a subscription of that name was there before, which keeps its topic.  When what
    the environment names is reachable (its database URL parses and leads to the DIS database, and the cloud services
    answer), the worker and the consumer pull when their configuration is complete and their health server, if it is
    on, can listen on its port; they die of an exception when it cannot; and they exit with 2, and never otherwise,
    when the configuration is not complete. *)
Theorem provisioned_services_start `{ProcessOutside} env project b :
  reachable env -> local_env env project ->
  exists b' uploads ready from_uploads from_ready,
    provision_pubsub project b = Ok b' /\ provision_pubsub project b' = Ok b' /\
    (forall x, x ∈ bk_topics b -> x ∈ bk_topics b') /\ (exists more, bk_subscriptions b' = bk_subscriptions b ++ more) /\
    CSV_RECEIVED_TOPIC env = Ok uploads /\ CSV_RECEIVED_SUBSCRIPTION env = Ok from_uploads /\
    topic_of project from_uploads b' = Some (default uploads (topic_of project from_uploads b)) /\
    INGRESS_READY_TOPIC env = Ok ready /\ INGRESS_READY_SUBSCRIPTION env = Ok from_ready /\
    topic_of project from_ready b' = Some (default ready (topic_of project from_ready b)) /\
    worker_main env b' = (match worker_config_from_env env with
                          | Ok c => if health_listens c then Pulling c from_uploads else Crashed
                          | Err _ => Exited 2
                          end) /\
    consumer_main env b' = (match consumer_config_from_env env with
                            | Ok c => if health_listens c then Pulling c from_ready else Crashed
                            | Err _ => Exited 2
                            end).
Proof.
  intros Hr Hl. destruct (provision_ok project b) as (b' & Hp & Hall & Hk & Hm & Hto).
  pose proof (Hto "csv-ingest-worker.csv.received" "csv.received" ltac:(by apply (bool_decide_unpack _))) as Hw.
  pose proof (Hto "streaming-consumer.ingress.ready" "ingress.ready" ltac:(by apply (bool_decide_unpack _))) as Hc.
  assert (forall name d, name ∈ ["CSV_RECEIVED_TOPIC"; "INGRESS_READY_TOPIC"; "CSV_RECEIVED_SUBSCRIPTION"; "INGRESS_READY_SUBSCRIPTION"] ->
    resolve_pubsub_name env name d = Ok d) as Hnames by eauto using local_name.
  unfold worker_main, consumer_main, CSV_RECEIVED_TOPIC, INGRESS_READY_TOPIC, CSV_RECEIVED_SUBSCRIPTION, INGRESS_READY_SUBSCRIPTION.
  rewrite !Hnames by (by apply (bool_decide_unpack _)). cbn [mbind result_bind].
  exists b'. do 4 eexists. split; [exact Hp|]. split; [by apply provision_again|]. split; [exact Hk|]. split; [exact Hm|].
  do 2 (split; [reflexivity|]). split; [exact Hw|]. do 2 (split; [reflexivity|]). split; [exact Hc|].
  rewrite (worker_comes_up env b' project) by (done || by eexists). rewrite (consumer_comes_up env b' project) by (done || by eexists).
  unfold worker_config_from_env, consumer_config_from_env. split.
  - destruct (loop_config_from_env env CsvIngestError) as [c|e] eqn:Hok; cbn [mbind result_bind]; [by destruct (health_listens c)|].
    by apply loop_config_err in Hok as ->.
  - destruct (loop_config_from_env env ConfigDisError) as [c|e] eqn:Hok; cbn [mbind result_bind]; [by destruct (health_listens c)|].
    by apply loop_config_err in Hok as ->.
Qed.

(** ** The service and its probes *)

(** The service starts exactly when its three required values are there: the catalogues always build, and no optional
    value can keep it down. *)
Lemma lifespan_starts `{ProcessOutside} env : reachable env ->
  is_ok (lifespan env) = true <-> forall name, name ∈ ["POSTGRES_URL"; "GCS_BUCKET_BRONZE"; "PUBSUB_PROJECT_ID"] -> is_ok (required env name ConfigDisError) = true.
Proof.
  intros Hr. destruct catalogues_built as (cs & legacy & Hcs & Hlegacy & _ & _). unfold lifespan, ui_config_from_env. split.
  - intros Hok name. rewrite !elem_of_cons, elem_of_nil. destruct (_ ≫= _) as [st|] eqn:Hst; [|done]. apply bind_ok in Hst as (c & Hc & _).
    apply bind_ok in Hc as (url & H1 & Hc). apply bind_ok in Hc as (bucket & H2 & Hc). apply bind_ok in Hc as (project & H3 & _).
    intros [->|[->|[->|[]]]]; by rewrite ?H1, ?H2, ?H3.
  - intros Hall. destruct (required env "POSTGRES_URL" _) as [url|] eqn:H1;
      [|by specialize (Hall "POSTGRES_URL" ltac:(by apply (bool_decide_unpack _))); rewrite H1 in Hall].
    destruct (required env "GCS_BUCKET_BRONZE" _) as [bucket|] eqn:H2;
      [|by specialize (Hall "GCS_BUCKET_BRONZE" ltac:(by apply (bool_decide_unpack _))); rewrite H2 in Hall].
    destruct (required env "PUBSUB_PROJECT_ID" _) as [project|] eqn:H3;
      [|by specialize (Hall "PUBSUB_PROJECT_ID" ltac:(by apply (bool_decide_unpack _))); rewrite H3 in Hall].
    cbn [mbind result_bind]. apply required_ok in H1 as [Hurl Hu]. cbn [uc_postgres_url]. rewrite (reachable_engine env _ Hr Hurl Hu). cbn [mbind result_bind].
    rewrite (re_clients _ Hr), Hcs. cbn [negb raise_if mbind result_bind catalogs_or]. by rewrite Hlegacy.
Qed.

(** The allow-list is never empty, and holds no blank origin. *)
Lemma cors_origins env l : cors_allowed_origins_from_env env = Ok l -> l <> [] /\ "" ∉ l.
Proof.
  unfold cors_allowed_origins_from_env. destruct (dict_get env _) as [raw|].
  - destruct (filter _ _) as [|o os] eqn:Hf; [done|]. intros [= <-]. split; [done|]. rewrite <- Hf. by intros [? _]%list_elem_of_filter.
  - intros [= <-]. split; [done|]. unfold DEFAULT_CORS_ORIGINS. set_solver.
Qed.

(** Ready means that the tenant-scoped path works: the target was checked and the role cannot bypass the policies. *)
Lemma ready_iff_scoped tenant en q : honest en -> exists en' answer, readyz tenant (en, q) = (Ok answer, (en', q)) /\
  ((answer = (200, "ready")%Z /\ answers en /\ bypasses (en_posture en) = false) \/ (answer = (503, "degraded")%Z /\ ~ answers en)).
Proof.
  intros Hh. unfold readyz, rls_session, verified_transaction. destruct (en_reachable en) eqn:Hr; cbn [negb].
  - destruct (if en_verified en then _ else _) as [[]|e] eqn:Hp; eexists _, _; (split; [reflexivity|]).
    + left. assert (answers en) as Ha by done. split_and!; [done|done|by apply answers_safe].
    + right. split; [done|]. intros [_ Ha]. congruence.
  - eexists _, _. split; [reflexivity|]. right. split; [done|]. intros [Ha _]. congruence.
Qed.

(** A probe during a cycle that takes at most a minute finds the loop alive; a loop that made no beat for longer is
    reported, whatever else the process does. *)
Lemma healthz_follows_loop st st' now : cycle st st' -> (lo_clock st <= now <= lo_clock st')%Z ->
  ((lo_clock st' - lo_clock st <= HEALTH_STALENESS_MS)%Z -> healthz_app (lo_last_beat st') now HEALTH_PATH = (200, "ok")%Z) /\
  ((HEALTH_STALENESS_MS < now - lo_last_beat st')%Z -> healthz_app (lo_last_beat st') now HEALTH_PATH = (503, "stale")%Z).
Proof.
  intros Hc Hnow. assert (lo_last_beat st' = lo_clock st) as -> by (by inversion Hc). unfold healthz_app. rewrite String.eqb_refl. cbn [negb]. split; intros Hle.
  - by rewrite (proj2 (Z.leb_le _ _)) by lia.
  - by rewrite (proj2 (Z.leb_gt _ _)) by lia.
Qed.

(** Every answer of the identity service but a success is one error, decided by its status and its code. *)
Lemma identity_errors `{Pydantic} post path payload r : post path payload = Some r -> ~ (200 <= hr_status r <= 299)%Z ->
  let code := (fun '(c, _, _) => c) <$> (hr_json r ≫= error_envelope) in
  exists e, call post path payload = Err e /\
    ((exists c t, e = IdentityNotFoundError (hr_status r) c t) <-> hr_status r = 404%Z \/ code = Some "identity_not_found") /\
    ((exists c t after, e = IdentityServiceUnavailableError (hr_status r) c t after) <->
       hr_status r <> 404%Z /\ code <> Some "identity_not_found" /\ (hr_status r = 503%Z \/ code = Some "circuit_open")).
Proof.
  intros Hp Hst code. exists (to_error r). split.
  { unfold call. rewrite Hp. by rewrite (proj2 (andb_false_iff _ _)) by (rewrite !Z.leb_gt; lia). }
  unfold to_error. fold code. destruct (Z.eqb_spec (hr_status r) 404), (Z.eqb_spec (hr_status r) 503); cbn [orb]; repeat case_bool_decide; naive_solver.
Qed.

(** ** Samples *)

Definition sample_url : string := "postgresql+psycopg://dis".

(** One URL parses and leads to the DIS database, and a server can listen on the unprivileged ports. *)
Definition local_outside : ProcessOutside := {|
  url_parses url := String.eqb url sample_url;
  database_at url := if String.eqb url sample_url then Some EXPECTED_DATABASE else None;
  clients_built := true;
  broker_answers := true;
  listens port := ((1024 <=? port) && (port <=? 65535))%Z
|}.

Definition env_with (port : string) : dict string :=
  [("POSTGRES_URL", sample_url); ("PUBSUB_PROJECT_ID", "local"); ("GCS_BUCKET_BRONZE", "bronze"); ("RUN_HEALTH_SERVER", "TRUE"); ("PORT", port)].

Definition sample_env : dict string := env_with " 8080 ".

(** A name that is set to blanks ends the process before its error handling is there: the exit code is not that of a configuration error. *)
Example blank_override_crashes :
  worker_main (H := local_outside) (("CSV_RECEIVED_SUBSCRIPTION", "  ") :: sample_env) (mkBroker [] []) = Crashed /\
  worker_main (H := local_outside) sample_env (mkBroker [] []) = Exited 2.
Proof. vm_compute. done. Qed.

(** A port that is no number is a configuration error; a number that is no port passes the configuration and ends the process. *)
Definition provisioned : broker := match provision_pubsub "local" (mkBroker [] []) with Ok b => b | Err _ => mkBroker [] [] end.

Example bad_ports :
  worker_main (H := local_outside) (env_with "http") provisioned = Exited 2 /\
  worker_main (H := local_outside) (env_with "-70000") provisioned = Crashed /\
  consumer_main (H := local_outside) (env_with "-70000") provisioned = Crashed.
Proof. vm_compute. done. Qed.

Lemma provisioned_services_start_witness : exists b', provision_pubsub "local" (mkBroker [] []) = Ok b' /\
  worker_main (H := local_outside) sample_env b' =
    Pulling (mkLoopConfig sample_url "local" "bronze" true (Some 8080%Z)) "csv-ingest-worker.csv.received".
Proof.
  destruct (@provisioned_services_start local_outside sample_env "local" (mkBroker [] [])) as (b' & up & rd & fu & fr & Hp & _ & _ & _ & _ & Hs & _ & _ & _ & _ & Hw & _).
  - split; [| |reflexivity|reflexivity]; intros url [= <-] _; reflexivity.
  - split; [by intros p [= <-]|]. intros name. rewrite !elem_of_cons, elem_of_nil. intros [->|[->|[->|[->|[]]]]]; reflexivity.
  - exists b'. split; [exact Hp|]. rewrite Hw. vm_compute in Hs. injection Hs as <-. vm_compute. reflexivity.
Defined.
