(* ===== verification/Profiler.v ===== *)
(** Profiler: the deterministic profile of example CSVs (dis-ui-server [infer/profiler.py]), and the
    proposals of the language model on it ([infer/proposer.py]).

    A CSV is the frame polars reads: its headers with their cells, all text, a missing cell absent.
    Cells are stripped before they are matched, so that [$] in a pattern stands for the end. *)

From S2P Require Import Prelude Text Values Decimals Paths Ir.

Record csv_frame := mkCsvFrame { fr_height : nat; fr_columns : list (string * list (option string)) }.

(** ** Capacities *)

Definition STR_CAPS : list Z := [32; 64; 128; 256]%Z.
Definition NUMERIC_CAPS : list (Z * Z) := [(3, 2); (5, 2); (8, 3); (10, 4); (12, 4); (14, 3); (14, 4)]%Z.
Definition ENUM_MAX_CARDINALITY : nat := 8.

Definition bucket_str_capacity (max_len : Z) : Z := default 256%Z (List.find (fun cap => (max_len <=? cap)%Z) STR_CAPS).

Definition bucket_decimal_capacity (precision scale : Z) : Z * Z :=
  default (14, 4)%Z (List.find (fun '(cap_p, cap_s) => (precision <=? cap_p)%Z && (scale <=? cap_s)%Z) NUMERIC_CAPS).

(** ** Patterns *)

Definition any_char : regex := RChr (fun _ => true).
Definition re_seqs (l : list regex) : regex := foldr RSeq REps l.
Definition digits (n : nat) : regex := re_seqs (repeat re_digit n).

Definition INT_RE : regex := RSeq (re_opt (re_char "-")) (re_plus re_digit).
Definition DECIMAL_RE : regex := re_seqs [re_opt (re_char "-"); re_plus re_digit; re_char "."; re_plus re_digit].
Definition DATE_RE : regex := re_seqs [digits 4; re_char "-"; digits 2; re_char "-"; digits 2].
Definition DATETIME_RE : regex :=
  re_seqs [digits 4; re_char "-"; digits 2; re_char "-"; digits 2; RAlt (re_char " ") (re_char "T"); digits 2; re_char ":"; digits 2;
           re_opt (RSeq (re_char ":") (digits 2)); RStar any_char].

Definition is_bool_token (v : string) : bool := existsb (String.eqb (py_lower v)) ["true"; "false"].

(** ** Names *)

(** [re.sub(p+, "_", s)]: every run becomes one underscore. *)
Fixpoint sub_runs (p : ascii -> bool) (in_run : bool) (s : string) : string :=
  match s with
  | EmptyString => ""
  | String c s' => if p c then (if in_run then sub_runs p true s' else String "_" (sub_runs p true s')) else String c (sub_runs p false s')
  end.

Definition is_word (c : ascii) : bool := is_digit c || is_lower c || is_upper c.

Definition snake_case (header : string) : string :=
  let cleaned := py_lower (strip_chars (Ascii.eqb "_") (sub_runs (fun c => negb (is_word c)) false (strip header))) in
  sub_runs (Ascii.eqb "_") false cleaned.

(** ** Types *)

(** Significant and fractional digits of a decimal literal. *)
Definition decimal_precision_scale (v : string) : Z * Z :=
  let '(int_part, frac) := split_at_char (Ascii.eqb ".") (lstrip_chars (Ascii.eqb "-") v) in
  let frac_len := Z.of_nat (String.length (default "" frac)) in
  (Z.of_nat (String.length (lstrip_chars (Ascii.eqb "0") int_part)) + frac_len, frac_len)%Z.

Definition max_capacity (acc : Z * Z) (v : string) : Z * Z :=
  if re_match DECIMAL_RE v then let '(p, s) := decimal_precision_scale v in (Z.max acc.1 p, Z.max acc.2 s) else acc.

Inductive base_type : Type := TStr | TDecimal (precision scale : Z) | TInt | TDate | TDatetime | TBool.

Definition infer_base (values : list string) : base_type :=
  match values with
  | [] => TStr
  | _ =>
      if forallb is_bool_token values then TBool
      else if forallb (re_match DATETIME_RE) values then TDatetime
      else if forallb (re_match DATE_RE) values then TDate
      else if forallb (re_match INT_RE) values then TInt
      else if forallb (fun v => re_match INT_RE v || re_match DECIMAL_RE v) values && existsb (re_match DECIMAL_RE) values then
        let '(prec, scale) := fold_left max_capacity values (0, 0)%Z in
        let '(cap_p, cap_s) := bucket_decimal_capacity prec scale in TDecimal cap_p cap_s
      else TStr
  end.

Definition base_text (b : base_type) : string :=
  match b with TStr => "str" | TDecimal _ _ => "decimal" | TInt => "int" | TDate => "date" | TDatetime => "datetime" | TBool => "bool" end.

(** ** The profile *)

Record ProfiledColumn := mkProfiled {
  pf_name : string;
  pf_base : base_type;
  pf_nullable : bool;
  pf_max_length : option Z;
  pf_distinct_values : list string;
  pf_present_in_files : Z;
  pf_total_files : Z;
  pf_rows_profiled : Z;
  pf_source_headers : list string
}.

(** What is gathered of a column across files. *)
Record gathered := mkGathered { ga_cells : list (option string); ga_headers : list string; ga_present : Z; ga_rows : Z }.

Definition gather_header (rows : nat) (d : dict gathered) (col : string * list (option string)) : dict gathered :=
  let name := snake_case col.1 in
  let g := default (mkGathered [] [] 0 0) (dict_get d name) in
  dict_set d name
    (mkGathered (ga_cells g ++ col.2) (if existsb (String.eqb col.1) (ga_headers g) then ga_headers g else ga_headers g ++ [col.1])
       (ga_present g + 1) (ga_rows g + Z.of_nat rows)).

Definition gather_file (d : dict gathered) (f : csv_frame) : dict gathered := fold_left (gather_header (fr_height f)) (fr_columns f) d.

Definition gather (files : list csv_frame) : dict gathered := fold_left gather_file files [].

Definition is_null (cell : option string) : bool := match cell with None => true | Some c => String.eqb (strip c) "" end.

Definition non_null (cells : list (option string)) : list string :=
  omap (fun c => match c with Some t => if String.eqb (strip t) "" then None else Some (strip t) | None => None end) cells.

Definition max_len (values : list string) : Z := foldr Z.max 0%Z (map (fun v => Z.of_nat (String.length v)) values).

Definition profile_column (total_files : nat) (name : string) (g : gathered) : ProfiledColumn :=
  let values := non_null (ga_cells g) in
  let base := infer_base values in
  let is_str := bool_decide (base_text base = "str") in
  let distinct := py_sorted (remove_dups values) in
  let is_enum_candidate := is_str && (2 <=? length distinct)%nat && (length distinct <=? ENUM_MAX_CARDINALITY)%nat &&
                           (Z.of_nat (length distinct) <? ga_rows g)%Z in
  mkProfiled name base (existsb is_null (ga_cells g) || (ga_present g <? Z.of_nat total_files)%Z)
    (if is_str then Some (bucket_str_capacity (max_len values)) else None) (if is_enum_candidate then distinct else [])
    (ga_present g) (Z.of_nat total_files) (ga_rows g) (ga_headers g).

Definition profile_csvs (files : list csv_frame) : list ProfiledColumn :=
  map (fun '(name, g) => profile_column (length files) name g) (gather files).

Definition opt_int (o : option Z) : value := match o with Some z => VInt z | None => VNone end.

Definition column_payload (c : ProfiledColumn) : value :=
  VDict [("name", VStr (pf_name c)); ("base", VStr (base_text (pf_base c))); ("nullable", VBool (pf_nullable c));
         ("max_length", opt_int (pf_max_length c));
         ("precision", match pf_base c with TDecimal p _ => VInt p | _ => VNone end);
         ("scale", match pf_base c with TDecimal _ s => VInt s | _ => VNone end);
         ("distinct_values", VList (map VStr (pf_distinct_values c))); ("present_in_files", VInt (pf_present_in_files c));
         ("total_files", VInt (pf_total_files c)); ("rows_profiled", VInt (pf_rows_profiled c));
         ("source_headers", VList (map VStr (pf_source_headers c)))].

Definition columns_to_payload (columns : list ProfiledColumn) : value := VDict [("columns", VList (map column_payload columns))].

(** ** Proposals *)

Record ColumnProposal := mkProposal {
  cp_source_column : string;
  cp_canonical_name : option string;
  cp_enum_values : option (list string);
  cp_pii : option string;
  cp_display_name : option string;
  cp_description : option string
}.

(** A text that is not empty, else nothing. *)
Definition some_text (v : value) : option string := match v with VStr (String c s) => Some (String c s) | _ => None end.

Definition parse_proposal (known : list string) (item : value) : option ColumnProposal :=
  match item with
  | VDict d =>
      let get key := default VNone (dict_get d key) in
      match get "source_column" with
      | VStr source =>
          if existsb (String.eqb source) known
          then Some (mkProposal source (some_text (get "name"))
                       (match get "enum_values" with VList l => Some (omap as_str l) | _ => None end)
                       (some_text (get "pii")) (some_text (get "display_name")) (some_text (get "description")))
          else None
      | _ => None
      end
  | _ => None
  end.

(** The parsed answer of the model. *)
Definition parse_proposals (parsed : value) (profiled : list ProfiledColumn) : res (list ColumnProposal) :=
  raw_items ← (match parsed with VDict _ => get_or parsed "proposals" (VList []) | _ => Ok (VList []) end);
  items ← py_iter raw_items;
  Ok (omap (M := list) (parse_proposal (map pf_name profiled)) items).

(** The model: whether one is configured, and what it answers, parsed as JSON, or the exception of the call. *)
Class ModelOutside := { model_configured : bool; model_answer : list ProfiledColumn -> res value }.

Definition propose `{ModelOutside} (profiled : list ProfiledColumn) : list ColumnProposal :=
  if negb model_configured then []
  else match (parsed ← model_answer profiled; parse_proposals parsed profiled) with Ok l => l | Err _ => [] end.

Definition opt_text (o : option string) : value := match o with Some s => VStr s | None => VNone end.

Definition proposal_payload (p : ColumnProposal) : value :=
  VDict [("source_column", VStr (cp_source_column p)); ("canonical_name", opt_text (cp_canonical_name p));
         ("enum_values", match cp_enum_values p with Some l => VList (map VStr l) | None => VNone end);
         ("pii", opt_text (cp_pii p)); ("display_name", opt_text (cp_display_name p)); ("description", opt_text (cp_description p))].

Definition proposals_to_payload (proposals : list ColumnProposal) : value := VDict [("proposals", VList (map proposal_payload proposals))].
