(* ===== verification/Codegen.v ===== *)
(** Codegen: the artifacts generated from one table of a schema (tools/codegen [generate.py]),
    and the signature of a model field by which generated and checked-in models are compared
    ([reflect.py]).

    Sets of imports are lists; they are sorted when they are rendered.  An annotation is the
    object that [typing] builds, an item of metadata its attributes and, for a [FieldInfo], the
    list in its attribute [metadata].  How Pydantic stores a declared annotation in a field is an
    argument with its documented behaviour as hypotheses. *)

From S2P Require Import Prelude Text Values Decimals Paths Ir.

(** An integer key of a dict: whole floats and booleans are equal to integers. *)
Definition int_key (v : value) : option Z :=
  match v with
  | VInt z => Some z
  | VBool b => Some (if b then 1 else 0)%Z
  | VFloat r => match py_decimal r with
                | Some (VDecimal c sc) => if (c mod 10 ^ Z.of_nat sc =? 0)%Z then Some (c / 10 ^ Z.of_nat sc)%Z else None
                | _ => None
                end
  | _ => None
  end.

Definition NUMERIC_ALIASES (key : Z * Z) : option string :=
  match key with
  | (12, 4) => Some "Numeric12_4" | (14, 3) => Some "Numeric14_3" | (14, 4) => Some "Numeric14_4" | (10, 4) => Some "Numeric10_4"
  | (8, 3) => Some "Numeric8_3" | (5, 2) => Some "Numeric5_2" | (3, 2) => Some "Numeric3_2" | _ => None
  end%Z.

Definition STR_ALIASES (n : Z) : option string :=
  match n with 32 => Some "Str32" | 64 => Some "Str64" | 128 => Some "Str128" | 256 => Some "Str256" | _ => None end%Z.

Definition ENUM_ALIASES : dict string := [("tax_treatment", "TaxTreatment"); ("expiry_source", "ExpirySource")].
Definition SQL_INT : dict string := [("int", "INTEGER"); ("smallint", "SMALLINT"); ("bigint", "BIGINT")].

Record Resolved := mkResolved { re_annotation : string; re_shared : list string; re_stdlib : list (string * string); re_sql_type : string }.

Definition optional_rule (f : FieldIR) : bool :=
  fi_nullable f || negb (is_none (fi_default f)) || bool_decide (fi_produced_by f = DB_GENERATED).

Definition effective_type (f : FieldIR) (schema : SchemaIR) : string * option TypeIR * value :=
  match dict_get (sc_types schema) (fi_type_ref f) with
  | Some t => (ty_base t, Some t, fi_max_length f)
  | None => match fi_inline_type f with
            | Some t => (ty_base t, Some t, fi_max_length f)
            | None => (fi_type_ref f, None, fi_max_length f)
            end
  end.

Definition shared_type (alias sql : string) : res Resolved := Ok (mkResolved alias [alias] [] sql).

Definition resolve_enum (enum_ref : value) : res Resolved :=
  match enum_ref with
  | VStr r => match dict_get ENUM_ALIASES r with Some alias => shared_type alias ("canonical." +:+ r +:+ "_enum") | None => Err ValueError end
  | VList _ | VDict _ => Err TypeError
  | _ => Err ValueError
  end.

Definition resolve_decimal (constrained : option TypeIR) : res Resolved :=
  match constrained with
  | None => Err ValueError
  | Some t =>
      raise_if (is_none (ty_precision t) || is_none (ty_scale t)) ValueError ≫= fun _ =>
      match ty_precision t, ty_scale t with
      | (VList _ | VDict _), _ | _, (VList _ | VDict _) => Err TypeError
      | p, s => match (k ← int_key p; l ← int_key s; NUMERIC_ALIASES (k, l)) with
                | Some alias => shared_type alias ("NUMERIC(" +:+ py_str p +:+ ", " +:+ py_str s +:+ ")")
                | None => Err ValueError
                end
      end
  end.

Definition resolve_str (constrained : option TypeIR) (field_max : value) : res Resolved :=
  let min_len := from_option ty_min_length VNone constrained in
  let max_len := py_or (from_option ty_max_length VNone constrained) field_max in
  if bool_decide (int_key min_len = Some 3%Z) && bool_decide (int_key max_len = Some 3%Z) then shared_type "CurrencyCode" "CHAR(3)"
  else match max_len with
       | VList _ | VDict _ => Err TypeError
       | _ => match int_key max_len ≫= STR_ALIASES with
              | Some alias => shared_type alias ("VARCHAR(" +:+ py_str max_len +:+ ")")
              | None => Err ValueError
              end
       end.

Definition resolve (f : FieldIR) (schema : SchemaIR) : res Resolved :=
  if negb (is_none (fi_enum_ref f)) then resolve_enum (fi_enum_ref f)
  else
    let '(base, constrained, field_max) := effective_type f schema in
    if String.eqb base "decimal" then resolve_decimal constrained
    else if String.eqb base "str" then resolve_str constrained field_max
    else if String.eqb base "uuid" then Ok (mkResolved "UUID" [] [("uuid", "UUID")] "UUID")
    else match dict_get SQL_INT base with
         | Some sql => Ok (mkResolved "int" [] [] sql)
         | None =>
             if String.eqb base "bool" then Ok (mkResolved "bool" [] [] "BOOLEAN")
             else if String.eqb base "date" then Ok (mkResolved "date" [] [("datetime", "date")] "DATE")
             else if existsb (String.eqb base) ["timestamptz"; "datetime"]
                  then Ok (mkResolved "datetime" [] [("datetime", "datetime")] "TIMESTAMPTZ")
             else if String.eqb base "jsonb" then Ok (mkResolved "dict[str, Any]" [] [("typing", "Any")] "JSONB")
             else Err ValueError
         end.

(** ** The model *)

Definition capitalize (s : string) : string := match s with EmptyString => "" | String c s' => String (upper_char c) (py_lower s') end.
Definition class_name (table_key : string) : string := str_join "" (map capitalize (split_on "_" table_key)).

(** The names imported from each module, both sorted. *)
Definition stdlib_import_lines (symbols : list (string * string)) : list string :=
  map (fun m => "from " +:+ m +:+ " import " +:+
                str_join ", " (py_sorted (remove_dups (map snd (filter (fun s => s.1 = m) symbols)))))
    (py_sorted (remove_dups (map fst symbols))).

Definition model_line (f : FieldIR) (r : Resolved) : string :=
  "    " +:+ fi_name f +:+ ": " +:+ re_annotation r +:+ (if optional_rule f then " | None = None" else "").

Definition NL : string := String "010" "".
Definition GENERATED : string :=
  str_join "" (repeat (String dquote "") 3) +:+ "GENERATED from the Atlas IR. Do not hand-edit; edit the IR and regenerate." +:+
  str_join "" (repeat (String dquote "") 3).

Definition render_model (table : TableIR) (schema : SchemaIR) : res string :=
  resolved ← map_res (fun f => resolve f schema) (tb_fields table);
  let shared := py_sorted (remove_dups ("CanonicalModel" :: flat_map re_shared resolved)) in
  let stdlib := stdlib_import_lines (flat_map re_stdlib resolved) in
  Ok (str_join NL
        ([GENERATED; ""; "from __future__ import annotations"; ""] ++
         match stdlib with [] => [] | l => l ++ [""] end ++
         ["from dis_canonical.shared import (" +:+ NL +:+ "    " +:+ str_join ("," +:+ NL +:+ "    ") shared +:+ "," +:+ NL +:+ ")"; ""; "";
          "class " +:+ class_name (tb_key table) +:+ "(CanonicalModel):"] ++
         zip_with model_line (tb_fields table) resolved ++ [""])).

(** ** The provenance *)

Definition bucket (table : TableIR) (p : ProducedBy) : list string := map fi_name (filter (fun f => fi_produced_by f = p) (tb_fields table)).

Definition frozenset_literal (names : list string) : string :=
  match names with
  | [] => "frozenset()"
  | _ => "frozenset(" +:+ NL +:+ "        {" +:+ NL +:+ "        " +:+ str_join ("," +:+ NL +:+ "        ") (map py_repr names) +:+ "," +:+ NL +:+
         "        }" +:+ NL +:+ "    )"
  end.

Definition render_provenance (table : TableIR) : string :=
  str_join NL
    [GENERATED; ""; "from __future__ import annotations"; ""; "from dis_validation import ColumnProvenance"; ""; "";
     "PROVENANCE = ColumnProvenance(";
     "    consumer_injected=" +:+ frozenset_literal (bucket table CONSUMER_INJECTED) +:+ ",";
     "    db_generated=" +:+ frozenset_literal (bucket table DB_GENERATED) +:+ ",";
     "    compute_owned=" +:+ frozenset_literal (bucket table COMPUTE_OWNED) +:+ ",";
     "    mapping_produced=" +:+ frozenset_literal (bucket table MAPPING_PRODUCED) +:+ ",";
     "    enrichment_produced=" +:+ frozenset_literal (bucket table ENRICHMENT_PRODUCED) +:+ ",";
     ")"; ""].

(** ** The DDL *)

Record DdlSubset := mkDdlSubset {
  ddl_table : string;
  ddl_sink : string;
  ddl_columns : list (string * string * bool * value);
  ddl_natural_key_unique_index : string;
  ddl_sentinel_checks : list string
}.

(** The last field of a name counts. *)
Definition field_by_name (table : TableIR) (name : string) : option FieldIR := last (filter (fun f => fi_name f = name) (tb_fields table)).

Definition is_nullable_member (table : TableIR) (member : string) : bool :=
  match field_by_name table member with Some f => fi_nullable f | None => false end.

Definition index_column (table : TableIR) (member : string) : string :=
  if is_nullable_member table member then "COALESCE(" +:+ member +:+ ", '')" else member.

Definition render_ddl (table : TableIR) (schema : SchemaIR) : res DdlSubset :=
  columns ← map_res (fun f => r ← resolve f schema; Ok (fi_name f, re_sql_type r, fi_nullable f, fi_default f)) (tb_fields table);
  Ok (mkDdlSubset (tb_key table) (tb_sink table) columns
        ("CREATE UNIQUE INDEX uq_" +:+ tb_key table +:+ "_natural_key ON " +:+ tb_sink table +:+ " (" +:+
         str_join ", " ("tenant_id" :: map (index_column table) (tb_natural_key table)) +:+ ");")
        (map (fun m => m +:+ " <> ''") (filter (fun m => is_nullable_member table m = true) (tb_natural_key table)))).

Definition ddl_column_line (c : string * string * bool * value) : string :=
  let '(name, sql_type, nullable, default_) := c in
  "    " +:+ name +:+ " " +:+ sql_type +:+ " " +:+ (if nullable then "NULL" else "NOT NULL") +:+
  (if truthy default_ then " DEFAULT " +:+ py_str default_ else "").

Definition BANNER : list string :=
  ["-- ATLAS A1 ARTIFACT: IR-EXPRESSIBLE SUBSET ONLY. NOT A MIGRATION. NOT RUNNABLE.";
   "-- Subset = columns + natural-key COALESCE-sentinel unique index + sentinel CHECKs.";
   "-- The full, reconciled, runnable DDL is an A2 artifact (generated-DDL-vs-live-schema,";
   "-- requires a DB). See tools/codegen/README.md for the deferred DDL-fidelity items."; ""].

Definition to_partial_sql (d : DdlSubset) : string :=
  let checks := map (fun c => "    CHECK (" +:+ c +:+ ")") (ddl_sentinel_checks d) in
  str_join NL BANNER +:+ "-- columns for " +:+ ddl_sink d +:+ " (subset)" +:+ NL +:+ str_join NL (map ddl_column_line (ddl_columns d)) +:+
  match checks with [] => "" | _ => NL +:+ str_join NL checks end +:+ NL +:+ NL +:+ "-- natural key" +:+ NL +:+
  ddl_natural_key_unique_index d +:+ NL.

(** ** The signature of a field *)

Record metadata := mkMeta { me_attrs : dict value; me_nested : option (list (dict value)) }.

Inductive annotation : Type :=
| TClass (name : string)
| TEnum (name : string)
| TNoneType
| TLiteral (values : list value)
| TDict (args : list annotation)
| TAnnotated (base : annotation) (meta : list metadata)
| TUnion (members : list annotation)
| TSpecial (name : string).

Record FieldInfo := mkFieldInfo { fo_annotation : annotation; fo_metadata : list metadata }.

Definition is_none_type (a : annotation) : bool := match a with TNoneType => true | _ => false end.

Definition unwrap_optional (a : annotation) : annotation :=
  match a with
  | TUnion members => match filter (fun m => is_none_type m = false) members with [m] => m | _ => a end
  | _ => a
  end.

Definition split_annotated (a : annotation) : annotation * list metadata :=
  match a with TAnnotated base meta => (base, meta) | _ => (a, []) end.

(** An attribute that is an integer; a boolean is one, and equal to 0 or 1. *)
Definition int_attr (attrs : dict value) (attr : string) : option Z :=
  match dict_get attrs attr with
  | Some (VInt z) => Some z
  | Some (VBool b) => Some (if b then 1 else 0)%Z
  | _ => None
  end.

Fixpoint first_int (l : list (dict value)) (attr : string) : option Z :=
  match l with
  | [] => None
  | inner :: l' => match int_attr inner attr with Some z => Some z | None => first_int l' attr end
  end.

Fixpoint meta_int (l : list metadata) (attr : string) : option Z :=
  match l with
  | [] => None
  | item :: l' =>
      match int_attr (me_attrs item) attr with
      | Some z => Some z
      | None => match first_int (default [] (me_nested item)) attr with Some z => Some z | None => meta_int l' attr end
      end
  end.

Inductive marker : Type :=
| MLiteral (values : list string)
| MEnum (name : string)
| MDict (args : list annotation)
| MType (base : annotation)
| MOther (base : annotation).

Definition base_marker (base : annotation) : marker :=
  match base with
  | TLiteral values => MLiteral (map py_str values)
  | TEnum name => MEnum name
  | TDict args => MDict args
  | TClass _ | TNoneType => MType base
  | TAnnotated _ _ | TUnion _ | TSpecial _ => MOther base
  end.

Definition type_signature (field : FieldInfo) : marker * option Z * option Z * option Z * option Z :=
  let '(base, inline_meta) := split_annotated (unwrap_optional (fo_annotation field)) in
  let meta := fo_metadata field ++ inline_meta in
  (base_marker base, meta_int meta "min_length", meta_int meta "max_length", meta_int meta "max_digits", meta_int meta "decimal_places").

(** ** The annotations of the row models *)

Definition string_constraints (lo hi : value) : metadata := mkMeta [("min_length", lo); ("max_length", hi)] None.
Definition decimal_field (digits places : Z) : metadata :=
  mkMeta [] (Some [[("max_digits", VInt digits); ("decimal_places", VInt places)]]).

Definition str_type (n : Z) : annotation := TAnnotated (TClass "str") [string_constraints VNone (VInt n)].
Definition numeric_type (p s : Z) : annotation := TAnnotated (TClass "Decimal") [decimal_field p s].

(** What a name of a generated model stands for. *)
Definition ANNOTATIONS : dict annotation :=
  [("Str32", str_type 32); ("Str64", str_type 64); ("Str128", str_type 128); ("Str256", str_type 256);
   ("CurrencyCode", TAnnotated (TClass "str") [string_constraints (VInt 3) (VInt 3)]);
   ("Numeric12_4", numeric_type 12 4); ("Numeric14_3", numeric_type 14 3); ("Numeric14_4", numeric_type 14 4);
   ("Numeric10_4", numeric_type 10 4); ("Numeric8_3", numeric_type 8 3); ("Numeric5_2", numeric_type 5 2); ("Numeric3_2", numeric_type 3 2);
   ("TaxTreatment", TEnum "TaxTreatment"); ("ExpirySource", TEnum "ExpirySource");
   ("UUID", TClass "UUID"); ("int", TClass "int"); ("bool", TClass "bool"); ("date", TClass "date"); ("datetime", TClass "datetime");
   ("dict[str, Any]", TDict [TClass "str"; TSpecial "Any"])]%Z.

(** [T], or [T | None = None] for a field that may be left out. *)
Definition declared (a : annotation) (optional : bool) : annotation := if optional then TUnion [a; TNoneType] else a.

(** What Pydantic keeps of an annotation: the base with its constraints, or the annotation. *)
Definition sample_field_info (a : annotation) : FieldInfo :=
  let '(base, meta) := split_annotated a in mkFieldInfo base meta.

Definition not_annotated (a : annotation) : bool := match a with TAnnotated _ _ => false | _ => true end.

(** Neither optional nor annotated twice. *)
Definition scalar (a : annotation) : bool :=
  match (split_annotated a).1 with TAnnotated _ _ | TUnion _ | TNoneType => false | _ => negb (is_none_type a) end.

Section Reflect.
Context (field_info : annotation -> FieldInfo).
Hypothesis field_annotated : forall base meta,
  fo_annotation (field_info (TAnnotated base meta)) = base /\
  forall attr, meta_int (fo_metadata (field_info (TAnnotated base meta))) attr = meta_int meta attr.
Hypothesis field_plain : forall a, not_annotated a = true -> field_info a = mkFieldInfo a [].

(** A field that may be left out has the signature of its type. *)
Lemma declared_signature a optional : scalar a = true ->
  type_signature (field_info (declared a optional)) = type_signature (mkFieldInfo a []).
Proof.
  intros Hs. destruct optional; cbn [declared].
  - rewrite field_plain by done. unfold type_signature. cbn. by destruct a.
  - destruct (not_annotated a) eqn:Ha; [by rewrite field_plain|].
    destruct a as [| | | | |base meta| |]; try done. destruct (field_annotated base meta) as [Hb Hm].
    unfold type_signature. rewrite Hb. cbn -[meta_int].
    destruct base; cbn -[meta_int] in *; try done; by rewrite app_nil_r, !Hm.
Qed.
End Reflect.

Lemma annotations_scalar n a : dict_get ANNOTATIONS n = Some a -> scalar a = true.
Proof.
  intros Ha%dict_get_Some_elem.
  assert (Forall (fun '(_, a) => scalar a = true) ANNOTATIONS) as HF by by repeat constructor.
  by apply Forall_forall with (x := (n, a)) in HF.
Qed.

(** No two names of a generated model share a signature. *)
Lemma annotations_distinct n m a b : dict_get ANNOTATIONS n = Some a -> dict_get ANNOTATIONS m = Some b ->
  type_signature (mkFieldInfo a []) = type_signature (mkFieldInfo b []) -> n = m.
Proof.
  intros Ha%dict_get_Some_elem Hb%dict_get_Some_elem.
  assert (NoDup (map (fun '(_, a) => type_signature (mkFieldInfo a [])) ANNOTATIONS)) as Hnd.
  { vm_compute. repeat (apply NoDup_cons; split; [rewrite ?elem_of_cons, elem_of_nil; intuition congruence|]). constructor. }
  apply list_elem_of_lookup in Ha as [i Hi]. apply list_elem_of_lookup in Hb as [j Hj]. intros Heq.
  assert (i = j) as ->. { eapply NoDup_lookup; [done| |]; rewrite list_lookup_fmap; [by rewrite Hi|by rewrite Hj, Heq]. }
  congruence.
Qed.

(** Every annotation the generator writes is one of them. *)
Definition named (r : Resolved) : bool := dict_mem ANNOTATIONS (re_annotation r).

Lemma numeric_alias_named k alias : NUMERIC_ALIASES k = Some alias -> dict_mem ANNOTATIONS alias = true.
Proof. unfold NUMERIC_ALIASES. intros H. repeat case_match; by simplify_eq. Qed.

Lemma str_alias_named n alias : STR_ALIASES n = Some alias -> dict_mem ANNOTATIONS alias = true.
Proof. unfold STR_ALIASES. intros H. repeat case_match; by simplify_eq. Qed.

Lemma enum_named v r : resolve_enum v = Ok r -> named r = true.
Proof.
  unfold resolve_enum. destruct v as [| | | |s| | | | |]; try done. destruct (dict_get ENUM_ALIASES s) as [alias|] eqn:Ha; [|done].
  intros [= <-]. apply dict_get_Some_elem in Ha. unfold ENUM_ALIASES in Ha. rewrite !elem_of_cons, elem_of_nil in Ha.
  by destruct Ha as [[= -> ->]|[[= -> ->]|[]]].
Qed.

Lemma shared_named (o : option string) e (sql : string) r : (forall alias, o = Some alias -> dict_mem ANNOTATIONS alias = true) ->
  match o with Some alias => shared_type alias sql | None => Err e end = Ok r -> named r = true.
Proof. intros Ho. destruct o as [alias|]; [|done]. intros [= <-]. by apply Ho. Qed.

Lemma decimal_named t r : resolve_decimal t = Ok r -> named r = true.
Proof.
  unfold resolve_decimal. destruct t as [t|]; [|done]. destruct (is_none _ || is_none _); [done|]. cbn [raise_if mbind].
  assert (forall p s (sql : string), match (k ← int_key p; l ← int_key s; NUMERIC_ALIASES (k, l)) with
            | Some alias => shared_type alias sql | None => Err ValueError end = Ok r -> named r = true) as Hk.
  { intros p s sql. apply shared_named. intros alias. destruct (int_key p); [|done]. destruct (int_key s); [|done]. apply numeric_alias_named. }
  specialize (Hk (ty_precision t) (ty_scale t) ("NUMERIC(" +:+ py_str (ty_precision t) +:+ ", " +:+ py_str (ty_scale t) +:+ ")")). revert Hk.
  destruct (ty_precision t), (ty_scale t); intros Hk Hr; first [discriminate Hr | exact (Hk Hr)].
Qed.

Lemma str_named t v r : resolve_str t v = Ok r -> named r = true.
Proof.
  unfold resolve_str. destruct (bool_decide _ && bool_decide _); [by intros [= <-]|].
  assert (forall m (sql : string), match int_key m ≫= STR_ALIASES with Some alias => shared_type alias sql | None => Err ValueError end = Ok r ->
            named r = true) as Hk.
  { intros m sql. apply shared_named. intros alias. destruct (int_key m); [apply str_alias_named|done]. }
  destruct (py_or _ _); first [done | apply Hk].
Qed.

Lemma resolve_named f s r : resolve f s = Ok r -> exists a, dict_get ANNOTATIONS (re_annotation r) = Some a.
Proof.
  intros Hr. enough (named r = true) as Hn. { unfold named, dict_mem in Hn. destruct (dict_get _ _) as [a|]; [by exists a|done]. }
  revert Hr. unfold resolve. destruct (negb _); [apply enum_named|]. destruct (effective_type f s) as [[base t] v].
  destruct (String.eqb base "decimal"); [apply decimal_named|]. destruct (String.eqb base "str"); [apply str_named|].
  repeat case_match; by intros [= <-].
Qed.

(** Two generated fields have one signature exactly when the generator wrote one annotation. *)
Lemma same_signature_iff field_info f s r f' s' r' :
  (forall base meta, fo_annotation (field_info (TAnnotated base meta)) = base /\
     forall attr, meta_int (fo_metadata (field_info (TAnnotated base meta))) attr = meta_int meta attr) ->
  (forall a, not_annotated a = true -> field_info a = mkFieldInfo a []) ->
  resolve f s = Ok r -> resolve f' s' = Ok r' ->
  exists a a', dict_get ANNOTATIONS (re_annotation r) = Some a /\ dict_get ANNOTATIONS (re_annotation r') = Some a' /\
    (type_signature (field_info (declared a (optional_rule f))) = type_signature (field_info (declared a' (optional_rule f'))) <->
     re_annotation r = re_annotation r').
Proof.
  intros H1 H2 [a Ha]%resolve_named [a' Ha']%resolve_named. exists a, a'. do 2 (split; [done|]).
  rewrite !(declared_signature field_info H1 H2) by (by eapply annotations_scalar). split.
  - by apply annotations_distinct.
  - intros Heq. rewrite Heq, Ha' in Ha. by injection Ha as <-.
Qed.

(** The laws of a field hold of [sample_field_info], and a field of an Optional union nests its digits one level down. *)
Lemma sample_field_laws :
  (forall base meta, fo_annotation (sample_field_info (TAnnotated base meta)) = base /\
     forall attr, meta_int (fo_metadata (sample_field_info (TAnnotated base meta))) attr = meta_int meta attr) /\
  (forall a, not_annotated a = true -> sample_field_info a = mkFieldInfo a []).
Proof. split; [done|]. by intros []. Qed.

Example optional_numeric_signature :
  type_signature (sample_field_info (declared (numeric_type 12 4) true)) = (MType (TClass "Decimal"), None, None, Some 12%Z, Some 4%Z).
Proof. reflexivity. Qed.
