(* ===== verification/AtlasStore.v ===== *)
(** AtlasStore: the drafts of the Atlas console (dis-ui-server [atlas/store.py]), over the table
    [atlas.schema_drafts] with its unique index and its trigger.

    Each operation of the durable store is one or more transactions on the table; a transaction is a
    function of the table.  The in-memory store keeps a dict. *)

From S2P Require Import Prelude Text Values Decimals UiErrors Rls Ir.

(** ** The table *)

Record DraftRow := mkDraftRow {
  dr_id : uuid;
  dr_vertical : string;
  dr_table_key : string;
  dr_status : string;
  dr_schema_version : Z;
  dr_ir : value;
  dr_created_at : Z;
  dr_updated_at : Z;
  dr_published_at : option Z
}.

Abbreviation drafts := (list DraftRow).

Definition undo_drafts (before _ : drafts) : drafts := before.

Definition DRAFT_STATUSES : list string := ["draft"; "published"; "superseded"].

Definition fits_int (z : Z) : bool := (- 2 ^ 31 <=? z)%Z && (z <? 2 ^ 31)%Z.

(** [uq_schema_drafts_published_version] *)
Definition same_version (a b : DraftRow) : bool :=
  String.eqb (dr_vertical a) (dr_vertical b) && String.eqb (dr_table_key a) (dr_table_key b) && (dr_schema_version a =? dr_schema_version b)%Z.

Definition row_published (r : DraftRow) : bool := String.eqb (dr_status r) "published".

(** A new row: the column widths, the vocabulary, the key, the index. *)
Definition insert_draft (r : DraftRow) (t : drafts) : ures drafts :=
  raise_if ((64 <? String.length (dr_vertical r))%nat || (128 <? String.length (dr_table_key r))%nat) (DatabaseError "22001") ≫= fun _ =>
  raise_if (negb (fits_int (dr_schema_version r))) (DatabaseError "22003") ≫= fun _ =>
  raise_if (negb (existsb (String.eqb (dr_status r)) DRAFT_STATUSES)) (DatabaseError "23514") ≫= fun _ =>
  raise_if (existsb (fun q => String.eqb (dr_id q) (dr_id r)) t) (DatabaseError "23505") ≫= fun _ =>
  raise_if (row_published r && existsb (fun q => row_published q && same_version q r) t) (DatabaseError "23505") ≫= fun _ =>
  Ok (t ++ [r]).

(** [UPDATE ... WHERE id = :id]: the trigger, then the index. *)
Definition update_draft (id : uuid) (set : DraftRow -> DraftRow) (t : drafts) : ures drafts :=
  raise_if (existsb (fun q => String.eqb (dr_id q) id && row_published q) t) (DatabaseError "P0001") ≫= fun _ =>
  raise_if (existsb (fun q => String.eqb (dr_id q) id && negb (fits_int (dr_schema_version (set q)))) t) (DatabaseError "22003") ≫= fun _ =>
  raise_if (existsb (fun q => String.eqb (dr_id q) id && row_published (set q) &&
                              existsb (fun p => negb (String.eqb (dr_id p) id) && row_published p && same_version p (set q)) t) t)
    (DatabaseError "23505") ≫= fun _ =>
  Ok (map (fun q => if String.eqb (dr_id q) id then set q else q) t).

Definition draft_not_found (draft_id : string) : ui_exn := ResourceNotFoundError "atlas_draft" draft_id.

Section Store.
(** What Postgres reads of a text as a [uuid]; other text is an error of the database. *)
Context (pg_uuid : string -> option uuid).

Definition with_id {A} (draft_id : string) (k : uuid -> ures A) : ures A :=
  match pg_uuid draft_id with Some id => k id | None => Err (DatabaseError "22P02") end.

(** ** Transactions *)

Definition select_ir (draft_id : string) (t : drafts) : ures (option value) :=
  with_id draft_id (fun id => Ok (dr_ir <$> List.find (fun r => String.eqb (dr_id r) id) t)).

Definition set_ir (ir : value) (now : Z) (r : DraftRow) : DraftRow :=
  mkDraftRow (dr_id r) (dr_vertical r) (dr_table_key r) (dr_status r) (dr_schema_version r) ir (dr_created_at r) now (dr_published_at r).

Definition set_published (version : Z) (ir : value) (now : Z) (r : DraftRow) : DraftRow :=
  mkDraftRow (dr_id r) (dr_vertical r) (dr_table_key r) "published" version ir (dr_created_at r) now (Some now).

Definition write_ir (draft_id : string) (draft : SchemaIR) (now : Z) (t : drafts) : ures drafts :=
  with_id draft_id (fun id => update_draft id (set_ir (schema_to_document draft) now) t).

Definition write_frozen (draft_id : string) (version : Z) (frozen : SchemaIR) (now : Z) (t : drafts) : ures drafts :=
  with_id draft_id (fun id => update_draft id (set_published version (schema_to_document frozen) now) t).

(** A session that reads, and one that writes. *)
Definition reads {A} (f : drafts -> ures A) : @action drafts A :=
  rls_platform_session undo_drafts None (fun _ t => (f t, t)).

Definition writes (f : drafts -> ures drafts) : @action drafts unit :=
  rls_platform_session undo_drafts None (fun _ t => match f t with Ok t' => (Ok tt, t') | Err e => (Err e, t) end).

(** ** The durable store *)

Definition first_table (s : SchemaIR) : ures TableIR :=
  match sc_tables s with t :: _ => Ok t | [] => Err (Lib (OtherError "IndexError")) end.

Definition draft_row (draft_id : uuid) (draft : SchemaIR) (table : TableIR) (now : Z) : DraftRow :=
  mkDraftRow draft_id (sc_vertical draft) (tb_key table) (sc_status draft) (sc_schema_version draft) (schema_to_document draft) now now None.

Definition create (fresh : uuid) (draft : SchemaIR) (now : Z) : @action drafts uuid :=
  table ← act (first_table draft);
  writes (insert_draft (draft_row fresh draft table now)) ≫= fun _ => mret fresh.

Definition get (draft_id : string) : @action drafts SchemaIR :=
  row ← reads (select_ir draft_id);
  match row with
  | None => act (Err (draft_not_found draft_id))
  | Some ir => act (ui (parse_ir ir))
  end.

(** The guards of an edit and of a freeze, on the stored draft. *)
Definition check_editable (draft_id : string) (current draft : SchemaIR) : ures unit :=
  raise_if (negb (String.eqb (sc_status current) "draft")) (DraftStateConflictError (Some draft_id) (Some "draft") (Some (sc_status current))) ≫= fun _ =>
  raise_if (negb (String.eqb (sc_status draft) "draft")) (DraftStateConflictError (Some draft_id) (Some "draft") (Some (sc_status draft))).

Definition check_freezable (draft_id : string) (current : SchemaIR) : ures unit :=
  raise_if (negb (String.eqb (sc_status current) "draft")) (DraftStateConflictError (Some draft_id) (Some "draft") (Some (sc_status current))) ≫= fun _ =>
  ui (assert_ratified_for_publish current).

Definition freeze_at (version : Z) (s : SchemaIR) : SchemaIR :=
  mkSchemaIR (sc_vertical s) version "published" (sc_system_profile s) (sc_types s) (sc_enums s) (sc_tables s).

Definition update (draft_id : string) (draft : SchemaIR) (now : Z) : @action drafts unit :=
  current ← get draft_id;
  act (check_editable draft_id current draft) ≫= fun _ =>
  writes (write_ir draft_id draft now).

Definition freeze (draft_id : string) (version : Z) (now : Z) : @action drafts SchemaIR :=
  current ← get draft_id;
  act (check_freezable draft_id current) ≫= fun _ =>
  writes (write_frozen draft_id version (freeze_at version current) now) ≫= fun _ =>
  mret (freeze_at version current).

Record DraftSummary := mkDraftSummary {
  ds_draft_id : string;
  ds_vertical : string;
  ds_table_key : string;
  ds_status : string;
  ds_schema_version : Z;
  ds_created_at : option Z;
  ds_updated_at : option Z;
  ds_published_at : option Z
}.

Definition summary_of (r : DraftRow) : DraftSummary :=
  mkDraftSummary (dr_id r) (dr_vertical r) (dr_table_key r) (dr_status r) (dr_schema_version r) (Some (dr_created_at r)) (Some (dr_updated_at r))
    (dr_published_at r).

Definition list_drafts : @action drafts (list DraftSummary) := reads (fun t => Ok (map summary_of t)).
End Store.

(** ** The in-memory store *)

Module InMemory.
Definition mem_store : Type := dict SchemaIR.

Definition mem_create (fresh : uuid) (draft : SchemaIR) (s : mem_store) : ures uuid * mem_store := (Ok fresh, dict_set s fresh draft).

Definition mem_get (draft_id : string) (s : mem_store) : ures SchemaIR :=
  match dict_get s draft_id with Some d => Ok d | None => Err (draft_not_found draft_id) end.

Definition mem_update (draft_id : string) (draft : SchemaIR) (s : mem_store) : ures unit * mem_store :=
  match (current ← mem_get draft_id s; check_editable draft_id current draft) with
  | Ok _ => (Ok tt, dict_set s draft_id draft)
  | Err e => (Err e, s)
  end.

Definition mem_freeze (draft_id : string) (version : Z) (s : mem_store) : ures SchemaIR * mem_store :=
  match (current ← mem_get draft_id s; check_freezable draft_id current ≫= fun _ => Ok (freeze_at version current)) with
  | Ok frozen => (Ok frozen, dict_set s draft_id frozen)
  | Err e => (Err e, s)
  end.

Definition mem_list_drafts (s : mem_store) : ures (list DraftSummary) :=
  map_res (fun '(draft_id, d) =>
    table ← first_table d;
    Ok (mkDraftSummary draft_id (sc_vertical d) (tb_key table) (sc_status d) (sc_schema_version d) None None None)) s.
End InMemory.

(** ** Edits *)

Record FieldEdit := mkFieldEdit {
  fe_name : string;
  fe_nullable : option bool;
  fe_mandatory : option bool;
  fe_pii : option string;
  fe_enum_candidate : option (list string);
  fe_origin : option string
}.

Record DraftPatch := mkDraftPatch { dp_natural_key : option (list string); dp_fields : list FieldEdit }.

(** [Literal["inferred", "human"]] *)
Definition draft_patch_ok (p : DraftPatch) : bool :=
  forallb (fun e => match fe_origin e with Some o => existsb (String.eqb o) ["inferred"; "human"] | None => true end) (dp_fields p).

Definition edit_field (e : FieldEdit) (f : FieldIR) : FieldIR :=
  mkFieldIR (fi_name f) (fi_produced_by f) (fi_type_ref f) (default (fi_nullable f) (fe_nullable e)) (fi_default f)
    (default (fi_mandatory f) (fe_mandatory e)) (fi_max_length f) (fi_inline_type f) (fi_enum_ref f) (from_option VStr (fi_origin f) (fe_origin e))
    (fi_display_name f) (fi_description f) (fi_section f) (from_option VStr (fi_pii f) (fe_pii e))
    (from_option (map VStr) (fi_enum_candidate f) (fe_enum_candidate e)) (fi_provenance f).

(** [{f.name: i for i, f in enumerate(fields)}[name]]: the last position of the name. *)
Fixpoint position_of (name : string) (fields : list FieldIR) : option nat :=
  match fields with
  | [] => None
  | f :: rest => match position_of name rest with
                 | Some i => Some (S i)
                 | None => if String.eqb (fi_name f) name then Some 0%nat else None
                 end
  end.

(** One edit; the positions are those of the stored fields, whose names no edit changes. *)
Definition apply_edit (draft_id : string) (stored : list FieldIR) (fields : list FieldIR) (e : FieldEdit) : ures (list FieldIR) :=
  match position_of (fe_name e) stored with
  | None => Err (ResourceNotFoundError "atlas_draft_field" (fe_name e))
  | Some i =>
      match fields !! i with
      | None => Err (Lib (OtherError "IndexError"))
      | Some f =>
          if bool_decide (fi_produced_by f = MAPPING_PRODUCED) then Ok (<[i := edit_field e f]> fields)
          else Err (DraftStateConflictError (Some draft_id) None None)
      end
  end.

Definition apply_patch (draft : SchemaIR) (patch : DraftPatch) (draft_id : string) : ures SchemaIR :=
  table ← first_table draft;
  fields ← fold_res (apply_edit draft_id (tb_fields table)) (tb_fields table) (dp_fields patch);
  let natural_key := default (tb_natural_key table) (dp_natural_key patch) in
  Ok (mkSchemaIR (sc_vertical draft) (sc_schema_version draft) (sc_status draft) (sc_system_profile draft) (sc_types draft) (sc_enums draft)
        [mkTableIR (tb_key table) (tb_template_type table) (tb_semantics table) (tb_sink table) natural_key fields]).
