(* ===== verification/Atlas.v ===== *)
(** Atlas: the console for drafting, ratifying and publishing a schema (dis-ui-server
    [handlers/atlas.py], [schemas/atlas.py]).

    Reading a CSV with polars, the language model and the audit sink are outside.  A request resolves
    the super-admin dependency, then its body, then runs. *)

From S2P Require Import Prelude Text Values Decimals UiErrors Access Rls Ir Profiler AtlasStore.

(** ** Wire shapes *)

Record AtlasFieldModel := mkAtlasField {
  af_name : string;
  af_produced_by : string;
  af_type_ref : string;
  af_nullable : bool;
  af_default : value;
  af_mandatory : bool;
  af_max_length : value;
  af_precision : value;
  af_scale : value;
  af_enum_ref : value;
  af_enum_candidate : list value;
  af_pii : value;
  af_origin : value;
  af_display_name : value;
  af_description : value;
  af_provenance : option FieldProvenance;
  af_curated_bearing : bool
}.

Record AtlasTableModel := mkAtlasTable {
  at_key : string;
  at_template_type : string;
  at_semantics : string;
  at_sink : string;
  at_natural_key : list string;
  at_fields : list AtlasFieldModel
}.

Record AtlasDraftResponse := mkAtlasDraft {
  ad_draft_id : string;
  ad_vertical : string;
  ad_status : string;
  ad_schema_version : Z;
  ad_system_profile : string;
  ad_table : AtlasTableModel
}.

Record PublishReceipt := mkReceipt {
  pr_draft_id : string;
  pr_vertical : string;
  pr_status : string;
  pr_schema_version : Z;
  pr_audit_emitted : bool
}.

Definition field_to_wire (table : TableIR) (f : FieldIR) : AtlasFieldModel :=
  mkAtlasField (fi_name f) (produced_by_text (fi_produced_by f)) (fi_type_ref f) (fi_nullable f) (fi_default f) (fi_mandatory f) (fi_max_length f)
    (from_option ty_precision VNone (fi_inline_type f)) (from_option ty_scale VNone (fi_inline_type f)) (fi_enum_ref f) (fi_enum_candidate f)
    (fi_pii f) (fi_origin f) (fi_display_name f) (fi_description f) (fi_provenance f) (is_curated_bearing f table).

Definition draft_to_wire (draft_id : string) (schema : SchemaIR) : ures AtlasDraftResponse :=
  table ← first_table schema;
  Ok (mkAtlasDraft draft_id (sc_vertical schema) (sc_status schema) (sc_schema_version schema) (sc_system_profile schema)
        (mkAtlasTable (tb_key table) (tb_template_type table) (tb_semantics table) (tb_sink table) (tb_natural_key table)
           (map (field_to_wire table) (tb_fields table)))).

(** ** Uploads *)

Definition ATLAS_MAX_UPLOAD_FILES : nat := 10.
Definition READ_CHUNK : nat := 64 * 1024.

(** What is left of an upload is read chunk by chunk; a chunk of no bytes is the end. *)
Fixpoint read_bounded_from (fuel : nat) (max_bytes total : Z) (rest : string) : ures string :=
  match fuel with
  | O => Ok ""
  | S n =>
      let chunk := String.substring 0 READ_CHUNK rest in
      if String.eqb chunk "" then Ok ""
      else
        let total' := (total + Z.of_nat (String.length chunk))%Z in
        raise_if (max_bytes <? total')%Z (PayloadTooLargeError max_bytes total') ≫= fun _ =>
        more ← read_bounded_from n max_bytes total' (String.substring READ_CHUNK (String.length rest - READ_CHUNK) rest);
        Ok (chunk +:+ more)
  end.

(** Each chunk takes a byte or more, so that one step per byte and one for the end are enough. *)
Definition read_bounded (upload : string) (max_bytes : Z) : ures string :=
  read_bounded_from (S (String.length upload)) max_bytes 0 upload.

(** ** Handlers *)

Class AtlasOutside := {
  pg_uuid : string -> option uuid;                  (* Postgres reading a uuid *)
  polars_read : string -> res csv_frame;            (* [pl.read_csv(path, infer_schema_length=0)] on these bytes *)
  audit_sink : option bool                          (* whether a publish sink is wired, and does not raise *)
}.

Section Handlers.
Context `{AuthOutside} `{ModelOutside} `{AtlasOutside} (max_file_bytes : Z).

(** The draft of some example files: profile, propose, assemble, check. *)
Definition draft_of (vertical : string) (table_key : option string) (files : list string) : ures SchemaIR :=
  raise_if (bool_decide (length files = 0)) (UploadRequestError (Some "files")) ≫= fun _ =>
  raise_if (ATLAS_MAX_UPLOAD_FILES <? length files)%nat (UploadRequestError (Some "files")) ≫= fun _ =>
  let resolved_table_key := match table_key with Some (String c k) => String c k | _ => vertical +:+ "_snapshot" end in
  contents ← map_res (fun f => read_bounded f max_file_bytes) files;
  frames ← ui (map_res polars_read contents);
  let profiled := profile_csvs frames in
  draft ← ui (assemble_draft_ir vertical resolved_table_key (columns_to_payload profiled) (proposals_to_payload (propose profiled)));
  ui (validate_fresh_draft draft) ≫= fun _ => Ok draft.

Definition create_draft (r : request) (vertical : string) (table_key : option string) (files : list string) (fresh : uuid) (now : Z)
    : @action drafts AtlasDraftResponse :=
  act (require_super_admin r) ≫= fun _ =>
  draft ← act (draft_of vertical table_key files);
  draft_id ← create fresh draft now;
  act (draft_to_wire draft_id draft).

Definition list_drafts_handler (r : request) (status : option string) : @action drafts (list DraftSummary) :=
  act (require_super_admin r) ≫= fun _ =>
  act (raise_if (match status with Some s => negb (existsb (String.eqb s) DRAFT_STATUSES) | None => false end) RequestValidationError) ≫= fun _ =>
  summaries ← list_drafts;
  mret (match status with Some s => filter (fun d => ds_status d = s) summaries | None => summaries end).

Definition get_draft (r : request) (draft_id : string) : @action drafts AtlasDraftResponse :=
  act (require_super_admin r) ≫= fun _ =>
  draft ← get pg_uuid draft_id;
  act (draft_to_wire draft_id draft).

Definition patch_draft (r : request) (draft_id : string) (patch : DraftPatch) (now : Z) : @action drafts AtlasDraftResponse :=
  act (require_super_admin r) ≫= fun _ =>
  act (raise_if (negb (draft_patch_ok patch)) RequestValidationError) ≫= fun _ =>
  draft ← get pg_uuid draft_id;
  updated ← act (apply_patch draft patch draft_id);
  update pg_uuid draft_id updated now ≫= fun _ =>
  act (draft_to_wire draft_id updated).

Definition check_publishable (draft : SchemaIR) : ures unit :=
  raise_if (negb (bool_decide (length (ratify_violations draft) = 0))) (DraftNotRatifiedError (ratify_violations draft)).

Definition publish_draft (r : request) (draft_id : string) (now : Z) : @action drafts PublishReceipt :=
  act (require_super_admin r) ≫= fun _ =>
  draft ← get pg_uuid draft_id;
  act (check_publishable draft) ≫= fun _ =>
  frozen ← freeze pg_uuid draft_id (sc_schema_version draft) now;
  mret (mkReceipt draft_id (sc_vertical frozen) (sc_status frozen) (sc_schema_version frozen) (default false audit_sink)).
End Handlers.

(** ** Overlapping requests

    A create is one transaction, a PATCH three (the handler reads, the store reads again, the store
    writes), a publish three (the handler reads and checks, the store reads and checks again, the store
    writes).  Between two transactions of a request any other request may run, and a request may end after
    any of them, by an error of the database or of the process. *)

(** What a request still has to do. *)
Inductive job : Type :=
| JCreate (fresh : uuid) (draft : SchemaIR)
| JPatch (draft_id : string) (patch : DraftPatch)
| JUpdate (draft_id : string) (updated : SchemaIR)
| JWrite (draft_id : string) (updated : SchemaIR)
| JPublish (draft_id : string)
| JFreeze (draft_id : string) (version : Z)
| JFrozen (draft_id : string) (version : Z) (frozen : SchemaIR).

Section Jobs.
Context `{AtlasOutside}.

(** A read of the stored draft. *)
Definition stored (draft_id : string) (t : drafts) : ures SchemaIR :=
  row ← select_ir pg_uuid draft_id t;
  match row with None => Err (draft_not_found draft_id) | Some ir => ui (parse_ir ir) end.

(** One transaction and the code up to the next: what is left to do, or how the request ends. *)
Definition run_job (now : Z) (j : job) (t : drafts) : ures (option job) * drafts :=
  match j with
  | JCreate fresh draft =>
      match (table ← first_table draft; insert_draft (draft_row fresh draft table now) t) with
      | Ok t' => (Ok None, t')
      | Err e => (Err e, t)
      end
  | JPatch draft_id patch => ((draft ← stored draft_id t; updated ← apply_patch draft patch draft_id; Ok (Some (JUpdate draft_id updated))), t)
  | JUpdate draft_id updated =>
      ((current ← stored draft_id t; check_editable draft_id current updated ≫= fun _ => Ok (Some (JWrite draft_id updated))), t)
  | JWrite draft_id updated => match write_ir pg_uuid draft_id updated now t with Ok t' => (Ok None, t') | Err e => (Err e, t) end
  | JPublish draft_id =>
      ((draft ← stored draft_id t; check_publishable draft ≫= fun _ => Ok (Some (JFreeze draft_id (sc_schema_version draft)))), t)
  | JFreeze draft_id version =>
      ((current ← stored draft_id t; check_freezable draft_id current ≫= fun _ => Ok (Some (JFrozen draft_id version (freeze_at version current)))), t)
  | JFrozen draft_id version frozen =>
      match write_frozen pg_uuid draft_id version frozen now t with Ok t' => (Ok None, t') | Err e => (Err e, t) end
  end.

Definition rest_of (r : ures (option job)) : list job := match r with Ok (Some j) => [j] | _ => [] end.

Record console := mkConsole { co_table : drafts; co_jobs : list job }.

(** A request arrives, takes a step, or is lost. *)
Inductive console_step : console -> console -> Prop :=
| Create_arrives (auth : AuthOutside) (model : ModelOutside) max r who vertical key files fresh draft t js :
    require_super_admin r = Ok who -> draft_of max vertical key files = Ok draft ->
    console_step (mkConsole t js) (mkConsole t (JCreate fresh draft :: js))
| Patch_arrives (auth : AuthOutside) r who draft_id patch t js :
    require_super_admin r = Ok who -> draft_patch_ok patch = true -> console_step (mkConsole t js) (mkConsole t (JPatch draft_id patch :: js))
| Publish_arrives (auth : AuthOutside) r who draft_id t js :
    require_super_admin r = Ok who -> console_step (mkConsole t js) (mkConsole t (JPublish draft_id :: js))
| Job_runs now js1 j js2 t r t' :
    run_job now j t = (r, t') -> console_step (mkConsole t (js1 ++ j :: js2)) (mkConsole t' (js1 ++ rest_of r ++ js2))
| Job_lost js1 j js2 t : console_step (mkConsole t (js1 ++ j :: js2)) (mkConsole t (js1 ++ js2)).

Definition empty_console : console := mkConsole [] [].

Definition console_reachable (c : console) : Prop := rtc console_step empty_console c.

(** ** A request alone *)

(** Jobs of one request, one after another. *)
Fixpoint run_alone (fuel : nat) (now : Z) (j : job) (t : drafts) : ures unit * drafts :=
  match fuel with
  | O => (Ok tt, t)
  | S n => match run_job now j t with
           | (Ok (Some j'), t') => run_alone n now j' t'
           | (Ok None, t') => (Ok tt, t')
           | (Err e, t') => (Err e, t')
           end
  end.
End Jobs.
