(* ===== verification/AtlasInvariant.v ===== *)
(** AtlasInvariant: the shape every draft has, from its assembly through edits and the freeze. *)

From S2P Require Import Prelude Text Values Decimals UiErrors Access Rls Ir Profiler Codegen AtlasStore Atlas.

(** ** Shapes *)

(** A type the profiler gives. *)
Inductive profiled_type : string -> value -> option TypeIR -> Prop :=
| PT_str cap : cap ∈ STR_CAPS -> profiled_type "str" (VInt cap) None
| PT_decimal p s : (p, s) ∈ NUMERIC_CAPS -> profiled_type "decimal" VNone (Some (mkTypeIR "decimal" (VInt p) (VInt s) VNone VNone))
| PT_other b : b ∈ ["int"; "date"; "datetime"; "bool"] -> profiled_type b VNone None.

Record business_ok (f : FieldIR) : Prop := {
  bo_produced : fi_produced_by f = MAPPING_PRODUCED;
  bo_type : profiled_type (fi_type_ref f) (fi_max_length f) (fi_inline_type f);
  bo_enum : fi_enum_ref f = VNone
}.

(** The system profile, then business fields. *)
Definition snapshot_table (key : string) (natural_key : list string) (business : list FieldIR) : TableIR :=
  mkTableIR key "snapshot" "merge_upsert" ("canonical." +:+ key) natural_key (SNAPSHOT_SYSTEM_PROFILE ++ business).

Definition snapshot_schema (vertical : string) (version : Z) (status key : string) (natural_key : list string) (business : list FieldIR) : SchemaIR :=
  mkSchemaIR vertical version status "dis.v1" [] [] [snapshot_table key natural_key business].

(** ** What the shape gives *)

Lemma str_cap_alias cap : cap ∈ STR_CAPS -> exists a, STR_ALIASES cap = Some a.
Proof. unfold STR_CAPS. rewrite !elem_of_cons, elem_of_nil. intros [->|[->|[->|[->|[]]]]]; by eexists. Qed.

Lemma numeric_cap_alias p s : (p, s) ∈ NUMERIC_CAPS -> exists a, NUMERIC_ALIASES (p, s) = Some a.
Proof.
  unfold NUMERIC_CAPS. rewrite !elem_of_cons, elem_of_nil.
  intros [[= -> ->]|[[= -> ->]|[[= -> ->]|[[= -> ->]|[[= -> ->]|[[= -> ->]|[[= -> ->]|[]]]]]]]]; by eexists.
Qed.

(** Each type the profiler gives has an alias or a column type. *)
Lemma business_resolves f vertical version status key nk fields : business_ok f ->
  exists r, resolve f (snapshot_schema vertical version status key nk fields) = Ok r.
Proof.
  intros [_ Ht He]. unfold resolve, effective_type. rewrite He. cbn [is_none negb snapshot_schema sc_types dict_get].
  destruct Ht as [cap Hcap|p s Hps|b Hb].
  - destruct (str_cap_alias cap Hcap) as [a Ha]. cbn -[STR_ALIASES]. unfold resolve_str, py_or.
    assert (truthy (VInt cap) = true) as Htr. { revert Hcap. unfold STR_CAPS. rewrite !elem_of_cons, elem_of_nil. by intros [->|[->|[->|[->|[]]]]]. }
    cbn -[STR_ALIASES]. rewrite Ha. by eexists.
  - destruct (numeric_cap_alias p s Hps) as [a Ha]. cbn -[NUMERIC_ALIASES]. rewrite Ha. by eexists.
  - revert Hb. rewrite !elem_of_cons, elem_of_nil. intros [->|[->|[->|[->|[]]]]]; by eexists.
Qed.

Lemma system_resolves f vertical version status key nk fields : f ∈ SNAPSHOT_SYSTEM_PROFILE ->
  exists r, resolve f (snapshot_schema vertical version status key nk fields) = Ok r.
Proof.
  unfold SNAPSHOT_SYSTEM_PROFILE. rewrite !elem_of_cons, elem_of_nil.
  intros [->|[->|[->|[->|[->|[->|[->|[->|[->|[]]]]]]]]]]; by eexists.
Qed.

(** The model and the DDL can be generated. *)
Lemma snapshot_generates vertical version status key nk business : Forall business_ok business ->
  let s := snapshot_schema vertical version status key nk business in
  let t := snapshot_table key nk business in
  (exists model, render_model t s = Ok model) /\ exists ddl, render_ddl t s = Ok ddl.
Proof.
  intros Hb s t. assert (forall f, f ∈ tb_fields t -> exists r, resolve f s = Ok r) as Hres.
  { intros f [Hf|Hf]%elem_of_app; [by apply system_resolves|]. apply business_resolves. by eapply Forall_forall in Hb. }
  split.
  - unfold render_model. destruct (map_res_total _ _ Hres) as [rs ->]. by eexists.
  - unfold render_ddl. destruct (map_res_total (fun f => r ← resolve f s; Ok (fi_name f, re_sql_type r, fi_nullable f, fi_default f)) (tb_fields t)) as [cs Hcs].
    { intros f Hf. destruct (Hres f Hf) as [r Hr]. rewrite Hr. by eexists. }
    rewrite Hcs. by eexists.
Qed.

(** The document keeps all of it. *)
Lemma snapshot_plain vertical version status key nk business : Forall business_ok business ->
  plain (snapshot_schema vertical version status key nk business).
Proof.
  intros Hb. constructor; [|constructor]. apply Forall_forall. intros f [Hf|Hf]%elem_of_app.
  - intros t Ht. revert Hf Ht. unfold SNAPSHOT_SYSTEM_PROFILE. rewrite !elem_of_cons, elem_of_nil.
    by intros [->|[->|[->|[->|[->|[->|[->|[->|[->|[]]]]]]]]]].
  - eapply Forall_forall in Hb as [_ Ht _]; [|exact Hf]. intros t Hin. rewrite Hin in Ht. by inversion Ht.
Qed.

Lemma snapshot_read vertical version status key nk business : Forall business_ok business ->
  parse_ir (schema_to_document (snapshot_schema vertical version status key nk business)) = Ok (snapshot_schema vertical version status key nk business).
Proof. intros Hb. rewrite document_read. f_equal. apply written_id. by apply snapshot_plain. Qed.

(** ** Edits keep the shape *)

Lemma edit_ok e f : business_ok f -> business_ok (edit_field e f).
Proof. by intros [Hp Ht He]. Qed.

Lemma system_not_mapped i f : SNAPSHOT_SYSTEM_PROFILE !! i = Some f -> fi_produced_by f <> MAPPING_PRODUCED.
Proof.
  intros Hi%list_elem_of_lookup_2. revert Hi. unfold SNAPSHOT_SYSTEM_PROFILE. rewrite !elem_of_cons, elem_of_nil.
  by intros [->|[->|[->|[->|[->|[->|[->|[->|[->|[]]]]]]]]]].
Qed.

(** An edit changes one business field, and no name. *)
Lemma edit_business draft_id stored business e fields :
  apply_edit draft_id stored (SNAPSHOT_SYSTEM_PROFILE ++ business) e = Ok fields ->
  exists i f, position_of (fe_name e) stored = Some (length SNAPSHOT_SYSTEM_PROFILE + i)%nat /\ business !! i = Some f /\
    fields = SNAPSHOT_SYSTEM_PROFILE ++ <[i := edit_field e f]> business.
Proof.
  unfold apply_edit. destruct (position_of (fe_name e) stored) as [j|]; [|done].
  destruct ((SNAPSHOT_SYSTEM_PROFILE ++ business) !! j) as [f|] eqn:Hf; [|done]. case_bool_decide as Hm; [|done].
  intros Heq. assert (fields = <[j := edit_field e f]> (SNAPSHOT_SYSTEM_PROFILE ++ business)) as -> by congruence. clear Heq.
  rewrite lookup_app in Hf. destruct (SNAPSHOT_SYSTEM_PROFILE !! j) as [g|] eqn:Hg.
  { injection Hf as ->. by destruct (system_not_mapped _ _ Hg). }
  apply lookup_ge_None in Hg. exists (j - length SNAPSHOT_SYSTEM_PROFILE)%nat, f. split_and!; [f_equal; lia|done|].
  by apply insert_app_r_alt.
Qed.

Lemma edit_shape draft_id stored business e fields :
  apply_edit draft_id stored (SNAPSHOT_SYSTEM_PROFILE ++ business) e = Ok fields -> Forall business_ok business ->
  exists business', fields = SNAPSHOT_SYSTEM_PROFILE ++ business' /\ Forall business_ok business' /\ map fi_name business' = map fi_name business.
Proof.
  intros (i & f & _ & Hf & ->)%edit_business Hb. exists (<[i := edit_field e f]> business). split_and!; [done| |].
  - apply Forall_insert; [done|]. apply edit_ok. by eapply Forall_lookup_1.
  - change (fi_name <$> <[i := edit_field e f]> business = fi_name <$> business). rewrite list_fmap_insert. apply list_insert_id.
    by rewrite list_lookup_fmap, Hf.
Qed.

Lemma edits_shape draft_id stored edits : forall business fields,
  fold_res (apply_edit draft_id stored) (SNAPSHOT_SYSTEM_PROFILE ++ business) edits = Ok fields -> Forall business_ok business ->
  exists business', fields = SNAPSHOT_SYSTEM_PROFILE ++ business' /\ Forall business_ok business' /\ map fi_name business' = map fi_name business.
Proof.
  induction edits as [|e edits IH]; intros business fields; cbn [fold_res]; [intros [= <-]; eauto|].
  intros (fs & He & Hrest)%bind_ok Hb. destruct (edit_shape _ _ _ _ _ He Hb) as (b1 & -> & Hb1 & Hn1).
  destruct (IH _ _ Hrest Hb1) as (b2 & -> & Hb2 & Hn2). exists b2. split_and!; [done..|congruence].
Qed.

Lemma patch_shape vertical version status key nk business patch draft_id s :
  apply_patch (snapshot_schema vertical version status key nk business) patch draft_id = Ok s -> Forall business_ok business ->
  exists nk' business', s = snapshot_schema vertical version status key nk' business' /\ Forall business_ok business' /\
    map fi_name business' = map fi_name business.
Proof.
  unfold apply_patch. cbn [first_table sc_tables snapshot_schema mbind result_bind]. intros (fields & Hf & Hs)%bind_ok Hb.
  destruct (edits_shape _ _ _ _ _ Hf Hb) as (b' & -> & Hb' & Hn). injection Hs as <-. by eexists _, b'.
Qed.

(** ** Assembly gives the shape *)

Definition profiled_ok (c : ProfiledColumn) : Prop :=
  match pf_base c with
  | TStr => exists cap, cap ∈ STR_CAPS /\ pf_max_length c = Some cap
  | TDecimal p s => (p, s) ∈ NUMERIC_CAPS
  | _ => True
  end.

Lemma find_elem {A} (p : A -> bool) l x : List.find p l = Some x -> x ∈ l.
Proof. intros [Hx _]%List.find_some. by apply list_elem_of_In. Qed.

Lemma str_capacity_cap n : bucket_str_capacity n ∈ STR_CAPS.
Proof.
  unfold bucket_str_capacity. destruct (List.find _ STR_CAPS) as [c|] eqn:Hf; [by apply find_elem in Hf|].
  apply (bool_decide_unpack _). vm_compute. exact I.
Qed.

Lemma decimal_capacity_cap p s : bucket_decimal_capacity p s ∈ NUMERIC_CAPS.
Proof.
  unfold bucket_decimal_capacity. destruct (List.find _ NUMERIC_CAPS) as [c|] eqn:Hf; [by apply find_elem in Hf|].
  apply (bool_decide_unpack _). vm_compute. exact I.
Qed.

Lemma inferred_capacity values p s : infer_base values = TDecimal p s -> (p, s) ∈ NUMERIC_CAPS.
Proof.
  unfold infer_base. destruct values as [|v values]; [done|]. repeat case_match; try done. intros [= <- <-].
  match goal with H : bucket_decimal_capacity _ _ = _ |- _ => rewrite <- H end. apply decimal_capacity_cap.
Qed.

Lemma profile_column_ok total name g : profiled_ok (profile_column total name g).
Proof.
  unfold profiled_ok, profile_column. cbn [pf_base pf_max_length]. destruct (infer_base (non_null (ga_cells g))) as [|p s| | | |] eqn:Hb; try done.
  - rewrite bool_decide_eq_true_2 by done. eexists. split; [apply str_capacity_cap|done].
  - by eapply inferred_capacity.
Qed.

(** The proposal of a column: none, or one of the model's. *)
Inductive some_proposal : value -> Prop :=
| SP_none : some_proposal (VDict [])
| SP_some p : some_proposal (proposal_payload p).

Lemma proposal_get p : some_proposal p -> exists canonical enums pii dn ds,
  get_or p "canonical_name" VNone = Ok (opt_text canonical) /\ get_or p "pii" VNone = Ok pii /\ get_or p "display_name" VNone = Ok dn /\
  get_or p "description" VNone = Ok ds /\
  get_or p "enum_values" VNone = Ok (match enums with Some l => VList (map VStr l) | None => VNone end).
Proof. intros [|[src cn ev pi dn ds]]; [by exists None, None, VNone, VNone, VNone|by exists cn, ev, (opt_text pi), (opt_text dn), (opt_text ds)]. Qed.

Lemma business_assembles c p : profiled_ok c -> some_proposal p ->
  exists f, business_field (column_payload c) p = Ok f /\ business_ok f /\ (fi_origin f = VStr "inferred" /\ fi_mandatory f = false).
Proof.
  intros Hc (cn & ev & pii & dn & ds & H1 & H2 & H3 & H4 & H5)%proposal_get.
  destruct c as [name base nl ml dv pr tot rows hd]. unfold profiled_ok in Hc. cbn [pf_base pf_max_length] in Hc.
  assert (exists t mx, (if String.eqb (base_text base) "decimal" then
              precision ← get_or (column_payload (mkProfiled name base nl ml dv pr tot rows hd)) "precision" VNone;
              scale ← get_or (column_payload (mkProfiled name base nl ml dv pr tot rows hd)) "scale" VNone;
              Ok (Some (mkTypeIR "decimal" precision scale VNone VNone)) else Ok None) = Ok t /\
            (if String.eqb (base_text base) "str" then get_or (column_payload (mkProfiled name base nl ml dv pr tot rows hd)) "max_length" VNone else Ok VNone) = Ok mx /\
            profiled_type (base_text base) mx t) as (t & mx & Ht & Hmx & Hty).
  { destruct base as [|p' s'| | | |]; cbn.
    - destruct Hc as (cap & Hcap & ->). eexists _, _. split_and!; [done..|]. by constructor.
    - eexists _, _. split_and!; [done..|]. by constructor.
    - eexists _, _. split_and!; [done..|]. constructor. apply (bool_decide_unpack _). exact I.
    - eexists _, _. split_and!; [done..|]. constructor. apply (bool_decide_unpack _). exact I.
    - eexists _, _. split_and!; [done..|]. constructor. apply (bool_decide_unpack _). exact I.
    - eexists _, _. split_and!; [done..|]. constructor. apply (bool_decide_unpack _). exact I. }
  set (col := column_payload (mkProfiled name base nl ml dv pr tot rows hd)) in *.
  assert (exists nm, (if truthy (opt_text cn) then Ok (opt_text cn) else get_item col "name") = Ok nm) as [nm Hnm]
    by (destruct (truthy (opt_text cn)); by eexists).
  assert (exists l, ((if truthy (match ev with Some l => VList (map VStr l) | None => VNone end) then Ok (match ev with Some l => VList (map VStr l) | None => VNone end)
            else distinct ← get_or col "distinct_values" VNone; Ok (py_or distinct (VList []))) ≫= py_iter) = Ok l) as [l Hl].
  { destruct ev as [[|x l]|], dv as [|y dv]; by eexists. }
  unfold business_field. change (get_item col "base") with (Ok (E := exn) (VStr (base_text base))). cbn [mbind result_bind py_str].
  rewrite Ht. cbn [mbind result_bind]. rewrite H1. cbn [mbind result_bind]. rewrite Hnm. cbn [mbind result_bind]. rewrite H5. cbn [mbind result_bind].
  rewrite Hl. cbn [mbind result_bind]. change (get_item col "nullable") with (Ok (E := exn) (VBool nl)). cbn [mbind result_bind].
  rewrite Hmx. cbn [mbind result_bind]. rewrite H2. cbn [mbind result_bind]. rewrite H3. cbn [mbind result_bind]. rewrite H4. cbn [mbind result_bind].
  eexists. split; [reflexivity|]. split; [split; done|done].
Qed.

(** The proposals by column are proposals of the model. *)
Lemma proposals_by_column ps : exists d, fold_res add_proposal [] (map proposal_payload ps) = Ok d /\
  forall k, some_proposal (default (VDict []) (dict_get d k)).
Proof.
  assert (forall d0, (forall k, some_proposal (default (VDict []) (dict_get d0 k))) ->
    exists d, fold_res add_proposal d0 (map proposal_payload ps) = Ok d /\ forall k, some_proposal (default (VDict []) (dict_get d k))) as Hg.
  { induction ps as [|p ps IH]; intros d0 H0; cbn [map fold_res]; [by exists d0|].
    change (add_proposal d0 (proposal_payload p)) with (Ok (E := exn) (dict_set d0 (cp_source_column p) (proposal_payload p))). cbn [mbind result_bind].
    apply IH. intros k. rewrite dict_get_set. case_match; [constructor|apply H0]. }
  apply Hg. intros k. constructor.
Qed.

(** A field nobody has decided on. *)
Definition undecided (f : FieldIR) : Prop := fi_origin f = VStr "inferred" /\ fi_mandatory f = false.

(** Whatever was uploaded and whatever the model answered, a draft of the shape comes out, and passes its check. *)
Lemma assembly_shape vertical key frames ps : exists business,
  assemble_draft_ir vertical key (columns_to_payload (profile_csvs frames)) (proposals_to_payload ps) =
    Ok (snapshot_schema vertical 1 "draft" key [] business) /\
  Forall business_ok business /\ Forall undecided business.
Proof.
  unfold assemble_draft_ir. change (get_or (proposals_to_payload ps) "proposals" (VList [])) with (Ok (E := exn) (VList (map proposal_payload ps))).
  change (get_or (columns_to_payload (profile_csvs frames)) "columns" (VList [])) with (Ok (E := exn) (VList (map column_payload (profile_csvs frames)))).
  cbn [mbind result_bind py_iter]. destruct (proposals_by_column ps) as (d & -> & Hd). cbn [mbind result_bind].
  assert (exists business, map_res (fun col => name ← get_item col "name"; business_field col (default (VDict []) (dict_get d (py_str name))))
      (map column_payload (profile_csvs frames)) = Ok business /\ Forall business_ok business /\ Forall undecided business)
    as (business & -> & Hb & Ho).
  { unfold profile_csvs. induction (gather frames) as [|[n g] l IH]; [by exists []|].
    destruct IH as (bs & Hbs & Hok & Hor). cbn [map map_res].
    destruct (business_assembles (profile_column (length frames) n g) (default (VDict []) (dict_get d n))) as (f & Hf & Hfo & Hfi);
      [apply profile_column_ok|apply Hd|].
    change (get_item (column_payload (profile_column (length frames) n g)) "name") with (Ok (E := exn) (VStr n)). cbn [mbind result_bind py_str].
    rewrite Hf, Hbs. exists (f :: bs). split_and!; [done|by constructor..]. }
  exists business. by split_and!.
Qed.

Lemma fresh_valid vertical key business : Forall business_ok business -> Forall undecided business ->
  validate_fresh_draft (snapshot_schema vertical 1 "draft" key [] business) = Ok tt.
Proof.
  intros Hb Ho. unfold validate_fresh_draft. cbn [snapshot_schema sc_tables flat_map snapshot_table tb_fields]. rewrite app_nil_r.
  destruct (map_res_total validate_field (SNAPSHOT_SYSTEM_PROFILE ++ business)) as [ys ->]; [|done].
  intros f [Hf|Hf]%elem_of_app.
  - revert Hf. unfold SNAPSHOT_SYSTEM_PROFILE. rewrite !elem_of_cons, elem_of_nil. intros [->|[->|[->|[->|[->|[->|[->|[->|[->|[]]]]]]]]]]; by eexists.
  - eapply Forall_forall in Hb as [Hp _ _]; [|exact Hf]. eapply Forall_forall in Ho as [Ho _]; [|exact Hf]. unfold validate_field. rewrite Ho, Hp. by eexists.
Qed.

(** ** The drafts and the requests under way *)

(** ** Rows *)

(** A row holds a schema of the shape under its own vertical, key and status; a published one is ratified. *)
Definition holds (r : DraftRow) (s : SchemaIR) : Prop :=
  exists nk business, s = snapshot_schema (dr_vertical r) 1 (dr_status r) (dr_table_key r) nk business /\ Forall business_ok business /\
    dr_ir r = schema_to_document s.

Record row_ok (r : DraftRow) : Prop := {
  ro_version : dr_schema_version r = 1%Z;
  ro_schema : exists s, holds r s /\ (dr_status r = "draft" \/ (dr_status r = "published" /\ ratify_violations s = []))
}.

Record store_ok (t : drafts) : Prop := {
  so_ids : NoDup (map dr_id t);
  so_rows : Forall row_ok t;
  so_unique : forall r q, r ∈ t -> q ∈ t -> row_published r = true -> row_published q = true ->
    dr_vertical r = dr_vertical q -> dr_table_key r = dr_table_key q -> r = q
}.

(** Rows stay, under their ids; a published row stays as it is. *)
Definition grows (t t' : drafts) : Prop :=
  forall r, r ∈ t -> exists r', r' ∈ t' /\ dr_id r' = dr_id r /\ dr_vertical r' = dr_vertical r /\ dr_table_key r' = dr_table_key r /\
    (row_published r = true -> r' = r).

Global Instance grows_refl : Reflexive grows.
Proof. intros t r Hr. by exists r. Qed.

Global Instance grows_trans : Transitive grows.
Proof.
  intros t1 t2 t3 H12 H23 r Hr. destruct (H12 r Hr) as (r2 & Hr2 & Hid & Hv & Hk & Hp). destruct (H23 r2 Hr2) as (r3 & Hr3 & Hid3 & Hv3 & Hk3 & Hp3).
  exists r3. split_and!; [done|congruence..|]. intros Hpub. specialize (Hp Hpub). subst r2. by apply Hp3.
Qed.

Lemma row_unique t r q : NoDup (map dr_id t) -> r ∈ t -> q ∈ t -> dr_id r = dr_id q -> r = q.
Proof.
  intros Hn [i Hi]%list_elem_of_lookup [j Hj]%list_elem_of_lookup He. assert (i = j) as ->; [|congruence].
  eapply (NoDup_lookup _ _ _ _ Hn); rewrite list_lookup_fmap; [by rewrite Hi|]. by rewrite Hj, He.
Qed.

Lemma existsb_false_elem {A} (p : A -> bool) l x : existsb p l = false -> x ∈ l -> p x = false.
Proof. intros He Hx. destruct (p x) eqn:Hp; [|done]. rewrite <- He. symmetry. apply existsb_exists. exists x. by split; [apply list_elem_of_In|]. Qed.

Lemma same_version_ok r q : row_ok r -> row_ok q -> dr_vertical r = dr_vertical q -> dr_table_key r = dr_table_key q -> same_version r q = true.
Proof. intros [Hr _] [Hq _] Hv Hk. unfold same_version. by rewrite Hr, Hq, Hv, Hk, !String.eqb_refl. Qed.

Lemma store_empty : store_ok [].
Proof. split; [constructor|constructor|]. intros r q Hr. by apply not_elem_of_nil in Hr. Qed.

(** ** Inserts *)

Lemma insert_draft_keeps vertical key business fresh now t t' : Forall business_ok business ->
  insert_draft (draft_row fresh (snapshot_schema vertical 1 "draft" key [] business) (snapshot_table key [] business) now) t = Ok t' ->
  store_ok t -> store_ok t' /\ grows t t'.
Proof.
  intros Hb Hi [Hn Hrows Hu]. unfold insert_draft in Hi. inv_ok.
  match goal with H : existsb (fun q => String.eqb (dr_id q) _) t = false |- _ => rename H into Hfresh end.
  set (new := draft_row _ _ _ _) in *. split; [split|].
  - rewrite map_app. apply NoDup_app. split_and!; [done| |apply NoDup_singleton].
    intros x (q & -> & Hq)%list_elem_of_fmap Hx. apply list_elem_of_singleton in Hx.
    pose proof (existsb_false_elem _ _ _ Hfresh Hq) as Hne. cbn beta in Hne. rewrite Hx, String.eqb_refl in Hne. done.
  - apply Forall_app. split; [done|]. constructor; [|constructor]. split; [done|]. exists (snapshot_schema vertical 1 "draft" key [] business).
    split; [by exists [], business|by left].
  - intros r q [Hr|Hr%list_elem_of_singleton]%elem_of_app [Hq|Hq%list_elem_of_singleton]%elem_of_app Hpr Hpq; subst; [by apply Hu|done..].
  - intros r Hr. exists r. split_and!; [apply elem_of_app; by left|done..].
Qed.

(** ** Updates *)

Lemma update_keeps id set t t' : update_draft id set t = Ok t' -> store_ok t ->
  (forall r, dr_id (set r) = dr_id r /\ dr_vertical (set r) = dr_vertical r /\ dr_table_key (set r) = dr_table_key r) ->
  (forall r, r ∈ t -> dr_id r = id -> row_published r = false -> row_ok (set r)) -> store_ok t' /\ grows t t'.
Proof.
  intros Hup [Hn Hrows Hu] Hset Hok. unfold update_draft in Hup. inv_ok.
  match goal with H : existsb (fun q => String.eqb (dr_id q) id && row_published q) t = false |- _ => rename H into Htrig end.
  match goal with H : existsb (fun q => _ && _ && existsb _ t) t = false |- _ => rename H into Hindex end.
  set (f := fun q => if String.eqb (dr_id q) id then set q else q).
  assert (forall q, q ∈ t -> dr_id q = id -> row_published q = false) as Hnot.
  { intros q Hq Hid. pose proof (existsb_false_elem _ _ _ Htrig Hq) as Hp. cbn beta in Hp. by rewrite Hid, String.eqb_refl in Hp. }
  assert (forall q, dr_id (f q) = dr_id q) as Hfid by (intros q; unfold f; case_match; [apply Hset|done]).
  assert (forall q, dr_vertical (f q) = dr_vertical q /\ dr_table_key (f q) = dr_table_key q) as Hfk by (intros q; unfold f; case_match; [split; apply Hset|done]).
  assert (forall q, q ∈ t -> row_ok (f q)) as Hfok.
  { intros q Hq. unfold f. destruct (String.eqb_spec (dr_id q) id); [apply Hok; auto|]. by eapply Forall_forall in Hrows. }
  split; [split|].
  - rewrite map_map. erewrite map_ext; [exact Hn|]. done.
  - apply Forall_forall. intros x (q & -> & Hq)%list_elem_of_fmap. by apply Hfok.
  - assert (forall q p, q ∈ t -> p ∈ t -> row_published (f q) = true -> row_published (f p) = true -> dr_vertical q = dr_vertical p ->
      dr_table_key q = dr_table_key p -> dr_id q = id -> dr_id p <> id -> False) as Hclash.
    { intros q p Hq Hp Hpq Hpp Hv Hk Hqid Hpid. pose proof (existsb_false_elem _ _ _ Hindex Hq) as Hc. cbn beta in Hc.
      assert (f q = set q) as Hfq by (unfold f; by rewrite Hqid, String.eqb_refl).
      assert (f p = p) as Hfp by (unfold f; by destruct (String.eqb_spec (dr_id p) id)).
      rewrite Hqid, String.eqb_refl, <- Hfq, Hpq in Hc. cbn [andb] in Hc.
      pose proof (existsb_false_elem _ _ _ Hc Hp) as Hd. cbn beta in Hd. rewrite Hfp in Hpp. rewrite Hpp in Hd.
      destruct (String.eqb_spec (dr_id p) id); [done|]. cbn [negb andb] in Hd.
      rewrite (same_version_ok p (f q)) in Hd; [done|by eapply Forall_forall in Hrows|by apply Hfok|..];
        [destruct (Hfk q) as [-> _]|destruct (Hfk q) as [_ ->]]; done. }
    intros r q (r0 & -> & Hr)%list_elem_of_fmap (q0 & -> & Hq)%list_elem_of_fmap Hpr Hpq.
    destruct (Hfk r0) as [-> ->], (Hfk q0) as [-> ->]. intros Hv Hk.
    destruct (decide (dr_id r0 = id)) as [Hrid|Hrid], (decide (dr_id q0 = id)) as [Hqid|Hqid].
    + f_equal. apply (row_unique t); [done..|congruence].
    + destruct (Hclash r0 q0); done.
    + destruct (Hclash q0 r0); done.
    + assert (forall x, dr_id x <> id -> f x = x) as Hsame by (intros x Hx; unfold f; by destruct (String.eqb_spec (dr_id x) id)).
      fold (f r0) (f q0) in *. rewrite (Hsame r0 Hrid) in *. rewrite (Hsame q0 Hqid) in *. by apply Hu.
  - intros r Hr. exists (f r). split_and!; [by apply list_elem_of_fmap_2|apply Hfid|apply Hfk|apply Hfk|].
    intros Hp. unfold f. destruct (String.eqb_spec (dr_id r) id) as [Hid|]; [|done]. by rewrite (Hnot r Hr Hid) in Hp.
Qed.

(** ** Requests under way *)

Section Reachable.
Context `{AtlasOutside}.

(** A schema that was read from the row of a draft, perhaps edited since. *)
Definition of_row (t : drafts) (draft_id : string) (status : string) (s : SchemaIR) : Prop :=
  exists r nk business, r ∈ t /\ pg_uuid draft_id = Some (dr_id r) /\ Forall business_ok business /\
    s = snapshot_schema (dr_vertical r) 1 status (dr_table_key r) nk business.

Definition job_ok (t : drafts) (j : job) : Prop :=
  match j with
  | JCreate _ d => exists vertical key business, d = snapshot_schema vertical 1 "draft" key [] business /\ Forall business_ok business
  | JPatch _ _ | JPublish _ => True
  | JUpdate draft_id u => exists status, of_row t draft_id status u
  | JWrite draft_id u => of_row t draft_id "draft" u
  | JFreeze _ version => version = 1%Z
  | JFrozen draft_id version s => version = 1%Z /\ of_row t draft_id "published" s /\ ratify_violations s = []
  end.

Lemma of_row_grows t t' draft_id status s : grows t t' -> of_row t draft_id status s -> of_row t' draft_id status s.
Proof.
  intros Hg (r & nk & b & Hr & Hid & Hb & ->). destruct (Hg r Hr) as (r' & Hr' & Hid' & <- & <- & _).
  exists r', nk, b. split_and!; [done|congruence|done|done].
Qed.

Lemma job_grows t t' j : grows t t' -> job_ok t j -> job_ok t' j.
Proof. intros Hg. destruct j; cbn; eauto using of_row_grows; [intros [st Hs]; eauto using of_row_grows|]. intros (-> & Hs & Hr). eauto using of_row_grows. Qed.

(** What a read finds. *)
Lemma stored_ok t draft_id s : store_ok t -> stored draft_id t = Ok s ->
  exists r, r ∈ t /\ pg_uuid draft_id = Some (dr_id r) /\ holds r s.
Proof.
  intros [Hn Hrows _] Hs. unfold stored, select_ir, with_id in Hs. destruct (pg_uuid draft_id) as [id|] eqn:Hid; [|done]. cbn [mbind result_bind] in Hs.
  destruct (List.find _ t) as [r|] eqn:Hf; [|done]. cbn [fmap option_fmap option_map] in Hs.
  apply List.find_some in Hf as [Hr He]. apply String.eqb_eq in He. apply list_elem_of_In in Hr. exists r. split_and!; [done|congruence|].
  eapply Forall_forall in Hrows as [_ (s' & Hh & _)]; [|exact Hr]. destruct Hh as (nk & b & -> & Hb & Hir).
  rewrite Hir, (snapshot_read _ _ _ _ _ _ Hb) in Hs. injection Hs as <-. by exists nk, b.
Qed.

Lemma stored_of_row t draft_id s : store_ok t -> stored draft_id t = Ok s -> of_row t draft_id (sc_status s) s /\ sc_schema_version s = 1%Z.
Proof.
  intros Hok Hs. destruct (stored_ok _ _ _ Hok Hs) as (r & Hr & Hid & nk & b & -> & Hb & _). split; [|done]. by exists r, nk, b.
Qed.

Lemma patched_of_row t draft_id status s patch u : of_row t draft_id status s -> apply_patch s patch draft_id = Ok u -> of_row t draft_id status u.
Proof.
  intros (r & nk & b & Hr & Hid & Hb & ->) Hp. destruct (patch_shape _ _ _ _ _ _ _ _ _ Hp Hb) as (nk' & b' & -> & Hb' & _). by exists r, nk', b'.
Qed.

Lemma frozen_of_row t draft_id status s : of_row t draft_id status s -> of_row t draft_id "published" (freeze_at 1 s).
Proof. intros (r & nk & b & Hr & Hid & Hb & ->). by exists r, nk, b. Qed.

(** A write keeps the table. *)
Lemma write_keeps t draft_id status s set t' id : of_row t draft_id status s -> pg_uuid draft_id = Some id ->
  update_draft id set t = Ok t' -> store_ok t ->
  (forall r, set r = mkDraftRow (dr_id r) (dr_vertical r) (dr_table_key r) (dr_status (set r)) (dr_schema_version (set r)) (schema_to_document s)
     (dr_created_at (set r)) (dr_updated_at (set r)) (dr_published_at (set r))) ->
  (forall r, r ∈ t -> row_published r = false -> dr_schema_version (set r) = 1%Z /\ dr_status (set r) = status) ->
  (status = "draft" \/ (status = "published" /\ ratify_violations s = [])) -> store_ok t' /\ grows t t'.
Proof.
  intros (q & nk & b & Hq & Hid & Hb & ->) Hpg Hup Hok Hset Hst Hrat. rewrite Hid in Hpg. injection Hpg as <-.
  apply (update_keeps _ _ _ _ Hup Hok); [intros r; rewrite (Hset r); done|].
  intros r Hr He Hp. destruct (Hst r Hr Hp) as [Hv Hs]. assert (r = q) as -> by (apply (row_unique t); [apply Hok|done..]).
  split; [done|]. exists (snapshot_schema (dr_vertical q) 1 status (dr_table_key q) nk b). rewrite (Hset q), Hs. split; [|by destruct Hrat; auto].
  exists nk, b. by rewrite (Hset q), Hs.
Qed.

Lemma unpublished_draft t r : store_ok t -> r ∈ t -> row_published r = false -> dr_status r = "draft" /\ dr_schema_version r = 1%Z.
Proof.
  intros [_ Hrows _] Hr Hp. rewrite Forall_forall in Hrows. destruct (Hrows r Hr) as [Hv (s & _ & [Hd|[Hpub _]])]; [done|].
  unfold row_published in Hp. by rewrite Hpub in Hp.
Qed.

Lemma no_violations s : assert_ratified_for_publish s = Ok tt -> ratify_violations s = [].
Proof. unfold assert_ratified_for_publish, raise_if. case_bool_decide as Hl; [|done]. intros _. by apply length_zero_iff_nil. Qed.

(** A transaction keeps the table, and leaves a request that is as it should be. *)
Lemma run_keeps now j t r t' : run_job now j t = (r, t') -> store_ok t -> job_ok t j ->
  store_ok t' /\ grows t t' /\ Forall (job_ok t') (rest_of r).
Proof.
  intros Hrun Hok Hj. destruct j as [fresh d|id p|id u|id u|id|id v|id v s]; cbn [run_job] in Hrun.
  - destruct Hj as (vert & key & b & -> & Hb). cbn [first_table snapshot_schema sc_tables mbind result_bind] in Hrun.
    destruct (insert_draft _ t) as [t1|e] eqn:Hi; injection Hrun as <- <-; [|done].
    destruct (insert_draft_keeps _ _ _ _ _ _ _ Hb Hi Hok). by split_and!.
  - injection Hrun as <- <-. split_and!; [done|done|]. destruct (stored id t) as [s|e] eqn:Hs; [|constructor]. cbn [mbind result_bind].
    destruct (apply_patch s p id) as [u|e] eqn:Hp; [|constructor]. cbn. constructor; [|constructor].
    destruct (stored_of_row _ _ _ Hok Hs) as [Hrow _]. exists (sc_status s). by eapply patched_of_row.
  - injection Hrun as <- <-. split_and!; [done|done|]. destruct (stored id t) as [s|e] eqn:Hs; [|constructor]. cbn [mbind result_bind].
    destruct (check_editable id s u) as [[]|e] eqn:Hc; [|constructor]. cbn. constructor; [|constructor]. cbn. destruct Hj as [st Hu].
    unfold check_editable in Hc. inv_ok. destruct Hu as (q & nk & b & Hq & Hid & Hb & ->).
    match goal with H : negb (_ =? "draft")%string = false |- _ => cbn in H end.
    repeat match goal with H : negb (String.eqb _ "draft") = false |- _ => apply negb_false_iff, String.eqb_eq in H end.
    exists q, nk, b. split_and!; [done..|]. f_equal. done.
  - unfold write_ir, with_id in Hrun. destruct (pg_uuid id) as [i|] eqn:Hid; [|injection Hrun as <- <-; done].
    destruct (update_draft i _ t) as [t1|e] eqn:Hup; injection Hrun as <- <-; [|done].
    destruct (write_keeps _ _ _ _ _ _ _ Hj Hid Hup Hok) as [Hok' Hg]; [done| |by left|by split_and!].
    intros r Hr Hp. by destruct (unpublished_draft _ _ Hok Hr Hp).
  - injection Hrun as <- <-. split_and!; [done|done|]. destruct (stored id t) as [s|e] eqn:Hs; [|constructor]. cbn [mbind result_bind].
    destruct (check_publishable s) as [[]|e]; [|constructor]. cbn. constructor; [|constructor]. by destruct (stored_of_row _ _ _ Hok Hs).
  - injection Hrun as <- <-. split_and!; [done|done|]. destruct (stored id t) as [s|e] eqn:Hs; [|constructor]. cbn [mbind result_bind].
    destruct (check_freezable id s) as [[]|e] eqn:Hc; [|constructor]. cbn. constructor; [|constructor]. cbn in Hj. subst v. cbn. split_and!; [done| |].
    + destruct (stored_of_row _ _ _ Hok Hs) as [Hrow _]. by eapply frozen_of_row.
    + assert (ratify_violations s = []) as Hrat; [|exact Hrat]. apply no_violations. unfold check_freezable in Hc. inv_ok.
      unfold ui in Hc. by destruct (assert_ratified_for_publish s) as [[]|].
  - destruct Hj as (-> & Hs & Hrat). unfold write_frozen, with_id in Hrun. destruct (pg_uuid id) as [i|] eqn:Hid; [|injection Hrun as <- <-; done].
    destruct (update_draft i _ t) as [t1|e] eqn:Hup; injection Hrun as <- <-; [|done].
    destruct (write_keeps _ _ _ _ _ _ _ Hs Hid Hup Hok) as [Hok' Hg]; [done|done|by right|by split_and!].
Qed.

Definition console_ok (c : console) : Prop := store_ok (co_table c) /\ Forall (job_ok (co_table c)) (co_jobs c).

Lemma draft_of_shape `{ModelOutside} max vertical key files d : draft_of max vertical key files = Ok d ->
  exists vertical' key' business, d = snapshot_schema vertical' 1 "draft" key' [] business /\ Forall business_ok business.
Proof.
  unfold draft_of. intros Hd. inv_ok.
  match goal with H : ui (assemble_draft_ir ?v ?k (columns_to_payload (profile_csvs ?fr)) (proposals_to_payload ?ps)) = Ok _ |- _ =>
    destruct (assembly_shape v k fr ps) as (b & Hb & Hok & _); rewrite Hb in H; injection H as <- end. eauto.
Qed.

Lemma console_step_keeps c c' : console_step c c' -> console_ok c -> console_ok c' /\ grows (co_table c) (co_table c').
Proof.
  intros Hstep [Ht Hj]. destruct Hstep as [auth model max r who vert key files fresh d t js _ Hd|auth r who id p t js _ _|auth r who id t js _
    |now js1 j js2 t r t' Hrun|js1 j js2 t]; cbn [co_table co_jobs] in *.
  - split; [|done]. split; [done|]. constructor; [|done]. by apply draft_of_shape in Hd.
  - split; [|done]. split; [done|]. by constructor.
  - split; [|done]. split; [done|]. by constructor.
  - apply Forall_app in Hj as [Hj1 Hj2]. apply Forall_cons in Hj2 as [Hj0 Hj2]. destruct (run_keeps _ _ _ _ _ Hrun Ht Hj0) as (Ht' & Hg & Hr).
    split; [|done]. split; [done|]. cbn [co_table co_jobs]. rewrite !Forall_app. split_and!; [eapply Forall_impl; [exact Hj1|]; intros j'; by apply job_grows|done|].
    eapply Forall_impl; [exact Hj2|]. intros j'. by apply job_grows.
  - split; [|done]. split; [done|]. apply Forall_app in Hj as [Hj1 Hj2]. apply Forall_cons in Hj2 as [_ Hj2]. by apply Forall_app.
Qed.

Lemma steps_keep c c' : rtc console_step c c' -> console_ok c -> console_ok c' /\ grows (co_table c) (co_table c').
Proof.
  induction 1 as [c|c1 c2 c3 H12 _ IH]; intros Hok; [done|]. destruct (console_step_keeps _ _ H12 Hok) as [Hok2 Hg12].
  destruct (IH Hok2) as [Hok3 Hg23]. split; [done|]. by trans (co_table c2).
Qed.

Lemma console_reachable_ok c : console_reachable c -> console_ok c.
Proof. intros Hr. apply (steps_keep _ _ Hr). split; [apply store_empty|constructor]. Qed.
End Reachable.
