(* ===== verification/AtlasTheorems.v ===== *)
(** AtlasTheorems: what a published schema is, and which drafts can be published. *)

From S2P Require Import Prelude Text Values Decimals UiErrors Access Rls Ir Profiler Codegen AtlasStore AtlasInvariant Atlas.

(** ** Ratification *)

Lemma is_text_eq s v : is_text s v = true <-> v = VStr s.
Proof. destruct v; cbn; try done. rewrite String.eqb_eq. naive_solver. Qed.

Lemma flat_map_nil {A B} (f : A -> list B) l : flat_map f l = [] <-> forall x, x ∈ l -> f x = [].
Proof.
  induction l as [|x l IH]; cbn; [split; [|done]; intros _ x Hx; by apply not_elem_of_nil in Hx|]. split.
  - intros [Hx Hl]%app_nil. intros y [->|Hy]%elem_of_cons; [done|]. by apply IH.
  - intros Hall. rewrite (Hall x) by left. cbn. apply IH. intros y Hy. apply Hall. by right.
Qed.

(** No violations: the natural key is set, and every field that bears a curated attribute was decided by a human. *)
Lemma ratified_iff vertical version status key nk business :
  ratify_violations (snapshot_schema vertical version status key nk business) = [] <->
  nk <> [] /\ forall f, f ∈ SNAPSHOT_SYSTEM_PROFILE ++ business -> is_curated_bearing f (snapshot_table key nk business) = true -> fi_origin f = VStr "human".
Proof.
  unfold ratify_violations. cbn [snapshot_schema sc_tables flat_map]. rewrite app_nil_r. unfold table_violations.
  assert (forall f, field_violations (snapshot_table key nk business) f = [] <->
    (is_curated_bearing f (snapshot_table key nk business) = true -> fi_origin f = VStr "human")) as Hf.
  { intros f. unfold field_violations. destruct (is_curated_bearing _ _); cbn [andb]; [|done].
    destruct (is_text "human" (fi_origin f)) eqn:Ht; cbn [negb]; rewrite <- is_text_eq, Ht; [done|]. split; [done|]. intros Hx. by specialize (Hx eq_refl). }
  rewrite app_nil, flat_map_nil. cbn [snapshot_table tb_semantics tb_natural_key tb_fields String.eqb Ascii.eqb Bool.eqb andb].
  setoid_rewrite Hf. case_bool_decide as Hl; destruct nk as [|k nk]; try done; naive_solver.
Qed.

(** ** Positions *)

Lemma position_of_spec n fields i : position_of n fields = Some i <->
  (exists f, fields !! i = Some f /\ fi_name f = n) /\ forall j g, (i < j)%nat -> fields !! j = Some g -> fi_name g <> n.
Proof.
  revert i. induction fields as [|f fields IH]; intros i; cbn [position_of]; [split; [done|]; by intros [(f & Hf & _) _]|].
  destruct (position_of n fields) as [k|] eqn:Hk.
  - destruct (proj1 (IH k) eq_refl) as [(g & Hg & Hgn) Hlast]. split.
    + intros [= <-]. split; [by exists g|]. intros [|j] g' Hj Hg'; [lia|]. cbn in Hg'. apply (Hlast j); [lia|done].
    + intros [(h & Hh & Hhn) Hl]. destruct i as [|i].
      * by destruct (Hl (S k) g ltac:(lia) Hg).
      * assert (Some k = Some i) as [= ->]; [|done]. apply IH. split; [by exists h|]. intros j g' Hj Hg'. apply (Hl (S j)); [lia|done].
  - assert (forall j g, fields !! j = Some g -> fi_name g <> n) as Hnone.
    { clear -Hk. induction fields as [|f fields IH]; intros j g Hj; [done|]. cbn in Hk. destruct (position_of n fields); [done|].
      destruct (String.eqb_spec (fi_name f) n); [done|]. destruct j as [|j]; [by injection Hj as <-|]. by apply (IH eq_refl j). }
    destruct (String.eqb_spec (fi_name f) n) as [Hn|Hn]; split.
    + intros [= <-]. split; [by exists f|]. intros [|j] g Hj Hg; [lia|]. by apply (Hnone j).
    + intros [(h & Hh & Hhn) _]. destruct i as [|i]; [done|]. by destruct (Hnone i h Hh).
    + done.
    + intros [(h & Hh & Hhn) _]. destruct i as [|i]; [injection Hh as ->; done|]. by destruct (Hnone i h Hh).
Qed.

(** The position depends on the names only. *)
Lemma position_of_names n l : forall l', map fi_name l = map fi_name l' -> position_of n l = position_of n l'.
Proof. induction l as [|f l IH]; intros [|f' l'] Hn; [done..|]. injection Hn as Hf Hl. cbn. by rewrite (IH l' Hl), Hf. Qed.

Lemma position_of_some n l : n ∈ map fi_name l -> exists i, position_of n l = Some i.
Proof.
  induction l as [|f l IH]; cbn; [by intros ?%not_elem_of_nil|]. intros [->|Hn]%elem_of_cons.
  - destruct (position_of (fi_name f) l); [by eexists|]. rewrite String.eqb_refl. by eexists.
  - destruct (IH Hn) as [i ->]. by eexists.
Qed.

Definition named_again (business : list FieldIR) (i : nat) (f : FieldIR) : Prop :=
  exists j g, (i < j)%nat /\ business !! j = Some g /\ fi_name g = fi_name f.

(** A name that comes again in the business fields is not edited at its first place. *)
Lemma position_not_shadowed n business i f : position_of n (SNAPSHOT_SYSTEM_PROFILE ++ business) = Some (length SNAPSHOT_SYSTEM_PROFILE + i)%nat ->
  business !! i = Some f -> fi_name f = n /\ ~ named_again business i f.
Proof.
  intros [(h & Hh & Hn) Hlast]%position_of_spec Hf. rewrite lookup_app_r in Hh by lia.
  replace (length SNAPSHOT_SYSTEM_PROFILE + i - length SNAPSHOT_SYSTEM_PROFILE)%nat with i in Hh by lia. assert (h = f) as -> by congruence.
  split; [done|]. intros (j & g & Hj & Hg & He). apply (Hlast (length SNAPSHOT_SYSTEM_PROFILE + j)%nat g); [lia| |congruence].
  rewrite lookup_app_r by lia. by replace (length SNAPSHOT_SYSTEM_PROFILE + j - length SNAPSHOT_SYSTEM_PROFILE)%nat with j by lia.
Qed.

Lemma position_of_last business i f : business !! i = Some f -> ~ named_again business i f ->
  position_of (fi_name f) (SNAPSHOT_SYSTEM_PROFILE ++ business) = Some (length SNAPSHOT_SYSTEM_PROFILE + i)%nat.
Proof.
  intros Hf Hlast. apply position_of_spec. split.
  - exists f. split; [|done]. rewrite lookup_app_r by lia. by replace (length SNAPSHOT_SYSTEM_PROFILE + i - length SNAPSHOT_SYSTEM_PROFILE)%nat with i by lia.
  - intros j g Hj Hg He. rewrite lookup_app_r in Hg by lia. apply Hlast. exists (j - length SNAPSHOT_SYSTEM_PROFILE)%nat, g. split_and!; [lia|done|done].
Qed.

(** ** Which drafts can be ratified *)

(** Fields that no edit reaches stay as the assembly made them. *)
Definition keeps_shadowed (from business : list FieldIR) : Prop :=
  map fi_name business = map fi_name from /\ forall i f, from !! i = Some f -> named_again from i f -> business !! i = Some f.

Lemma edits_keep_shadowed draft_id from stored edits : map fi_name stored = map fi_name from -> forall business fields,
  fold_res (apply_edit draft_id (SNAPSHOT_SYSTEM_PROFILE ++ stored)) (SNAPSHOT_SYSTEM_PROFILE ++ business) edits = Ok fields ->
  keeps_shadowed from business -> exists business', fields = SNAPSHOT_SYSTEM_PROFILE ++ business' /\ keeps_shadowed from business'.
Proof.
  intros Hstored. induction edits as [|e edits IH]; intros business fields; cbn [fold_res].
  { intros Heq Hk. exists business. split; [congruence|done]. }
  intros (fs & He & Hrest)%bind_ok [Hn Hk]. apply edit_business in He as (i & f & Hpos & Hf & ->). apply (IH _ _ Hrest). split.
  - rewrite <- Hn. change (fi_name <$> <[i := edit_field e f]> business = fi_name <$> business). rewrite list_fmap_insert. apply list_insert_id.
    by rewrite list_lookup_fmap, Hf.
  - intros j g Hg Hagain. destruct (decide (i = j)) as [->|Hij]; [|by rewrite list_lookup_insert_ne; auto].
    assert (f = g) as -> by (rewrite (Hk j g Hg Hagain) in Hf; congruence).
    rewrite (position_of_names _ _ (SNAPSHOT_SYSTEM_PROFILE ++ from)) in Hpos by (rewrite !map_app; by f_equal).
    by destruct (position_not_shadowed _ _ _ _ Hpos Hg).
Qed.

Definition apply_patches (draft_id : string) (draft : SchemaIR) (patches : list DraftPatch) : ures SchemaIR :=
  fold_res (fun d p => apply_patch d p draft_id) draft patches.

Lemma patches_keep_shadowed draft_id vertical version status key from patches : forall nk business s,
  apply_patches draft_id (snapshot_schema vertical version status key nk business) patches = Ok s -> keeps_shadowed from business ->
  exists nk' business', s = snapshot_schema vertical version status key nk' business' /\ keeps_shadowed from business'.
Proof.
  induction patches as [|p patches IH]; intros nk business s; [intros [= <-]; by exists nk, business|].
  unfold apply_patches. cbn [fold_res]. intros (d & Hd & Hrest)%bind_ok Hk. unfold apply_patch in Hd.
  cbn [first_table sc_tables snapshot_schema mbind result_bind] in Hd. apply bind_ok in Hd as (fields & Hf & Hd).
  destruct (edits_keep_shadowed _ from business _ (proj1 Hk) _ _ Hf Hk) as (b' & -> & Hk').
  apply (IH (default nk (dp_natural_key p)) b'); [|done]. revert Hrest. injection Hd as <-. done.
Qed.

(** One edit per name that takes the field over as it is. *)
Definition ratify_edit (name : string) : FieldEdit := mkFieldEdit name None None None None (Some "human").

Definition ratify_patch (natural_key : string) (business : list FieldIR) : DraftPatch :=
  mkDraftPatch (Some [natural_key]) (map ratify_edit (map fi_name business)).

(** A field after such edits: all but its origin as it was, and the origin human where an edit reached it. *)
Record same_but_origin (f f' : FieldIR) : Prop := {
  sb_name : fi_name f' = fi_name f;
  sb_mandatory : fi_mandatory f' = fi_mandatory f;
  sb_pii : fi_pii f' = fi_pii f;
  sb_enum : fi_enum_candidate f' = fi_enum_candidate f
}.

Definition ratified_by (names : list string) (from business : list FieldIR) : Prop :=
  length business = length from /\ forall i f f', from !! i = Some f -> business !! i = Some f' ->
    same_but_origin f f' /\ (fi_name f ∈ names -> ~ named_again from i f -> fi_origin f' = VStr "human").

Lemma ratify_edits draft_id from names : (forall n, n ∈ names -> n ∈ map fi_name from) -> forall done business,
  ratified_by done from business -> Forall business_ok business ->
  exists business', fold_res (apply_edit draft_id (SNAPSHOT_SYSTEM_PROFILE ++ from)) (SNAPSHOT_SYSTEM_PROFILE ++ business) (map ratify_edit names) =
    Ok (SNAPSHOT_SYSTEM_PROFILE ++ business') /\ ratified_by (done ++ names) from business'.
Proof.
  induction names as [|n names IH]; intros Hin don business [Hlen Hr] Hb; cbn [map fold_res]; [exists business; by rewrite app_nil_r|].
  assert (n ∈ map fi_name from) as Hn by (apply Hin; left). apply list_elem_of_fmap in Hn as (f0 & -> & Hf0).
  destruct (position_of_some (fi_name f0) from) as [i Hi]; [by apply list_elem_of_fmap_2|].
  apply position_of_spec in Hi as [(f & Hf & Hfn) Hlast].
  assert (~ named_again from i f) as Hna by (intros (j & g & Hj & Hg & He); apply (Hlast j g Hj Hg); congruence).
  destruct (lookup_lt_is_Some_2 business i) as [f' Hf']; [rewrite Hlen; by eapply lookup_lt_Some|].
  assert (business_ok f') as Hok by (by eapply Forall_lookup_1).
  assert (apply_edit draft_id (SNAPSHOT_SYSTEM_PROFILE ++ from) (SNAPSHOT_SYSTEM_PROFILE ++ business) (ratify_edit (fi_name f0)) =
    Ok (SNAPSHOT_SYSTEM_PROFILE ++ <[i := edit_field (ratify_edit (fi_name f0)) f']> business)) as ->.
  { unfold apply_edit. cbn [ratify_edit fe_name]. rewrite <- Hfn, (position_of_last from i f Hf Hna), lookup_app_r by lia.
    replace (length SNAPSHOT_SYSTEM_PROFILE + i - length SNAPSHOT_SYSTEM_PROFILE)%nat with i by lia. rewrite Hf'.
    rewrite bool_decide_eq_true_2 by apply Hok. by rewrite insert_app_r. }
  cbn [mbind result_bind]. rewrite cons_middle, (app_assoc don). apply IH; [intros n Hn; apply Hin; by right| |by apply Forall_insert; [|apply edit_ok]].
  split; [by rewrite length_insert|]. intros j g g' Hg Hg'. destruct (decide (i = j)) as [->|Hij].
  - rewrite list_lookup_insert_eq in Hg' by (by eapply lookup_lt_Some). assert (g' = edit_field (ratify_edit (fi_name f0)) f') as -> by congruence.
    assert (g = f) as -> by congruence. destruct (Hr j f f' Hf Hf') as [[? ? ? ?] _]. done.
  - rewrite list_lookup_insert_ne in Hg' by done. destruct (Hr j g g' Hg Hg') as [Hs Ho]. split; [done|].
    intros [Hd|Hd%list_elem_of_singleton]%elem_of_app Hng; [by apply Ho|].
    exfalso. destruct (Nat.lt_total i j) as [Hlt|[->|Hlt]]; [|done|].
    + apply (Hlast j g Hlt Hg Hd).
    + apply Hng. exists i, f. split_and!; [done..|congruence].
Qed.

(** What a field bears of its own, whatever the natural key. *)
Lemma bearing_own f key nk business : is_curated_bearing f (snapshot_table key [] business) = true ->
  is_curated_bearing f (snapshot_table key nk business) = true.
Proof. unfold is_curated_bearing. cbn [snapshot_table tb_natural_key existsb orb]. rewrite <- !orb_assoc. intros ->. by rewrite orb_true_r. Qed.

Lemma bearing_same f f' k key business business' : same_but_origin f f' -> fi_name f <> k ->
  is_curated_bearing f' (snapshot_table key [k] business') = true -> is_curated_bearing f (snapshot_table key [] business) = true.
Proof.
  intros [Hn Hm Hp He] Hk. unfold is_curated_bearing. cbn [snapshot_table tb_natural_key existsb orb]. rewrite Hn, Hm, Hp, He.
  by destruct (String.eqb_spec (fi_name f) k).
Qed.

Lemma ratified_by_nil business : ratified_by [] business business.
Proof. split; [done|]. intros i f f' Hf Hf'. assert (f' = f) as -> by congruence. split; [done|]. by intros ?%not_elem_of_nil. Qed.

Lemma system_human f : f ∈ SNAPSHOT_SYSTEM_PROFILE -> fi_origin f = VStr "human".
Proof.
  unfold SNAPSHOT_SYSTEM_PROFILE. rewrite !elem_of_cons, elem_of_nil. by intros [->|[->|[->|[->|[->|[->|[->|[->|[->|[]]]]]]]]]].
Qed.

(** Every field that needs a decision can be reached by an edit. *)
Definition decisions_reachable (key : string) (business : list FieldIR) : Prop :=
  forall i f, business !! i = Some f -> is_curated_bearing f (snapshot_table key [] business) = true -> ~ named_again business i f.

Lemma reachable_ratifies draft_id vertical version status key business :
  Forall business_ok business -> decisions_reachable key business ->
  exists patch s, draft_patch_ok patch = true /\ apply_patch (snapshot_schema vertical version status key [] business) patch draft_id = Ok s /\
    ratify_violations s = [].
Proof.
  intros Hb Hdec. set (k := fresh (map fi_name business)).
  assert (k ∉ map fi_name business) as Hk by apply infinite_is_fresh.
  destruct (ratify_edits draft_id business (map fi_name business) (fun n Hn => Hn) [] business (ratified_by_nil _) Hb) as (b' & Hfold & Hlen & Hr).
  exists (ratify_patch k business), (snapshot_schema vertical version status key [k] b'). split_and!.
  - unfold draft_patch_ok, ratify_patch. cbn [dp_fields]. apply forallb_forall. intros e (n & <- & _)%in_map_iff. done.
  - unfold apply_patch. cbn [first_table sc_tables snapshot_schema mbind result_bind snapshot_table tb_fields ratify_patch dp_fields].
    rewrite Hfold. done.
  - apply ratified_iff. split; [done|]. intros f' [Hf'|Hf']%elem_of_app Hbear; [by apply system_human|].
    apply list_elem_of_lookup in Hf' as [i Hi]. destruct (lookup_lt_is_Some_2 business i) as [f Hf]; [rewrite <- Hlen; by eapply lookup_lt_Some|].
    assert (fi_name f ∈ map fi_name business) as Hn by (apply list_elem_of_fmap_2; by eapply list_elem_of_lookup_2).
    destruct (Hr i f f' Hf Hi) as [Hs Ho]. apply Ho; [done|]. apply (Hdec i f Hf). eapply bearing_same; [done| |done]. intros <-. done.
Qed.

Lemma ratified_reachable draft_id vertical version status key business patches s : Forall undecided business ->
  apply_patches draft_id (snapshot_schema vertical version status key [] business) patches = Ok s -> ratify_violations s = [] ->
  decisions_reachable key business.
Proof.
  intros Hu Hp Hr i f Hf Hbear Hagain.
  destruct (patches_keep_shadowed _ _ _ _ _ business _ _ _ _ Hp (conj eq_refl (fun i f Hf _ => Hf))) as (nk & b' & -> & _ & Hk).
  apply ratified_iff in Hr as [_ Hr]. pose proof (Hk i f Hf Hagain) as Hf'. assert (fi_origin f = VStr "human") as Ho.
  { apply Hr; [apply elem_of_app; right; by eapply list_elem_of_lookup_2|]. by apply bearing_own. }
  eapply Forall_lookup_1 in Hu as [Hi _]; [|exact Hf]. congruence.
Qed.

Section Claims.
Context `{AtlasOutside}.

(** C10. A schema once published stays, and is fit for the generator.  In every console that any
    interleaving of create, patch and publish requests reaches, a published row reads back as a schema of
    its own vertical and table, whose natural key is set and whose every field that bears a curated
    attribute was decided by a human, and from which the model and the DDL can be generated.  Whatever
    happens after, the row is there unchanged, and no other row of its vertical and table is published. *)
Theorem published_schemas c c' r : console_reachable c -> r ∈ co_table c -> row_published r = true -> rtc console_step c c' ->
  (exists s t model ddl, parse_ir (dr_ir r) = Ok s /\ sc_vertical s = dr_vertical r /\ sc_status s = "published" /\
     sc_schema_version s = dr_schema_version r /\ sc_tables s = [t] /\ tb_key t = dr_table_key r /\
     tb_natural_key t <> [] /\ (forall f, f ∈ tb_fields t -> is_curated_bearing f t = true -> fi_origin f = VStr "human") /\
     render_model t s = Ok model /\ render_ddl t s = Ok ddl) /\
  r ∈ co_table c' /\
  forall q, q ∈ co_table c' -> row_published q = true -> dr_vertical q = dr_vertical r -> dr_table_key q = dr_table_key r -> q = r.
Proof.
  intros Hc Hr Hp Hsteps. pose proof (console_reachable_ok _ Hc) as Hok. destruct (steps_keep _ _ Hsteps Hok) as [[Hok' _] Hg].
  destruct Hok as [[_ Hrows _] _]. rewrite Forall_forall in Hrows. destruct (Hrows r Hr) as [Hv (s & (nk & b & -> & Hb & Hir) & Hst)].
  apply String.eqb_eq in Hp as Hps. assert (r ∈ co_table c') as Hr'.
  { destruct (Hg r Hr) as (r' & Hr' & _ & _ & _ & He). by rewrite <- (He Hp). }
  split_and!; [|done|].
  - destruct Hst as [Hd|[_ Hrat]]; [congruence|]. apply ratified_iff in Hrat as [Hnk Hf].
    destruct (snapshot_generates (dr_vertical r) 1 (dr_status r) (dr_table_key r) nk b Hb) as [[model Hmodel] [ddl Hddl]].
    exists (snapshot_schema (dr_vertical r) 1 (dr_status r) (dr_table_key r) nk b), (snapshot_table (dr_table_key r) nk b), model, ddl.
    rewrite Hir, (snapshot_read _ _ _ _ _ _ Hb). split_and!; done.
  - intros q Hq Hpq Hqv Hqk. by apply (so_unique _ Hok').
Qed.

(** C31. Which drafts can be published.  A draft as it is assembled from uploaded files, whatever the model
    proposed, can be brought past the publish gate by PATCH requests exactly when every business field that
    bears a proposed enumeration or a personal-data class is the last of its name: an edit reaches the last
    field of a name only, so that a field another one shadows keeps the origin [inferred] for ever. *)
Theorem ratifiable_iff `{ModelOutside} max vertical key files draft draft_id : draft_of max vertical key files = Ok draft ->
  (exists patches s, forallb draft_patch_ok patches = true /\ apply_patches draft_id draft patches = Ok s /\ check_publishable s = Ok tt) <->
  forall t i j f g, sc_tables draft = [t] -> tb_fields t !! i = Some f -> fi_produced_by f = MAPPING_PRODUCED ->
    is_curated_bearing f t = true -> (i < j)%nat -> tb_fields t !! j = Some g -> fi_name g <> fi_name f.
Proof.
  unfold draft_of. intros Hd. inv_ok.
  match goal with Ha : ui (assemble_draft_ir ?v ?k (columns_to_payload (profile_csvs ?fr)) (proposals_to_payload ?ps)) = Ok _ |- _ =>
    destruct (assembly_shape v k fr ps) as (b & Hsh & Hb & Hu); rewrite Hsh in Ha; injection Ha as <-; set (tk := k) in * end. clear Hsh.
  assert (forall s, check_publishable s = Ok tt <-> ratify_violations s = []) as Hgate.
  { intros s. unfold check_publishable, raise_if. destruct (bool_decide_reflect (length (ratify_violations s) = 0)) as [Hl|Hl]; cbn [negb]; [apply length_zero_iff_nil in Hl; done|].
    split; [done|]. intros He; by rewrite He in Hl. }
  trans (decisions_reachable tk b); split.
  - intros (patches & s & _ & Hp & Hsp%Hgate). by eapply ratified_reachable.
  - intros Hdec. destruct (reachable_ratifies draft_id vertical 1 "draft" tk b Hb Hdec) as (p & s & Hbody & Hp & Hsp).
    exists [p], s. split_and!; [cbn; by rewrite Hbody|unfold apply_patches; cbn [fold_res]; by rewrite Hp|by apply Hgate].
  - intros Hdec t i j f g Ht Hf Hm Hbear Hij Hg Hn. injection Ht as <-. cbn [snapshot_table tb_fields] in *.
    rewrite lookup_app in Hf. destruct (SNAPSHOT_SYSTEM_PROFILE !! i) as [h|] eqn:Hi; [injection Hf as ->; by destruct (system_not_mapped _ _ Hi)|].
    apply lookup_ge_None in Hi. rewrite lookup_app_r in Hg by lia.
    apply (Hdec _ _ Hf Hbear). exists (j - length SNAPSHOT_SYSTEM_PROFILE)%nat, g. split_and!; [lia|done..].
  - intros Hall i f Hf Hbear (j & g & Hij & Hg & Hn). eapply Forall_lookup_1 in Hb as [Hm _ _]; [|exact Hf].
    apply (Hall _ (length SNAPSHOT_SYSTEM_PROFILE + i) (length SNAPSHOT_SYSTEM_PROFILE + j) f g eq_refl)%nat; [|done|done|lia| |done];
      cbn [snapshot_table tb_fields]; rewrite lookup_app_r by lia;
      [by replace (length SNAPSHOT_SYSTEM_PROFILE + i - length SNAPSHOT_SYSTEM_PROFILE)%nat with i by lia
      |by replace (length SNAPSHOT_SYSTEM_PROFILE + j - length SNAPSHOT_SYSTEM_PROFILE)%nat with j by lia].
Qed.
End Claims.
