(* ===== verification/AtlasRequests.v ===== *)
(** AtlasRequests: a request that the Atlas handlers serve, as steps of the console, and what a client
    reads after it wrote. *)

From S2P Require Import Prelude Text Values Decimals Paths PathTheorems UiErrors Access Rls Ir Profiler Codegen AtlasStore AtlasInvariant Atlas.

(** ** Uploads *)

Lemma substring_split n : forall s, String.substring 0 n s +:+ String.substring n (String.length s - n) s = s.
Proof.
  induction n as [|n IH]; intros [|c s]; try done.
  - change (String.substring 0 (String.length (String c s)) (String c s) = String c s). apply substring_full.
  - cbn. rewrite str_app_cons. f_equal. apply IH.
Qed.

Lemma substring_length n : forall s, String.length (String.substring 0 n s) = Nat.min n (String.length s).
Proof. induction n as [|n IH]; intros [|c s]; try done. cbn. f_equal. apply IH. Qed.

Lemma chunk_positive : (0 < READ_CHUNK)%nat.
Proof. apply Nat.ltb_lt. vm_compute. reflexivity. Qed.

Lemma length_zero (s : string) : String.length s = 0%nat -> s = "".
Proof. by destruct s. Qed.

(** The bytes of an upload within the limit come back as they are; past it nothing does, and no more than the
    upload was counted. *)
Lemma read_bounded_from_spec max fuel : forall total rest, (String.length rest < fuel)%nat -> (total <= max)%Z ->
  if (total + Z.of_nat (String.length rest) <=? max)%Z then read_bounded_from fuel max total rest = Ok rest
  else exists seen, (max < seen <= total + Z.of_nat (String.length rest))%Z /\ read_bounded_from fuel max total rest = Err (PayloadTooLargeError max seen).
Proof.
  pose proof chunk_positive as Hpos. induction fuel as [|fuel IH]; intros total rest Hlen Htot; [lia|]. cbn [read_bounded_from]. cbv zeta.
  generalize dependent READ_CHUNK. intros n Hpos. pose proof (substring_split n rest) as Hsplit. pose proof (substring_length n rest) as Hch.
  set (chunk := String.substring 0 n rest) in *. set (rest' := String.substring n _ rest) in *.
  assert (String.length rest = String.length chunk + String.length rest')%nat as Hsum by (rewrite <- Hsplit at 1; apply str_length_app).
  destruct (String.eqb_spec chunk "") as [He|He].
  { assert (rest = "") as -> by (apply length_zero; rewrite He in Hch; cbn in Hch; lia). cbn. by rewrite Z.add_0_r, (proj2 (Z.leb_le _ _) Htot). }
  assert (0 < String.length chunk)%nat as Hc by (destruct chunk; [done|cbn; lia]).
  unfold raise_if. destruct (Z.ltb_spec max (total + Z.of_nat (String.length chunk))) as [Hlt|Hge].
  - destruct (Z.leb_spec (total + Z.of_nat (String.length rest)) max) as [Hle|_]; [lia|]. eexists. split; [|reflexivity]. lia.
  - specialize (IH (total + Z.of_nat (String.length chunk))%Z rest' ltac:(lia) Hge). cbn [mbind result_bind].
    replace (total + Z.of_nat (String.length chunk) + Z.of_nat (String.length rest'))%Z with (total + Z.of_nat (String.length rest))%Z in IH by lia.
    destruct (Z.leb_spec (total + Z.of_nat (String.length rest)) max).
    + rewrite IH. cbn [mbind result_bind]. by rewrite Hsplit.
    + destruct IH as (seen & Hs & ->). exists seen. split; [lia|done].
Qed.

Lemma read_bounded_spec upload max : (0 <= max)%Z ->
  if (Z.of_nat (String.length upload) <=? max)%Z then read_bounded upload max = Ok upload
  else exists seen, (max < seen <= Z.of_nat (String.length upload))%Z /\ read_bounded upload max = Err (PayloadTooLargeError max seen).
Proof. intros Hm. apply (read_bounded_from_spec max (S (String.length upload)) 0 upload); [lia|done]. Qed.

(** ** Sessions *)

(** A session of the store: it did what it is for, or left the table. *)
Lemma reads_inv {A} (f : drafts -> ures A) en t r en' t' : reads f (en, t) = (r, (en', t')) ->
  t' = t /\ (forall a, r = Ok a -> f t = Ok a /\ en' = mkEngine true (en_posture en) true).
Proof.
  unfold reads, rls_platform_session, verified_transaction. destruct (en_reachable en); cbn [negb]; [|by intros [= <- <- <-]].
  destruct (if en_verified en then _ else _) as [[]|err]; [|by intros [= <- <- <-]]. destruct (f t) as [x|e] eqn:Hf; intros [= <- <- <-]; [|done].
  split; [done|]. by intros a [= ->].
Qed.

Lemma writes_inv (f : drafts -> ures drafts) en t r en' t' : writes f (en, t) = (r, (en', t')) ->
  (exists e, r = Err e /\ t' = t) \/ (r = Ok tt /\ f t = Ok t' /\ en' = mkEngine true (en_posture en) true).
Proof.
  unfold writes, rls_platform_session, verified_transaction. destruct (en_reachable en); cbn [negb]; [|intros [= <- <- <-]; left; by eexists].
  destruct (if en_verified en then _ else _) as [[]|err]; [|intros [= <- <- <-]; left; by eexists].
  destruct (f t) as [x|e] eqn:Hf; intros [= <- <- <-]; [by right|left; by eexists].
Qed.

(** An engine that was used answers the next read. *)
Lemma reads_used {A} (f : drafts -> ures A) p t a : f t = Ok a -> reads f (mkEngine true p true, t) = (Ok a, (mkEngine true p true, t)).
Proof. intros Hf. unfold reads, rls_platform_session, verified_transaction. cbn. by rewrite Hf. Qed.

Section Requests.
Context `{AuthOutside} `{ModelOutside} `{AtlasOutside}.

Lemma get_inv draft_id en t r en' t' : get pg_uuid draft_id (en, t) = (r, (en', t')) ->
  t' = t /\ (forall s, r = Ok s -> stored draft_id t = Ok s /\ en' = mkEngine true (en_posture en) true).
Proof.
  unfold get. intros [(e & Hr & ->)|(row & [en1 t1] & Hr & Hg)]%action_bind_inv; apply reads_inv in Hr as [-> Hr]; [done|].
  destruct (Hr row eq_refl) as [Hrow ->]. unfold stored. rewrite Hrow. cbn [mbind result_bind].
  destruct row as [ir|]; unfold act in Hg; injection Hg as <- <- <-; split; try done; by intros s ->.
Qed.

Lemma get_used draft_id p t s : stored draft_id t = Ok s -> get pg_uuid draft_id (mkEngine true p true, t) = (Ok s, (mkEngine true p true, t)).
Proof.
  unfold stored, get. intros (row & Hrow & Hs)%bind_ok. unfold mbind, action_bind. rewrite (reads_used _ _ _ _ Hrow).
  destruct row as [ir|]; [|done]. unfold act. by rewrite Hs.
Qed.

(** ** Requests as steps *)

Lemma job_step now j t r t' js : run_job now j t = (r, t') -> console_step (mkConsole t (j :: js)) (mkConsole t' (rest_of r ++ js)).
Proof. exact (Job_runs now [] j js t r t'). Qed.

Lemma job_end j t js : console_step (mkConsole t (j :: js)) (mkConsole t js).
Proof. exact (Job_lost [] j js t). Qed.

Lemma job_then now j t j' t' js c : run_job now j t = (Ok (Some j'), t') -> rtc console_step (mkConsole t' (j' :: js)) c ->
  rtc console_step (mkConsole t (j :: js)) c.
Proof. intros Hj. apply rtc_l. exact (job_step _ _ _ _ _ js Hj). Qed.

Lemma lost j t js : rtc console_step (mkConsole t (j :: js)) (mkConsole t js).
Proof. apply rtc_once, job_end. Qed.

(** What an update does, and what it says. *)
Lemma update_run draft_id u now en t r en' t' js : update pg_uuid draft_id u now (en, t) = (r, (en', t')) ->
  rtc console_step (mkConsole t (JUpdate draft_id u :: js)) (mkConsole t' js) /\
  (forall a, r = Ok a -> en' = mkEngine true (en_posture en) true /\ write_ir pg_uuid draft_id u now t = Ok t' /\
     exists current, stored draft_id t = Ok current /\ check_editable draft_id current u = Ok tt).
Proof.
  unfold update. intros [(e & Hg & ->)|(cur & [en1 t1] & Hg & Hu)]%action_bind_inv; apply get_inv in Hg as [-> Hg]; [split; [apply lost|done]|].
  destruct (Hg cur eq_refl) as [Hs ->]. unfold mbind, action_bind, act in Hu.
  destruct (check_editable draft_id cur u) as [[]|e] eqn:Hc; [|injection Hu as <- <- <-; split; [apply lost|done]].
  apply writes_inv in Hu as [(e & -> & ->)|(-> & Hw & ->)]; (split; [|try done]).
  - eapply (job_then now); [|apply lost]. cbn. rewrite Hs. cbn. by rewrite Hc.
  - eapply (job_then now); [cbn; rewrite Hs; cbn; by rewrite Hc|]. apply rtc_once.
    apply (job_step now (JWrite draft_id u) t (Ok None)). cbn. by rewrite Hw.
  - intros a _. split_and!; [done..|]. by exists cur.
Qed.

Lemma freeze_run draft_id version now en t r en' t' js : freeze pg_uuid draft_id version now (en, t) = (r, (en', t')) ->
  rtc console_step (mkConsole t (JFreeze draft_id version :: js)) (mkConsole t' js) /\
  (forall s, r = Ok s -> en' = mkEngine true (en_posture en) true /\ write_frozen pg_uuid draft_id version s now t = Ok t' /\
     exists current, stored draft_id t = Ok current /\ check_freezable draft_id current = Ok tt /\ s = freeze_at version current).
Proof.
  unfold freeze. intros [(e & Hg & ->)|(cur & [en1 t1] & Hg & Hu)]%action_bind_inv; apply get_inv in Hg as [-> Hg]; [split; [apply lost|done]|].
  destruct (Hg cur eq_refl) as [Hs ->]. apply action_bind_inv in Hu as [(e & Hc & ->)|(u & st & Hc & Hu)]; unfold act in Hc.
  { injection Hc as _ <- <-. split; [apply lost|done]. }
  injection Hc as Hc <-. destruct u. apply action_bind_inv in Hu as [(e & Hw & ->)|([] & [en2 t2] & Hw & Hu)]; apply writes_inv in Hw.
  { destruct Hw as [(e' & _ & ->)|[? _]]; [|done]. split; [apply lost|done]. }
  destruct Hw as [(e' & ? & _)|(_ & Hw & ->)]; [done|]. unfold mret, action_ret in Hu. injection Hu as <- <- <-. split.
  - eapply (job_then now); [cbn; rewrite Hs; cbn; by rewrite Hc|]. apply rtc_once.
    apply (job_step now (JFrozen draft_id version (freeze_at version cur)) t (Ok None)). cbn. by rewrite Hw.
  - intros s [= <-]. split_and!; [done..|]. by exists cur.
Qed.

(** ** Reading what was written *)

Lemma find_app_r {A} (p : A -> bool) l x : existsb p l = false -> p x = true -> List.find p (l ++ [x]) = Some x.
Proof. intros Hl Hx. induction l as [|y l IH]; cbn in *; [by rewrite Hx|]. apply orb_false_iff in Hl as [-> Hl]. by apply IH. Qed.

Lemma stored_insert fresh d table now t t' : insert_draft (draft_row fresh d table now) t = Ok t' -> pg_uuid fresh = Some fresh ->
  stored fresh t' = ui (parse_ir (schema_to_document d)).
Proof.
  intros Hi Hid. unfold insert_draft in Hi. inv_ok. unfold stored, select_ir, with_id. rewrite Hid.
  rewrite (find_app_r _ _ (draft_row fresh d table now)); [done| |apply String.eqb_refl].
  by match goal with Hx : existsb _ t = false |- _ => exact Hx end.
Qed.

Lemma stored_written draft_id id set ir t t' s : update_draft id set t = Ok t' -> pg_uuid draft_id = Some id ->
  (forall r, dr_id (set r) = dr_id r /\ dr_ir (set r) = ir) -> stored draft_id t = Ok s -> stored draft_id t' = ui (parse_ir ir).
Proof.
  intros Hu Hid Hset. unfold stored, select_ir, with_id. rewrite Hid. cbn [mbind result_bind]. unfold update_draft in Hu. inv_ok. clear -Hset.
  induction t as [|q t IH]; cbn; [done|]. destruct (String.eqb_spec (dr_id q) id) as [He|He].
  - rewrite (proj1 (Hset q)), He, String.eqb_refl. intros _. cbn. by rewrite (proj2 (Hset q)).
  - destruct (String.eqb_spec (dr_id q) id); [done|]. exact IH.
Qed.

Lemma get_draft_used r who draft_id p t s w : require_super_admin r = Ok who -> stored draft_id t = Ok s -> draft_to_wire draft_id s = Ok w ->
  get_draft r draft_id (mkEngine true p true, t) = (Ok w, (mkEngine true p true, t)).
Proof. intros Hr Hs Hw. unfold get_draft, mbind, action_bind, act. by rewrite Hr, (get_used _ _ _ _ Hs), Hw. Qed.

(** ** The handlers *)

Lemma create_run max r vertical key files fresh now en t res en' t' js :
  create_draft max r vertical key files fresh now (en, t) = (res, (en', t')) ->
  rtc console_step (mkConsole t js) (mkConsole t' js) /\
  (forall w, res = Ok w -> exists who d table, require_super_admin r = Ok who /\ draft_of max vertical key files = Ok d /\
     first_table d = Ok table /\ insert_draft (draft_row fresh d table now) t = Ok t' /\ draft_to_wire fresh d = Ok w /\
     en' = mkEngine true (en_posture en) true).
Proof.
  unfold create_draft, create. intros Hc. unfold mbind at 1, action_bind at 1, act in Hc.
  destruct (require_super_admin r) as [who|e] eqn:Hr; [|injection Hc as <- <- <-; done].
  unfold mbind at 1, action_bind at 1 in Hc. destruct (draft_of max vertical key files) as [d|e] eqn:Hd; [|injection Hc as <- <- <-; done].
  assert (forall t1, rtc console_step (mkConsole t (JCreate fresh d :: js)) (mkConsole t1 js) -> rtc console_step (mkConsole t js) (mkConsole t1 js)) as Harr.
  { intros t1. apply rtc_l. by eapply Create_arrives. }
  apply action_bind_inv in Hc as [(e & Hc & ->)|(id & [en1 t1] & Hc & Hw)].
  - split; [|done]. apply Harr. apply action_bind_inv in Hc as [(e' & Hf & _)|(table & st & Hf & Hc)]; unfold act in Hf; injection Hf as Hf <-.
    + subst. apply lost.
    + apply action_bind_inv in Hc as [(e' & Hi & _)|(u & [en2 t2] & Hi & Hc)]; [|done].
      apply writes_inv in Hi as [(? & _ & ->)|[? _]]; [apply lost|done].
  - apply action_bind_inv in Hc as [(e' & _ & ?)|(table & st & Hf & Hc)]; [done|]. unfold act in Hf. injection Hf as Hf <-.
    apply action_bind_inv in Hc as [(e' & _ & ?)|(u & [en2 t2] & Hi & Hc)]; [done|]. unfold mret, action_ret in Hc. injection Hc as <- <- <-.
    apply writes_inv in Hi as [(? & ? & _)|(_ & Hi & ->)]; [done|]. unfold act in Hw. injection Hw as <- <- <-. split.
    + apply Harr, rtc_once. apply (job_step now (JCreate fresh d) t (Ok None)). cbn. rewrite Hf. cbn. by rewrite Hi.
    + intros w Hw. by exists who, d, table.
Qed.

Lemma patch_run r draft_id patch now en t res en' t' js : patch_draft r draft_id patch now (en, t) = (res, (en', t')) ->
  rtc console_step (mkConsole t js) (mkConsole t' js) /\
  (forall w, res = Ok w -> exists who d u, require_super_admin r = Ok who /\ stored draft_id t = Ok d /\ apply_patch d patch draft_id = Ok u /\
     draft_to_wire draft_id u = Ok w /\ write_ir pg_uuid draft_id u now t = Ok t' /\ en' = mkEngine true (en_posture en) true).
Proof.
  unfold patch_draft. intros Hc. unfold mbind at 1, action_bind at 1, act at 1 in Hc.
  destruct (require_super_admin r) as [who|e] eqn:Hr; [|injection Hc as <- <- <-; done].
  unfold mbind at 1, action_bind at 1, act at 1 in Hc. destruct (draft_patch_ok patch) eqn:Hb; cbn [negb raise_if] in Hc; [|injection Hc as <- <- <-; done].
  assert (forall t1, rtc console_step (mkConsole t (JPatch draft_id patch :: js)) (mkConsole t1 js) -> rtc console_step (mkConsole t js) (mkConsole t1 js)) as Harr.
  { intros t1. apply rtc_l. by eapply Patch_arrives. }
  apply action_bind_inv in Hc as [(e & Hg & ->)|(d & [en1 t1] & Hg & Hc)]; apply get_inv in Hg as [-> Hg]; [split; [apply Harr, lost|done]|].
  destruct (Hg d eq_refl) as [Hs ->]. unfold mbind at 1, action_bind at 1, act at 1 in Hc.
  destruct (apply_patch d patch draft_id) as [u|e] eqn:Hp; [|injection Hc as <- <- <-; split; [apply Harr, lost|done]].
  assert (forall t1, rtc console_step (mkConsole t (JUpdate draft_id u :: js)) (mkConsole t1 js) -> rtc console_step (mkConsole t js) (mkConsole t1 js)) as Hup.
  { intros t1 Ht1. apply Harr. eapply (job_then now); [|exact Ht1]. cbn. rewrite Hs. cbn. by rewrite Hp. }
  apply action_bind_inv in Hc as [(e & Hu & ->)|(x & [en2 t2] & Hu & Hw)]; apply (update_run _ _ _ _ _ _ _ _ js) in Hu as [Hsteps Hu].
  - split; [by apply Hup|done].
  - destruct (Hu x eq_refl) as (-> & Hwr & _). unfold act in Hw. injection Hw as <- <- <-. split; [by apply Hup|]. intros w Hw. by exists who, d, u.
Qed.

Lemma publish_run r draft_id now en t res en' t' js : publish_draft r draft_id now (en, t) = (res, (en', t')) ->
  rtc console_step (mkConsole t js) (mkConsole t' js) /\
  (forall w, res = Ok w -> exists who d current, require_super_admin r = Ok who /\ stored draft_id t = Ok d /\ check_publishable d = Ok tt /\
     stored draft_id t = Ok current /\ write_frozen pg_uuid draft_id (sc_schema_version d) (freeze_at (sc_schema_version d) current) now t = Ok t' /\
     w = mkReceipt draft_id (sc_vertical current) "published" (sc_schema_version d) (default false audit_sink) /\ en' = mkEngine true (en_posture en) true).
Proof.
  unfold publish_draft. intros Hc. unfold mbind at 1, action_bind at 1, act at 1 in Hc.
  destruct (require_super_admin r) as [who|e] eqn:Hr; [|injection Hc as <- <- <-; done].
  assert (forall t1, rtc console_step (mkConsole t (JPublish draft_id :: js)) (mkConsole t1 js) -> rtc console_step (mkConsole t js) (mkConsole t1 js)) as Harr.
  { intros t1. apply rtc_l. by eapply Publish_arrives. }
  apply action_bind_inv in Hc as [(e & Hg & ->)|(d & [en1 t1] & Hg & Hc)]; apply get_inv in Hg as [-> Hg]; [split; [apply Harr, lost|done]|].
  destruct (Hg d eq_refl) as [Hs ->]. unfold mbind at 1, action_bind at 1, act at 1 in Hc.
  destruct (check_publishable d) as [[]|e] eqn:Hp; [|injection Hc as <- <- <-; split; [apply Harr, lost|done]].
  assert (forall t1, rtc console_step (mkConsole t (JFreeze draft_id (sc_schema_version d) :: js)) (mkConsole t1 js) ->
    rtc console_step (mkConsole t js) (mkConsole t1 js)) as Hup.
  { intros t1 Ht1. apply Harr. eapply (job_then now); [|exact Ht1]. cbn. rewrite Hs. cbn. by rewrite Hp. }
  apply action_bind_inv in Hc as [(e & Hu & ->)|(x & [en2 t2] & Hu & Hw)]; apply (freeze_run _ _ _ _ _ _ _ _ js) in Hu as [Hsteps Hu].
  - split; [by apply Hup|done].
  - destruct (Hu x eq_refl) as (-> & Hwr & cur & Hcur & _ & ->). unfold mret, action_ret in Hw. injection Hw as <- <- <-. split; [by apply Hup|].
    intros w [= <-]. by exists who, d, cur.
Qed.

(** C32. A client of the Atlas console reads what it wrote.  On a table any requests can have left, the draft
    that POST answers, and the draft that PATCH answers, are what GET then answers for that id; and after a
    publish that answers a receipt, GET answers the draft with the receipt's vertical, status and version.  Each
    of these requests, whatever it answers and on any engine, is a sequence of steps of the console. *)
Theorem clients_read_back r c : console_reachable c ->
  (forall max vertical key files fresh now en res en' t',
     create_draft max r vertical key files fresh now (en, co_table c) = (res, (en', t')) ->
     rtc console_step c (mkConsole t' (co_jobs c)) /\
     forall w, res = Ok w -> pg_uuid fresh = Some fresh -> get_draft r fresh (en', t') = (Ok w, (en', t'))) /\
  (forall draft_id patch now en res en' t', patch_draft r draft_id patch now (en, co_table c) = (res, (en', t')) ->
     rtc console_step c (mkConsole t' (co_jobs c)) /\
     forall w, res = Ok w -> get_draft r draft_id (en', t') = (Ok w, (en', t'))) /\
  (forall draft_id now en res en' t', publish_draft r draft_id now (en, co_table c) = (res, (en', t')) ->
     rtc console_step c (mkConsole t' (co_jobs c)) /\
     forall p, res = Ok p -> exists w, get_draft r draft_id (en', t') = (Ok w, (en', t')) /\
       ad_vertical w = pr_vertical p /\ ad_status w = pr_status p /\ pr_status p = "published" /\ ad_schema_version w = pr_schema_version p).
Proof.
  intros Hc. pose proof (console_reachable_ok _ Hc) as [Hok _]. destruct c as [t js]. cbn [co_table co_jobs] in *. split_and!.
  - intros max vertical key files fresh now en res en' t' Hrun. destruct (create_run _ _ _ _ _ _ _ _ _ _ _ _ js Hrun) as [Hsteps Hw]. split; [done|].
    intros w -> Hid. destruct (Hw w eq_refl) as (who & d & table & Hr & Hd & Hf & Hi & Hwire & ->).
    destruct (draft_of_shape _ _ _ _ _ Hd) as (v & k & b & -> & Hb).
    eapply get_draft_used; [done| |done]. rewrite (stored_insert _ _ _ _ _ _ Hi Hid). by rewrite (snapshot_read _ _ _ _ _ _ Hb).
  - intros draft_id patch now en res en' t' Hrun. destruct (patch_run _ _ _ _ _ _ _ _ _ js Hrun) as [Hsteps Hw]. split; [done|].
    intros w ->. destruct (Hw w eq_refl) as (who & d & u & Hr & Hs & Hp & Hwire & Hwr & ->).
    destruct (stored_ok _ _ _ Hok Hs) as (q & Hq & Hid & nk & b & -> & Hb & _). destruct (patch_shape _ _ _ _ _ _ _ _ _ Hp Hb) as (nk' & b' & -> & Hb' & _).
    unfold write_ir, with_id in Hwr. rewrite Hid in Hwr. eapply get_draft_used; [done| |done].
    rewrite (stored_written _ _ _ _ _ _ _ Hwr Hid (fun _ => conj eq_refl eq_refl) Hs). by rewrite (snapshot_read _ _ _ _ _ _ Hb').
  - intros draft_id now en res en' t' Hrun. destruct (publish_run _ _ _ _ _ _ _ _ js Hrun) as [Hsteps Hw]. split; [done|].
    intros p ->. destruct (Hw p eq_refl) as (who & d & cur & Hr & Hs & _ & Hs' & Hwr & -> & ->).
    destruct (stored_ok _ _ _ Hok Hs') as (q & Hq & Hid & nk & b & -> & Hb & _).
    unfold write_frozen, with_id in Hwr. rewrite Hid in Hwr.
    assert (stored draft_id t' = Ok (snapshot_schema (dr_vertical q) (sc_schema_version d) "published" (dr_table_key q) nk b)) as Hst.
    { rewrite (stored_written _ _ _ _ _ _ _ Hwr Hid (fun _ => conj eq_refl eq_refl) Hs). unfold freeze_at.
      cbn [snapshot_schema sc_vertical sc_system_profile sc_types sc_enums sc_tables].
      change (mkSchemaIR (dr_vertical q) (sc_schema_version d) "published" "dis.v1" [] [] [snapshot_table (dr_table_key q) nk b]) with
        (snapshot_schema (dr_vertical q) (sc_schema_version d) "published" (dr_table_key q) nk b).
      by rewrite (snapshot_read _ _ _ _ _ _ Hb). }
    eexists. split; [exact (get_draft_used _ _ _ _ _ _ _ Hr Hst eq_refl)|by split_and!].
Qed.
End Requests.
