(* ===== verification/AtlasSample.v ===== *)
(** AtlasSample: a draft from upload to publication, and the drafts that cannot get there. *)

From S2P Require Import Prelude Text Values Decimals Paths UiErrors Access Rls TenantSample Console.
From S2P Require Import Ir Profiler Codegen AtlasStore AtlasInvariant Atlas AtlasTheorems AtlasRequests.

Definition admin_auth : AuthOutside := {|
  jwt_decode token := Ok (token_claims "PLATFORM" [] [SUPER_ADMIN_ROLE]);
  cm_base_url := Some "https://cm";
  cm_get _ := Response 200 (Some (VDict [(ENVELOPE_KEY, VList [])]))
|}.

(** A file is its headers and rows; here two fixed ones. *)
Definition shelf_frame : csv_frame := mkCsvFrame 3
  [("Item Code", [Some "A-1"; Some "A-2"; Some "A-3"]); ("Shelf", [Some "top"; Some "top"; Some "low"]); ("Price", [Some "1.50"; Some "20"; None])].

Definition atlas_outside : AtlasOutside := {|
  pg_uuid s := if is_uuid_text s then Some s else None;
  polars_read content := if String.eqb content "shelf" then Ok shelf_frame else Err ValueError;
  audit_sink := Some true
|}.

Definition no_model : ModelOutside := {| model_configured := false; model_answer _ := Err ValueError |}.

(** A model that gives the shelf the name of the price. *)
Definition clashing_model : ModelOutside := {|
  model_configured := true;
  model_answer _ := Ok (VDict [("proposals", VList [VDict [("source_column", VStr "shelf"); ("name", VStr "price")]])])
|}.

Definition draft_1 : uuid := "11111111-0000-0000-0000-0000000000a1".
Definition draft_2 : uuid := "22222222-0000-0000-0000-0000000000a2".

Abbreviation new_draft model fresh := (@create_draft admin_auth model atlas_outside 1000 (bearer "x") "grocery" None ["shelf"] fresh 100).
Abbreviation edit id patch := (@patch_draft admin_auth atlas_outside (bearer "x") id patch 200).
Abbreviation publish id := (@publish_draft admin_auth atlas_outside (bearer "x") id 300).
Abbreviation show id := (@get_draft admin_auth atlas_outside (bearer "x") id).

Definition key_patch : DraftPatch :=
  mkDraftPatch (Some ["item_code"]) [ratify_edit "item_code"; mkFieldEdit "shelf" None (Some true) None (Some ["top"; "low"]) (Some "human")].

Definition at_start : engine * drafts := (good_engine, []).
Definition drafted : engine * drafts := (new_draft no_model draft_1 at_start).2.
Definition decided : engine * drafts := (edit draft_1 key_patch drafted).2.
Definition frozen : engine * drafts := (publish draft_1 decided).2.

(** The profile: the enumeration of the shelf is proposed, the price is a decimal that may be absent; the
    capacity comes from the one cell with a fraction. *)
Definition schema_in (t : drafts) : res SchemaIR := match t with [r] => parse_ir (dr_ir r) | _ => Err ValueError end.

Example drafted_fields :
  (s ← schema_in drafted.2; let business := drop 9 (flat_map tb_fields (sc_tables s)) in
   Ok (map (fun f => (fi_name f, fi_type_ref f, fi_nullable f, fi_enum_candidate f)) business, map fi_inline_type (drop 2 business), ratify_violations s)) =
  Ok ([("item_code", "str", false, []); ("shelf", "str", false, [VStr "low"; VStr "top"]); ("price", "decimal", true, [])],
      [Some (mkTypeIR "decimal" (VInt 3) (VInt 2) VNone VNone)],
      ["grocery_snapshot.shelf: curated attribute still origin: inferred (needs ratification)";
       "grocery_snapshot: merge_upsert table has no ratified natural_key"]).
Proof. vm_compute. reflexivity. Qed.

Example published_once : (publish draft_1 decided).1 = Ok (mkReceipt draft_1 "grocery" "published" 1 true) /\
  map dr_status frozen.2 = ["published"] /\
  (publish draft_1 drafted).1 = Err (DraftNotRatifiedError
    ["grocery_snapshot.shelf: curated attribute still origin: inferred (needs ratification)";
     "grocery_snapshot: merge_upsert table has no ratified natural_key"]) /\
  (edit draft_1 key_patch frozen).1 = Err (DraftStateConflictError (Some draft_1) (Some "draft") (Some "published")).
Proof. split_and!; vm_compute; reflexivity. Qed.

(** A system field is not edited, an unknown field not found; a key that no field has is accepted. *)
Example edits_refused :
  (edit draft_1 (mkDraftPatch None [ratify_edit "tenant_id"]) drafted).1 = Err (DraftStateConflictError (Some draft_1) None None) /\
  (edit draft_1 (mkDraftPatch None [ratify_edit "weight"]) drafted).1 = Err (ResourceNotFoundError "atlas_draft_field" "weight") /\
  (publish draft_1 (edit draft_1 (mkDraftPatch (Some ["no_such_field"]) [ratify_edit "shelf"]) drafted).2).1 =
    Ok (mkReceipt draft_1 "grocery" "published" 1 true).
Proof. split_and!; vm_compute; reflexivity. Qed.

(** A second draft of the same table ends in an error of the database; the in-memory store takes it. *)
Example second_draft_never_published :
  (publish draft_2 (edit draft_2 key_patch (new_draft no_model draft_2 frozen).2).2).1 = Err (DatabaseError "23505").
Proof. vm_compute. reflexivity. Qed.

(** A draft id that is no UUID is an error of the database, where the in-memory store finds nothing. *)
Example not_a_uuid : (show "7" frozen).1 = Err (DatabaseError "22P02") /\ InMemory.mem_get "7" [] = Err (draft_not_found "7").
Proof. split; vm_compute; reflexivity. Qed.

(** Two PATCH requests that overlap: each reads the draft before the other writes, both are answered, and the
    edit of the first is gone. *)
Definition after {A} (r : ures (option A)) : option A := match r with Ok j => j | Err _ => None end.

Fixpoint run_turns (turns : list bool) (jobs : option job * option job) (t : drafts) : (option job * option job) * drafts :=
  match turns with
  | [] => (jobs, t)
  | first :: turns =>
      match (if first then jobs.1 else jobs.2) with
      | None => run_turns turns jobs t
      | Some j => let '(r, t') := @run_job atlas_outside 200 j t in
                  run_turns turns (if first then (after r, jobs.2) else (jobs.1, after r)) t'
      end
  end.

Definition key_only : DraftPatch := mkDraftPatch (Some ["item_code"]) [].
Definition shelf_only : DraftPatch := mkDraftPatch None [ratify_edit "shelf"].

Definition key_after (turns : list bool) : option (list (list string)) :=
  let '(jobs, t) := run_turns turns (Some (JPatch draft_1 key_only), Some (JPatch draft_1 shelf_only)) drafted.2 in
  match jobs, schema_in t with (None, None), Ok s => Some (map tb_natural_key (sc_tables s)) | _, _ => None end.

Example overlapping_patch_lost :
  key_after [true; true; true; false; false; false] = Some [["item_code"]] /\ key_after [true; false; true; true; false; false] = Some [[]].
Proof. split; vm_compute; reflexivity. Qed.

(** ** Witnesses *)

Section Witnesses.
#[local] Existing Instance atlas_outside.
#[local] Existing Instance admin_auth.
#[local] Existing Instance no_model.

Lemma empty_reachable : console_reachable empty_console.
Proof. apply rtc_refl. Qed.

Lemma clients_read_back_witness :
  (exists w, (new_draft no_model draft_1 at_start).1 = Ok w /\ (show draft_1 drafted).1 = Ok w) /\ rtc console_step empty_console (mkConsole drafted.2 []).
Proof.
  destruct (clients_read_back (bearer "x") empty_console empty_reachable) as [Hcreate _].
  specialize (Hcreate 1000%Z "grocery" None ["shelf"] draft_1 100%Z good_engine (new_draft no_model draft_1 at_start).1 drafted.1 drafted.2).
  destruct Hcreate as [Hsteps Hw]; [unfold drafted; cbn [co_table empty_console]; unfold at_start; by destruct (create_draft _ _ _ _ _ _ _ _) as [? [? ?]]|].
  split; [|exact Hsteps]. destruct (new_draft no_model draft_1 at_start).1 as [w|e] eqn:Hc; [|by vm_compute in Hc].
  exists w. split; [done|]. assert (drafted = (drafted.1, drafted.2)) as -> by (by destruct drafted). by rewrite (Hw w eq_refl).
Defined.

Lemma split_run {A} (x : ures A * (engine * drafts)) : x = (x.1, (x.2.1, x.2.2)).
Proof. by destruct x as [r [en t]]. Qed.

Lemma frozen_reachable : console_reachable (mkConsole frozen.2 []).
Proof.
  unfold console_reachable, empty_console. trans (mkConsole drafted.2 []); [|trans (mkConsole decided.2 [])].
  - exact (proj1 (create_run _ _ _ _ _ _ _ _ _ _ _ _ [] (split_run (new_draft no_model draft_1 at_start)))).
  - assert (drafted = (drafted.1, drafted.2)) as Hd by (by destruct drafted).
    exact (proj1 (patch_run _ _ _ _ _ _ _ _ _ [] (eq_trans (f_equal (edit draft_1 key_patch) (eq_sym Hd)) (split_run (edit draft_1 key_patch drafted))))).
  - assert (decided = (decided.1, decided.2)) as Hd by (by destruct decided).
    exact (proj1 (publish_run _ _ _ _ _ _ _ _ [] (eq_trans (f_equal (publish draft_1) (eq_sym Hd)) (split_run (publish draft_1 decided))))).
Qed.

Definition frozen_row : DraftRow := List.nth 0 frozen.2 (mkDraftRow "" "" "" "" 0 VNone 0 0 None).

Lemma published_schemas_witness : row_published frozen_row = true /\
  exists s t, parse_ir (dr_ir frozen_row) = Ok s /\ sc_tables s = [t] /\ tb_natural_key t = ["item_code"] /\
    exists model, render_model t s = Ok model.
Proof.
  assert (row_published frozen_row = true) as Hp by (vm_compute; reflexivity).
  assert (frozen_row ∈ frozen.2) as Hin by (apply list_elem_of_lookup; exists 0%nat; vm_compute; reflexivity).
  destruct (published_schemas (mkConsole frozen.2 []) (mkConsole frozen.2 [JPublish draft_1]) frozen_row frozen_reachable Hin Hp) as [(s & t & m & ddl & Hs & _ & _ & _ & Ht & _ & _ & _ & Hm & _) _].
  { apply rtc_once. by eapply (Publish_arrives admin_auth (bearer "x")). }
  split; [done|]. exists s, t. split_and!; [done|done| |by exists m].
  assert ((s' ← parse_ir (dr_ir frozen_row); Ok (map tb_natural_key (sc_tables s'))) = Ok [["item_code"]]) as Hk by (vm_compute; reflexivity).
  rewrite Hs in Hk. cbn in Hk. rewrite Ht in Hk. by injection Hk.
Defined.

Definition shelf_draft (model : ModelOutside) : SchemaIR :=
  match @draft_of model atlas_outside 1000 "grocery" None ["shelf"] with Ok d => d | Err _ => mkSchemaIR "" 0 "" "" [] [] [] end.

Lemma shelf_drafted : @draft_of no_model atlas_outside 1000 "grocery" None ["shelf"] = Ok (shelf_draft no_model).
Proof. vm_compute. reflexivity. Qed.
Lemma clashing_drafted : @draft_of clashing_model atlas_outside 1000 "grocery" None ["shelf"] = Ok (shelf_draft clashing_model).
Proof. vm_compute. reflexivity. Qed.

Definition fields_of (s : SchemaIR) : list FieldIR := flat_map tb_fields (sc_tables s).

(** With the names as they are the draft can be published; under the model that renames the shelf it cannot. *)
Lemma ratifiable_iff_witness :
  (exists patches s, forallb draft_patch_ok patches = true /\ apply_patches draft_1 (shelf_draft no_model) patches = Ok s /\ check_publishable s = Ok tt) /\
  ~ (exists patches s, forallb draft_patch_ok patches = true /\ apply_patches draft_1 (shelf_draft clashing_model) patches = Ok s /\
       check_publishable s = Ok tt).
Proof.
  split.
  - apply (@ratifiable_iff atlas_outside no_model 1000 "grocery" None ["shelf"] _ draft_1 shelf_drafted).
    intros t i j f g Ht Hf _ _ Hij Hg Hn. assert (NoDup (map fi_name (fields_of (shelf_draft no_model)))) as Hnd by (apply (bool_decide_unpack _); vm_compute; exact I).
    unfold fields_of in Hnd. rewrite Ht in Hnd. cbn [flat_map] in Hnd. rewrite app_nil_r in Hnd.
    assert (i = j); [|lia]. eapply (NoDup_lookup _ _ _ _ Hnd); rewrite list_lookup_fmap; [by rewrite Hf|]. by rewrite Hg, <- Hn.
  - rewrite (@ratifiable_iff atlas_outside clashing_model 1000 "grocery" None ["shelf"] _ draft_1 clashing_drafted). intros Hall.
    destruct (sc_tables (shelf_draft clashing_model)) as [|t [|]] eqn:Ht; [by vm_compute in Ht| |by vm_compute in Ht].
    assert (map fi_name (take 2 (drop 10 (fields_of (shelf_draft clashing_model)))) = ["price"; "price"]) as Hn by (vm_compute; reflexivity).
    assert (map (fun f => (bool_decide (fi_produced_by f = MAPPING_PRODUCED), match sc_tables (shelf_draft clashing_model) with u :: _ => is_curated_bearing f u | [] => false end))
      (take 1 (drop 10 (fields_of (shelf_draft clashing_model)))) = [(true, true)]) as Hb by (vm_compute; reflexivity).
    unfold fields_of in Hn, Hb. rewrite Ht in Hn, Hb. cbn [flat_map] in Hn, Hb. rewrite app_nil_r in Hn, Hb.
    destruct (drop 10 (tb_fields t)) as [|f [|g l]] eqn:Hd; [done|done|]. injection Hn as Hf Hg. injection Hb as Hm Hbear. apply bool_decide_eq_true in Hm.
    apply (Hall t 10 11 f g)%nat; [done| |done|done|lia| |congruence].
    + by rewrite <- (Nat.add_0_r 10), <- lookup_drop, Hd.
    + by rewrite (eq_refl : 11 = 10 + 1)%nat, <- lookup_drop, Hd.
Defined.

End Witnesses.
